(* ===== verification/_CoqProject ===== *)
-Q . S2P
Prelude.v
PowerState.v
Smccc.v
PowerTree.v
Composite.v
TreeInv.v
Coordination.v
Psci.v
PsciInv.v
TreeNew.v
PsciSystem.v
PsciCalls.v
Platforms.v
PlatformLaws.v
Sample.v
PsciProps.v
TreeProps.v
PlatformProps.v
Trng.v
TrngProofs.v
TrngProps.v
Gpt.v
Rmm.v
GptProofs.v
RmmProofs.v
RmmProps.v
FvpRmm.v
Services.v
ServicesProps.v
Spmd.v
SpmdProps.v
EarlyPagetable.v
EarlyPagetableProofs.v
EarlyPagetableProps.v
Context.v
Extensions.v
Simd.v
ContextProofs.v
ContextProps.v
ContextBoot.v
SimdProps.v
ContextSample.v
Asm.v
AsmProps.v
AsmWords.v
MemAsm.v
MemAsmProps.v
CacheAsmProps.v
ContextAsm.v
ContextAsmProps.v
WorldSwitchProps.v
ReflectProps.v
AsmSample.v
Cpu.v
ErrataProps.v
CpuProps.v
CpuSample.v
CrashAsm.v
CrashProps.v
CrashReport.v
CrashConsole.v
CrashConsoleProps.v
CrashPlatform.v
CrashSample.v
BootAsm.v
EarlyTablesAsm.v
BootProps.v
BootEntry.v
BootPlatform.v
BootSample.v
Logger.v
LoggerProps.v
Manifest.v
ManifestProps.v
ManifestSample.v
Gic.v
System.v
Firmware.v
FirmwareProps.v
FirmwareSample.v
