(* ===== verification/Prelude.v ===== *)
(** * Rusted Firmware-A: a verification development

    Rusted Firmware-A is the firmware that runs at EL3, the highest exception
    level of an Arm processor.  It answers secure monitor calls (SMCs) of the
    Normal World, the Secure World and the Realm World, switches between the
    worlds, and controls the power of the cores.  This development translates the
    parts that hold state and make decisions into Rocq functions and proves what
    makes them correct.  Source files are named relative to the repository.

    ** The parts and how they interact

    After reset the assembly of [src/bl31_entrypoint.S] prepares the first core and
    enters [bl31_main]; the other cores, and cores that resume, take
    [src/bl31_warm_entrypoint.S].  The main loop of [src/services.rs] enters a world
    until an exception returns to EL3: the exit and the exception vectors are the
    assembly of [src/context.S] and [src/runtime_exceptions.S], which keep the
    registers of a world in its context.  An SMC is dispatched to the service that
    owns its function identifier: architecture calls, power control (PSCI), the
    platform, the SPM dispatcher, errata management, random numbers (TRNG) or the RMM
    dispatcher.  PSCI keeps a tree of power domains, shared by all cores under locks,
    and acts on the hardware through the callbacks of a platform (QEMU or FVP).  The
    SPM dispatcher passes messages to the Secure World; the RMM dispatcher moves
    memory granules between worlds through the granule protection table.  If the
    firmware cannot go on, it prints a crash report and stops.

    ** How Rust is read

    A function without effects on shared state is a function into [outcome],
    which is a value or a panic: a failed assertion, an [unwrap] of [None], an
    index out of bounds or an arithmetic overflow, since the workspace is built
    with overflow checks and with [panic = abort].  [debug_assert!] counts as an
    assertion.  A function that changes shared state is a function [M S A] from
    a state to a [run], which returns, stops the core for good ([Halt], the type
    [!] of the source) or panics ([Crash]).  [Result] is [result], and the
    question mark operator is the notation [x ←? m ; k].  Machine integers are
    [nat] where the source uses them as indices and counts, and [Z] with casts
    written out where bits and widths matter.

    Code of other crates is a parameter: the argument of a definition, a field of
    a record of operations or a type class, with what is relied on as named laws.
    [Sample.v] and the samples in the property files instantiate them.

    ** Files

    - [Prelude.v]: this file; the monads, slices and searches of the Rust library.
    - [Smccc.v]: [src/smccc.rs] and the [Service] trait and [owns!] macro of
      [src/services.rs].
    - [PowerState.v]: [PlatformPowerStateInterface] of [src/services/psci.rs] as a
      type class with laws, and the power states of QEMU and FVP as instances.
    - [PowerTree.v]: [src/services/psci/power_domain_tree.rs]; nodes as records,
      the arrays of the tree as lists, [AncestorPowerDomains] as the list of locked
      ancestors with their indices.
    - [Composite.v]: [PsciCompositePowerState] of [src/services/psci.rs] and both
      ways of coordinating a request.
    - [Psci.v]: the handlers of [src/services/psci.rs].  What a handler does while
      it holds the locks of a CPU node and its ancestors is one definition
      ([suspend_locked], [suspend_resume], [off_enter], ...), atomic for the other
      cores; where it waits, for an event or for a lock, the other cores may change
      the state ([OtherCores]).  A suspend call reads the suspend mode before and
      after it waits for the locks ([suspend_enter]).
    - [TreeInv.v], [Coordination.v], [TreeNew.v], [PsciInv.v]: the invariant of the
      tree and that every operation keeps it, weakest preconditions for the
      critical sections.
    - [PsciSystem.v]: the critical sections of all cores as a step relation.
    - [PsciCalls.v]: what a step of one core leaves alone on the others; whole calls,
      with what is assumed of the other cores while a core waits, and of the SPM.
    - [Platforms.v], [PlatformLaws.v]: the PSCI parts of
      [qemu-rf-a-bl31/src/main.rs] and [fvp-rf-a-bl31/src/main.rs], which discharge
      the laws the service relies on.
    - [Sample.v]: concrete machines.
    - [PsciProps.v], [TreeProps.v], [PlatformProps.v]: the properties of these.
    - [Trng.v], [TrngProofs.v], [TrngProps.v]: [src/services/trng.rs].
    - [Gpt.v], [GptProofs.v]: [src/gpt.rs], [src/gpt/table.rs] and the discovery of
      [src/gpt/aarch64.rs]; level 1 tables live in a memory of 64-bit words.
    - [Rmm.v], [RmmProofs.v], [RmmProps.v]: [src/services/rmmd.rs],
      [src/services/rmmd/svc.rs] and the cache maintenance of [src/pagetable.rs].
    - [FvpRmm.v]: the attestation key and token of the FVP, read in hunks.
    - [Services.v], [ServicesProps.v]: [src/services.rs], [src/services/arch.rs] and
      [src/services/errata_management.rs]; the main loop.
    - [Spmd.v], [SpmdProps.v]: [src/services/ffa/spmd.rs]; the state of the SPMC on
      each core, and the steps of all cores as a relation.
    - [EarlyPagetable.v], [EarlyPagetableProofs.v], [EarlyPagetableProps.v]:
      [src/pagetable/early_pagetable.rs]; the reference is the table walk of the
      architecture.
    - [Context.v], [Extensions.v], [Simd.v]: [src/context.rs], [src/exceptions.rs] and
      [src/cpu_extensions]; system registers are named by strings, and a bank is a
      function from names to values.  [ContextProofs.v], [ContextProps.v],
      [ContextBoot.v], [SimdProps.v], [ContextSample.v]: their properties.
    - [Asm.v], [AsmProps.v], [AsmWords.v]: the instructions that the assembly uses, as
      an interpreter on the registers of a core, bytes of memory and devices, and
      rules to execute programs symbolically.
    - [MemAsm.v], [MemAsmProps.v], [CacheAsmProps.v]: [src/zeromem.S] and
      [src/cache_helpers.S].
    - [ContextAsm.v], [ContextAsmProps.v], [WorldSwitchProps.v], [ReflectProps.v],
      [AsmSample.v]: [src/context.S] and [src/runtime_exceptions.S].
    - [Cpu.v], [ErrataProps.v], [CpuProps.v], [CpuSample.v]: [src/cpu.rs], [src/cpu] and
      [src/errata_framework.rs].
    - [CrashAsm.v], [CrashProps.v], [CrashReport.v]: [src/debug.S] and
      [src/crash_reporting.S].  [CrashConsole.v], [CrashConsoleProps.v],
      [CrashPlatform.v]: [src/crash_console], [src/gic_debug_macros.S] and the crash
      consoles of the platforms, which discharge what the reports rely on.
      [CrashSample.v]: a crash on QEMU.
    - [BootAsm.v]: the entry points, with [src/stacks.rs] and the functions of
      [src/pagetable.rs], [src/context.rs] and [src/cpu_extensions/sctlr2.rs] that they
      call.  [EarlyTablesAsm.v]: the assembly that writes the early page tables.
      [BootProps.v], [BootEntry.v]: both entry points.  [BootPlatform.v]: the errata and
      CPU operations discharge what the entry points rely on.  [BootSample.v]: QEMU.
    - [Logger.v], [LoggerProps.v]: [src/logger/inmemory.rs] and [src/logger.rs].
    - [Manifest.v], [ManifestProps.v], [ManifestSample.v]:
      [src/services/rmmd/manifest.rs].
    - [Gic.v]: the part of [src/gicv3.rs] that the main loop uses.
    - [System.v], [Firmware.v], [FirmwareProps.v], [FirmwareSample.v]: the services,
      contexts and interrupts of a core put together.  The SPM that PSCI notifies is the
      dispatcher, which enters the Secure world through the contexts of the core and
      keeps the contract of an SPM if the SPMC answers it ([spmd_spm_laws]).

    ** What is shown

    - Power control.  In every state that the critical sections of all cores can
      reach from a cold boot, in any order, the tree is consistent: the ancestors
      of a running core run, no domain is in a deeper state than a core or a domain
      below it allows, and without OS-initiated requests a domain is exactly in the
      minimum of the requested states.  No PSCI call of the Normal World panics,
      while the SPM keeps its contract and no core switches to OS-initiated mode during
      a suspend call of another one; if one does, [suspend_mode_race_panics] says
      exactly when the suspend call panics.  Each call is specified on its success and error paths.  An entry point given
      to CPU_ON or CPU_SUSPEND is the one the core boots with.  The optimised
      coordination equals its reference definition.  Locks are taken in an order
      that excludes a deadlock.
    - Platforms.  QEMU and FVP satisfy the laws of the service; core positions are
      in range and one to one, on the FVP among MPIDRs that agree on the MT bit; the
      holding pen hands over an entry point once.  On the FVP turning on a core that is
      going off returns, as the power controller completes what it was asked for.
    - Random numbers.  The entropy pool refines a queue of bits: nothing is lost,
      repeated or kept, and no call panics or spins.
    - Granule protection.  An update changes exactly one granule and is followed by
      the invalidation that makes it visible; descriptors are read back as built.
    - RMM.  The RMM can move granules between the Non-secure and the Realm world and
      no others; the order of cache maintenance is the one that keeps the worlds
      apart; implemented calls do not panic; a failed boot is final.  The packed
      manifest is read back as it was, if its parts are aligned and its checksums do not
      overflow, and an attestation token is read whole.
    - SPM.  The SPMC of every core is in the state its life so far allows, and the
      dispatcher panics exactly when the SPMC reports that it failed to boot or does not
      answer what PSCI asks it.
    - Dispatch.  A call reaches the one service that owns it; the firmware of a core
      runs forever without a panic, and a call keeps the types of its registers.  This
      assumes that a world comes back with calls it is meant to make, interrupts that
      are routed to EL3 or traps that can be injected, and that the SPMC answers
      ([exit_ok], [fw_legal] and [fw_laws] of [FirmwareProps.v]).
    - Worlds.  A world finds its system registers as it left them; in assembly, the
      exception vectors save and the exit restores every register of a world, also
      when an external abort is reflected in between.  An undefined instruction
      exception is injected at the level and with the program status that the
      architecture prescribes.
    - Boot.  After a cold reset a core enters [bl31_main] with its registers, stack and
      data set up, zeroed BSS, and page tables in memory that map the regions of the
      platform; after a warm reset it enters [psci_warmboot_entrypoint] likewise.  The
      errata that apply are worked around in order.  Zeroing and cache maintenance reach
      exactly their range; the latter to the point of physical aliasing only from the
      start of a line.
    - Crashes.  With a working console the report of an unhandled exception, an unhandled
      interrupt or a panic shows every register with its name and the value it had when
      the report was entered, and ends in the panic handler.
    - Logging.  The ring buffer refines the log: it holds its last bytes.
    - Inputs on which the code does not do what it means to are theorems as well, among
      them [suspend_mode_race_panics], [tree_new_index_overflow],
      [fvp_system_suspend_osi], [rmm_calls_with_sve_hint], [early_mapping_overrun],
      [smc_prohibited_loses_registers], [popa_range_misses_line],
      [unhandled_exception_shows_class], [checksum_overflow_panics] and
      [direct_mapped_cache_panics].

    ** Bounds and fuel

    - [fill_entropy] of [Trng.v] is called with one unit of fuel more than bits are
      requested.  Each round adds at least one word, so the fuel is never used up
      ([fill_entropy_spec]).
    - [wait_power_off] of [Platforms.v] polls the power controller a number of times,
      after which the core still waits ([Halt]).  For a core that is going off, the
      number of polls the controller takes at most is enough ([wait_power_off_ends]).
    - The loops of [Services.v] have no end: running out of fuel is [Halt], a core
      that is still running, and the theorem holds for every amount of fuel.
    - The tables of [EarlyPagetable.v] have three levels ([MAX_DEPTH]), and a loop over a
      table ends after its descriptors; the loop that extracts a range has as many
      steps as a count can be.  Running out is a panic, which the theorems exclude.
    - UTF-8 validation in [Logger.v] has the length of the text as fuel.
    - [exec] of [Asm.v] runs a program for a number of steps, and is [Stuck] without.  A
      program whose branches go forward ends within its length ([forward_fuel]), which
      is the fuel of [run_asm].  For loops the theorems say that enough fuel exists and
      more does not change the result ([wp], [runs], [ends]), or give a bound: 12 steps
      for each erratum, 7 for each CPU; [PRINT_FUEL], [GROUP_FUEL] and [GIC_FUEL] are
      shown to be enough for the loops of a crash report, as is the fuel of the UART if
      it takes a character within the assumed number of polls.
    - All other recursion is on lists or on the sixteen granules of a descriptor.

    ** What is not modelled

    - The page tables of the runtime ([src/pagetable.rs]), which the [aarch64-paging]
      crate builds, and their regions ([src/layout.rs]).
    - What [bl31_main] sets up before the services run: consoles, the configuration of
      the GIC through the [arm-gic] crate, and drivers of the platforms.
    - Enabling granule protection, and pointer authentication keys: they are values of
      the platform that are written to system registers.
    - Logging statements, [Display] and [Debug], which have no effect on the state.
    - Semihosting, test doubles, the secure test framework and build scripts.
    - Time: caches, barriers and TLBs are events, not state; a core sees the memory it
      wrote. *)

From stdpp Require Import base list numbers option.

(** ** Outcomes of Rust code

    A Rust function either returns or panics (a failed [assert!], an [unwrap]
    of [None], an index out of bounds, a checked overflow: the workspace is
    built with [overflow-checks = true] and [panic = abort]). *)
Inductive outcome (A : Type) : Type :=
| Done (a : A)
| Panic.
Arguments Done {A} a.
Arguments Panic {A}.

(** [core::result::Result]. *)
Inductive result (A E : Type) : Type :=
| Ok (a : A)
| Err (e : E).
Arguments Ok {A E} a.
Arguments Err {A E} e.

(** A stateful computation returns a value, never returns because the core it
    runs on was powered down or the system was reset (a function of type [!]),
    or panics.  What a halted core did to the shared state stays visible to
    the other cores, so [Halt] keeps the state. *)
Inductive run (S A : Type) : Type :=
| Ret (a : A) (s : S)
| Halt (s : S)
| Crash.
Arguments Ret {S A} a s.
Arguments Halt {S A} s.
Arguments Crash {S A}.

Definition M (S A : Type) : Type := S → run S A.

Global Instance outcome_ret : MRet outcome := λ A a, Done a.
Global Instance outcome_bind : MBind outcome :=
  λ A B f m, match m with Done a => f a | Panic => Panic end.
Global Instance M_ret {S} : MRet (M S) := λ A a s, Ret a s.
Global Instance M_bind {S} : MBind (M S) :=
  λ A B f m s, match m s with
               | Ret a s' => f a s'
               | Halt s' => Halt s'
               | Crash => Crash
               end.

(** [e?]: the early return of an error. *)
Definition try_outcome {A B E} (m : outcome (result A E))
    (k : A → outcome (result B E)) : outcome (result B E) :=
  match m with
  | Done (Ok a) => k a
  | Done (Err e) => Done (Err e)
  | Panic => Panic
  end.

Definition try_M {S A B E} (m : M S (result A E))
    (k : A → M S (result B E)) : M S (result B E) :=
  λ s, match m s with
       | Ret (Ok a) s' => k a s'
       | Ret (Err e) s' => Ret (Err e) s'
       | Halt s' => Halt s'
       | Crash => Crash
       end.

Declare Scope rust_scope.
Delimit Scope rust_scope with rust.
Notation "x ←? m ; k" := (try_M m (λ x, k))
  (at level 20, m at level 100, k at level 200, only parsing) : rust_scope.
Notation "x ←! m ; k" := (try_outcome m (λ x, k))
  (at level 20, m at level 100, k at level 200, only parsing) : rust_scope.

(** The state of a stateful computation. *)
Definition get {S} : M S S := λ s, Ret s s.
Definition modify {S} (f : S → S) : M S unit := λ s, Ret tt (f s).
Definition crash {S A} : M S A := λ _, Crash.
Definition halt {S A} : M S A := λ s, Halt s.
Definition lift {S A} (m : outcome A) : M S A :=
  λ s, match m with Done a => Ret a s | Panic => Crash end.

(** [assert!(b)] *)
Definition assert_ (b : bool) : outcome unit := if b then Done tt else Panic.

(** [Option::unwrap] and [Option::ok_or]. *)
Definition unwrap {A} (o : option A) : outcome A :=
  match o with Some a => Done a | None => Panic end.
Definition ok_or {A E} (o : option A) (e : E) : result A E :=
  match o with Some a => Ok a | None => Err e end.

(** Indexing of arrays and slices: out of range panics. *)
Definition arr_get {A} (l : list A) (i : nat) : outcome A := unwrap (l !! i).
Definition arr_set {A} (l : list A) (i : nat) (x : A) : outcome (list A) :=
  if decide (i < length l) then Done (<[i:=x]> l) else Panic.

(** [&l[a..b]]: panics when the range is not a range of the slice. *)
Definition slice {A} (l : list A) (a b : nat) : outcome (list A) :=
  if decide (a ≤ b ∧ b ≤ length l) then Done (take (b - a) (drop a l)) else Panic.

(** [ArrayVec::push] onto a vector of capacity [cap]. *)
Definition arr_push {A} (cap : nat) (l : list A) (x : A) : outcome (list A) :=
  if decide (length l < cap) then Done (l ++ [x]) else Panic.

(** Checked subtraction of unsigned integers. *)
Definition checked_sub (a b : nat) : outcome nat :=
  if decide (b ≤ a) then Done (a - b) else Panic.

(** [core::ops::Range]. *)
Definition range : Type := nat * nat.
Definition range_is_empty (r : range) : bool := negb (bool_decide (r.1 < r.2)).
Definition range_contains (r : range) (i : nat) : bool :=
  bool_decide (r.1 ≤ i) && bool_decide (i < r.2).

(** [Iterator::rposition]: the last index whose element satisfies [p]. *)
Fixpoint rposition {A} (p : A → bool) (l : list A) : option nat :=
  match l with
  | [] => None
  | x :: l =>
      match rposition p l with
      | Some i => Some (S i)
      | None => if p x then Some 0 else None
      end
  end.

(** [Iterator::enumerate]. *)
Definition enumerate {A} (l : list A) : list (nat * A) := imap pair l.

(** A [fold] whose body can panic. *)
Fixpoint fold_outcome {A B} (f : A → B → outcome A) (a : A) (l : list B) : outcome A :=
  match l with
  | [] => Done a
  | x :: l => a' ← f a x; fold_outcome f a' l
  end.

(** [slice::is_sorted_by]. *)
Fixpoint is_sorted_by {A} (cmp : A → A → bool) (l : list A) : bool :=
  match l with
  | x :: ((y :: _) as l') => cmp x y && is_sorted_by cmp l'
  | _ => true
  end.

Create HintDb rfa discriminated.

(** ** Inversion of the monads *)
Lemma outcome_bind_Done {A B} (m : outcome A) (f : A → outcome B) b :
  (m ≫= f) = Done b ↔ ∃ a, m = Done a ∧ f a = Done b.
Proof. destruct m; split; [eauto | | done | ]; naive_solver. Qed.

Lemma M_bind_Ret {S A B} (m : M S A) (f : A → M S B) s b s' :
  (m ≫= f) s = Ret b s' ↔ ∃ a s1, m s = Ret a s1 ∧ f a s1 = Ret b s'.
Proof.
  unfold mbind, M_bind. destruct (m s); split; naive_solver.
Qed.

Lemma assert_Done b u : assert_ b = Done u ↔ b = true.
Proof. destruct u, b; done. Qed.

Lemma unwrap_Done {A} (o : option A) a : unwrap o = Done a ↔ o = Some a.
Proof. destruct o; naive_solver. Qed.

Lemma arr_get_Done {A} (l : list A) i a : arr_get l i = Done a ↔ l !! i = Some a.
Proof. apply unwrap_Done. Qed.

Lemma arr_set_Done {A} (l : list A) i x l' :
  arr_set l i x = Done l' ↔ i < length l ∧ l' = <[i:=x]> l.
Proof. unfold arr_set. case_decide; naive_solver. Qed.

Lemma arr_push_Done {A} cap (l : list A) x l' :
  arr_push cap l x = Done l' ↔ length l < cap ∧ l' = l ++ [x].
Proof. unfold arr_push. case_decide; naive_solver. Qed.

Lemma slice_Done {A} (l : list A) a b l' :
  slice l a b = Done l' ↔ a ≤ b ≤ length l ∧ l' = take (b - a) (drop a l).
Proof. unfold slice. case_decide; naive_solver lia. Qed.

Lemma checked_sub_Done a b c : checked_sub a b = Done c ↔ b ≤ a ∧ c = a - b.
Proof. unfold checked_sub. case_decide; naive_solver. Qed.

Lemma range_contains_spec r i : range_contains r i = true ↔ r.1 ≤ i < r.2.
Proof.
  unfold range_contains. rewrite andb_true_iff, !bool_decide_eq_true. lia.
Qed.

Lemma range_is_empty_spec r : range_is_empty r = true ↔ r.2 ≤ r.1.
Proof. unfold range_is_empty. rewrite negb_true_iff, bool_decide_eq_false. lia. Qed.

(** Opens every successful step of an [outcome] computation in [H]. *)
Ltac outcome_inv H :=
  repeat first
    [ progress simplify_eq/=
    | match type of H with
      | (_ ≫= _) = Done _ =>
          let a := fresh "a" in let E := fresh "E" in
          apply outcome_bind_Done in H as (a & E & H)
      end ].

Ltac outcome_step :=
  match goal with
  | H : (_ ≫= _) = Done _ |- _ =>
      let a := fresh "a" in let E := fresh "E" in
      apply outcome_bind_Done in H as (a & E & H); simpl in H
  | H : assert_ _ = Done _ |- _ => apply assert_Done in H
  | H : unwrap _ = Done _ |- _ => apply unwrap_Done in H
  | H : arr_get _ _ = Done _ |- _ => apply arr_get_Done in H
  | H : arr_set _ _ _ = Done _ |- _ => apply arr_set_Done in H as [? ?]
  | H : arr_push _ _ _ = Done _ |- _ => apply arr_push_Done in H as [? ?]
  | H : slice _ _ _ = Done _ |- _ => apply slice_Done in H as [? ?]
  | H : checked_sub _ _ = Done _ |- _ => apply checked_sub_Done in H as [? ?]
  | H : mret _ = Done _ |- _ => injection H as H
  end.
Ltac outcome_invs := repeat (outcome_step; simplify_eq/=).

(** ** Searching lists *)
Lemma rposition_Some {A} (p : A → bool) l i :
  rposition p l = Some i →
  (∃ x, l !! i = Some x ∧ p x = true) ∧
  ∀ j x, i < j → l !! j = Some x → p x = false.
Proof.
  revert i. induction l as [|y l IH]; intros i; simpl; [done|].
  destruct (rposition p l) as [k|] eqn:Hk.
  - intros [= <-]. destruct (IH k eq_refl) as [(x & Hx & Hp) Hlast].
    split; [eauto|]. intros [|j] z Hj Hz; [lia|]. apply (Hlast j); [lia|done].
  - destruct (p y) eqn:Hp; intros [= <-]. split; [by exists y|].
    intros [|j] z Hj Hz; [lia|]. simpl in Hz. clear IH Hp Hj.
    revert j Hz. induction l as [|w l IH]; intros j Hz; [done|].
    simpl in Hk. destruct (rposition p l); [done|].
    destruct (p w) eqn:Hw; [done|]. destruct j; naive_solver.
Qed.

Lemma rposition_None {A} (p : A → bool) l :
  rposition p l = None ↔ ∀ i x, l !! i = Some x → p x = false.
Proof.
  induction l as [|y l IH]; simpl; [naive_solver|].
  destruct (rposition p l) as [k|] eqn:Hk.
  - apply rposition_Some in Hk as [(x & Hx & Hp) _].
    split; [done|]. intros H. by rewrite (H (S k) x) in Hp.
  - destruct (p y) eqn:Hp; split; try done.
    + intros H. by rewrite (H 0 y) in Hp.
    + intros _ [|i] x Hx; simplify_eq/=; [done|]. by eapply IH.
Qed.

Lemma rposition_is_Some {A} (p : A → bool) l :
  is_Some (rposition p l) ↔ ∃ i x, l !! i = Some x ∧ p x = true.
Proof.
  destruct (rposition p l) as [k|] eqn:Hk.
  - apply rposition_Some in Hk as [(x & Hx & Hp) _]. split; [eauto|by eexists].
  - rewrite rposition_None in Hk. split; [by intros []|]. intros (i & x & Hx & Hp).
    specialize (Hk i x Hx). congruence.
Qed.

Lemma is_sorted_by_lookup {A} (cmp : A → A → bool) l i x y :
  is_sorted_by cmp l = true →
  l !! i = Some x → l !! S i = Some y → cmp x y = true.
Proof.
  revert i. induction l as [|a l IH]; intros i; [done|].
  destruct l as [|b l]; simpl.
  - by destruct i.
  - intros [Hab Hl]%andb_true_iff. destruct i as [|i]; simpl.
    + by intros [= <-] [= <-].
    + intros. by apply (IH i).
Qed.

(** ** Bits of integers *)
Lemma lor_lt a b n : (0 ≤ n → 0 ≤ a < 2 ^ n → 0 ≤ b < 2 ^ n → 0 ≤ Z.lor a b < 2 ^ n)%Z.
Proof.
  intros Hn Ha Hb. split; [by apply Z.lor_nonneg; lia|].
  assert (H : Z.lor a b = (Z.lor a b mod 2 ^ n)%Z); [|rewrite H; apply Z.mod_pos_bound; lia].
  rewrite <-Z.land_ones, Z.land_lor_distr_l, !Z.land_ones, !Z.mod_small by lia. done.
Qed.

Lemma lor_disjoint a b : Z.land a b = 0%Z → Z.lor a b = (a + b)%Z.
Proof. intros H. by rewrite <-Z.lxor_lor, <-Z.add_nocarry_lxor. Qed.
