(* ===== verification/PowerState.v ===== *)
(** * Platform power states

    The interface [PlatformPowerStateInterface] of [src/services/psci.rs], the
    laws its documentation asks of an implementation, and the two
    implementations of the workspace (QEMU and FVP). *)

From stdpp Require Import base list numbers.
From S2P Require Import Prelude.

(** Categories of power states. *)
Inductive PowerStateType : Type :=
| PowerDown
| StandbyOrRetention
| Run.
Global Instance PowerStateType_eq_dec : EqDecision PowerStateType.
Proof. solve_decision. Defined.

(** The trait: an ordered type with the states of a CPU that is turned off and
    of a running CPU.  [power_leb] is the [Ord] implementation. *)
Class PlatformPowerStateInterface (S : Type) := {
  power_state_eq_dec :: EqDecision S;
  power_leb : S → S → bool;
  OFF : S;
  RUN : S;
  power_state_type : S → PowerStateType;
}.

Definition power_le {S} `{PlatformPowerStateInterface S} (a b : S) : Prop :=
  power_leb a b = true.
Infix "⊑" := power_le (at level 70) : rust_scope.
Open Scope rust_scope.

(** [Ord::min]. *)
Definition power_min {S} `{PlatformPowerStateInterface S} (a b : S) : S :=
  if power_leb a b then a else b.

(** [Iterator::min]: [None] on an empty iterator. *)
Definition power_min_list {S} `{PlatformPowerStateInterface S} (l : list S)
    : option S :=
  match l with [] => None | x :: l => Some (foldl power_min x l) end.

(** "The type has to implement the [Ord] trait in a way the states are in
    ascending order from running state to power down state." *)
Class PlatformPowerStateLaws (S : Type) `{PlatformPowerStateInterface S} := {
  power_le_refl : ∀ a : S, a ⊑ a;
  power_le_trans : ∀ a b c : S, a ⊑ b → b ⊑ c → a ⊑ c;
  power_le_antisymm : ∀ a b : S, a ⊑ b → b ⊑ a → a = b;
  power_le_total : ∀ a b : S, a ⊑ b ∨ b ⊑ a;
  RUN_least : ∀ a : S, RUN ⊑ a;
  OFF_greatest : ∀ a : S, a ⊑ OFF;
  type_Run : ∀ a : S, power_state_type a = Run ↔ a = RUN;
  type_OFF : power_state_type OFF = PowerDown;
  type_PowerDown : ∀ a b : S, a ⊑ b →
    power_state_type a = PowerDown → power_state_type b = PowerDown;
}.

(** The states of [qemu-rf-a-bl31]. *)
Inductive QemuPowerState : Type := QemuOn | QemuRetention | QemuPowerDown.
Definition qemu_rank (s : QemuPowerState) : nat :=
  match s with QemuOn => 0 | QemuRetention => 1 | QemuPowerDown => 2 end.
Global Instance QemuPowerState_eq_dec : EqDecision QemuPowerState.
Proof. solve_decision. Defined.
Global Instance QemuPowerState_interface : PlatformPowerStateInterface QemuPowerState := {
  power_leb a b := bool_decide (qemu_rank a ≤ qemu_rank b);
  OFF := QemuPowerDown;
  RUN := QemuOn;
  power_state_type s :=
    match s with
    | QemuPowerDown => PowerDown
    | QemuRetention => StandbyOrRetention
    | QemuOn => Run
    end;
}.

(** The states of [fvp-rf-a-bl31]. *)
Inductive FvpPowerState : Type := FvpRun | FvpRetention | FvpOff.
Definition fvp_rank (s : FvpPowerState) : nat :=
  match s with FvpRun => 0 | FvpRetention => 1 | FvpOff => 2 end.
Global Instance FvpPowerState_eq_dec : EqDecision FvpPowerState.
Proof. solve_decision. Defined.
Global Instance FvpPowerState_interface : PlatformPowerStateInterface FvpPowerState := {
  power_leb a b := bool_decide (fvp_rank a ≤ fvp_rank b);
  OFF := FvpOff;
  RUN := FvpRun;
  power_state_type s :=
    match s with
    | FvpRun => Run
    | FvpRetention => StandbyOrRetention
    | FvpOff => PowerDown
    end;
}.

Ltac enum_laws :=
  split; unfold power_le; simpl; intros;
  repeat match goal with
         | a : QemuPowerState |- _ => destruct a
         | a : FvpPowerState |- _ => destruct a
         end;
  compute in *; naive_solver.
Global Instance QemuPowerState_laws : PlatformPowerStateLaws QemuPowerState.
Proof. enum_laws. Qed.
Global Instance FvpPowerState_laws : PlatformPowerStateLaws FvpPowerState.
Proof. enum_laws. Qed.

(** ** The order of power states *)
Section Order.
Context {S : Type} `{PlatformPowerStateLaws S}.
Implicit Types a b c : S.

Lemma power_leb_false a b : power_leb a b = false → b ⊑ a.
Proof.
  intros Hf. destruct (power_le_total a b) as [Hab|Hba]; [|done].
  unfold power_le in Hab. congruence.
Qed.

Lemma power_le_RUN a : a ⊑ RUN → a = RUN.
Proof. intros. apply power_le_antisymm; [done | apply RUN_least]. Qed.

Lemma power_min_l a b : power_min a b ⊑ a.
Proof.
  unfold power_min. destruct (power_leb a b) eqn:Hab.
  - apply power_le_refl.
  - by apply power_leb_false.
Qed.

Lemma power_min_r a b : power_min a b ⊑ b.
Proof.
  unfold power_min. destruct (power_leb a b) eqn:Hab; [done|]. apply power_le_refl.
Qed.

Lemma power_min_glb a b c : c ⊑ a → c ⊑ b → c ⊑ power_min a b.
Proof. intros. unfold power_min. by destruct (power_leb a b). Qed.

Lemma foldl_power_min_le x l :
  foldl power_min x l ⊑ x ∧ ∀ y, y ∈ l → foldl power_min x l ⊑ y.
Proof.
  revert x. induction l as [|z l IH]; intros x; simpl.
  - split; [apply power_le_refl | by intros y ?%elem_of_nil].
  - destruct (IH (power_min x z)) as [Hx Hl]. split.
    + eapply power_le_trans; [apply Hx | apply power_min_l].
    + intros y [->|Hy]%elem_of_cons; [|by apply Hl].
      eapply power_le_trans; [apply Hx | apply power_min_r].
Qed.

Lemma foldl_power_min_in x l : foldl power_min x l = x ∨ foldl power_min x l ∈ l.
Proof.
  revert x. induction l as [|z l IH]; intros x; simpl; [by left|].
  destruct (IH (power_min x z)) as [Hx|Hx].
  - rewrite Hx. unfold power_min. destruct (power_leb x z); [by left|].
    right. apply list_elem_of_here.
  - right. by apply list_elem_of_further.
Qed.

Lemma power_min_list_Some l m :
  power_min_list l = Some m ↔ m ∈ l ∧ ∀ x, x ∈ l → m ⊑ x.
Proof.
  destruct l as [|y l]; simpl.
  - split; [done|]. by intros [?%elem_of_nil _].
  - pose proof (foldl_power_min_le y l) as [Hy Hl].
    pose proof (foldl_power_min_in y l) as Hin. split.
    + intros [= <-]. split.
      * destruct Hin as [->|Hin]; [apply list_elem_of_here | by apply list_elem_of_further].
      * intros x [->|Hx]%elem_of_cons; auto.
    + intros [Hm Hle]. f_equal. apply power_le_antisymm.
      * apply elem_of_cons in Hm as [->|Hm]; auto.
      * apply Hle. destruct Hin as [->|Hin];
          [apply list_elem_of_here | by apply list_elem_of_further].
Qed.

Lemma power_min_list_None l : power_min_list l = None ↔ l = [].
Proof. by destruct l. Qed.
End Order.

#[export] Hint Resolve power_le_refl RUN_least OFF_greatest power_min_l power_min_r : rfa.
