(* ===== verification/Smccc.v ===== *)
(** * The SMC calling convention

    [src/smccc.rs]: function identifiers and the values returned from an SMC,
    and the parts of [src/services.rs] every service is built from (the [owns]
    macro, the [Service] trait with its default handlers). *)

From Stdlib Require Import ZArith Lia.
From stdpp Require Import base list numbers option.
From S2P Require Import Prelude.
Open Scope Z_scope.

(** Casts between integer types. *)
Definition as_u64 (x : Z) : Z := x mod 2 ^ 64.
Definition as_u32 (x : Z) : Z := x mod 2 ^ 32.
Definition as_u16 (x : Z) : Z := x mod 2 ^ 16.
Definition as_u8 (x : Z) : Z := x mod 2 ^ 8.

(** [u32::from_le_bytes] and [u64::from_le_bytes]. *)
Fixpoint from_le_bytes (bs : list Z) : Z :=
  match bs with
  | [] => 0
  | b :: bs => b + 256 * from_le_bytes bs
  end.

(** The worlds, [World] of [src/context.rs]. *)
Inductive World : Type := Secure | NonSecure | Realm.
Global Instance World_eq_dec : EqDecision World.
Proof. solve_decision. Defined.

Definition FAST_CALL : Z := 0x80000000.
Definition SMC64 : Z := 0x40000000.
Definition OEN_MASK : Z := 0x3f000000.
Definition OEN_SHIFT : Z := 24.
Definition SVE_HINT : Z := Z.shiftl 1 16.
Definition RESERVED_BITS : Z := Z.shiftl 0x7f 17.

Definition SUCCESS : Z := 0.
Definition NOT_SUPPORTED : Z := -1.
Definition NOT_REQUIRED : Z := -2.
Definition INVALID_PARAMETER : Z := -3.

Inductive SmcccCallType : Type := Fast32 | Fast64 | Yielding.
Global Instance SmcccCallType_eq_dec : EqDecision SmcccCallType.
Proof. solve_decision. Defined.

Inductive OwningEntity : Type :=
| ArmArchitectureService
| CPUService
| SiPService
| OEMService
| StandardSecureService
| StandardHypervisorService
| VendorSpecificHypervisorService
| VendorSpecificEL3MonitorService
| TrustedApplications
| TrustedOS
| UnknownEntity.

Definition OEN_ARM_ARCHITECTURE : Z := 0.
Definition OEN_CPU : Z := 1.
Definition OEN_SIP : Z := 2.
Definition OEN_OEM : Z := 3.
Definition OEN_STANDARD_SECURE : Z := 4.
Definition OEN_STANDARD_HYPERVISOR : Z := 5.
Definition OEN_VENDOR_SPECIFIC_HYPERVISOR : Z := 6.
Definition OEN_VENDOR_SPECIFIC_EL3_MONITOR : Z := 7.

(** [OwningEntityNumber::oe]. *)
Definition oe (n : Z) : OwningEntity :=
  if n =? OEN_ARM_ARCHITECTURE then ArmArchitectureService
  else if n =? OEN_CPU then CPUService
  else if n =? OEN_SIP then SiPService
  else if n =? OEN_OEM then OEMService
  else if n =? OEN_STANDARD_SECURE then StandardSecureService
  else if n =? OEN_STANDARD_HYPERVISOR then StandardHypervisorService
  else if n =? OEN_VENDOR_SPECIFIC_HYPERVISOR then VendorSpecificHypervisorService
  else if n =? OEN_VENDOR_SPECIFIC_EL3_MONITOR then VendorSpecificEL3MonitorService
  else if (48 <=? n) && (n <=? 49) then TrustedApplications
  else if (50 <=? n) && (n <=? 63) then TrustedOS
  else UnknownEntity.

(** [FunctionId], a [u32]. *)
Definition oen (f : Z) : Z := as_u8 (Z.shiftr (Z.land f OEN_MASK) OEN_SHIFT).
Definition number (f : Z) : Z := as_u16 f.
Definition call_type (f : Z) : SmcccCallType :=
  if negb (Z.land f FAST_CALL =? 0) then
    if negb (Z.land f SMC64 =? 0) then Fast64 else Fast32
  else Yielding.
Definition sve_hint (f : Z) : bool := negb (Z.land f SVE_HINT =? 0).
Definition set_sve_hint (f : Z) : Z := Z.lor f SVE_HINT.
Definition clear_sve_hint (f : Z) : Z := Z.land f (Z.lxor SVE_HINT (2 ^ 32 - 1)).
Definition valid (f : Z) : bool :=
  bool_decide (call_type f = Yielding) || (Z.land f RESERVED_BITS =? 0).

(** [SmcReturn]: an array of [MAX_VALUES] registers, the first [used] of which
    are part of the value. *)
Definition MAX_VALUES : nat := 18.
Record SmcReturn : Type := mkSmcReturn { used : nat; all_values : list Z }.
Definition EMPTY : SmcReturn := mkSmcReturn 0 (replicate MAX_VALUES 0).
Definition values (r : SmcReturn) : list Z := take (used r) (all_values r).
Definition mark_used (n : nat) (r : SmcReturn) : SmcReturn := mkSmcReturn n (all_values r).
Definition mark_all_used (r : SmcReturn) : SmcReturn := mark_used MAX_VALUES r.
Definition mark_empty (r : SmcReturn) : SmcReturn := mkSmcReturn 0 (all_values r).
Definition is_empty (r : SmcReturn) : bool := bool_decide (used r = 0%nat).

(** [set_args2] to [set_args5]: the registers that are not arguments keep their
    values. *)
Definition set_args (args : list Z) (r : SmcReturn) : SmcReturn :=
  mkSmcReturn (length args) (args ++ drop (length args) (all_values r)).

(** The [SetFrom] implementations. *)
Definition set_from_u64 (v : Z) (r : SmcReturn) : SmcReturn :=
  mkSmcReturn 1 (<[0%nat := v]> (all_values r)).
Definition set_from_i64 (v : Z) (r : SmcReturn) : SmcReturn := set_from_u64 (as_u64 v) r.
Definition set_from_u32 (v : Z) (r : SmcReturn) : SmcReturn := set_from_u64 v r.
Definition set_from_i32 (v : Z) (r : SmcReturn) : SmcReturn := set_from_u64 (as_u64 v) r.
Definition set_from_uuid (bytes : list Z) (r : SmcReturn) : SmcReturn :=
  set_args [from_le_bytes (take 4 bytes); from_le_bytes (take 4 (drop 4 bytes));
            from_le_bytes (take 4 (drop 8 bytes)); from_le_bytes (take 4 (drop 12 bytes))] r.

(** The equality of [SmcReturn]s only looks at the used values. *)
Definition smc_return_eqb (r1 r2 : SmcReturn) : bool :=
  bool_decide (used r1 = used r2) &&
  bool_decide (take (used r1) (all_values r1) = take (used r1) (all_values r2)).

(** The type invariant: 18 registers, at most 18 of them used. *)
Definition smc_return_wf (r : SmcReturn) : Prop :=
  length (all_values r) = MAX_VALUES ∧ (used r ≤ MAX_VALUES)%nat.

(** ** Services *)

(** The [owns!] macro, for a whole owning entity and for a range of numbers. *)
Definition is_fast (f : Z) : bool :=
  match call_type f with Fast32 | Fast64 => true | Yielding => false end.
Definition owns_entity (entity f : Z) : bool := (oen f =? entity) && is_fast f.
Definition owns_range (entity lo hi f : Z) : bool :=
  (oen f =? entity) && ((lo <=? number f) && (number f <=? hi)) && is_fast f.

(** The [Service] trait; the handlers return the world to enter next. *)
Record Service (St : Type) := mkService {
  owns : Z → bool;
  handle_non_secure_smc : SmcReturn → M St (World * SmcReturn);
  handle_secure_smc : SmcReturn → M St (World * SmcReturn);
  handle_realm_smc : SmcReturn → M St (World * SmcReturn);
}.
Arguments mkService {St}.
Arguments owns {St}.
Arguments handle_non_secure_smc {St}.
Arguments handle_secure_smc {St}.
Arguments handle_realm_smc {St}.

(** The default handler of a world. *)
Definition default_smc {St} (w : World) (regs : SmcReturn) : M St (World * SmcReturn) :=
  mret (w, set_from_i32 NOT_SUPPORTED regs).

(** ** Lemmas *)

(** The bits of a function identifier outside bit 16 do not depend on the SVE
    hint. *)
Lemma clear_sve_hint_spec f i :
  0 ≤ i < 32 → Z.testbit (clear_sve_hint f) i = Z.testbit f i && negb (i =? 16).
Proof.
  intros Hi. unfold clear_sve_hint. rewrite Z.land_spec. f_equal.
  assert (i = 0 ∨ i = 1 ∨ i = 2 ∨ i = 3 ∨ i = 4 ∨ i = 5 ∨ i = 6 ∨ i = 7 ∨ i = 8 ∨ i = 9 ∨
    i = 10 ∨ i = 11 ∨ i = 12 ∨ i = 13 ∨ i = 14 ∨ i = 15 ∨ i = 16 ∨ i = 17 ∨ i = 18 ∨
    i = 19 ∨ i = 20 ∨ i = 21 ∨ i = 22 ∨ i = 23 ∨ i = 24 ∨ i = 25 ∨ i = 26 ∨ i = 27 ∨
    i = 28 ∨ i = 29 ∨ i = 30 ∨ i = 31) as Hcases by lia.
  repeat (destruct Hcases as [->|Hcases]; [reflexivity|]). by subst i.
Qed.

(** A mask that does not contain bit 16 reads the same through the hint. *)
Lemma land_clear_sve_hint f m :
  Z.land (Z.lxor SVE_HINT (2 ^ 32 - 1)) m = m →
  Z.land (clear_sve_hint f) m = Z.land f m.
Proof. intros Hm. unfold clear_sve_hint. by rewrite <-Z.land_assoc, Hm. Qed.

Lemma land_set_sve_hint f m : Z.land SVE_HINT m = 0 → Z.land (set_sve_hint f) m = Z.land f m.
Proof. intros Hm. unfold set_sve_hint. by rewrite Z.land_lor_distr_l, Hm, Z.lor_0_r. Qed.

Lemma as_u16_land f : as_u16 f = Z.land f 0xffff.
Proof. change 0xffff with (Z.ones 16). by rewrite Z.land_ones. Qed.

Lemma oen_clear_sve_hint f : oen (clear_sve_hint f) = oen f.
Proof. unfold oen. by rewrite land_clear_sve_hint. Qed.
Lemma number_clear_sve_hint f : number (clear_sve_hint f) = number f.
Proof. unfold number. by rewrite !as_u16_land, land_clear_sve_hint. Qed.
Lemma call_type_clear_sve_hint f : call_type (clear_sve_hint f) = call_type f.
Proof. unfold call_type. by rewrite !land_clear_sve_hint. Qed.

Lemma oen_set_sve_hint f : oen (set_sve_hint f) = oen f.
Proof. unfold oen. by rewrite land_set_sve_hint. Qed.
Lemma number_set_sve_hint f : number (set_sve_hint f) = number f.
Proof. unfold number. by rewrite !as_u16_land, land_set_sve_hint. Qed.
Lemma call_type_set_sve_hint f : call_type (set_sve_hint f) = call_type f.
Proof. unfold call_type. by rewrite !land_set_sve_hint. Qed.
Lemma valid_set_sve_hint f : valid (set_sve_hint f) = valid f.
Proof. unfold valid. by rewrite call_type_set_sve_hint, land_set_sve_hint. Qed.

Lemma owns_entity_set_sve_hint e f : owns_entity e (set_sve_hint f) = owns_entity e f.
Proof. unfold owns_entity, is_fast. by rewrite oen_set_sve_hint, call_type_set_sve_hint. Qed.
Lemma owns_range_set_sve_hint e lo hi f :
  owns_range e lo hi (set_sve_hint f) = owns_range e lo hi f.
Proof.
  unfold owns_range, is_fast.
  by rewrite oen_set_sve_hint, number_set_sve_hint, call_type_set_sve_hint.
Qed.

(** Clearing the hint undoes setting it. *)
Lemma clear_set_sve_hint f : clear_sve_hint (set_sve_hint f) = clear_sve_hint f.
Proof.
  unfold clear_sve_hint, set_sve_hint. rewrite Z.land_lor_distr_l.
  change (Z.land SVE_HINT (Z.lxor SVE_HINT (2 ^ 32 - 1))) with 0. apply Z.lor_0_r.
Qed.

Lemma set_from_u64_wf v r : smc_return_wf r → smc_return_wf (set_from_u64 v r).
Proof.
  intros [Hl _]. split; simpl; [by rewrite length_insert|]. unfold MAX_VALUES. lia.
Qed.
Lemma set_args_wf args r :
  smc_return_wf r → (length args ≤ MAX_VALUES)%nat → smc_return_wf (set_args args r).
Proof.
  intros [Hl _] Ha. split; simpl; [|done]. rewrite length_app, length_drop, Hl. lia.
Qed.
Lemma mark_empty_wf r : smc_return_wf r → smc_return_wf (mark_empty r).
Proof. intros [Hl _]. split; simpl; [done|]. unfold MAX_VALUES. lia. Qed.

Lemma values_set_from_u64 v r : smc_return_wf r → values (set_from_u64 v r) = [v].
Proof.
  intros [Hl _]. unfold values, set_from_u64. simpl.
  destruct (all_values r); [done|]. simpl. by rewrite take_0.
Qed.
Lemma values_set_args args r : values (set_args args r) = args.
Proof. unfold values, set_args. simpl. by rewrite take_app_length. Qed.

#[export] Hint Resolve set_from_u64_wf set_args_wf mark_empty_wf : rfa.
