(* ===== verification/PowerTree.v ===== *)
(** * The power domain tree

    [src/services/psci/power_domain_tree.rs]: the CPU and non-CPU power nodes,
    the construction of the tree from a topology, and the locking of the
    ancestors of a CPU. *)

From stdpp Require Import base list numbers option.
From S2P Require Import Prelude PowerState.

(** The const parameters of the tree: [CPU_DOMAIN_COUNT],
    [NON_CPU_DOMAIN_COUNT], [MAX_POWER_LEVEL] and [NodeIndex::MAX]. *)
Class PsciDims := {
  CPU_DOMAIN_COUNT : nat;
  NON_CPU_DOMAIN_COUNT : nat;
  MAX_POWER_LEVEL : nat;
  NODE_INDEX_MAX : nat;
}.

Definition CPU_POWER_LEVEL : nat := 0.

(** [arm_psci::AffinityInfo]. *)
Inductive AffinityInfo : Type := AffOn | AffOff | AffOnPending.
Global Instance AffinityInfo_eq_dec : EqDecision AffinityInfo.
Proof. solve_decision. Defined.

Record NonCpuPowerNode (S : Type) := mkNonCpu {
  ncpu_parent : option nat;
  ncpu_local_state : S;
  cpu_range : range;
  non_cpu_range : range;
  requested_states : list S;
  suspend_states : list (option S);
  non_cpu_states : list S;
}.
Arguments mkNonCpu {S}.
Arguments ncpu_parent {S}.
Arguments ncpu_local_state {S}.
Arguments cpu_range {S}.
Arguments non_cpu_range {S}.
Arguments requested_states {S}.
Arguments suspend_states {S}.
Arguments non_cpu_states {S}.

Record CpuPowerNode (S EP : Type) := mkCpu {
  cpu_parent : nat;
  cpu_affinity_info : AffinityInfo;
  cpu_local_state : S;
  cpu_entry_point : option EP;
}.
Arguments mkCpu {S EP}.
Arguments cpu_parent {S EP}.
Arguments cpu_affinity_info {S EP}.
Arguments cpu_local_state {S EP}.
Arguments cpu_entry_point {S EP}.

Record PowerDomainTree (S EP : Type) := mkTree {
  non_cpu_power_nodes : list (NonCpuPowerNode S);
  cpu_power_nodes : list (CpuPowerNode S EP);
}.
Arguments mkTree {S EP}.
Arguments non_cpu_power_nodes {S EP}.
Arguments cpu_power_nodes {S EP}.

(** The locked ancestors of a CPU, the lowest level first: the node indices
    and the guarded nodes ([indices] and [list] of the source, zipped).  The
    guards give exclusive access, so the nodes are held by value while locked
    and stored back when the guards are dropped ([unlock] below). *)
Definition AncestorPowerDomains (S : Type) : Type := list (nat * NonCpuPowerNode S).

Section Nodes.
Context {S : Type} `{PlatformPowerStateInterface S} `{PsciDims}.
Implicit Types node : NonCpuPowerNode S.

(** Checked addition on [NodeIndex]. *)
Definition node_index_add (a b : nat) : outcome nat :=
  if decide (a + b ≤ NODE_INDEX_MAX) then Done (a + b) else Panic.

Definition ncpu_new (parent : option nat) : NonCpuPowerNode S :=
  mkNonCpu parent OFF (0, 0) (0, 0) [] [] [].

Definition ncpu_assign_cpu node (cpu_index : nat) : outcome (NonCpuPowerNode S) :=
  r ← (if range_is_empty (cpu_range node)
       then e ← node_index_add cpu_index 1; mret (cpu_index, e)
       else _ ← assert_ (bool_decide ((cpu_range node).2 = cpu_index));
            e ← node_index_add (cpu_range node).2 1;
            mret ((cpu_range node).1, e));
  req ← arr_push CPU_DOMAIN_COUNT (requested_states node) OFF;
  susp ← arr_push CPU_DOMAIN_COUNT (suspend_states node) None;
  mret (mkNonCpu (ncpu_parent node) (ncpu_local_state node) r
          (non_cpu_range node) req susp (non_cpu_states node)).

Definition assign_non_cpu node (non_cpu_index : nat) : outcome (NonCpuPowerNode S) :=
  r ← (if range_is_empty (non_cpu_range node)
       then e ← node_index_add non_cpu_index 1; mret (non_cpu_index, e)
       else _ ← assert_ (bool_decide ((non_cpu_range node).2 = non_cpu_index));
            e ← node_index_add (non_cpu_range node).2 1;
            mret ((non_cpu_range node).1, e));
  st ← arr_push NON_CPU_DOMAIN_COUNT (non_cpu_states node) OFF;
  mret (mkNonCpu (ncpu_parent node) (ncpu_local_state node) (cpu_range node)
          r (requested_states node) (suspend_states node) st).

Definition set_requested_power_state node (cpu_index : nat) (state : S)
    : outcome (NonCpuPowerNode S) :=
  _ ← assert_ (range_contains (cpu_range node) cpu_index);
  i ← checked_sub cpu_index (cpu_range node).1;
  req ← arr_set (requested_states node) i state;
  mret (mkNonCpu (ncpu_parent node) (ncpu_local_state node) (cpu_range node)
          (non_cpu_range node) req (suspend_states node) (non_cpu_states node)).

Definition put_suspend_state node (cpu_index : nat) (state : option S)
    : outcome (NonCpuPowerNode S) :=
  _ ← assert_ (range_contains (cpu_range node) cpu_index);
  i ← checked_sub cpu_index (cpu_range node).1;
  susp ← arr_set (suspend_states node) i state;
  mret (mkNonCpu (ncpu_parent node) (ncpu_local_state node) (cpu_range node)
          (non_cpu_range node) (requested_states node) susp (non_cpu_states node)).

Definition set_suspend_state node (cpu_index : nat) (state : S) :=
  put_suspend_state node cpu_index (Some state).

Definition clear_suspend_state node (cpu_index : nat) :=
  put_suspend_state node cpu_index None.

Definition set_non_cpu_state node (non_cpu_index : nat) (state : S)
    : outcome (NonCpuPowerNode S) :=
  _ ← assert_ (range_contains (non_cpu_range node) non_cpu_index);
  i ← checked_sub non_cpu_index (non_cpu_range node).1;
  st ← arr_set (non_cpu_states node) i state;
  mret (mkNonCpu (ncpu_parent node) (ncpu_local_state node) (cpu_range node)
          (non_cpu_range node) (requested_states node) (suspend_states node) st).

Definition ncpu_set_local_state node (state : S) : NonCpuPowerNode S :=
  mkNonCpu (ncpu_parent node) state (cpu_range node) (non_cpu_range node)
    (requested_states node) (suspend_states node) (non_cpu_states node).

(** Pairs of requested and suspend states, skipping a CPU. *)
Definition node_states node (skip_cpu_index : nat) : outcome (list (S * option S)) :=
  skip ← checked_sub skip_cpu_index (cpu_range node).1;
  mret (omap (λ '(index, state), if decide (index ≠ skip) then Some state else None)
          (enumerate (zip (requested_states node) (suspend_states node)))).

Definition osi_fold (acc : S) (p : S * option S) : outcome S :=
  let '(state, suspend_state) := p in
  if decide (state ≠ RUN)
  then _ ← assert_ (bool_decide (suspend_state = None)); mret (power_min acc state)
  else mret (power_min acc (default RUN suspend_state)).

Definition get_osi_minimal_allowed_state_without_core
    node (cpu_index : nat) (non_cpu_index : option nat) : outcome S :=
  sts ← node_states node cpu_index;
  min_cpu_state ← fold_outcome osi_fold OFF sts;
  match non_cpu_index with
  | Some non_cpu_index =>
      let '(s, e) := non_cpu_range node in
      mret (foldl power_min min_cpu_state
              (omap (λ '(state, i), if decide (i ≠ non_cpu_index) then Some state else None)
                 (zip (non_cpu_states node) (seq s (e - s)))))
  | None => mret min_cpu_state
  end.

Definition is_last_cpu_to_idle node (cpu_index : nat) (non_cpu_index : option nat)
    : outcome bool :=
  s ← get_osi_minimal_allowed_state_without_core node cpu_index non_cpu_index;
  mret (bool_decide (s ≠ RUN)).

Definition set_minimal_allowed_state node : outcome (NonCpuPowerNode S) :=
  m ← unwrap (power_min_list (requested_states node));
  mret (ncpu_set_local_state node m).

(** ** Ancestors *)
Implicit Types anc : AncestorPowerDomains S.

(** The [while let] loop of [new_with_max_level]; the fuel is one more than
    the number of levels the loop's own assertion admits. *)
Fixpoint lock_loop (fuel level max_level : nat) (parent : option nat)
    (mutexes : list (NonCpuPowerNode S)) : outcome (AncestorPowerDomains S) :=
  match parent with
  | None => mret []
  | Some index =>
      match fuel with
      | 0 => Panic
      | Datatypes.S fuel =>
          _ ← assert_ (bool_decide (level ≤ MAX_POWER_LEVEL));
          if decide (max_level < level) then mret []
          else locked ← arr_get mutexes index;
               rest ← lock_loop fuel (Datatypes.S level) max_level (ncpu_parent locked) mutexes;
               mret ((index, locked) :: rest)
      end
  end.

Definition new_with_max_level (index max_level : nat)
    (mutexes : list (NonCpuPowerNode S)) : outcome (AncestorPowerDomains S) :=
  lock_loop (Datatypes.S MAX_POWER_LEVEL) (CPU_POWER_LEVEL + 1) max_level (Some index) mutexes.

(** [Drop]: the guards are released, what was written through them stays. *)
Definition unlock anc (nodes : list (NonCpuPowerNode S)) : list (NonCpuPowerNode S) :=
  foldr (λ '(i, node) nodes, <[i := node]> nodes) nodes anc.

Fixpoint set_running_loop (cpu_index : nat) (child_index : option nat) anc
    : outcome (AncestorPowerDomains S) :=
  match anc with
  | [] => mret []
  | (i, node) :: anc =>
      node ← set_requested_power_state node cpu_index RUN;
      node ← clear_suspend_state node cpu_index;
      let node := ncpu_set_local_state node RUN in
      node ← match child_index with
             | Some child_index => set_non_cpu_state node child_index RUN
             | None => mret node
             end;
      anc ← set_running_loop cpu_index (Some i) anc;
      mret ((i, node) :: anc)
  end.

Definition set_running anc (cpu_index : nat) : outcome (AncestorPowerDomains S) :=
  set_running_loop cpu_index None anc.

Definition is_last_cpu_to_idle_at_power_level anc (cpu_index end_power_level : nat)
    : outcome bool :=
  if decide (end_power_level = CPU_POWER_LEVEL) then mret true
  else
    child_non_cpu_index ←
      (if decide (2 ≤ end_power_level)
       then p ← arr_get anc (end_power_level - 2); mret (Some p.1)
       else mret None);
    p ← arr_get anc (end_power_level - 1);
    is_last_cpu_to_idle p.2 cpu_index child_non_cpu_index.
End Nodes.

Section CpuNodes.
Context {S EP : Type} `{PlatformPowerStateInterface S}.
Implicit Types cpu : CpuPowerNode S EP.

Definition cpu_new (parent : nat) : CpuPowerNode S EP :=
  mkCpu parent AffOff OFF None.

Definition set_affinity_info cpu (a : AffinityInfo) : CpuPowerNode S EP :=
  mkCpu (cpu_parent cpu) a (cpu_local_state cpu) (cpu_entry_point cpu).

Definition cpu_set_local_state cpu (s : S) : CpuPowerNode S EP :=
  mkCpu (cpu_parent cpu) (cpu_affinity_info cpu) s (cpu_entry_point cpu).

Definition set_entry_point cpu (ep : EP) : outcome (CpuPowerNode S EP) :=
  match cpu_entry_point cpu with
  | None => mret (mkCpu (cpu_parent cpu) (cpu_affinity_info cpu) (cpu_local_state cpu) (Some ep))
  | Some _ => Panic
  end.

Definition pop_entry_point cpu : option EP * CpuPowerNode S EP :=
  (cpu_entry_point cpu,
   mkCpu (cpu_parent cpu) (cpu_affinity_info cpu) (cpu_local_state cpu) None).
End CpuNodes.

Section Tree.
Context {S EP : Type} `{PlatformPowerStateInterface S} `{PsciDims}.
Implicit Types tree : PowerDomainTree S EP.
Implicit Types nodes : list (NonCpuPowerNode S).

(** ** Construction *)

(** The body of the innermost loop: add the node [index] and assign it to its
    parent. *)
Definition push_child (parent_node : option nat) (index : nat) nodes
    : outcome (list (NonCpuPowerNode S)) :=
  nodes ← arr_push NON_CPU_DOMAIN_COUNT nodes (ncpu_new parent_node);
  match parent_node with
  | Some parent_index =>
      node ← arr_get nodes parent_index;
      node ← assign_non_cpu node index;
      arr_set nodes parent_index node
  | None => mret nodes
  end.

(** [for index in (&mut node_index).take(child_count)]: [node_index] is the
    range [next .. NON_CPU_DOMAIN_COUNT] that every level draws from. *)
Fixpoint push_children (child_count : nat) (parent_node : option nat) (next : nat) nodes
    : outcome (nat * list (NonCpuPowerNode S)) :=
  match child_count with
  | 0 => mret (next, nodes)
  | Datatypes.S child_count =>
      if decide (next < NON_CPU_DOMAIN_COUNT) then
        nodes ← push_child parent_node next nodes;
        push_children child_count parent_node (Datatypes.S next) nodes
      else mret (next, nodes)
  end.

Record BuildState := mkBuild {
  b_nodes : list (NonCpuPowerNode S);
  b_next : nat;
  b_parent_node_index : nat;
  b_parent_node : option nat;
}.

(** [for _ in 0..node_count]; returns [next_level_node_count]. *)
Fixpoint build_level (topology : list nat) (node_count next_level_node_count : nat)
    (b : BuildState) : outcome (nat * BuildState) :=
  match node_count with
  | 0 => mret (next_level_node_count, b)
  | Datatypes.S node_count =>
      child_count ← arr_get topology (b_parent_node_index b);
      '(next, nodes) ← push_children child_count (b_parent_node b) (b_next b) (b_nodes b);
      i ← node_index_add (b_parent_node_index b) 1;
      build_level topology node_count (next_level_node_count + child_count)
        (mkBuild nodes next i (Some (b_parent_node_index b)))
  end.

(** [for _ in (CPU_POWER_LEVEL + 1..=MAX_POWER_LEVEL).rev()]. *)
Fixpoint build_levels (topology : list nat) (levels node_count : nat) (b : BuildState)
    : outcome BuildState :=
  match levels with
  | 0 => mret b
  | Datatypes.S levels =>
      '(node_count, b) ← build_level topology node_count 0 b;
      build_levels topology levels node_count b
  end.

(** [PowerDomainTree::assign_cpu]: the recursion follows the parents. *)
Fixpoint tree_assign_cpu (fuel : nat) nodes (parent_index cpu_index : nat)
    : outcome (list (NonCpuPowerNode S)) :=
  match fuel with
  | 0 => Panic
  | Datatypes.S fuel =>
      node ← arr_get nodes parent_index;
      node ← ncpu_assign_cpu node cpu_index;
      nodes ← arr_set nodes parent_index node;
      match ncpu_parent node with
      | Some parent_index => tree_assign_cpu fuel nodes parent_index cpu_index
      | None => mret nodes
      end
  end.

(** The inner loop over the CPUs of one parent. *)
Fixpoint push_cpus (num_children parent_node_index next : nat) tree
    : outcome (nat * PowerDomainTree S EP) :=
  match num_children with
  | 0 => mret (next, tree)
  | Datatypes.S num_children =>
      if decide (next < CPU_DOMAIN_COUNT) then
        parent ← checked_sub parent_node_index 1;
        cpus ← arr_push CPU_DOMAIN_COUNT (cpu_power_nodes tree) (cpu_new parent);
        nodes ← tree_assign_cpu (length (non_cpu_power_nodes tree))
                  (non_cpu_power_nodes tree) parent next;
        push_cpus num_children parent_node_index (Datatypes.S next) (mkTree nodes cpus)
      else mret (next, tree)
  end.

Fixpoint build_cpus (children : list nat) (parent_node_index next : nat) tree
    : outcome (nat * PowerDomainTree S EP) :=
  match children with
  | [] => mret (next, tree)
  | num_children :: children =>
      '(next, tree) ← push_cpus num_children parent_node_index next tree;
      i ← node_index_add parent_node_index 1;
      build_cpus children i next tree
  end.

Definition tree_new (topology : list nat) : outcome (PowerDomainTree S EP) :=
  _ ← assert_ (bool_decide (CPU_DOMAIN_COUNT ≤ NODE_INDEX_MAX)
               && bool_decide (NON_CPU_DOMAIN_COUNT ≤ NODE_INDEX_MAX));
  b ← build_levels topology MAX_POWER_LEVEL 1 (mkBuild [] 0 0 None);
  _ ← assert_ (bool_decide (NON_CPU_DOMAIN_COUNT ≤ b_next b));
  _ ← assert_ (bool_decide (b_parent_node_index b ≤ length topology));
  '(next, tree) ← build_cpus (drop (b_parent_node_index b) topology)
                    (b_parent_node_index b) 0 (mkTree (b_nodes b) []);
  _ ← assert_ (bool_decide (CPU_DOMAIN_COUNT ≤ next));
  mret tree.

(** ** Queries *)
Fixpoint is_last_cpu_loop (cpu_index index : nat) (cpus : list (CpuPowerNode S EP))
    : outcome bool :=
  match cpus with
  | [] => mret true
  | cpu :: cpus =>
      ok ← (if decide (index = cpu_index)
            then _ ← assert_ (bool_decide (cpu_affinity_info cpu = AffOn)); mret true
            else mret (bool_decide (cpu_affinity_info cpu = AffOff)) : outcome bool);
      if (ok : bool) then is_last_cpu_loop cpu_index (Datatypes.S index) cpus else mret false
  end.

Definition is_last_cpu tree (cpu_index : nat) : outcome bool :=
  is_last_cpu_loop cpu_index 0 (cpu_power_nodes tree).

Definition are_all_cpus_on tree : bool :=
  forallb (λ cpu, bool_decide (cpu_affinity_info cpu = AffOn)) (cpu_power_nodes tree).

Definition locked_cpu_node tree (cpu_index : nat) : outcome (CpuPowerNode S EP) :=
  arr_get (cpu_power_nodes tree) cpu_index.

(** What a dropped guard of a CPU node leaves in the tree. *)
Definition put_cpu_node tree (cpu_index : nat) (cpu : CpuPowerNode S EP)
    : PowerDomainTree S EP :=
  mkTree (non_cpu_power_nodes tree) (<[cpu_index := cpu]> (cpu_power_nodes tree)).
End Tree.
Arguments BuildState : clear implicits.
