(* ===== verification/Composite.v ===== *)
(** * Composite power states

    [PsciCompositePowerState] of [src/services/psci.rs]: one local state per
    power level, and the coordination of a request with the locked ancestors
    of a CPU, in platform-coordinated mode ([coordinate_state]) and in
    OS-initiated mode ([validate_state_coordination] and
    [apply_coordinated_state_to_power_domain_tree]). *)

From stdpp Require Import base list numbers option.
From S2P Require Import Prelude PowerState PowerTree.

(** The error codes of [arm_psci::ErrorCode]. *)
Inductive ErrorCode : Type :=
| NotSupported
| InvalidParameters
| Denied
| AlreadyOn
| OnPending
| InternalFailure
| NotPresent
| Disabled
| InvalidAddress.
Global Instance ErrorCode_eq_dec : EqDecision ErrorCode.
Proof. solve_decision. Defined.

Record PsciCompositePowerState (S : Type) := mkComposite {
  states : list S;
  last_at_power_level : option nat;
}.
Arguments mkComposite {S}.
Arguments states {S}.
Arguments last_at_power_level {S}.

Section Composite.
Context {S EP : Type} `{PlatformPowerStateInterface S} `{PsciDims}.
Implicit Types self : PsciCompositePowerState S.
Implicit Types anc : AncestorPowerDomains S.
Implicit Types cpu : CpuPowerNode S EP.

Definition STATE_COUNT : nat := MAX_POWER_LEVEL + 1.

Definition composite_OFF : PsciCompositePowerState S :=
  mkComposite (replicate STATE_COUNT OFF) None.

Definition composite_RUN : PsciCompositePowerState S :=
  mkComposite (replicate STATE_COUNT RUN) None.

Definition composite_new (sts : list S) : PsciCompositePowerState S :=
  mkComposite sts None.

Definition new_with_last_power_level (sts : list S) (last : nat)
    : PsciCompositePowerState S :=
  mkComposite sts (Some last).

Definition cpu_level_state self : outcome S := arr_get (states self) CPU_POWER_LEVEL.

Definition highest_level_state self : outcome S := arr_get (states self) (STATE_COUNT - 1).

Definition find_highest_non_run_level self : option nat :=
  rposition (λ state, bool_decide (power_state_type state ≠ Run)) (states self).

Definition find_highest_power_down_level self : option nat :=
  rposition (λ state, bool_decide (power_state_type state = PowerDown)) (states self).

Fixpoint copy_local_states anc (sts : list S) : list S :=
  match anc, sts with
  | (_, node) :: anc, _ :: sts => ncpu_local_state node :: copy_local_states anc sts
  | _, sts => sts
  end.

Definition set_local_states_from_nodes self cpu anc : outcome (PsciCompositePowerState S) :=
  sts ← arr_set (states self) CPU_POWER_LEVEL (cpu_local_state cpu);
  mret (mkComposite (take 1 sts ++ copy_local_states anc (drop 1 sts))
          (last_at_power_level self)).

(** The propagation of a child's state to its parent's copy. *)
Definition propagate (node : NonCpuPowerNode S) (child_state : option (nat * S))
    : outcome (NonCpuPowerNode S) :=
  match child_state with
  | Some (non_cpu_index, state) => set_non_cpu_state node non_cpu_index state
  | None => mret node
  end.

(** The loop of [set_nodes_from_local_states]; it returns the last
    [child_state] as well. *)
Fixpoint set_nodes_loop (child_state : option (nat * S)) anc (sts : list S)
    : outcome (option (nat * S) * AncestorPowerDomains S) :=
  match anc, sts with
  | (node_index, node) :: anc, state :: sts =>
      node ← propagate (ncpu_set_local_state node state) child_state;
      '(child_state, anc) ← set_nodes_loop (Some (node_index, state)) anc sts;
      mret (child_state, (node_index, node) :: anc)
  | _, _ => mret (child_state, anc)
  end.

Definition set_nodes_from_local_states self (highest_affected_level : nat) cpu anc
    : outcome (CpuPowerNode S EP * AncestorPowerDomains S) :=
  s0 ← cpu_level_state self;
  let cpu := cpu_set_local_state cpu s0 in
  if decide (CPU_POWER_LEVEL < highest_affected_level) then
    sts ← slice (states self) (CPU_POWER_LEVEL + 1) (highest_affected_level + 1);
    '(child_state, low) ← set_nodes_loop None (take highest_affected_level anc) sts;
    let anc := low ++ drop highest_affected_level anc in
    if decide (highest_affected_level < MAX_POWER_LEVEL) then
      match anc !! highest_affected_level with
      | Some (i, last) =>
          last ← propagate last child_state;
          mret (cpu, <[highest_affected_level := (i, last)]> anc)
      | None => mret (cpu, anc)
      end
    else mret (cpu, anc)
  else mret (cpu, anc).

Fixpoint set_suspend_states (cpu_index : nat) anc (sts : list S)
    : outcome (AncestorPowerDomains S) :=
  match anc, sts with
  | (i, node) :: anc, requested_state :: sts =>
      node ← set_suspend_state node cpu_index requested_state;
      anc ← set_suspend_states cpu_index anc sts;
      mret ((i, node) :: anc)
  | _, _ => mret anc
  end.

Definition apply_coordinated_state_to_power_domain_tree self
    (highest_affected_level : nat) cpu anc (cpu_index : nat)
    (resolved_state : PsciCompositePowerState S)
    : outcome (CpuPowerNode S EP * AncestorPowerDomains S) :=
  anc ← set_suspend_states cpu_index anc (drop (CPU_POWER_LEVEL + 1) (states resolved_state));
  set_nodes_from_local_states self highest_affected_level cpu anc.

(** The body of the loop of [coordinate_state] for one ancestor: the updated
    node, the state written to the composite state and the new
    [higher_levels_are_run]. *)
Definition coordinate_step (cpu_index : nat) (higher_levels_are_run : bool)
    (child_state : option (nat * S)) (node : NonCpuPowerNode S) (state : S)
    : outcome (NonCpuPowerNode S * S * bool) :=
  node ← set_requested_power_state node cpu_index state;
  '(node, state, higher_levels_are_run) ←
    (if negb higher_levels_are_run
     then node ← set_minimal_allowed_state node;
          let state := ncpu_local_state node in
          mret (node, state, bool_decide (power_state_type state = Run))
     else mret (node, RUN, true));
  node ← propagate node child_state;
  mret (node, state, higher_levels_are_run).

Fixpoint coordinate_loop (cpu_index : nat) (higher_levels_are_run : bool)
    (child_state : option (nat * S)) anc (sts : list S)
    : outcome (AncestorPowerDomains S * list S) :=
  match anc, sts with
  | (node_index, node) :: anc, state :: sts =>
      '(node, state, higher_levels_are_run) ←
        coordinate_step cpu_index higher_levels_are_run child_state node state;
      '(anc, sts) ← coordinate_loop cpu_index higher_levels_are_run
                      (Some (node_index, state)) anc sts;
      mret ((node_index, node) :: anc, state :: sts)
  | _, _ => mret (anc, sts)
  end.

Definition coordinate_state self (cpu_index : nat) anc
    : outcome (PsciCompositePowerState S * AncestorPowerDomains S) :=
  '(anc, sts) ← coordinate_loop cpu_index false None anc
                  (drop (CPU_POWER_LEVEL + 1) (states self));
  mret (mkComposite (take (CPU_POWER_LEVEL + 1) (states self) ++ sts)
          (last_at_power_level self), anc).

Definition create_highest_affected_level_resolved_state self (highest_affected_level : nat)
    : outcome (PsciCompositePowerState S) :=
  s ← arr_get (states self) highest_affected_level;
  mret (mkComposite (take highest_affected_level (states self) ++
                     replicate (length (states self) - highest_affected_level) s)
          (last_at_power_level self)).

Fixpoint validate_loop (cpu_index : nat) (child_index : option nat) anc (sts : list S)
    : outcome (result unit ErrorCode) :=
  match anc, sts with
  | (node_index, node) :: anc, requested_state :: sts =>
      shallowest_descendant_state ←
        get_osi_minimal_allowed_state_without_core node cpu_index child_index;
      if negb (power_leb requested_state shallowest_descendant_state) then
        if decide (shallowest_descendant_state = RUN)
        then mret (Err Denied)
        else mret (Err InvalidParameters)
      else validate_loop cpu_index (Some node_index) anc sts
  | _, _ => mret (Ok tt)
  end.

Definition validate_state_coordination self (cpu_index highest_affected_level : nat) anc
    : outcome (result unit ErrorCode) :=
  match last_at_power_level self with
  | None => mret (Err InvalidParameters)
  | Some last =>
      is_last ← is_last_cpu_to_idle_at_power_level anc cpu_index last;
      if negb is_last then mret (Err Denied)
      else if decide (highest_affected_level = CPU_POWER_LEVEL) then mret (Ok tt)
      else
        sts ← slice (states self) (CPU_POWER_LEVEL + 1) (highest_affected_level + 1);
        validate_loop cpu_index None (take highest_affected_level anc) sts
  end.

Definition is_valid_suspend_request self (is_power_down_state : bool) : bool :=
  match find_highest_non_run_level self with
  | None => false
  | Some _ =>
      if negb (is_sorted_by (λ a b, power_leb b a) (states self)) then false
      else if match last_at_power_level self with
              | Some last => bool_decide (MAX_POWER_LEVEL < last)
              | None => false
              end then false
      else if is_power_down_state
           then bool_decide (is_Some (find_highest_power_down_level self))
           else bool_decide (find_highest_power_down_level self = None)
  end.
End Composite.

(** ** The checks on a request *)
Section Requests.
Context {S : Type} `{PlatformPowerStateLaws S} `{PsciDims}.
Implicit Types self : PsciCompositePowerState S.

(** The states of a request get shallower towards the root. *)
Definition antitone (sts : list S) : Prop :=
  ∀ i j a b, i ≤ j → sts !! i = Some a → sts !! j = Some b → b ⊑ a.

Lemma antitone_cons a sts :
  antitone (a :: sts) ↔ (∀ b, b ∈ sts → b ⊑ a) ∧ antitone sts.
Proof.
  split.
  - intros Ha. split.
    + intros b [j Hj]%list_elem_of_lookup. by apply (Ha 0 (Datatypes.S j)); [lia|..].
    + intros i j x y Hij. apply (Ha (Datatypes.S i) (Datatypes.S j)). lia.
  - intros [Hle Hs] [|i] [|j] x y Hij Hx Hy; simplify_eq/=; [..|lia|].
    + apply power_le_refl.
    + apply Hle. by eapply list_elem_of_lookup_2.
    + apply (Hs i j); [lia|done..].
Qed.

Lemma sorted_antitone sts :
  is_sorted_by (λ a b, power_leb b a) sts = true ↔ antitone sts.
Proof.
  induction sts as [|a [|b sts] IH].
  - split; [|done]. intros _ i j x y _ Hx. done.
  - rewrite antitone_cons. split; [|done]. intros _. split.
    + intros b Hb. by apply elem_of_nil in Hb.
    + intros i j x y _ Hx. done.
  - cbn [is_sorted_by]. rewrite antitone_cons, andb_true_iff, IH. split.
    + intros [Hba Hs]. split; [|done]. intros c [->|Hc]%elem_of_cons; [done|].
      apply antitone_cons in Hs as [Hs _]. eapply power_le_trans; [by apply Hs|done].
    + intros [Hle Hs]. split; [|done]. apply Hle. left.
Qed.

Lemma find_highest_non_run_level_Some self h :
  find_highest_non_run_level self = Some h →
  (∃ s, states self !! h = Some s ∧ s ≠ RUN) ∧
  ∀ j s, h < j → states self !! j = Some s → s = RUN.
Proof.
  intros [(s & Hs & Hp) Hlast]%rposition_Some. split.
  - exists s. split; [done|]. rewrite bool_decide_eq_true, type_Run in Hp. done.
  - intros j t Hj Ht. specialize (Hlast j t Hj Ht).
    apply bool_decide_eq_false, dec_stable in Hlast. by apply type_Run.
Qed.
End Requests.
