(* ===== verification/TreeInv.v ===== *)
(** * The invariant of the power domain tree

    The specification of a coordinated tree: what every node, every
    parent-child edge and the path from a CPU to its root satisfy, whatever
    the suspend mode.  The second half shows that an update of the locked
    ancestors of one CPU keeps it ([update_nodes_ok]); the operations of
    [PowerTree] and [Composite] are proved to be such updates in
    [Coordination]. *)

From stdpp Require Import base list numbers option.
From S2P Require Import Prelude PowerState PowerTree Composite.

(** ** Reading a node *)
Section Read.
Context {S : Type} `{PlatformPowerStateInterface S}.
Implicit Types n : NonCpuPowerNode S.

Definition in_cpus n (c : nat) : Prop := (cpu_range n).1 ≤ c < (cpu_range n).2.
Definition in_children n (i : nat) : Prop := (non_cpu_range n).1 ≤ i < (non_cpu_range n).2.

(** The request, the OS-initiated suspend request and the copy of a child's
    state that a node stores. *)
Definition req n (c : nat) : option S := requested_states n !! (c - (cpu_range n).1).
Definition susp n (c : nat) : option (option S) := suspend_states n !! (c - (cpu_range n).1).
Definition copy n (i : nat) : option S := non_cpu_states n !! (i - (non_cpu_range n).1).

(** The state a CPU votes for: its request if it is not [RUN], otherwise its
    OS-initiated suspend request, if any. *)
Definition vote_of (r : S) (s : option S) : S := if decide (r ≠ RUN) then r else default RUN s.

(** What the setters write. *)
Definition upd_req n (c : nat) (s : S) : NonCpuPowerNode S :=
  mkNonCpu (ncpu_parent n) (ncpu_local_state n) (cpu_range n) (non_cpu_range n)
    (<[c - (cpu_range n).1 := s]> (requested_states n)) (suspend_states n) (non_cpu_states n).
Definition upd_susp n (c : nat) (s : option S) : NonCpuPowerNode S :=
  mkNonCpu (ncpu_parent n) (ncpu_local_state n) (cpu_range n) (non_cpu_range n)
    (requested_states n) (<[c - (cpu_range n).1 := s]> (suspend_states n)) (non_cpu_states n).
Definition upd_copy n (i : nat) (s : S) : NonCpuPowerNode S :=
  mkNonCpu (ncpu_parent n) (ncpu_local_state n) (cpu_range n) (non_cpu_range n)
    (requested_states n) (suspend_states n) (<[i - (non_cpu_range n).1 := s]> (non_cpu_states n)).
Definition upd_copy_opt n (child : option (nat * S)) : NonCpuPowerNode S :=
  match child with Some (i, s) => upd_copy n i s | None => n end.

(** The arrays of a node have one entry per element of their range. *)
Record node_len n : Prop := {
  len_req : length (requested_states n) = (cpu_range n).2 - (cpu_range n).1;
  len_susp : length (suspend_states n) = (cpu_range n).2 - (cpu_range n).1;
  len_copy : length (non_cpu_states n) = (non_cpu_range n).2 - (non_cpu_range n).1;
}.

(** The node invariant.
    - A CPU that asked for a low-power state has no suspend request.
    - The node is not deeper than any CPU below it votes for.
    - The node is at least as deep as every lower bound of the requests: it is
      not kept running without a reason. *)
Record node_ok n : Prop := {
  ok_len : node_len n;
  ok_excl : ∀ c r s, in_cpus n c → req n c = Some r → susp n c = Some s → r ≠ RUN → s = None;
  ok_vote : ∀ c r s, in_cpus n c → req n c = Some r → susp n c = Some s →
    ncpu_local_state n ⊑ vote_of r s;
  ok_glb : ∀ x, (∀ c r, in_cpus n c → req n c = Some r → x ⊑ r) → x ⊑ ncpu_local_state n;
}.

(** The invariant of the edge between the node [n] with index [i] and its
    parent [p]: a CPU asks no deeper state of the parent than of the child, the
    parent's copy is a lower bound of the child's state, and the parent is
    never in a deeper state than the child. *)
Record edge_ok (i : nat) n (p : NonCpuPowerNode S) : Prop := {
  edge_child : in_children p i;
  edge_cpus : ∀ c, in_cpus n c → in_cpus p c;
  edge_req : ∀ c r r', in_cpus n c → req p c = Some r → req n c = Some r' → r ⊑ r';
  edge_copy : ∀ s, copy p i = Some s → s ⊑ ncpu_local_state n;
  edge_local : ncpu_local_state p ⊑ ncpu_local_state n;
}.

(** ** The tree *)

(** [path nodes o l]: following the parents from [o] visits the nodes [l]. *)
Fixpoint path (nodes : list (NonCpuPowerNode S)) (o : option nat) (l : list nat) : Prop :=
  match l with
  | [] => o = None
  | i :: l => o = Some i ∧ ∃ n, nodes !! i = Some n ∧ path nodes (ncpu_parent n) l
  end.

(** The path of the CPU [c] reaches the root in [MAX_POWER_LEVEL] steps and
    visits exactly the nodes whose CPU range contains [c]; the parent of a CPU
    has no non-CPU children. *)
Record cpu_path `{PsciDims} (nodes : list (NonCpuPowerNode S)) (c p : nat) (l : list nat)
    : Prop := {
  cp_path : path nodes (Some p) l;
  cp_length : length l = MAX_POWER_LEVEL;
  cp_range : ∀ i n, nodes !! i = Some n → in_cpus n c ↔ i ∈ l;
  cp_leaf : ∀ n i, nodes !! p = Some n → ¬ in_children n i;
}.

(** Every node and every edge of the tree is well formed; parents come
    before their children. *)
Record nodes_ok (nodes : list (NonCpuPowerNode S)) : Prop := {
  no_node : ∀ i n, nodes !! i = Some n → node_ok n;
  no_edge : ∀ i n j, nodes !! i = Some n → ncpu_parent n = Some j →
    j < i ∧ ∃ p, nodes !! j = Some p ∧ edge_ok i n p;
}.

(** The CPU [c] runs as far as the node is concerned. *)
Definition col_run (c : nat) n : Prop := req n c = Some RUN ∧ susp n c = Some None.
End Read.

Section ReadLemmas.
Context {S : Type} `{PlatformPowerStateLaws S}.
Implicit Types n : NonCpuPowerNode S.

Lemma set_requested_Done n c s :
  node_len n → in_cpus n c → set_requested_power_state n c s = Done (upd_req n c s).
Proof.
  intros [Hr _ _] Hc. unfold set_requested_power_state, in_cpus in *.
  rewrite (proj2 (range_contains_spec _ _)) by done. simpl.
  unfold checked_sub. rewrite decide_True by lia. simpl.
  unfold arr_set. rewrite decide_True by lia. done.
Qed.

Lemma put_suspend_Done n c s :
  node_len n → in_cpus n c → put_suspend_state n c s = Done (upd_susp n c s).
Proof.
  intros [_ Hr _] Hc. unfold put_suspend_state, in_cpus in *.
  rewrite (proj2 (range_contains_spec _ _)) by done. simpl.
  unfold checked_sub. rewrite decide_True by lia. simpl.
  unfold arr_set. rewrite decide_True by lia. done.
Qed.

Lemma set_non_cpu_Done n i s :
  node_len n → in_children n i → set_non_cpu_state n i s = Done (upd_copy n i s).
Proof.
  intros [_ _ Hr] Hc. unfold set_non_cpu_state, in_children in *.
  rewrite (proj2 (range_contains_spec _ _)) by done. simpl.
  unfold checked_sub. rewrite decide_True by lia. simpl.
  unfold arr_set. rewrite decide_True by lia. done.
Qed.

Lemma propagate_Done n child :
  node_len n → (∀ i s, child = Some (i, s) → in_children n i) →
  propagate n child = Done (upd_copy_opt n child).
Proof.
  intros Hn Hc. destruct child as [[i s]|]; simpl; [|done].
  apply set_non_cpu_Done; [done|]. by eapply Hc.
Qed.

Lemma node_len_upd_req n c s : node_len n → node_len (upd_req n c s).
Proof. intros []. split; simpl; rewrite ?length_insert; done. Qed.
Lemma node_len_upd_susp n c s : node_len n → node_len (upd_susp n c s).
Proof. intros []. split; simpl; rewrite ?length_insert; done. Qed.
Lemma node_len_upd_copy n child : node_len n → node_len (upd_copy_opt n child).
Proof.
  intros []. destruct child as [[i s]|]; split; simpl; rewrite ?length_insert; done.
Qed.
Lemma node_len_set_local n s : node_len n → node_len (ncpu_set_local_state n s).
Proof. intros []. by split. Qed.

Lemma req_is_Some n c : node_len n → in_cpus n c → is_Some (req n c).
Proof. intros [] ?. unfold req, in_cpus in *. apply lookup_lt_is_Some. lia. Qed.
Lemma susp_is_Some n c : node_len n → in_cpus n c → is_Some (susp n c).
Proof. intros [] ?. unfold susp, in_cpus in *. apply lookup_lt_is_Some. lia. Qed.
Lemma copy_is_Some n i : node_len n → in_children n i → is_Some (copy n i).
Proof. intros [] ?. unfold copy, in_children in *. apply lookup_lt_is_Some. lia. Qed.

Lemma req_upd_req_eq n c s : node_len n → in_cpus n c → req (upd_req n c s) c = Some s.
Proof.
  intros [] ?. unfold req, in_cpus in *. simpl. apply list_lookup_insert_eq. lia.
Qed.
Lemma req_upd_req_ne n c c' s :
  in_cpus n c → in_cpus n c' → c ≠ c' → req (upd_req n c s) c' = req n c'.
Proof.
  intros. unfold req, in_cpus in *. simpl. apply list_lookup_insert_ne. lia.
Qed.
Lemma susp_upd_susp_eq n c s : node_len n → in_cpus n c → susp (upd_susp n c s) c = Some s.
Proof.
  intros [] ?. unfold susp, in_cpus in *. simpl. apply list_lookup_insert_eq. lia.
Qed.
Lemma susp_upd_susp_ne n c c' s :
  in_cpus n c → in_cpus n c' → c ≠ c' → susp (upd_susp n c s) c' = susp n c'.
Proof.
  intros. unfold susp, in_cpus in *. simpl. apply list_lookup_insert_ne. lia.
Qed.
Lemma copy_upd_copy_eq n i s :
  node_len n → in_children n i → copy (upd_copy n i s) i = Some s.
Proof.
  intros [] ?. unfold copy, in_children in *. simpl. apply list_lookup_insert_eq. lia.
Qed.
Lemma copy_upd_copy_ne n i j s :
  in_children n i → in_children n j → i ≠ j → copy (upd_copy n i s) j = copy n j.
Proof.
  intros. unfold copy, in_children in *. simpl. apply list_lookup_insert_ne. lia.
Qed.
End ReadLemmas.

(** ** Updating the ancestors of one CPU *)
Section Update.
Context {S : Type} `{PlatformPowerStateLaws S} `{PsciDims}.
Implicit Types n p m : NonCpuPowerNode S.
Implicit Types nodes : list (NonCpuPowerNode S).
Implicit Types anc : AncestorPowerDomains S.

(** An update of a node on behalf of the CPU [c], where [ck] is the child of
    the node on the path to [c]: the shape is kept, the columns of the other
    CPUs and the copies of the other children are not touched, and the new
    local state is not deeper than that of any other child. *)
Record node_upd (c : nat) (ck : option nat) n n' : Prop := {
  nu_parent : ncpu_parent n' = ncpu_parent n;
  nu_cpus : cpu_range n' = cpu_range n;
  nu_children : non_cpu_range n' = non_cpu_range n;
  nu_ok : node_ok n';
  nu_req : ∀ c', in_cpus n c' → c' ≠ c → req n' c' = req n c';
  nu_susp : ∀ c', in_cpus n c' → c' ≠ c → susp n' c' = susp n c';
  nu_copy : ∀ i, in_children n i → Some i ≠ ck → copy n' i = copy n i;
  nu_local : ∀ i m, node_ok m → edge_ok i m n → ¬ in_cpus m c → Some i ≠ ck →
    ncpu_local_state n' ⊑ ncpu_local_state m;
}.

(** An update of a list of locked ancestors; [child] is the (updated) node
    below the first one. *)
Inductive chain_upd (c : nat)
    : option (nat * NonCpuPowerNode S) → AncestorPowerDomains S → AncestorPowerDomains S → Prop :=
| chain_nil child : chain_upd c child [] []
| chain_cons child i n n' anc anc' :
    node_upd c (fst <$> child) n n' →
    (∀ ci cn, child = Some (ci, cn) → edge_ok ci cn n') →
    chain_upd c (Some (i, n')) anc anc' →
    chain_upd c child ((i, n) :: anc) ((i, n') :: anc').

(** The guards hold the nodes of the tree. *)
Definition locked nodes anc : Prop := Forall (λ x, nodes !! x.1 = Some x.2) anc.

Lemma locked_cons nodes i n anc :
  locked nodes ((i, n) :: anc) ↔ nodes !! i = Some n ∧ locked nodes anc.
Proof. unfold locked. by rewrite Forall_cons_iff. Qed.

Lemma node_upd_refl c ck n : node_ok n → node_upd c ck n n.
Proof. intros Hn. split; try done. intros i m _ He _ _. exact (edge_local _ _ _ He). Qed.

Lemma in_cpus_upd c ck n n' c' : node_upd c ck n n' → in_cpus n' c' ↔ in_cpus n c'.
Proof. intros []. unfold in_cpus. by rewrite nu_cpus0. Qed.

Lemma in_children_upd c ck n n' i : node_upd c ck n n' → in_children n' i ↔ in_children n i.
Proof. intros []. unfold in_children. by rewrite nu_children0. Qed.

(** An edge to a child off the path survives the update of the parent. *)
Lemma edge_ok_side c ck i m n n' :
  node_ok m → edge_ok i m n → node_upd c ck n n' → ¬ in_cpus m c → Some i ≠ ck →
  edge_ok i m n'.
Proof.
  intros Hm He Hu Hc Hi. destruct (He). split.
  - by rewrite in_children_upd.
  - intros. rewrite in_cpus_upd by done. auto.
  - intros c' r r' Hin Hr. rewrite (nu_req _ _ _ _ Hu) in Hr; [by eauto|by auto|].
    by intros ->.
  - intros s. rewrite (nu_copy _ _ _ _ Hu) by done. apply edge_copy0.
  - by eapply nu_local.
Qed.

(** An edge on the path survives when the new column of [c], the new copy and
    the new states agree. *)
Lemma edge_ok_chain c ck i n n' p p' :
  edge_ok i n p → node_upd c ck n n' → node_upd c (Some i) p p' →
  (∀ r r', in_cpus n c → req p' c = Some r → req n' c = Some r' → r ⊑ r') →
  (∀ s, copy p' i = Some s → s ⊑ ncpu_local_state n') →
  ncpu_local_state p' ⊑ ncpu_local_state n' →
  edge_ok i n' p'.
Proof.
  intros He Hn Hp Hr Hs Hl. destruct (He). split; [..|done|done].
  - by rewrite (in_children_upd _ _ _ _ _ Hp).
  - intros c'. rewrite (in_cpus_upd _ _ _ _ _ Hn), (in_cpus_upd _ _ _ _ _ Hp). apply edge_cpus0.
  - intros c' r r' Hc'. rewrite (in_cpus_upd _ _ _ _ _ Hn) in Hc'.
    destruct (decide (c' = c)) as [->|]; [by apply Hr|].
    rewrite (nu_req _ _ _ _ Hn), (nu_req _ _ _ _ Hp) by auto. by apply edge_req0.
Qed.

Lemma chain_upd_fst c child anc anc' : chain_upd c child anc anc' → anc'.*1 = anc.*1.
Proof. induction 1; csimpl; congruence. Qed.

Lemma chain_upd_length c child anc anc' : chain_upd c child anc anc' → length anc' = length anc.
Proof. induction 1; csimpl; congruence. Qed.

(** Every node of the updated chain is an update of a node of the old one. *)
Lemma chain_upd_elem c child anc anc' i n' :
  chain_upd c child anc anc' → (i, n') ∈ anc' →
  ∃ n ck, (i, n) ∈ anc ∧ node_upd c ck n n' ∧ 
    (∀ k, ck = Some k → fst <$> child = Some k ∨ k ∈ anc.*1).
Proof.
  induction 1 as [|child j n m anc anc' Hu He Hch IH]; [by intros ?%elem_of_nil|].
  intros [[= -> ->]|Hin]%elem_of_cons.
  - exists n, (fst <$> child). split; [by left|]. split; [done|]. by intros k ->; left.
  - destruct (IH Hin) as (n0 & ck & Hn0 & Hu0 & Hck). exists n0, ck.
    split; [by right|]. split; [done|]. intros k Hk. right. csimpl.
    destruct (Hck k Hk) as [[= ->]|]; [by left|by right].
Qed.

(** Consecutive nodes of the updated chain are joined by well-formed edges. *)
Lemma chain_upd_edge nodes c child o anc anc' i n' j :
  chain_upd c child anc anc' → path nodes o anc.*1 → locked nodes anc →
  (i, n') ∈ anc' → ncpu_parent n' = Some j →
  ∃ p', (j, p') ∈ anc' ∧ edge_ok i n' p'.
Proof.
  intros Hch. revert o. induction Hch as [|child k n m anc anc' Hu He Hch IH];
    intros o Hp Hl Hin Hj; [by apply elem_of_nil in Hin|].
  csimpl in Hp. destruct Hp as (-> & n1 & Hn1 & Hp). apply locked_cons in Hl as [Hk Hl].
  simplify_eq/=. apply elem_of_cons in Hin as [[= -> ->]|Hin].
  - rewrite (nu_parent _ _ _ _ Hu) in Hj. rewrite Hj in Hp.
    inversion Hch as [|? k' n2 m' ? ? Hu' He' _]; subst; csimpl in Hp; [done|].
    destruct Hp as [[= ->] _]. exists m'. split; [right; left|by apply He'].
  - destruct (IH _ Hp Hl Hin Hj) as (p' & ? & ?). exists p'. split; [by right|done].
Qed.

(** ** Paths *)
Lemma path_le nodes i l : nodes_ok nodes → path nodes (Some i) l → ∀ j, j ∈ l → j ≤ i.
Proof.
  intros Hok. revert i. induction l as [|k l IH]; intros i; [done|].
  simpl. intros ([= <-] & n & Hn & Hp) j [->|Hj]%elem_of_cons; [lia|].
  destruct (ncpu_parent n) as [q|] eqn:Hq.
  - apply (no_edge _ Hok _ _ _ Hn) in Hq as [Hlt _]. specialize (IH q Hp j Hj). lia.
  - destruct l; [by apply elem_of_nil in Hj|]. by destruct Hp.
Qed.

Lemma path_NoDup nodes o l : nodes_ok nodes → path nodes o l → NoDup l.
Proof.
  intros Hok. revert o. induction l as [|i l IH]; intros o Hp; [constructor|].
  destruct Hp as (-> & n & Hn & Hp). constructor; [|by eapply IH].
  intros Hi. destruct (ncpu_parent n) as [q|] eqn:Hq.
  - apply (no_edge _ Hok _ _ _ Hn) in Hq as [Hlt _].
    pose proof (path_le _ _ _ Hok Hp i Hi). lia.
  - destruct l; [by apply elem_of_nil in Hi|]. by destruct Hp.
Qed.

(** A path only depends on the parents of the nodes. *)
Lemma path_same_parents nodes nodes' o l :
  (∀ i n, nodes !! i = Some n → ∃ n', nodes' !! i = Some n' ∧ ncpu_parent n' = ncpu_parent n) →
  path nodes o l → path nodes' o l.
Proof.
  intros Hsame. revert o. induction l as [|i l IH]; intros o; [done|].
  intros (-> & n & Hn & Hp). split; [done|].
  destruct (Hsame i n Hn) as (n' & Hn' & Heq). exists n'. rewrite Heq. auto.
Qed.

Lemma unlock_length anc nodes : length (unlock anc nodes) = length nodes.
Proof. induction anc as [|[i n] anc IH]; simpl; [done|]. by rewrite length_insert. Qed.

Lemma unlock_out anc nodes i : i ∉ anc.*1 → unlock anc nodes !! i = nodes !! i.
Proof.
  induction anc as [|[j n] anc IH]; csimpl; [done|].
  intros [Hij Hi]%not_elem_of_cons. rewrite list_lookup_insert_ne by done. auto.
Qed.

Lemma unlock_in anc nodes i n :
  NoDup anc.*1 → (i, n) ∈ anc → i < length nodes → unlock anc nodes !! i = Some n.
Proof.
  induction anc as [|[j m] anc IH]; csimpl; [by intros _ ?%elem_of_nil|].
  intros [Hj Hnd]%list.NoDup_cons [[= <- <-]|Hin]%elem_of_cons Hi.
  - apply list_lookup_insert_eq. by rewrite unlock_length.
  - rewrite list_lookup_insert_ne; [by apply IH|].
    intros ->. apply Hj. by apply (list_elem_of_fmap_2 fst) in Hin.
Qed.

Lemma unlock_app anc1 anc2 nodes : unlock (anc1 ++ anc2) nodes = unlock anc1 (unlock anc2 nodes).
Proof. unfold unlock. by rewrite foldr_app. Qed.

(** Guards that were not written through leave the tree as it was. *)
Lemma unlock_locked anc nodes : locked nodes anc → unlock anc nodes = nodes.
Proof.
  induction anc as [|[i n] anc IH]; [done|]. intros [Hi Hl]%locked_cons. simpl.
  rewrite IH by done. by apply list_insert_id.
Qed.

(** ** The update lemma *)
Section UpdateTree.
Context nodes (c p : nat) anc anc'.
Context (Hok : nodes_ok nodes) (Hpath : cpu_path nodes c p anc.*1).
Context (Hlock : locked nodes anc).
Context (Hch : chain_upd c None anc anc').

Lemma upd_fst : anc'.*1 = anc.*1.
Proof. by rewrite (chain_upd_fst _ _ _ _ Hch). Qed.

Lemma upd_NoDup : NoDup anc'.*1.
Proof. rewrite upd_fst. eapply path_NoDup; [done|]. apply Hpath. Qed.

Lemma locked_lookup i n : (i, n) ∈ anc → nodes !! i = Some n.
Proof. intros Hin. exact (proj1 (list.Forall_forall _ _) Hlock _ Hin). Qed.

(** What the tree holds after the update. *)
Lemma upd_lookup i n' :
  unlock anc' nodes !! i = Some n' ↔
  (i ∈ anc.*1 ∧ (i, n') ∈ anc') ∨ ((i ∉ anc.*1) ∧ nodes !! i = Some n').
Proof.
  assert (∀ m, (i, m) ∈ anc' → unlock anc' nodes !! i = Some m) as Hm.
  { intros m Hm. destruct (chain_upd_elem _ _ _ _ _ _ Hch Hm) as (n & _ & Hn & _).
    apply locked_lookup, lookup_lt_Some in Hn. auto using unlock_in, upd_NoDup. }
  destruct (decide (i ∈ anc.*1)) as [Hi|Hi].
  - split; [|naive_solver]. intros Hn'. left. split; [done|].
    rewrite <-upd_fst in Hi. apply list_elem_of_fmap in Hi as ([j m] & -> & Hin).
    simpl in *. specialize (Hm m Hin). by simplify_eq.
  - rewrite unlock_out by (by rewrite upd_fst). naive_solver.
Qed.

(** The node that was there before. *)
Lemma upd_lookup_old i n :
  nodes !! i = Some n → ∃ n' ck, unlock anc' nodes !! i = Some n' ∧ node_upd c ck n n'.
Proof.
  intros Hn. destruct (decide (i ∈ anc.*1)) as [Hi|Hi].
  - rewrite <-upd_fst in Hi. apply list_elem_of_fmap in Hi as ([j n'] & -> & Hin).
    destruct (chain_upd_elem _ _ _ _ _ _ Hch Hin) as (n1 & ck & Hn1 & Hu & _).
    apply locked_lookup in Hn1. simplify_eq/=. exists n', ck. split; [|done].
    apply upd_lookup. left. split; [|done]. rewrite <-upd_fst.
    by apply (list_elem_of_fmap_2 fst) in Hin.
  - exists n, None. split; [apply upd_lookup; by right|].
    apply node_upd_refl. by eapply no_node.
Qed.

Lemma upd_lookup_new i n' :
  unlock anc' nodes !! i = Some n' → ∃ n ck, nodes !! i = Some n ∧ node_upd c ck n n'.
Proof.
  intros Hn'. assert (is_Some (nodes !! i)) as [n Hn].
  { apply lookup_lt_is_Some. rewrite <-(unlock_length anc'). by eapply lookup_lt_Some. }
  destruct (upd_lookup_old i n Hn) as (m & ck & Hm & Hu). simplify_eq. eauto.
Qed.

Lemma update_nodes_ok : nodes_ok (unlock anc' nodes).
Proof.
  split.
  - intros i n' (n & ck & _ & Hu)%upd_lookup_new. apply Hu.
  - intros i n' j Hn' Hj. destruct (upd_lookup_new _ _ Hn') as (n & ck & Hn & Hu).
    rewrite (nu_parent _ _ _ _ Hu) in Hj.
    destruct (no_edge _ Hok i n j Hn Hj) as (Hlt & q & Hq & He). split; [done|].
    apply upd_lookup in Hn' as [[Hi Hin]|[Hi Hn']].
    + destruct (chain_upd_edge nodes c None (Some p) anc anc' i n' j) as (q' & Hq' & He'); auto.
      { apply Hpath. }
      { by rewrite (nu_parent _ _ _ _ Hu). }
      exists q'. split; [|done]. apply upd_lookup. left. split; [|done].
      rewrite <-upd_fst. by apply (list_elem_of_fmap_2 fst) in Hq'.
    + simplify_eq. destruct (upd_lookup_old j q Hq) as (q' & ck' & Hq' & _).
      exists q'. split; [done|]. apply upd_lookup in Hq' as [[Hj' Hq']|[Hj' Hq']];
        [|by simplify_eq].
      destruct (chain_upd_elem _ _ _ _ _ _ Hch Hq') as (q1 & ck1 & Hq1 & Hu1 & Hck).
      apply locked_lookup in Hq1. simplify_eq.
      eapply (edge_ok_side c ck1); [by eapply no_node|done|done| |].
      * by rewrite (cp_range _ _ _ _ Hpath i).
      * intros <-. destruct (Hck i eq_refl) as [?|?]; done.
Qed.

(** The paths of all the CPUs are what they were. *)
Lemma update_cpu_path c' (p' : nat) (l' : list nat) :
  cpu_path nodes c' p' l' → cpu_path (unlock anc' nodes) c' p' l'.
Proof.
  intros [Hp Hl Hr Hleaf]. split; [|done|..].
  - eapply path_same_parents; [|done]. intros i n Hn.
    destruct (upd_lookup_old i n Hn) as (n' & ck & Hn' & Hu). exists n'.
    split; [done|]. apply Hu.
  - intros i n' (n & ck & Hn & Hu)%upd_lookup_new. rewrite (in_cpus_upd _ _ _ _ _ Hu). eauto.
  - intros n' i (n & ck & Hn & Hu)%upd_lookup_new. rewrite (in_children_upd _ _ _ _ _ Hu). eauto.
Qed.

(** The columns of the other CPUs are not touched. *)
Lemma update_column c' (p' : nat) (l' : list nat) i n' :
  cpu_path nodes c' p' l' → c' ≠ c → i ∈ l' → unlock anc' nodes !! i = Some n' →
  ∃ n, nodes !! i = Some n ∧ req n' c' = req n c' ∧ susp n' c' = susp n c'.
Proof.
  intros Hp' Hne Hi (n & ck & Hn & Hu)%upd_lookup_new. exists n. split; [done|].
  assert (in_cpus n c') by by apply (cp_range _ _ _ _ Hp' i).
  split; [by eapply nu_req|by eapply nu_susp].
Qed.
End UpdateTree.
End Update.
