(* ===== verification/Coordination.v ===== *)
(** * Coordination keeps the tree invariant

    The operations that run with the ancestors of a CPU locked
    ([set_running], [coordinate_state] and, in OS-initiated mode,
    [validate_state_coordination] followed by
    [apply_coordinated_state_to_power_domain_tree]) do not panic and are
    updates in the sense of [TreeInv]. *)

From stdpp Require Import base list numbers option.
From S2P Require Import Prelude PowerState PowerTree Composite TreeInv.

Section Write.
Context {S : Type} `{PlatformPowerStateLaws S}.
Implicit Types n m : NonCpuPowerNode S.

(** Everything an operation of the CPU [c] writes to one node: its request,
    its suspend request, the local state and the copy of one child. *)
Definition write n (c : nat) (r : S) (s : option S) (l : S) (child : option (nat * S))
    : NonCpuPowerNode S :=
  upd_copy_opt (ncpu_set_local_state (upd_susp (upd_req n c r) c s) l) child.

(** The CPU [c] and the node itself are running. *)
Definition running_node (c : nat) n : Prop := col_run c n ∧ ncpu_local_state n = RUN.

Lemma write_local n c r s l child : ncpu_local_state (write n c r s l child) = l.
Proof. by destruct child as [[]|]. Qed.
Lemma write_parent n c r s l child : ncpu_parent (write n c r s l child) = ncpu_parent n.
Proof. by destruct child as [[]|]. Qed.
Lemma write_cpus n c r s l child : cpu_range (write n c r s l child) = cpu_range n.
Proof. by destruct child as [[]|]. Qed.
Lemma write_children n c r s l child : non_cpu_range (write n c r s l child) = non_cpu_range n.
Proof. by destruct child as [[]|]. Qed.
Lemma write_len n c r s l child : node_len n → node_len (write n c r s l child).
Proof.
  intros. by apply node_len_upd_copy, node_len_set_local, node_len_upd_susp, node_len_upd_req.
Qed.

Lemma write_req_eq n c r s l child :
  node_len n → in_cpus n c → req (write n c r s l child) c = Some r.
Proof. intros. transitivity (req (upd_req n c r) c); [by destruct child as [[]|]|]. by apply req_upd_req_eq. Qed.
Lemma write_req_ne n c c' r s l child :
  in_cpus n c → in_cpus n c' → c' ≠ c → req (write n c r s l child) c' = req n c'.
Proof. intros. transitivity (req (upd_req n c r) c'); [by destruct child as [[]|]|]. by apply req_upd_req_ne. Qed.
Lemma write_susp_eq n c r s l child :
  node_len n → in_cpus n c → susp (write n c r s l child) c = Some s.
Proof. intros. transitivity (susp (upd_susp n c s) c); [by destruct child as [[]|]|]. by apply susp_upd_susp_eq. Qed.
Lemma write_susp_ne n c c' r s l child :
  in_cpus n c → in_cpus n c' → c' ≠ c → susp (write n c r s l child) c' = susp n c'.
Proof. intros. transitivity (susp (upd_susp n c s) c'); [by destruct child as [[]|]|]. by apply susp_upd_susp_ne. Qed.
Lemma write_copy_eq n c r s l i x :
  node_len n → in_children n i → copy (write n c r s l (Some (i, x))) i = Some x.
Proof. intros. by apply (copy_upd_copy_eq n). Qed.
Lemma write_copy_ne n c r s l child i :
  in_children n i → (∀ j x, child = Some (j, x) → in_children n j ∧ j ≠ i) →
  copy (write n c r s l child) i = copy n i.
Proof.
  intros Hi Hj. destruct child as [[j x]|]; [|done]. destruct (Hj j x eq_refl).
  by apply (copy_upd_copy_ne n).
Qed.

Lemma upd_req_id n c s : req n c = Some s → upd_req n c s = n.
Proof. intros. destruct n. unfold upd_req, req in *. simpl in *. by rewrite list_insert_id. Qed.
Lemma upd_susp_id n c s : susp n c = Some s → upd_susp n c s = n.
Proof. intros. destruct n. unfold upd_susp, susp in *. simpl in *. by rewrite list_insert_id. Qed.

(** A vote never goes below the request. *)
Lemma vote_of_ge x r s : x ⊑ r → x ⊑ vote_of r s.
Proof.
  intros Hx. unfold vote_of. case_decide as Hr; [done|]. subst r.
  apply power_le_RUN in Hx as ->. apply RUN_least.
Qed.

Section WriteUpd.
Context n (c : nat) (ck : option nat) (r : S) (s : option S) (l : S) (child : option (nat * S)).
Context (Hn : node_ok n) (Hc : in_cpus n c).
Context (Hck : fst <$> child = ck ∨ child = None).
Context (Hchild : ∀ i, ck = Some i → in_children n i).

(** When a write is an update. *)
Lemma write_upd :
  (r ≠ RUN → s = None) →
  l ⊑ vote_of r s →
  (∀ c' r' s', in_cpus n c' → c' ≠ c → req n c' = Some r' → susp n c' = Some s' →
     l ⊑ vote_of r' s') →
  (∀ x, x ⊑ r → (∀ c' r', in_cpus n c' → c' ≠ c → req n c' = Some r' → x ⊑ r') → x ⊑ l) →
  (∀ i m, node_ok m → edge_ok i m n → ¬ in_cpus m c → Some i ≠ ck → l ⊑ ncpu_local_state m) →
  node_upd c ck n (write n c r s l child).
Proof.
  intros Hex Hself Hothers Hglb Hside. pose proof (ok_len _ Hn) as Hlen.
  assert (∀ j x, child = Some (j, x) → ck = Some j) as Hj by naive_solver.
  split.
  - apply write_parent.
  - apply write_cpus.
  - apply write_children.
  - split.
    + by apply write_len.
    + intros c' r' s'. unfold in_cpus. rewrite write_cpus. fold (in_cpus n c').
      intros Hc'. destruct (decide (c' = c)) as [->|].
      * rewrite write_req_eq, write_susp_eq by done. naive_solver.
      * rewrite write_req_ne, write_susp_ne by done. by apply (ok_excl _ Hn).
    + intros c' r' s'. unfold in_cpus. rewrite write_cpus, write_local. fold (in_cpus n c').
      intros Hc'. destruct (decide (c' = c)) as [->|].
      * rewrite write_req_eq, write_susp_eq by done. naive_solver.
      * rewrite write_req_ne, write_susp_ne by done. by apply Hothers.
    + intros x Hx. unfold in_cpus in Hx. rewrite write_cpus in Hx. rewrite write_local.
      apply Hglb; [by apply (Hx c); [|apply write_req_eq]|].
      intros c' r' Hc' Hne Hr'. apply (Hx c'); [done|]. by rewrite write_req_ne.
  - intros. by apply write_req_ne.
  - intros. by apply write_susp_ne.
  - intros i Hi Hne. apply write_copy_ne; [done|]. intros j x Hjx.
    apply Hj in Hjx. split; [by apply Hchild|]. congruence.
  - intros i m Hm He Hmc Hne. rewrite write_local. by apply (Hside i m).
Qed.
End WriteUpd.
End Write.
#[global] Arguments write : simpl never.

(** ** Locking *)
Section Lock.
Context {S : Type} `{PlatformPowerStateLaws S} `{PsciDims}.
Implicit Types n m : NonCpuPowerNode S.
Implicit Types nodes : list (NonCpuPowerNode S).
Implicit Types anc : AncestorPowerDomains S.

(** A well-formed chain of ancestors of [c] above [child]. *)
Inductive chain_ok (c : nat)
    : option (nat * NonCpuPowerNode S) → AncestorPowerDomains S → Prop :=
| ok_nil child : chain_ok c child []
| ok_cons child i n anc :
    node_ok n → in_cpus n c →
    (∀ ci cn, child = Some (ci, cn) → edge_ok ci cn n) →
    chain_ok c (Some (i, n)) anc →
    chain_ok c child ((i, n) :: anc).

Lemma lock_loop_Done nodes fuel level max_level o anc :
  path nodes o anc.*1 → locked nodes anc →
  length anc ≤ fuel → length anc + level ≤ MAX_POWER_LEVEL + 1 →
  lock_loop fuel level max_level o nodes = Done (take (max_level + 1 - level) anc).
Proof.
  revert level o anc. induction fuel as [|fuel IH]; intros level o anc Hp Hl Hf Hlev.
  - destruct anc; [|simpl in Hf; lia]. simpl in *. subst o. by destruct (_ - _).
  - destruct anc as [|[i n] anc]; csimpl in *; [subst o; by destruct (_ - _)|].
    destruct Hp as (-> & n' & Hn' & Hp). apply locked_cons in Hl as [Hn Hl].
    assert (n' = n) as -> by congruence. simpl in *. rewrite bool_decide_true by lia. simpl. case_decide.
    + by replace (max_level + 1 - level) with 0 by lia.
    + unfold arr_get. rewrite Hn. simpl. rewrite (IH _ _ anc) by (done || lia). simpl.
      by replace (max_level + 1 - level)
        with (Datatypes.S (max_level + 1 - Datatypes.S level)) by lia.
Qed.

Lemma path_locked nodes o l : path nodes o l → ∃ anc, anc.*1 = l ∧ locked nodes anc.
Proof.
  revert o. induction l as [|i l IH]; intros o; [by exists []; repeat constructor|].
  intros (-> & n & Hn & (anc & <- & Hl)%IH). exists ((i, n) :: anc).
  split; [done|]. by apply locked_cons.
Qed.

(** Locking the ancestors of a CPU takes the nodes of its path, the lowest
    level first, up to the given level. *)
Lemma lock_Done nodes c p l :
  cpu_path nodes c p l →
  ∃ full, full.*1 = l ∧ locked nodes full ∧ length full = MAX_POWER_LEVEL ∧
    ∀ max_level, new_with_max_level p max_level nodes = Done (take max_level full).
Proof.
  intros [Hp Hlen _ _]. destruct (path_locked _ _ _ Hp) as (full & <- & Hl).
  rewrite length_fmap in Hlen. exists full. repeat split; [done..|]. intros max_level.
  unfold new_with_max_level, CPU_POWER_LEVEL. rewrite (lock_loop_Done _ _ _ _ _ full) by (done || lia).
  by rewrite Nat.add_sub.
Qed.

Lemma path_chain_ok nodes c child o anc :
  nodes_ok nodes → path nodes o anc.*1 → locked nodes anc →
  (∀ i n, (i, n) ∈ anc → in_cpus n c) →
  (∀ ci cn, child = Some (ci, cn) → nodes !! ci = Some cn ∧ ncpu_parent cn = o) →
  chain_ok c child anc.
Proof.
  intros Hok. revert child o. induction anc as [|[i n] anc IH];
    intros child o Hp Hl Hin Hchild; [constructor|].
  csimpl in Hp. destruct Hp as (-> & n' & Hn' & Hp).
  apply locked_cons in Hl as [Hn Hl].
  assert (n' = n) as -> by congruence. constructor.
  - by eapply no_node.
  - apply (Hin i). left.
  - intros ci cn [Hcn Hpar]%Hchild.
    destruct (no_edge _ Hok _ _ _ Hcn Hpar) as (_ & q & Hq & He). by simplify_eq.
  - eapply IH; [done..| |].
    + intros j m Hj. apply (Hin j). by right.
    + by intros ci cn [= <- <-].
Qed.

(** The ancestors of a CPU of a well-formed tree form a well-formed chain. *)
Lemma full_chain_ok nodes c p full :
  nodes_ok nodes → cpu_path nodes c p full.*1 → locked nodes full → chain_ok c None full.
Proof.
  intros Hok Hp Hl. eapply path_chain_ok; [done|apply Hp|done| |done].
  intros i n Hin. apply (cp_range _ _ _ _ Hp i).
  - exact (proj1 (list.Forall_forall _ _) Hl _ Hin).
  - by apply (list_elem_of_fmap_2 fst) in Hin.
Qed.

Lemma chain_ok_take c child k anc : chain_ok c child anc → chain_ok c child (take k anc).
Proof.
  intros Hch. revert k. induction Hch; intros [|k]; simpl; by constructor.
Qed.

(** The locking order: the guards are taken in strictly decreasing order of
    their indices. *)
Lemma path_decreasing nodes o l :
  nodes_ok nodes → path nodes o l →
  ∀ a b i j, a < b → l !! a = Some i → l !! b = Some j → j < i.
Proof.
  intros Hok. revert o. induction l as [|k l IH]; intros o Hp a b i j Hab Ha Hb; [done|].
  destruct Hp as (-> & n & Hn & Hp). destruct b as [|b]; [lia|]. simpl in Hb.
  destruct a as [|a]; simplify_eq/=; [|eapply (IH _ Hp a b); eauto with lia].
  apply list_elem_of_lookup_2 in Hb. destruct (ncpu_parent n) as [q|] eqn:Hq.
  - apply (no_edge _ Hok _ _ _ Hn) in Hq as [Hlt _].
    pose proof (path_le _ _ _ Hok Hp _ Hb). lia.
  - destruct l; [by apply elem_of_nil in Hb|]. by destruct Hp.
Qed.
End Lock.

(** ** Marking a CPU as running *)
Section SetRunning.
Context {S : Type} `{PlatformPowerStateLaws S} `{PsciDims}.
Implicit Types n m : NonCpuPowerNode S.
Implicit Types anc : AncestorPowerDomains S.

(** The old and the new node below the one that is being updated. *)
Definition child_upd (c : nat) (old new : option (nat * NonCpuPowerNode S)) : Prop :=
  match old, new with
  | None, None => True
  | Some (i, n), Some (i', n') => i' = i ∧ ∃ ck, node_upd c ck n n'
  | _, _ => False
  end.

Lemma child_upd_fst c old new : child_upd c old new → fst <$> new = fst <$> old.
Proof. destruct old as [[]|], new as [[]|]; naive_solver. Qed.

Lemma write_run_upd c ck n :
  node_ok n → in_cpus n c → (∀ i, ck = Some i → in_children n i) →
  node_upd c ck n (write n c RUN None RUN ((λ i, (i, RUN)) <$> ck)).
Proof.
  intros Hn Hc Hck. apply write_upd; auto with rfa.
  left. by destruct ck.
Qed.

Lemma set_running_loop_upd c old new anc :
  chain_ok c old anc → child_upd c old new →
  (∀ i n, new = Some (i, n) → running_node c n) →
  ∃ anc', set_running_loop c (fst <$> old) anc = Done anc' ∧ chain_upd c new anc anc' ∧
    Forall (λ x, running_node c x.2) anc'.
Proof.
  intros Hch. revert new. induction Hch as [|old i n anc Hn Hc He Hch IH]; intros new Hnew Hrun.
  { exists []. repeat constructor. }
  pose proof (ok_len _ Hn) as Hlen. set (ck := fst <$> old).
  set (n' := write n c RUN None RUN ((λ i, (i, RUN)) <$> ck)).
  assert (∀ i, ck = Some i → in_children n i) as Hck.
  { intros j. unfold ck. destruct old as [[ci cn]|]; [|done]. intros [= ->].
    by eapply edge_child, He. }
  assert (node_upd c ck n n') as Hu by by apply write_run_upd.
  assert (running_node c n') as Hr.
  { split; [split|apply write_local]; [by apply write_req_eq|by apply write_susp_eq]. }
  destruct (IH (Some (i, n'))) as (anc' & Heq & Hchu & Hall); [by simpl; eauto|naive_solver|].
  exists ((i, n') :: anc'). split; [|split; [|by constructor]].
  - cbn [set_running_loop]. rewrite set_requested_Done by done. cbn.
    unfold clear_suspend_state. rewrite put_suspend_Done by auto using node_len_upd_req.
    cbn. change (fst <$> Some (i, n)) with (Some i) in Heq. subst ck n'.
    destruct old as [[ci cn]|]; cbn; [rewrite set_non_cpu_Done|].
    + cbn. by rewrite Heq.
    + by apply node_len_set_local, node_len_upd_susp, node_len_upd_req.
    + by apply Hck.
    + by rewrite Heq.
  - constructor; [by rewrite (child_upd_fst _ _ _ Hnew)| |done].
    intros ci' cn' ->. destruct old as [[ci cn]|]; [|done]. simpl in Hnew.
    destruct Hnew as [-> [ck' Hcu]]. destruct (Hrun _ _ eq_refl) as [[Hreq _] Hloc].
    eapply edge_ok_chain; [by apply He|done|done|..].
    + intros r r' _. destruct Hr as [[-> _] _]. intros [= <-] _. apply RUN_least.
    + intros s Hs. assert (copy n' ci = Some RUN) as Hs' by (apply write_copy_eq; auto).
      simplify_eq. apply RUN_least.
    + unfold n'. rewrite write_local. apply RUN_least.
Qed.

(** [set_running] is an update after which the CPU and all its ancestors run. *)
Lemma set_running_upd c anc :
  chain_ok c None anc →
  ∃ anc', set_running anc c = Done anc' ∧ chain_upd c None anc anc' ∧
    Forall (λ x, running_node c x.2) anc'.
Proof. intros Hch. by apply (set_running_loop_upd c None None). Qed.
End SetRunning.

(** ** Platform-coordinated requests *)
Section Coordinate.
Context {S : Type} `{PlatformPowerStateLaws S} `{PsciDims}.
Implicit Types n m : NonCpuPowerNode S.
Implicit Types anc : AncestorPowerDomains S.

(** The local state of a node is the shallowest request of its CPUs. *)
Definition minimal n : Prop := power_min_list (requested_states n) = Some (ncpu_local_state n).

Lemma elem_req n x :
  node_len n → x ∈ requested_states n ↔ ∃ c, in_cpus n c ∧ req n c = Some x.
Proof.
  intros [Hlen _ _]. unfold req, in_cpus. rewrite list_elem_of_lookup. split.
  - intros [k Hk]. exists ((cpu_range n).1 + k). pose proof (lookup_lt_Some _ _ _ Hk).
    split; [lia|]. by rewrite Nat.add_comm, Nat.add_sub.
  - intros (c & _ & Hc). eauto.
Qed.

Lemma power_min_req n l :
  node_len n → power_min_list (requested_states n) = Some l →
  (∃ c, in_cpus n c ∧ req n c = Some l) ∧ ∀ c r, in_cpus n c → req n c = Some r → l ⊑ r.
Proof.
  intros Hlen [Hin Hle]%power_min_list_Some. rewrite elem_req in Hin by done.
  split; [done|]. intros c r Hc Hr. apply Hle. rewrite elem_req by done. eauto.
Qed.

Lemma req_min n c : node_len n → in_cpus n c → is_Some (power_min_list (requested_states n)).
Proof.
  intros Hlen Hc. destruct (req_is_Some n c Hlen Hc) as [x Hx].
  assert (x ∈ requested_states n) as Hin by (apply elem_req; eauto).
  destruct (requested_states n); [by apply elem_of_nil in Hin|done].
Qed.

Lemma req_min_RUN n c :
  node_len n → in_cpus n c → req n c = Some RUN → power_min_list (requested_states n) = Some RUN.
Proof.
  intros Hlen Hc Hr. apply power_min_list_Some. split; [apply elem_req; eauto|].
  intros. apply RUN_least.
Qed.

Lemma set_local_id n l : ncpu_local_state n = l → ncpu_set_local_state n l = n.
Proof. intros <-. by destruct n. Qed.

(** Writing a request and the shallowest of all the requests is an update. *)
Lemma write_min_upd n c ck st l child :
  node_ok n → in_cpus n c → fst <$> child = ck → (∀ i, ck = Some i → in_children n i) →
  power_min_list (requested_states (upd_req n c st)) = Some l →
  node_upd c ck n (write n c st None l child).
Proof.
  intros Hn Hc Hck Hchild Hmin. pose proof (ok_len _ Hn) as Hlen.
  apply power_min_req in Hmin as [(c1 & Hc1 & Hr1) Hle]; [|by apply node_len_upd_req].
  assert (l ⊑ st) as Hst by (apply (Hle c); [done|by apply req_upd_req_eq]).
  assert (∀ c' r', in_cpus n c' → c' ≠ c → req n c' = Some r' → l ⊑ r') as Hoth.
  { intros c' r' Hc' Hne Hr'. apply (Hle c'); [done|]. by rewrite req_upd_req_ne. }
  apply write_upd; auto using vote_of_ge.
  - intros c' r' s' Hc' Hne Hr' _. by apply vote_of_ge, (Hoth c').
  - intros x Hx Hx'. destruct (decide (c1 = c)) as [->|].
    + rewrite req_upd_req_eq in Hr1 by done. by simplify_eq.
    + rewrite req_upd_req_ne in Hr1 by done. by apply (Hx' c1).
  - intros i m Hm He Hmc _. apply (ok_glb _ Hm). intros c' r' Hc' Hr'.
    assert (c' ≠ c) by by intros ->. pose proof (edge_cpus _ _ _ He c' Hc') as Hc''.
    destruct (req_is_Some n c' Hlen Hc'') as [r Hr].
    eapply power_le_trans; [by apply (Hoth c')|]. by eapply edge_req.
Qed.

(** One level of the loop. *)
Lemma coordinate_node c hr n st child l :
  node_ok n → in_cpus n c → running_node c n →
  (∀ i s, child = Some (i, s) → in_children n i) →
  power_min_list (requested_states (upd_req n c st)) = Some l → (hr = true → l = RUN) →
  coordinate_step c hr child n st =
  Done (write n c st None l child, l, bool_decide (l = RUN)).
Proof.
  intros Hn Hc [[Hreq Hsusp] Hloc] Hchild Hmin Hhr. pose proof (ok_len _ Hn) as Hlen.
  unfold coordinate_step. rewrite set_requested_Done by done.
  assert (write n c st None l child =
          upd_copy_opt (ncpu_set_local_state (upd_req n c st) l) child) as ->.
  { unfold write. by rewrite upd_susp_id. }
  destruct hr; cbn.
  - rewrite Hhr by done. rewrite bool_decide_true by done.
    rewrite set_local_id by done. rewrite propagate_Done; [done| |done].
    by apply node_len_upd_req.
  - unfold set_minimal_allowed_state. cbn in Hmin |- *. rewrite Hmin. cbn.
    rewrite propagate_Done; [|by apply node_len_set_local, node_len_upd_req|done]. cbn.
    do 2 f_equal. apply bool_decide_ext, type_Run.
Qed.

Lemma antitone_head st sts s : antitone (st :: sts) → s ∈ sts → s ⊑ st.
Proof. intros [Ha _]%antitone_cons. auto. Qed.

(** Once a level runs, some CPU below asks every higher level to run. *)
Lemma coordinate_hr c i cn cn' ck n st r c1 l :
  node_len n → in_cpus n c → edge_ok i cn n → node_upd c ck cn cn' →
  req cn' c = Some r → st ⊑ r → in_cpus cn' c1 → req cn' c1 = Some RUN →
  power_min_list (requested_states (upd_req n c st)) = Some l → l = RUN.
Proof.
  intros Hnl Hc Hedge Hcu Hr Hst Hc1 Hr1 Hl.
  apply (in_cpus_upd _ _ _ _ _ Hcu) in Hc1. pose proof (edge_cpus _ _ _ Hedge _ Hc1) as Hc1'.
  assert (req (upd_req n c st) c1 = Some RUN) as HR.
  { destruct (decide (c1 = c)) as [->|].
    - rewrite req_upd_req_eq by done. simplify_eq. f_equal. by apply power_le_RUN.
    - rewrite req_upd_req_ne by done. destruct (req_is_Some n c1 Hnl Hc1') as [x Hx].
      rewrite Hx. f_equal. apply power_le_RUN. eapply (edge_req _ _ _ Hedge c1); eauto.
      by rewrite <-(nu_req _ _ _ _ Hcu). }
  apply req_min_RUN in HR; [by simplify_eq|by apply node_len_upd_req|done].
Qed.

(** The edge between two updated levels. *)
Lemma coordinate_edge c i cn cn' ck n st r l :
  node_ok n → in_cpus n c → edge_ok i cn n → node_upd c ck cn cn' →
  req cn' c = Some r → st ⊑ r →
  power_min_list (requested_states (upd_req n c st)) = Some l →
  edge_ok i cn' (write n c st None l (Some (i, ncpu_local_state cn'))).
Proof.
  intros Hn Hc Hedge Hcu Hr Hst Hl. pose proof (ok_len _ Hn) as Hnl.
  assert (node_upd c (Some i) n (write n c st None l (Some (i, ncpu_local_state cn')))) as Hu.
  { apply write_min_upd; auto. intros j [= <-]. apply Hedge. }
  eapply edge_ok_chain; [done..| | |].
  - intros x x' _. rewrite write_req_eq by done. intros. by simplify_eq.
  - intros s. rewrite write_copy_eq by (try apply Hedge; done). intros [= <-]. auto with rfa.
  - rewrite write_local. apply (ok_glb _ (nu_ok _ _ _ _ Hcu)). intros c1 r1 Hc1 Hr1.
    apply power_min_req in Hl as [_ Hle]; [|by apply node_len_upd_req].
    apply (in_cpus_upd _ _ _ _ _ Hcu) in Hc1. pose proof (edge_cpus _ _ _ Hedge _ Hc1) as Hc1'.
    destruct (decide (c1 = c)) as [->|].
    + simplify_eq. eapply power_le_trans; [|done]. apply (Hle c); [done|]. by apply req_upd_req_eq.
    + destruct (req_is_Some n c1 Hnl Hc1') as [x Hx]. apply (power_le_trans _ x).
      * apply (Hle c1); [done|]. by rewrite req_upd_req_ne.
      * eapply (edge_req _ _ _ Hedge c1); eauto. by rewrite <-(nu_req _ _ _ _ Hcu).
Qed.

(** The coordination without the shortcut for the levels above a running one:
    every ancestor records the request, takes the minimum of all requests and
    tells its parent. *)
Fixpoint reference_coordination (c : nat) (child : option (nat * S)) anc (sts : list S)
    : AncestorPowerDomains S :=
  match anc, sts with
  | (i, n) :: anc, st :: sts =>
      let l := default RUN (power_min_list (requested_states (upd_req n c st))) in
      (i, write n c st None l child) :: reference_coordination c (Some (i, l)) anc sts
  | _, _ => anc
  end.

Lemma coordinate_loop_upd c hr old new anc sts :
  chain_ok c old anc → child_upd c old new → Forall (λ x, running_node c x.2) anc →
  (hr = true → ∃ i n c', new = Some (i, n) ∧ in_cpus n c' ∧ req n c' = Some RUN) →
  (∀ i n, new = Some (i, n) → ∃ r, req n c = Some r ∧ ∀ s, s ∈ sts → s ⊑ r) →
  antitone sts → length anc ≤ length sts →
  ∃ anc', coordinate_loop c hr ((λ x, (x.1, ncpu_local_state x.2)) <$> new) anc sts =
      Done (anc', ((λ x, ncpu_local_state x.2) <$> anc') ++ drop (length anc) sts) ∧
    chain_upd c new anc anc' ∧ Forall (λ x, minimal x.2) anc' ∧
    (∀ k i n, anc' !! k = Some (i, n) → req n c = sts !! k) ∧
    anc' = reference_coordination c ((λ x, (x.1, ncpu_local_state x.2)) <$> new) anc sts.
Proof.
  intros Hch. revert hr new sts.
  induction Hch as [|old i n anc Hn Hc He Hch IH]; intros hr new sts Hnew Hrun Hhr Hreq Ha Hlen.
  { exists []. split; [by rewrite drop_0; destruct sts|]. split; [constructor|].
    split; [constructor|]. split; [by intros k|by destruct sts]. }
  destruct sts as [|st sts]; [simpl in Hlen; lia|].
  apply Forall_cons_iff in Hrun as [Hrn Hrun]. pose proof (ok_len _ Hn) as Hnl.
  set (child := (λ x, (x.1, ncpu_local_state x.2)) <$> new).
  destruct (req_min (upd_req n c st) c) as [l Hl]; [by apply node_len_upd_req|done|].
  set (n' := write n c st None l child).
  assert (∀ j s, child = Some (j, s) → in_children n j) as Hck.
  { intros j s Hj. destruct old as [[ci cn]|], new as [[ci' cn']|]; try done.
    destruct Hnew as [-> _]. simplify_eq/=. by eapply edge_child, He. }
  assert (node_upd c (fst <$> new) n n') as Hu.
  { apply write_min_upd; [done..|by destruct new as [[]|]| |done].
    intros j Hj. destruct new as [[ci cn']|]; [|done]. by apply (Hck j (ncpu_local_state cn')); simplify_eq/=. }
  apply antitone_cons in Ha as [Hhead Ha].
  destruct (IH (bool_decide (l = RUN)) (Some (i, n')) sts)
    as (anc' & Heq & Hchu & Hmins & Hreqs & Href); [by simpl; eauto|done|..|done| |].
  { intros ->%bool_decide_eq_true. apply power_min_req in Hl as [(c1 & Hc1 & Hr1) _];
      [|by apply node_len_upd_req]. exists i, n', c1. split; [done|].
    unfold n', in_cpus. rewrite write_cpus. split; [done|]. by destruct child as [[]|]. }
  { intros ? ? [= <- <-]. exists st. split; [by apply write_req_eq|done]. }
  { simpl in Hlen. lia. }
  exists ((i, n') :: anc'). split; [|split; [|split; [|split]]].
  - cbn [coordinate_loop]. rewrite (coordinate_node c hr n st child l); auto.
    + cbn. cbn in Heq. unfold n' in Heq at 1. rewrite write_local in Heq. rewrite Heq. cbn.
      unfold n' at 2. by rewrite write_local.
    + intros (ci & cn' & c1 & -> & Hc1 & Hr1)%Hhr. destruct old as [[ci' cn]|]; [|done].
      destruct Hnew as [-> [ck Hcu]]. destruct (Hreq _ _ eq_refl) as (r & Hr & Hsts).
      eapply (coordinate_hr c ci' cn cn'); eauto. apply Hsts. left.
  - constructor; [done| |done]. intros ci cn' ->. destruct old as [[ci' cn]|]; [|done].
    destruct Hnew as [-> [ck Hcu]]. destruct (Hreq _ _ eq_refl) as (r & Hr & Hsts).
    eapply coordinate_edge; eauto. apply Hsts. left.
  - constructor; [|done]. unfold minimal. simpl. unfold n'. rewrite write_local, <-Hl.
    by destruct child as [[]|].
  - intros [|k] j m Hm; [|by eapply Hreqs]. simplify_eq/=. by apply write_req_eq.
  - cbn [reference_coordination]. rewrite Hl. cbn [default]. cbn in Href. unfold n' in Href.
    rewrite write_local in Href. by rewrite Href.
Qed.

(** [coordinate_state]: no panic; the result is the composite state of the
    locked ancestors, each of which is in the shallowest state requested. *)
Lemma coordinate_state_upd self c anc :
  chain_ok c None anc → Forall (λ x, running_node c x.2) anc →
  antitone (states self) → length anc < length (states self) →
  ∃ anc', coordinate_state self c anc =
      Done (mkComposite (take 1 (states self) ++ ((λ x, ncpu_local_state x.2) <$> anc')
                         ++ drop (Datatypes.S (length anc)) (states self))
              (last_at_power_level self), anc') ∧
    chain_upd c None anc anc' ∧ Forall (λ x, minimal x.2) anc' ∧
    (∀ k i n, anc' !! k = Some (i, n) → req n c = states self !! Datatypes.S k) ∧
    anc' = reference_coordination c None anc (drop 1 (states self)).
Proof.
  intros Hch Hrun Ha Hlen. destruct (states self) as [|s0 sts] eqn:Hs; [simpl in Hlen; lia|].
  destruct (coordinate_loop_upd c false None None anc sts) as (anc' & Heq & Hu & Hm & Hr & Href);
    [done..|by apply antitone_cons in Ha as [_ ?]|simpl in Hlen; lia|].
  exists anc'. split; [|simpl; by rewrite drop_0]. unfold coordinate_state. rewrite Hs.
  change (drop (CPU_POWER_LEVEL + 1) (s0 :: sts)) with (drop 0 sts). rewrite drop_0.
  change (None : option (nat * S)) with
    ((λ x : nat * NonCpuPowerNode S, (x.1, ncpu_local_state x.2)) <$> None). by rewrite Heq.
Qed.

Lemma chain_upd_refl c child anc : chain_ok c child anc → chain_upd c child anc anc.
Proof. induction 1; constructor; auto using node_upd_refl. Qed.

(** The ancestors above the locked ones are running, so the edge to them
    survives. *)
Lemma chain_upd_extend c old new anc anc' rest :
  chain_upd c new anc anc' → chain_ok c old (anc ++ rest) → child_upd c old new →
  (∀ ci cn, old = Some (ci, cn) → ncpu_local_state cn = RUN) →
  Forall (λ x, running_node c x.2) (anc ++ rest) →
  chain_upd c new (anc ++ rest) (anc' ++ rest).
Proof.
  intros Hch. revert old.
  induction Hch as [new|new i n n' anc anc' Hu He Hch IH]; intros old Hok Hchild Hloc Hrun.
  - simpl in *. destruct rest as [|[i n] rest]; [constructor|].
    apply Forall_cons_iff in Hrun as [[[Hreq Hsusp] Hl] Hrun]. simpl in *.
    inversion Hok as [|? ? ? ? Hn Hc He Hok']; subst. constructor; [by apply node_upd_refl| |].
    + intros ci cn' ->. destruct old as [[ci' cn]|]; [|done]. destruct Hchild as [-> [ck Hcu]].
      eapply edge_ok_chain; [by apply He|done|by apply node_upd_refl|..].
      * intros r r' _. rewrite Hreq. intros [= <-] _. apply RUN_least.
      * intros s Hs. apply (edge_copy _ _ _ (He _ _ eq_refl)) in Hs.
        rewrite (Hloc _ _ eq_refl) in Hs. apply power_le_RUN in Hs as ->. apply RUN_least.
      * rewrite Hl. apply RUN_least.
    + by apply chain_upd_refl.
  - simpl in *. inversion Hok as [|? ? ? ? Hn Hc He' Hok']; subst.
    apply Forall_cons_iff in Hrun as [[? Hl] Hrun]. constructor; [done..|].
    eapply IH; [done|simpl; by eauto|by intros ? ? [= <- <-]|done].
Qed.
End Coordinate.

(** ** OS-initiated requests *)
Section Osi.
Context {S : Type} `{PlatformPowerStateLaws S} `{PsciDims}.
Implicit Types n : NonCpuPowerNode S.
Implicit Types anc : AncestorPowerDomains S.
Implicit Types self : PsciCompositePowerState S.

Lemma power_min_le x a b : x ⊑ power_min a b ↔ x ⊑ a ∧ x ⊑ b.
Proof.
  split; [|intros []; by apply power_min_glb].
  split; eapply power_le_trans; [done|apply power_min_l|done|apply power_min_r].
Qed.

Lemma foldl_power_min_glb x a l :
  x ⊑ foldl power_min a l ↔ x ⊑ a ∧ ∀ b, b ∈ l → x ⊑ b.
Proof.
  revert a. induction l as [|y l IH]; intros a; simpl.
  - split; [|naive_solver]. split; [done|]. by intros b ?%elem_of_nil.
  - rewrite IH, power_min_le. setoid_rewrite elem_of_cons. naive_solver.
Qed.

Lemma osi_fold_glb acc sts :
  (∀ r s, (r, s) ∈ sts → r ≠ RUN → s = None) →
  ∃ m, fold_outcome osi_fold acc sts = Done m ∧
    ∀ x, x ⊑ m ↔ x ⊑ acc ∧ ∀ r s, (r, s) ∈ sts → x ⊑ vote_of r s.
Proof.
  revert acc. induction sts as [|[r s] sts IH]; intros acc Hex; cbn [fold_outcome].
  - exists acc. split; [done|]. intros x. split; [|naive_solver].
    split; [done|]. by intros r s ?%elem_of_nil.
  - assert (osi_fold acc (r, s) = Done (power_min acc (vote_of r s))) as ->.
    { unfold osi_fold, vote_of. case_decide as Hr; [|done].
      rewrite (Hex r s) by (left || done). done. }
    destruct (IH (power_min acc (vote_of r s))) as (m & Hm & Hle).
    { intros r' s' Hin. apply Hex. by right. }
    exists m. split; [done|]. intros x. rewrite Hle, power_min_le.
    setoid_rewrite elem_of_cons. naive_solver.
Qed.

Lemma node_states_elem n c sts r s :
  node_len n → node_states n c = Done sts →
  (r, s) ∈ sts ↔ ∃ c', in_cpus n c' ∧ c' ≠ c ∧ req n c' = Some r ∧ susp n c' = Some s.
Proof.
  intros [Hlr Hls _]. unfold node_states. intros Hd. outcome_invs.
  rewrite list_elem_of_omap. setoid_rewrite list_elem_of_lookup.
  unfold enumerate, req, susp, in_cpus. split.
  - intros ([k p] & (j & Hj) & Hk). rewrite list_lookup_imap in Hj.
    apply fmap_Some in Hj as (p' & Hz & Heq). simplify_eq. case_decide; simplify_eq.
    apply lookup_zip_with_Some in Hz as (r' & s' & Heq & Hr & Hs). simplify_eq/=.
    pose proof (lookup_lt_Some _ _ _ Hr). exists ((cpu_range n).1 + j).
    replace ((cpu_range n).1 + j - (cpu_range n).1) with j by lia.
    repeat split; [lia..|done|done].
  - intros (c' & Hc' & Hne & Hr & Hs). exists (c' - (cpu_range n).1, (r, s)). split.
    + exists (c' - (cpu_range n).1). rewrite list_lookup_imap.
      assert (zip (requested_states n) (suspend_states n) !! (c' - (cpu_range n).1) = Some (r, s)) as ->
        by (apply lookup_zip_with_Some; eauto). done.
    + rewrite decide_True by lia. done.
Qed.

Lemma non_cpu_elem n k x :
  node_len n →
  x ∈ omap (λ '(state, i), if decide (i ≠ k) then Some state else None)
        (zip (non_cpu_states n)
           (seq (non_cpu_range n).1 ((non_cpu_range n).2 - (non_cpu_range n).1))) ↔
  ∃ i, in_children n i ∧ i ≠ k ∧ copy n i = Some x.
Proof.
  intros [_ _ Hl]. rewrite list_elem_of_omap. setoid_rewrite list_elem_of_lookup.
  unfold copy, in_children. split.
  - intros ([s i] & (j & Hj) & Hk). case_decide; simplify_eq.
    apply lookup_zip_with_Some in Hj as (s' & i' & Heq & Hs & Hi). simplify_eq/=.
    apply lookup_seq in Hi as [-> Hj]. exists ((non_cpu_range n).1 + j).
    replace ((non_cpu_range n).1 + j - (non_cpu_range n).1) with j by lia.
    repeat split; [lia..|done|done].
  - intros (i & Hi & Hne & Hx). exists (x, i). rewrite decide_True by done. split; [|done].
    exists (i - (non_cpu_range n).1). apply lookup_zip_with_Some. exists x, i.
    split; [done|]. split; [done|]. apply lookup_seq. lia.
Qed.

(** The deepest state the rest of the node allows: a state is at most that iff
    it is at most every vote of another CPU and, above the first level, at most
    the state of every other child. *)
Definition allowed n (c : nat) (ck : option nat) (x : S) : Prop :=
  (∀ c' r s, in_cpus n c' → c' ≠ c → req n c' = Some r → susp n c' = Some s → x ⊑ vote_of r s) ∧
  (∀ k i s, ck = Some k → in_children n i → i ≠ k → copy n i = Some s → x ⊑ s).

Lemma osi_minimal_glb n c ck :
  node_ok n → in_cpus n c →
  ∃ m, get_osi_minimal_allowed_state_without_core n c ck = Done m ∧
    ∀ x, x ⊑ m ↔ allowed n c ck x.
Proof.
  intros Hn Hc. pose proof (ok_len _ Hn) as Hlen.
  unfold get_osi_minimal_allowed_state_without_core.
  assert (∃ sts, node_states n c = Done sts) as [sts Hsts].
  { unfold node_states, checked_sub. unfold in_cpus in Hc. rewrite decide_True by lia. eauto. }
  rewrite Hsts. cbn. destruct (osi_fold_glb OFF sts) as (m & -> & Hm).
  { intros r s Hin Hr. eapply node_states_elem in Hin as (c' & Hc' & _ & ? & ?); [|done..].
    by eapply ok_excl. }
  cbn. assert (∀ x, x ⊑ m ↔ ∀ c' r s, in_cpus n c' → c' ≠ c → req n c' = Some r →
    susp n c' = Some s → x ⊑ vote_of r s) as Hm'.
  { intros x. rewrite Hm. split.
    - intros [_ Hx] c' r s ? ? ? ?. apply Hx. eapply node_states_elem; eauto.
    - intros Hx. split; [apply OFF_greatest|]. intros r s Hin.
      eapply node_states_elem in Hin as (c' & ? & ? & ? & ?); eauto. }
  unfold allowed. destruct ck as [k|].
  - pose proof (λ x, non_cpu_elem n k x Hlen) as Hel.
    destruct (non_cpu_range n) as [b e] eqn:Hr. eexists. split; [done|]. intros x.
    rewrite foldl_power_min_glb, Hm'. setoid_rewrite Hel. naive_solver.
  - exists m. split; [done|]. intros x. rewrite Hm'. naive_solver.
Qed.

(** Every level of the request is allowed by the rest of the system. *)
Fixpoint levels_allowed (c : nat) (ck : option nat) anc (sts : list S) : Prop :=
  match anc, sts with
  | (i, n) :: anc, s :: sts => allowed n c ck s ∧ levels_allowed c (Some i) anc sts
  | _, _ => True
  end.

Lemma validate_loop_spec c child anc sts :
  chain_ok c child anc →
  ∃ r, validate_loop c (fst <$> child) anc sts = Done r ∧
    (r = Ok tt ↔ levels_allowed c (fst <$> child) anc sts).
Proof.
  intros Hch. revert sts.
  induction Hch as [|child i n anc Hn Hc He Hch IH]; intros sts; [by exists (Ok tt)|].
  destruct sts as [|s sts]; [by exists (Ok tt)|]. cbn [validate_loop levels_allowed].
  destruct (osi_minimal_glb n c (fst <$> child)) as (m & -> & Hm); [done..|]. cbn.
  destruct (power_leb s m) eqn:Hs; simpl.
  - destruct (IH sts) as (r & Heq & Hr). exists r. split; [done|]. rewrite Hr, <-Hm. naive_solver.
  - assert (¬ allowed n c (fst <$> child) s) as Hna.
    { rewrite <-Hm. unfold power_le. congruence. }
    case_decide; eexists; (split; [done|]); naive_solver.
Qed.

Lemma chain_ok_elem c child anc i n : chain_ok c child anc → (i, n) ∈ anc → node_ok n ∧ in_cpus n c.
Proof.
  induction 1; [by intros ?%elem_of_nil|]. intros [[= -> ->]|?]%elem_of_cons; auto.
Qed.

(** A CPU is the last one to idle at a level iff the others allow some
    low-power state there. *)
Lemma is_last_cpu_to_idle_spec c child anc level :
  chain_ok c child anc → level ≤ length anc →
  ∃ b, is_last_cpu_to_idle_at_power_level anc c level = Done b.
Proof.
  intros Hch Hl. unfold is_last_cpu_to_idle_at_power_level, CPU_POWER_LEVEL. case_decide; [eauto|].
  assert (∀ k, k < length anc → ∃ i n, anc !! k = Some (i, n) ∧ node_ok n ∧ in_cpus n c) as Hk.
  { intros k Hk. apply lookup_lt_is_Some in Hk as [[i n] Hin]. exists i, n.
    split; [done|]. by eapply chain_ok_elem, list_elem_of_lookup_2. }
  destruct (Hk (level - 1)) as (i & n & Hn & Hok & Hc); [lia|].
  assert (∀ ck, ∃ b, is_last_cpu_to_idle n c ck = Done b) as Hb.
  { intros ck. unfold is_last_cpu_to_idle. destruct (osi_minimal_glb n c ck) as (m & -> & _); [done..|].
    cbn. eauto. }
  apply arr_get_Done in Hn. case_decide.
  - destruct (Hk (level - 2)) as (i' & n' & Hn'%arr_get_Done & _); [lia|].
    rewrite Hn'. cbn. rewrite Hn. apply Hb.
  - cbn. rewrite Hn. apply Hb.
Qed.

(** The level is looked up in the locked ancestors without a bounds check. *)
Lemma is_last_out_of_range anc c level :
  length anc < level → is_last_cpu_to_idle_at_power_level anc c level = Panic.
Proof.
  intros Hlt. unfold is_last_cpu_to_idle_at_power_level, CPU_POWER_LEVEL.
  rewrite decide_False by lia.
  assert (arr_get anc (level - 1) = Panic) as Hp.
  { unfold arr_get. rewrite lookup_ge_None_2 by lia. done. }
  case_decide; [|by rewrite Hp]. destruct (arr_get anc (level - 2)) as [p|]; [|done]. cbn.
  by rewrite Hp.
Qed.

Lemma slice_ok {A} (l : list A) a b :
  a ≤ b → b ≤ length l → slice l a b = Done (take (b - a) (drop a l)).
Proof. intros. unfold slice. by rewrite decide_True. Qed.

(** [validate_state_coordination] returns, and succeeds only if every affected
    level is allowed. *)
Lemma validate_spec self c h anc :
  chain_ok c None anc → h < length (states self) →
  (∀ last, last_at_power_level self = Some last → last ≤ length anc) →
  ∃ r, validate_state_coordination self c h anc = Done r ∧
    (r = Ok tt → levels_allowed c None (take h anc) (take h (drop 1 (states self)))).
Proof.
  intros Hch Hh Hlast. unfold validate_state_coordination.
  destruct (last_at_power_level self) as [last|]; [|by eexists].
  destruct (is_last_cpu_to_idle_spec c None anc last) as [b ->]; [by auto..|]. cbn.
  destruct b; simpl; [|by eexists]. unfold CPU_POWER_LEVEL. case_decide; [subst h; by eexists|].
  rewrite slice_ok by lia. cbn [mbind outcome_bind].
  destruct (validate_loop_spec c None (take h anc) (take (h + 1 - 1) (drop 1 (states self))))
    as (r & Heq & Hr); [by apply chain_ok_take|].
  simpl in Heq, Hr. exists r. split; [done|]. replace h with (h + 1 - 1) at 2 by lia. apply Hr.
Qed.

(** What [apply_coordinated_state_to_power_domain_tree] leaves in the
    ancestors; [h] counts the affected levels that remain, [rs] are the votes. *)
Fixpoint osi_anc (c : nat) (child : option (nat * S)) (h : nat) anc (rs : list S)
    : AncestorPowerDomains S :=
  match anc, rs with
  | (i, n) :: anc, r :: rs =>
      (i, write n c RUN (Some r) (if decide (0 < h) then r else ncpu_local_state n) child)
      :: osi_anc c (if decide (0 < h) then Some (i, r) else None) (h - 1) anc rs
  | _, _ => anc
  end.

Definition susp_anc (c : nat) anc (rs : list S) : AncestorPowerDomains S :=
  zip_with (λ x r, (x.1, upd_susp x.2 c (Some r))) anc rs.

Lemma set_suspend_states_Done c child anc rs :
  chain_ok c child anc → length anc ≤ length rs →
  set_suspend_states c anc rs = Done (susp_anc c anc rs).
Proof.
  intros Hch. revert rs. induction Hch as [|child i n anc Hn Hc He Hch IH]; intros [|r rs] Hlen;
    simpl in *; try lia; [done..|].
  unfold set_suspend_state. rewrite put_suspend_Done by (done || apply Hn). cbn.
  rewrite IH by lia. done.
Qed.

Lemma write_running n c s child :
  running_node c n →
  write n c RUN s RUN child = upd_copy_opt (upd_susp n c s) child.
Proof.
  intros [[Hreq _] Hl]. unfold write. rewrite upd_req_id by done. by rewrite set_local_id.
Qed.

Lemma osi_anc_susp c anc rs :
  Forall (λ x, running_node c x.2) anc → length anc ≤ length rs →
  osi_anc c None 0 anc rs = susp_anc c anc rs.
Proof.
  intros Hrun. revert rs. induction Hrun as [|[i n] anc Hn Hrun IH]; intros [|r rs] Hlen;
    simpl in *; try lia; [done..|].
  rewrite IH by lia. pose proof Hn as [_ Hl]. rewrite Hl. by rewrite write_running.
Qed.

(** The two loops of the operation compute [osi_anc]. *)
Lemma set_nodes_osi c old child h anc rs :
  chain_ok c old anc → Forall (λ x, running_node c x.2) anc → length anc ≤ length rs →
  (∀ j s, child = Some (j, s) → fst <$> old = Some j) →
  ∃ cs low, set_nodes_loop child (take h (susp_anc c anc rs)) (take h rs) = Done (cs, low) ∧
    match (low ++ drop h (susp_anc c anc rs)) !! h with
    | Some (i, last) =>
        last ← propagate last cs;
        mret (<[h := (i, last)]> (low ++ drop h (susp_anc c anc rs)))
    | None => mret (low ++ drop h (susp_anc c anc rs))
    end = Done (osi_anc c child h anc rs).
Proof.
  intros Hch Hrun Hlen Hchild. revert child h rs Hrun Hlen Hchild.
  induction Hch as [old|old i n anc Hn Hc He Hch IH]; intros child h rs Hrun Hlen Hchild.
  { exists child, []. unfold susp_anc. simpl. rewrite take_nil, drop_nil. done. }
  destruct rs as [|r rs]; [simpl in Hlen; lia|]. simpl in Hlen.
  apply Forall_cons_iff in Hrun as [Hrn Hrun]. pose proof (ok_len _ Hn) as Hnl. simpl in Hrn.
  assert (∀ j s, child = Some (j, s) → in_children n j) as Hck.
  { intros j s Hj%Hchild. destruct old as [[cj cn]|]; [|done]. simplify_eq/=.
    by eapply edge_child, He. }
  pose proof Hrn as [[Hreq _] Hl]. destruct h as [|h].
  - exists child, []. split; [done|]. cbn. rewrite propagate_Done;
      [|by apply node_len_upd_susp|done]. cbn.
    rewrite Hl, write_running by done. by rewrite osi_anc_susp by (done || lia).
  - destruct (IH (Some (i, r)) h rs) as (cs & low & Heq & Hfin); [done|lia|naive_solver|].
    cbn. rewrite propagate_Done; [|by apply node_len_set_local, node_len_upd_susp|done]. cbn.
    fold (susp_anc c anc rs). rewrite Heq. cbn. do 2 eexists. split; [done|].
    unfold write. rewrite upd_req_id by done. rewrite Nat.sub_0_r.
    set (L := low ++ drop h (susp_anc c anc rs)) in *. simpl. fold (susp_anc c anc rs). fold L.
    clearbody L. destruct (L !! h) as [[j last]|]; outcome_invs; [|done].
    rewrite E. cbn. by rewrite Hfin.
Qed.

Definition osi_child (new : option (nat * NonCpuPowerNode S)) : option (nat * S) :=
  (λ x, (x.1, ncpu_local_state x.2)) <$> new.

(** The write of one level of an allowed request is an update. *)
Lemma osi_write_upd c ck h n r child :
  node_ok n → in_cpus n c → running_node c n →
  fst <$> child = ck ∨ child = None → (∀ i, ck = Some i → in_children n i) →
  (0 < h → allowed n c ck r) → (0 < h → ck = None → ∀ i, ¬ in_children n i) →
  node_upd c ck n
    (write n c RUN (Some r) (if decide (0 < h) then r else ncpu_local_state n) child).
Proof.
  intros Hn Hc [_ Hl] Hck Hchild Hall Hleaf.
  apply write_upd; [done..| | | |]; rewrite ?Hl; case_decide as Hh; auto with rfa.
  - unfold vote_of. rewrite decide_False by (by intros ?). simpl. auto with rfa.
  - by apply Hall.
  - intros x Hx%power_le_RUN _. subst x. apply RUN_least.
  - intros i m Hm He Hmc Hi. destruct ck as [k|].
    + destruct (copy_is_Some n i (ok_len _ Hn)) as [s Hs]; [apply He|].
      eapply power_le_trans; [|by eapply edge_copy].
      eapply (proj2 (Hall Hh)); [done|apply He|congruence|done].
    + by destruct (Hleaf Hh eq_refl i); apply He.
Qed.

Lemma osi_anc_upd c old new child h anc rs :
  chain_ok c old anc → child_upd c old new → Forall (λ x, running_node c x.2) anc →
  length anc ≤ length rs → antitone rs →
  child = osi_child new ∨ (child = None ∧ h = 0) →
  (∀ ci cn, old = Some (ci, cn) → ncpu_local_state cn = RUN) →
  (∀ ci cn r, new = Some (ci, cn) → 0 < h → r ∈ rs → r ⊑ ncpu_local_state cn) →
  (∀ i n j, old = None → anc !! 0 = Some (i, n) → ¬ in_children n j) →
  levels_allowed c (fst <$> old) (take h anc) (take h rs) →
  chain_upd c new anc (osi_anc c child h anc rs).
Proof.
  intros Hch. revert new child h rs. induction Hch as [old|old i n anc Hn Hc He Hch IH];
    intros new child h rs Hnew Hrun Hlen Ha Hchild Hold Hdeep Hleaf Hall; [constructor|].
  destruct rs as [|r rs]; [simpl in Hlen; lia|]. simpl in Hlen.
  apply Forall_cons_iff in Hrun as [Hrn Hrun]. simpl in Hrn. pose proof (ok_len _ Hn) as Hnl.
  pose proof (child_upd_fst _ _ _ Hnew) as Hfst. cbn [osi_anc].
  set (l := if decide (0 < h) then r else ncpu_local_state n).
  assert (l = if decide (0 < h) then r else RUN) as Hl.
  { unfold l. case_decide; [done|]. apply Hrn. }
  assert (∀ j, fst <$> new = Some j → in_children n j) as Hck.
  { intros j. rewrite Hfst. destruct old as [[ci cn]|]; [|done]. intros [= ->].
    by eapply edge_child, He. }
  assert (node_upd c (fst <$> new) n (write n c RUN (Some r) l child)) as Hu.
  { apply osi_write_upd; [done..| | | |].
    - destruct Hchild as [->|[-> _]]; [left|by right]. by destruct new as [[]|].
    - done.
    - intros Hh. rewrite Hfst. destruct h; [lia|]. by destruct Hall.
    - intros _ HN j. rewrite Hfst in HN. destruct old as [[]|]; [done|]. by apply (Hleaf i). }
  apply antitone_cons in Ha as [Hhead Ha]. constructor; [done| |].
  - intros ci cn' ->. destruct old as [[ci' cn]|]; [|done]. destruct Hnew as [-> [ck Hcu]].
    pose proof (He _ _ eq_refl) as Hedge.
    eapply edge_ok_chain; [done..| | |rewrite write_local].
    + intros x x' _. rewrite write_req_eq by done. intros [= <-] _. apply RUN_least.
    + intros s. destruct Hchild as [->|[-> _]]; simpl.
      * rewrite write_copy_eq by (done || apply Hedge). intros [= <-]. auto with rfa.
      * rewrite write_copy_ne by (done || apply Hedge). intros Hs%(edge_copy _ _ _ Hedge).
        rewrite (Hold _ _ eq_refl) in Hs. apply power_le_RUN in Hs as ->. apply RUN_least.
    + rewrite Hl. case_decide; [|apply RUN_least]. eapply Hdeep; [done..|left].
  - eapply IH; [by simpl; eauto|done|lia|done|..].
    + unfold osi_child. simpl. rewrite write_local. unfold l. case_decide; [by left|right].
      split; [done|lia].
    + intros ? ? [= <- <-]. apply Hrn.
    + intros ? ? r' [= <- <-] Hh Hr'. rewrite write_local, Hl.
      rewrite decide_True by lia. auto.
    + done.
    + destruct h; [by destruct anc|]. simpl in Hall |- *. rewrite Nat.sub_0_r. by destruct Hall.
Qed.

(** The votes of a request: its states up to the highest affected level, and
    the state of that level above it. *)
Lemma resolved_lookup (sts : list S) h s k :
  sts !! h = Some s →
  (take h sts ++ replicate (length sts - h) s) !! k =
  if decide (k < length sts) then sts !! Nat.min k h else None.
Proof.
  intros Hs. pose proof (lookup_lt_Some _ _ _ Hs) as Hh.
  destruct (decide (k < h)) as [Hk|Hk].
  - rewrite lookup_app_l by (rewrite length_take; lia). rewrite lookup_take_lt by done.
    rewrite decide_True by lia. by rewrite Nat.min_l by lia.
  - rewrite lookup_app_r by (rewrite length_take; lia). rewrite length_take, Nat.min_l by lia.
    case_decide.
    + rewrite lookup_replicate_2 by lia. by rewrite Nat.min_r by lia.
    + apply lookup_ge_None. rewrite length_replicate. lia.
Qed.

Lemma resolved_antitone (sts : list S) h s :
  antitone sts → sts !! h = Some s → antitone (take h sts ++ replicate (length sts - h) s).
Proof.
  intros Ha Hs i j x y Hij. rewrite !(resolved_lookup _ _ _ _ Hs). do 2 case_decide; try done.
  apply Ha. lia.
Qed.

Lemma antitone_drop k (sts : list S) : antitone sts → antitone (drop k sts).
Proof. intros Ha i j x y Hij. rewrite !lookup_drop. apply Ha. lia. Qed.

Lemma resolved_take (sts : list S) h s :
  sts !! h = Some s →
  take h (drop 1 (take h sts ++ replicate (length sts - h) s)) = take h (drop 1 sts).
Proof.
  intros Hs. apply list_eq. intros k. destruct (decide (k < h)).
  - rewrite !lookup_take_lt, !lookup_drop, (resolved_lookup _ _ _ _ Hs) by done.
    rewrite decide_True by (apply lookup_lt_Some in Hs; lia). by rewrite Nat.min_l by lia.
  - rewrite !lookup_take_ge by lia. done.
Qed.

Lemma resolved_Done self h :
  h < length (states self) →
  ∃ s, states self !! h = Some s ∧
    create_highest_affected_level_resolved_state self h =
    Done (mkComposite (take h (states self) ++ replicate (length (states self) - h) s)
            (last_at_power_level self)).
Proof.
  intros [s Hs]%lookup_lt_is_Some. exists s. split; [done|].
  unfold create_highest_affected_level_resolved_state, arr_get. by rewrite Hs.
Qed.

Lemma set_nodes_loop_length child anc sts cs low :
  set_nodes_loop child anc sts = Done (cs, low) → length low = length anc.
Proof.
  revert child sts low. induction anc as [|[i n] anc IH]; intros child [|st sts] low Hd;
    simpl in Hd; [by outcome_invs..|].
  outcome_step. outcome_step. destruct a0 as [cs' low']. outcome_invs. f_equal. by eapply IH.
Qed.

Lemma susp_anc_length c anc rs : length anc ≤ length rs → length (susp_anc c anc rs) = length anc.
Proof. intros. unfold susp_anc. rewrite length_zip_with. lia. Qed.

Context {EP : Type}.
Implicit Types cpu : CpuPowerNode S EP.

(** Applying an allowed request. *)
Lemma apply_osi_upd self h cpu anc c rs :
  chain_ok c None anc → Forall (λ x, running_node c x.2) anc → length anc ≤ MAX_POWER_LEVEL →
  length (states self) = STATE_COUNT → h ≤ MAX_POWER_LEVEL → antitone (states self) →
  (∀ i n j, anc !! 0 = Some (i, n) → ¬ in_children n j) →
  create_highest_affected_level_resolved_state self h = Done rs →
  levels_allowed c None (take h anc) (take h (drop 1 (states rs))) →
  ∃ s0 anc', states self !! 0 = Some s0 ∧
    apply_coordinated_state_to_power_domain_tree self h cpu anc c rs =
      Done (cpu_set_local_state cpu s0, anc') ∧
    anc' = osi_anc c None h anc (drop 1 (states rs)) ∧
    chain_upd c None anc anc'.
Proof.
  intros Hch Hrun Hlen Hst Hh Ha Hleaf Hrs Hall. unfold STATE_COUNT in Hst.
  destruct (resolved_Done self h) as (s & Hs & Hrs'); [lia|].
  rewrite Hrs in Hrs'. injection Hrs' as ->. cbn [states last_at_power_level] in *.
  set (votes := drop 1 (take h (states self) ++ replicate (length (states self) - h) s)) in *.
  assert (length votes = MAX_POWER_LEVEL) as Hvl.
  { unfold votes. rewrite length_drop, length_app, length_take, length_replicate. lia. }
  assert (antitone votes) as Hva by by apply antitone_drop, resolved_antitone.
  destruct (lookup_lt_is_Some_2 (states self) 0) as [s0 Hs0]; [lia|].
  exists s0, (osi_anc c None h anc votes). split; [done|]. split; [|split; [done|]].
  - unfold apply_coordinated_state_to_power_domain_tree, CPU_POWER_LEVEL.
    change (0 + 1) with 1. cbn [states]. fold votes.
    rewrite (set_suspend_states_Done c None) by (done || lia). cbn.
    unfold set_nodes_from_local_states, cpu_level_state, CPU_POWER_LEVEL, arr_get. rewrite Hs0. cbn.
    case_decide; [|replace h with 0 by lia; by rewrite osi_anc_susp by (done || lia)].
    rewrite slice_ok by lia. cbn. rewrite Nat.add_sub.
    replace (take h (drop 1 (states self))) with (take h votes) by (by apply resolved_take).
    destruct (set_nodes_osi c None None h anc votes) as (cs & low & Hlow & Hfin); [done|done|lia|done|].
    rewrite Hlow.
    cbn. apply set_nodes_loop_length in Hlow as Hll.
    set (L := low ++ drop h (susp_anc c anc votes)) in *.
    assert (length L ≤ MAX_POWER_LEVEL) as HL.
    { unfold L. rewrite length_app, Hll, length_take, length_drop, susp_anc_length by lia. lia. }
    clearbody L. case_decide.
    + destruct (L !! h) as [[i last]|]; [|by injection Hfin as ->].
      apply outcome_bind_Done in Hfin as (x & -> & Hfin). cbn. by injection Hfin as ->.
    + rewrite lookup_ge_None_2 in Hfin by lia. by injection Hfin as ->.
  - apply (osi_anc_upd c None None); [done|done|done|lia|done|by left|done|done| |done].
    intros i n j _. apply Hleaf.
Qed.
End Osi.
