(* ===== verification/Psci.v ===== *)
(** * The PSCI service

    [Psci] of [src/services/psci.rs]: the handlers of the PSCI calls, over the
    power domain tree, the suspend mode and the state of the platform.

    The platform ([PsciPlatformInterface]), the SPM ([PsciSpmInterface]), the
    CPU operations and [arm_psci] are parameters.  A handler runs on the core
    [me].  The other cores may change the shared state where the core waits
    without holding a lock ([wfi], [cpu_standby]), and where [cpu_suspend_start]
    waits for the locks of the ancestors after it has read the suspend mode;
    what runs with the ancestors locked is one atomic step. *)

From Stdlib Require Import ZArith.
From stdpp Require Import base list numbers option.
From S2P Require Import Prelude PowerState Smccc PowerTree Composite.
Open Scope nat_scope.

(** The types of [arm_psci] the service only passes on. *)
Class ArmPsciTypes := {
  EntryPoint : Type;
  Mpidr : Type;
  Cookie : Type;
  SystemOff2Type : Type;
  ResetType : Type;
  MemProtectRange : Type;
  HwState : Type;
}.

(** [arm_psci::PowerState]. *)
Inductive PowerState : Type :=
| PsStandbyOrRetention (id : Z)
| PsPowerDown (id : Z).

Inductive SuspendMode : Type := PlatformCoordinated | OsInitiated.
Global Instance SuspendMode_eq_dec : EqDecision SuspendMode.
Proof. solve_decision. Defined.

(** [arm_psci::FunctionId]. *)
Inductive FunctionId : Type :=
| FidPsciVersion
| FidCpuSuspend32 | FidCpuSuspend64
| FidCpuOff
| FidCpuOn32 | FidCpuOn64
| FidAffinityInfo32 | FidAffinityInfo64
| FidMigrate32 | FidMigrate64
| FidMigrateInfoType
| FidMigrateInfoUpCpu32 | FidMigrateInfoUpCpu64
| FidSystemOff
| FidSystemOff232 | FidSystemOff264
| FidSystemReset
| FidSystemReset232 | FidSystemReset264
| FidMemProtect
| FidMemProtectCheckRange32 | FidMemProtectCheckRange64
| FidPsciFeatures
| FidCpuFreeze
| FidCpuDefaultSuspend32 | FidCpuDefaultSuspend64
| FidNodeHwState32 | FidNodeHwState64
| FidSystemSuspend32 | FidSystemSuspend64
| FidPsciSetSuspendMode
| FidPsciStatResidency32 | FidPsciStatResidency64
| FidPsciStatCount32 | FidPsciStatCount64.

Inductive PsciFeature : Type :=
| PsciFunction (function_id : FunctionId)
| FeatureSmcccVersion.

(** [arm_psci::Function]. *)
Inductive Function `{ArmPsciTypes} : Type :=
| FVersion
| FCpuSuspend (state : PowerState) (entry : EntryPoint)
| FCpuOff
| FCpuOn (target_cpu : Mpidr) (entry : EntryPoint)
| FAffinityInfo (mpidr : Mpidr) (lowest_affinity_level : nat)
| FMigrate (target : Mpidr)
| FMigrateInfoType
| FMigrateInfoUpCpu
| FSystemOff
| FSystemOff2 (off_type : SystemOff2Type) (cookie : Cookie)
| FSystemReset
| FSystemReset2 (reset_type : ResetType) (cookie : Cookie)
| FMemProtect (enabled : bool)
| FMemProtectCheckRange (range : MemProtectRange)
| FFeatures (psci_func_id : PsciFeature)
| FCpuFreeze
| FCpuDefaultSuspend (entry : EntryPoint)
| FNodeHwState (target_cpu : Mpidr) (power_level : nat)
| FSystemSuspend (entry : EntryPoint)
| FSetSuspendMode (mode : SuspendMode)
| FStatResidency
| FStatCount.

(** The conversions of [arm_psci]. *)
Class ArmPsciOps `{ArmPsciTypes} := {
  function_try_from : list Z → result Function ErrorCode;
  error_code_into_u64 : ErrorCode → Z;
  version_into_u32 : Z → Z → Z;
  affinity_info_into_u32 : AffinityInfo → Z;
  migration_not_required : Z;
  hw_state_into_u32 : HwState → Z;
  flag_extended_power_state : Z;
  flag_os_initiated_mode : Z;
  flag_hibernate_off : Z;
}.

(** [PsciPlatformOptionalFeatures]. *)
Definition SYSTEM_OFF2 : Z := Z.shiftl 1 0.
Definition SYSTEM_RESET2 : Z := Z.shiftl 1 1.
Definition MEM_PROTECT : Z := Z.shiftl 1 2.
Definition MEM_PROTECT_CHECK_RANGE : Z := Z.shiftl 1 3.
Definition CPU_FREEZE : Z := Z.shiftl 1 4.
Definition CPU_DEFAULT_SUSPEND : Z := Z.shiftl 1 5.
Definition NODE_HW_STATE : Z := Z.shiftl 1 6.
Definition SYSTEM_SUSPEND : Z := Z.shiftl 1 7.
Definition OS_INITIATED_MODE : Z := Z.shiftl 1 8.

(** [PsciSpmInterface], on the state [V] the SPM works on. *)
Record PsciSpmInterface `{ArmPsciTypes} (V : Type) := mkPsciSpmInterface {
  forward_psci_request : Function → M V (result unit ErrorCode);
  notify_cpu_off : M V unit;
  notify_cpu_suspend_powerdown_abandoned : M V unit;
}.
Arguments mkPsciSpmInterface {_ V}.
Arguments forward_psci_request {_ V}.
Arguments notify_cpu_off {_ V}.
Arguments notify_cpu_suspend_powerdown_abandoned {_ V}.

(** [PsciPlatformInterface], the parts of [Platform] and [PlatformCpuOps] the
    service calls, and the SPM.  [W] is the state of the platform and the CPU. *)
Record PsciPlatform `{ArmPsciTypes} (S W V : Type) := {
  FEATURES : Z;
  topology : list nat;
  try_parse_power_state : PowerState → option (PsciCompositePowerState S);
  cpu_standby : S → M W unit;
  power_domain_suspend : PsciCompositePowerState S → M W unit;
  power_domain_suspend_finish : PsciCompositePowerState S → M W unit;
  power_domain_validate_suspend : PsciCompositePowerState S → M W (result unit ErrorCode);
  power_domain_off_early : PsciCompositePowerState S → M W (result unit ErrorCode);
  power_domain_off : PsciCompositePowerState S → M W unit;
  power_domain_power_down : PsciCompositePowerState S → M W unit;
  power_domain_on : Mpidr → M W (result unit ErrorCode);
  power_domain_on_finish : PsciCompositePowerState S → M W unit;
  plat_system_off : M W Empty_set;
  plat_system_off2 : SystemOff2Type → Cookie → M W (result unit ErrorCode);
  plat_system_reset : M W Empty_set;
  plat_system_reset2 : ResetType → Cookie → M W (result unit ErrorCode);
  plat_mem_protect : bool → M W (result bool ErrorCode);
  plat_mem_protect_check_range : MemProtectRange → M W (result unit ErrorCode);
  plat_cpu_freeze : M W Empty_set;
  cpu_default_suspend_power_state : M W PowerState;
  plat_node_hw_state : Mpidr → nat → M W (result HwState ErrorCode);
  sys_suspend_power_state : M W (PsciCompositePowerState S);
  is_valid_ns_entrypoint : EntryPoint → M W bool;
  has_pending_interrupts : M W bool;
  mpidr_is_valid : Mpidr → bool;
  core_position : Mpidr → nat;
  save_extensions_before_powerdown : list (M W unit);
  cpu_power_down : nat → M W unit;
  cpu_handle_power_down_abandon : M W unit;
  dsb_sy : M W unit;
  psci_spm : PsciSpmInterface V;
}.
Arguments FEATURES {_ S W V}.
Arguments topology {_ S W V}.
Arguments try_parse_power_state {_ S W V}.
Arguments cpu_standby {_ S W V}.
Arguments power_domain_suspend {_ S W V}.
Arguments power_domain_suspend_finish {_ S W V}.
Arguments power_domain_validate_suspend {_ S W V}.
Arguments power_domain_off_early {_ S W V}.
Arguments power_domain_off {_ S W V}.
Arguments power_domain_power_down {_ S W V}.
Arguments power_domain_on {_ S W V}.
Arguments power_domain_on_finish {_ S W V}.
Arguments plat_system_off {_ S W V}.
Arguments plat_system_off2 {_ S W V}.
Arguments plat_system_reset {_ S W V}.
Arguments plat_system_reset2 {_ S W V}.
Arguments plat_mem_protect {_ S W V}.
Arguments plat_mem_protect_check_range {_ S W V}.
Arguments plat_cpu_freeze {_ S W V}.
Arguments cpu_default_suspend_power_state {_ S W V}.
Arguments plat_node_hw_state {_ S W V}.
Arguments sys_suspend_power_state {_ S W V}.
Arguments is_valid_ns_entrypoint {_ S W V}.
Arguments has_pending_interrupts {_ S W V}.
Arguments mpidr_is_valid {_ S W V}.
Arguments core_position {_ S W V}.
Arguments save_extensions_before_powerdown {_ S W V}.
Arguments cpu_power_down {_ S W V}.
Arguments cpu_handle_power_down_abandon {_ S W V}.
Arguments dsb_sy {_ S W V}.
Arguments psci_spm {_ S W V}.

(** A platform with the SPM that the service is created with. *)
Definition with_spm `{ArmPsciTypes} {S W V V' : Type} (platform : PsciPlatform S W V)
    (spm : PsciSpmInterface V') : PsciPlatform S W V' := {|
  FEATURES := FEATURES platform;
  topology := topology platform;
  try_parse_power_state := try_parse_power_state platform;
  cpu_standby := cpu_standby platform;
  power_domain_suspend := power_domain_suspend platform;
  power_domain_suspend_finish := power_domain_suspend_finish platform;
  power_domain_validate_suspend := power_domain_validate_suspend platform;
  power_domain_off_early := power_domain_off_early platform;
  power_domain_off := power_domain_off platform;
  power_domain_power_down := power_domain_power_down platform;
  power_domain_on := power_domain_on platform;
  power_domain_on_finish := power_domain_on_finish platform;
  plat_system_off := plat_system_off platform;
  plat_system_off2 := plat_system_off2 platform;
  plat_system_reset := plat_system_reset platform;
  plat_system_reset2 := plat_system_reset2 platform;
  plat_mem_protect := plat_mem_protect platform;
  plat_mem_protect_check_range := plat_mem_protect_check_range platform;
  plat_cpu_freeze := plat_cpu_freeze platform;
  cpu_default_suspend_power_state := cpu_default_suspend_power_state platform;
  plat_node_hw_state := plat_node_hw_state platform;
  sys_suspend_power_state := sys_suspend_power_state platform;
  is_valid_ns_entrypoint := is_valid_ns_entrypoint platform;
  has_pending_interrupts := has_pending_interrupts platform;
  mpidr_is_valid := mpidr_is_valid platform;
  core_position := core_position platform;
  save_extensions_before_powerdown := save_extensions_before_powerdown platform;
  cpu_power_down := cpu_power_down platform;
  cpu_handle_power_down_abandon := cpu_handle_power_down_abandon platform;
  dsb_sy := dsb_sy platform;
  psci_spm := spm;
|}.

(** The shared state: the fields of [Psci] that change, the platform, and what
    the SPM works on. *)
Record PsciState (S EP W V : Type) := mkPsci {
  power_domain_tree : PowerDomainTree S EP;
  suspend_mode : SuspendMode;
  world : W;
  spm_state : V;
}.
Arguments mkPsci {S EP W V}.
Arguments power_domain_tree {S EP W V}.
Arguments suspend_mode {S EP W V}.
Arguments world {S EP W V}.
Arguments spm_state {S EP W V}.

(** What the other cores do to the shared state while this core waits: in [wfi],
    without holding a lock, until the core wakes up, if it does; and for the
    locks of the ancestors of its CPU node, which it has locked. *)
Record OtherCores (St : Type) := mkOtherCores {
  wfi : M St unit;
  lock_wait : M St unit;
}.
Arguments mkOtherCores {St}.
Arguments wfi {St}.
Arguments lock_wait {St}.

(** [WakeUpReason]. *)
Inductive WakeUpReason `{ArmPsciTypes} : Type :=
| CpuOn (entry_point : EntryPoint)
| SuspendFinished (entry_point : EntryPoint).

Definition CPU_OFF_WFI_RETRY_COUNT : nat := 32.

Section Handlers.
Context `{ArmPsciTypes} `{!ArmPsciOps} {S W V : Type} `{!PlatformPowerStateInterface S} `{!PsciDims}.
Context (platform : PsciPlatform S W V).
Local Abbreviation St := (PsciState S EntryPoint W V).
Local Abbreviation Composite := (PsciCompositePowerState S).

Context (cores : OtherCores St).
(** The index of the core the handlers run on, [CoresImpl::core_index()]. *)
Context (me : nat).

(** An operation of the platform. *)
Definition plat {A} (m : M W A) : M St A := λ st,
  match m (world st) with
  | Ret a w => Ret a (mkPsci (power_domain_tree st) (suspend_mode st) w (spm_state st))
  | Halt w => Halt (mkPsci (power_domain_tree st) (suspend_mode st) w (spm_state st))
  | Crash => Crash
  end.
(** An operation of the SPM. *)
Definition spm {A} (m : M V A) : M St A := λ st,
  match m (spm_state st) with
  | Ret a v => Ret a (mkPsci (power_domain_tree st) (suspend_mode st) (world st) v)
  | Halt v => Halt (mkPsci (power_domain_tree st) (suspend_mode st) (world st) v)
  | Crash => Crash
  end.

Definition set_tree (t : PowerDomainTree S EntryPoint) : M St unit :=
  modify (λ st, mkPsci t (suspend_mode st) (world st) (spm_state st)).

(** [locked_cpu_node], and what is left when the guard is dropped. *)
Definition lock_cpu (cpu_index : nat) : M St (CpuPowerNode S EntryPoint) :=
  st ← get; lift (locked_cpu_node (power_domain_tree st) cpu_index).
Definition drop_cpu (cpu_index : nat) (cpu : CpuPowerNode S EntryPoint) : M St unit :=
  st ← get; set_tree (put_cpu_node (power_domain_tree st) cpu_index cpu).

Definition with_ancestors_locked_to_max_level {T} (cpu : CpuPowerNode S EntryPoint)
    (max_level : nat)
    (f : CpuPowerNode S EntryPoint → AncestorPowerDomains S →
         M St (T * CpuPowerNode S EntryPoint * AncestorPowerDomains S))
    : M St (T * CpuPowerNode S EntryPoint) :=
  st ← get;
  anc ← lift (new_with_max_level (cpu_parent cpu) max_level
                (non_cpu_power_nodes (power_domain_tree st)));
  '(t, cpu, anc) ← f cpu anc;
  st ← get;
  let tree := power_domain_tree st in
  _ ← set_tree (mkTree (unlock anc (non_cpu_power_nodes tree)) (cpu_power_nodes tree));
  mret (t, cpu).

Definition with_ancestors_locked {T} (cpu : CpuPowerNode S EntryPoint)
    (f : CpuPowerNode S EntryPoint → AncestorPowerDomains S →
         M St (T * CpuPowerNode S EntryPoint * AncestorPowerDomains S)) :=
  with_ancestors_locked_to_max_level cpu MAX_POWER_LEVEL f.

Definition has_feature (flag : Z) : bool := (Z.land (FEATURES platform) flag =? flag)%Z.

(** [Self::cpu_index()]: the core index as a [NodeIndex]. *)
Definition cpu_index : M St nat :=
  lift (if decide (me ≤ NODE_INDEX_MAX) then Done me else Panic).

Definition try_get_cpu_index_by_mpidr (psci_mpidr : Mpidr) : outcome (option nat) :=
  if mpidr_is_valid platform psci_mpidr then
    let i := core_position platform psci_mpidr in
    if decide (i ≤ NODE_INDEX_MAX) then mret (Some i) else Panic
  else mret None.

(** A log message is all that an error of the SPM leads to. *)
Definition forward_to_spm (function : Function) : M St unit :=
  _ ← spm (forward_psci_request (psci_spm platform) function); mret tt.

Definition is_in_osi_mode : M St bool :=
  if negb (has_feature OS_INITIATED_MODE) then mret false
  else st ← get; mret (bool_decide (suspend_mode st = OsInitiated)).

(** [Psci::new]. *)
Definition psci_new (w : W) (v : V) : outcome St :=
  tree ← tree_new (topology platform);
  cpu_index ← (if decide (me ≤ NODE_INDEX_MAX) then Done me else Panic);
  cpu ← locked_cpu_node tree cpu_index;
  anc ← new_with_max_level (cpu_parent cpu) MAX_POWER_LEVEL (non_cpu_power_nodes tree);
  let cpu := cpu_set_local_state (set_affinity_info cpu AffOn) RUN in
  anc ← set_running anc cpu_index;
  let tree := mkTree (unlock anc (non_cpu_power_nodes tree)) (cpu_power_nodes tree) in
  mret (mkPsci (put_cpu_node tree cpu_index cpu) PlatformCoordinated w v).

(** The coordination of a suspend request with the locked ancestors, in the mode
    the service is in by then. *)
Definition suspend_coordinate (cpu_index highest_affected_level : nat) (composite_state : Composite)
    (cpu : CpuPowerNode S EntryPoint) (anc : AncestorPowerDomains S)
    : M St (result (Composite * CpuPowerNode S EntryPoint * AncestorPowerDomains S) ErrorCode) :=
  osi ← is_in_osi_mode;
  if (osi : bool) then
    resolved_state ← lift (create_highest_affected_level_resolved_state composite_state
                             highest_affected_level);
    _ ←? lift (validate_state_coordination resolved_state cpu_index highest_affected_level anc);
    _ ←? plat (power_domain_validate_suspend platform composite_state);
    '(cpu, anc) ← lift (apply_coordinated_state_to_power_domain_tree composite_state
                          highest_affected_level cpu anc cpu_index resolved_state);
    mret (Ok (composite_state, cpu, anc))
  else
    '(composite_state, anc) ← lift (coordinate_state composite_state cpu_index anc);
    s ← lift (cpu_level_state composite_state);
    mret (Ok (composite_state, cpu_set_local_state cpu s, anc)).

(** Forwarding a power down to the SPM and preparing the CPU and the platform. *)
Definition suspend_prepare (power_state : option PowerState) (entry : EntryPoint)
    (composite_state : Composite) (is_power_down_state : bool)
    (cpu : CpuPowerNode S EntryPoint) : M St (CpuPowerNode S EntryPoint) :=
  cpu ← (if is_power_down_state then
           _ ← forward_to_spm (match power_state with
                               | Some state => FCpuSuspend state entry
                               | None => FSystemSuspend entry
                               end);
           cpu ← lift (set_entry_point cpu entry);
           level ← lift (unwrap (find_highest_power_down_level composite_state));
           _ ← plat (cpu_power_down platform level);
           mret cpu
         else mret cpu);
  _ ← plat (power_domain_suspend platform composite_state);
  mret cpu.

(** What [cpu_suspend_start] does with the ancestors of the CPU locked, up to
    [drop(cpu)]: it reads the suspend mode again.  The result tells whether an
    interrupt is pending, and carries the coordinated state. *)
Definition suspend_locked (cpu_index : nat) (power_state : option PowerState)
    (entry : EntryPoint) (highest_affected_level : nat) (composite_state : Composite)
    (is_power_down_state : bool) (level_to_lock_to : nat) (cpu : CpuPowerNode S EntryPoint)
    : M St (result (bool * Composite) ErrorCode) :=
  '(r, cpu) ← with_ancestors_locked_to_max_level cpu level_to_lock_to (λ cpu anc,
    pending ← plat (has_pending_interrupts platform);
    if (pending : bool) then mret (Ok (true, composite_state), cpu, anc)
    else
      r ← suspend_coordinate cpu_index highest_affected_level composite_state cpu anc;
      match r with
      | Err e => mret (Err e, cpu, anc)
      | Ok (composite_state, cpu, anc) =>
          cpu ← suspend_prepare power_state entry composite_state is_power_down_state cpu;
          mret (Ok (false, composite_state), cpu, anc)
      end);
  _ ← drop_cpu cpu_index cpu;
  mret r.

(** The level up to which the ancestors are locked, by the first read of the
    suspend mode. *)
Definition lock_level (osi : bool) (highest_affected_level : nat) : nat :=
  if osi then MAX_POWER_LEVEL else highest_affected_level.

(** The first part of [cpu_suspend_start].  Between the first read of the suspend
    mode and the lock of the last ancestor the other cores may act: on all that
    is not locked, which is not the CPU node. *)
Definition suspend_enter (cpu_index : nat) (power_state : option PowerState)
    (entry : EntryPoint) (highest_affected_level : nat) (composite_state : Composite)
    (is_power_down_state : bool) : M St (result (bool * Composite) ErrorCode) :=
  cpu ← lock_cpu cpu_index;
  osi ← is_in_osi_mode;
  let level_to_lock_to := lock_level osi highest_affected_level in
  _ ← lock_wait cores;
  suspend_locked cpu_index power_state entry highest_affected_level composite_state
    is_power_down_state level_to_lock_to cpu.

(** [for ext in PlatformImpl::CPU_EXTENSIONS]: save what a power down loses. *)
Fixpoint save_extensions (exts : list (M W unit)) : M St unit :=
  match exts with
  | [] => mret tt
  | ext :: exts => _ ← plat ext; save_extensions exts
  end.

(** The wait between the two parts. *)
Definition suspend_wait (composite_state : Composite) (is_power_down_state : bool) : M St unit :=
  if is_power_down_state then
    _ ← save_extensions (save_extensions_before_powerdown platform);
    _ ← plat (power_domain_power_down platform composite_state);
    _ ← plat (dsb_sy platform);
    _ ← wfi cores;
    plat (cpu_handle_power_down_abandon platform)
  else wfi cores.

(** The second part: restore the running state after the wake-up. *)
Definition suspend_resume (cpu_index : nat) (composite_state : Composite)
    (is_power_down_state : bool) : M St unit :=
  cpu ← lock_cpu cpu_index;
  '(_, cpu) ← with_ancestors_locked cpu (λ cpu anc,
    composite_state ← lift (set_local_states_from_nodes composite_state cpu anc);
    _ ← plat (power_domain_suspend_finish platform composite_state);
    cpu ← (if is_power_down_state then
             _ ← spm (notify_cpu_suspend_powerdown_abandoned (psci_spm platform));
             mret (pop_entry_point cpu).2
           else mret cpu);
    let cpu := cpu_set_local_state cpu RUN in
    anc ← lift (set_running anc cpu_index);
    mret (tt, cpu, anc));
  drop_cpu cpu_index cpu.

Definition cpu_suspend_start (cpu_index : nat) (power_state : option PowerState)
    (entry : EntryPoint) (highest_affected_level : nat) (composite_state : Composite)
    (is_power_down_state : bool) : M St (result unit ErrorCode) :=
  r ←? suspend_enter cpu_index power_state entry highest_affected_level composite_state
         is_power_down_state;
  let '(has_pending_interrupt, composite_state) := r in
  if has_pending_interrupt : bool then mret (Ok tt)
  else
    _ ← suspend_wait composite_state is_power_down_state;
    _ ← suspend_resume cpu_index composite_state is_power_down_state;
    mret (Ok tt).

Definition is_power_down (power_state : PowerState) : bool :=
  match power_state with PsPowerDown _ => true | PsStandbyOrRetention _ => false end.

Definition set_cpu_local_state (cpu_index : nat) (s : S) : M St unit :=
  cpu ← lock_cpu cpu_index; drop_cpu cpu_index (cpu_set_local_state cpu s).

(** [cpu_suspend].  The core waits in [cpu_standby] without holding a lock: the
    platform's action is followed by the same wait as in [suspend_wait]. *)
Definition cpu_suspend (power_state : PowerState) (entry_point : EntryPoint)
    : M St (result unit ErrorCode) :=
  cpu_index ← cpu_index;
  composite_state ←? mret (ok_or (try_parse_power_state platform power_state) InvalidParameters);
  let is_power_down_state := is_power_down power_state in
  _ ← lift (assert_ (is_valid_suspend_request composite_state is_power_down_state));
  highest_affected_level ← lift (unwrap (find_highest_non_run_level composite_state));
  if negb is_power_down_state && bool_decide (highest_affected_level = CPU_POWER_LEVEL) then
    cpu_pd_state ← lift (cpu_level_state composite_state);
    _ ← set_cpu_local_state cpu_index cpu_pd_state;
    _ ← plat (cpu_standby platform cpu_pd_state);
    _ ← wfi cores;
    _ ← set_cpu_local_state cpu_index RUN;
    mret (Ok tt)
  else
    valid ← (if is_power_down_state
             then plat (is_valid_ns_entrypoint platform entry_point) else mret true);
    if negb valid then mret (Err InvalidAddress)
    else cpu_suspend_start cpu_index (Some power_state) entry_point highest_affected_level
           composite_state is_power_down_state.

(** [for _ in 0..CPU_OFF_WFI_RETRY_COUNT { wfi(); }] *)
Fixpoint wfi_retry (count : nat) : M St unit :=
  match count with
  | 0 => mret tt
  | Datatypes.S count => _ ← wfi cores; wfi_retry count
  end.

(** The part of [cpu_off] that runs with the CPU locked, up to [drop(cpu)]. *)
Definition off_enter (cpu_index : nat) : M St (result Composite ErrorCode) :=
  cpu ← lock_cpu cpu_index;
  let composite_state := composite_OFF in
  _ ←? plat (power_domain_off_early platform composite_state);
  '(composite_state, cpu) ← with_ancestors_locked cpu (λ cpu anc,
    _ ← forward_to_spm FCpuOff;
    _ ← spm (notify_cpu_off (psci_spm platform));
    let cpu := cpu_set_local_state cpu OFF in
    '(composite_state, anc) ← lift (coordinate_state composite_state cpu_index anc);
    level ← lift (unwrap (find_highest_power_down_level composite_state));
    _ ← plat (cpu_power_down platform level);
    _ ← plat (power_domain_off platform composite_state);
    mret (composite_state, cpu, anc));
  _ ← drop_cpu cpu_index (set_affinity_info cpu AffOff);
  mret (Ok composite_state).

Definition cpu_off : M St (result unit ErrorCode) :=
  cpu_index ← cpu_index;
  composite_state ←? off_enter cpu_index;
  _ ← plat (power_domain_power_down platform composite_state);
  _ ← plat (dsb_sy platform);
  _ ← wfi_retry CPU_OFF_WFI_RETRY_COUNT;
  crash.

Definition cpu_on (target_cpu : Mpidr) (entry : EntryPoint) : M St (result unit ErrorCode) :=
  index ← lift (try_get_cpu_index_by_mpidr target_cpu);
  cpu_index ←? mret (ok_or index InvalidParameters);
  valid ← plat (is_valid_ns_entrypoint platform entry);
  if negb valid then mret (Err InvalidAddress)
  else
    cpu ← lock_cpu cpu_index;
    match cpu_affinity_info cpu with
    | AffOn => mret (Err AlreadyOn)
    | AffOnPending => mret (Err OnPending)
    | AffOff =>
        let cpu := set_affinity_info cpu AffOnPending in
        r ← plat (power_domain_on platform target_cpu);
        match r with
        | Ok _ =>
            cpu ← lift (set_entry_point cpu entry);
            _ ← drop_cpu cpu_index cpu;
            mret (Ok tt)
        | Err error =>
            _ ← drop_cpu cpu_index (set_affinity_info cpu AffOff);
            mret (Err error)
        end
    end.

Definition handle_cpu_boot : M St WakeUpReason :=
  cpu_index ← cpu_index;
  cpu ← lock_cpu cpu_index;
  let composite_state := composite_RUN in
  let affinity_info := cpu_affinity_info cpu in
  if decide (affinity_info = AffOff) then crash
  else
    '(wake_from_suspend, cpu) ← with_ancestors_locked cpu (λ cpu anc,
      composite_state ← lift (set_local_states_from_nodes composite_state cpu anc);
      '(wake_from_suspend, cpu) ←
        (if decide (affinity_info = AffOnPending) then
           _ ← plat (power_domain_on_finish platform composite_state);
           mret (false, set_affinity_info cpu AffOn)
         else
           _ ← lift (assert_ (bool_decide (affinity_info = AffOn)));
           s ← lift (cpu_level_state composite_state);
           _ ← lift (assert_ (bool_decide (power_state_type s = PowerDown)));
           _ ← plat (power_domain_suspend_finish platform composite_state);
           mret (true, cpu));
      let cpu := cpu_set_local_state cpu RUN in
      anc ← lift (set_running anc cpu_index);
      mret (wake_from_suspend, cpu, anc));
    let '(entry_point, cpu) := pop_entry_point cpu in
    _ ← drop_cpu cpu_index cpu;
    entry_point ← lift (unwrap entry_point);
    mret (if (wake_from_suspend : bool) then SuspendFinished entry_point else CpuOn entry_point).

Definition affinity_info (target_affinity : Mpidr) (lowest_affinity_level : nat)
    : M St (result AffinityInfo ErrorCode) :=
  index ← lift (try_get_cpu_index_by_mpidr target_affinity);
  cpu_index ←? mret (ok_or index InvalidParameters);
  if decide (CPU_POWER_LEVEL < lowest_affinity_level) then mret (Err InvalidParameters)
  else cpu ← lock_cpu cpu_index; mret (Ok (cpu_affinity_info cpu)).

Definition system_off {A} : M St A :=
  _ ← forward_to_spm FSystemOff;
  never ← plat (plat_system_off platform);
  match never : Empty_set with end.

Definition system_off2 (off_type : SystemOff2Type) (cookie : Cookie) : M St (result unit ErrorCode) :=
  if negb (has_feature SYSTEM_OFF2) then mret (Err NotSupported)
  else
    _ ← forward_to_spm (FSystemOff2 off_type cookie);
    plat (plat_system_off2 platform off_type cookie).

Definition system_reset {A} : M St A :=
  _ ← forward_to_spm FSystemReset;
  never ← plat (plat_system_reset platform);
  match never : Empty_set with end.

Definition system_reset2 (reset_type : ResetType) (cookie : Cookie) : M St (result unit ErrorCode) :=
  if negb (has_feature SYSTEM_RESET2) then mret (Err NotSupported)
  else
    _ ← forward_to_spm (FSystemReset2 reset_type cookie);
    plat (plat_system_reset2 platform reset_type cookie).

Definition mem_protect (enabled : bool) : M St (result bool ErrorCode) :=
  if negb (has_feature MEM_PROTECT) then mret (Err NotSupported)
  else plat (plat_mem_protect platform enabled).

Definition mem_protect_check_range (range : MemProtectRange) : M St (result unit ErrorCode) :=
  if negb (has_feature MEM_PROTECT_CHECK_RANGE) then mret (Err NotSupported)
  else plat (plat_mem_protect_check_range platform range).

Definition check_optional_feature (feature : Z) : result Z ErrorCode :=
  if has_feature feature then Ok 0%Z else Err NotSupported.

Definition handle_features (feature : PsciFeature) : result Z ErrorCode :=
  match feature with
  | PsciFunction function_id =>
      match function_id with
      | FidPsciVersion | FidCpuOff | FidCpuOn32 | FidCpuOn64 | FidAffinityInfo32
      | FidAffinityInfo64 | FidSystemOff | FidSystemReset | FidPsciFeatures => Ok 0%Z
      | FidCpuSuspend32 | FidCpuSuspend64 =>
          Ok (Z.lor flag_extended_power_state
                (if has_feature OS_INITIATED_MODE then flag_os_initiated_mode else 0%Z))
      | FidMigrate32 | FidMigrate64 | FidMigrateInfoUpCpu32 | FidMigrateInfoUpCpu64 =>
          Err NotSupported
      | FidMigrateInfoType => Ok 0%Z
      | FidSystemOff232 | FidSystemOff264 =>
          if has_feature SYSTEM_OFF2 then Ok flag_hibernate_off else Err NotSupported
      | FidSystemReset232 | FidSystemReset264 => check_optional_feature SYSTEM_RESET2
      | FidMemProtect => check_optional_feature MEM_PROTECT
      | FidMemProtectCheckRange32 | FidMemProtectCheckRange64 =>
          check_optional_feature MEM_PROTECT_CHECK_RANGE
      | FidCpuFreeze => check_optional_feature CPU_FREEZE
      | FidCpuDefaultSuspend32 | FidCpuDefaultSuspend64 =>
          check_optional_feature CPU_DEFAULT_SUSPEND
      | FidNodeHwState32 | FidNodeHwState64 => check_optional_feature NODE_HW_STATE
      | FidSystemSuspend32 | FidSystemSuspend64 => check_optional_feature SYSTEM_SUSPEND
      | FidPsciSetSuspendMode => check_optional_feature OS_INITIATED_MODE
      | FidPsciStatResidency32 | FidPsciStatResidency64 => Err NotSupported
      | FidPsciStatCount32 | FidPsciStatCount64 => Err NotSupported
      end
  | FeatureSmcccVersion => Ok 0%Z
  end.

Definition cpu_freeze : M St (result unit ErrorCode) :=
  if negb (has_feature CPU_FREEZE) then mret (Err NotSupported)
  else never ← plat (plat_cpu_freeze platform); match never : Empty_set with end.

Definition cpu_default_suspend (entry : EntryPoint) : M St (result unit ErrorCode) :=
  if negb (has_feature CPU_DEFAULT_SUSPEND) then mret (Err NotSupported)
  else
    power_state ← plat (cpu_default_suspend_power_state platform);
    cpu_suspend power_state entry.

Definition node_hw_state (target_cpu : Mpidr) (power_level : nat) : M St (result HwState ErrorCode) :=
  if negb (has_feature NODE_HW_STATE) then mret (Err NotSupported)
  else
    index ← lift (try_get_cpu_index_by_mpidr target_cpu);
    if bool_decide (index = None) || bool_decide (MAX_POWER_LEVEL < power_level)
    then mret (Err InvalidParameters)
    else plat (plat_node_hw_state platform target_cpu power_level).

Definition system_suspend (entry : EntryPoint) : M St (result unit ErrorCode) :=
  if negb (has_feature SYSTEM_SUSPEND) then mret (Err NotSupported)
  else
    cpu_index ← cpu_index;
    st ← get;
    last ← lift (is_last_cpu (power_domain_tree st) cpu_index);
    if negb last then mret (Err Denied)
    else
      valid ← plat (is_valid_ns_entrypoint platform entry);
      if negb valid then mret (Err InvalidAddress)
      else
        state ← plat (sys_suspend_power_state platform);
        if decide (find_highest_non_run_level state ≠ Some MAX_POWER_LEVEL)
        then mret (Err Denied)
        else
          _ ← lift (assert_ (is_valid_suspend_request state true));
          s ← lift (highest_level_state state);
          _ ← lift (assert_ (bool_decide (power_state_type s = PowerDown)));
          cpu_suspend_start cpu_index None entry MAX_POWER_LEVEL state true.

Definition set_suspend_mode (mode : SuspendMode) : M St (result Z ErrorCode) :=
  if negb (has_feature OS_INITIATED_MODE) then mret (Err NotSupported)
  else
    st ← get;
    if decide (suspend_mode st = mode) then mret (Ok 0%Z)
    else
      allowed ←
        match mode with
        | PlatformCoordinated =>
            i ← cpu_index; lift (is_last_cpu (power_domain_tree st) i)
        | OsInitiated =>
            if are_all_cpus_on (power_domain_tree st) then mret true
            else i ← cpu_index; lift (is_last_cpu (power_domain_tree st) i)
        end;
      if negb allowed then mret (Err Denied)
      else
        _ ← modify (λ st, mkPsci (power_domain_tree st) mode (world st) (spm_state st));
        mret (Ok 0%Z).

(** [handle_smc_inner]: [regs] are the first four registers. *)
Definition handle_smc_inner (regs : list Z) : M St (result Z ErrorCode) :=
  function ←? mret (function_try_from regs);
  match function with
  | FVersion => mret (Ok (version_into_u32 1 3))
  | FCpuSuspend state entry => _ ←? cpu_suspend state entry; mret (Ok 0%Z)
  | FCpuOff => _ ←? cpu_off; mret (Ok 0%Z)
  | FCpuOn target_cpu entry => _ ←? cpu_on target_cpu entry; mret (Ok 0%Z)
  | FAffinityInfo mpidr lowest_affinity_level =>
      a ←? affinity_info mpidr lowest_affinity_level; mret (Ok (affinity_info_into_u32 a))
  | FMigrate _ => mret (Err NotSupported)
  | FMigrateInfoType => mret (Ok migration_not_required)
  | FMigrateInfoUpCpu => mret (Err NotSupported)
  | FSystemOff => system_off
  | FSystemOff2 off_type cookie => _ ←? system_off2 off_type cookie; mret (Ok 0%Z)
  | FSystemReset => system_reset
  | FSystemReset2 reset_type cookie => _ ←? system_reset2 reset_type cookie; mret (Ok 0%Z)
  | FMemProtect enabled =>
      previous_state ←? mem_protect enabled; mret (Ok (if (previous_state : bool) then 1%Z else 0%Z))
  | FMemProtectCheckRange range => _ ←? mem_protect_check_range range; mret (Ok 0%Z)
  | FFeatures psci_func_id => mret (handle_features psci_func_id)
  | FCpuFreeze => _ ←? cpu_freeze; mret (Ok 0%Z)
  | FCpuDefaultSuspend entry => _ ←? cpu_default_suspend entry; mret (Ok 0%Z)
  | FNodeHwState target_cpu power_level =>
      hw_state ←? node_hw_state target_cpu power_level; mret (Ok (hw_state_into_u32 hw_state))
  | FSystemSuspend entry => _ ←? system_suspend entry; mret (Ok 0%Z)
  | FSetSuspendMode mode => set_suspend_mode mode
  | FStatResidency => mret (Err NotSupported)
  | FStatCount => mret (Err NotSupported)
  end.

Definition FUNCTION_NUMBER_MIN : Z := 0x0.
Definition FUNCTION_NUMBER_MAX : Z := 0x1f.

Definition psci_handle_non_secure_smc (regs : SmcReturn) : M St (World * SmcReturn) :=
  in_regs ← lift (slice (values regs) 0 4);
  x0 ← lift (arr_get in_regs 0);
  let function := clear_sve_hint (as_u32 x0) in
  let in_regs := <[0 := function]> in_regs in
  let regs := mkSmcReturn (used regs) (<[0 := function]> (all_values regs)) in
  r ← handle_smc_inner in_regs;
  let result := match r with Ok result => result | Err code => error_code_into_u64 code end in
  mret (NonSecure, set_from_u64 result regs).

(** The [Service] implementation. *)
Definition psci_service : Service St :=
  mkService (owns_range OEN_STANDARD_SECURE FUNCTION_NUMBER_MIN FUNCTION_NUMBER_MAX)
    psci_handle_non_secure_smc (default_smc Secure) (default_smc Realm).
End Handlers.
