(* ===== verification/PsciInv.v ===== *)
(** * The invariant of the PSCI service

    The phases of a CPU, the invariant that ties them to the power domain tree,
    and weakest preconditions for the handlers of [Psci].  Each critical
    section of a handler is shown to return and to keep the invariant. *)

From Stdlib Require Import ZArith.
From stdpp Require Import base list numbers option functions.
From S2P Require Import Prelude PowerState Smccc PowerTree Composite TreeInv Coordination Psci.
Open Scope nat_scope.

(** ** Weakest preconditions

    [wp m Q H s]: run from [s], [m] does not panic, establishes [Q] if it
    returns and [H] if the core stops. *)
Definition wp {St A} (m : M St A) (Q : A → St → Prop) (H : St → Prop) (s : St) : Prop :=
  match m s with
  | Ret a s' => Q a s'
  | Halt s' => H s'
  | Crash => False
  end.

(** An operation of the platform that returns from every state. *)
Definition returns {W A} (m : M W A) : Prop := ∀ w, ∃ a w', m w = Ret a w'.
(** An operation of the platform that does not panic. *)
Definition safe {W A} (m : M W A) : Prop := ∀ w, m w ≠ Crash.

Section Wp.
Context {St : Type}.

Lemma wp_bind {A B} (m : M St A) (f : A → M St B) Q H s :
  wp m (λ a s', wp (f a) Q H s') H s → wp (m ≫= f) Q H s.
Proof. unfold wp, mbind, M_bind. by destruct (m s). Qed.

Lemma wp_try {A B E} (m : M St (result A E)) (f : A → M St (result B E)) Q H s :
  wp m (λ r s', match r with Ok a => wp (f a) Q H s' | Err e => Q (Err e) s' end) H s →
  wp (try_M m f) Q H s.
Proof. unfold wp, try_M. destruct (m s) as [[]| |]; done. Qed.

Lemma wp_ret {A} (a : A) (Q : A → St → Prop) H s : Q a s → wp (mret a) Q H s.
Proof. done. Qed.

Lemma wp_get (Q : St → St → Prop) H s : Q s s → wp get Q H s.
Proof. done. Qed.

Lemma wp_modify f (Q : unit → St → Prop) H s : Q tt (f s) → wp (modify f) Q H s.
Proof. done. Qed.

Lemma wp_lift {A} (o : outcome A) (Q : A → St → Prop) H s a :
  o = Done a → Q a s → wp (lift o) Q H s.
Proof. by intros ->. Qed.

Lemma wp_mono {A} (m : M St A) (Q Q' : A → St → Prop) (H H' : St → Prop) s :
  wp m Q H s → (∀ a s', Q a s' → Q' a s') → (∀ s', H s' → H' s') → wp m Q' H' s.
Proof. unfold wp. destruct (m s); eauto. Qed.

(** What a run of a computation with a weakest precondition does. *)
Lemma wp_Ret {A} (m : M St A) Q H s a s' : wp m Q H s → m s = Ret a s' → Q a s'.
Proof. unfold wp. intros Hm Heq. by rewrite Heq in Hm. Qed.
Lemma wp_Halt {A} (m : M St A) Q H s s' : wp m Q H s → m s = Halt s' → H s'.
Proof. unfold wp. intros Hm Heq. by rewrite Heq in Hm. Qed.
Lemma wp_Crash {A} (m : M St A) Q H s : wp m Q H s → m s ≠ Crash.
Proof. unfold wp. intros Hm Heq. by rewrite Heq in Hm. Qed.
End Wp.

(** ** Phases and the invariant *)

(** Where a CPU is between two of its critical sections. *)
Inductive Phase : Type :=
| PhRunning
| PhStandby
| PhSuspended (power_down : bool)
| PhOff
| PhOnPending.
Global Instance Phase_eq_dec : EqDecision Phase.
Proof. solve_decision. Defined.

Section Invariant.
Context {S EP : Type} `{PlatformPowerStateInterface S} `{PsciDims}.
Implicit Types nodes : list (NonCpuPowerNode S).
Implicit Types cpu : CpuPowerNode S EP.
Implicit Types tree : PowerDomainTree S EP.

(** No ancestor of the CPU [c] records a low-power request of [c]. *)
Definition column_run nodes (c : nat) (l : list nat) : Prop :=
  ∀ i n, i ∈ l → nodes !! i = Some n → col_run c n.

(** The CPU node of [c] and its column in a given phase.  The entry point is
    stored exactly while the CPU is going to boot through the warm boot entry. *)
Definition cpu_ok nodes (c : nat) (l : list nat) cpu (ph : Phase) : Prop :=
  match ph with
  | PhRunning => cpu_affinity_info cpu = AffOn ∧ cpu_local_state cpu = RUN ∧
      cpu_entry_point cpu = None ∧ column_run nodes c l
  | PhStandby => cpu_affinity_info cpu = AffOn ∧ cpu_entry_point cpu = None ∧
      column_run nodes c l
  | PhSuspended pd => cpu_affinity_info cpu = AffOn ∧ cpu_local_state cpu ≠ RUN ∧
      (if pd then power_state_type (cpu_local_state cpu) = PowerDown ∧
                  is_Some (cpu_entry_point cpu)
       else cpu_entry_point cpu = None)
  | PhOff => cpu_affinity_info cpu = AffOff ∧ cpu_local_state cpu = OFF ∧
      cpu_entry_point cpu = None
  | PhOnPending => cpu_affinity_info cpu = AffOnPending ∧ cpu_local_state cpu = OFF ∧
      is_Some (cpu_entry_point cpu)
  end.

Record tree_ok tree (ph : nat → Phase) : Prop := {
  tk_count : length (cpu_power_nodes tree) = CPU_DOMAIN_COUNT;
  tk_index : CPU_DOMAIN_COUNT ≤ NODE_INDEX_MAX;
  tk_nodes : nodes_ok (non_cpu_power_nodes tree);
  tk_cpu : ∀ c cpu, cpu_power_nodes tree !! c = Some cpu →
    ∃ l, cpu_path (non_cpu_power_nodes tree) c (cpu_parent cpu) l ∧
         cpu_ok (non_cpu_power_nodes tree) c l cpu (ph c);
}.
End Invariant.

Section InvariantLemmas.
Context {S EP : Type} `{PlatformPowerStateLaws S} `{PsciDims}.
Implicit Types nodes : list (NonCpuPowerNode S).
Implicit Types cpu : CpuPowerNode S EP.
Implicit Types tree : PowerDomainTree S EP.
Implicit Types ph : nat → Phase.

(** A node below which a CPU runs is itself running. *)
Lemma col_run_running c n : node_ok n → in_cpus n c → col_run c n → running_node c n.
Proof.
  intros Hn Hc Hcol. split; [done|]. destruct Hcol as [Hr Hs].
  pose proof (ok_vote _ Hn c RUN None Hc Hr Hs) as Hv. unfold vote_of in Hv.
  rewrite decide_False in Hv by (by intros ?). by apply power_le_RUN.
Qed.

Lemma full_running nodes c p full :
  nodes_ok nodes → cpu_path nodes c p full.*1 → locked nodes full →
  column_run nodes c full.*1 → Forall (λ x, running_node c x.2) full.
Proof.
  intros Hok Hp Hl Hcol. apply list.Forall_forall. intros [i n] Hin. simpl.
  assert (nodes !! i = Some n) as Hn by exact (proj1 (list.Forall_forall _ _) Hl _ Hin).
  assert (i ∈ full.*1) as Hi by by apply (list_elem_of_fmap_2 fst) in Hin.
  apply col_run_running; [by eapply no_node|by apply (cp_range _ _ _ _ Hp i)|by eapply Hcol].
Qed.

(** The phases of the other CPUs only depend on their columns. *)
Lemma cpu_ok_column nodes nodes' c l cpu (ph : Phase) :
  (∀ i n', i ∈ l → nodes' !! i = Some n' →
     ∃ n, nodes !! i = Some n ∧ req n' c = req n c ∧ susp n' c = susp n c) →
  cpu_ok nodes c l cpu ph → cpu_ok nodes' c l cpu ph.
Proof.
  intros Hsame. assert (column_run nodes c l → column_run nodes' c l) as Hcol.
  { intros Hcol i n' Hi Hn'. destruct (Hsame i n' Hi Hn') as (n & Hn & Hr & Hs).
    destruct (Hcol i n Hi Hn). split; congruence. }
  destruct ph; simpl; naive_solver.
Qed.

(** The CPU [c] replaces its node and updates its locked ancestors. *)
Lemma tree_ok_update tree ph c cpu cpu' full anc' (ph' : Phase) :
  tree_ok tree ph → cpu_power_nodes tree !! c = Some cpu →
  cpu_path (non_cpu_power_nodes tree) c (cpu_parent cpu) full.*1 →
  locked (non_cpu_power_nodes tree) full → chain_upd c None full anc' →
  cpu_parent cpu' = cpu_parent cpu →
  cpu_ok (unlock anc' (non_cpu_power_nodes tree)) c full.*1 cpu' ph' →
  tree_ok (put_cpu_node (mkTree (unlock anc' (non_cpu_power_nodes tree)) (cpu_power_nodes tree))
             c cpu') (<[c := ph']> ph).
Proof.
  intros Hok Hc Hp Hl Hch Hpar Hcpu. destruct Hok as [Hcount Hidx Hnodes Hcpus]. split; simpl.
  - by rewrite length_insert.
  - done.
  - by eapply update_nodes_ok.
  - intros c' k Hk. destruct (decide (c = c')) as [<-|Hne].
    + rewrite fn_lookup_insert.
      rewrite list_lookup_insert_eq in Hk by by eapply lookup_lt_Some. simplify_eq.
      exists full.*1. split; [|done]. rewrite Hpar. by eapply update_cpu_path.
    + rewrite fn_lookup_insert_ne by done. rewrite list_lookup_insert_ne in Hk by done.
      destruct (Hcpus c' k Hk) as (l & Hl' & Hk'). exists l.
      split; [by eapply update_cpu_path|]. eapply cpu_ok_column; [|done].
      intros i n' Hi Hn'. eapply (update_column _ c); [done..|by apply not_eq_sym|done|done].
Qed.

(** The special case of a change to the CPU node only. *)
Lemma tree_ok_put tree ph c cpu cpu' (ph' : Phase) :
  tree_ok tree ph → cpu_power_nodes tree !! c = Some cpu →
  cpu_parent cpu' = cpu_parent cpu →
  (∀ l, cpu_path (non_cpu_power_nodes tree) c (cpu_parent cpu) l →
     cpu_ok (non_cpu_power_nodes tree) c l cpu (ph c) →
     cpu_ok (non_cpu_power_nodes tree) c l cpu' ph') →
  tree_ok (put_cpu_node tree c cpu') (<[c := ph']> ph).
Proof.
  intros Hok Hc Hpar Hcpu. destruct (tk_cpu _ _ Hok c cpu Hc) as (l & Hp & Hcok).
  destruct (path_locked _ _ _ (cp_path _ _ _ _ Hp)) as (full & <- & Hl).
  pose proof (tree_ok_update tree ph c cpu cpu' full full ph') as Hu.
  rewrite (unlock_locked full) in Hu by done. destruct tree. apply Hu; auto.
  apply chain_upd_refl. by eapply full_chain_ok; [apply Hok|..].
Qed.

(** The CPU nodes of the tree. *)
Lemma tree_ok_lookup tree ph c :
  tree_ok tree ph → c < CPU_DOMAIN_COUNT → ∃ cpu, cpu_power_nodes tree !! c = Some cpu.
Proof. intros Hok Hc. apply lookup_lt_is_Some. by rewrite (tk_count _ _ Hok). Qed.

(** After [set_running] the column of [c] is running. *)
Lemma unlock_column nodes c p full anc' :
  nodes_ok nodes → cpu_path nodes c p full.*1 → locked nodes full → chain_upd c None full anc' →
  Forall (λ x, running_node c x.2) anc' → column_run (unlock anc' nodes) c full.*1.
Proof.
  intros Hok Hp Hl Hch Hrun i n Hi Hn. eapply upd_lookup in Hn as [[_ Hin]|[Hni _]]; [|done..].
  by apply (proj1 (list.Forall_forall _ _) Hrun (i, n) Hin).
Qed.
End InvariantLemmas.

(** ** Requests *)
Section ValidRequests.
Context {S : Type} `{PlatformPowerStateLaws S} `{PsciDims}.
Implicit Types self : PsciCompositePowerState S.

(** What a checked suspend request gives: the states get shallower towards the
    root, the CPU level is not running, and it is a power down state if the
    request is a power down request. *)
Record request_ok self (pd : bool) (h : nat) (s0 : S) : Prop := {
  rq_length : length (states self) = STATE_COUNT;
  rq_antitone : antitone (states self);
  rq_level : find_highest_non_run_level self = Some h;
  rq_h : h ≤ MAX_POWER_LEVEL;
  rq_cpu : states self !! 0 = Some s0;
  rq_low : s0 ≠ RUN;
  rq_pd : pd = true → power_state_type s0 = PowerDown;
  rq_last : ∀ last, last_at_power_level self = Some last → last ≤ MAX_POWER_LEVEL;
}.

Lemma valid_request_ok self pd h :
  length (states self) = STATE_COUNT → is_valid_suspend_request self pd = true →
  find_highest_non_run_level self = Some h → ∃ s0, request_ok self pd h s0.
Proof.
  intros Hlen Hv Hh. unfold is_valid_suspend_request in Hv. rewrite Hh in Hv.
  destruct (is_sorted_by _ _) eqn:Hs; [|done]. apply sorted_antitone in Hs. simpl in Hv.
  destruct (find_highest_non_run_level_Some _ _ Hh) as [(sh & Hsh & Hne) _].
  pose proof (lookup_lt_Some _ _ _ Hsh) as Hlt. unfold STATE_COUNT in Hlen.
  destruct (lookup_lt_is_Some_2 (states self) 0) as [s0 Hs0]; [lia|].
  pose proof (Hs 0 h s0 sh (Nat.le_0_l _) Hs0 Hsh) as Hle.
  exists s0. split; [done|done|done|lia|done|..].
  - intros ->. by apply power_le_RUN in Hle.
  - intros ->. destruct (last_at_power_level self); [destruct (bool_decide _); [done|]|];
      (apply bool_decide_eq_true in Hv as [k [(sk & Hsk & Hp) _]%rposition_Some];
       apply bool_decide_eq_true in Hp;
       eapply type_PowerDown; [by apply (Hs 0 k s0 sk); [lia|..]|done]).
  - intros last Hlast. rewrite Hlast in Hv. destruct (bool_decide _) eqn:Hd; [done|].
    apply bool_decide_eq_false in Hd. lia.
Qed.

(** A standby request puts the CPU in a standby state. *)
Lemma valid_standby self h s0 :
  is_valid_suspend_request self false = true → request_ok self false h s0 →
  power_state_type s0 = StandbyOrRetention.
Proof.
  intros Hv Hrq. destruct (power_state_type s0) eqn:Ht; [|done|].
  - unfold is_valid_suspend_request in Hv. rewrite (rq_level _ _ _ _ Hrq) in Hv.
    destruct (negb _); [done|]. destruct (match last_at_power_level self with Some _ => _ | _ => _ end);
      [done|]. apply bool_decide_eq_true in Hv. eapply rposition_None in Hv; [|apply Hrq].
    by apply bool_decide_eq_false in Hv.
  - apply type_Run in Ht. by destruct (rq_low _ _ _ _ Hrq).
Qed.

Lemma power_down_level_Some self s0 :
  states self !! 0 = Some s0 → power_state_type s0 = PowerDown →
  is_Some (find_highest_power_down_level self).
Proof.
  intros Hs0 Hp. destruct (find_highest_power_down_level self) eqn:Hf; [done|].
  eapply rposition_None in Hf; [|done]. by apply bool_decide_eq_false in Hf.
Qed.

Lemma composite_OFF_states k s : states (composite_OFF (S := S)) !! k = Some s → s = OFF.
Proof. by intros [-> _]%lookup_replicate_1. Qed.

Lemma composite_OFF_antitone : antitone (states (composite_OFF (S := S))).
Proof.
  intros i j x y _ ->%composite_OFF_states ->%composite_OFF_states. apply power_le_refl.
Qed.
End ValidRequests.

(** ** The platform *)

(** A composite state with the state [s] at the CPU level. *)
Definition cpu_level_is {S} `{PsciDims} (c : PsciCompositePowerState S) (s : S) : Prop :=
  length (states c) = STATE_COUNT ∧ states c !! 0 = Some s.

(** What the service relies on: the callbacks return when they are called with a
    state they are meant for (preparing a power down and turning on a core may
    also not come back), a parsed power state is a valid suspend request, and a valid MPIDR has a core
    position below the number of cores. *)
Class PsciPlatformLaws `{ArmPsciTypes} {S W V : Type} `{!PlatformPowerStateInterface S}
    `{!PsciDims} (platform : PsciPlatform S W V) : Prop := {
  parse_ok : ∀ ps c, try_parse_power_state platform ps = Some c →
    length (states c) = STATE_COUNT ∧ is_valid_suspend_request c (is_power_down ps) = true;
  standby_returns : ∀ s, power_state_type s = StandbyOrRetention →
    returns (cpu_standby platform s);
  suspend_returns : ∀ c s, cpu_level_is c s → s ≠ RUN → returns (power_domain_suspend platform c);
  suspend_finish_returns : ∀ c s, cpu_level_is c s → s ≠ RUN →
    returns (power_domain_suspend_finish platform c);
  validate_returns : has_feature platform OS_INITIATED_MODE = true →
    ∀ c, returns (power_domain_validate_suspend platform c);
  off_early_returns : ∀ c, returns (power_domain_off_early platform c);
  off_returns : ∀ c, cpu_level_is c OFF → returns (power_domain_off platform c);
  power_down_safe : ∀ c, safe (power_domain_power_down platform c);
  on_safe : ∀ m, safe (power_domain_on platform m);
  on_finish_returns : ∀ c, cpu_level_is c OFF → returns (power_domain_on_finish platform c);
  entrypoint_returns : ∀ e, returns (is_valid_ns_entrypoint platform e);
  pending_returns : returns (has_pending_interrupts platform);
  position_ok : ∀ m, mpidr_is_valid platform m = true →
    core_position platform m < CPU_DOMAIN_COUNT;
  save_returns : Forall returns (save_extensions_before_powerdown platform);
  cpu_power_down_returns : ∀ l, returns (cpu_power_down platform l);
  abandon_returns : returns (cpu_handle_power_down_abandon platform);
  dsb_returns : returns (dsb_sy platform);
}.

Lemma with_spm_laws `{ArmPsciTypes} {S W V V' : Type} `{!PlatformPowerStateInterface S} `{!PsciDims}
    (platform : PsciPlatform S W V) (i : PsciSpmInterface V') :
  PsciPlatformLaws platform → PsciPlatformLaws (with_spm platform i).
Proof. intros []. by split. Qed.

(** What it relies on of the SPM of this core, which is up ([spm_ok true]) or off:
    while it is up, it answers a request and stays up, and it can be told that the
    core goes off or that a power down was abandoned. *)
Class SpmLaws `{ArmPsciTypes} {V : Type} (i : PsciSpmInterface V)
    (spm_ok : bool → V → Prop) : Prop := {
  forward_returns : ∀ f v, spm_ok true v →
    ∃ r v', forward_psci_request i f v = Ret r v' ∧ spm_ok true v';
  notify_off_returns : ∀ v, spm_ok true v →
    ∃ v', notify_cpu_off i v = Ret tt v' ∧ spm_ok false v';
  notify_abandon_returns : ∀ v, spm_ok true v →
    ∃ v', notify_cpu_suspend_powerdown_abandoned i v = Ret tt v' ∧ spm_ok true v';
}.

#[export] Hint Resolve standby_returns suspend_returns suspend_finish_returns off_early_returns
  off_returns power_down_safe on_safe on_finish_returns entrypoint_returns pending_returns
  cpu_power_down_returns abandon_returns dsb_returns : rfa.

Section HandlerWp.
Context `{ArmPsciTypes} {S W V : Type} `{!PlatformPowerStateInterface S}
  `{!PlatformPowerStateLaws S} `{!PsciDims}.
Context (platform : PsciPlatform S W V) `{!PsciPlatformLaws platform}.
Context (spm_ok : bool → V → Prop) `{!SpmLaws (psci_spm platform) spm_ok}.
Local Abbreviation St := (PsciState S EntryPoint W V).
Implicit Types st : St.
Implicit Types full anc : AncestorPowerDomains S.

(** Only the platform's state changes. *)
Definition same_psci (st st' : St) : Prop :=
  power_domain_tree st' = power_domain_tree st ∧
  (suspend_mode st', spm_state st') = (suspend_mode st, spm_state st).

Lemma same_psci_refl st : same_psci st st.
Proof. done. Qed.

Lemma wp_plat {A} (m : M W A) (Q : A → St → Prop) Hq st :
  returns m → (∀ a st', same_psci st st' → Q a st') → wp (plat m) Q Hq st.
Proof.
  intros Hm HQ. unfold wp, plat. destruct (Hm (world st)) as (a & w & ->). by apply HQ.
Qed.

Lemma wp_plat_safe {A} (m : M W A) (Q : A → St → Prop) (Hq : St → Prop) st :
  safe m → (∀ a st', same_psci st st' → Q a st') → (∀ st', same_psci st st' → Hq st') →
  wp (plat m) Q Hq st.
Proof.
  intros Hm HQ HH. unfold wp, plat. specialize (Hm (world st)).
  destruct (m (world st)); [by apply HQ|by apply HH|done].
Qed.

(** Only the SPM's state changes. *)
Definition same_tree (st st' : St) : Prop :=
  power_domain_tree st' = power_domain_tree st ∧ suspend_mode st' = suspend_mode st.

Lemma wp_spm {A} (m : M V A) (b : bool) (Q : A → St → Prop) Hq st :
  (∃ a v, m (spm_state st) = Ret a v ∧ spm_ok b v) →
  (∀ a st', same_tree st st' → spm_ok b (spm_state st') → Q a st') → wp (spm m) Q Hq st.
Proof. intros (a & v & Hm & Hv) HQ. unfold wp, spm. rewrite Hm. by apply HQ. Qed.

Lemma wp_forward_to_spm f (Q : unit → St → Prop) Hq st :
  spm_ok true (spm_state st) →
  (∀ st', same_tree st st' → spm_ok true (spm_state st') → Q tt st') →
  wp (forward_to_spm platform f) Q Hq st.
Proof.
  intros Hs HQ. apply wp_bind, (wp_spm _ true); [by apply forward_returns|].
  intros r st' Ht Hs'. by apply HQ.
Qed.

Lemma wp_lock_cpu c cpu (Q : CpuPowerNode S EntryPoint → St → Prop) Hq st :
  cpu_power_nodes (power_domain_tree st) !! c = Some cpu → Q cpu st → wp (lock_cpu c) Q Hq st.
Proof.
  intros Hc HQ. apply wp_bind, wp_get, (wp_lift _ _ _ _ cpu); [|done]. by apply arr_get_Done.
Qed.

Lemma wp_drop_cpu c cpu (Q : unit → St → Prop) Hq st :
  Q tt (mkPsci (put_cpu_node (power_domain_tree st) c cpu) (suspend_mode st) (world st) (spm_state st)) →
  wp (drop_cpu c cpu) Q Hq st.
Proof. done. Qed.

Lemma wp_is_in_osi_mode (Q : bool → St → Prop) Hq st :
  (∀ b, (b = true → has_feature platform OS_INITIATED_MODE = true ∧ suspend_mode st = OsInitiated) →
     (b = false → has_feature platform OS_INITIATED_MODE = true →
        suspend_mode st = PlatformCoordinated) →
     (∀ st', suspend_mode st' = suspend_mode st → is_in_osi_mode platform st' = Ret b st') →
     Q b st) →
  wp (is_in_osi_mode platform) Q Hq st.
Proof.
  intros HQ. unfold wp, is_in_osi_mode. destruct (has_feature platform OS_INITIATED_MODE) eqn:Hf; simpl.
  - cbn. apply HQ.
    + by intros ?%bool_decide_eq_true.
    + intros Hb _. apply bool_decide_eq_false in Hb. by destruct (suspend_mode st).
    + intros st' Hs. unfold is_in_osi_mode. by rewrite Hf, <-Hs.
  - apply HQ; [done|done|]. intros st' _. unfold is_in_osi_mode. by rewrite Hf.
Qed.

(** What the second read of the mode says. *)
Lemma osi_mode_eq st : ∃ osi, is_in_osi_mode platform st = Ret osi st ∧
  (osi = true → has_feature platform OS_INITIATED_MODE = true ∧ suspend_mode st = OsInitiated).
Proof.
  unfold is_in_osi_mode. destruct (has_feature platform OS_INITIATED_MODE); simpl; [|by exists false].
  eexists. split; [done|]. by intros ?%bool_decide_eq_true.
Qed.

Lemma wp_with_ancestors {T} cpu level f (Q : T * CpuPowerNode S EntryPoint → St → Prop) Hq st anc :
  new_with_max_level (cpu_parent cpu) level
    (non_cpu_power_nodes (power_domain_tree st)) = Done anc →
  wp (f cpu anc) (λ r st', Q (r.1.1, r.1.2)
        (mkPsci (mkTree (unlock r.2 (non_cpu_power_nodes (power_domain_tree st')))
                   (cpu_power_nodes (power_domain_tree st')))
           (suspend_mode st') (world st') (spm_state st'))) Hq st →
  wp (with_ancestors_locked_to_max_level cpu level f) Q Hq st.
Proof.
  intros Hlock Hf. apply wp_bind, wp_get, wp_bind, (wp_lift _ _ _ _ anc); [done|].
  apply wp_bind. eapply wp_mono; [done| |done]. by intros [[t cpu'] anc'] st'.
Qed.

(** The setting of a critical section of the CPU [c]. *)
Lemma tree_ok_open st ph c :
  tree_ok (power_domain_tree st) ph → c < CPU_DOMAIN_COUNT →
  ∃ cpu full, cpu_power_nodes (power_domain_tree st) !! c = Some cpu ∧
    cpu_path (non_cpu_power_nodes (power_domain_tree st)) c (cpu_parent cpu) full.*1 ∧
    cpu_ok (non_cpu_power_nodes (power_domain_tree st)) c full.*1 cpu (ph c) ∧
    locked (non_cpu_power_nodes (power_domain_tree st)) full ∧
    chain_ok c None full ∧ length full = MAX_POWER_LEVEL ∧
    ∀ level, new_with_max_level (cpu_parent cpu) level
      (non_cpu_power_nodes (power_domain_tree st)) = Done (take level full).
Proof.
  intros Hok Hc. destruct (tree_ok_lookup _ _ _ Hok Hc) as [cpu Hcpu].
  destruct (tk_cpu _ _ Hok _ _ Hcpu) as (l & Hp & Hcok).
  destruct (lock_Done _ _ _ _ Hp) as (full & <- & Hl & Hlen & Hlock).
  exists cpu, full. do 4 (split; [done|]). split; [|done].
  by eapply full_chain_ok; [apply Hok|..].
Qed.

(** Nothing was written: the tree is the one before. *)
Lemma put_same st c cpu anc :
  cpu_power_nodes (power_domain_tree st) !! c = Some cpu →
  locked (non_cpu_power_nodes (power_domain_tree st)) anc →
  put_cpu_node (mkTree (unlock anc (non_cpu_power_nodes (power_domain_tree st)))
                  (cpu_power_nodes (power_domain_tree st))) c cpu = power_domain_tree st.
Proof.
  intros Hc Hl. unfold put_cpu_node. simpl. rewrite unlock_locked by done.
  rewrite list_insert_id by done. by destruct (power_domain_tree st).
Qed.

Lemma locked_take nodes k anc : locked nodes anc → locked nodes (take k anc).
Proof. apply Forall_take. Qed.

(** ** Suspending *)

(** The coordination of a request, in either mode, with the ancestors locked up to
    [level], not below a last level that is checked: an error leaves the nodes
    alone, success is an update of the ancestors of the CPU. *)
Lemma suspend_coordinate_wp (osi : bool) c h comp pd s0 cpu full level st :
  is_in_osi_mode platform st = Ret osi st →
  (osi = true → has_feature platform OS_INITIATED_MODE = true) →
  request_ok comp pd h s0 → chain_ok c None full → Forall (λ x, running_node c x.2) full →
  length full = MAX_POWER_LEVEL → (∀ i n j, full !! 0 = Some (i, n) → ¬ in_children n j) →
  level ≤ MAX_POWER_LEVEL →
  (osi = true → ∀ last, last_at_power_level comp = Some last → last ≤ level) →
  wp (suspend_coordinate platform c h comp cpu (take level full)) (λ r st',
    same_psci st st' ∧
    match r with
    | Err _ => True
    | Ok (comp', cpu', anc') =>
        length (states comp') = STATE_COUNT ∧ states comp' !! 0 = Some s0 ∧
        cpu' = cpu_set_local_state cpu s0 ∧
        chain_upd c None full (anc' ++ drop level full)
    end) (λ _, False) st.
Proof.
  intros Hmode Hosi [Hlen Ha Hlev Hh Hs0 Hlow Hpd Hlast] Hch Hrun Hfull Hleaf Hle Hl.
  unfold suspend_coordinate. apply wp_bind. unfold wp at 1. rewrite Hmode.
  pose proof (chain_ok_take _ _ level _ Hch) as Hch'.
  pose proof (Forall_take _ level _ Hrun) as Hrun'.
  assert (length (take level full) = level) as Hll by (rewrite length_take; lia).
  assert (∀ anc', chain_upd c None (take level full) anc' →
    chain_upd c None full (anc' ++ drop level full)) as Hext.
  { intros anc' Hupd. rewrite <-(take_drop level full) at 1.
    eapply (chain_upd_extend c None None); [done|by rewrite take_drop|done|done|by rewrite take_drop]. }
  unfold STATE_COUNT in Hlen. destruct osi.
  - destruct (resolved_Done comp h) as (s & Hs & Hrs); [lia|].
    apply wp_bind. eapply wp_lift; [done|].
    destruct (validate_spec (mkComposite (take h (states comp) ++
      replicate (length (states comp) - h) s) (last_at_power_level comp)) c h (take level full))
      as (r & Hr & Hallow); [done|..].
    { simpl. rewrite length_app, length_take, length_replicate. lia. }
    { simpl. rewrite Hll. by apply Hl. }
    apply wp_try. eapply wp_lift; [done|]. destruct r as [[]|e]; [|done].
    apply wp_try, wp_plat; [by apply validate_returns, Hosi|]. intros [[]|e] st' Hsame; [|done].
    assert (∀ i n j, take level full !! 0 = Some (i, n) → ¬ in_children n j) as Hleaf'.
    { intros i n j Hi. apply lookup_take_Some in Hi as [Hi _]. by eapply Hleaf. }
    destruct (apply_osi_upd comp h cpu (take level full) c _ Hch' Hrun' ltac:(lia) Hlen Hh Ha Hleaf'
      Hrs (Hallow eq_refl)) as (s0' & anc' & Hs0' & Happ & _ & Hupd).
    simplify_eq. apply wp_bind. eapply wp_lift; [done|]. apply wp_ret. do 3 (split; [done|]). eauto.
  - destruct (coordinate_state_upd comp c (take level full)) as (anc' & Hco & Hupd & _ & _); [done|done|done|lia|].
    pose proof (chain_upd_length _ _ _ _ Hupd) as Hl'.
    apply wp_bind. eapply wp_lift; [done|]. destruct (states comp) as [|s1 sts] eqn:Hst; [done|].
    apply wp_bind. eapply wp_lift; [by apply arr_get_Done|]. apply wp_ret. split; [done|].
    simplify_eq/=. rewrite length_app, length_fmap, Hl', Hll, length_drop.
    unfold STATE_COUNT. split; [lia|]. eauto.
Qed.

(** Forwarding the request and preparing the CPU and the platform. *)
Lemma suspend_prepare_wp ps entry comp (pd : bool) s0 cpu st :
  cpu_level_is comp s0 → s0 ≠ RUN → (pd = true → power_state_type s0 = PowerDown) →
  cpu_entry_point cpu = None → spm_ok true (spm_state st) →
  wp (suspend_prepare platform ps entry comp pd cpu) (λ cpu' st',
    same_tree st st' ∧ spm_ok true (spm_state st') ∧
    cpu' = mkCpu (cpu_parent cpu) (cpu_affinity_info cpu) (cpu_local_state cpu)
             (if pd then Some entry else None)) (λ _, False) st.
Proof.
  intros Hs Hlow Hpd Hep Hspm. unfold suspend_prepare. apply wp_bind. destruct pd.
  - apply wp_bind, wp_forward_to_spm; [done|]. intros st1 Hst1 Hspm1. apply wp_bind.
    eapply wp_lift; [unfold set_entry_point; by rewrite Hep|].
    destruct (power_down_level_Some comp s0 (proj2 Hs) (Hpd eq_refl)) as [level Hlevel].
    apply wp_bind. eapply wp_lift; [by rewrite Hlevel|].
    apply wp_bind, wp_plat; [eauto with rfa|]. intros _ st2 [Ht2 Hm2]. apply wp_ret.
    apply wp_bind, wp_plat; [eauto with rfa|]. intros _ st3 [Ht3 Hm3]. apply wp_ret.
    injection Hm2 as Hm2 Hv2. injection Hm3 as Hm3 Hv3. rewrite Hv3, Hv2.
    unfold same_tree in *. split; [|done]. destruct Hst1. split; congruence.
  - apply wp_ret, wp_bind, wp_plat; [eauto with rfa|]. intros _ st1 [Ht1 Hm1]. apply wp_ret.
    injection Hm1 as Hm1 Hv1. rewrite Hv1. split; [done|]. split; [done|].
    destruct cpu. simpl in *. by subst.
Qed.

(** The node of the CPU [c] holds the entry point [entry]. *)
Definition entry_stored st (c : nat) (entry : EntryPoint) : Prop :=
  ∃ cpu, cpu_power_nodes (power_domain_tree st) !! c = Some cpu ∧ cpu_entry_point cpu = Some entry.

Lemma put_entry_stored tree c (cpu cpu0 : CpuPowerNode S EntryPoint) (entry : EntryPoint) mode (w : W) (v : V) :
  cpu_power_nodes tree !! c = Some cpu0 → cpu_entry_point cpu = Some entry →
  entry_stored (mkPsci (put_cpu_node tree c cpu) mode w v) c entry.
Proof.
  intros Hc He. exists cpu. split; [|done]. simpl. apply list_lookup_insert_eq.
  by eapply lookup_lt_Some.
Qed.

(** The suspend mode has become OS-initiated after the first read said that it is
    not, and the last level of the request is above the ancestors that are locked
    for that. *)
Definition mode_race (osi : bool) (h : nat) (comp : PsciCompositePowerState S) st : Prop :=
  osi = false ∧ has_feature platform OS_INITIATED_MODE = true ∧ suspend_mode st = OsInitiated ∧
  ∃ last, last_at_power_level comp = Some last ∧ h < last.

(** The outcome of the locked part: either the tree is left as it was or the CPU is
    suspended in the requested state. *)
Definition suspend_locked_post c entry (pd : bool) ph st (r : result (bool * PsciCompositePowerState S) ErrorCode) st' : Prop :=
  suspend_mode st' = suspend_mode st ∧
  match r with
  | Ok (false, comp') =>
      length (states comp') = STATE_COUNT ∧
      tree_ok (power_domain_tree st') (<[c := PhSuspended pd]> ph) ∧
      (pd = true → entry_stored st' c entry)
  | _ => power_domain_tree st' = power_domain_tree st
  end.

Lemma suspend_locked_wp osi c ps entry h comp (pd : bool) s0 cpu st ph :
  tree_ok (power_domain_tree st) ph → c < CPU_DOMAIN_COUNT → ph c = PhRunning →
  request_ok comp pd h s0 → cpu_power_nodes (power_domain_tree st) !! c = Some cpu →
  spm_ok true (spm_state st) → ¬ mode_race osi h comp st →
  wp (suspend_locked platform c ps entry h comp pd (lock_level osi h) cpu) (λ r st',
    suspend_locked_post c entry pd ph st r st' ∧ spm_ok true (spm_state st')) (λ _, False) st.
Proof.
  intros Hok Hc Hph Hrq Hcpu' Hspm Hrace. destruct (tree_ok_open st ph c Hok Hc)
    as (cpu0 & full & Hcpu & Hp & Hcok & Hl & Hch & Hlen & Hlock). simplify_eq.
  rewrite Hph in Hcok. destruct Hcok as (Haff & Hloc & Hep & Hcol).
  pose proof (full_running _ _ _ _ (tk_nodes _ _ Hok) Hp Hl Hcol) as Hrun.
  set (level := lock_level osi h) in *.
  assert (level ≤ MAX_POWER_LEVEL) as Hle by (unfold level; destruct osi; [done|apply Hrq]).
  apply wp_bind. eapply wp_with_ancestors; [apply Hlock|].
  apply wp_bind, wp_plat; [eauto with rfa|]. intros pending st1 [Htree [= Hm Hv]].
  destruct pending.
  { apply wp_ret, wp_bind, wp_drop_cpu, wp_ret. unfold suspend_locked_post. simpl.
    rewrite Htree, Hv. split; [|done]. split; [done|]. apply put_same; [done|by apply locked_take]. }
  destruct (osi_mode_eq st1) as (osi' & Hmode & Hosi).
  apply wp_bind. eapply wp_mono; [apply (suspend_coordinate_wp osi' c h comp pd s0 cpu full)|..|done];
    [done|by intros Ho; apply Hosi|done..| | | |].
  { intros i n j Hi. eapply (cp_leaf _ _ _ _ Hp).
    destruct full as [|x full]; [done|]. simpl in Hi. injection Hi as ->.
    apply locked_cons in Hl as [Hn _]. by destruct (cp_path _ _ _ _ Hp) as [[= ->] _]. }
  { done. }
  { intros Ho last Hlast. destruct (Hosi Ho) as [Hf Hmo]. unfold level, lock_level in *.
    destruct osi; [by apply (rq_last _ _ _ _ Hrq)|]. apply Nat.nlt_ge. intros Hlt.
    apply Hrace. rewrite Hm in Hmo. unfold mode_race. eauto 8. }
  intros [[[comp' cpu'] anc']|e] st2 [[Htree2 [= Hm2 Hv2]] Hpost].
  - destruct Hpost as (Hlen' & Hs0' & -> & Hupd).
    apply wp_bind. eapply wp_mono; [by apply (suspend_prepare_wp ps entry comp' pd s0);
      [|apply Hrq|apply Hrq| |rewrite Hv2, Hv]|..|done].
    intros cpu2 st3 ([Htree3 Hm3] & Hspm3 & ->). apply wp_ret, wp_bind, wp_drop_cpu, wp_ret.
    unfold suspend_locked_post. simpl. rewrite Htree3, Htree2, Htree. split; [|done].
    split; [congruence|]. split; [done|].
    replace (unlock anc' (non_cpu_power_nodes (power_domain_tree st)))
      with (unlock (anc' ++ drop level full) (non_cpu_power_nodes (power_domain_tree st))).
    2: { rewrite unlock_app. f_equal. apply unlock_locked. by apply Forall_drop. }
    split; [|intros ->; by eapply put_entry_stored].
    eapply tree_ok_update; [done..|]. simpl. split; [done|]. split; [apply Hrq|].
    destruct pd; [|done]. split; [by apply Hrq|done].
  - apply wp_ret, wp_bind, wp_drop_cpu, wp_ret. unfold suspend_locked_post. simpl.
    rewrite Htree2, Htree, Hv2, Hv. split; [|done].
    split; [congruence|]. apply put_same; [done|by apply locked_take].
Qed.

(** In a race the core panics, unless an interrupt is pending and the call is over. *)
Lemma suspend_locked_race c ps entry h comp (pd : bool) cpu st ph :
  tree_ok (power_domain_tree st) ph → c < CPU_DOMAIN_COUNT →
  cpu_power_nodes (power_domain_tree st) !! c = Some cpu →
  h < length (states comp) → mode_race false h comp st →
  ∃ pending w, has_pending_interrupts platform (world st) = Ret pending w ∧
    suspend_locked platform c ps entry h comp pd h cpu st =
      if pending : bool then Ret (Ok (true, comp)) (mkPsci (power_domain_tree st) (suspend_mode st) w (spm_state st))
      else Crash.
Proof.
  intros Hok Hc Hcpu' Hh (_ & Hf & Hm & last & Hlast & Hlt).
  destruct (tree_ok_open st ph c Hok Hc)
    as (cpu0 & full & Hcpu & Hp & Hcok & Hl & Hch & Hlen & Hlock). simplify_eq.
  destruct (pending_returns (world st)) as (pending & w & Hpend). exists pending, w. split; [done|].
  unfold suspend_locked, with_ancestors_locked_to_max_level, plat.
  cbv [mbind M_bind get lift mret M_ret]. rewrite Hlock, Hpend.
  destruct pending; cbn -[unlock put_cpu_node].
  { do 2 f_equal. exact (put_same st c cpu (take h full) Hcpu' (locked_take _ _ _ Hl)). }
  unfold suspend_coordinate, is_in_osi_mode. rewrite Hf. cbv [mbind M_bind mret M_ret get negb lift].
  simpl. rewrite Hm, bool_decide_true by done.
  destruct (lookup_lt_is_Some_2 (states comp) h Hh) as [s Hs]. apply arr_get_Done in Hs.
  unfold create_highest_affected_level_resolved_state. rewrite Hs.
  cbn. unfold validate_state_coordination. cbn. rewrite Hlast.
  rewrite is_last_out_of_range; [done|]. rewrite length_take. lia.
Qed.

Lemma set_local_states_Done comp (cpu : CpuPowerNode S EntryPoint) anc :
  length (states comp) = STATE_COUNT →
  ∃ comp', set_local_states_from_nodes comp cpu anc = Done comp' ∧
    cpu_level_is comp' (cpu_local_state cpu).
Proof.
  unfold STATE_COUNT. intros Hlen. unfold set_local_states_from_nodes, CPU_POWER_LEVEL, arr_set.
  rewrite decide_True by lia. cbn. eexists. split; [done|].
  destruct (states comp) as [|x sts]; [simpl in Hlen; lia|]. split; [|done].
  unfold STATE_COUNT. rewrite <-Hlen. simpl. rewrite drop_0. f_equal. clear Hlen.
  revert sts. induction anc as [|[i n] anc IH]; intros [|y sts]; simpl; auto.
Qed.

(** Marking [c] as running, the end of every wake-up. *)
Lemma wake_ok st ph c cpu cpu' full :
  tree_ok (power_domain_tree st) ph → cpu_power_nodes (power_domain_tree st) !! c = Some cpu →
  cpu_path (non_cpu_power_nodes (power_domain_tree st)) c (cpu_parent cpu) full.*1 →
  locked (non_cpu_power_nodes (power_domain_tree st)) full → chain_ok c None full →
  cpu_parent cpu' = cpu_parent cpu → cpu_affinity_info cpu' = AffOn →
  cpu_local_state cpu' = RUN → cpu_entry_point cpu' = None →
  ∃ anc', set_running full c = Done anc' ∧
    tree_ok (put_cpu_node (mkTree (unlock anc' (non_cpu_power_nodes (power_domain_tree st)))
               (cpu_power_nodes (power_domain_tree st))) c cpu') (<[c := PhRunning]> ph).
Proof.
  intros Hok Hcpu Hp Hl Hch Hpar Haff Hloc Hep.
  destruct (set_running_upd c full Hch) as (anc' & Hrun & Hupd & Hall). exists anc'.
  split; [done|]. eapply tree_ok_update; [done..|]. simpl. do 3 (split; [done|]).
  eapply unlock_column; [apply Hok|done..].
Qed.

(** The second critical section of [cpu_suspend_start]. *)
Lemma suspend_resume_wp c comp pd st ph :
  tree_ok (power_domain_tree st) ph → c < CPU_DOMAIN_COUNT → ph c = PhSuspended pd →
  length (states comp) = STATE_COUNT → spm_ok true (spm_state st) →
  wp (suspend_resume platform c comp pd) (λ _ st',
    suspend_mode st' = suspend_mode st ∧ spm_ok true (spm_state st') ∧
    tree_ok (power_domain_tree st') (<[c := PhRunning]> ph)) (λ _, False) st.
Proof.
  intros Hok Hc Hph Hcomp Hspm. destruct (tree_ok_open st ph c Hok Hc)
    as (cpu & full & Hcpu & Hp & Hcok & Hl & Hch & Hlen & Hlock).
  rewrite Hph in Hcok. destruct Hcok as (Haff & Hloc & Hep).
  apply wp_bind, (wp_lock_cpu c cpu); [done|].
  apply wp_bind. eapply wp_with_ancestors; [apply Hlock|]. rewrite take_ge by lia.
  destruct (set_local_states_Done comp cpu full Hcomp) as (comp' & Hcomp' & Hlev).
  apply wp_bind. eapply wp_lift; [done|].
  apply wp_bind, wp_plat; [eauto with rfa|]. intros _ st1 [Ht1 [= Hm1 Hv1]].
  set (cpu' := mkCpu (cpu_parent cpu) AffOn RUN None : CpuPowerNode S EntryPoint).
  destruct (wake_ok st ph c cpu cpu' full) as (anc' & Hrun & Hok'); [done..|].
  apply wp_bind. destruct pd.
  - apply wp_bind, (wp_spm _ true).
    { destruct (notify_abandon_returns (spm_state st1)) as (v & Hv & ?); [by rewrite Hv1|eauto]. }
    intros _ st2 [Ht2 Hm2] Hspm2. apply wp_ret.
    apply wp_bind. eapply wp_lift; [done|]. apply wp_ret, wp_drop_cpu. simpl.
    rewrite Ht2, Ht1. split; [congruence|]. split; [done|].
    unfold cpu_set_local_state. simpl. by rewrite Haff.
  - apply wp_ret, wp_bind. eapply wp_lift; [done|]. apply wp_ret, wp_drop_cpu. simpl.
    rewrite Ht1, Hv1. split; [congruence|]. split; [done|].
    unfold cpu_set_local_state. by rewrite Haff, Hep.
Qed.

(** ** Turning off *)
Lemma off_enter_wp c st ph :
  tree_ok (power_domain_tree st) ph → c < CPU_DOMAIN_COUNT → ph c = PhRunning →
  spm_ok true (spm_state st) →
  wp (off_enter platform c) (λ r st',
    suspend_mode st' = suspend_mode st ∧
    match r with
    | Ok _ => tree_ok (power_domain_tree st') (<[c := PhOff]> ph) ∧ spm_ok false (spm_state st')
    | Err _ => power_domain_tree st' = power_domain_tree st ∧ spm_ok true (spm_state st')
    end) (λ _, False) st.
Proof.
  intros Hok Hc Hph Hspm. destruct (tree_ok_open st ph c Hok Hc)
    as (cpu & full & Hcpu & Hp & Hcok & Hl & Hch & Hlen & Hlock).
  rewrite Hph in Hcok. destruct Hcok as (Haff & Hloc & Hep & Hcol).
  pose proof (full_running _ _ _ _ (tk_nodes _ _ Hok) Hp Hl Hcol) as Hrun.
  apply wp_bind, (wp_lock_cpu c cpu); [done|].
  apply wp_try, wp_plat; [eauto with rfa|]. intros [[]|e] st1 [Ht1 [= Hm1 Hv1]]; [|by rewrite Hv1].
  apply wp_bind. eapply wp_with_ancestors; [rewrite Ht1; apply Hlock|]. rewrite take_ge by lia.
  apply wp_bind, wp_forward_to_spm; [by rewrite Hv1|]. intros st2 [Ht2 Hm2] Hspm2.
  apply wp_bind, (wp_spm _ false).
  { destruct (notify_off_returns (spm_state st2)) as (v & Hv & ?); [done|eauto]. }
  intros _ st3 [Ht3 Hm3] Hspm3.
  destruct (coordinate_state_upd composite_OFF c full) as (anc' & Hco & Hupd & _ & _);
    [done|done|apply composite_OFF_antitone| |].
  { simpl. rewrite length_replicate. unfold STATE_COUNT. lia. }
  pose proof (chain_upd_length _ _ _ _ Hupd) as Hlen'.
  match type of Hco with _ = Done (?c, _) => set (comp' := c) in *; assert (cpu_level_is comp' OFF) as Hlev end.
  { unfold cpu_level_is, comp'. simpl. unfold STATE_COUNT. rewrite Nat.add_1_r. simpl.
    rewrite length_app, length_fmap, length_drop, length_replicate. split; [lia|done]. }
  apply wp_bind. eapply wp_lift; [done|].
  destruct (power_down_level_Some comp' OFF (proj2 Hlev) type_OFF) as [level Hlevel].
  apply wp_bind. eapply wp_lift; [by rewrite Hlevel|].
  apply wp_bind, wp_plat; [eauto with rfa|]. intros _ st4 [Ht4 [= Hm4 Hv4]].
  apply wp_bind, wp_plat; [eauto with rfa|]. intros _ st5 [Ht5 [= Hm5 Hv5]].
  apply wp_ret, wp_bind, wp_drop_cpu, wp_ret. simpl. rewrite Ht5, Ht4, Ht3, Ht2, Ht1, Hv5, Hv4.
  split; [congruence|]. split; [|done]. by eapply tree_ok_update.
Qed.

(** ** Turning on *)
Lemma cpu_index_ok m :
  CPU_DOMAIN_COUNT ≤ NODE_INDEX_MAX →
  ∃ i, try_get_cpu_index_by_mpidr platform m = Done i ∧ ∀ c, i = Some c → c < CPU_DOMAIN_COUNT.
Proof.
  intros Hidx. unfold try_get_cpu_index_by_mpidr.
  destruct (mpidr_is_valid platform m) eqn:Hm; [|by exists None].
  pose proof (position_ok m Hm). rewrite decide_True by lia. eexists. split; [done|]. naive_solver.
Qed.

Lemma cpu_on_wp m entry st ph :
  tree_ok (power_domain_tree st) ph →
  wp (cpu_on platform m entry) (λ r st',
    (suspend_mode st', spm_state st') = (suspend_mode st, spm_state st) ∧
    match r with
    | Ok _ => ∃ c, try_get_cpu_index_by_mpidr platform m = Done (Some c) ∧ ph c = PhOff ∧
        tree_ok (power_domain_tree st') (<[c := PhOnPending]> ph) ∧ entry_stored st' c entry
    | Err e => power_domain_tree st' = power_domain_tree st ∧
        (try_get_cpu_index_by_mpidr platform m = Done None ∧ e = InvalidParameters ∨
         e = InvalidAddress ∨
         ∃ c, try_get_cpu_index_by_mpidr platform m = Done (Some c) ∧
           match ph c with
           | PhOff => True
           | PhOnPending => e = OnPending
           | _ => e = AlreadyOn
           end)
    end) (same_psci st) st.
Proof.
  intros Hok. destruct (cpu_index_ok m (tk_index _ _ Hok)) as (i & Hi & Hlt).
  apply wp_bind. eapply wp_lift; [done|]. apply wp_try, wp_ret. destruct i as [c|]; [|cbn; naive_solver]. simpl.
  apply wp_bind, wp_plat; [eauto with rfa|]. intros valid st1 [Ht1 Hm1].
  destruct valid; simpl; [|apply wp_ret; split; [exact Hm1|]; auto]. destruct (tree_ok_lookup _ _ c Hok (Hlt c eq_refl)) as [cpu Hcpu].
  apply wp_bind, (wp_lock_cpu c cpu); [by rewrite Ht1|].
  destruct (tk_cpu _ _ Hok _ _ Hcpu) as (l & Hp & Hcok).
  destruct (cpu_affinity_info cpu) eqn:Haff.
  1, 3: apply wp_ret; do 2 (split; [done|]); right; right; exists c; split; [done|];
    destruct (ph c); simpl in Hcok; try done; destruct Hcok; congruence.
  assert (ph c = PhOff) as Hph.
  { destruct (ph c); simpl in Hcok; try done; destruct Hcok; congruence. }
  rewrite Hph in Hcok. destruct Hcok as (_ & Hloc & Hep).
  apply wp_bind, wp_plat_safe; [eauto with rfa| |].
  2: { intros st2 [Ht2 Hm2]. split; congruence. }
  intros [[]|e] st2 [Ht2 Hm2].
  - apply wp_bind. eapply wp_lift; [unfold set_entry_point; simpl; by rewrite Hep|].
    apply wp_bind, wp_drop_cpu, wp_ret. simpl. rewrite Ht2, Ht1. split; [congruence|].
    exists c. split; [done|]. split; [done|]. split; [|by eapply put_entry_stored].
    eapply tree_ok_put; [done..|]. simpl. eauto.
  - apply wp_bind, wp_drop_cpu, wp_ret. simpl. rewrite Ht2, Ht1. split; [congruence|].
    split; [|right; right; exists c; by rewrite Hph].
    unfold put_cpu_node. rewrite list_insert_id; [by destruct (power_domain_tree st)|].
    rewrite Hcpu. destruct cpu; simpl in *; by subst.
Qed.

(** ** Booting *)
Lemma handle_cpu_boot_wp c cpu st ph :
  tree_ok (power_domain_tree st) ph → c < CPU_DOMAIN_COUNT →
  ph c = PhOnPending ∨ ph c = PhSuspended true →
  cpu_power_nodes (power_domain_tree st) !! c = Some cpu →
  wp (handle_cpu_boot platform c) (λ r st',
    (suspend_mode st', spm_state st') = (suspend_mode st, spm_state st) ∧
    tree_ok (power_domain_tree st') (<[c := PhRunning]> ph) ∧
    ∃ entry, cpu_entry_point cpu = Some entry ∧
      r = match ph c with PhOnPending => CpuOn entry | _ => SuspendFinished entry end)
    (λ _, False) st.
Proof.
  intros Hok Hc Hph Hcpu'. destruct (tree_ok_open st ph c Hok Hc)
    as (cpu0 & full & Hcpu & Hp & Hcok & Hl & Hch & Hlen & Hlock). simplify_eq.
  assert (∃ entry, cpu_entry_point cpu = Some entry) as [entry Hep].
  { destruct Hph as [Hph|Hph]; rewrite Hph in Hcok; simpl in Hcok; naive_solver. }
  unfold handle_cpu_boot, cpu_index. apply wp_bind.
  rewrite decide_True by (pose proof (tk_index _ _ Hok); lia). eapply wp_lift; [done|].
  apply wp_bind, (wp_lock_cpu c cpu); [done|].
  rewrite decide_False by (destruct Hph as [Hph|Hph]; rewrite Hph in Hcok; destruct Hcok as [-> _]; done).
  apply wp_bind. eapply wp_with_ancestors; [apply Hlock|]. rewrite take_ge by lia.
  destruct (set_local_states_Done composite_RUN cpu full) as (comp' & Hcomp' & Hlev).
  { by apply length_replicate. }
  apply wp_bind. eapply wp_lift; [done|]. apply wp_bind.
  set (cpu' := mkCpu (cpu_parent cpu) AffOn RUN None : CpuPowerNode S EntryPoint).
  destruct (wake_ok st ph c cpu cpu' full) as (anc' & Hrun & Hok'); [done..|].
  destruct Hph as [Hph|Hph]; rewrite Hph in Hcok |- *; simpl in Hcok.
  - destruct Hcok as (Haff & Hloc & _). rewrite decide_True by done. rewrite Hloc in Hlev.
    apply wp_bind, wp_plat; [eauto with rfa|]. intros _ st1 [Ht1 Hm1]. apply wp_ret, wp_bind. eapply wp_lift; [done|]. apply wp_ret.
    simpl. apply wp_bind, wp_drop_cpu, wp_bind. eapply wp_lift; [by rewrite Hep|]. apply wp_ret.
    simpl. rewrite Ht1. split; [done|]. split; [done|]. eauto.
  - destruct Hcok as (Haff & Hloc & Hpd & _). rewrite decide_False by congruence.
    apply wp_bind. eapply wp_lift; [by rewrite bool_decide_true|].
    apply wp_bind. eapply wp_lift; [by apply arr_get_Done, Hlev|].
    apply wp_bind. eapply wp_lift; [by rewrite bool_decide_true|].
    apply wp_bind, wp_plat; [eauto with rfa|]. intros _ st1 [Ht1 Hm1]. apply wp_ret, wp_bind.
    eapply wp_lift; [done|]. apply wp_ret. simpl.
    apply wp_bind, wp_drop_cpu, wp_bind. eapply wp_lift; [by rewrite Hep|]. apply wp_ret.
    simpl. rewrite Ht1, Haff. split; [done|]. split; [done|]. eauto.
Qed.
End HandlerWp.
