(* ===== verification/TreeNew.v ===== *)
(** * The construction of the power domain tree

    [PowerDomainTree::new] of [src/services/psci/power_domain_tree.rs]: whenever
    it returns, for whatever topology, the tree it builds satisfies the
    invariant of [TreeInv] with every CPU and every node off. *)

From stdpp Require Import base list numbers option.
From S2P Require Import Prelude PowerState PowerTree Composite TreeInv Coordination.

Section Shape.
Context {S EP : Type} `{PlatformPowerStateLaws S} `{PsciDims}.
Implicit Types n p : NonCpuPowerNode S.
Implicit Types nodes : list (NonCpuPowerNode S).
Implicit Types cpu : CpuPowerNode S EP.

(** A node as it is built: off, and so is everything it records. *)
Record plain n : Prop := {
  pl_len : node_len n;
  pl_local : ncpu_local_state n = OFF;
  pl_req : Forall (λ s, s = OFF) (requested_states n);
  pl_susp : Forall (λ s, s = None) (suspend_states n);
  pl_copy : Forall (λ s, s = OFF) (non_cpu_states n);
}.

(** Parents come before their children, and a node's range of children holds
    exactly its children. *)
Record shape nodes : Prop := {
  sp_plain : ∀ i n, nodes !! i = Some n → plain n;
  sp_parent : ∀ i n j, nodes !! i = Some n → ncpu_parent n = Some j →
    j < i ∧ ∃ p, nodes !! j = Some p ∧ in_children p i;
  sp_child : ∀ j p i, nodes !! j = Some p → in_children p i →
    ∃ n, nodes !! i = Some n ∧ ncpu_parent n = Some j;
}.

(** The CPU ranges hold exactly the CPUs built so far below each node. *)
Record cpu_shape nodes (cpus : list (CpuPowerNode S EP)) : Prop := {
  cs_new : ∀ c cpu, cpus !! c = Some cpu → cpu = cpu_new (cpu_parent cpu);
  cs_path : ∀ c cpu, cpus !! c = Some cpu →
    ∃ l, path nodes (Some (cpu_parent cpu)) l ∧
      ∀ i n, nodes !! i = Some n → in_cpus n c ↔ i ∈ l;
  cs_lt : ∀ i n c, nodes !! i = Some n → in_cpus n c → c < length cpus;
}.

(** The node [i] is [d] levels below the top (a root is one level below). *)
Definition level nodes (i d : nat) : Prop :=
  ∃ l, path nodes (Some i) l ∧ length l = d.

Lemma path_det nodes o l l' : path nodes o l → path nodes o l' → l = l'.
Proof.
  revert o l'. induction l as [|i l IH]; intros o [|j l'] Hp Hp'; simpl in *; [done|..].
  - subst o. by destruct Hp'.
  - subst o. by destruct Hp.
  - destruct Hp as (-> & n & Hn & Hp), Hp' as ([= ->] & n' & Hn' & Hp').
    simplify_eq. f_equal. by eapply IH.
Qed.

Lemma OFF_ne_RUN : (OFF : S) ≠ RUN.
Proof.
  intros Heq. assert (power_state_type (OFF : S) = Run) as Ht by by apply type_Run.
  by rewrite type_OFF in Ht.
Qed.

Lemma Forall_lookup_eq {A} (x : A) l k y : Forall (λ s, s = x) l → l !! k = Some y → y = x.
Proof. intros Hl Hk. exact (Forall_lookup_1 _ _ _ _ Hl Hk). Qed.

Lemma plain_node_ok n : plain n → node_ok n.
Proof.
  intros [Hlen Hl Hr Hs Hc]. split; [done|..].
  - intros c r s _ _ Hsu _. by eapply (Forall_lookup_eq None).
  - intros c r s _ Hre _. rewrite Hl. apply (Forall_lookup_eq OFF) in Hre as ->; [|done].
    unfold vote_of. rewrite decide_True by apply OFF_ne_RUN. apply power_le_refl.
  - intros x _. rewrite Hl. apply OFF_greatest.
Qed.

Lemma plain_edge_ok i n p :
  plain n → plain p → in_children p i → (∀ c, in_cpus n c → in_cpus p c) → edge_ok i n p.
Proof.
  intros Hn Hp Hi Hc. split; [done|done|..].
  - intros c r r' _ _ Hr'. apply (Forall_lookup_eq OFF) in Hr' as ->; [|apply Hn].
    apply OFF_greatest.
  - intros s _. rewrite (pl_local _ Hn). apply OFF_greatest.
  - rewrite (pl_local _ Hn). apply OFF_greatest.
Qed.

Lemma path_closed nodes o l i n j :
  path nodes o l → i ∈ l → nodes !! i = Some n → ncpu_parent n = Some j → j ∈ l.
Proof.
  revert o. induction l as [|k l IH]; intros o Hp Hi Hn Hj; [by apply elem_of_nil in Hi|].
  destruct Hp as (-> & m & Hm & Hp). apply elem_of_cons in Hi as [->|Hi].
  - simplify_eq. rewrite Hj in Hp. destruct l; [done|]. destruct Hp as [[= ->] _].
    right. left.
  - right. by eapply IH.
Qed.

(** The nodes of a shape whose CPU ranges are right are well formed. *)
Lemma shape_nodes_ok nodes cpus : shape nodes → cpu_shape nodes cpus → nodes_ok nodes.
Proof.
  intros [Hpl Hpar Hch] [_ Hpath Hlt]. split.
  - intros i n Hn. apply plain_node_ok. by eapply Hpl.
  - intros i n j Hn Hj. destruct (Hpar i n j Hn Hj) as (Hji & p & Hp & Hi). split; [done|].
    exists p. split; [done|]. apply plain_edge_ok; [by eapply Hpl..|done|].
    intros c Hc. assert (is_Some (cpus !! c)) as [cpu Hcpu].
    { apply lookup_lt_is_Some. exact (Hlt _ _ _ Hn Hc). }
    destruct (Hpath c cpu Hcpu) as (l & Hl & Hr). apply (Hr j p Hp).
    apply (Hr i n Hn) in Hc. exact (path_closed _ _ _ _ _ _ Hl Hc Hn Hj).
Qed.

(** The CPUs whose parent is at the lowest level have the paths of [TreeInv]. *)
Lemma shape_cpu_path nodes cpus c cpu lo :
  shape nodes → cpu_shape nodes cpus → cpus !! c = Some cpu →
  (∀ i, lo ≤ i < length nodes → level nodes i MAX_POWER_LEVEL) →
  lo ≤ cpu_parent cpu →
  ∃ l, cpu_path nodes c (cpu_parent cpu) l.
Proof.
  intros Hsh Hcs Hc Hlev Hlo. destruct (cs_path _ _ Hcs c cpu Hc) as (l & Hp & Hr).
  destruct (path_locked _ _ _ Hp) as (full & Hfst & Hl).
  assert (∃ n, nodes !! cpu_parent cpu = Some n) as [n Hn].
  { destruct l; [done|]. destruct Hp as ([= <-] & m & Hm & _). eauto. }
  pose proof (lookup_lt_Some _ _ _ Hn) as Hlt. exists l. split; [done| |done|].
  - destruct (Hlev (cpu_parent cpu)) as (l' & Hp' & Hl'); [lia|].
    by rewrite (path_det _ _ _ _ Hp Hp').
  - intros n' i Hn' Hi. simplify_eq. destruct (sp_child _ Hsh _ _ _ Hn Hi) as (m & Hm & Hpar).
    destruct (sp_parent _ Hsh _ _ _ Hm Hpar) as [Hlt' _]. pose proof (lookup_lt_Some _ _ _ Hm).
    destruct (Hlev (cpu_parent cpu)) as (l1 & Hp1 & Hl1); [lia|].
    destruct (Hlev i) as (l2 & Hp2 & Hl2); [lia|].
    destruct l2 as [|k l2]; [done|]. destruct Hp2 as ([= <-] & m' & Hm' & Hp2).
    simplify_eq. rewrite Hpar in Hp2. rewrite (path_det _ _ _ _ Hp1 Hp2) in Hl1. simpl in Hl2. lia.
Qed.

(** ** Adding a non-CPU node *)
Lemma node_index_add_Done a b c : node_index_add a b = Done c → c = a + b.
Proof. unfold node_index_add. case_decide; naive_solver. Qed.

(** Extending a range by the next index. *)
Lemma extend_range (r : range) (i : nat) r' :
  (if range_is_empty r
   then e ← node_index_add i 1; mret (i, e)
   else _ ← assert_ (bool_decide (r.2 = i)); e ← node_index_add r.2 1; mret (r.1, e)) = Done r' →
  (∀ x, r'.1 ≤ x < r'.2 ↔ r.1 ≤ x < r.2 ∨ x = i) ∧
  (r'.2 - r'.1 = Datatypes.S (r.2 - r.1)).
Proof.
  destruct (range_is_empty r) eqn:He; intros Hd; repeat outcome_step.
  - apply range_is_empty_spec in He. apply node_index_add_Done in E. simplify_eq/=.
    split; [|lia]. intros x. lia.
  - apply bool_decide_eq_true in E. apply node_index_add_Done in E0. simplify_eq/=.
    assert (¬ r.2 ≤ r.1) by (rewrite <-range_is_empty_spec; congruence).
    split; [|lia]. intros x. lia.
Qed.

Lemma assign_non_cpu_Done p i p' :
  assign_non_cpu p i = Done p' → plain p →
  plain p' ∧ ncpu_parent p' = ncpu_parent p ∧ cpu_range p' = cpu_range p ∧
  ∀ x, in_children p' x ↔ in_children p x ∨ x = i.
Proof.
  intros Hd [[Hlr Hls Hlc] Hl Hr Hs Hc]. unfold assign_non_cpu in Hd. repeat outcome_step.
  apply extend_range in E as [Hin Hsz]. subst. split; [|done].
  split; simpl; try done; [|by apply Forall_app_2; [|constructor]].
  split; simpl; try done. rewrite length_app. simpl. lia.
Qed.

Lemma ncpu_assign_cpu_Done p i p' :
  ncpu_assign_cpu p i = Done p' → plain p →
  plain p' ∧ ncpu_parent p' = ncpu_parent p ∧ non_cpu_range p' = non_cpu_range p ∧
  ∀ x, in_cpus p' x ↔ in_cpus p x ∨ x = i.
Proof.
  intros Hd [[Hlr Hls Hlc] Hl Hr Hs Hc]. unfold ncpu_assign_cpu in Hd. repeat outcome_step.
  apply extend_range in E as [Hin Hsz]. subst. split; [|done].
  split; simpl; try done; [|by apply Forall_app_2; [|constructor]..].
  split; simpl; try done; rewrite length_app; simpl; lia.
Qed.

Lemma plain_new par : plain (ncpu_new par).
Proof. by repeat constructor. Qed.

Definition no_cpus nodes : Prop := ∀ i n c, nodes !! i = Some n → ¬ in_cpus n c.

Lemma push_child_lookup par nodes nodes' :
  push_child par (length nodes) nodes = Done nodes' → shape nodes →
  (∀ j, par = Some j → j < length nodes) →
  length nodes' = Datatypes.S (length nodes) ∧
  nodes' !! length nodes = Some (ncpu_new par) ∧
  ∀ i n, nodes !! i = Some n → ∃ n', nodes' !! i = Some n' ∧
    plain n' ∧ ncpu_parent n' = ncpu_parent n ∧ cpu_range n' = cpu_range n ∧
    ∀ x, in_children n' x ↔ in_children n x ∨ (par = Some i ∧ x = length nodes).
Proof.
  intros Hd Hsh Hpar. unfold push_child in Hd. repeat outcome_step. subst.
  assert (∀ i n, nodes !! i = Some n → (nodes ++ [ncpu_new par]) !! i = Some n) as Hold.
  { intros i n Hn. by apply lookup_app_l_Some. }
  destruct par as [j|]; repeat outcome_step; subst.
  - specialize (Hpar j eq_refl). rewrite lookup_app_l in E by lia.
    destruct (assign_non_cpu_Done _ _ _ E0) as (Hp' & Hpp & Hcr & Hch); [by eapply sp_plain|].
    split; [rewrite length_insert, length_app; simpl; lia|]. split.
    { rewrite list_lookup_insert_ne by lia. by rewrite lookup_app_r, Nat.sub_diag by lia. }
    intros i n Hn. destruct (decide (j = i)) as [<-|].
    + simplify_eq. exists a0. rewrite list_lookup_insert_eq by (rewrite length_app; lia).
      do 4 (split; [done|]). intros x. rewrite Hch. naive_solver.
    + exists n. rewrite list_lookup_insert_ne by done. split; [by apply Hold|].
      split; [by eapply sp_plain|]. do 2 (split; [done|]). naive_solver.
  - split; [rewrite length_app; simpl; lia|]. split; [by rewrite lookup_app_r, Nat.sub_diag by lia|].
    intros i n Hn. exists n. split; [by apply Hold|]. split; [by eapply sp_plain|].
    do 2 (split; [done|]). naive_solver.
Qed.

Lemma push_child_shape par nodes nodes' :
  push_child par (length nodes) nodes = Done nodes' → shape nodes → no_cpus nodes →
  (∀ j, par = Some j → j < length nodes) →
  shape nodes' ∧ no_cpus nodes' ∧ length nodes' = Datatypes.S (length nodes) ∧
  (∀ o l, path nodes o l → path nodes' o l) ∧
  (∀ d l, path nodes par l → length l = d → level nodes' (length nodes) (Datatypes.S d)).
Proof.
  intros Hd Hsh Hnc Hpar.
  destruct (push_child_lookup _ _ _ Hd Hsh Hpar) as (Hlen & Hnew & Hold).
  assert (∀ i n', nodes' !! i = Some n' →
    (i = length nodes ∧ n' = ncpu_new par) ∨ ∃ n, nodes !! i = Some n) as Hinv.
  { intros i n' Hn'. pose proof (lookup_lt_Some _ _ _ Hn'). destruct (decide (i = length nodes)) as [->|].
    - left. by simplify_eq.
    - right. apply lookup_lt_is_Some. lia. }
  assert (∀ o l, path nodes o l → path nodes' o l) as Hpath.
  { intros o l. apply path_same_parents. intros i n Hn.
    destruct (Hold i n Hn) as (n' & ? & _ & ? & _). eauto. }
  split; [split|split; [|split; [done|split; [done|]]]].
  - intros i n' Hn'. destruct (Hinv i n' Hn') as [[-> ->]|[n Hn]]; [apply plain_new|].
    destruct (Hold i n Hn) as (m & Hm & Hpl & _). by simplify_eq.
  - intros i n' j Hn' Hj. destruct (Hinv i n' Hn') as [[-> ->]|[n Hn]].
    + simpl in Hj. specialize (Hpar j Hj). split; [done|].
      destruct (lookup_lt_is_Some_2 nodes j Hpar) as [p Hp].
      destruct (Hold j p Hp) as (p' & Hp' & _ & _ & _ & Hch). exists p'. split; [done|].
      apply Hch. by right.
    + destruct (Hold i n Hn) as (m & Hm & _ & Hpp & _). simplify_eq. rewrite Hpp in Hj.
      destruct (sp_parent _ Hsh i n j Hn Hj) as (Hlt & p & Hp & Hi). split; [done|].
      destruct (Hold j p Hp) as (p' & Hp' & _ & _ & _ & Hch). exists p'. split; [done|].
      apply Hch. by left.
  - intros j p' i Hp' Hi. destruct (Hinv j p' Hp') as [[-> ->]|[p Hp]].
    { unfold in_children in Hi. simpl in Hi. lia. }
    destruct (Hold j p Hp) as (m & Hm & _ & _ & _ & Hch). simplify_eq.
    apply Hch in Hi. destruct Hi as [Hi|[-> ->]]; [|by eauto].
    destruct (sp_child _ Hsh j p i Hp Hi) as (n & Hn & Hpn).
    destruct (Hold i n Hn) as (n' & Hn' & _ & Hpp & _). exists n'. split; [done|]. congruence.
  - intros i n' c Hn'. destruct (Hinv i n' Hn') as [[-> ->]|[n Hn]].
    { unfold in_cpus. simpl. lia. }
    destruct (Hold i n Hn) as (m & Hm & _ & _ & Hcr & _). simplify_eq.
    unfold in_cpus. rewrite Hcr. by apply (Hnc i n).
  - intros d l Hl Hld. exists (length nodes :: l). split; [|simpl; by rewrite Hld].
    split; [done|]. exists (ncpu_new par). split; [done|]. by apply Hpath.
Qed.

Lemma level_path nodes nodes' i d :
  (∀ o l, path nodes o l → path nodes' o l) → level nodes i d → level nodes' i d.
Proof. intros Hp (l & ? & ?). exists l. auto. Qed.

(** [pushed nodes0 nodes cnt]: of [cnt] nodes, those there was room for were
    added to [nodes0]. *)
Definition pushed (from to cnt : nat) : Prop :=
  to = from + cnt ∨ (to = NON_CPU_DOMAIN_COUNT ∧ to < from + cnt).

Lemma push_children_spec cnt par nodes next nodes' d :
  push_children cnt par (length nodes) nodes = Done (next, nodes') →
  shape nodes → no_cpus nodes → length nodes ≤ NON_CPU_DOMAIN_COUNT →
  (length nodes < NON_CPU_DOMAIN_COUNT →
     (∀ j, par = Some j → j < length nodes) ∧ ∃ l, path nodes par l ∧ length l = d) →
  shape nodes' ∧ no_cpus nodes' ∧ next = length nodes' ∧
  length nodes ≤ length nodes' ≤ NON_CPU_DOMAIN_COUNT ∧
  pushed (length nodes) (length nodes') cnt ∧
  (∀ o l, path nodes o l → path nodes' o l) ∧
  (∀ i, length nodes ≤ i < length nodes' → level nodes' i (Datatypes.S d)).
Proof.
  revert nodes. induction cnt as [|cnt IH]; intros nodes Hd Hsh Hnc Hle Hpar; simpl in Hd.
  { outcome_step. simplify_eq. unfold pushed. do 3 (split; [done|]).
    split; [lia|]. split; [lia|]. split; [done|]. intros i Hi. lia. }
  case_decide as Hlt.
  2: { outcome_step. simplify_eq. unfold pushed. do 3 (split; [done|]).
    split; [lia|]. split; [lia|]. split; [done|]. intros i Hi. lia. }
  outcome_step. destruct (Hpar Hlt) as [Hpl (l & Hl & Hld)].
  destruct (push_child_shape _ _ _ E Hsh Hnc Hpl) as (Hsh1 & Hnc1 & Hlen1 & Hp1 & Hlev1).
  rewrite <-Hlen1 in Hd.
  destruct (IH a Hd Hsh1 Hnc1) as (Hsh' & Hnc' & Hn' & Hle' & Hps & Hp' & Hlev'); [lia| |].
  { intros _. split; [|eauto]. intros j Hj. specialize (Hpl j Hj). lia. }
  split; [done|]. split; [done|]. split; [done|]. split; [lia|].
  split; [unfold pushed in *; lia|]. split; [by auto|]. intros i Hi.
  destruct (decide (i = length nodes)) as [->|]; [|apply Hlev'; lia].
  eapply level_path; [done|]. by eapply Hlev1.
Qed.

(** The state of the outer loops. *)
Record build_ok (b : BuildState S) : Prop := {
  bo_shape : shape (b_nodes b);
  bo_no_cpus : no_cpus (b_nodes b);
  bo_next : b_next b = length (b_nodes b);
  bo_le : length (b_nodes b) ≤ NON_CPU_DOMAIN_COUNT;
  bo_parent : b_parent_node b =
    match b_parent_node_index b with 0 => None | Datatypes.S j => Some j end;
}.

(** The nodes from [from] on are at level [k]. *)
Definition level_from nodes (from k : nat) : Prop :=
  ∀ i, from ≤ i < length nodes → level nodes i k.

Lemma build_level_spec topology cnt acc b nlc b' k L0 :
  build_level topology cnt acc b = Done (nlc, b') → build_ok b →
  (length (b_nodes b) < NON_CPU_DOMAIN_COUNT →
     b_parent_node_index b + cnt = L0 + 1 ∧
     (∀ j, b_parent_node_index b ≤ j + 1 → j < L0 → level (b_nodes b) j k) ∧
     (b_parent_node_index b = 0 → k = 0)) →
  L0 ≤ length (b_nodes b) → level_from (b_nodes b) L0 (Datatypes.S k) →
  pushed L0 (length (b_nodes b)) acc →
  build_ok b' ∧ b_parent_node_index b' = b_parent_node_index b + cnt ∧
  L0 ≤ length (b_nodes b') ∧ level_from (b_nodes b') L0 (Datatypes.S k) ∧
  pushed L0 (length (b_nodes b')) nlc.
Proof.
  revert acc b. induction cnt as [|cnt IH]; intros acc b Hd Hb Hpar HL Hlev Hps; simpl in Hd.
  { outcome_step. simplify_eq. rewrite Nat.add_0_r. auto. }
  outcome_step. outcome_step. destruct a0 as [next nodes]. outcome_step.
  apply node_index_add_Done in E1. destruct Hb as [Hsh Hnc Hnx Hle Hpn].
  set (pni := b_parent_node_index b) in *. rewrite Hnx in E0.
  destruct (push_children_spec _ _ _ _ _ k E0 Hsh Hnc Hle)
    as (Hsh' & Hnc' & Hn' & Hle' & Hps' & Hp' & Hlev').
  { intros Hlt. destruct (Hpar Hlt) as (Hpc & Hlv & Hk). rewrite Hpn.
    destruct pni as [|j] eqn:Hj; [split; [done|]; exists []; by rewrite (Hk eq_refl)|].
    split; [intros ? [= <-]; lia|]. apply Hlv; lia. }
  destruct (IH _ _ Hd) as (Hb' & Hpni' & HL' & Hlev'' & Hps''); simpl.
  - split; simpl; [done|done|done|lia|]. subst. by rewrite Nat.add_1_r.
  - intros Hlt. destruct Hpar as (Hpc & Hlv & Hk); [lia|]. subst. split; [lia|].
    split; [|lia]. intros j Hj1 Hj2. eapply level_path; [done|]. apply Hlv; lia.
  - lia.
  - intros i Hi. destruct (decide (i < length (b_nodes b))); [|apply Hlev'; lia].
    eapply level_path; [done|]. apply Hlev. lia.
  - unfold pushed in *. lia.
  - split; [done|]. simpl in Hpni'. split; [lia|]. done.
Qed.

(** Before a level is built from the nodes of level [k]. *)
Record level_ok (b : BuildState S) (cnt k : nat) : Prop := {
  lo_build : build_ok b;
  lo_count : length (b_nodes b) + 1 = b_parent_node_index b + cnt ∨
    (length (b_nodes b) = NON_CPU_DOMAIN_COUNT ∧
     length (b_nodes b) + 1 < b_parent_node_index b + cnt);
  lo_level : ∀ i, b_parent_node_index b ≤ i + 1 → i < length (b_nodes b) → level (b_nodes b) i k;
  lo_first : b_parent_node_index b = 0 → k = 0 ∧ cnt = 1;
}.

Lemma build_levels_spec topology levels cnt b b' k :
  build_levels topology levels cnt b = Done b' → level_ok b cnt k →
  ∃ cnt', level_ok b' cnt' (k + levels).
Proof.
  revert cnt b k. induction levels as [|levels IH]; intros cnt b k Hd Hl; simpl in Hd.
  { outcome_step. simplify_eq. rewrite Nat.add_0_r. eauto. }
  outcome_step. destruct a as [nlc b1]. destruct Hl as [Hb Hcnt Hlev Hfirst].
  destruct (build_level_spec _ _ _ _ _ _ k (length (b_nodes b)) E Hb)
    as (Hb1 & Hpni & HL & Hlev1 & Hps).
  - intros Hlt. split; [lia|]. split; [intros; by apply Hlev|]. intros Hz. by destruct (Hfirst Hz).
  - done.
  - intros i Hi. lia.
  - left. lia.
  - rewrite <-Nat.add_succ_comm. eapply IH; [done|]. pose proof (bo_le _ Hb1). split; [done|..].
    + unfold pushed in Hps. lia.
    + intros i Hi1 Hi2. destruct Hcnt; [apply Hlev1; lia|lia].
    + intros Hz. assert (b_parent_node_index b = 0) as Hz' by lia. apply Hfirst in Hz'. lia.
Qed.

(** ** Adding a CPU *)

(** The CPU [c] was assigned to the nodes in [P]. *)
Definition assigned (P : nat → Prop) (c : nat) nodes nodes' : Prop :=
  length nodes' = length nodes ∧
  ∀ i n, nodes !! i = Some n → ∃ n', nodes' !! i = Some n' ∧ plain n' ∧
    ncpu_parent n' = ncpu_parent n ∧ non_cpu_range n' = non_cpu_range n ∧
    ∀ x, in_cpus n' x ↔ in_cpus n x ∨ (P i ∧ x = c).

Lemma assigned_inv P c nodes nodes' i n' :
  assigned P c nodes nodes' → nodes' !! i = Some n' →
  ∃ n, nodes !! i = Some n ∧ plain n' ∧ ncpu_parent n' = ncpu_parent n ∧
    non_cpu_range n' = non_cpu_range n ∧ ∀ x, in_cpus n' x ↔ in_cpus n x ∨ (P i ∧ x = c).
Proof.
  intros [Hlen Ha] Hn'. pose proof (lookup_lt_Some _ _ _ Hn') as Hlt. rewrite Hlen in Hlt.
  destruct (lookup_lt_is_Some_2 _ _ Hlt) as [n Hn]. exists n. split; [done|].
  destruct (Ha i n Hn) as (m & Hm & ?). by simplify_eq.
Qed.

Lemma assigned_path P c nodes nodes' o l :
  assigned P c nodes nodes' → path nodes o l ↔ path nodes' o l.
Proof.
  intros Ha. split; apply path_same_parents.
  - intros i n Hn. destruct (proj2 Ha i n Hn) as (n' & ? & _ & ? & _). eauto.
  - intros i n' Hn'. destruct (assigned_inv _ _ _ _ _ _ Ha Hn') as (n & ? & _ & ? & _). eauto.
Qed.

Lemma assigned_shape P c nodes nodes' : assigned P c nodes nodes' → shape nodes → shape nodes'.
Proof.
  intros Ha Hsh. split.
  - intros i n' Hn'. by destruct (assigned_inv _ _ _ _ _ _ Ha Hn') as (n & _ & ? & _).
  - intros i n' j Hn' Hj. destruct (assigned_inv _ _ _ _ _ _ Ha Hn') as (n & Hn & _ & Hp & _).
    rewrite Hp in Hj. destruct (sp_parent _ Hsh _ _ _ Hn Hj) as (Hlt & p & Hp' & Hi).
    split; [done|]. destruct (proj2 Ha j p Hp') as (p' & Hp'' & _ & _ & Hr & _).
    exists p'. split; [done|]. unfold in_children. by rewrite Hr.
  - intros j p' i Hp' Hi. destruct (assigned_inv _ _ _ _ _ _ Ha Hp') as (p & Hp & _ & _ & Hr & _).
    unfold in_children in Hi. rewrite Hr in Hi.
    destruct (sp_child _ Hsh _ _ _ Hp Hi) as (n & Hn & Hpar).
    destruct (proj2 Ha i n Hn) as (n' & Hn' & _ & Hpar' & _). exists n'. by rewrite Hpar'.
Qed.

Lemma assigned_trans P Q c nodes1 nodes2 nodes3 :
  assigned P c nodes1 nodes2 → assigned Q c nodes2 nodes3 →
  assigned (λ i, P i ∨ Q i) c nodes1 nodes3.
Proof.
  intros [Hl1 H1'] [Hl2 H2']. split; [congruence|]. intros i n Hn.
  destruct (H1' i n Hn) as (n' & Hn' & _ & Hp' & Hr' & Hc').
  destruct (H2' i n' Hn') as (n'' & Hn'' & Hpl & Hp'' & Hr'' & Hc''). exists n''.
  split; [done|]. split; [done|]. split; [congruence|]. split; [congruence|].
  intros x. rewrite Hc'', Hc'. naive_solver.
Qed.

Lemma assigned_insert nodes j n0 n1 c :
  shape nodes → nodes !! j = Some n0 → ncpu_assign_cpu n0 c = Done n1 →
  assigned (λ i, i = j) c nodes (<[j := n1]> nodes) ∧ ncpu_parent n1 = ncpu_parent n0.
Proof.
  intros Hsh Hj Ha. pose proof (lookup_lt_Some _ _ _ Hj).
  destruct (ncpu_assign_cpu_Done _ _ _ Ha) as (Hpl & Hpar & Hrng & Hin); [by eapply sp_plain|].
  split; [|done]. split; [by rewrite length_insert|]. intros i n Hn.
  destruct (decide (j = i)) as [<-|].
  - simplify_eq. exists n1. rewrite list_lookup_insert_eq by done.
    do 4 (split; [done|]). intros x. rewrite Hin. naive_solver.
  - exists n. rewrite list_lookup_insert_ne by done. split; [done|].
    split; [by eapply sp_plain|]. do 2 (split; [done|]). naive_solver.
Qed.

(** The recursion assigns the CPU to exactly the nodes on the path. *)
Lemma tree_assign_cpu_spec fuel nodes j c nodes' :
  tree_assign_cpu fuel nodes j c = Done nodes' → shape nodes →
  ∃ l, path nodes (Some j) l ∧ assigned (λ i, i ∈ l) c nodes nodes'.
Proof.
  revert nodes j. induction fuel as [|fuel IH]; intros nodes j Hd Hsh; simpl in Hd; [done|].
  repeat outcome_step. subst. rename a into n0, a0 into n1.
  destruct (assigned_insert _ _ _ _ _ Hsh E E0) as [Has Hpar].
  assert (∃ l, path nodes (ncpu_parent n0) l ∧ assigned (λ i, i ∈ l) c (<[j:=n1]> nodes) nodes')
    as (l & Hl & Ha).
  { rewrite <-Hpar. destruct (ncpu_parent n1) as [k|].
    - destruct (IH _ _ Hd) as (l & Hl & Ha); [by eapply assigned_shape|].
      exists l. split; [|done]. by rewrite (assigned_path _ _ _ _ _ _ Has).
    - outcome_step. subst. exists []. split; [done|]. split; [done|]. intros i n Hn.
      exists n. split; [done|]. split; [by eapply sp_plain, Hn; eapply assigned_shape|].
      do 2 (split; [done|]). intros x. rewrite elem_of_nil. naive_solver. }
  exists (j :: l). split; [split; [done|]; eauto|].
  destruct (assigned_trans _ _ _ _ _ _ Has Ha) as [Hlen Hall]. split; [done|]. intros i n Hn.
  destruct (Hall i n Hn) as (n' & ? & ? & ? & ? & Hx). exists n'. do 4 (split; [done|]).
  intros x. by rewrite elem_of_cons, Hx.
Qed.

(** The state of the loops over the CPUs; [lo] is the first node of the lowest
    level. *)
Record cpus_ok (lo next : nat) (tree : PowerDomainTree S EP) : Prop := {
  co_shape : shape (non_cpu_power_nodes tree);
  co_cpus : cpu_shape (non_cpu_power_nodes tree) (cpu_power_nodes tree);
  co_next : next = length (cpu_power_nodes tree);
  co_le : next ≤ CPU_DOMAIN_COUNT;
  co_level : level_from (non_cpu_power_nodes tree) lo MAX_POWER_LEVEL;
  co_parent : ∀ c cpu, cpu_power_nodes tree !! c = Some cpu → lo ≤ cpu_parent cpu;
}.

Lemma cpu_shape_push nodes nodes' cpus parent l :
  cpu_shape nodes cpus → path nodes (Some parent) l →
  assigned (λ i, i ∈ l) (length cpus) nodes nodes' →
  cpu_shape nodes' (cpus ++ [cpu_new parent]).
Proof.
  intros Hcs Hl Ha.
  assert (∀ c cpu, (cpus ++ [cpu_new parent]) !! c = Some cpu →
    cpus !! c = Some cpu ∨ c = length cpus ∧ cpu = cpu_new parent) as Hinv.
  { intros c cpu [?|[? Hc]]%lookup_app_Some; [by left|right].
    destruct (c - length cpus) eqn:Heq; simplify_eq/=. split; [lia|done]. }
  split.
  - intros c cpu [Hc|[-> ->]]%Hinv; [by eapply cs_new|done].
  - intros c cpu [Hc|[-> ->]]%Hinv.
    + destruct (cs_path _ _ Hcs c cpu Hc) as (l' & Hl' & Hr). exists l'.
      split; [by rewrite <-(assigned_path _ _ _ _ _ _ Ha)|]. intros i n' Hn'.
      destruct (assigned_inv _ _ _ _ _ _ Ha Hn') as (n & Hn & _ & _ & _ & Hx).
      pose proof (lookup_lt_Some _ _ _ Hc). rewrite Hx, (Hr i n Hn). naive_solver lia.
    + exists l. split; [by rewrite <-(assigned_path _ _ _ _ _ _ Ha)|]. intros i n' Hn'.
      destruct (assigned_inv _ _ _ _ _ _ Ha Hn') as (n & Hn & _ & _ & _ & Hx).
      rewrite Hx. split; [|naive_solver]. intros [Hc|[? _]]; [|done].
      apply (cs_lt _ _ Hcs i n) in Hc; [lia|done].
  - intros i n' c Hn' Hc. rewrite length_app. simpl.
    destruct (assigned_inv _ _ _ _ _ _ Ha Hn') as (n & Hn & _ & _ & _ & Hx).
    apply Hx in Hc. destruct Hc as [Hc|[_ ->]]; [|lia]. pose proof (cs_lt _ _ Hcs i n c Hn Hc). lia.
Qed.

Lemma push_cpus_spec cnt pni lo next tree next' tree' :
  push_cpus cnt pni next tree = Done (next', tree') → cpus_ok lo next tree → lo + 1 ≤ pni ∨ lo = 0 →
  cpus_ok lo next' tree'.
Proof.
  revert next tree. induction cnt as [|cnt IH]; intros next tree Hd Hok Hlo; simpl in Hd.
  { outcome_step. by simplify_eq. }
  case_decide as Hlt; [|outcome_step; by simplify_eq]. repeat outcome_step. subst.
  eapply IH; [done| |done]. destruct Hok as [Hsh Hcs -> Hle Hlev Hpar].
  destruct (tree_assign_cpu_spec _ _ _ _ _ E1 Hsh) as (l & Hl & Ha).
  split; simpl.
  - by eapply assigned_shape.
  - by eapply cpu_shape_push.
  - rewrite length_app. simpl. lia.
  - lia.
  - intros i Hi. rewrite (proj1 Ha) in Hi. eapply level_path; [|by apply Hlev].
    intros o l' Hl'. by apply (assigned_path _ _ _ _ _ _ Ha).
  - intros c cpu [Hc|[_ Hc]]%lookup_app_Some; [by eapply Hpar|].
    destruct (c - _); simplify_eq/=. lia.
Qed.

Lemma build_cpus_spec children pni lo next tree next' tree' :
  build_cpus children pni next tree = Done (next', tree') → cpus_ok lo next tree →
  lo + 1 ≤ pni ∨ lo = 0 → cpus_ok lo next' tree'.
Proof.
  revert pni next tree. induction children as [|cnt children IH];
    intros pni next tree Hd Hok Hlo; simpl in Hd.
  { outcome_step. by simplify_eq. }
  outcome_step. destruct a as [next1 tree1]. outcome_step.
  apply node_index_add_Done in E0. subst. eapply IH; [done| |lia]. by eapply push_cpus_spec.
Qed.

(** Whatever [new] returns is a well-formed tree in which everything is off. *)
Lemma tree_new_spec topology (tree : PowerDomainTree S EP) :
  tree_new topology = Done tree →
  nodes_ok (non_cpu_power_nodes tree) ∧
  length (cpu_power_nodes tree) = CPU_DOMAIN_COUNT ∧ CPU_DOMAIN_COUNT ≤ NODE_INDEX_MAX ∧
  (∀ i n, non_cpu_power_nodes tree !! i = Some n → ncpu_local_state n = OFF) ∧
  ∀ c cpu, cpu_power_nodes tree !! c = Some cpu →
    cpu = cpu_new (cpu_parent cpu) ∧
    ∃ l, cpu_path (non_cpu_power_nodes tree) c (cpu_parent cpu) l.
Proof.
  intros Hd. unfold tree_new in Hd. outcome_step. outcome_step. outcome_step. outcome_step.
  outcome_step. destruct a3 as [next t]. repeat outcome_step. subst.
  apply andb_true_iff in E as [Hidx%bool_decide_eq_true _].
  apply bool_decide_eq_true in E4. rename a0 into b.
  assert (level_ok (mkBuild [] 0 0 None) 1 0) as Hl0.
  { split; simpl; [|lia|lia|done]. split; simpl; [|by intros i n c ?|done|lia|done].
    by split; intros i n. }
  destruct (build_levels_spec _ _ _ _ _ _ E0 Hl0) as (cnt & [[Hsh Hnc _ _ _] Hcnt Hlev _]).
  assert (cpus_ok (b_parent_node_index b - 1) 0 (mkTree (b_nodes b) [])) as Hc0.
  { split; simpl; [done| |done|lia| |by intros].
    - split; [by intros|by intros|]. intros i n c Hn Hc. by destruct (Hnc i n c Hn).
    - intros i Hi. apply Hlev; lia. }
  destruct (build_cpus_spec _ _ _ _ _ _ _ E3 Hc0) as [Hsh' Hcs' Hn' Hle' Hlev' Hpar']; [lia|].
  split; [by eapply shape_nodes_ok|]. split; [lia|]. split; [done|]. split.
  - intros i n Hn. by apply (sp_plain _ Hsh' i n).
  - intros c cpu Hc. split; [by eapply cs_new|].
    eapply shape_cpu_path; [done|done|done|exact Hlev'|by eapply Hpar'].
Qed.
End Shape.
