(* ===== verification/PsciSystem.v ===== *)
(** * The multi-core PSCI system

    The critical sections of [Psci] as the steps of a transition system over
    the shared state and the phases of the CPUs.  The invariant of [PsciInv]
    holds initially and is kept by every step, whatever the SPM does. *)

From Stdlib Require Import ZArith.
From stdpp Require Import base list numbers option functions relations.
From S2P Require Import Prelude PowerState Smccc PowerTree Composite TreeInv Coordination Psci PsciInv TreeNew.
Open Scope nat_scope.

Section System.
Context `{ArmPsciTypes} {S W V : Type} `{!PlatformPowerStateInterface S}
  `{!PlatformPowerStateLaws S} `{!PsciDims}.
Context (platform : PsciPlatform S W V).
Local Abbreviation St := (PsciState S EntryPoint W V).
Implicit Types st : St.
Implicit Types ph : nat → Phase.

(** The critical sections of the core [c].  A suspend call has read the suspend mode
    before, at a time when it may have been another one; and [set_suspend_mode]
    may write the mode some time after its checks. *)
Inductive step (c : nat) : St * (nat → Phase) → St * (nat → Phase) → Prop :=
| step_suspend osi ps entry h comp pd s0 cpu comp' st st' ph :
    ph c = PhRunning → request_ok comp pd h s0 →
    cpu_power_nodes (power_domain_tree st) !! c = Some cpu →
    suspend_locked platform c ps entry h comp pd (lock_level osi h) cpu st =
      Ret (Ok (false, comp')) st' →
    step c (st, ph) (st', <[c := PhSuspended pd]> ph)
| step_suspend_pending osi ps entry h comp pd s0 cpu comp' st st' ph :
    ph c = PhRunning → request_ok comp pd h s0 →
    cpu_power_nodes (power_domain_tree st) !! c = Some cpu →
    suspend_locked platform c ps entry h comp pd (lock_level osi h) cpu st =
      Ret (Ok (true, comp')) st' →
    step c (st, ph) (st', ph)
| step_suspend_error osi ps entry h comp pd s0 cpu e st st' ph :
    ph c = PhRunning → request_ok comp pd h s0 →
    cpu_power_nodes (power_domain_tree st) !! c = Some cpu →
    suspend_locked platform c ps entry h comp pd (lock_level osi h) cpu st = Ret (Err e) st' →
    step c (st, ph) (st', ph)
| step_resume comp pd st st' ph :
    ph c = PhSuspended pd → length (states comp) = STATE_COUNT →
    suspend_resume platform c comp pd st = Ret tt st' →
    step c (st, ph) (st', <[c := PhRunning]> ph)
| step_off comp st st' ph :
    ph c = PhRunning → off_enter platform c st = Ret (Ok comp) st' →
    step c (st, ph) (st', <[c := PhOff]> ph)
| step_off_error e st st' ph :
    ph c = PhRunning → off_enter platform c st = Ret (Err e) st' →
    step c (st, ph) (st', ph)
| step_on m entry t st st' ph :
    ph c = PhRunning → try_get_cpu_index_by_mpidr platform m = Done (Some t) →
    cpu_on platform m entry st = Ret (Ok tt) st' →
    step c (st, ph) (st', <[t := PhOnPending]> ph)
| step_on_error m entry e st st' ph :
    ph c = PhRunning → cpu_on platform m entry st = Ret (Err e) st' →
    step c (st, ph) (st', ph)
| step_boot r st st' ph :
    ph c = PhOnPending ∨ ph c = PhSuspended true → handle_cpu_boot platform c st = Ret r st' →
    step c (st, ph) (st', <[c := PhRunning]> ph)
| step_standby s st st' ph :
    ph c = PhRunning → set_cpu_local_state c s st = Ret tt st' →
    step c (st, ph) (st', <[c := PhStandby]> ph)
| step_wake st st' ph :
    ph c = PhStandby → set_cpu_local_state c RUN st = Ret tt st' →
    step c (st, ph) (st', <[c := PhRunning]> ph)
| step_mode mode r st st' ph :
    ph c = PhRunning → set_suspend_mode platform c mode st = Ret r st' →
    step c (st, ph) (st', ph)
| step_mode_write mode st ph :
    ph c = PhRunning →
    step c (st, ph) (mkPsci (power_domain_tree st) mode (world st) (spm_state st), ph)
| step_world w v st ph :
    step c (st, ph) (mkPsci (power_domain_tree st) (suspend_mode st) w v, ph).

Definition any_step (s s' : St * (nat → Phase)) : Prop :=
  ∃ c, c < CPU_DOMAIN_COUNT ∧ step c s s'.

(** The steps of the cores other than [me]. *)
Definition other_step (me : nat) (s s' : St * (nat → Phase)) : Prop :=
  ∃ c, c < CPU_DOMAIN_COUNT ∧ c ≠ me ∧ step c s s'.

(** The phases after a cold boot of the core [me]. *)
Definition initial_phases (me : nat) : nat → Phase := <[me := PhRunning]> (λ _, PhOff).

Definition reachable (me : nat) (s : St * (nat → Phase)) : Prop :=
  ∃ w v st0, psci_new platform me w v = Done st0 ∧
    rtc any_step (st0, initial_phases me) s.

(** ** Queries on the CPUs *)
Lemma is_last_cpu_loop_spec (c k : nat) (cpus : list (CpuPowerNode S EntryPoint)) :
  (∀ i cpu, cpus !! i = Some cpu → k + i = c → cpu_affinity_info cpu = AffOn) →
  ∃ b, is_last_cpu_loop c k cpus = Done b ∧
    (b = true ↔ ∀ i cpu, cpus !! i = Some cpu → k + i ≠ c → cpu_affinity_info cpu = AffOff).
Proof.
  revert k. induction cpus as [|x cpus IH]; intros k Hon; cbn [is_last_cpu_loop].
  { exists true. split; [done|]. split; [by intros _ i|done]. }
  destruct (IH (Datatypes.S k)) as (b & Hb & Hspec).
  { intros i cpu Hi Hk. apply (Hon (Datatypes.S i)); [done|lia]. }
  assert (∀ P : nat → CpuPowerNode S EntryPoint → Prop,
    (∀ i cpu, (x :: cpus) !! i = Some cpu → P (k + i) cpu) ↔
    P k x ∧ ∀ i cpu, cpus !! i = Some cpu → P (Datatypes.S k + i) cpu) as Hcons.
  { intros P. split.
    - intros HP. split; [rewrite <-(Nat.add_0_r k); by apply HP|]. intros i cpu Hi.
      rewrite Nat.add_succ_comm. by apply HP.
    - intros [HP0 HP] [|i] cpu Hi; simplify_eq/=; [by rewrite Nat.add_0_r|].
      rewrite <-Nat.add_succ_comm. by apply HP. }
  pose proof (Hcons (λ j cpu, j ≠ c → cpu_affinity_info cpu = AffOff)) as Hc.
  case_decide as Hk.
  - rewrite bool_decide_true by (apply (Hon 0); [done|lia]). cbn. exists b. split; [done|].
    rewrite Hc, Hspec. naive_solver.
  - cbn. case_bool_decide as Ha.
    + exists b. split; [done|]. rewrite Hc, Hspec. naive_solver.
    + exists false. split; [done|]. rewrite Hc. naive_solver.
Qed.

Lemma is_last_cpu_spec (tree : PowerDomainTree S EntryPoint) c :
  (∀ cpu, cpu_power_nodes tree !! c = Some cpu → cpu_affinity_info cpu = AffOn) →
  ∃ b, is_last_cpu tree c = Done b ∧
    (b = true ↔ ∀ i cpu, cpu_power_nodes tree !! i = Some cpu → i ≠ c →
       cpu_affinity_info cpu = AffOff).
Proof.
  intros Hon. destruct (is_last_cpu_loop_spec c 0 (cpu_power_nodes tree)) as (b & Hb & Hs).
  { intros i cpu Hi <-. by apply Hon. }
  exists b. done.
Qed.

Context `{!PsciPlatformLaws platform}.

(** The affinity info follows the phase. *)
Lemma phase_affinity (tree : PowerDomainTree S EntryPoint) ph c cpu :
  tree_ok tree ph → cpu_power_nodes tree !! c = Some cpu →
  cpu_affinity_info cpu =
    match ph c with PhOff => AffOff | PhOnPending => AffOnPending | _ => AffOn end.
Proof.
  intros Hok Hc. destruct (tk_cpu _ _ Hok _ _ Hc) as (l & _ & Hcok).
  destruct (ph c); simpl in Hcok; by destruct Hcok.
Qed.

Lemma wp_cpu_index me (Q : nat → St → Prop) Hq st :
  me ≤ NODE_INDEX_MAX → Q me st → wp (cpu_index me) Q Hq st.
Proof. intros. unfold cpu_index. rewrite decide_True by done. by eapply wp_lift. Qed.

(** [set_suspend_mode] changes at most the mode, and only if the other CPUs are
    off or, towards OS-initiated mode, all CPUs are on. *)
Lemma set_suspend_mode_wp me mode st ph :
  tree_ok (power_domain_tree st) ph → me < CPU_DOMAIN_COUNT → ph me = PhRunning →
  wp (set_suspend_mode platform me mode) (λ r st',
    power_domain_tree st' = power_domain_tree st ∧ world st' = world st ∧
    spm_state st' = spm_state st ∧
    match r with
    | Ok _ => suspend_mode st' = mode ∧
        (suspend_mode st = mode ∨
         (∀ c, c < CPU_DOMAIN_COUNT → c ≠ me → ph c = PhOff) ∨
         (mode = OsInitiated ∧ ∀ c, c < CPU_DOMAIN_COUNT → ph c ≠ PhOff ∧ ph c ≠ PhOnPending))
    | Err e => st' = st ∧ (e = NotSupported ∨ e = Denied)
    end) (λ _, False) st.
Proof.
  intros Hok Hme Hph. unfold set_suspend_mode.
  destruct (has_feature platform OS_INITIATED_MODE); simpl; [|apply wp_ret; naive_solver].
  apply wp_bind, wp_get. case_decide as Hm; [apply wp_ret; naive_solver|].
  destruct (is_last_cpu_spec (power_domain_tree st) me) as (b & Hb & Hspec).
  { intros cpu Hc. rewrite (phase_affinity _ _ _ _ Hok Hc). by rewrite Hph. }
  assert (b = true → ∀ c, c < CPU_DOMAIN_COUNT → c ≠ me → ph c = PhOff) as Hlast.
  { intros Hbt c Hc Hne. destruct (tree_ok_lookup _ _ _ Hok Hc) as [cpu Hcpu].
    pose proof (proj1 Hspec Hbt c cpu Hcpu Hne) as Haff.
    rewrite (phase_affinity _ _ _ _ Hok Hcpu) in Haff. by destruct (ph c). }
  pose proof (tk_index _ _ Hok) as Hidx. destruct mode.
  - apply wp_bind, wp_bind, wp_cpu_index; [lia|]. eapply wp_lift; [done|].
    destruct b; [|apply wp_ret; naive_solver].
    apply wp_bind, wp_modify, wp_ret. simpl. naive_solver.
  - apply wp_bind. destruct (are_all_cpus_on (power_domain_tree st)) eqn:Hall.
    + apply wp_ret, wp_bind, wp_modify, wp_ret. simpl. do 4 (split; [done|]). right. right.
      split; [done|]. intros c Hc. destruct (tree_ok_lookup _ _ _ Hok Hc) as [cpu Hcpu].
      unfold are_all_cpus_on in Hall. rewrite forallb_forall in Hall.
      specialize (Hall cpu). rewrite bool_decide_eq_true in Hall.
      rewrite (phase_affinity _ _ _ _ Hok Hcpu) in Hall.
      destruct (ph c); try done; (discriminate Hall; apply list_elem_of_In; by eapply list_elem_of_lookup_2).
    + apply wp_bind, wp_cpu_index; [lia|]. eapply wp_lift; [done|].
      destruct b; [|apply wp_ret; naive_solver].
      apply wp_bind, wp_modify, wp_ret. simpl. naive_solver.
Qed.

(** The CPU-local part of a standby request. *)
Lemma set_cpu_local_state_wp c (s : S) st ph (ph' : Phase) :
  tree_ok (power_domain_tree st) ph → c < CPU_DOMAIN_COUNT →
  (ph c = PhRunning ∧ ph' = PhStandby) ∨ (ph c = PhStandby ∧ ph' = PhRunning ∧ s = RUN) →
  wp (set_cpu_local_state c s) (λ _ st',
    suspend_mode st' = suspend_mode st ∧ spm_state st' = spm_state st ∧
    tree_ok (power_domain_tree st') (<[c := ph']> ph)) (λ _, False) st.
Proof.
  intros Hok Hc Hph. destruct (tree_ok_lookup _ _ _ Hok Hc) as [cpu Hcpu].
  apply wp_bind, (wp_lock_cpu c cpu); [done|]. apply wp_drop_cpu. simpl. split; [done|]. split; [done|].
  eapply tree_ok_put; [done..|]. intros l _ Hcok.
  destruct Hph as [[Hph ->]|(Hph & -> & ->)]; rewrite Hph in Hcok; simpl in *; naive_solver.
Qed.

(** ** Critical sections that call the SPM

    What they leave behind when they return, without any assumption on the SPM. *)
Definition answers {A} (default : A) (m : M V A) : M V A := λ v,
  match m v with Ret a v' => Ret a v' | _ => Ret default v end.

(** The platform with an SPM that always answers, and as before where it did. *)
Definition spm_total : PsciPlatform S W V := with_spm platform (mkPsciSpmInterface
  (λ f, answers (Ok tt) (forward_psci_request (psci_spm platform) f))
  (answers tt (notify_cpu_off (psci_spm platform)))
  (answers tt (notify_cpu_suspend_powerdown_abandoned (psci_spm platform)))).

#[local] Instance spm_total_laws : PsciPlatformLaws spm_total :=
  with_spm_laws platform _ _.

#[local] Instance spm_total_answers : SpmLaws (psci_spm spm_total) (λ _ _, True).
Proof.
  split; intros; simpl; unfold answers; case_match; eauto;
    match goal with u : unit |- _ => destruct u end; eauto.
Qed.

(** Where [m] returns, [m'] does the same. *)
Definition refines {A} (m m' : M St A) : Prop := ∀ st a st', m st = Ret a st' → m' st = Ret a st'.

Lemma refines_refl {A} (m : M St A) : refines m m.
Proof. by intros st. Qed.
Lemma refines_bind {A B} (m m' : M St A) (k k' : A → M St B) :
  refines m m' → (∀ a, refines (k a) (k' a)) → refines (m ≫= k) (m' ≫= k').
Proof.
  intros Hm Hk st b st' (a & st1 & Ha & Hb)%M_bind_Ret. cbv [mbind M_bind].
  rewrite (Hm _ _ _ Ha). by apply Hk.
Qed.
Lemma refines_try {A B E} (m m' : M St (result A E)) (k k' : A → M St (result B E)) :
  refines m m' → (∀ a, refines (k a) (k' a)) → refines (try_M m k) (try_M m' k').
Proof.
  intros Hm Hk st b st'. unfold try_M. destruct (m st) as [[a|e] st1| |] eqn:Ha; try done;
    rewrite (Hm _ _ _ Ha); [apply Hk|done].
Qed.
Lemma refines_answers {A} (d : A) (m : M V A) : refines (spm m) (spm (answers d m)).
Proof. intros st a st'. unfold spm, answers. by destruct (m (spm_state st)). Qed.

Ltac refines_step :=
  match goal with
  | |- ∀ _, _ => intros ?
  | |- refines ?m ?m => apply refines_refl
  | |- refines (forward_to_spm _ _) _ => apply refines_bind
  | |- refines (spm _) _ => apply refines_answers
  | |- refines (with_ancestors_locked _ _) _ => apply refines_bind
  | |- refines (with_ancestors_locked_to_max_level _ _ _) _ => apply refines_bind
  | |- refines (_ ≫= _) _ => apply refines_bind
  | |- refines (try_M _ _) _ => apply refines_try
  | |- refines (match ?x with _ => _ end) _ => destruct x
  | |- refines _ _ => apply refines_refl
  end.

Global Instance mode_race_dec osi h (comp : PsciCompositePowerState S) st :
  Decision (mode_race platform osi h comp st).
Proof.
  unfold mode_race. destruct (last_at_power_level comp) as [last|].
  - destruct (decide (osi = false ∧ has_feature platform OS_INITIATED_MODE = true ∧
      suspend_mode st = OsInitiated ∧ h < last)) as [Hd|Hd]; [left|right]; naive_solver.
  - right. naive_solver.
Defined.

Lemma suspend_locked_Ret osi c ps entry h comp (pd : bool) s0 cpu r st st' ph :
  suspend_locked platform c ps entry h comp pd (lock_level osi h) cpu st = Ret r st' →
  tree_ok (power_domain_tree st) ph → c < CPU_DOMAIN_COUNT → ph c = PhRunning →
  request_ok comp pd h s0 → cpu_power_nodes (power_domain_tree st) !! c = Some cpu →
  suspend_locked_post c entry pd ph st r st'.
Proof.
  intros Hr Hok Hc Hph Hrq Hcpu. destruct (decide (mode_race platform osi h comp st)) as [Hrace|Hrace].
  - assert (osi = false) as -> by apply Hrace.
    destruct (suspend_locked_race platform c ps entry h comp pd cpu st ph) as (p & w & _ & Heq); [done..| |done|].
    { rewrite (rq_length _ _ _ _ Hrq). unfold STATE_COUNT. pose proof (rq_h _ _ _ _ Hrq). lia. }
    simpl in Hr. rewrite Heq in Hr. destruct p; [|done]. by injection Hr as <- <-.
  - assert (refines (suspend_locked platform c ps entry h comp pd (lock_level osi h) cpu)
      (suspend_locked spm_total c ps entry h comp pd (lock_level osi h) cpu)) as Href
      by (unfold suspend_locked, suspend_prepare; repeat refines_step).
    apply Href in Hr. eapply wp_Ret in Hr; [|by eapply (suspend_locked_wp spm_total (λ _ _, True))].
    apply Hr.
Qed.

Lemma suspend_resume_Ret c comp pd u st st' ph :
  suspend_resume platform c comp pd st = Ret u st' →
  tree_ok (power_domain_tree st) ph → c < CPU_DOMAIN_COUNT → ph c = PhSuspended pd →
  length (states comp) = STATE_COUNT → tree_ok (power_domain_tree st') (<[c := PhRunning]> ph).
Proof.
  intros Hr Hok Hc Hph Hl.
  assert (refines (suspend_resume platform c comp pd) (suspend_resume spm_total c comp pd)) as Href
    by (unfold suspend_resume; repeat refines_step).
  apply Href in Hr. eapply wp_Ret in Hr; [|by eapply (suspend_resume_wp spm_total (λ _ _, True))].
  apply Hr.
Qed.

Lemma off_enter_Ret c r st st' ph :
  off_enter platform c st = Ret r st' →
  tree_ok (power_domain_tree st) ph → c < CPU_DOMAIN_COUNT → ph c = PhRunning →
  match r with
  | Ok _ => tree_ok (power_domain_tree st') (<[c := PhOff]> ph)
  | Err _ => power_domain_tree st' = power_domain_tree st
  end.
Proof.
  intros Hr Hok Hc Hph.
  assert (refines (off_enter platform c) (off_enter spm_total c)) as Href
    by (unfold off_enter; repeat refines_step).
  apply Href in Hr. eapply wp_Ret in Hr; [|by eapply (off_enter_wp spm_total (λ _ _, True))].
  destruct Hr as [_ Hr]. by destruct r as [|e]; destruct Hr.
Qed.

(** Every step keeps the invariant. *)
Lemma step_ok c st ph st' ph' :
  c < CPU_DOMAIN_COUNT → step c (st, ph) (st', ph') →
  tree_ok (power_domain_tree st) ph → tree_ok (power_domain_tree st') ph'.
Proof.
  intros Hc Hstep Hok. inversion Hstep; subst; try done;
    match goal with
    | Hr : suspend_locked _ _ _ _ _ _ _ _ _ _ = Ret _ _ |- _ =>
        eapply suspend_locked_Ret in Hr; [|done..]; unfold suspend_locked_post in Hr
    | Hr : suspend_resume _ _ _ _ _ = Ret _ _ |- _ => eapply suspend_resume_Ret in Hr; [|done..]
    | Hr : off_enter _ _ _ = Ret _ _ |- _ => eapply off_enter_Ret in Hr; [|done..]
    | Hr : cpu_on _ _ _ _ = Ret _ _ |- _ => eapply wp_Ret in Hr; [|by eapply cpu_on_wp]
    | Hr : handle_cpu_boot _ _ _ = Ret _ _ |- _ =>
        destruct (tree_ok_lookup _ _ _ Hok Hc) as [cpu Hcpu];
        eapply wp_Ret in Hr; [|by eapply handle_cpu_boot_wp]
    | Hr : set_suspend_mode _ _ _ _ = Ret _ _ |- _ =>
        eapply wp_Ret in Hr; [|by eapply set_suspend_mode_wp]
    | Hr : set_cpu_local_state _ ?s _ = Ret _ _ |- tree_ok _ (<[_ := ?p]> _) =>
        eapply wp_Ret in Hr; [|by apply (set_cpu_local_state_wp c s st ph p); auto]
    end; simpl in *; destruct_and?; try done;
    try match goal with
        | Heq : power_domain_tree ?a = _ |- tree_ok (power_domain_tree ?a) _ => by rewrite Heq
        end.
  match goal with Hr : ∃ c, _ |- _ => destruct Hr as (t' & ? & _ & ? & _) end.
  by assert (t' = t) as -> by congruence.
Qed.

Lemma steps_ok s s' :
  rtc any_step s s' → tree_ok (power_domain_tree s.1) s.2 → tree_ok (power_domain_tree s'.1) s'.2.
Proof.
  induction 1 as [|[st ph] [st1 ph1] s' (c & Hc & Hstep) _ IH]; [done|].
  intros Hok. apply IH. by eapply step_ok.
Qed.

(** [Psci::new] establishes the invariant. *)
Lemma psci_new_tree_ok me w v st0 :
  psci_new platform me w v = Done st0 → me < CPU_DOMAIN_COUNT →
  tree_ok (power_domain_tree st0) (initial_phases me) ∧ suspend_mode st0 = PlatformCoordinated.
Proof.
  intros Hd Hme. unfold psci_new in Hd. outcome_step. outcome_step. outcome_step.
  outcome_step. outcome_step. outcome_step. subst. simpl.
  rename a into tree, a1 into cpu, a2 into anc, a3 into anc'.
  case_decide; simplify_eq. rename a0 into me.
  destruct (tree_new_spec _ _ E) as (Hnodes & Hcount & Hidx & _ & Hcpus).
  apply arr_get_Done in E1. destruct (Hcpus me cpu E1) as [_ (l & Hp)].
  destruct (lock_Done _ _ _ _ Hp) as (full & <- & Hl & Hlen & Hlock).
  rewrite Hlock, take_ge in E2 by lia. injection E2 as <-.
  pose proof (full_chain_ok _ _ _ _ Hnodes Hp Hl) as Hch.
  destruct (set_running_upd me full Hch) as (anc'' & Hrun & Hupd & Hall).
  rewrite Hrun in E3. injection E3 as <-. split; [|done]. unfold initial_phases. eapply (tree_ok_update _ (λ _, PhOff)); [|done..|].
  - split; [done|done|done|]. intros c k Hk. destruct (Hcpus c k Hk) as [Hnew (l & Hl')].
    exists l. split; [done|]. rewrite Hnew. done.
  - simpl. destruct (Hcpus me cpu E1) as [-> _]. do 3 (split; [done|]).
    by eapply unlock_column.
Qed.

(** ** What the other cores do to the core [me] *)

(** Nobody but [me] moves [me] out of a phase, except that a CPU that is off can
    be turned on. *)
Lemma other_step_phase me c st ph st' ph' :
  c ≠ me → c < CPU_DOMAIN_COUNT → tree_ok (power_domain_tree st) ph →
  step c (st, ph) (st', ph') → ph me ≠ PhOff → ph' me = ph me.
Proof.
  intros Hne Hc Hok Hstep Hph.
  inversion Hstep; subst; try done; try (by rewrite fn_lookup_insert_ne).
  match goal with Hr : cpu_on _ _ _ _ = Ret _ _ |- _ =>
    eapply wp_Ret in Hr; [|by eapply cpu_on_wp]; destruct Hr as (_ & t' & ? & Hoff & _) end.
  assert (t' = t) as -> by congruence. rewrite fn_lookup_insert_ne; [done|]. by intros ->.
Qed.

Lemma other_steps_ok me s s' :
  rtc (other_step me) s s' → tree_ok (power_domain_tree s.1) s.2 → s.2 me ≠ PhOff →
  tree_ok (power_domain_tree s'.1) s'.2 ∧ s'.2 me = s.2 me.
Proof.
  induction 1 as [|[st ph] [st1 ph1] s' (c & Hc & Hne & Hstep) _ IH]; [done|].
  intros Hok Hph. simpl in *.
  pose proof (step_ok _ _ _ _ _ Hc Hstep Hok) as Hok1.
  pose proof (other_step_phase _ _ _ _ _ _ Hne Hc Hok Hstep Hph) as Hph1.
  rewrite <-Hph1 in Hph |- *. by apply IH.
Qed.

Lemma other_steps_tree_ok me s s' :
  rtc (other_step me) s s' → tree_ok (power_domain_tree s.1) s.2 →
  tree_ok (power_domain_tree s'.1) s'.2.
Proof.
  intros Hs. apply steps_ok. eapply rtc_subrel; [|exact Hs].
  intros x y (c & Hc & _ & Hstep). by exists c.
Qed.
End System.
