(* ===== verification/PsciCalls.v ===== *)
(** * The PSCI calls of a core

    The critical sections of the PSCI handlers write the CPU node of one core only.
    Together with the invariant this carries an entry point from the call that
    stores it to the warm boot that uses it, whatever the other cores do in between.
    Then the handlers of [Psci] from the call to its end, against what the steps of the
    other cores guarantee while the core waits and against the contract of the
    SPM: each call returns, or the core stops, and the tree is consistent. *)

From Stdlib Require Import ZArith Lia.
From stdpp Require Import base list numbers option functions relations.
From S2P Require Import Prelude PowerState Smccc PowerTree Composite TreeInv Coordination Psci PsciInv TreeNew PsciSystem.
Open Scope nat_scope.

(** ** What a core does not touch *)

Section Frame.
Context `{ArmPsciTypes} {S W V : Type} `{!PlatformPowerStateInterface S}
  `{!PlatformPowerStateLaws S} `{!PsciDims}.
Context (platform : PsciPlatform S W V).
Local Abbreviation St := (PsciState S EntryPoint W V).
Implicit Types st : St.

Definition cpu_node st (t : nat) : option (CpuPowerNode S EntryPoint) :=
  cpu_power_nodes (power_domain_tree st) !! t.

(** A computation that leaves the node of the CPU [t] as it is. *)
Definition frames {A} (t : nat) (m : M St A) : Prop := ∀ st,
  match m st with
  | Ret _ st' | Halt st' => cpu_node st' t = cpu_node st t
  | Crash => True
  end.

Lemma frames_bind {A B} t (m : M St A) (k : A → M St B) :
  frames t m → (∀ a, frames t (k a)) → frames t (m ≫= k).
Proof.
  intros Hm Hk st. cbv [mbind M_bind]. specialize (Hm st). destruct (m st) as [a st'| |]; [|done..].
  specialize (Hk a st'). rewrite <-Hm. by destruct (k a st').
Qed.
Lemma frames_try {A B E} t (m : M St (result A E)) (k : A → M St (result B E)) :
  frames t m → (∀ a, frames t (k a)) → frames t (try_M m k).
Proof.
  intros Hm Hk st. unfold try_M. specialize (Hm st). destruct (m st) as [[a|e] st'| |]; [|done..].
  specialize (Hk a st'). rewrite <-Hm. by destruct (k a st').
Qed.
Lemma frames_ret {A} t (a : A) : frames t (mret a).
Proof. done. Qed.
Lemma frames_get t : frames t get.
Proof. done. Qed.
Lemma frames_lift {A} t (o : outcome A) : frames t (lift o).
Proof. intros st. by destruct o. Qed.
Lemma frames_plat {A} t (m : M W A) : frames t (plat m).
Proof. intros st. unfold plat. by destruct (m (world st)). Qed.
Lemma frames_spm {A} t (m : M V A) : frames t (spm m).
Proof. intros st. unfold spm. by destruct (m (spm_state st)). Qed.
Lemma frames_drop_cpu t c cpu : c ≠ t → frames t (drop_cpu c cpu).
Proof. intros Hne st. cbn. by apply list_lookup_insert_ne. Qed.
Lemma frames_lock_cpu t c : frames t (lock_cpu c).
Proof. apply frames_bind; [apply frames_get|]. intros. apply frames_lift. Qed.
Lemma frames_with_ancestors {T} t cpu level
    (f : CpuPowerNode S EntryPoint → AncestorPowerDomains S →
         M St (T * CpuPowerNode S EntryPoint * AncestorPowerDomains S)) :
  (∀ cpu anc, frames t (f cpu anc)) → frames t (with_ancestors_locked_to_max_level cpu level f).
Proof.
  intros Hf. apply frames_bind; [apply frames_get|]. intros st.
  apply frames_bind; [apply frames_lift|]. intros anc.
  apply frames_bind; [apply Hf|]. by intros [[r cpu'] anc'] st'.
Qed.

Lemma frames_forward t f : frames t (forward_to_spm platform f).
Proof. apply frames_bind; [apply frames_spm|]. intros. apply frames_ret. Qed.
Lemma frames_osi t : frames t (is_in_osi_mode platform).
Proof. unfold is_in_osi_mode. by destruct (negb _). Qed.
Lemma frames_cpu_index {A} t c (k : nat → M St A) : frames t (k c) → frames t (cpu_index c ≫= k).
Proof. intros Hk st. unfold cpu_index. destruct (decide _); [apply Hk|done]. Qed.
Lemma frames_crash {A} t : frames t (crash : M St A).
Proof. done. Qed.

End Frame.

Create HintDb frames discriminated.
#[export] Hint Resolve frames_ret frames_get frames_lift frames_plat frames_spm frames_forward frames_osi
  frames_crash : frames.

(** Follow the structure of a computation. *)
Ltac frames_step :=
  match goal with
  | |- ∀ _, _ => intros ?
  | |- frames _ (match ?x with _ => _ end) => destruct x
  | |- frames _ (with_ancestors_locked _ _) => apply frames_with_ancestors
  | |- frames _ (with_ancestors_locked_to_max_level _ _ _) => apply frames_with_ancestors
  | |- frames _ (drop_cpu _ _) => by apply frames_drop_cpu
  | |- frames _ (lock_cpu _) => apply frames_lock_cpu
  | |- frames _ (cpu_index _ ≫= _) => apply frames_cpu_index
  | |- frames _ (_ ≫= _) => apply frames_bind
  | |- frames _ (try_M _ _) => apply frames_try
  | _ => solve [auto with frames]
  end.

Section FrameHandlers.
Context `{ArmPsciTypes} {S W V : Type} `{!PlatformPowerStateInterface S}
  `{!PlatformPowerStateLaws S} `{!PsciDims}.
Context (platform : PsciPlatform S W V).
Local Abbreviation St := (PsciState S EntryPoint W V).
Implicit Types st : St.
Context (c t : nat) (Hne : c ≠ t).

Lemma frames_suspend_locked ps entry h comp pd level cpu :
  frames t (suspend_locked platform c ps entry h comp pd level cpu).
Proof. unfold suspend_locked, suspend_coordinate, suspend_prepare. repeat frames_step. Qed.
Lemma frames_suspend_resume comp pd : frames t (suspend_resume platform c comp pd).
Proof. unfold suspend_resume. repeat frames_step. Qed.
Lemma frames_off_enter : frames t (off_enter platform c).
Proof. unfold off_enter. repeat frames_step. Qed.
Lemma frames_handle_cpu_boot : frames t (handle_cpu_boot platform c).
Proof. unfold handle_cpu_boot. repeat frames_step. Qed.
Lemma frames_set_cpu_local_state (s : S) : frames t (set_cpu_local_state c s : M St unit).
Proof. unfold set_cpu_local_state. repeat frames_step. Qed.
End FrameHandlers.

Section OtherSteps.
Context `{ArmPsciTypes} {S W V : Type} `{!PlatformPowerStateInterface S}
  `{!PlatformPowerStateLaws S} `{!PsciDims}.
Context (platform : PsciPlatform S W V) `{!PsciPlatformLaws platform}.
Local Abbreviation St := (PsciState S EntryPoint W V).
Implicit Types st : St.

Lemma frames_Ret {A} t (m : M St A) st a st' :
  frames t m → m st = Ret a st' → cpu_node st' t = cpu_node st t.
Proof. intros Hm Heq. specialize (Hm st). by rewrite Heq in Hm. Qed.

(** [cpu_on] writes the node of its target. *)
Lemma frames_cpu_on m entry t :
  (∀ t', try_get_cpu_index_by_mpidr platform m = Done (Some t') → t' ≠ t) →
  frames t (cpu_on platform m entry).
Proof.
  intros Hne. unfold cpu_on. destruct (try_get_cpu_index_by_mpidr platform m) as [[i|]|];
    [|done..].
  specialize (Hne i eq_refl).
  match goal with |- frames t (_ ≫= ?k) => change (frames t (k (Some i))) end. cbv beta.
  match goal with |- frames t (try_M _ ?k) => change (frames t (k i)) end. cbv beta.
  repeat frames_step.
Qed.

(** The node of a CPU that is not off changes by steps of that CPU only. *)
Lemma other_step_node me c st ph st' ph' :
  c ≠ me → c < CPU_DOMAIN_COUNT → tree_ok (power_domain_tree st) ph →
  step platform c (st, ph) (st', ph') → ph me ≠ PhOff → cpu_node st' me = cpu_node st me.
Proof.
  intros Hne Hc Hok Hstep Hph. inversion Hstep; subst; try done;
    try match goal with
    | Hr : suspend_locked _ _ _ _ _ _ _ _ _ _ = Ret _ _ |- _ =>
        by eapply frames_Ret; [apply frames_suspend_locked|]
    | Hr : suspend_resume _ _ _ _ _ = Ret _ _ |- _ =>
        by eapply frames_Ret; [apply frames_suspend_resume|]
    | Hr : off_enter _ _ _ = Ret _ _ |- _ => by eapply frames_Ret; [apply frames_off_enter|]
    | Hr : handle_cpu_boot _ _ _ = Ret _ _ |- _ =>
        by eapply frames_Ret; [apply frames_handle_cpu_boot|]
    | Hr : set_cpu_local_state _ _ _ = Ret _ _ |- _ =>
        by eapply frames_Ret; [apply frames_set_cpu_local_state|]
    | Hr : cpu_on _ _ _ _ = Ret (Ok tt) _ |- _ =>
        pose proof Hr as Hon; eapply wp_Ret in Hon; [|by eapply cpu_on_wp];
        destruct Hon as (_ & t' & ? & ? & _);
        eapply frames_Ret; [|exact Hr]; apply frames_cpu_on; intros ?; congruence
    | Hr : cpu_on _ _ _ _ = Ret (Err _) _ |- _ =>
        eapply wp_Ret in Hr; [|by eapply cpu_on_wp]; destruct Hr as (_ & Ht & _);
        unfold cpu_node; by rewrite Ht
    end.
  match goal with Hr : set_suspend_mode _ _ _ _ = Ret _ _ |- _ =>
    eapply wp_Ret in Hr; [|by eapply set_suspend_mode_wp]; destruct Hr as [Ht _] end.
  unfold cpu_node. by rewrite Ht.
Qed.

Lemma other_steps_node me s s' :
  rtc (other_step platform me) s s' → tree_ok (power_domain_tree s.1) s.2 → s.2 me ≠ PhOff →
  cpu_node s'.1 me = cpu_node s.1 me.
Proof.
  induction 1 as [|[st ph] [st1 ph1] s' (c & Hc & Hne & Hstep) _ IH]; [done|].
  intros Hok Hph. simpl in *.
  rewrite <-(other_step_node _ _ _ _ _ _ Hne Hc Hok Hstep Hph).
  apply IH; [by eapply step_ok|]. by rewrite (other_step_phase platform _ _ _ _ _ _ Hne Hc Hok Hstep Hph).
Qed.

(** A CPU that is going to boot boots with the entry point its node holds. *)
Lemma boot_with_entry t entry s s2 :
  tree_ok (power_domain_tree s.1) s.2 → t < CPU_DOMAIN_COUNT →
  s.2 t = PhOnPending ∨ s.2 t = PhSuspended true → entry_stored s.1 t entry →
  rtc (other_step platform t) s s2 →
  ∃ st3, handle_cpu_boot platform t s2.1 =
      Ret (match s.2 t with PhOnPending => CpuOn entry | _ => SuspendFinished entry end) st3 ∧
    tree_ok (power_domain_tree st3) (<[t := PhRunning]> s2.2).
Proof.
  intros Hok Ht Hph (cpu & Hcpu & Hep) Hsteps.
  assert (s.2 t ≠ PhOff) as Hnoff by (by destruct Hph as [->| ->]).
  destruct (other_steps_ok platform _ _ _ Hsteps Hok Hnoff) as [Hok2 Hph2].
  pose proof (other_steps_node _ _ _ Hsteps Hok Hnoff) as Hnode.
  unfold cpu_node in Hnode. rewrite Hcpu in Hnode.
  rewrite <-Hph2 in Hph |- *.
  pose proof (handle_cpu_boot_wp platform t cpu s2.1 s2.2 Hok2 Ht Hph Hnode) as Hboot.
  unfold wp in Hboot. destruct (handle_cpu_boot platform t s2.1) as [r st3| |]; [|done..].
  destruct Hboot as (_ & Hok3 & e & He & ->). assert (e = entry) as -> by congruence.
  by exists st3.
Qed.
End OtherSteps.

(** ** The calls *)

(** The optional functions are implemented when the platform says so, and the
    state of [SYSTEM_SUSPEND] is a power down state when it affects the top
    level. *)
Class PsciOptionalLaws `{ArmPsciTypes} {S W V : Type} `{!PlatformPowerStateInterface S}
    `{!PsciDims} (platform : PsciPlatform S W V) : Prop := {
  system_off_safe : safe (plat_system_off platform);
  system_reset_safe : safe (plat_system_reset platform);
  system_off2_safe : has_feature platform SYSTEM_OFF2 = true →
    ∀ t c, safe (plat_system_off2 platform t c);
  system_reset2_safe : has_feature platform SYSTEM_RESET2 = true →
    ∀ t c, safe (plat_system_reset2 platform t c);
  mem_protect_safe : has_feature platform MEM_PROTECT = true →
    ∀ b, safe (plat_mem_protect platform b);
  check_range_safe : has_feature platform MEM_PROTECT_CHECK_RANGE = true →
    ∀ r, safe (plat_mem_protect_check_range platform r);
  cpu_freeze_safe : has_feature platform CPU_FREEZE = true → safe (plat_cpu_freeze platform);
  default_suspend_safe : has_feature platform CPU_DEFAULT_SUSPEND = true →
    safe (cpu_default_suspend_power_state platform);
  node_hw_state_safe : has_feature platform NODE_HW_STATE = true →
    ∀ m l, safe (plat_node_hw_state platform m l);
  sys_suspend_ok : has_feature platform SYSTEM_SUSPEND = true → ∀ w,
    ∃ c w', sys_suspend_power_state platform w = Ret c w' ∧
      length (states c) = STATE_COUNT ∧
      (find_highest_non_run_level c = Some MAX_POWER_LEVEL →
         is_valid_suspend_request c true = true ∧
         ∃ s, states c !! MAX_POWER_LEVEL = Some s ∧ power_state_type s = PowerDown);
}.

Lemma with_spm_optional `{ArmPsciTypes} {S W V V' : Type} `{!PlatformPowerStateInterface S} `{!PsciDims}
    (platform : PsciPlatform S W V) (i : PsciSpmInterface V') :
  PsciOptionalLaws platform → PsciOptionalLaws (with_spm platform i).
Proof. intros []. by split. Qed.

Section Calls.
Context `{ArmPsciTypes} {S W V : Type} `{!PlatformPowerStateInterface S}
  `{!PlatformPowerStateLaws S} `{!PsciDims}.
Context (platform : PsciPlatform S W V) `{!PsciPlatformLaws platform}.
Context (spm_ok : bool → V → Prop) `{!SpmLaws (psci_spm platform) spm_ok}.
Local Abbreviation St := (PsciState S EntryPoint W V).
Implicit Types st : St.
Implicit Types ph : nat → Phase.
Implicit Types cores : OtherCores St.

(** ** Waiting

    While a core waits the other cores take steps; the wait ends with a wake-up
    or with the core losing power. *)
(** From [st] to [st'] the other cores take steps, and leave the SPM of [me] as it
    is. *)
Definition others_run (me : nat) st ph st' ph' : Prop :=
  rtc (other_step platform me) (st, ph) (st', ph') ∧
  ∀ b, spm_ok b (spm_state st) → spm_ok b (spm_state st').

(** The wait in [wfi] ends with a wake-up or with the core losing power, that for
    the locks of the ancestors with the locks. *)
Definition wait_ok cores (me : nat) : Prop :=
  ∀ st ph, tree_ok (power_domain_tree st) ph →
    (∃ st' ph', others_run me st ph st' ph' ∧ (wfi cores st = Ret tt st' ∨ wfi cores st = Halt st')) ∧
    (∃ st' ph', others_run me st ph st' ph' ∧ lock_wait cores st = Ret tt st').

(** A core that has turned itself off loses power. *)
Definition off_ok cores (me : nat) : Prop :=
  ∀ st ph, tree_ok (power_domain_tree st) ph → ph me = PhOff →
    ∃ st' ph', others_run me st ph st' ph' ∧ wfi cores st = Halt st'.

(** No core switches to OS-initiated mode while another one waits for the locks of
    its ancestors with a suspend call. *)
Definition mode_stable cores : Prop :=
  ∀ st st', lock_wait cores st = Ret tt st' →
    suspend_mode st' = OsInitiated → suspend_mode st = OsInitiated.

Lemma save_extensions_wp exts (Q : unit → St → Prop) Hq st :
  Forall returns exts → (∀ st', same_psci st st' → Q tt st') → wp (save_extensions exts) Q Hq st.
Proof.
  revert st. induction exts as [|ext exts IH]; intros st Hret HQ; simpl; [by apply wp_ret, HQ|].
  apply Forall_cons_iff in Hret as [Hr Hret]. apply wp_bind, wp_plat; [done|].
  intros _ st1 [Ht1 Hm1]. apply IH; [done|]. intros st2 [Ht2 Hm2]. apply HQ. split; congruence.
Qed.

(** A CPU that is off stays off until it is turned on. *)
Lemma other_steps_off me s s' :
  rtc (other_step platform me) s s' → tree_ok (power_domain_tree s.1) s.2 →
  s.2 me = PhOff ∨ s.2 me = PhOnPending → s'.2 me = PhOff ∨ s'.2 me = PhOnPending.
Proof.
  induction 1 as [|[st ph] [st1 ph1] s' (c & Hc & Hne & Hstep) _ IH]; [done|].
  intros Hok Hph. simpl in *. apply IH; [by eapply step_ok|].
  destruct (decide (ph me = PhOff)) as [Hoff|Hoff].
  - inversion Hstep; subst; try done; try (rewrite fn_lookup_insert_ne by done; by left).
    destruct (decide (t = me)) as [->|]; [right; by rewrite fn_lookup_insert|].
    left. by rewrite fn_lookup_insert_ne.
  - rewrite (other_step_phase platform _ _ _ _ _ _ Hne Hc Hok Hstep Hoff). done.
Qed.

Section Waiting.
Context (cores : OtherCores St) (me : nat) (Hwait : wait_ok cores me) (Hme : me < CPU_DOMAIN_COUNT).
Context (Hstable : mode_stable cores).

Lemma others_run_ok st ph st' ph' :
  others_run me st ph st' ph' → tree_ok (power_domain_tree st) ph → ph me ≠ PhOff →
  tree_ok (power_domain_tree st') ph' ∧ ph' me = ph me ∧ cpu_node st' me = cpu_node st me.
Proof.
  intros [Hsteps _] Hok Hph. destruct (other_steps_ok platform _ _ _ Hsteps Hok Hph) as [Hok' Hph'].
  split; [done|]. split; [done|]. apply (other_steps_node platform _ _ _ Hsteps Hok Hph).
Qed.

Lemma wfi_wp st ph (Q : unit → St → Prop) (Hq : St → Prop) :
  tree_ok (power_domain_tree st) ph → ph me ≠ PhOff → spm_ok true (spm_state st) →
  (∀ st' ph', tree_ok (power_domain_tree st') ph' → ph' me = ph me →
     spm_ok true (spm_state st') → Q tt st' ∧ Hq st') →
  wp (wfi cores) Q Hq st.
Proof.
  intros Hok Hph Hspm HQ. destruct (Hwait st ph Hok) as [(st' & ph' & Hrun & Hw) _].
  destruct (others_run_ok _ _ _ _ Hrun Hok Hph) as (Hok' & Hph' & _).
  destruct (HQ st' ph' Hok' Hph' (proj2 Hrun _ Hspm)). unfold wp. by destruct Hw as [->| ->].
Qed.

(** What the core [me] leaves behind when it stops: the invariant, with [me]
    not running. *)
Definition stopped (st : St) : Prop :=
  ∃ ph, tree_ok (power_domain_tree st) ph ∧ ph me ≠ PhRunning.

(** A suspend call that returns: the other cores ran, and then it did its part with
    the locks. *)
Lemma suspend_enter_steps ps entry h comp (pd : bool) r st st' ph :
  tree_ok (power_domain_tree st) ph → ph me = PhRunning →
  suspend_enter platform cores me ps entry h comp pd st = Ret r st' →
  ∃ osi cpu st1 ph1, others_run me st ph st1 ph1 ∧ tree_ok (power_domain_tree st1) ph1 ∧
    ph1 me = PhRunning ∧ cpu_power_nodes (power_domain_tree st1) !! me = Some cpu ∧
    suspend_locked platform me ps entry h comp pd (lock_level osi h) cpu st1 = Ret r st'.
Proof.
  intros Hok Hph Hs. destruct (tree_ok_lookup _ _ _ Hok Hme) as [cpu Hcpu].
  apply M_bind_Ret in Hs as (cpu' & ? & Hl & Hs). unfold lock_cpu, locked_cpu_node in Hl.
  pose proof Hcpu as Hget. apply arr_get_Done in Hget.
  cbv [mbind M_bind get lift] in Hl. rewrite Hget in Hl. injection Hl as <- <-.
  apply M_bind_Ret in Hs as (osi & ? & Hosi & Hs). destruct (osi_mode_eq platform st) as (? & Heq & _).
  rewrite Heq in Hosi. injection Hosi as -> <-. apply M_bind_Ret in Hs as (? & st1 & Hlock & Hs).
  destruct (Hwait st ph Hok) as [_ (st2 & ph1 & Hrun & Hlock')]. rewrite Hlock' in Hlock.
  injection Hlock as _ <-. destruct (others_run_ok _ _ _ _ Hrun Hok) as (Hok1 & Hph1 & Hnode); [by rewrite Hph|].
  rewrite Hph in Hph1. unfold cpu_node in Hnode. rewrite Hcpu in Hnode. eauto 10.
Qed.

(** The first part of [cpu_suspend_start]: it returns, after the other cores have
    run; then either the tree is left as it was or the CPU is suspended. *)
Lemma suspend_enter_wp ps entry h comp (pd : bool) s0 st ph :
  tree_ok (power_domain_tree st) ph → ph me = PhRunning → request_ok comp pd h s0 →
  spm_ok true (spm_state st) →
  wp (suspend_enter platform cores me ps entry h comp pd) (λ r st', ∃ st1 ph1,
    others_run me st ph st1 ph1 ∧ tree_ok (power_domain_tree st1) ph1 ∧ ph1 me = PhRunning ∧
    suspend_locked_post me entry pd ph1 st1 r st' ∧ spm_ok true (spm_state st')) (λ _, False) st.
Proof.
  intros Hok Hph Hrq Hspm. destruct (tree_ok_lookup _ _ _ Hok Hme) as [cpu Hcpu].
  apply wp_bind, (wp_lock_cpu me cpu); [done|]. apply wp_bind, wp_is_in_osi_mode.
  intros osi _ Hosi _. apply wp_bind. destruct (Hwait st ph Hok) as [_ (st1 & ph1 & Hrun & Hlock)].
  unfold wp at 1. rewrite Hlock.
  destruct (others_run_ok _ _ _ _ Hrun Hok) as (Hok1 & Hph1 & Hnode); [by rewrite Hph|].
  rewrite Hph in Hph1. unfold cpu_node in Hnode. rewrite Hcpu in Hnode.
  eapply wp_mono; [eapply (suspend_locked_wp platform spm_ok); try done| |done].
  - by apply (proj2 Hrun).
  - intros (-> & Hf & Hm & _). apply (Hstable _ _ Hlock) in Hm.
    rewrite (Hosi eq_refl Hf) in Hm. done.
  - intros r st' [Hpost Hspm']. eauto 8.
Qed.

Lemma suspend_wait_wp comp (pd : bool) st ph (Q : unit → St → Prop) :
  tree_ok (power_domain_tree st) ph → ph me = PhSuspended pd → spm_ok true (spm_state st) →
  (∀ st' ph', tree_ok (power_domain_tree st') ph' → ph' me = PhSuspended pd →
     spm_ok true (spm_state st') → Q tt st') →
  wp (suspend_wait platform cores comp pd) Q stopped st.
Proof.
  intros Hok Hph Hspm HQ. unfold suspend_wait. destruct pd.
  - apply wp_bind.
    apply save_extensions_wp; [apply save_returns|]. intros st1 [Ht1 [= _ Hv1]].
    apply wp_bind, wp_plat_safe; [eauto with rfa|..].
    2: { intros st2 [Ht2 _]. exists ph. rewrite Ht2, Ht1, Hph. done. }
    intros _ st2 [Ht2 [= _ Hv2]].
    apply wp_bind, wp_plat; [eauto with rfa|]. intros _ st3 [Ht3 [= _ Hv3]].
    apply wp_bind, (wfi_wp _ ph);
      [by rewrite Ht3, Ht2, Ht1|by rewrite Hph|by rewrite Hv3, Hv2, Hv1|].
    intros st4 ph4 Hok4 Hph4 Hspm4. rewrite Hph in Hph4. split.
    + apply wp_plat; [eauto with rfa|]. intros [] st5 [Ht5 [= _ Hv5]].
      apply (HQ st5 ph4); [by rewrite Ht5|done|by rewrite Hv5].
    + exists ph4. split; [done|]. by rewrite Hph4.
  - apply (wfi_wp _ ph); [done|by rewrite Hph|done|].
    intros st1 ph1 Hok1 Hph1 Hspm1. rewrite Hph in Hph1.
    split; [by eapply HQ|]. exists ph1. split; [done|]. by rewrite Hph1.
Qed.

(** The state between two calls, and the state a stopped core leaves. *)
Definition idle (st : St) : Prop :=
  ∃ ph, tree_ok (power_domain_tree st) ph ∧ ph me = PhRunning.
Definition consistent (st : St) : Prop := ∃ ph, tree_ok (power_domain_tree st) ph.

(** The outcome of a suspend call: an error means that only the other cores have
    done something, success that the CPU was suspended and is running again (or an
    interrupt was pending), and a core that does not come back left a consistent
    tree. *)
Definition suspend_post (st : St) ph (r : result unit ErrorCode) (st' : St) : Prop :=
  spm_ok true (spm_state st') ∧ idle st' ∧
  match r with
  | Ok _ => True
  | Err _ => ∃ st0 st1 ph1, same_psci st st0 ∧ rtc (other_step platform me) (st0, ph) (st1, ph1) ∧
      power_domain_tree st' = power_domain_tree st1 ∧ suspend_mode st' = suspend_mode st1
  end.

Lemma suspend_post_err st ph e st' :
  tree_ok (power_domain_tree st) ph → ph me = PhRunning → same_psci st st' →
  spm_ok true (spm_state st) → suspend_post st ph (Err e) st'.
Proof.
  intros Hok Hph [Ht [= Hm Hv]] Hspm. split; [by rewrite Hv|]. split; [exists ph; by rewrite Ht|].
  exists st, st, ph. split; [done|]. split; [constructor|done].
Qed.

Lemma cpu_suspend_start_wp ps entry h comp pd s0 st ph :
  tree_ok (power_domain_tree st) ph → ph me = PhRunning → request_ok comp pd h s0 →
  spm_ok true (spm_state st) →
  wp (cpu_suspend_start platform cores me ps entry h comp pd) (suspend_post st ph) stopped st.
Proof.
  intros Hok Hph Hrq Hspm. apply wp_try.
  eapply wp_mono; [by eapply suspend_enter_wp| |done].
  intros r st2 (st1 & ph1 & [Hrun _] & Hok1 & Hph1 & [Hm Hpost] & Hspm2).
  destruct r as [[[] comp']|e]; [|destruct Hpost as (Hlen & Hok2 & _)|].
  - apply wp_ret. split; [done|]. split; [exists ph1; by rewrite Hpost|done].
  - apply wp_bind, (suspend_wait_wp _ _ _ _ _ Hok2); [by rewrite fn_lookup_insert|done|].
    intros st3 ph3 Hok3 Hph3 Hspm3. apply wp_bind.
    eapply wp_mono; [eapply (suspend_resume_wp platform spm_ok me comp' pd); try done| |done].
    intros [] st4 (_ & Hspm4 & Hok4). apply wp_ret. split; [done|]. split; [|done].
    eexists. split; [done|]. by rewrite fn_lookup_insert.
  - split; [done|]. split; [exists ph1; by rewrite Hpost|]. exists st, st1, ph1. split; [apply same_psci_refl|done].
Qed.

(** A suspend call that begins with an operation of the platform. *)
Lemma suspend_post_same st st1 ph r st' :
  same_psci st st1 → suspend_post st1 ph r st' → suspend_post st ph r st'.
Proof.
  intros [Ht Hm] (Hspm & Hi & Hr). split; [done|]. split; [done|]. destruct r as [|e]; [done|].
  destruct Hr as (st0 & st2 & ph2 & [Ht0 Hm0] & Hr). exists st0, st2, ph2.
  split; [split; congruence|done].
Qed.

Lemma cpu_suspend_wp ps entry st ph :
  tree_ok (power_domain_tree st) ph → ph me = PhRunning → spm_ok true (spm_state st) →
  wp (cpu_suspend platform cores me ps entry) (suspend_post st ph) stopped st.
Proof.
  intros Hok Hph Hspm. pose proof (tk_index _ _ Hok).
  apply wp_bind, wp_cpu_index; [lia|]. apply wp_try, wp_ret.
  destruct (try_parse_power_state platform ps) as [comp|] eqn:Hparse;
    [|by apply suspend_post_err; [..|apply same_psci_refl|]]. simpl.
  destruct (parse_ok _ _ Hparse) as [Hlen Hvalid].
  apply wp_bind. eapply wp_lift; [by rewrite Hvalid|].
  destruct (find_highest_non_run_level comp) as [h|] eqn:Hh.
  2: { unfold is_valid_suspend_request in Hvalid. by rewrite Hh in Hvalid. }
  destruct (valid_request_ok _ _ _ Hlen Hvalid Hh) as [s0 Hrq].
  apply wp_bind. eapply wp_lift; [done|]. destruct (negb _ && _) eqn:Hsb.
  - assert (power_state_type s0 = StandbyOrRetention) as Hstandby.
    { apply andb_true_iff in Hsb as [Hnpd%negb_true_iff _]. rewrite Hnpd in Hvalid, Hrq.
      by eapply valid_standby. }
    apply wp_bind. eapply wp_lift; [by apply arr_get_Done, Hrq|]. apply wp_bind.
    eapply wp_mono; [apply (set_cpu_local_state_wp me s0 st ph PhStandby); auto| |done].
    intros [] st1 (_ & Hv1 & Hok1). apply wp_bind, wp_plat; [eauto with rfa|]. intros [] st2 [Ht2 [= _ Hv2]].
    rewrite <-Ht2 in Hok1. apply wp_bind, (wfi_wp _ _ _ _ Hok1);
      [by rewrite fn_lookup_insert|by rewrite Hv2, Hv1|].
    intros st3 ph3 Hok3 Hph3 Hspm3. rewrite fn_lookup_insert in Hph3.
    split; [|exists ph3; split; [done|by rewrite Hph3]]. apply wp_bind.
    eapply wp_mono; [apply (set_cpu_local_state_wp me RUN st3 ph3 PhRunning); auto| |done].
    intros [] st4 (_ & Hv4 & Hok4). apply wp_ret. split; [by rewrite Hv4|]. split; [|done].
    eexists. split; [done|]. by rewrite fn_lookup_insert.
  - apply wp_bind. destruct (is_power_down ps).
    + apply wp_plat; [eauto with rfa|]. intros [] st1 Hs1; simpl; [|by apply suspend_post_err].
      eapply wp_mono; [eapply cpu_suspend_start_wp; [by rewrite (proj1 Hs1)|done..|]| |done].
      { destruct Hs1 as [_ [= _ ->]]. done. }
      intros r st2. by apply suspend_post_same.
    + apply wp_ret. simpl. by eapply cpu_suspend_start_wp.
Qed.

(** [cpu_off] only returns an error, and then nothing has changed; otherwise
    the core is off (or already being turned on again by another core). *)
Lemma cpu_off_wp st ph :
  off_ok cores me → tree_ok (power_domain_tree st) ph → ph me = PhRunning →
  spm_ok true (spm_state st) →
  wp (cpu_off platform cores me) (λ r st',
    (∃ e, r = Err e) ∧ power_domain_tree st' = power_domain_tree st ∧ spm_ok true (spm_state st'))
    (λ st', ∃ ph', tree_ok (power_domain_tree st') ph' ∧
       (ph' me = PhOff ∨ ph' me = PhOnPending)) st.
Proof.
  intros Hoff Hok Hph Hspm. pose proof (tk_index _ _ Hok).
  apply wp_bind, wp_cpu_index; [lia|]. apply wp_try.
  eapply wp_mono; [by eapply (off_enter_wp platform spm_ok)| |done].
  intros [comp|e] st1 [Hm Hpost]; [destruct Hpost as [Hpost _]|by destruct Hpost; eauto].
  apply wp_bind, wp_plat_safe; [eauto with rfa|..].
  2: { intros st2 [Ht2 _]. rewrite <-Ht2 in Hpost. eexists. split; [done|].
    left. by rewrite fn_lookup_insert. }
  intros _ st2 [Ht2 _].
  apply wp_bind, wp_plat; [eauto with rfa|]. intros _ st3 [Ht3 _].
  rewrite <-Ht2, <-Ht3 in Hpost. unfold CPU_OFF_WFI_RETRY_COUNT. cbn [wfi_retry].
  apply wp_bind, wp_bind.
  destruct (Hoff st3 _ Hpost) as (st4 & ph4 & [Hsteps _] & Hhalt); [by rewrite fn_lookup_insert|].
  unfold wp at 1. rewrite Hhalt. exists ph4. split; [by apply (other_steps_tree_ok platform _ _ _ Hsteps)|].
  apply (other_steps_off _ _ _ Hsteps); [done|]. left. simpl. by rewrite fn_lookup_insert.
Qed.

(** ** The remaining calls *)
Context `{!ArmPsciOps} `{!PsciOptionalLaws platform}.

Lemma system_suspend_wp entry st ph :
  tree_ok (power_domain_tree st) ph → ph me = PhRunning → spm_ok true (spm_state st) →
  wp (system_suspend platform cores me entry) (suspend_post st ph) stopped st.
Proof.
  intros Hok Hph Hspm. pose proof (tk_index _ _ Hok). unfold system_suspend.
  destruct (has_feature platform SYSTEM_SUSPEND) eqn:Hf;
    [|by apply wp_ret, suspend_post_err; [..|apply same_psci_refl|]]. cbn [negb].
  apply wp_bind, wp_cpu_index; [lia|]. apply wp_bind, wp_get.
  destruct (is_last_cpu_spec (power_domain_tree st) me) as (b & Hb & _).
  { intros cpu Hc. rewrite (phase_affinity _ _ _ _ Hok Hc). by rewrite Hph. }
  apply wp_bind. eapply wp_lift; [done|]. destruct b;
    [|by apply wp_ret, suspend_post_err; [..|apply same_psci_refl|]]. cbn [negb].
  apply wp_bind, wp_plat; [eauto with rfa|]. intros valid st1 [Ht1 Hm1].
  destruct valid; [|by apply wp_ret, suspend_post_err; [..|split|]]. cbn [negb]. apply wp_bind. unfold wp at 1, plat.
  destruct (sys_suspend_ok Hf (world st1)) as (c & w' & -> & Hlen & Hc).
  case_decide as Hlev; [by apply wp_ret, suspend_post_err; [..|split|]|].
  destruct (Hc Hlev) as [Hvalid (s & Hs & Hpd)].
  destruct (valid_request_ok _ _ _ Hlen Hvalid Hlev) as [s0 Hrq].
  apply wp_bind. eapply wp_lift; [by rewrite Hvalid|].
  apply wp_bind. eapply wp_lift.
  { apply arr_get_Done. unfold STATE_COUNT. by rewrite Nat.add_sub. }
  apply wp_bind. eapply wp_lift; [by rewrite bool_decide_true|].
  pose proof Hm1 as [= _ Hv1].
  eapply wp_mono; [by eapply cpu_suspend_start_wp; [simpl; rewrite Ht1|..|simpl; rewrite Hv1]| |done].
  intros r st2. apply suspend_post_same. by split.
Qed.

Lemma idle_consistent st : idle st → consistent st.
Proof. intros (ph & ? & _). by exists ph. Qed.

Lemma idle_same st st' : power_domain_tree st' = power_domain_tree st → idle st → idle st'.
Proof. intros Ht (ph & Hok & Hph). exists ph. by rewrite Ht. Qed.

(** The core runs between two calls, and its SPM is up. *)
Definition serving (st : St) : Prop := idle st ∧ spm_ok true (spm_state st).

Lemma serving_same st st' : same_psci st st' → serving st → serving st'.
Proof. intros [Ht [= _ Hv]] [Hi Hs]. split; [by eapply idle_same|by rewrite Hv]. Qed.

(** A handler that does not panic and comes back to a state between calls. *)
Definition keeps {A} (m : M St A) : Prop := ∀ st, serving st → wp m (λ _, serving) consistent st.

Lemma keeps_ret {A} (a : A) : keeps (mret a).
Proof. intros st Hi. by apply wp_ret. Qed.

Lemma keeps_try {A B E} (m : M St (result A E)) (k : A → M St (result B E)) :
  keeps m → (∀ a, keeps (k a)) → keeps (try_M m k).
Proof.
  intros Hm Hk st Hi. apply wp_try. eapply wp_mono; [by apply Hm| |done].
  intros [a|e] st'; [apply Hk|done].
Qed.

Lemma keeps_bind {A B} (m : M St A) (k : A → M St B) :
  keeps m → (∀ a, keeps (k a)) → keeps (m ≫= k).
Proof.
  intros Hm Hk st Hi. apply wp_bind. eapply wp_mono; [by apply Hm| |done].
  intros a st'. apply Hk.
Qed.

Lemma keeps_plat {A} (m : M W A) : safe m → keeps (plat m).
Proof.
  intros Hm st Hi. apply wp_plat_safe; [done|..].
  - intros a st' Hs. by eapply serving_same.
  - intros st' [Ht _]. by eapply idle_consistent, idle_same; [|apply Hi].
Qed.

Lemma returns_safe {A} (m : M W A) : returns m → safe m.
Proof. intros Hm w. destruct (Hm w) as (a & w' & ->). done. Qed.

Lemma keeps_lift {A} (o : outcome A) : o ≠ Panic → keeps (lift o).
Proof. intros Ho st Hi. destruct o; [|done]. by eapply wp_lift. Qed.

Lemma keeps_forward f : keeps (forward_to_spm platform f).
Proof.
  intros st [Hi Hs]. apply (wp_forward_to_spm platform spm_ok); [done|]. intros st' [Ht _] Hs'.
  split; [by eapply idle_same|done].
Qed.

Lemma keeps_feature {A} flag (m : M St (result A ErrorCode)) :
  (has_feature platform flag = true → keeps m) →
  keeps (if negb (has_feature platform flag) then mret (Err NotSupported) else m).
Proof. intros Hm. destruct (has_feature platform flag); simpl; [auto|apply keeps_ret]. Qed.

Lemma keeps_never {A} (m : M W Empty_set) :
  safe m → keeps (A := A) (never ← plat m; match never : Empty_set with end).
Proof. intros Hm. apply keeps_bind; [by apply keeps_plat|]. intros []. Qed.

Lemma keeps_cpu_suspend ps entry : keeps (cpu_suspend platform cores me ps entry).
Proof.
  intros st [(ph & Hok & Hph) Hs]. eapply wp_mono; [by eapply cpu_suspend_wp|..].
  - intros r st' (? & ? & _). done.
  - intros st' (ph' & ? & _). by exists ph'.
Qed.

Lemma keeps_system_suspend entry : keeps (system_suspend platform cores me entry).
Proof.
  intros st [(ph & Hok & Hph) Hs]. eapply wp_mono; [by eapply system_suspend_wp|..].
  - intros r st' (? & ? & _). done.
  - intros st' (ph' & ? & _). by exists ph'.
Qed.

Lemma keeps_cpu_off : off_ok cores me → keeps (cpu_off platform cores me).
Proof.
  intros Hoff st [Hi Hs]. pose proof Hi as (ph & Hok & Hph).
  eapply wp_mono; [by eapply cpu_off_wp|..].
  - intros r st' (_ & Ht & Hs'). split; [by eapply idle_same|done].
  - intros st' (ph' & ? & _). by exists ph'.
Qed.

Lemma keeps_cpu_on m entry : keeps (cpu_on platform m entry).
Proof.
  intros st [Hi Hs]. pose proof Hi as (ph & Hok & Hph).
  eapply wp_mono; [by eapply cpu_on_wp| |intros st' [Ht _]; by eapply idle_consistent, idle_same].
  intros r st' [[= _ Hv] Hpost]. split; [|by rewrite Hv].
  destruct r as [[]|e]; [|by eapply idle_same; [apply Hpost|]].
  destruct Hpost as (c & _ & Hc & Hok' & _). eexists. split; [done|].
  rewrite fn_lookup_insert_ne; [done|]. intros ->. congruence.
Qed.

Lemma keeps_set_suspend_mode mode : keeps (set_suspend_mode platform me mode).
Proof.
  intros st [Hi Hs]. pose proof Hi as (ph & Hok & Hph).
  eapply wp_mono; [by eapply set_suspend_mode_wp| |done].
  intros r st' (Ht & _ & Hv & _). split; [by eapply idle_same|by rewrite Hv].
Qed.

Lemma keeps_affinity_info m level : keeps (affinity_info platform m level).
Proof.
  intros st Hi. pose proof Hi as [(ph & Hok & Hph) _].
  destruct (cpu_index_ok platform m (tk_index _ _ Hok)) as (i & Hind & Hlt).
  apply wp_bind. eapply wp_lift; [done|]. apply wp_try, wp_ret.
  destruct i as [c|]; [|done]. simpl. case_decide; [by apply wp_ret|].
  destruct (tree_ok_lookup _ _ c Hok (Hlt c eq_refl)) as [cpu Hcpu].
  by apply wp_bind, (wp_lock_cpu c cpu); [|apply wp_ret].
Qed.

Lemma keeps_node_hw_state m level : keeps (node_hw_state platform m level).
Proof.
  apply keeps_feature. intros Hf st Hi. pose proof Hi as [(ph & Hok & Hph) _].
  destruct (cpu_index_ok platform m (tk_index _ _ Hok)) as (i & Hind & Hlt).
  apply wp_bind. eapply wp_lift; [done|]. destruct (_ || _); [by apply wp_ret|].
  apply keeps_plat; [by apply node_hw_state_safe|done].
Qed.

(** Every PSCI call keeps the service in a good state. *)
Lemma keeps_handle_smc_inner regs :
  off_ok cores me → keeps (handle_smc_inner platform cores me regs).
Proof.
  intros Hoff. apply keeps_try; [apply keeps_ret|]. intros [];
    try (apply keeps_ret); try (apply keeps_try; [|intros; apply keeps_ret]).
  - apply keeps_cpu_suspend.
  - by apply keeps_cpu_off.
  - apply keeps_cpu_on.
  - apply keeps_affinity_info.
  - apply keeps_bind; [apply keeps_forward|intros; apply keeps_never, system_off_safe].
  - apply keeps_feature. intros Hf. apply keeps_bind; [apply keeps_forward|].
    intros. by apply keeps_plat, system_off2_safe.
  - apply keeps_bind; [apply keeps_forward|intros; apply keeps_never, system_reset_safe].
  - apply keeps_feature. intros Hf. apply keeps_bind; [apply keeps_forward|].
    intros. by apply keeps_plat, system_reset2_safe.
  - apply keeps_feature. intros Hf. by apply keeps_plat, mem_protect_safe.
  - apply keeps_feature. intros Hf. by apply keeps_plat, check_range_safe.
  - apply keeps_feature. intros Hf. by apply keeps_never, cpu_freeze_safe.
  - apply keeps_feature. intros Hf. apply keeps_bind; [by apply keeps_plat, default_suspend_safe|].
    intros. apply keeps_cpu_suspend.
  - apply keeps_node_hw_state.
  - apply keeps_system_suspend.
  - apply keeps_set_suspend_mode.
Qed.
End Waiting.
End Calls.
