(* ===== verification/Platforms.v ===== *)
(** * The PSCI implementations of the QEMU and FVP platforms

    [qemu-rf-a-bl31/src/main.rs] and [fvp-rf-a-bl31/src/main.rs] (with
    [config.rs]): the topology, the parsing of power states, the numbering of
    the cores and the PSCI callbacks.  Devices (the GIC, the power controller,
    GPIO, the holding pen) are parameters. *)

From Stdlib Require Import ZArith Lia.
From stdpp Require Import base list numbers option vector fin.
From S2P Require Import Prelude PowerState Smccc PowerTree Composite TreeInv Coordination Psci PsciInv PsciSystem.
Open Scope Z_scope.

(** ** MPIDR *)

(** The accessors and constants of [arm_sysregs::MpidrEl1], and the conversion
    from the PSCI representation. *)
Class MpidrOps `{ArmPsciTypes} := {
  from_psci_mpidr : Mpidr → Z;
  aff0 : Z → Z;
  aff1 : Z → Z;
  aff2 : Z → Z;
  aff3 : Z → Z;
  contains_MT : Z → bool;
  MPIDR_MT : Z;
  AFFINITY_BITS : Z;
  AFF0_MASK : Z;
  AFF1_MASK : Z;
  AFF0_SHIFT : Z;
  AFF1_SHIFT : Z;
  AFF2_SHIFT : Z;
}.

(** The layout of [MPIDR_EL1] in the Arm architecture, of which a register
    holds 64 bits. *)
Class MpidrLaws `{ArmPsciTypes} `{!MpidrOps} : Prop := {
  mpidr_range : ∀ m, 0 ≤ from_psci_mpidr m < 2 ^ 64;
  aff0_spec : ∀ v, aff0 v = Z.land v 0xff;
  aff1_spec : ∀ v, aff1 v = Z.land (Z.shiftr v 8) 0xff;
  aff2_spec : ∀ v, aff2 v = Z.land (Z.shiftr v 16) 0xff;
  MT_spec : ∀ v, contains_MT v = negb (Z.land v MPIDR_MT =? 0);
  AFFINITY_BITS_spec : AFFINITY_BITS = 8;
  AFF0_MASK_spec : AFF0_MASK = 0xff;
  AFF1_MASK_spec : AFF1_MASK = 0xff;
  AFF0_SHIFT_spec : AFF0_SHIFT = 0;
  AFF1_SHIFT_spec : AFF1_SHIFT = 8;
  AFF2_SHIFT_spec : AFF2_SHIFT = 16;
}.

(** [ubfx xd, xn, #lsb, #width]. *)
Definition ubfx (v lsb width : Z) : Z := Z.land (Z.shiftr v lsb) (Z.ones width).

(** ** QEMU *)
Definition QEMU_CLUSTER_COUNT : nat := 1.
Definition PLATFORM_CPU_PER_CLUSTER_SHIFT : Z := 2.
Definition MAX_CPUS_PER_CLUSTER : nat := 4.
Definition QEMU_CORE_COUNT : nat := (QEMU_CLUSTER_COUNT * MAX_CPUS_PER_CLUSTER)%nat.
Definition QEMU_PSCI_MAX_POWER_LEVEL : nat := 2.

Definition qemu_dims : PsciDims := {|
  CPU_DOMAIN_COUNT := QEMU_CORE_COUNT;
  NON_CPU_DOMAIN_COUNT := (QEMU_CLUSTER_COUNT + 1)%nat;
  MAX_POWER_LEVEL := QEMU_PSCI_MAX_POWER_LEVEL;
  NODE_INDEX_MAX := 255;
|}.

Definition qemu_topology : list nat := [1%nat; QEMU_CLUSTER_COUNT; MAX_CPUS_PER_CLUSTER].

Section QemuMpidr.
Context `{MpidrOps}.

Definition qemu_mpidr_is_valid (mpidr : Z) : bool :=
  (aff3 mpidr =? 0) && (aff2 mpidr =? 0) &&
  (aff1 mpidr <? Z.of_nat QEMU_CLUSTER_COUNT) && (aff0 mpidr <? Z.of_nat MAX_CPUS_PER_CLUSTER).

(** The assembly of [core_position]. *)
Definition qemu_core_position (mpidr : Z) : Z :=
  let x1 := Z.land mpidr (Z.shiftl AFF0_MASK AFF0_SHIFT) in
  let x0 := Z.land mpidr (Z.shiftl AFF1_MASK AFF1_SHIFT) in
  as_u64 (x1 + Z.shiftr x0 (AFFINITY_BITS - PLATFORM_CPU_PER_CLUSTER_SHIFT)).
End QemuMpidr.

(** [try_parse_power_state]; [raw] is [u32::from(power_state)]. *)
Definition qemu_try_parse_power_state (into_u32 : PowerState → Z) (power_state : PowerState)
    : option (PsciCompositePowerState QemuPowerState) :=
  let POWER_STATES_MASK := 0x00000fff in
  let LOCAL_PSTATE_WIDTH := 4 in
  let LOCAL_PSTATE_MASK := Z.shiftl 1 LOCAL_PSTATE_WIDTH - 1 in
  let shift := LOCAL_PSTATE_WIDTH * (Z.of_nat QEMU_PSCI_MAX_POWER_LEVEL + 1) in
  let mask := Z.shiftl LOCAL_PSTATE_MASK shift in
  let last := Z.shiftr (Z.land (into_u32 power_state) mask) shift in
  if Z.of_nat QEMU_PSCI_MAX_POWER_LEVEL <? last then None
  else
    let raw := Z.land (into_u32 power_state) POWER_STATES_MASK in
    match power_state with
    | PsStandbyOrRetention id =>
        if id =? 0x1
        then Some (new_with_last_power_level [QemuRetention; QemuOn; QemuOn] (Z.to_nat last))
        else None
    | PsPowerDown _ =>
        states ← (if raw =? 0x2 then Some [QemuPowerDown; QemuOn; QemuOn]
                  else if raw =? 0x12 then Some [QemuPowerDown; QemuRetention; QemuOn]
                  else if raw =? 0x22 then Some [QemuPowerDown; QemuPowerDown; QemuOn]
                  else if raw =? 0x222 then Some [QemuPowerDown; QemuPowerDown; QemuOn]
                  else None);
        Some (new_with_last_power_level states (Z.to_nat last))
    end.

Inductive PowerDownKind : Type := PdkOff | PdkSuspend.
Global Instance PowerDownKind_eq_dec : EqDecision PowerDownKind.
Proof. solve_decision. Defined.

(** Indexing of a Rust array [[A; n]]. *)
Definition vec_get {A} {n : nat} (v : vec A n) (i : nat) : outcome A :=
  match decide (i < n)%nat with
  | left H => Done (v !!! nat_to_fin H)
  | right _ => Panic
  end.
Definition vec_set {A} {n : nat} (v : vec A n) (i : nat) (x : A) : outcome (vec A n) :=
  match decide (i < n)%nat with
  | left H => Done (vinsert (nat_to_fin H) x v)
  | right _ => Panic
  end.

(** The holding pen: one slot for each core, in a mailbox the cores share. *)
Record HoldSlot := mkHoldSlot { entry : Z; magic1 : Z; magic2 : Z }.
Abbreviation HoldSlots := (vec HoldSlot QEMU_CORE_COUNT).

Definition HOLD_MAGIC1 : Z := 0xCAFECAFE.
Definition HOLD_MAGIC2 : Z := 0xBEEFBEEF.
Definition HOLD_STATE_WAIT : Z := 2 ^ 64 - 1.

Definition plat_hold_pen_init (slots : HoldSlots) : outcome HoldSlots :=
  fold_outcome (λ slots i, vec_set slots i (mkHoldSlot HOLD_STATE_WAIT HOLD_MAGIC1 HOLD_MAGIC2))
    slots (seq 0 QEMU_CORE_COUNT).

Definition plat_hold_pen_signal (slots : HoldSlots) (cpu_index : nat) (entrypoint : Z)
    : outcome HoldSlots :=
  slot ← vec_get slots cpu_index;
  vec_set slots cpu_index (mkHoldSlot entrypoint (magic1 slot) (magic2 slot)).

(** One turn of the loop of [plat_secondary_cold_boot_setup] on the slot of the
    core: the entry point to branch to, or to wait for the next event. *)
Definition hold_pen_poll (slot : HoldSlot) : HoldSlot * option Z :=
  if negb (magic1 slot =? HOLD_MAGIC1) then (slot, None)
  else if negb (magic2 slot =? HOLD_MAGIC2) then (slot, None)
  else if entry slot =? HOLD_STATE_WAIT then (slot, None)
  else (mkHoldSlot HOLD_STATE_WAIT (magic1 slot) (magic2 slot), Some (entry slot)).

(** The devices and entry points the QEMU callbacks use. *)
Record QemuHw (Hw : Type) := {
  q_gic_cpu_interface_disable : M Hw unit;
  q_gic_cpu_interface_enable : M Hw unit;
  q_gic_redistributor_init : M Hw unit;
  q_dsb_sy_wfi : M Hw unit;
  q_sev : M Hw unit;
  q_gpio_system_off : M Hw unit;
  q_gpio_system_reset : M Hw unit;
  q_has_pending_interrupts : M Hw bool;
  q_warm_entrypoint_address : Z;
}.
Arguments q_gic_cpu_interface_disable {Hw}.
Arguments q_gic_cpu_interface_enable {Hw}.
Arguments q_gic_redistributor_init {Hw}.
Arguments q_dsb_sy_wfi {Hw}.
Arguments q_sev {Hw}.
Arguments q_gpio_system_off {Hw}.
Arguments q_gpio_system_reset {Hw}.
Arguments q_has_pending_interrupts {Hw}.
Arguments q_warm_entrypoint_address {Hw}.

(** The rest of the firmware a platform's PSCI is combined with: the CPU
    operations. *)
Record PsciEnv (W : Type) := {
  env_save_extensions : list (M W unit);
  env_cpu_power_down : nat → M W unit;
  env_power_down_abandon : M W unit;
  env_dsb_sy : M W unit;
}.
Arguments env_save_extensions {W}.
Arguments env_cpu_power_down {W}.
Arguments env_power_down_abandon {W}.
Arguments env_dsb_sy {W}.

Record env_ok {W} (env : PsciEnv W) : Prop := {
  eo_save : Forall returns (env_save_extensions env);
  eo_power_down : ∀ l, returns (env_cpu_power_down env l);
  eo_abandon : returns (env_power_down_abandon env);
  eo_dsb : returns (env_dsb_sy env);
}.

(** The state of the platform. *)
Record QemuWorld (Hw : Type) := mkQemuWorld {
  per_cpu_powerdown_kinds : vec PowerDownKind QEMU_CORE_COUNT;
  hold_slots : HoldSlots;
  q_devices : Hw;
}.
Arguments mkQemuWorld {Hw}.
Arguments per_cpu_powerdown_kinds {Hw}.
Arguments hold_slots {Hw}.
Arguments q_devices {Hw}.

Section QemuPsci.
Context `{ArmPsciTypes} `{!MpidrOps} {Hw : Type} (hw : QemuHw Hw) (me : nat).
Context (into_u32 : PowerState → Z).
Local Existing Instance qemu_dims.

Local Abbreviation W := (QemuWorld Hw).
Context (env : PsciEnv W) {V : Type} (spm : PsciSpmInterface V).

Definition q_hw {A} (m : M Hw A) : M W A := λ w,
  match m (q_devices w) with
  | Ret a h => Ret a (mkQemuWorld (per_cpu_powerdown_kinds w) (hold_slots w) h)
  | Halt h => Halt (mkQemuWorld (per_cpu_powerdown_kinds w) (hold_slots w) h)
  | Crash => Crash
  end.

Definition q_set_kind (k : PowerDownKind) : M W unit := λ w,
  match vec_set (per_cpu_powerdown_kinds w) me k with
  | Done ks => Ret tt (mkQemuWorld ks (hold_slots w) (q_devices w))
  | Panic => Crash
  end.
Definition q_get_kind : M W PowerDownKind := λ w,
  match vec_get (per_cpu_powerdown_kinds w) me with Done k => Ret k w | Panic => Crash end.
Definition q_hold_pen_signal (cpu_index : nat) (entrypoint : Z) : M W unit := λ w,
  match plat_hold_pen_signal (hold_slots w) cpu_index entrypoint with
  | Done slots => q_hw (q_sev hw) (mkQemuWorld (per_cpu_powerdown_kinds w) slots (q_devices w))
  | Panic => Crash
  end.

Definition qemu_cpu_standby (cpu_state : QemuPowerState) : M W unit :=
  _ ← lift (assert_ (bool_decide (power_state_type cpu_state = StandbyOrRetention)));
  q_hw (q_dsb_sy_wfi hw).

Definition qemu_power_domain_suspend (target : PsciCompositePowerState QemuPowerState) : M W unit :=
  q_set_kind PdkSuspend.

Definition qemu_power_domain_off (target : PsciCompositePowerState QemuPowerState) : M W unit :=
  s ← lift (cpu_level_state target);
  _ ← lift (assert_ (bool_decide (s = QemuPowerDown)));
  _ ← q_hw (q_gic_cpu_interface_disable hw);
  q_set_kind PdkOff.

(** Neither branch returns: the core waits in the holding pen, or wakes up, and
    starts again at an entry point of the firmware. *)
Definition qemu_power_domain_power_down (target : PsciCompositePowerState QemuPowerState)
    : M W unit :=
  k ← q_get_kind;
  if decide (k = PdkOff) then halt
  else _ ← q_hw (q_dsb_sy_wfi hw); halt.

Definition qemu_mpidr_index (mpidr : Mpidr) : outcome (option nat) :=
  let m := from_psci_mpidr mpidr in
  if qemu_mpidr_is_valid m then
    let i := Z.to_nat (qemu_core_position m) in
    if decide (i ≤ 255)%nat then mret (Some i) else Panic
  else mret None.

Definition qemu_power_domain_on (mpidr : Mpidr) : M W (result unit ErrorCode) :=
  index ← lift (qemu_mpidr_index mpidr);
  cpu_index ←? mret (ok_or index InvalidParameters);
  _ ← lift (assert_ (bool_decide (cpu_index < QEMU_CORE_COUNT)%nat));
  _ ← q_hold_pen_signal cpu_index (q_warm_entrypoint_address hw);
  mret (Ok tt).

Definition qemu_power_domain_on_finish (previous : PsciCompositePowerState QemuPowerState)
    : M W unit :=
  s ← lift (cpu_level_state previous);
  _ ← lift (assert_ (bool_decide (s = QemuPowerDown)));
  _ ← q_hw (q_gic_redistributor_init hw);
  q_hw (q_gic_cpu_interface_enable hw).

(** The machine stops when the GPIO pin is set; otherwise the call panics. *)
Definition qemu_system_off : M W Empty_set := _ ← q_hw (q_gpio_system_off hw); crash.
Definition qemu_system_reset : M W Empty_set := _ ← q_hw (q_gpio_system_reset hw); crash.

Definition qemu_psci : PsciPlatform QemuPowerState W V := {|
  FEATURES := OS_INITIATED_MODE;
  topology := qemu_topology;
  try_parse_power_state := qemu_try_parse_power_state into_u32;
  cpu_standby := qemu_cpu_standby;
  power_domain_suspend := qemu_power_domain_suspend;
  power_domain_suspend_finish _ := mret tt;
  power_domain_validate_suspend _ := mret (Ok tt);
  power_domain_off_early _ := mret (Ok tt);
  power_domain_off := qemu_power_domain_off;
  power_domain_power_down := qemu_power_domain_power_down;
  power_domain_on := qemu_power_domain_on;
  power_domain_on_finish := qemu_power_domain_on_finish;
  plat_system_off := qemu_system_off;
  plat_system_off2 _ _ := crash;
  plat_system_reset := qemu_system_reset;
  plat_system_reset2 _ _ := crash;
  plat_mem_protect _ := crash;
  plat_mem_protect_check_range _ := crash;
  plat_cpu_freeze := crash;
  cpu_default_suspend_power_state := crash;
  plat_node_hw_state _ _ := crash;
  sys_suspend_power_state := crash;
  is_valid_ns_entrypoint _ := mret true;
  has_pending_interrupts := q_hw (q_has_pending_interrupts hw);
  mpidr_is_valid m := qemu_mpidr_is_valid (from_psci_mpidr m);
  core_position m := Z.to_nat (qemu_core_position (from_psci_mpidr m));
  save_extensions_before_powerdown := env_save_extensions env;
  cpu_power_down := env_cpu_power_down env;
  cpu_handle_power_down_abandon := env_power_down_abandon env;
  dsb_sy := env_dsb_sy env;
  psci_spm := spm;
|}.
End QemuPsci.

(** ** FVP *)
Definition FVP_CLUSTER_COUNT : nat := 2.
Definition FVP_MAX_CPUS_PER_CLUSTER : nat := 4.
Definition FVP_MAX_PE_PER_CPU : nat := 1.
Definition FVP_CORE_COUNT : nat :=
  (FVP_CLUSTER_COUNT * FVP_MAX_CPUS_PER_CLUSTER * FVP_MAX_PE_PER_CPU)%nat.
Definition FVP_PSCI_MAX_POWER_LEVEL : nat := 2.
Definition CLUSTER_POWER_LEVEL : nat := 1.

Definition fvp_dims : PsciDims := {|
  CPU_DOMAIN_COUNT := FVP_CORE_COUNT;
  NON_CPU_DOMAIN_COUNT := (1 + FVP_CLUSTER_COUNT)%nat;
  MAX_POWER_LEVEL := FVP_PSCI_MAX_POWER_LEVEL;
  NODE_INDEX_MAX := 255;
|}.

Definition fvp_topology : list nat :=
  1%nat :: FVP_CLUSTER_COUNT :: replicate FVP_CLUSTER_COUNT FVP_MAX_CPUS_PER_CLUSTER.

Section FvpMpidr.
Context `{MpidrOps}.

Definition fvp_mpidr_is_valid (mpidr : Z) : bool :=
  if contains_MT mpidr then
    (aff3 mpidr =? 0) && (aff2 mpidr <? Z.of_nat FVP_CLUSTER_COUNT) &&
    (aff1 mpidr <? Z.of_nat FVP_MAX_CPUS_PER_CLUSTER) &&
    (aff0 mpidr <? Z.of_nat FVP_MAX_PE_PER_CPU)
  else
    (aff3 mpidr =? 0) && (aff2 mpidr =? 0) &&
    (aff1 mpidr <? Z.of_nat FVP_CLUSTER_COUNT) &&
    (aff0 mpidr <? Z.of_nat FVP_MAX_CPUS_PER_CLUSTER).

(** The assembly of [core_position]. *)
Definition fvp_core_position (mpidr : Z) : Z :=
  let x3 := as_u64 (Z.shiftl mpidr AFFINITY_BITS) in
  let x3 := if Z.land mpidr MPIDR_MT =? 0 then x3 else mpidr in
  let x0 := ubfx x3 AFF0_SHIFT AFFINITY_BITS in
  let x1 := ubfx x3 AFF1_SHIFT AFFINITY_BITS in
  let x2 := ubfx x3 AFF2_SHIFT AFFINITY_BITS in
  let x1 := as_u64 (x1 + x2 * Z.of_nat FVP_MAX_CPUS_PER_CLUSTER) in
  as_u64 (x0 + x1 * Z.of_nat FVP_MAX_PE_PER_CPU).
End FvpMpidr.

Definition fvp_try_parse_power_state (power_state : PowerState)
    : option (PsciCompositePowerState FvpPowerState) :=
  let POWER_LEVEL_STATE_MASK := 0x00000fff in
  let ARM_LOCAL_PSTATE_WIDTH := 4 in
  let ARM_LOCAL_PSTATE_MASK := Z.shiftl 1 ARM_LOCAL_PSTATE_WIDTH - 1 in
  let shift := ARM_LOCAL_PSTATE_WIDTH * (Z.of_nat FVP_PSCI_MAX_POWER_LEVEL + 1) in
  match power_state with
  | PsStandbyOrRetention v =>
      if v =? 0x01 then Some (composite_new [FvpRetention; FvpRun; FvpRun]) else None
  | PsPowerDown value =>
      let id := Z.land value POWER_LEVEL_STATE_MASK in
      states ← (if id =? 0x002 then Some [FvpOff; FvpRun; FvpRun]
                else if id =? 0x022 then Some [FvpOff; FvpOff; FvpRun]
                else if id =? 0x222 then Some [FvpOff; FvpOff; FvpRun]
                else None);
      let last := Z.to_nat (Z.land (Z.shiftr value shift) ARM_LOCAL_PSTATE_MASK) in
      if decide (FVP_PSCI_MAX_POWER_LEVEL < last)%nat then None
      else Some (new_with_last_power_level states last)
  end.

(** The devices of the FVP callbacks: the power controller, the GIC, the timers
    and the system registers; and the conversions of [arm_psci].  The value
    read from [system_status] has one flag for each affinity level. *)
Record SystemStatus := mkSystemStatus { L0 : bool; L1 : bool; L2 : bool }.

Record FvpHw `{ArmPsciTypes} (W : Type) := {
  f_read_mpidr_el1 : W → Z;
  f_mpidr_try_into_u32 : Mpidr → result Z ErrorCode;
  f_entry_point_address : EntryPoint → Z;
  f_DRAM0 : Z * Z;
  f_DRAM1 : Z * Z;
  f_hw_on : HwState;
  f_hw_off : HwState;
  f_enable_wakeup_requests : Z → M W unit;
  f_disable_wakeup_requests : Z → M W unit;
  f_power_on_processor : Z → M W unit;
  f_power_off_processor : Z → M W unit;
  f_power_off_cluster : Z → M W unit;
  f_system_status : Z → M W SystemStatus;
  f_gic_cpu_interface_disable : M W unit;
  f_gic_cpu_interface_enable : M W unit;
  f_gic_redistributor_off : M W unit;
  f_gic_redistributor_init : M W unit;
  f_save_system_power_domain : M W unit;
  f_restore_system_power_domain : M W unit;
  f_write_cntfrq : M W unit;
  f_dsb_ish_wfi : M W unit;
  f_system_shutdown : M W unit;
  f_system_reboot : M W unit;
  f_has_pending_interrupts : M W bool;
}.
Arguments f_read_mpidr_el1 {_ W}.
Arguments f_mpidr_try_into_u32 {_ W}.
Arguments f_entry_point_address {_ W}.
Arguments f_DRAM0 {_ W}.
Arguments f_DRAM1 {_ W}.
Arguments f_hw_on {_ W}.
Arguments f_hw_off {_ W}.
Arguments f_enable_wakeup_requests {_ W}.
Arguments f_disable_wakeup_requests {_ W}.
Arguments f_power_on_processor {_ W}.
Arguments f_power_off_processor {_ W}.
Arguments f_power_off_cluster {_ W}.
Arguments f_system_status {_ W}.
Arguments f_gic_cpu_interface_disable {_ W}.
Arguments f_gic_cpu_interface_enable {_ W}.
Arguments f_gic_redistributor_off {_ W}.
Arguments f_gic_redistributor_init {_ W}.
Arguments f_save_system_power_domain {_ W}.
Arguments f_restore_system_power_domain {_ W}.
Arguments f_write_cntfrq {_ W}.
Arguments f_dsb_ish_wfi {_ W}.
Arguments f_system_shutdown {_ W}.
Arguments f_system_reboot {_ W}.
Arguments f_has_pending_interrupts {_ W}.

Section FvpPsci.
Context `{ArmPsciTypes} `{!MpidrOps} {W : Type} (hw : FvpHw W) (env : PsciEnv W).
Context {V : Type} (spm : PsciSpmInterface V).
(** The number of times [power_domain_on] polls the power controller. *)
Context (polls : nat).
Local Existing Instance fvp_dims.
Local Abbreviation Composite := (PsciCompositePowerState FvpPowerState).

Definition f_mpidr : M W Z := w ← get; mret (as_u32 (f_read_mpidr_el1 hw w)).
Definition when (b : bool) (m : M W unit) : M W unit := if b then m else mret tt.

Definition fvp_cpu_standby (cpu_state : FvpPowerState) : M W unit :=
  _ ← lift (assert_ (bool_decide (power_state_type cpu_state = StandbyOrRetention)));
  f_dsb_ish_wfi hw.

Definition power_domain_on_finish_common (previous : Composite) : M W unit :=
  s ← lift (cpu_level_state previous);
  _ ← lift (assert_ (bool_decide (s = FvpOff)));
  mpidr ← f_mpidr;
  cluster ← lift (arr_get (states previous) CLUSTER_POWER_LEVEL);
  _ ← when (bool_decide (cluster = FvpOff)) (f_power_on_processor hw mpidr);
  highest ← lift (highest_level_state previous);
  _ ← when (bool_decide (highest = FvpOff)) (f_restore_system_power_domain hw);
  _ ← f_disable_wakeup_requests hw mpidr;
  f_write_cntfrq hw.

Definition fvp_power_domain_suspend (target : Composite) : M W unit :=
  s ← lift (cpu_level_state target);
  if decide (s = FvpRetention) then mret tt
  else
    _ ← lift (assert_ (bool_decide (s = FvpOff)));
    mpidr ← f_mpidr;
    _ ← f_enable_wakeup_requests hw mpidr;
    _ ← f_gic_cpu_interface_disable hw;
    cluster ← lift (arr_get (states target) CLUSTER_POWER_LEVEL);
    _ ← when (bool_decide (cluster = FvpOff)) (f_power_off_cluster hw mpidr);
    highest ← lift (highest_level_state target);
    _ ← when (bool_decide (highest = FvpOff)) (f_save_system_power_domain hw);
    f_power_off_processor hw mpidr.

Definition fvp_power_domain_suspend_finish (previous : Composite) : M W unit :=
  s ← lift (cpu_level_state previous);
  if decide (s = FvpRetention) then mret tt
  else
    _ ← power_domain_on_finish_common previous;
    f_gic_cpu_interface_enable hw.

Definition fvp_power_domain_off (target : Composite) : M W unit :=
  s ← lift (cpu_level_state target);
  _ ← lift (assert_ (bool_decide (s = FvpOff)));
  _ ← f_gic_cpu_interface_disable hw;
  _ ← f_gic_redistributor_off hw;
  mpidr ← f_mpidr;
  _ ← f_power_off_processor hw mpidr;
  cluster ← lift (arr_get (states target) CLUSTER_POWER_LEVEL);
  when (bool_decide (cluster = FvpOff)) (f_power_off_cluster hw mpidr).

(** The loop that waits for a power off of the target that is in flight; the
    core is stuck when it never completes. *)
Fixpoint wait_power_off (fuel : nat) (raw_mpidr : Z) : M W unit :=
  match fuel with
  | O => halt
  | S fuel' =>
      psysr ← f_system_status hw raw_mpidr;
      if L0 psysr then wait_power_off fuel' raw_mpidr else mret tt
  end.

Definition fvp_power_domain_on (mpidr : Mpidr) : M W (result unit ErrorCode) :=
  raw_mpidr ←? mret (f_mpidr_try_into_u32 hw mpidr);
  _ ← wait_power_off polls raw_mpidr;
  _ ← f_power_on_processor hw raw_mpidr;
  mret (Ok tt).

Definition fvp_power_domain_on_finish (previous : Composite) : M W unit :=
  _ ← power_domain_on_finish_common previous;
  _ ← f_gic_redistributor_init hw;
  f_gic_cpu_interface_enable hw.

Definition fvp_system_off : M W Empty_set := _ ← f_system_shutdown hw; crash.
Definition fvp_system_reset : M W Empty_set := _ ← f_system_reboot hw; crash.

Definition fvp_node_hw_state (target_cpu : Mpidr) (power_level : nat)
    : M W (result HwState ErrorCode) :=
  raw_mpidr ←? mret (f_mpidr_try_into_u32 hw target_cpu);
  status_flag ←? mret (
    if decide (power_level = CPU_POWER_LEVEL) then Ok L0
    else if decide (power_level = CLUSTER_POWER_LEVEL) then
      if Z.land raw_mpidr 0x1 =? 0 then Ok L1 else Ok L2
    else Err InvalidParameters);
  psysr ← f_system_status hw raw_mpidr;
  mret (Ok (if status_flag psysr then f_hw_on hw else f_hw_off hw)).

Definition in_range (r : Z * Z) (a : Z) : bool := (r.1 <=? a) && (a <=? r.2).

Definition fvp_is_valid_ns_entrypoint (entry : EntryPoint) : bool :=
  let entrypoint := as_u64 (f_entry_point_address hw entry) in
  in_range (f_DRAM0 hw) entrypoint || in_range (f_DRAM1 hw) entrypoint.

Definition fvp_psci : PsciPlatform FvpPowerState W V := {|
  FEATURES := Z.lor (Z.lor NODE_HW_STATE SYSTEM_SUSPEND) OS_INITIATED_MODE;
  topology := fvp_topology;
  try_parse_power_state := fvp_try_parse_power_state;
  cpu_standby := fvp_cpu_standby;
  power_domain_suspend := fvp_power_domain_suspend;
  power_domain_suspend_finish := fvp_power_domain_suspend_finish;
  power_domain_validate_suspend _ := mret (Ok tt);
  power_domain_off_early _ := mret (Ok tt);
  power_domain_off := fvp_power_domain_off;
  power_domain_power_down _ := mret tt;
  power_domain_on := fvp_power_domain_on;
  power_domain_on_finish := fvp_power_domain_on_finish;
  plat_system_off := fvp_system_off;
  plat_system_off2 _ _ := crash;
  plat_system_reset := fvp_system_reset;
  plat_system_reset2 _ _ := crash;
  plat_mem_protect _ := crash;
  plat_mem_protect_check_range _ := crash;
  plat_cpu_freeze := crash;
  cpu_default_suspend_power_state := crash;
  plat_node_hw_state := fvp_node_hw_state;
  sys_suspend_power_state := mret composite_OFF;
  is_valid_ns_entrypoint e := mret (fvp_is_valid_ns_entrypoint e);
  has_pending_interrupts := f_has_pending_interrupts hw;
  mpidr_is_valid m := fvp_mpidr_is_valid (from_psci_mpidr m);
  core_position m := Z.to_nat (fvp_core_position (from_psci_mpidr m));
  save_extensions_before_powerdown := env_save_extensions env;
  cpu_power_down := env_cpu_power_down env;
  cpu_handle_power_down_abandon := env_power_down_abandon env;
  dsb_sy := env_dsb_sy env;
  psci_spm := spm;
|}.
End FvpPsci.
