(* ===== verification/PlatformLaws.v ===== *)
(** * The QEMU and FVP platforms satisfy what PSCI relies on

    The laws [PsciPlatformLaws] and [PsciOptionalLaws] are discharged for the
    models of [Platforms.v], from the behaviour of the devices only; the holding
    pen hands an entry point to a core exactly once. *)

From Stdlib Require Import ZArith Lia.
From stdpp Require Import base list numbers option vector fin sets.
From S2P Require Import Prelude PowerState Smccc PowerTree Composite TreeInv Coordination Psci PsciInv PsciSystem PsciCalls Platforms.
Open Scope Z_scope.

Section Returns.
Context {W : Type}.

Lemma returns_ret {A} (a : A) : returns (mret a : M W A).
Proof. intros w. by exists a, w. Qed.
Lemma returns_bind {A B} (m : M W A) (f : A → M W B) :
  returns m → (∀ a, returns (f a)) → returns (m ≫= f).
Proof.
  intros Hm Hf w. destruct (Hm w) as (a & w' & Ha). destruct (Hf a w') as (b & w'' & Hb).
  exists b, w''. cbv [mbind M_bind]. by rewrite Ha.
Qed.
Lemma returns_lift {A B} (o : outcome A) (f : A → M W B) a :
  o = Done a → returns (f a) → returns (lift o ≫= f).
Proof. intros ->. done. Qed.
Lemma returns_try {A B E} (r : result A E) (f : A → M W (result B E)) :
  (∀ a, r = Ok a → returns (f a)) → returns (try_M (mret r) f).
Proof.
  intros Hf w. unfold try_M. cbn. destruct r as [a|e]; [by apply Hf|by exists (Err e), w].
Qed.
Lemma returns_try_M {A B E} (m : M W (result A E)) (f : A → M W (result B E)) :
  returns m → (∀ a, returns (f a)) → returns (try_M m f).
Proof.
  intros Hm Hf w. unfold try_M. destruct (Hm w) as ([a|e] & w' & ->); [apply Hf|by exists (Err e), w'].
Qed.
Lemma returns_get : returns (get : M W W).
Proof. intros w. by exists w, w. Qed.
Lemma returns_when (b : bool) (m : M W unit) : returns m → returns (when b m).
Proof. destruct b; simpl; auto using returns_ret. Qed.
Lemma halting_safe {A B} (m : M W A) (f : A → M W B) :
  (∀ w, ∃ w', m w = Halt w') → safe (m ≫= f).
Proof. intros Hm w. destruct (Hm w) as [w' Hw]. cbv [mbind M_bind]. by rewrite Hw. Qed.
End Returns.

#[export] Hint Resolve returns_ret returns_bind returns_try_M returns_get returns_when : rfa.

Ltac returns_step :=
  match goal with
  | |- returns (lift (assert_ _) ≫= _) =>
      eapply returns_lift; [by rewrite bool_decide_true|]
  | |- returns (lift _ ≫= _) => eapply returns_lift; [by apply arr_get_Done|]
  | |- returns (_ ≫= _) => apply returns_bind; [|intros ?]
  | |- returns (try_M (mret _) _) => apply returns_try; intros ? ?
  | |- returns (when _ _) => apply returns_when
  | |- returns (mret _) => apply returns_ret
  end.

(** ** Indexing of arrays *)
Lemma vec_get_Done {A n} (v : vec A n) i : (i < n)%nat → ∃ x, vec_get v i = Done x.
Proof. intros Hi. unfold vec_get. destruct (decide (i < n)%nat); [eauto|lia]. Qed.
Lemma vec_set_Done {A n} (v : vec A n) i x : (i < n)%nat → ∃ v', vec_set v i x = Done v'.
Proof. intros Hi. unfold vec_set. destruct (decide (i < n)%nat); [eauto|lia]. Qed.
Lemma vec_get_set {A n} (v v' : vec A n) i x : vec_set v i x = Done v' → vec_get v' i = Done x.
Proof.
  unfold vec_set, vec_get. destruct (decide _) as [Hi|]; [|done]. intros [= <-].
  by rewrite vlookup_insert.
Qed.
Lemma vec_get_set_ne {A n} (v v' : vec A n) i j x :
  i ≠ j → vec_set v i x = Done v' → vec_get v' j = vec_get v j.
Proof.
  unfold vec_set, vec_get. intros Hne. destruct (decide _) as [Hi|]; [|done]. intros [= <-].
  destruct (decide (j < n)%nat) as [Hj|]; [|done]. f_equal. apply vlookup_insert_ne.
  intros Heq. apply Hne. rewrite <- (fin_to_nat_to_fin i n Hi), <- (fin_to_nat_to_fin j n Hj).
  by rewrite Heq.
Qed.

(** ** Bit fields *)
Lemma land_ones_range v k : 0 ≤ k → 0 ≤ Z.land v (Z.ones k) < 2 ^ k.
Proof. intros Hk. rewrite Z.land_ones by done. apply Z.mod_pos_bound. lia. Qed.

Lemma shiftr_land_shiftl v m k : 0 ≤ k → Z.shiftr (Z.land v (Z.shiftl m k)) k = Z.land (Z.shiftr v k) m.
Proof. intros Hk. rewrite Z.shiftr_land, Z.shiftr_shiftl_l by done. by rewrite Z.sub_diag, Z.shiftl_0_r. Qed.

Lemma ubfx_spec v lsb width : 0 ≤ lsb → 0 ≤ width → ubfx v lsb width = (v / 2 ^ lsb) mod 2 ^ width.
Proof. intros Hl Hw. unfold ubfx. by rewrite Z.land_ones, Z.shiftr_div_pow2. Qed.

(** A field of a value shifted to the left is the field below it. *)
Lemma ubfx_shiftl v lsb : 0 ≤ lsb ≤ 48 →
  ubfx (as_u64 (Z.shiftl v 8)) (lsb + 8) 8 = ubfx v lsb 8.
Proof.
  intros Hl. unfold ubfx, as_u64. apply Z.bits_inj'. intros n Hn.
  rewrite !Z.land_spec. destruct (decide (n < 8)).
  - rewrite !Z.shiftr_spec, <- Z.land_ones, Z.land_spec, Z.shiftl_spec, !Z.ones_spec_low by lia.
    rewrite !andb_true_r. f_equal. lia.
  - rewrite !Z.ones_spec_high by lia. by rewrite !andb_false_r.
Qed.

Section Mpidr.
Context `{MpidrLaws}.

Lemma aff0_range v : 0 ≤ aff0 v < 256.
Proof. rewrite aff0_spec. apply (land_ones_range v 8). lia. Qed.
Lemma aff1_range v : 0 ≤ aff1 v < 256.
Proof. rewrite aff1_spec. apply (land_ones_range _ 8). lia. Qed.
Lemma aff2_range v : 0 ≤ aff2 v < 256.
Proof. rewrite aff2_spec. apply (land_ones_range _ 8). lia. Qed.

(** The QEMU core position in terms of the affinity fields. *)
Lemma qemu_core_position_spec v : qemu_core_position v = aff1 v * 4 + aff0 v.
Proof.
  pose proof (aff0_range v). pose proof (aff1_range v).
  unfold qemu_core_position, as_u64.
  rewrite AFF0_MASK_spec, AFF1_MASK_spec, AFF0_SHIFT_spec, AFF1_SHIFT_spec, AFFINITY_BITS_spec.
  change (8 - PLATFORM_CPU_PER_CLUSTER_SHIFT) with 6. rewrite Z.shiftl_0_r, <- aff0_spec.
  assert (Z.shiftr (Z.land v (Z.shiftl 255 8)) 6 = aff1 v * 4) as ->.
  { replace (Z.land v (Z.shiftl 255 8)) with (Z.shiftl (aff1 v) 8).
    - by rewrite Z.shiftr_shiftl_l, Z.shiftl_mul_pow2 by lia.
    - rewrite aff1_spec, Z.shiftl_land. apply Z.bits_inj'. intros n Hn.
      rewrite !Z.land_spec. destruct (decide (n < 8)).
      + rewrite !(Z.shiftl_spec_low _ _ n) by lia. by rewrite !andb_false_r.
      + rewrite !(Z.shiftl_spec _ 8 n), Z.shiftr_spec by lia. do 2 f_equal. lia. }
  rewrite Z.mod_small; lia.
Qed.

(** The FVP core position in terms of the affinity fields. *)
Lemma fvp_core_position_spec v :
  fvp_core_position v =
    if contains_MT v then (aff2 v * 4 + aff1 v) * 1 + aff0 v else aff1 v * 4 + aff0 v.
Proof.
  pose proof (aff0_range v). pose proof (aff1_range v). pose proof (aff2_range v).
  unfold fvp_core_position. rewrite MT_spec.
  rewrite AFF0_SHIFT_spec, AFF1_SHIFT_spec, AFF2_SHIFT_spec, AFFINITY_BITS_spec.
  assert (ubfx v 0 8 = aff0 v) as E0 by (rewrite aff0_spec; unfold ubfx; by rewrite Z.shiftr_0_r).
  assert (ubfx v 8 8 = aff1 v) as E1 by (by rewrite aff1_spec).
  assert (ubfx v 16 8 = aff2 v) as E2 by (by rewrite aff2_spec).
  destruct (Z.land v MPIDR_MT =? 0); simpl negb; cbv iota.
  - assert (ubfx (as_u64 (Z.shiftl v 8)) 8 8 = ubfx v 0 8) as -> by (apply (ubfx_shiftl v 0); lia).
    assert (ubfx (as_u64 (Z.shiftl v 8)) 16 8 = ubfx v 8 8) as -> by (apply (ubfx_shiftl v 8); lia).
    rewrite E0, E1.
    assert (ubfx (as_u64 (Z.shiftl v 8)) 0 8 = 0) as ->.
    { rewrite ubfx_spec by lia. unfold as_u64. rewrite Z.shiftl_mul_pow2 by lia.
      rewrite Z.div_1_r. change (2 ^ 64) with (2 ^ 8 * 2 ^ 56).
      rewrite (Z.mul_comm v), Z.mul_mod_distr_l, Z.mul_comm by lia. by apply Z.mod_mul. }
    change (Z.of_nat FVP_MAX_CPUS_PER_CLUSTER) with 4. change (Z.of_nat FVP_MAX_PE_PER_CPU) with 1.
    unfold as_u64. rewrite (Z.mod_small (aff0 v + _)), Z.mod_small; lia.
  - rewrite E0, E1, E2.
    change (Z.of_nat FVP_MAX_CPUS_PER_CLUSTER) with 4. change (Z.of_nat FVP_MAX_PE_PER_CPU) with 1.
    unfold as_u64. rewrite (Z.mod_small (aff1 v + _)), Z.mod_small; lia.
Qed.

Lemma qemu_position_range v : qemu_mpidr_is_valid v = true →
  0 ≤ qemu_core_position v < Z.of_nat QEMU_CORE_COUNT.
Proof.
  pose proof (aff0_range v). pose proof (aff1_range v).
  rewrite qemu_core_position_spec. unfold qemu_mpidr_is_valid.
  rewrite !andb_true_iff, !Z.ltb_lt. change (Z.of_nat QEMU_CLUSTER_COUNT) with 1.
  change (Z.of_nat MAX_CPUS_PER_CLUSTER) with 4. change (Z.of_nat QEMU_CORE_COUNT) with 4. lia.
Qed.

Lemma fvp_position_range v : fvp_mpidr_is_valid v = true →
  0 ≤ fvp_core_position v < Z.of_nat FVP_CORE_COUNT.
Proof.
  pose proof (aff0_range v). pose proof (aff1_range v). pose proof (aff2_range v).
  rewrite fvp_core_position_spec. unfold fvp_mpidr_is_valid.
  change (Z.of_nat FVP_CLUSTER_COUNT) with 2. change (Z.of_nat FVP_MAX_CPUS_PER_CLUSTER) with 4.
  change (Z.of_nat FVP_MAX_PE_PER_CPU) with 1. change (Z.of_nat FVP_CORE_COUNT) with 8.
  destruct (contains_MT v); rewrite !andb_true_iff, !Z.ltb_lt; lia.
Qed.
End Mpidr.

(** ** QEMU *)

(** The devices of QEMU: the operations return, and setting a GPIO pin to turn
    the machine off or to reset it stops the core. *)
Record qemu_hw_ok {Hw} (hw : QemuHw Hw) : Prop := {
  qo_disable : returns (q_gic_cpu_interface_disable hw);
  qo_enable : returns (q_gic_cpu_interface_enable hw);
  qo_redistributor : returns (q_gic_redistributor_init hw);
  qo_wfi : returns (q_dsb_sy_wfi hw);
  qo_sev : returns (q_sev hw);
  qo_pending : returns (q_has_pending_interrupts hw);
  qo_off : ∀ h, ∃ h', q_gpio_system_off hw h = Halt h';
  qo_reset : ∀ h, ∃ h', q_gpio_system_reset hw h = Halt h';
}.

#[export] Hint Resolve qo_disable qo_enable qo_redistributor qo_wfi qo_sev qo_pending
  eo_power_down eo_abandon eo_dsb eo_save : rfa.

Lemma le_2_cases n : (n ≤ 2)%nat → n = 0%nat ∨ n = 1%nat ∨ n = 2%nat.
Proof. lia. Qed.

Section QemuLaws.
Context `{ArmPsciTypes} `{!MpidrOps} `{!MpidrLaws} {Hw : Type} (hw : QemuHw Hw) (me : nat).
Context (into_u32 : PowerState → Z) (env : PsciEnv (QemuWorld Hw)).
Context {V : Type} (spm : PsciSpmInterface V).
Local Existing Instance qemu_dims.
Hypothesis Hhw : qemu_hw_ok hw.
Hypothesis Henv : env_ok env.
Hypothesis Hme : (me < QEMU_CORE_COUNT)%nat.
Local Abbreviation W := (QemuWorld Hw).

Lemma returns_q_hw {A} (m : M Hw A) : returns m → returns (q_hw m : M W A).
Proof.
  intros Hm w. unfold q_hw. destruct (Hm (q_devices w)) as (a & h & ->). eauto.
Qed.
Lemma returns_q_set_kind k : returns (q_set_kind me k : M W unit).
Proof. intros w. unfold q_set_kind. destruct (vec_set_Done (per_cpu_powerdown_kinds w) me k Hme) as [? ->]. eauto. Qed.

Lemma qemu_parse_ok ps c : qemu_try_parse_power_state into_u32 ps = Some c →
  length (states c) = STATE_COUNT ∧ is_valid_suspend_request c (is_power_down ps) = true.
Proof.
  unfold qemu_try_parse_power_state. cbv zeta. change (Z.of_nat QEMU_PSCI_MAX_POWER_LEVEL) with 2.
  match goal with |- context[2 <? ?l] => generalize l end. intros last.
  destruct (Z.ltb_spec 2 last) as [|Hlast]; [done|].
  destruct (le_2_cases (Z.to_nat last)) as [-> | [-> | ->]]; [lia| | |];
    destruct ps; repeat case_match; intros; simplify_option_eq; done.
Qed.

Lemma qemu_suspend_off_returns c : cpu_level_is c QemuPowerDown →
  returns (qemu_power_domain_off hw me c).
Proof.
  intros [Hl Hs]. unfold qemu_power_domain_off. repeat returns_step;
    eauto using returns_q_hw, returns_q_set_kind with rfa.
Qed.

Lemma qemu_mpidr_index_lt m : ∃ r, qemu_mpidr_index m = Done r ∧
  match r with Some i => (i < QEMU_CORE_COUNT)%nat | None => True end.
Proof.
  unfold qemu_mpidr_index. destruct (qemu_mpidr_is_valid _) eqn:Hv; [|by exists None].
  apply qemu_position_range in Hv. change (Z.of_nat QEMU_CORE_COUNT) with 4 in Hv.
  rewrite decide_True by lia. eexists. split; [done|]. unfold QEMU_CORE_COUNT. simpl. lia.
Qed.

Lemma qemu_on_returns m : returns (qemu_power_domain_on hw m).
Proof.
  unfold qemu_power_domain_on. destruct (qemu_mpidr_index_lt m) as (r & Hr & Hi).
  eapply returns_lift; [exact Hr|]. apply returns_try. intros i Hok.
  destruct r as [i'|]; [|done]. injection Hok as ->.
  repeat returns_step. intros w. unfold q_hold_pen_signal, plat_hold_pen_signal.
  destruct (vec_get_Done (hold_slots w) i Hi) as [slot ->]. simpl.
  destruct (vec_set_Done (hold_slots w) i (mkHoldSlot (q_warm_entrypoint_address hw)
    (magic1 slot) (magic2 slot)) Hi) as [slots ->]. apply returns_q_hw. eauto with rfa.
Qed.

Lemma qemu_power_down_safe c : safe (qemu_power_domain_power_down hw me c).
Proof.
  intros w. unfold qemu_power_domain_power_down. cbv [mbind M_bind]. unfold q_get_kind.
  destruct (vec_get_Done (per_cpu_powerdown_kinds w) me Hme) as [k ->].
  destruct (decide _); [done|].
  by destruct (returns_q_hw _ (qo_wfi _ Hhw) w) as (? & ? & ->).
Qed.

Lemma qemu_on_finish_returns c : cpu_level_is c QemuPowerDown →
  returns (qemu_power_domain_on_finish hw c).
Proof.
  intros [Hl Hs]. unfold qemu_power_domain_on_finish.
  repeat returns_step; eauto using returns_q_hw with rfa.
Qed.

Lemma qemu_standby_returns s : power_state_type s = StandbyOrRetention →
  returns (qemu_cpu_standby hw s).
Proof. intros Hs. unfold qemu_cpu_standby. repeat returns_step; eauto using returns_q_hw with rfa. Qed.

Lemma qemu_platform_laws : PsciPlatformLaws (qemu_psci hw me into_u32 env spm).
Proof.
  split; simpl; intros; eauto using qemu_standby_returns, qemu_parse_ok, returns_q_set_kind,
    qemu_suspend_off_returns, qemu_on_finish_returns, returns_q_hw, qemu_power_down_safe with rfa.
  { apply returns_safe, qemu_on_returns. }
  match goal with Hv : qemu_mpidr_is_valid _ = true |- _ => apply qemu_position_range in Hv end.
  unfold QEMU_CORE_COUNT in *. lia.
Qed.

Lemma q_hw_halts {A} (m : M Hw A) : (∀ h, ∃ h', m h = Halt h') →
  ∀ w : W, ∃ w', q_hw m w = Halt w'.
Proof. intros Hm w. unfold q_hw. destruct (Hm (q_devices w)) as [h ->]. eauto. Qed.

Lemma qemu_optional_laws : PsciOptionalLaws (qemu_psci hw me into_u32 env spm).
Proof.
  split; try done; apply halting_safe, q_hw_halts; by destruct Hhw.
Qed.
End QemuLaws.

(** ** FVP *)

(** The devices of the FVP: the operations return, [MPIDR_EL1] is read-only, and a
    shutdown or a reboot stops the core. *)
Record fvp_hw_ok `{ArmPsciTypes} {W} (hw : FvpHw W) : Prop := {
  fo_mpidr : ∀ w w', f_read_mpidr_el1 hw w = f_read_mpidr_el1 hw w';
  fo_enable_wakeup : ∀ m, returns (f_enable_wakeup_requests hw m);
  fo_disable_wakeup : ∀ m, returns (f_disable_wakeup_requests hw m);
  fo_on : ∀ m, returns (f_power_on_processor hw m);
  fo_off : ∀ m, returns (f_power_off_processor hw m);
  fo_off_cluster : ∀ m, returns (f_power_off_cluster hw m);
  fo_status : ∀ m, returns (f_system_status hw m);
  fo_gic_disable : returns (f_gic_cpu_interface_disable hw);
  fo_gic_enable : returns (f_gic_cpu_interface_enable hw);
  fo_redistributor_off : returns (f_gic_redistributor_off hw);
  fo_redistributor_init : returns (f_gic_redistributor_init hw);
  fo_save : returns (f_save_system_power_domain hw);
  fo_restore : returns (f_restore_system_power_domain hw);
  fo_cntfrq : returns (f_write_cntfrq hw);
  fo_wfi : returns (f_dsb_ish_wfi hw);
  fo_pending : returns (f_has_pending_interrupts hw);
  fo_shutdown : ∀ w, ∃ w', f_system_shutdown hw w = Halt w';
  fo_reboot : ∀ w, ∃ w', f_system_reboot hw w = Halt w';
}.

(** The power controller: a core that was told to power off ([going_off]) reads as
    off after less than [polls] reads that say on; turning its cluster off and
    reading its status do not stop that. *)
Record fvp_power_ok `{ArmPsciTypes} {W} (hw : FvpHw W) (polls : nat) (going_off : Z → W → Prop)
    (rank : Z → W → nat) : Prop := {
  po_off : ∀ m w u w', f_power_off_processor hw m w = Ret u w' → going_off m w';
  po_cluster : ∀ m w u w', going_off m w → f_power_off_cluster hw m w = Ret u w' → going_off m w';
  po_rank : ∀ m w, going_off m w → (rank m w < polls)%nat;
  po_status : ∀ m w s w', going_off m w → f_system_status hw m w = Ret s w' →
    going_off m w' ∧ (L0 s = true → rank m w' < rank m w)%nat;
}.

#[export] Hint Resolve fo_enable_wakeup fo_disable_wakeup fo_on fo_off fo_off_cluster
  fo_gic_disable fo_gic_enable fo_redistributor_off fo_redistributor_init fo_save fo_restore
  fo_cntfrq fo_wfi fo_pending fo_status : rfa.

Section FvpLaws.
Context `{ArmPsciTypes} `{!MpidrOps} `{!MpidrLaws} {W : Type} (hw : FvpHw W) (env : PsciEnv W).
Context {V : Type} (spm : PsciSpmInterface V) (polls : nat).
Local Existing Instance fvp_dims.
Hypothesis Hhw : fvp_hw_ok hw.
Hypothesis Henv : env_ok env.

Lemma fvp_parse_ok ps c : fvp_try_parse_power_state ps = Some c →
  length (states c) = STATE_COUNT ∧ is_valid_suspend_request c (is_power_down ps) = true.
Proof.
  unfold fvp_try_parse_power_state. cbv zeta. destruct ps as [v|v].
  { case_match; [|done]. intros [= <-]. done. }
  match goal with |- context[Z.to_nat ?l] => generalize (Z.to_nat l) end. intros last.
  destruct (decide (FVP_PSCI_MAX_POWER_LEVEL < last)%nat) as [|Hlast].
  { intros Hc. repeat case_match; simplify_option_eq. }
  unfold FVP_PSCI_MAX_POWER_LEVEL in Hlast.
  destruct (le_2_cases last) as [-> | [-> | ->]]; [lia| | |];
    repeat case_match; intros; simplify_option_eq; done.
Qed.

Lemma returns_f_mpidr : returns (f_mpidr hw).
Proof. unfold f_mpidr. eauto with rfa. Qed.

(** The states of the upper levels of a composite state. *)
Lemma fvp_levels (c : PsciCompositePowerState FvpPowerState) s : cpu_level_is c s →
  ∃ s1 s2, states c !! 1%nat = Some s1 ∧ states c !! 2%nat = Some s2.
Proof.
  intros [Hl Hs]. destruct (states c) as [|x0 [|x1 [|x2 l]]]; simplify_eq/=; try done. eauto.
Qed.

Lemma on_finish_common_returns c : cpu_level_is c FvpOff →
  returns (power_domain_on_finish_common hw c).
Proof.
  intros Hc. destruct (fvp_levels _ _ Hc) as (s1 & s2 & Hs1 & Hs2). destruct Hc as [Hl Hs].
  unfold power_domain_on_finish_common. repeat returns_step; eauto using returns_f_mpidr with rfa.
Qed.

Lemma fvp_suspend_returns c s : cpu_level_is c s → s ≠ FvpRun →
  returns (fvp_power_domain_suspend hw c).
Proof.
  intros Hc Hrun. destruct (fvp_levels _ _ Hc) as (s1 & s2 & Hs1 & Hs2).
  destruct Hc as [Hl Hs]. unfold fvp_power_domain_suspend.
  returns_step. destruct s; [done|apply returns_ret|].
  rewrite decide_False by done. repeat returns_step; eauto using returns_f_mpidr with rfa.
Qed.

Lemma fvp_suspend_finish_returns c s : cpu_level_is c s → s ≠ FvpRun →
  returns (fvp_power_domain_suspend_finish hw c).
Proof.
  intros Hc Hrun. unfold fvp_power_domain_suspend_finish.
  eapply returns_lift; [apply arr_get_Done, Hc|]. destruct s; [done|apply returns_ret|].
  rewrite decide_False by done. eauto using on_finish_common_returns with rfa.
Qed.

Lemma fvp_off_returns c : cpu_level_is c FvpOff → returns (fvp_power_domain_off hw c).
Proof.
  intros Hc. destruct (fvp_levels _ _ Hc) as (s1 & s2 & Hs1 & Hs2). destruct Hc as [Hl Hs].
  unfold fvp_power_domain_off. repeat returns_step; eauto using returns_f_mpidr with rfa.
Qed.

Lemma fvp_on_finish_returns c : cpu_level_is c FvpOff → returns (fvp_power_domain_on_finish hw c).
Proof.
  intros Hc. unfold fvp_power_domain_on_finish. repeat returns_step; eauto using on_finish_common_returns with rfa.
Qed.

(** The loop that waits for a power off never panics, and ends for a core that was
    told to power off. *)
Lemma wait_power_off_safe fuel m : safe (wait_power_off hw fuel m).
Proof.
  induction fuel as [|fuel IH]; intros w; [done|]. cbn -[L0]. cbv [mbind M_bind].
  destruct (fo_status _ Hhw m w) as (s & w' & ->). destruct (L0 s); [apply IH|done].
Qed.

Lemma wait_power_off_ends fuel going_off rank m w :
  fvp_power_ok hw polls going_off rank → going_off m w → (rank m w < fuel)%nat →
  ∃ w', wait_power_off hw fuel m w = Ret tt w' ∧ going_off m w'.
Proof.
  intros Hpo. revert w. induction fuel as [|fuel IH]; intros w Hg Hlt; [lia|].
  cbn -[L0]. cbv [mbind M_bind]. destruct (fo_status _ Hhw m w) as (s & w' & Hs). rewrite Hs.
  destruct (po_status _ _ _ _ Hpo _ _ _ _ Hg Hs) as [Hg' Hdec].
  destruct (L0 s); [|by exists w']. apply IH; [done|]. specialize (Hdec eq_refl). lia.
Qed.

Lemma fvp_standby_returns s : power_state_type s = StandbyOrRetention →
  returns (fvp_cpu_standby hw s).
Proof. intros Hs. unfold fvp_cpu_standby. repeat returns_step; eauto with rfa. Qed.

Lemma fvp_on_safe m : safe (fvp_power_domain_on hw polls m).
Proof.
  intros w. unfold fvp_power_domain_on, try_M. cbn. destruct (f_mpidr_try_into_u32 hw m) as [raw|e]; [|done].
  cbv [mbind M_bind]. pose proof (wait_power_off_safe polls raw w) as Hw.
  destruct (wait_power_off hw polls raw w) as [u w'| |]; [|done..].
  by destruct (fo_on _ Hhw raw w') as (? & ? & ->).
Qed.

(** A core that has turned itself off is on its way, and it can be turned on again. *)
Lemma fvp_off_going_off going_off rank c w :
  fvp_power_ok hw polls going_off rank → cpu_level_is c FvpOff →
  ∃ w', fvp_power_domain_off hw c w = Ret tt w' ∧ going_off (as_u32 (f_read_mpidr_el1 hw w)) w'.
Proof.
  intros Hpo Hc. destruct (fvp_levels _ _ Hc) as (s1 & s2 & Hs1 & Hs2). destruct Hc as [Hl Hs].
  unfold fvp_power_domain_off, cpu_level_state, CPU_POWER_LEVEL, CLUSTER_POWER_LEVEL, f_mpidr, when. cbv [mbind M_bind lift get mret M_ret].
  rewrite (proj2 (arr_get_Done _ _ _) Hs), bool_decide_true by done. cbn [assert_].
  destruct (fo_gic_disable _ Hhw w) as (? & w1 & ->).
  destruct (fo_redistributor_off _ Hhw w1) as (? & w2 & ->).
  rewrite (fo_mpidr _ Hhw w2 w).
  destruct (fo_off _ Hhw (as_u32 (f_read_mpidr_el1 hw w)) w2) as (? & w3 & H3). rewrite H3.
  apply (po_off _ _ _ _ Hpo) in H3. rewrite (proj2 (arr_get_Done _ _ _) Hs1).
  case_bool_decide; [|by exists w3].
  destruct (fo_off_cluster _ Hhw (as_u32 (f_read_mpidr_el1 hw w)) w3) as ([] & w4 & H4).
  exists w4. split; [done|]. by eapply (po_cluster _ _ _ _ Hpo).
Qed.

Lemma fvp_on_returns going_off rank m raw w :
  fvp_power_ok hw polls going_off rank → f_mpidr_try_into_u32 hw m = Ok raw → going_off raw w →
  ∃ w1 w2, wait_power_off hw polls raw w = Ret tt w1 ∧ f_power_on_processor hw raw w1 = Ret tt w2 ∧
    fvp_power_domain_on hw polls m w = Ret (Ok tt) w2.
Proof.
  intros Hpo Hm Hg. unfold fvp_power_domain_on, try_M. cbn. rewrite Hm. cbv [mbind M_bind].
  destruct (wait_power_off_ends polls going_off rank raw w Hpo Hg) as (w1 & Hw1 & _); [by apply Hpo|].
  destruct (fo_on _ Hhw raw w1) as ([] & w2 & Hw2). exists w1, w2. by rewrite Hw1, Hw2.
Qed.

Lemma fvp_node_hw_state_returns m l : returns (fvp_node_hw_state hw m l).
Proof.
  unfold fvp_node_hw_state. repeat returns_step; eauto with rfa.
Qed.

Lemma fvp_platform_laws : PsciPlatformLaws (fvp_psci hw env spm polls).
Proof.
  split; simpl; intros; eauto using fvp_standby_returns, fvp_parse_ok, fvp_suspend_returns,
    fvp_suspend_finish_returns, fvp_off_returns, fvp_on_safe, fvp_on_finish_returns with rfa.
  - by intros w.
  - match goal with Hv : fvp_mpidr_is_valid _ = true |- _ => apply fvp_position_range in Hv end.
    unfold FVP_CORE_COUNT in *. simpl in *. lia.
Qed.

Lemma fvp_optional_laws : PsciOptionalLaws (fvp_psci hw env spm polls).
Proof.
  split; try done.
  - apply halting_safe, Hhw.
  - apply halting_safe, Hhw.
  - intros _ m l. apply returns_safe, fvp_node_hw_state_returns.
  - intros _ w. exists composite_OFF, w. split_and!; try done. intros _. split; [done|].
    by exists FvpOff.
Qed.
End FvpLaws.

(** ** The holding pen *)

Lemma fill_slots {A n} (x : A) (l : list nat) (v : vec A n) : Forall (λ i, i < n)%nat l →
  ∃ v', fold_outcome (λ v i, vec_set v i x) v l = Done v' ∧
    ∀ i, (i ∈ l ∨ vec_get v i = Done x) → vec_get v' i = Done x.
Proof.
  revert v. induction l as [|j l IH]; intros v Hl.
  { exists v. split; [done|]. intros i [Hi|]; [by apply elem_of_nil in Hi|done]. }
  apply Forall_cons_iff in Hl as [Hj Hl]. destruct (vec_set_Done v j x Hj) as [v1 Hv1].
  destruct (IH v1 Hl) as (v' & Hf & Hv'). exists v'. split; [by simpl; rewrite Hv1|].
  intros i Hi. apply Hv'. destruct (decide (j = i)) as [<-|Hne]; [right; by eapply vec_get_set|].
  rewrite (vec_get_set_ne _ _ _ _ _ Hne Hv1). set_solver.
Qed.

Lemma hold_pen_init_idle (slots : HoldSlots) : ∃ slots', plat_hold_pen_init slots = Done slots' ∧
  ∀ i, (i < QEMU_CORE_COUNT)%nat →
    vec_get slots' i = Done (mkHoldSlot HOLD_STATE_WAIT HOLD_MAGIC1 HOLD_MAGIC2).
Proof.
  destruct (fill_slots (mkHoldSlot HOLD_STATE_WAIT HOLD_MAGIC1 HOLD_MAGIC2)
    (seq 0 QEMU_CORE_COUNT) slots) as (v & Hv & Hget).
  { apply Forall_forall. intros i Hi. apply elem_of_seq in Hi. lia. }
  exists v. split; [done|]. intros i Hi. apply Hget. left. apply elem_of_seq. lia.
Qed.
