(* ===== verification/Sample.v ===== *)
(** * Concrete machines

    Instances of the parameters of the development, on which its theorems are
    evaluated: the types of [arm_psci] as integers, the fields of [MPIDR_EL1],
    and the QEMU and FVP platforms with devices that do nothing. *)

From Stdlib Require Import ZArith Lia.
From stdpp Require Import base list numbers option vector fin functions relations.
From S2P Require Import Prelude PowerState Smccc PowerTree Composite TreeInv Coordination Psci PsciInv PsciSystem PsciCalls Platforms PlatformLaws.
Open Scope Z_scope.

Definition sample_types : ArmPsciTypes := {|
  EntryPoint := Z;
  Mpidr := Z;
  Cookie := Z;
  SystemOff2Type := Z;
  ResetType := Z;
  MemProtectRange := Z * Z;
  HwState := bool;
|}.
#[export] Existing Instance sample_types.

(** The affinity fields of the PSCI representation are those of the register. *)
Definition sample_mpidr : @MpidrOps sample_types := {|
  from_psci_mpidr := λ m : @Mpidr sample_types, as_u64 (Z.land m 0xff00ffffff);
  aff0 v := Z.land v 0xff;
  aff1 v := Z.land (Z.shiftr v 8) 0xff;
  aff2 v := Z.land (Z.shiftr v 16) 0xff;
  aff3 v := Z.land (Z.shiftr v 32) 0xff;
  contains_MT v := negb (Z.land v 0x1000000 =? 0);
  MPIDR_MT := 0x1000000;
  AFFINITY_BITS := 8;
  AFF0_MASK := 0xff;
  AFF1_MASK := 0xff;
  AFF0_SHIFT := 0;
  AFF1_SHIFT := 8;
  AFF2_SHIFT := 16;
|}.
#[export] Existing Instance sample_mpidr.

Lemma sample_mpidr_laws : MpidrLaws.
Proof. split; try done. intros m. apply Z.mod_pos_bound. lia. Qed.
#[export] Existing Instance sample_mpidr_laws.

Definition sample_env (W : Type) : PsciEnv W := {|
  env_save_extensions := [mret tt];
  env_cpu_power_down _ := mret tt;
  env_power_down_abandon := mret tt;
  env_dsb_sy := mret tt;
|}.

Lemma sample_env_ok W : env_ok (sample_env W).
Proof. split; intros; repeat constructor; apply returns_ret. Qed.

(** An SPM that agrees to everything, and is told that its core goes off. *)
Definition sample_spm : PsciSpmInterface bool :=
  mkPsciSpmInterface (λ _, mret (Ok tt)) (λ _, Ret tt false) (mret tt).
Definition sample_spm_ok (up : bool) (v : bool) : Prop := v = up.
#[export] Instance sample_spm_laws : SpmLaws sample_spm sample_spm_ok.
Proof.
  split; [intros f v ->; by exists (Ok tt), true|intros v ->; by exists false|intros v ->; by exists true].
Qed.

(** ** QEMU *)
Definition sample_qemu_hw : QemuHw unit := {|
  q_gic_cpu_interface_disable := mret tt;
  q_gic_cpu_interface_enable := mret tt;
  q_gic_redistributor_init := mret tt;
  q_dsb_sy_wfi := mret tt;
  q_sev := mret tt;
  q_gpio_system_off := halt;
  q_gpio_system_reset := halt;
  q_has_pending_interrupts := mret false;
  q_warm_entrypoint_address := 0x60000000;
|}.

Lemma sample_qemu_hw_ok : qemu_hw_ok sample_qemu_hw.
Proof. split; try apply returns_ret; intros h; by exists h. Qed.

Definition sample_into_u32 (ps : PowerState) : Z :=
  match ps with
  | PsStandbyOrRetention id => as_u32 id
  | PsPowerDown id => as_u32 (Z.lor id (Z.shiftl 1 30))
  end.

Definition sample_qemu (me : nat) : PsciPlatform QemuPowerState (QemuWorld unit) bool :=
  qemu_psci sample_qemu_hw me sample_into_u32 (sample_env _) sample_spm.

#[export] Existing Instance qemu_dims.

Lemma sample_qemu_laws me : (me < QEMU_CORE_COUNT)%nat → PsciPlatformLaws (sample_qemu me).
Proof. intros. by apply qemu_platform_laws; [apply sample_qemu_hw_ok|apply sample_env_ok|]. Qed.
Lemma sample_qemu_optional me : PsciOptionalLaws (sample_qemu me).
Proof. apply qemu_optional_laws; [apply sample_qemu_hw_ok]. Qed.

Definition sample_qemu_world : QemuWorld unit :=
  mkQemuWorld (vreplicate _ PdkOff)
    (vreplicate _ (mkHoldSlot HOLD_STATE_WAIT HOLD_MAGIC1 HOLD_MAGIC2)) tt.

Abbreviation QSt := (PsciState QemuPowerState (@EntryPoint sample_types) (QemuWorld unit) bool).

Definition sample_entry : @EntryPoint sample_types := 0x40000000.
Definition sample_core (n : Z) : @Mpidr sample_types := n.

Definition from_done {A} (d : A) (o : outcome A) : A := match o with Done a => a | Panic => d end.
Definition from_ret {St A} (d : St) (r : run St A) : St :=
  match r with Ret _ s | Halt s => s | Crash => d end.

(** After the cold boot of core 0. *)
Definition sample_boot : QSt :=
  from_done (mkPsci (mkTree [] []) PlatformCoordinated sample_qemu_world true)
    (psci_new (sample_qemu 0) 0 sample_qemu_world true).

(** The core loses power as soon as it waits, or wakes up immediately; the locks are
    free. *)
Definition sample_power_off : OtherCores QSt := mkOtherCores halt (mret tt).
Definition sample_wake_up : OtherCores QSt := mkOtherCores (mret tt) (mret tt).

Lemma sample_boot_eq : psci_new (sample_qemu 0) 0 sample_qemu_world true = Done sample_boot.
Proof. vm_compute. reflexivity. Qed.

Lemma sample_boot_ok : tree_ok (power_domain_tree sample_boot) (initial_phases 0).
Proof.
  pose proof (sample_qemu_laws 0 ltac:(unfold QEMU_CORE_COUNT; simpl; lia)).
  apply (psci_new_tree_ok (sample_qemu 0) 0 sample_qemu_world true); [exact sample_boot_eq|].
  change (0 < 4)%nat. lia.
Qed.

Lemma others_idle {S W V : Type} `{!PlatformPowerStateInterface S} `{!PsciDims}
    (platform : PsciPlatform S W V) spm_ok me st ph :
  others_run platform spm_ok me st ph st ph.
Proof. split; [constructor|done]. Qed.

Section Cores.
Context {S W V : Type} `{!PlatformPowerStateInterface S} `{!PsciDims} (platform : PsciPlatform S W V).
Context (spm_ok : bool → V → Prop) (me : nat) (wait : M (PsciState S EntryPoint W V) unit).

(** Nothing happens while the core waits, or for a lock. *)
Lemma idle_wait_ok : (∀ st, wait st = Ret tt st ∨ wait st = Halt st) → wait_ok platform spm_ok (mkOtherCores wait (mret tt)) me.
Proof. intros Hw st ph Hok. split; exists st, ph; (split; [apply others_idle|by auto]). Qed.
Lemma idle_off_ok : wait = halt → off_ok platform spm_ok (mkOtherCores wait (mret tt)) me.
Proof. intros -> st ph Hok Hph. exists st, ph. split; [apply others_idle|done]. Qed.
Lemma idle_stable : mode_stable (mkOtherCores wait (mret tt)).
Proof. by intros st st' [= <-]. Qed.
End Cores.

Lemma sample_power_off_ok me : wait_ok (sample_qemu me) sample_spm_ok sample_power_off me.
Proof. apply idle_wait_ok. by right. Qed.
Lemma sample_wake_up_ok me : wait_ok (sample_qemu me) sample_spm_ok sample_wake_up me.
Proof. apply idle_wait_ok. by left. Qed.
Lemma sample_off_ok me : off_ok (sample_qemu me) sample_spm_ok sample_power_off me.
Proof. by apply idle_off_ok. Qed.
Lemma sample_power_off_stable : mode_stable sample_power_off.
Proof. apply idle_stable. Qed.
Lemma sample_wake_up_stable : mode_stable sample_wake_up.
Proof. apply idle_stable. Qed.

(** A few of the function identifiers of [arm_psci]. *)
Definition sample_function (regs : list Z) : result Function ErrorCode :=
  match regs with
  | [x0; x1; x2; x3] =>
      if x0 =? 0x84000000 then Ok FVersion
      else if x0 =? 0xC4000001 then Ok (FCpuSuspend (PsPowerDown x1) (x2 : @EntryPoint sample_types))
      else if x0 =? 0x84000002 then Ok FCpuOff
      else if x0 =? 0xC4000003
      then Ok (FCpuOn (x1 : @Mpidr sample_types) (x2 : @EntryPoint sample_types))
      else Err NotSupported
  | _ => Err InvalidParameters
  end.

Definition sample_ops : @ArmPsciOps sample_types := {|
  function_try_from := sample_function;
  error_code_into_u64 _ := 2 ^ 64 - 1;
  version_into_u32 major minor := Z.lor (Z.shiftl major 16) minor;
  affinity_info_into_u32 a :=
    match a with AffOn => 0 | AffOff => 1 | AffOnPending => 2 end;
  migration_not_required := 2;
  hw_state_into_u32 := λ h : bool, if h then 0 else 1;
  flag_extended_power_state := 2;
  flag_os_initiated_mode := 1;
  flag_hibernate_off := 1;
|}.
#[export] Existing Instance sample_ops.
