(* ===== verification/PsciProps.v ===== *)
(** * The properties of the PSCI service

    The statements about the power domain tree in every reachable state, about
    each PSCI call and about the coordination of power states, with an instance
    of each on the QEMU platform. *)

From Stdlib Require Import ZArith Lia.
From stdpp Require Import base list numbers option functions relations.
From S2P Require Import Prelude PowerState Smccc PowerTree Composite TreeInv Coordination Psci PsciInv TreeNew PsciSystem PsciCalls Platforms PlatformLaws Sample.
Open Scope nat_scope.

(** ** Reachable states *)
Section Reachable.
Context `{ArmPsciTypes} {S W V : Type} `{!PlatformPowerStateInterface S}
  `{!PlatformPowerStateLaws S} `{!PsciDims}.
Context (platform : PsciPlatform S W V) `{!PsciPlatformLaws platform}.
Local Abbreviation St := (PsciState S EntryPoint W V).
Implicit Types st : St.

(** The nodes of a state. *)
Local Abbreviation nodes st := (non_cpu_power_nodes (power_domain_tree st)).

Lemma reachable_ok me st ph :
  me < CPU_DOMAIN_COUNT → reachable platform me (st, ph) → tree_ok (power_domain_tree st) ph.
Proof.
  intros Hme (w & v & st0 & Hnew & Hsteps).
  apply (steps_ok platform _ _ Hsteps). simpl. by eapply psci_new_tree_ok.
Qed.

Lemma path_lookup nodes o l i :
  path (S := S) nodes o l → i ∈ l → ∃ n, nodes !! i = Some n.
Proof.
  revert o. induction l as [|j l IH]; intros o Hp Hi; [by apply elem_of_nil in Hi|].
  destruct Hp as (_ & n & Hn & Hp). apply elem_of_cons in Hi as [->|Hi]; [by exists n|by eapply IH].
Qed.

Lemma susp_Some (n : NonCpuPowerNode S) c : node_len n → in_cpus n c → ∃ s, susp n c = Some s.
Proof.
  intros Hl Hc. unfold susp, in_cpus in *. apply lookup_lt_is_Some_2.
  rewrite (len_susp _ Hl). lia.
Qed.

Lemma vote_of_None (r : S) : vote_of r None = r.
Proof. unfold vote_of. by destruct (decide (r ≠ RUN)) as [|<-%dec_stable]. Qed.

(** C1: whatever the cores do after a cold boot, in whatever order their
    critical sections interleave, the power domain tree is consistent: every
    node and edge satisfies its invariant, and the node of every CPU agrees with
    what the CPU is doing. *)
Theorem reachable_tree_ok me st ph :
  me < CPU_DOMAIN_COUNT → reachable platform me (st, ph) → tree_ok (power_domain_tree st) ph.
Proof. apply reachable_ok. Qed.

(** C29: the ancestors of a CPU that runs are running: in every reachable state
    the path from the CPU to the root has one node for each level, and each of
    them is in the state [RUN]. *)
Theorem running_ancestors_run me st ph c :
  me < CPU_DOMAIN_COUNT → reachable platform me (st, ph) →
  c < CPU_DOMAIN_COUNT → ph c = PhRunning →
  ∃ cpu l, cpu_power_nodes (power_domain_tree st) !! c = Some cpu ∧
    cpu_affinity_info cpu = AffOn ∧ cpu_local_state cpu = RUN ∧
    path (nodes st) (Some (cpu_parent cpu)) l ∧ length l = MAX_POWER_LEVEL ∧
    ∀ i, i ∈ l → ∃ n, nodes st !! i = Some n ∧ ncpu_local_state n = RUN.
Proof.
  intros Hme Hr Hc Hph. pose proof (reachable_ok _ _ _ Hme Hr) as Hok.
  destruct (tree_ok_lookup _ _ _ Hok Hc) as [cpu Hcpu].
  destruct (tk_cpu _ _ Hok _ _ Hcpu) as (l & Hp & Hcok). rewrite Hph in Hcok.
  destruct Hcok as (Haff & Hloc & _ & Hcol). exists cpu, l.
  do 3 (split; [done|]). split; [apply Hp|]. split; [apply Hp|]. intros i Hi.
  destruct (path_lookup _ _ _ _ (cp_path _ _ _ _ Hp) Hi) as [n Hn]. exists n. split; [done|].
  apply (col_run_running c n); [by eapply tk_nodes|by eapply (cp_range _ _ _ _ Hp)|by eapply Hcol].
Qed.

(** C27: no power domain is ever in a deeper state than something below it
    allows: than the vote of any CPU below it, or than the state of a child
    domain. *)
Theorem domain_not_deeper me st ph i n :
  me < CPU_DOMAIN_COUNT → reachable platform me (st, ph) → nodes st !! i = Some n →
  (∀ c r s, in_cpus n c → req n c = Some r → susp n c = Some s →
     ncpu_local_state n ⊑ vote_of r s) ∧
  (∀ j, ncpu_parent n = Some j →
     ∃ p, nodes st !! j = Some p ∧ ncpu_local_state p ⊑ ncpu_local_state n).
Proof.
  intros Hme Hr Hn. pose proof (tk_nodes _ _ (reachable_ok _ _ _ Hme Hr)) as [Hnode Hedge].
  split; [intros c r v Hc; by apply (ok_vote _ (Hnode i n Hn))|]. intros j Hj.
  destruct (Hedge i n j Hn Hj) as (_ & p & Hp & He). exists p. split; [done|apply (edge_local _ _ _ He)].
Qed.

(** Without OS-initiated requests at a power domain its state is exactly the
    minimum of the states the CPUs below it ask for, as the PSCI specification
    defines platform-coordinated mode. *)
Theorem domain_is_minimum me st ph i n m :
  me < CPU_DOMAIN_COUNT → reachable platform me (st, ph) → nodes st !! i = Some n →
  (∀ c s, in_cpus n c → susp n c = Some s → s = None) →
  power_min_list (requested_states n) = Some m → ncpu_local_state n = m.
Proof.
  intros Hme Hr Hn Hsusp Hm.
  pose proof (no_node _ (tk_nodes _ _ (reachable_ok _ _ _ Hme Hr)) i n Hn) as Hok.
  destruct (power_min_req _ _ (ok_len _ Hok) Hm) as [(c & Hc & Hreq) Hle].
  apply power_le_antisymm; [|by apply (ok_glb _ Hok)].
  destruct (susp_Some n c (ok_len _ Hok) Hc) as [s Hs].
  pose proof (ok_vote _ Hok c _ _ Hc Hreq Hs) as Hv. rewrite (Hsusp c s Hc Hs) in Hv.
  by rewrite vote_of_None in Hv.
Qed.
End Reachable.

(** Core 0 has booted, and has turned on core 1. *)
Definition sample_on : QSt :=
  from_ret sample_boot (cpu_on (sample_qemu 0) (sample_core 1) sample_entry sample_boot).

Lemma zero_lt_cores : 0 < CPU_DOMAIN_COUNT.
Proof. change (0 < 4). lia. Qed.
Lemma one_lt_cores : 1 < CPU_DOMAIN_COUNT.
Proof. change (1 < 4). lia. Qed.
#[local] Instance sample_laws_0 : PsciPlatformLaws (sample_qemu 0) := sample_qemu_laws 0 zero_lt_cores.

Lemma sample_on_eq : cpu_on (sample_qemu 0) (sample_core 1)
  sample_entry sample_boot = Ret (Ok tt) sample_on.
Proof. vm_compute. reflexivity. Qed.

Lemma sample_on_reachable :
  reachable (sample_qemu 0) 0 (sample_on, <[1 := PhOnPending]> (initial_phases 0)).
Proof.
  exists sample_qemu_world, true, sample_boot. split; [exact sample_boot_eq|].
  apply rtc_once. exists 0. split; [apply zero_lt_cores|].
  apply (step_on (sample_qemu 0) 0 (sample_core 1) sample_entry 1 sample_boot sample_on (initial_phases 0));
    [reflexivity|vm_compute; reflexivity|exact sample_on_eq].
Qed.

Lemma reachable_tree_ok_witness :
  tree_ok (power_domain_tree sample_on) (<[1 := PhOnPending]> (initial_phases 0)).
Proof.
  exact (reachable_tree_ok (sample_qemu 0) 0 _ _ zero_lt_cores sample_on_reachable).
Defined.

Lemma running_ancestors_run_witness :
  ∃ cpu l, cpu_power_nodes (power_domain_tree sample_on) !! 0 = Some cpu ∧
    cpu_affinity_info cpu = AffOn ∧ cpu_local_state cpu = RUN ∧
    path (non_cpu_power_nodes (power_domain_tree sample_on)) (Some (cpu_parent cpu)) l ∧
    length l = 2 ∧
    ∀ i, i ∈ l → ∃ n, non_cpu_power_nodes (power_domain_tree sample_on) !! i = Some n ∧
      ncpu_local_state n = RUN.
Proof.
  exact (running_ancestors_run (sample_qemu 0) 0 _ _ 0 zero_lt_cores sample_on_reachable
    zero_lt_cores eq_refl).
Defined.

(** The node of the cluster. *)
Definition sample_cluster : NonCpuPowerNode QemuPowerState :=
  default (mkNonCpu None QemuOn (0, 0) (0, 0) [] [] [])
    (non_cpu_power_nodes (power_domain_tree sample_on) !! 1).

Lemma domain_not_deeper_witness :
  (∀ c r s, in_cpus sample_cluster c → req sample_cluster c = Some r →
     susp sample_cluster c = Some s → ncpu_local_state sample_cluster ⊑ vote_of r s) ∧
  (∀ j, ncpu_parent sample_cluster = Some j →
     ∃ p, non_cpu_power_nodes (power_domain_tree sample_on) !! j = Some p ∧
       ncpu_local_state p ⊑ ncpu_local_state sample_cluster).
Proof.
  apply (domain_not_deeper (sample_qemu 0) 0 _ _ 1 sample_cluster zero_lt_cores sample_on_reachable).
  vm_compute. reflexivity.
Defined.

Lemma domain_is_minimum_witness : ncpu_local_state sample_cluster = QemuOn.
Proof.
  apply (domain_is_minimum (sample_qemu 0) 0 _ _ 1 sample_cluster QemuOn zero_lt_cores
    sample_on_reachable); [vm_compute; reflexivity| |vm_compute; reflexivity].
  assert (∀ c, c < 4 → susp sample_cluster c = Some None) as Hnone.
  { intros c Hc. do 4 (destruct c as [|c]; [vm_compute; reflexivity|]). lia. }
  intros c s Hc. rewrite (Hnone c) by apply Hc. by intros [= <-].
Defined.

(** ** The PSCI calls *)
Section Calls.
Context `{ArmPsciTypes} `{!ArmPsciOps} {S W V : Type} `{!PlatformPowerStateInterface S}
  `{!PlatformPowerStateLaws S} `{!PsciDims}.
Context (platform : PsciPlatform S W V) `{!PsciPlatformLaws platform} `{!PsciOptionalLaws platform}.
Context (spm_ok : bool → V → Prop) `{!SpmLaws (psci_spm platform) spm_ok}.
Local Abbreviation St := (PsciState S EntryPoint W V).
Implicit Types st : St.

Lemma psci_smc_wp (cores : OtherCores St) me regs st :
  wait_ok platform spm_ok cores me → off_ok platform spm_ok cores me → mode_stable cores →
  me < CPU_DOMAIN_COUNT → 4 ≤ length (values regs) → serving spm_ok me st →
  wp (psci_handle_non_secure_smc platform cores me regs)
    (λ '(w, regs') st', w = NonSecure ∧ used regs' = 1 ∧ serving spm_ok me st' ∧
       (smc_return_wf regs → smc_return_wf regs')) consistent st.
Proof.
  intros Hwait Hoff Hst Hme Hregs Hi. destruct (values regs) as [|x0 l] eqn:Hv; [simpl in Hregs; lia|].
  apply wp_bind. eapply wp_lift; [rewrite Hv; by apply slice_ok; [lia|]|].
  apply wp_bind. eapply wp_lift; [by apply arr_get_Done|]. apply wp_bind.
  eapply wp_mono; [by apply keeps_handle_smc_inner| |done].
  intros r st' Hi'. apply wp_ret. split; [done|]. split; [done|]. split; [done|].
  intros [Hl Hu]. apply set_from_u64_wf. split; [|done]. simpl. by rewrite length_insert.
Qed.


(** C31: the entry point a core passes to CPU_ON is the one the target boots
    with, whatever the other cores do before it comes up; then the target
    runs and the tree is consistent. *)
Theorem cpu_on_then_boot m entry t st st1 st2 ph ph2 :
  tree_ok (power_domain_tree st) ph → try_get_cpu_index_by_mpidr platform m = Done (Some t) →
  cpu_on platform m entry st = Ret (Ok tt) st1 →
  rtc (other_step platform t) (st1, <[t := PhOnPending]> ph) (st2, ph2) →
  ∃ st3, handle_cpu_boot platform t st2 = Ret (CpuOn entry) st3 ∧
    tree_ok (power_domain_tree st3) (<[t := PhRunning]> ph2).
Proof.
  intros Hok Hidx Hon Hsteps. eapply wp_Ret in Hon; [|by apply cpu_on_wp].
  destruct Hon as (_ & t' & Ht' & _ & Hok1 & Hst). assert (t' = t) as -> by congruence.
  destruct (cpu_index_ok platform m (tk_index _ _ Hok)) as (i & Hi & Hlt).
  rewrite Hidx in Hi. injection Hi as <-.
  pose proof (boot_with_entry platform t entry (st1, <[t := PhOnPending]> ph) (st2, ph2) Hok1 (Hlt t eq_refl)) as Hb.
  simpl in Hb. rewrite fn_lookup_insert in Hb. by apply Hb; [left| |].
Qed.

(** C32: a core that suspends to a power-down state comes back through the warm
    boot path with the entry point it asked for, whatever the other cores do
    while it waits for its locks and while it is off. *)
Theorem suspend_then_boot (cores : OtherCores St) c ps entry h comp comp' s0 st st1 ph :
  wait_ok platform spm_ok cores c →
  tree_ok (power_domain_tree st) ph → c < CPU_DOMAIN_COUNT → ph c = PhRunning →
  request_ok comp true h s0 →
  suspend_enter platform cores c ps entry h comp true st = Ret (Ok (false, comp')) st1 →
  ∃ ph1, tree_ok (power_domain_tree st1) ph1 ∧ ph1 c = PhSuspended true ∧
    ∀ st2 ph2, rtc (other_step platform c) (st1, ph1) (st2, ph2) →
      ∃ st3, handle_cpu_boot platform c st2 = Ret (SuspendFinished entry) st3 ∧
        tree_ok (power_domain_tree st3) (<[c := PhRunning]> ph2).
Proof.
  intros Hwait Hok Hc Hph Hrq Hs. destruct (suspend_enter_steps platform spm_ok cores c Hwait Hc
    _ _ _ _ _ _ _ _ _ Hok Hph Hs) as (osi & cpu & st' & ph' & _ & Hok' & Hph' & Hcpu & Hl).
  eapply suspend_locked_Ret in Hl; [|done..]. destruct Hl as (_ & _ & Hok1 & Hst).
  exists (<[c := PhSuspended true]> ph'). split; [done|]. split; [by rewrite fn_lookup_insert|].
  intros st2 ph2 Hsteps.
  pose proof (boot_with_entry platform c entry (st1, <[c := PhSuspended true]> ph') (st2, ph2) Hok1 Hc) as Hb.
  simpl in Hb. rewrite fn_lookup_insert in Hb. by apply Hb; [right|apply Hst|].
Qed.

(** C40: [cpu_suspend_start] reads the suspend mode twice, and the other cores may run
    in between.  A core that suspends in platform-coordinated mode while another
    one switches to OS-initiated mode has its ancestors locked up to the highest
    affected level only; it panics, by an index past them, exactly if the last
    level of its request is above that, unless it has an interrupt pending. *)
Theorem suspend_mode_race_panics (cores : OtherCores St) c d ps entry h comp (pd : bool) s0 last st st1 ph :
  tree_ok (power_domain_tree st) ph → c < CPU_DOMAIN_COUNT → d < CPU_DOMAIN_COUNT →
  ph c = PhRunning → ph d = PhRunning → request_ok comp pd h s0 →
  last_at_power_level comp = Some last → spm_ok true (spm_state st) →
  suspend_mode st = PlatformCoordinated →
  set_suspend_mode platform d OsInitiated st = Ret (Ok 0%Z) st1 → lock_wait cores st = Ret tt st1 →
  (∀ w, ∃ w', has_pending_interrupts platform w = Ret false w') →
  suspend_enter platform cores c ps entry h comp pd st = Crash ↔ h < last.
Proof.
  intros Hok Hc Hd Hph Hphd Hrq Hlast Hspm Hm Hset Hlock Hpend.
  assert (has_feature platform OS_INITIATED_MODE = true) as Hf
    by (unfold set_suspend_mode in Hset; by destruct (has_feature platform OS_INITIATED_MODE)).
  eapply wp_Ret in Hset; [|by eapply set_suspend_mode_wp].
  destruct Hset as (Ht & Hw & Hv & Hm1 & _). rewrite <-Ht in Hok.
  destruct (tree_ok_lookup _ _ _ Hok Hc) as [cpu Hcpu].
  assert (suspend_enter platform cores c ps entry h comp pd st =
    suspend_locked platform c ps entry h comp pd (lock_level false h) cpu st1) as ->.
  { rewrite Ht in Hcpu. apply arr_get_Done in Hcpu. unfold suspend_enter, lock_cpu, locked_cpu_node, is_in_osi_mode.
    cbv [mbind M_bind get lift mret M_ret]. rewrite Hcpu, Hf. cbv [negb].
    rewrite Hm, bool_decide_false by done. by rewrite Hlock. }
  destruct (decide (h < last)) as [Hlt|Hge].
  - split; [done|]. intros _. destruct (suspend_locked_race platform c ps entry h comp pd cpu st1 ph)
      as (p & w & Hp & Heq); [done..| |unfold mode_race; by eauto 8|].
    { rewrite (rq_length _ _ _ _ Hrq). unfold STATE_COUNT. pose proof (rq_h _ _ _ _ Hrq). lia. }
    simpl. rewrite Heq. destruct (Hpend (world st1)) as [w' Hw']. by rewrite Hp in Hw'; injection Hw' as -> _.
  - split; [|done]. intros Hcr. exfalso. revert Hcr. eapply wp_Crash, (suspend_locked_wp platform spm_ok); try done.
    { by rewrite Hv. }
    intros (_ & _ & _ & last' & Hl' & Hlt'). congruence.
Qed.

(** CPU_SUSPEND always ends, unless the mode changes under it.  An error means that
    only the other cores have done something; success that the core was suspended and
    runs again; a core that does not come back left a consistent tree in which it
    does not run. *)
Theorem cpu_suspend_total (cores : OtherCores St) me ps entry st ph :
  wait_ok platform spm_ok cores me → mode_stable cores → me < CPU_DOMAIN_COUNT →
  tree_ok (power_domain_tree st) ph → ph me = PhRunning → spm_ok true (spm_state st) →
  wp (cpu_suspend platform cores me ps entry) (λ r st',
    serving spm_ok me st' ∧
    match r with
    | Ok _ => True
    | Err _ => ∃ st0 st1 ph1, same_psci st st0 ∧ rtc (other_step platform me) (st0, ph) (st1, ph1) ∧
        power_domain_tree st' = power_domain_tree st1 ∧ suspend_mode st' = suspend_mode st1
    end)
    (λ st', ∃ ph', tree_ok (power_domain_tree st') ph' ∧ ph' me ≠ PhRunning) st.
Proof.
  intros Hwait Hst Hme Hok Hph Hspm.
  eapply wp_mono; [by apply (cpu_suspend_wp platform spm_ok cores me Hwait Hme Hst _ _ _ ph)| |done].
  intros r st' (Hspm' & Hi & Hr). done.
Qed.

(** CPU_OFF returns errors only, and then nothing has changed.  Otherwise
    the core stops, marked as off or, if another core turned it on again in
    the meantime, as about to boot; the loop that retries the wait never gets
    to the panic behind it. *)
Theorem cpu_off_total (cores : OtherCores St) me st ph :
  off_ok platform spm_ok cores me → me < CPU_DOMAIN_COUNT →
  tree_ok (power_domain_tree st) ph → ph me = PhRunning → spm_ok true (spm_state st) →
  wp (cpu_off platform cores me)
    (λ r st', (∃ e, r = Err e) ∧ power_domain_tree st' = power_domain_tree st)
    (λ st', ∃ ph', tree_ok (power_domain_tree st') ph' ∧
       (ph' me = PhOff ∨ ph' me = PhOnPending)) st.
Proof.
  intros Hoff Hme Hok Hph Hspm.
  eapply wp_mono; [by apply (cpu_off_wp platform spm_ok cores me Hme _ ph)| |done].
  intros r st' (? & ? & _). done.
Qed.

(** CPU_ON does not panic for any target; at most the platform does not come back
    from turning on the core.  It succeeds only for a CPU that is
    off, which is then marked as about to boot; an invalid MPIDR, an invalid
    entry point, a CPU that is on and one that is about to boot get their error
    code, and an error changes nothing. *)
Theorem cpu_on_total m entry st ph :
  tree_ok (power_domain_tree st) ph →
  wp (cpu_on platform m entry) (λ r st',
    suspend_mode st' = suspend_mode st ∧
    match r with
    | Ok _ => ∃ c, try_get_cpu_index_by_mpidr platform m = Done (Some c) ∧ ph c = PhOff ∧
        tree_ok (power_domain_tree st') (<[c := PhOnPending]> ph)
    | Err e => power_domain_tree st' = power_domain_tree st ∧
        (try_get_cpu_index_by_mpidr platform m = Done None ∧ e = InvalidParameters ∨
         e = InvalidAddress ∨
         ∃ c, try_get_cpu_index_by_mpidr platform m = Done (Some c) ∧
           match ph c with
           | PhOff => True
           | PhOnPending => e = OnPending
           | _ => e = AlreadyOn
           end)
    end) (same_psci st) st.
Proof.
  intros Hok. eapply wp_mono; [by apply cpu_on_wp| |done].
  intros [[]|e] st'; [|by intros [[= ? _] ?]]. intros ([= Hm _] & c & Hc & Hph & Hok' & _). eauto 6.
Qed.

(** AFFINITY_INFO tells what the target is doing, for every valid target
    at level 0, and changes nothing. *)
Theorem affinity_info_phase m t st ph :
  tree_ok (power_domain_tree st) ph → try_get_cpu_index_by_mpidr platform m = Done (Some t) →
  affinity_info platform m 0 st =
    Ret (Ok (match ph t with PhOff => AffOff | PhOnPending => AffOnPending | _ => AffOn end)) st.
Proof.
  intros Hok Hidx. destruct (cpu_index_ok platform m (tk_index _ _ Hok)) as (i & Hi & Hlt).
  rewrite Hidx in Hi. injection Hi as <-.
  destruct (tree_ok_lookup _ _ t Hok (Hlt t eq_refl)) as [cpu Hcpu].
  rewrite <-(phase_affinity _ _ _ _ Hok Hcpu). unfold affinity_info. rewrite Hidx.
  apply arr_get_Done in Hcpu. cbv [mbind M_bind lift try_M mret M_ret ok_or lock_cpu get].
  rewrite decide_False by (unfold CPU_POWER_LEVEL; lia). unfold locked_cpu_node. by rewrite Hcpu.
Qed.

(** The suspend mode changes only when no other CPU is on, or, towards
    OS-initiated mode, when all CPUs are on; otherwise the call is denied and
    changes nothing. *)
Theorem set_suspend_mode_total me mode st ph :
  tree_ok (power_domain_tree st) ph → me < CPU_DOMAIN_COUNT → ph me = PhRunning →
  wp (set_suspend_mode platform me mode) (λ r st',
    power_domain_tree st' = power_domain_tree st ∧ world st' = world st ∧
    match r with
    | Ok _ => suspend_mode st' = mode ∧
        (suspend_mode st = mode ∨
         (∀ c, c < CPU_DOMAIN_COUNT → c ≠ me → ph c = PhOff) ∨
         (mode = OsInitiated ∧ ∀ c, c < CPU_DOMAIN_COUNT → ph c ≠ PhOff ∧ ph c ≠ PhOnPending))
    | Err e => st' = st ∧ (e = NotSupported ∨ e = Denied)
    end) (λ _, False) st.
Proof.
  intros Hok Hme Hph. eapply wp_mono; [by eapply set_suspend_mode_wp| |done].
  intros r st' (Ht & Hw & _ & Hr). done.
Qed.
End Calls.

Lemma sample_idle : idle 0 sample_boot.
Proof. exists (initial_phases 0). split; [exact sample_boot_ok|reflexivity]. Qed.

(** The registers of a CPU_OFF call. *)
Definition sample_regs : SmcReturn := mkSmcReturn 18 (0x84000002%Z :: replicate 17 0%Z).

Lemma sample_serving : serving sample_spm_ok 0 sample_boot.
Proof. split; [exact sample_idle|reflexivity]. Qed.


Lemma cpu_on_then_boot_witness :
  ∃ st3, handle_cpu_boot (sample_qemu 0) 1 sample_on =
      Ret (CpuOn sample_entry) st3 ∧
    tree_ok (power_domain_tree st3) (<[1 := PhRunning]> (<[1 := PhOnPending]> (initial_phases 0))).
Proof.
  apply (cpu_on_then_boot (sample_qemu 0) (sample_core 1) sample_entry 1 sample_boot sample_on sample_on
    (initial_phases 0)); [exact sample_boot_ok|vm_compute; reflexivity|exact sample_on_eq|].
  apply rtc_refl.
Defined.

(** Core 0 powers its cluster down. *)
Definition sample_request : PsciCompositePowerState QemuPowerState :=
  mkComposite [QemuPowerDown; QemuPowerDown; QemuOn] (Some 1).

Lemma sample_request_ok : request_ok sample_request true 1 QemuPowerDown.
Proof.
  destruct (valid_request_ok sample_request true 1) as [s Hs]; [reflexivity..|].
  assert (s = QemuPowerDown) as <-; [|done]. pose proof (rq_cpu _ _ _ _ Hs) as Heq.
  by injection Heq.
Qed.

Definition sample_suspended : QSt :=
  from_ret sample_boot (suspend_enter (sample_qemu 0) sample_wake_up 0 None sample_entry
    1 sample_request true sample_boot).

Lemma suspend_then_boot_witness :
  ∃ ph1, tree_ok (power_domain_tree sample_suspended) ph1 ∧ ph1 0 = PhSuspended true ∧
    ∀ st2 ph2, rtc (other_step (sample_qemu 0) 0) (sample_suspended, ph1) (st2, ph2) →
      ∃ st3, handle_cpu_boot (sample_qemu 0) 0 st2 = Ret (SuspendFinished sample_entry) st3 ∧
        tree_ok (power_domain_tree st3) (<[0 := PhRunning]> ph2).
Proof.
  apply (suspend_then_boot (sample_qemu 0) sample_spm_ok sample_wake_up 0 None sample_entry 1 sample_request
    sample_request QemuPowerDown sample_boot sample_suspended (initial_phases 0) (sample_wake_up_ok 0));
    [exact sample_boot_ok|exact zero_lt_cores|reflexivity|exact sample_request_ok
    |vm_compute; reflexivity].
Defined.

(** Core 0 turns on core [n], which boots. *)
Definition sample_pending (n : nat) (st : QSt) : QSt :=
  from_ret st (cpu_on (sample_qemu 0) (sample_core (Z.of_nat n)) sample_entry st).
Definition sample_turn_on (n : nat) (st : QSt) : QSt :=
  from_ret st (handle_cpu_boot (sample_qemu 0) n (sample_pending n st)).

Lemma sample_turn_on_ok n st ph :
  tree_ok (power_domain_tree st) ph → n < CPU_DOMAIN_COUNT → ph 0 = PhRunning →
  try_get_cpu_index_by_mpidr (sample_qemu 0) (sample_core (Z.of_nat n)) = Done (Some n) →
  cpu_on (sample_qemu 0) (sample_core (Z.of_nat n)) sample_entry st =
    Ret (Ok tt) (sample_pending n st) →
  handle_cpu_boot (sample_qemu 0) n (sample_pending n st) = Ret (CpuOn sample_entry) (sample_turn_on n st) →
  tree_ok (power_domain_tree (sample_turn_on n st)) (<[n := PhRunning]> (<[n := PhOnPending]> ph)).
Proof.
  intros Hok Hn Hph Hidx Hon Hboot.
  apply (step_ok (sample_qemu 0) 0 st ph (sample_pending n st) (<[n := PhOnPending]> ph) zero_lt_cores) in Hok; [|by eapply step_on].
  eapply (step_ok (sample_qemu 0) n); [done| |exact Hok]. eapply step_boot; [|done].
  left. by rewrite fn_lookup_insert.
Qed.

(** All cores are on. *)
Definition sample_all_on : QSt := sample_turn_on 3 (sample_turn_on 2 (sample_turn_on 1 sample_boot)).
Definition all_running : nat → Phase :=
  let on n ph := <[n := PhRunning]> (<[n := PhOnPending]> ph) in on 3 (on 2 (on 1 (initial_phases 0))).
Lemma sample_all_on_ok : tree_ok (power_domain_tree sample_all_on) all_running.
Proof.
  do 3 (apply sample_turn_on_ok;
    [|apply (bool_decide_unpack _); reflexivity|reflexivity|vm_compute; reflexivity..]).
  exact sample_boot_ok.
Qed.

(** While core 0 waits for its locks, core 1 calls PSCI_SET_SUSPEND_MODE. *)
Definition sample_mode_switch : OtherCores QSt :=
  mkOtherCores (mret tt) (_ ← set_suspend_mode (sample_qemu 1) 1 OsInitiated; mret tt).
Definition sample_switched : QSt :=
  from_ret sample_all_on (set_suspend_mode (sample_qemu 0) 1 OsInitiated sample_all_on).
(** Core 0 asks to power down itself only, as the last core of the system. *)
Definition sample_last : PsciCompositePowerState QemuPowerState :=
  mkComposite [QemuPowerDown; QemuOn; QemuOn] (Some 2).
Lemma sample_last_ok : request_ok sample_last true 0 QemuPowerDown.
Proof.
  destruct (valid_request_ok sample_last true 0) as [s Hs]; [reflexivity..|].
  assert (s = QemuPowerDown) as <-; [|done]. pose proof (rq_cpu _ _ _ _ Hs) as Heq.
  by injection Heq.
Qed.

Lemma suspend_mode_race_panics_witness :
  suspend_enter (sample_qemu 0) sample_mode_switch 0 None sample_entry 0 sample_last true sample_all_on = Crash.
Proof.
  apply (suspend_mode_race_panics (sample_qemu 0) sample_spm_ok (SpmLaws0 := sample_spm_laws) sample_mode_switch
    0 1 None sample_entry 0 sample_last true QemuPowerDown 2 sample_all_on sample_switched all_running sample_all_on_ok
    zero_lt_cores one_lt_cores eq_refl eq_refl sample_last_ok eq_refl);
    [reflexivity|reflexivity|vm_compute; reflexivity|vm_compute; reflexivity| |lia].
  intros w. exists w. by destruct w.
Defined.

Lemma cpu_suspend_total_witness :
  wp (cpu_suspend (sample_qemu 0) sample_wake_up 0 (PsPowerDown 0x22)
       sample_entry) (λ r st',
    serving sample_spm_ok 0 st' ∧
    match r with
    | Ok _ => True
    | Err _ => ∃ st0 st1 ph1, same_psci sample_boot st0 ∧
        rtc (other_step (sample_qemu 0) 0) (st0, initial_phases 0) (st1, ph1) ∧
        power_domain_tree st' = power_domain_tree st1 ∧ suspend_mode st' = suspend_mode st1
    end)
    (λ st', ∃ ph', tree_ok (power_domain_tree st') ph' ∧ ph' 0 ≠ PhRunning) sample_boot.
Proof.
  apply (cpu_suspend_total (sample_qemu 0) sample_spm_ok (SpmLaws0 := sample_spm_laws) sample_wake_up 0 _ _ sample_boot
    (initial_phases 0) (sample_wake_up_ok 0) sample_wake_up_stable zero_lt_cores sample_boot_ok); reflexivity.
Defined.

Lemma cpu_off_total_witness :
  wp (cpu_off (sample_qemu 0) sample_power_off 0)
    (λ r st', (∃ e, r = Err e) ∧ power_domain_tree st' = power_domain_tree sample_boot)
    (λ st', ∃ ph', tree_ok (power_domain_tree st') ph' ∧
       (ph' 0 = PhOff ∨ ph' 0 = PhOnPending)) sample_boot.
Proof.
  apply (cpu_off_total (sample_qemu 0) sample_spm_ok (SpmLaws0 := sample_spm_laws) sample_power_off 0 sample_boot
    (initial_phases 0) (sample_off_ok 0) zero_lt_cores sample_boot_ok); reflexivity.
Defined.

Lemma cpu_on_total_witness :
  wp (cpu_on (sample_qemu 0) (sample_core 0) sample_entry)
    (λ r st', suspend_mode st' = suspend_mode sample_boot ∧
    match r with
    | Ok _ => ∃ c, try_get_cpu_index_by_mpidr (sample_qemu 0) (sample_core 0) =
          Done (Some c) ∧ initial_phases 0 c = PhOff ∧
        tree_ok (power_domain_tree st') (<[c := PhOnPending]> (initial_phases 0))
    | Err e => power_domain_tree st' = power_domain_tree sample_boot ∧
        (try_get_cpu_index_by_mpidr (sample_qemu 0) (sample_core 0) = Done None ∧
           e = InvalidParameters ∨
         e = InvalidAddress ∨
         ∃ c, try_get_cpu_index_by_mpidr (sample_qemu 0) (sample_core 0) =
             Done (Some c) ∧
           match initial_phases 0 c with
           | PhOff => True
           | PhOnPending => e = OnPending
           | _ => e = AlreadyOn
           end)
    end) (same_psci sample_boot) sample_boot.
Proof. exact (cpu_on_total (sample_qemu 0) _ _ sample_boot (initial_phases 0) sample_boot_ok). Defined.

Lemma affinity_info_phase_witness :
  affinity_info (sample_qemu 0) (sample_core 1) 0 sample_on =
    Ret (Ok AffOnPending) sample_on.
Proof.
  exact (affinity_info_phase (sample_qemu 0) (sample_core 1) 1 sample_on
    (<[1 := PhOnPending]> (initial_phases 0))
    (reachable_ok (sample_qemu 0) 0 _ _ zero_lt_cores sample_on_reachable) eq_refl).
Defined.

Lemma set_suspend_mode_total_witness :
  wp (set_suspend_mode (sample_qemu 0) 0 OsInitiated) (λ r st',
    power_domain_tree st' = power_domain_tree sample_boot ∧ world st' = world sample_boot ∧
    match r with
    | Ok _ => suspend_mode st' = OsInitiated ∧
        (suspend_mode sample_boot = OsInitiated ∨
         (∀ c, c < 4 → c ≠ 0 → initial_phases 0 c = PhOff) ∨
         (OsInitiated = OsInitiated ∧
          ∀ c, c < 4 → initial_phases 0 c ≠ PhOff ∧ initial_phases 0 c ≠ PhOnPending))
    | Err e => st' = sample_boot ∧ (e = NotSupported ∨ e = Denied)
    end) (λ _, False) sample_boot.
Proof.
  exact (set_suspend_mode_total (sample_qemu 0) 0 OsInitiated sample_boot (initial_phases 0)
    sample_boot_ok zero_lt_cores eq_refl).
Defined.
