(* ===== verification/TreeProps.v ===== *)
(** * The properties of the power domain tree and of the coordination

    The tree that is built from a topology, the order in which its nodes are
    locked, the two ways of coordinating a power state, and the inputs on which
    the code panics. *)

From Stdlib Require Import ZArith Lia.
From stdpp Require Import base list numbers option functions relations.
From S2P Require Import Prelude PowerState Smccc PowerTree Composite TreeInv Coordination Psci PsciInv TreeNew PsciSystem Platforms PlatformLaws Sample.
Open Scope nat_scope.

Section Tree.
Context {S EP : Type} `{PlatformPowerStateLaws S} `{PsciDims}.
Implicit Types anc : AncestorPowerDomains S.

(** For every topology the construction accepts, the tree is well formed:
    each node and edge satisfies its invariant, there is one node for each CPU,
    everything is off, and the path from each CPU to the root has one node for
    each level, exactly those whose range of CPUs contains it. *)
Theorem tree_new_well_formed topology (tree : PowerDomainTree S EP) :
  tree_new topology = Done tree →
  nodes_ok (non_cpu_power_nodes tree) ∧ length (cpu_power_nodes tree) = CPU_DOMAIN_COUNT ∧
  (∀ i n, non_cpu_power_nodes tree !! i = Some n → ncpu_local_state n = OFF) ∧
  ∀ c cpu, cpu_power_nodes tree !! c = Some cpu →
    cpu_affinity_info cpu = AffOff ∧ cpu_local_state cpu = OFF ∧ cpu_entry_point cpu = None ∧
    ∃ l, path (non_cpu_power_nodes tree) (Some (cpu_parent cpu)) l ∧
      length l = MAX_POWER_LEVEL ∧
      ∀ i n, non_cpu_power_nodes tree !! i = Some n → in_cpus n c ↔ i ∈ l.
Proof.
  intros Hd. destruct (tree_new_spec _ _ Hd) as (Hn & Hlen & _ & Hoff & Hcpu).
  do 3 (split; [done|]). intros c cpu Hc. destruct (Hcpu c cpu Hc) as [-> [l Hl]].
  do 3 (split; [done|]). exists l. by destruct Hl.
Qed.

(** The ancestors of a CPU are always locked from the one nearest to the
    CPU to the root, in strictly decreasing order of their indices, so that
    cores that lock ancestors at the same time cannot wait for each other in a
    cycle. *)
Theorem ancestors_lock_order (tree : PowerDomainTree S EP) ph c cpu max_level :
  tree_ok tree ph → cpu_power_nodes tree !! c = Some cpu →
  ∃ anc, new_with_max_level (cpu_parent cpu) max_level (non_cpu_power_nodes tree) = Done anc ∧
    length anc = Nat.min max_level MAX_POWER_LEVEL ∧
    ∀ a b i j, a < b → anc.*1 !! a = Some i → anc.*1 !! b = Some j → j < i.
Proof.
  intros Hok Hc. destruct (tk_cpu _ _ Hok _ _ Hc) as (l & Hp & _).
  destruct (lock_Done _ _ _ _ Hp) as (full & <- & Hl & Hlen & Hlock).
  exists (take max_level full). split; [apply Hlock|]. split; [by rewrite length_take, Hlen|].
  intros a b i j Hab Hi Hj. rewrite fmap_take in Hi, Hj.
  apply lookup_take_Some in Hi as [Hi _], Hj as [Hj _].
  by eapply (path_decreasing _ _ _ (tk_nodes _ _ Hok) (cp_path _ _ _ _ Hp)).
Qed.

(** C30: the platform-coordinated algorithm, which stops recomputing the minimum
    above the first level that has to run, computes what the definition of
    coordination says: every locked ancestor records the request, is in the
    minimum of the states requested from it, and the composite state reports
    these minima. *)
Theorem coordinate_state_reference self c anc :
  chain_ok c None anc → Forall (λ x, running_node c x.2) anc →
  antitone (states self) → length anc < length (states self) →
  let anc' := reference_coordination c None anc (drop 1 (states self)) in
  coordinate_state self c anc =
    Done (mkComposite (take 1 (states self) ++ ((λ x, ncpu_local_state x.2) <$> anc')
                       ++ drop (Datatypes.S (length anc)) (states self))
            (last_at_power_level self), anc') ∧
  Forall (λ x, minimal x.2) anc' ∧
  ∀ k i n, anc' !! k = Some (i, n) → req n c = states self !! Datatypes.S k.
Proof.
  intros Hch Hrun Ha Hlen anc'.
  by destruct (coordinate_state_upd self c anc Hch Hrun Ha Hlen)
    as (x & Heq & _ & Hmin & Hreq & ->).
Qed.

(** In OS-initiated mode a request is accepted exactly when the core is the
    last one to idle at the level it claims to be, and at every affected level
    the requested state is no deeper than what the other CPUs and the other
    child domains allow.  The check does not panic. *)
Theorem osi_validation self c h anc last :
  chain_ok c None anc → h < length (states self) →
  last_at_power_level self = Some last → last ≤ length anc →
  ∃ r b, validate_state_coordination self c h anc = Done r ∧
    is_last_cpu_to_idle_at_power_level anc c last = Done b ∧
    (r = Ok tt ↔ b = true ∧ levels_allowed c None (take h anc) (take h (drop 1 (states self)))).
Proof.
  intros Hch Hh Hl Hlast. unfold validate_state_coordination. rewrite Hl.
  destruct (is_last_cpu_to_idle_spec c None anc last) as [b ->]; [done..|]. cbn.
  destruct b; simpl; [|exists (Err Denied), false; split; [done|]; split; [done|]; naive_solver].
  unfold CPU_POWER_LEVEL. case_decide as Hz; [subst h; exists (Ok tt), true; naive_solver|].
  rewrite slice_ok by lia. cbn [mbind outcome_bind].
  destruct (validate_loop_spec c None (take h anc) (take (h + 1 - 1) (drop 1 (states self))))
    as (r & Heq & Hr); [by apply chain_ok_take|]. simpl in Heq, Hr.
  exists r, true. split; [done|]. split; [done|]. rewrite Hr.
  replace (h + 1 - 1) with h by lia. naive_solver.
Qed.

(** A composite state is a valid suspend request exactly if some level
    leaves the running state, the states get shallower towards the root, the
    last level at which the core claims to be the last is a level of the
    platform, and there is a power-down level if and only if the request is for
    power down. *)
Theorem valid_suspend_request_spec self (pd : bool) :
  is_valid_suspend_request self pd = true ↔
  (∃ i s, states self !! i = Some s ∧ power_state_type s ≠ Run) ∧
  antitone (states self) ∧
  (∀ last, last_at_power_level self = Some last → last ≤ MAX_POWER_LEVEL) ∧
  (pd = true ↔ ∃ i s, states self !! i = Some s ∧ power_state_type s = PowerDown).
Proof.
  unfold is_valid_suspend_request. rewrite <-sorted_antitone.
  pose proof (rposition_is_Some (λ s, bool_decide (power_state_type s ≠ Run)) (states self)) as Hrun.
  pose proof (rposition_is_Some (λ s, bool_decide (power_state_type s = PowerDown)) (states self)) as Hpd.
  setoid_rewrite bool_decide_eq_true in Hrun. setoid_rewrite bool_decide_eq_true in Hpd.
  rewrite <-Hrun, <-Hpd. fold (find_highest_non_run_level self) (find_highest_power_down_level self).
  destruct (find_highest_non_run_level self) as [h|]; [|split; [done|by intros [[] _]]].
  destruct (is_sorted_by _ _); simpl; [|split; [done|by intros (_ & ? & _)]].
  match goal with |- (if ?b then _ else _) = true ↔ _ =>
    assert (b = false ↔ ∀ last, last_at_power_level self = Some last → last ≤ MAX_POWER_LEVEL) as <-;
    [|destruct b] end.
  { destruct (last_at_power_level self) as [last|]; [|done]. rewrite bool_decide_eq_false.
    split; [intros ? ? [= <-]; lia|]. intros Hl. specialize (Hl last eq_refl). lia. }
  { split; [done|]. by intros (_ & _ & ? & _). }
  destruct pd; [|rewrite bool_decide_eq_true, eq_None_not_Some]; [rewrite bool_decide_eq_true|];
    split; [intros; split; [by eexists|done]| |intros; split; [by eexists|done]|];
    intros (_ & _ & _ & Hiff); [by apply Hiff|]. intros Hs. by apply Hiff in Hs.
Qed.
End Tree.

(** ** Instances on QEMU *)
Definition sample_tree : PowerDomainTree QemuPowerState Z :=
  from_done (mkTree [] []) (tree_new qemu_topology).

Lemma tree_new_well_formed_witness :
  nodes_ok (non_cpu_power_nodes sample_tree) ∧ length (cpu_power_nodes sample_tree) = 4 ∧
  (∀ i n, non_cpu_power_nodes sample_tree !! i = Some n → ncpu_local_state n = OFF) ∧
  ∀ c cpu, cpu_power_nodes sample_tree !! c = Some cpu →
    cpu_affinity_info cpu = AffOff ∧ cpu_local_state cpu = OFF ∧ cpu_entry_point cpu = None ∧
    ∃ l, path (non_cpu_power_nodes sample_tree) (Some (cpu_parent cpu)) l ∧
      length l = 2 ∧
      ∀ i n, non_cpu_power_nodes sample_tree !! i = Some n → in_cpus n c ↔ i ∈ l.
Proof. refine (tree_new_well_formed qemu_topology sample_tree _). vm_compute. reflexivity. Defined.

Definition sample_cpu : CpuPowerNode QemuPowerState (@EntryPoint sample_types) :=
  default (cpu_new 0) (cpu_power_nodes (power_domain_tree sample_boot) !! 0).

Lemma ancestors_lock_order_witness :
  ∃ anc, new_with_max_level (cpu_parent sample_cpu) 2
      (non_cpu_power_nodes (power_domain_tree sample_boot)) = Done anc ∧
    length anc = 2 ∧
    ∀ a b i j, a < b → anc.*1 !! a = Some i → anc.*1 !! b = Some j → j < i.
Proof.
  apply (ancestors_lock_order (power_domain_tree sample_boot) (initial_phases 0) 0 sample_cpu 2
    sample_boot_ok). vm_compute. reflexivity.
Defined.

(** The ancestors of core 0 after the cold boot. *)
Definition sample_ancestors : AncestorPowerDomains QemuPowerState :=
  from_done [] (new_with_max_level (cpu_parent sample_cpu) 2
    (non_cpu_power_nodes (power_domain_tree sample_boot))).

Lemma sample_ancestors_ok :
  chain_ok 0 None sample_ancestors ∧ Forall (λ x, running_node 0 x.2) sample_ancestors.
Proof.
  destruct (tree_ok_open sample_boot (initial_phases 0) 0 sample_boot_ok)
    as (cpu & full & Hcpu & Hp & (_ & _ & _ & Hcol) & Hl & Hch & Hlen & Hlock).
  { change (0 < 4). lia. }
  assert (sample_cpu = cpu) as Hc by (unfold sample_cpu; by rewrite Hcpu).
  assert (sample_ancestors = full) as ->.
  { unfold sample_ancestors. rewrite Hc, Hlock. simpl. apply take_ge. by rewrite Hlen. }
  split; [done|]. eapply full_running; [apply (tk_nodes _ _ sample_boot_ok)|done..].
Qed.

(** A request of core 0 to power the cluster down. *)
Definition sample_target : PsciCompositePowerState QemuPowerState :=
  mkComposite [QemuPowerDown; QemuPowerDown; QemuOn] (Some 1).

Lemma sample_target_antitone : antitone (states sample_target).
Proof. apply sorted_antitone. reflexivity. Qed.

Lemma sample_ancestors_length : length sample_ancestors = 2.
Proof. vm_compute. reflexivity. Qed.

Lemma coordinate_state_reference_witness :
  let anc' := reference_coordination 0 None sample_ancestors [QemuPowerDown; QemuOn] in
  coordinate_state sample_target 0 sample_ancestors =
    Done (mkComposite ([QemuPowerDown] ++ ((λ x, ncpu_local_state x.2) <$> anc') ++
            drop (Datatypes.S (length sample_ancestors)) (states sample_target)) (Some 1), anc') ∧
  Forall (λ x, minimal x.2) anc' ∧
  ∀ k i n, anc' !! k = Some (i, n) → req n 0 = states sample_target !! Datatypes.S k.
Proof.
  apply (coordinate_state_reference sample_target 0 sample_ancestors (proj1 sample_ancestors_ok)
    (proj2 sample_ancestors_ok) sample_target_antitone).
  rewrite sample_ancestors_length. simpl. lia.
Defined.

Lemma osi_validation_witness :
  ∃ r b, validate_state_coordination sample_target 0 1 sample_ancestors = Done r ∧
    is_last_cpu_to_idle_at_power_level sample_ancestors 0 1 = Done b ∧
    (r = Ok tt ↔
       b = true ∧ levels_allowed 0 None (take 1 sample_ancestors) [QemuPowerDown]).
Proof.
  apply (osi_validation sample_target 0 1 sample_ancestors 1 (proj1 sample_ancestors_ok));
    [simpl; lia|reflexivity|rewrite sample_ancestors_length; lia].
Defined.

(** ** Inputs on which the code panics *)

(** [n] roots with one CPU each, with indices up to [max]. *)
Definition flat_dims (max n : nat) : PsciDims := {|
  CPU_DOMAIN_COUNT := n;
  NON_CPU_DOMAIN_COUNT := n;
  MAX_POWER_LEVEL := 1;
  NODE_INDEX_MAX := max;
|}.
Definition flat_topology (n : nat) : list nat := n :: replicate n 1.

(** The compile-time check that [NodeIndex] can hold the number of non-CPU
    domains is one short of what the construction needs: with 255 domains and
    [u8] indices it passes, and the increment past the last domain overflows.
    With one domain less, or with [u16] indices, the same construction returns. *)
Theorem tree_new_index_overflow :
  tree_new (H0 := flat_dims 255 255) (S := QemuPowerState) (EP := Z) (flat_topology 255) = Panic ∧
  (∃ t, tree_new (H0 := flat_dims 255 254) (S := QemuPowerState) (EP := Z)
          (flat_topology 254) = Done t) ∧
  ∃ t, tree_new (H0 := flat_dims 65535 255) (S := QemuPowerState) (EP := Z)
         (flat_topology 255) = Done t.
Proof.
  split; [vm_compute; reflexivity|]. split.
  - destruct (tree_new (flat_topology 254)) as [t|] eqn:Ht; [by exists t|].
    vm_compute in Ht. discriminate Ht.
  - destruct (tree_new (flat_topology 255)) as [t|] eqn:Ht; [by exists t|].
    vm_compute in Ht. discriminate Ht.
Qed.

Lemma valid_suspend_request_spec_witness :
  is_valid_suspend_request sample_target true = true ↔
  (∃ i s, states sample_target !! i = Some s ∧ power_state_type s ≠ Run) ∧
  antitone (states sample_target) ∧
  (∀ last, last_at_power_level sample_target = Some last → last ≤ 2) ∧
  (true = true ↔ ∃ i s, states sample_target !! i = Some s ∧ power_state_type s = PowerDown).
Proof. exact (valid_suspend_request_spec sample_target true). Defined.
