(* ===== verification/PlatformProps.v ===== *)
(** * The properties of the QEMU and FVP platforms

    Both implement the interface the PSCI service relies on, with a topology
    from which the power domain tree is built and a numbering of the cores that
    is one to one; the holding pen of QEMU; and system suspend on the FVP. *)

From Stdlib Require Import ZArith Lia.
From stdpp Require Import base list numbers option vector fin functions relations.
From S2P Require Import Prelude PowerState Smccc PowerTree Composite TreeInv Coordination Psci PsciInv PsciSystem PsciCalls Platforms PlatformLaws Sample.
Open Scope Z_scope.

(** A sample FVP, whose power controller knows of every core whether it is on or,
    once it was told to power off, how many reads of its status still say on. *)
Abbreviation FvpCores := (Z → option nat).
Definition sample_status (m : Z) : M FvpCores SystemStatus := λ w,
  match w m with
  | None => Ret (mkSystemStatus true false false) w
  | Some 0%nat => Ret (mkSystemStatus false false false) w
  | Some (S n) => Ret (mkSystemStatus true false false) (<[m := Some n]> w)
  end.

Definition sample_fvp_hw : FvpHw FvpCores := {|
  f_read_mpidr_el1 _ := 0x81000000;
  f_mpidr_try_into_u32 := λ m : @Mpidr sample_types, Ok (as_u32 m);
  f_entry_point_address := λ e : @EntryPoint sample_types, e;
  f_DRAM0 := (0x80000000, 0xfeffffff);
  f_DRAM1 := (0x880000000, 0x8ffffffff);
  f_hw_on := true : @HwState sample_types;
  f_hw_off := false : @HwState sample_types;
  f_enable_wakeup_requests _ := mret tt;
  f_disable_wakeup_requests _ := mret tt;
  f_power_on_processor m := modify (λ w, <[m := None]> w);
  f_power_off_processor m := modify (λ w, <[m := Some 3%nat]> w);
  f_power_off_cluster _ := mret tt;
  f_system_status := sample_status;
  f_gic_cpu_interface_disable := mret tt;
  f_gic_cpu_interface_enable := mret tt;
  f_gic_redistributor_off := mret tt;
  f_gic_redistributor_init := mret tt;
  f_save_system_power_domain := mret tt;
  f_restore_system_power_domain := mret tt;
  f_write_cntfrq := mret tt;
  f_dsb_ish_wfi := mret tt;
  f_system_shutdown := halt;
  f_system_reboot := halt;
  f_has_pending_interrupts := mret false;
|}.

Lemma sample_fvp_hw_ok : fvp_hw_ok sample_fvp_hw.
Proof.
  split; intros; try apply returns_ret; try (eexists; reflexivity); try reflexivity; intros w;
    try (eexists _, _; reflexivity).
  simpl. unfold sample_status. repeat case_match; eauto.
Qed.

Definition sample_going_off (m : Z) (w : FvpCores) : Prop := ∃ n, w m = Some n ∧ (n < 4)%nat.
Definition sample_rank (m : Z) (w : FvpCores) : nat := default 0%nat (w m).

Lemma sample_fvp_power_ok : fvp_power_ok sample_fvp_hw 4 sample_going_off sample_rank.
Proof.
  split.
  - intros m w u w' [= _ <-]. exists 3%nat. split; [apply fn_lookup_insert|lia].
  - by intros m w u w' Hg [= _ <-].
  - intros m w (n & Hn & Hlt). unfold sample_rank. by rewrite Hn.
  - intros m w s w' (n & Hn & Hlt) Hs. simpl in Hs. unfold sample_status in Hs. rewrite Hn in Hs.
    unfold sample_rank, sample_going_off. destruct n as [|n]; injection Hs as <- <-; simpl.
    + split; [eauto|done].
    + rewrite fn_lookup_insert, Hn. split; [exists n; split; [done|lia]|simpl; lia].
Qed.

(** A request that names no last level is refused in OS-initiated mode. *)
Lemma osi_without_last_level `{ArmPsciTypes} {S W V : Type} `{!PlatformPowerStateInterface S}
    `{!PsciDims} (platform : PsciPlatform S W V) c h comp cpu (anc : AncestorPowerDomains S)
    (st : PsciState S EntryPoint W V) :
  has_feature platform OS_INITIATED_MODE = true → suspend_mode st = OsInitiated →
  last_at_power_level comp = None → (h < length (states comp))%nat →
  suspend_coordinate platform c h comp cpu anc st = Ret (Err InvalidParameters) st.
Proof.
  intros Hf Hm Hl Hh. unfold suspend_coordinate, is_in_osi_mode.
  rewrite Hf. cbv [mbind M_bind mret M_ret get negb lift]. rewrite Hm, bool_decide_true by done.
  destruct (lookup_lt_is_Some_2 (states comp) h Hh) as [s Hs].
  unfold create_highest_affected_level_resolved_state. apply arr_get_Done in Hs. rewrite Hs.
  cbn. unfold validate_state_coordination. cbn. by rewrite Hl.
Qed.

Section Qemu.
Context `{ArmPsciTypes} `{!MpidrOps} `{!MpidrLaws}.
Local Existing Instance qemu_dims.

(** The QEMU platform keeps every promise the PSCI service relies on: its
    callbacks return (or, for power down and system off, do not come back)
    whenever the service calls them, the power states it parses are valid
    suspend requests, and its core positions are in range. *)
Theorem qemu_implements_platform {Hw} (hw : QemuHw Hw) me into_u32 (env : PsciEnv (QemuWorld Hw))
    {V} (spm : PsciSpmInterface V) :
  qemu_hw_ok hw → env_ok env → (me < QEMU_CORE_COUNT)%nat →
  PsciPlatformLaws (qemu_psci hw me into_u32 env spm) ∧
  PsciOptionalLaws (qemu_psci hw me into_u32 env spm).
Proof. intros Hhw Henv Hme. split; [by apply qemu_platform_laws|by apply qemu_optional_laws]. Qed.
End Qemu.

Section Fvp.
Context `{ArmPsciTypes} `{!MpidrOps} `{!MpidrLaws}.
Local Existing Instance fvp_dims.

(** C38: the FVP platform keeps every promise the PSCI service relies on, whatever
    the SPM.  A core that turns itself off is going off when its callback returns,
    and [power_domain_on] of a core that is going off returns: the loop that waits
    for the power controller ends, after which the core is turned on.  The power
    controller is assumed to complete a power off that it was asked for. *)
Theorem fvp_implements_platform {W} (hw : FvpHw W) (env : PsciEnv W) {V} (spm : PsciSpmInterface V) polls
    going_off rank :
  fvp_hw_ok hw → env_ok env → fvp_power_ok hw polls going_off rank →
  PsciPlatformLaws (fvp_psci hw env spm polls) ∧ PsciOptionalLaws (fvp_psci hw env spm polls) ∧
  (∀ c w, cpu_level_is c FvpOff →
     ∃ w', power_domain_off (fvp_psci hw env spm polls) c w = Ret tt w' ∧
       going_off (as_u32 (f_read_mpidr_el1 hw w)) w') ∧
  (∀ m raw w, f_mpidr_try_into_u32 hw m = Ok raw → going_off raw w →
     ∃ w1 w2, wait_power_off hw polls raw w = Ret tt w1 ∧ f_power_on_processor hw raw w1 = Ret tt w2 ∧
       power_domain_on (fvp_psci hw env spm polls) m w = Ret (Ok tt) w2).
Proof.
  intros Hhw Henv Hpo. split; [by apply fvp_platform_laws|]. split; [by apply fvp_optional_laws|].
  split; [intros c w; by eapply fvp_off_going_off|]. intros m raw w Hm Hg. by eapply fvp_on_returns.
Qed.

(** On the FVP a SYSTEM_SUSPEND in OS-initiated mode, with nobody else running, never
    succeeds: the
    state the platform supplies does not say at which level the core is the
    last, so the request is always refused. *)
Theorem fvp_system_suspend_osi {W} (hw : FvpHw W) (env : PsciEnv W) {V} (spm : PsciSpmInterface V) polls
    (cores : OtherCores (PsciState FvpPowerState EntryPoint W V)) me entry st ph :
  fvp_hw_ok hw → env_ok env → (∀ st, lock_wait cores st = Ret tt st) → (∀ w, f_has_pending_interrupts hw w = Ret false w) →
  (me < FVP_CORE_COUNT)%nat → tree_ok (power_domain_tree st) ph → ph me = PhRunning →
  suspend_mode st = OsInitiated →
  wp (system_suspend (fvp_psci hw env spm polls) cores me entry) (λ r st',
    (∃ e, r = Err e) ∧ power_domain_tree st' = power_domain_tree st) (λ _, False) st.
Proof.
  intros Hhw Henv Hlw Hpend Hme Hok Hph Hosi.
  pose proof (fvp_platform_laws hw env spm polls Hhw Henv) as Hlaws.
  unfold system_suspend. change (has_feature (fvp_psci hw env spm polls) SYSTEM_SUSPEND) with true.
  cbn [negb]. apply wp_bind, wp_cpu_index; [change (me ≤ 255)%nat; unfold FVP_CORE_COUNT in Hme; simpl in Hme; lia|].
  apply wp_bind, wp_get.
  destruct (is_last_cpu_spec (power_domain_tree st) me) as (b & Hb & _).
  { intros cpu Hc. rewrite (phase_affinity _ _ _ _ Hok Hc). by rewrite Hph. }
  apply wp_bind. eapply wp_lift; [done|]. destruct b; [|apply wp_ret; eauto]. cbn [negb].
  apply wp_bind, wp_plat; [eauto with rfa|]. intros valid st1 [Ht1 Hm1].
  destruct valid; [|apply wp_ret; eauto]. cbn [negb].
  apply wp_bind, wp_ret. cbv beta.
  destruct (tree_ok_open st1 ph me) as (cpu & full & Hcpu & _ & _ & Hl & _ & _ & Hlock);
    [by rewrite Ht1|done|].
  apply wp_bind; eapply wp_lift; [reflexivity|]. apply wp_bind; eapply wp_lift; [reflexivity|].
  apply wp_bind; eapply wp_lift; [reflexivity|]. apply wp_try.
  apply wp_bind, (wp_lock_cpu me cpu); [done|]. apply wp_bind, wp_is_in_osi_mode.
  intros osi _ _ _. apply wp_bind. unfold wp at 1. rewrite Hlw.
  apply wp_bind. eapply wp_with_ancestors; [apply Hlock|].
  apply wp_bind. unfold wp at 1, plat. simpl has_pending_interrupts. rewrite Hpend. cbv beta iota.
  apply wp_bind. unfold wp at 1. rewrite osi_without_last_level;
    [|reflexivity|simpl; congruence|reflexivity|change (2 < 3)%nat; lia].
  apply wp_ret, wp_bind, wp_drop_cpu, wp_ret. simpl. split; [eauto|].
  rewrite put_same; [done..|by apply locked_take].
Qed.
End Fvp.

(** ** Cores *)
Section Cores.
Context `{ArmPsciTypes} `{!MpidrOps} `{!MpidrLaws}.

(** The assembly of [core_position] numbers the cores of QEMU as the tree
    expects: for a valid MPIDR it is below the number of cores, and two valid
    MPIDRs with the same position have the same affinities. *)
Theorem qemu_core_position_unique v w :
  qemu_mpidr_is_valid v = true → qemu_mpidr_is_valid w = true →
  0 ≤ qemu_core_position v < Z.of_nat QEMU_CORE_COUNT ∧
  (qemu_core_position v = qemu_core_position w → aff0 v = aff0 w ∧ aff1 v = aff1 w).
Proof.
  intros Hv Hw. split; [by apply qemu_position_range|]. rewrite !qemu_core_position_spec.
  pose proof (aff0_range v). pose proof (aff1_range v). pose proof (aff0_range w).
  pose proof (aff1_range w). unfold qemu_mpidr_is_valid in Hv, Hw.
  rewrite !andb_true_iff, !Z.ltb_lt in Hv, Hw.
  change (Z.of_nat QEMU_CLUSTER_COUNT) with 1 in *. change (Z.of_nat MAX_CPUS_PER_CLUSTER) with 4 in *. lia.
Qed.

(** C39: likewise on the FVP: the core position of a valid MPIDR is in range, and two
    valid MPIDRs of the same system, which agree on the MT bit, have the same
    position only if they have the same affinities. *)
Theorem fvp_core_position_unique v w :
  fvp_mpidr_is_valid v = true → fvp_mpidr_is_valid w = true → contains_MT v = contains_MT w →
  0 ≤ fvp_core_position v < Z.of_nat FVP_CORE_COUNT ∧
  (fvp_core_position v = fvp_core_position w →
     aff0 v = aff0 w ∧ aff1 v = aff1 w ∧ aff2 v = aff2 w).
Proof.
  intros Hv Hw Hmt. split; [by apply fvp_position_range|]. rewrite !fvp_core_position_spec.
  pose proof (aff0_range v). pose proof (aff1_range v). pose proof (aff2_range v).
  pose proof (aff0_range w). pose proof (aff1_range w). pose proof (aff2_range w).
  unfold fvp_mpidr_is_valid in Hv, Hw. rewrite <-Hmt in Hw |- *.
  change (Z.of_nat FVP_CLUSTER_COUNT) with 2 in *.
  change (Z.of_nat FVP_MAX_CPUS_PER_CLUSTER) with 4 in *.
  change (Z.of_nat FVP_MAX_PE_PER_CPU) with 1 in *.
  destruct (contains_MT v); rewrite !andb_true_iff, !Z.ltb_lt, ?Z.eqb_eq in Hv, Hw; lia.
Qed.
End Cores.

(** The power domain tree of each platform is built from its topology
    without a panic, with the number of nodes the platform declares. *)
Theorem platform_trees_built :
  (∃ t, tree_new (H0 := qemu_dims) (S := QemuPowerState) (EP := Z) qemu_topology = Done t ∧
     length (cpu_power_nodes t) = QEMU_CORE_COUNT ∧ length (non_cpu_power_nodes t) = 2%nat) ∧
  (∃ t, tree_new (H0 := fvp_dims) (S := FvpPowerState) (EP := Z) fvp_topology = Done t ∧
     length (cpu_power_nodes t) = FVP_CORE_COUNT ∧ length (non_cpu_power_nodes t) = 3%nat).
Proof. split; eexists; split; [vm_compute; reflexivity| |vm_compute; reflexivity|]; done. Qed.

(** The holding pen hands an entry point over exactly once.  After the pen
    is initialised, a core that polls keeps waiting; when it is signalled, its
    next poll branches to the entry point and the one after that waits again;
    the slots of the other cores are untouched. *)
Theorem hold_pen_hands_over slots c entry :
  (c < QEMU_CORE_COUNT)%nat → entry ≠ HOLD_STATE_WAIT →
  ∃ s0 s1 slot slot',
    plat_hold_pen_init slots = Done s0 ∧ plat_hold_pen_signal s0 c entry = Done s1 ∧
    vec_get s1 c = Done slot ∧ hold_pen_poll slot = (slot', Some entry) ∧
    hold_pen_poll slot' = (slot', None) ∧
    ∀ d, (d < QEMU_CORE_COUNT)%nat → d ≠ c →
      ∃ other, vec_get s1 d = Done other ∧ hold_pen_poll other = (other, None).
Proof.
  intros Hc He. destruct (hold_pen_init_idle slots) as (s0 & Hinit & Hidle).
  pose proof (Hidle c Hc) as Hslot.
  destruct (vec_set_Done s0 c (mkHoldSlot entry HOLD_MAGIC1 HOLD_MAGIC2) Hc) as [s1 Hs1].
  exists s0, s1, (mkHoldSlot entry HOLD_MAGIC1 HOLD_MAGIC2),
    (mkHoldSlot HOLD_STATE_WAIT HOLD_MAGIC1 HOLD_MAGIC2). split; [done|].
  split; [unfold plat_hold_pen_signal; by rewrite Hslot|]. split; [by eapply vec_get_set|].
  split; [unfold hold_pen_poll; simpl; by rewrite (proj2 (Z.eqb_neq _ _) He)|]. split; [done|].
  intros d Hd Hne. exists (mkHoldSlot HOLD_STATE_WAIT HOLD_MAGIC1 HOLD_MAGIC2).
  split; [|reflexivity]. rewrite (vec_get_set_ne s0 s1 c d _ (not_eq_sym Hne) Hs1). by apply Hidle.
Qed.

(** ** Instances *)
Lemma qemu_implements_platform_witness :
  PsciPlatformLaws (sample_qemu 3) ∧ PsciOptionalLaws (sample_qemu 3).
Proof.
  apply (qemu_implements_platform sample_qemu_hw 3 sample_into_u32 (sample_env _) sample_spm
    sample_qemu_hw_ok (sample_env_ok _)). change (3 < 4)%nat. lia.
Defined.

Section FvpSample.
Local Existing Instance fvp_dims.

Abbreviation sample_fvp := (fvp_psci sample_fvp_hw (sample_env _) sample_spm 4).
Lemma fvp_implements_platform_witness :
  PsciPlatformLaws sample_fvp ∧ PsciOptionalLaws sample_fvp ∧
  (∀ c w, cpu_level_is c FvpOff →
     ∃ w', power_domain_off sample_fvp c w = Ret tt w' ∧
       sample_going_off (as_u32 (f_read_mpidr_el1 sample_fvp_hw w)) w') ∧
  (∀ m raw w, f_mpidr_try_into_u32 sample_fvp_hw m = Ok raw → sample_going_off raw w →
     ∃ w1 w2, wait_power_off sample_fvp_hw 4 raw w = Ret tt w1 ∧
       f_power_on_processor sample_fvp_hw raw w1 = Ret tt w2 ∧
       power_domain_on sample_fvp m w = Ret (Ok tt) w2).
Proof.
  exact (fvp_implements_platform sample_fvp_hw (sample_env _) sample_spm 4 sample_going_off sample_rank
    sample_fvp_hw_ok (sample_env_ok _) sample_fvp_power_ok).
Defined.

(** The FVP after the cold boot of core 0, in OS-initiated mode. *)
Abbreviation FSt := (PsciState FvpPowerState (@EntryPoint sample_types) FvpCores bool).
Definition sample_fvp_cores : FvpCores := λ m, if m =? 0x81000000 then None else Some 0%nat.
Definition sample_fvp_boot : outcome FSt := psci_new sample_fvp 0 sample_fvp_cores true.
Definition sample_fvp_tree : PowerDomainTree FvpPowerState (@EntryPoint sample_types) :=
  match sample_fvp_boot with Done st => power_domain_tree st | Panic => mkTree [] [] end.
Definition sample_fvp_osi : FSt := mkPsci sample_fvp_tree OsInitiated sample_fvp_cores true.

Lemma sample_fvp_tree_ok : tree_ok sample_fvp_tree (initial_phases 0).
Proof.
  pose proof (fvp_platform_laws sample_fvp_hw (sample_env _) sample_spm 4 sample_fvp_hw_ok (sample_env_ok _))
    as Hlaws.
  assert (sample_fvp_boot = Done (mkPsci sample_fvp_tree PlatformCoordinated sample_fvp_cores true)) as Heq
    by (vm_compute; reflexivity).
  refine (proj1 (psci_new_tree_ok _ 0 _ _ _ Heq _)). change (0 < 8)%nat. lia.
Qed.

Lemma fvp_system_suspend_osi_witness :
  wp (system_suspend sample_fvp (mkOtherCores halt (mret tt)) 0 sample_entry)
    (λ r st', (∃ e, r = Err e) ∧ power_domain_tree st' = sample_fvp_tree)
    (λ _, False) sample_fvp_osi.
Proof.
  refine (fvp_system_suspend_osi sample_fvp_hw (sample_env _) sample_spm 4 (mkOtherCores halt (mret tt)) 0
    sample_entry sample_fvp_osi (initial_phases 0) sample_fvp_hw_ok (sample_env_ok _) _ _ _
    sample_fvp_tree_ok eq_refl eq_refl); [reflexivity|reflexivity|change (0 < 8)%nat; lia].
Defined.

End FvpSample.

Lemma qemu_core_position_unique_witness :
  0 ≤ qemu_core_position 3 < 4 ∧
  (qemu_core_position 3 = qemu_core_position 2 → aff0 3 = aff0 2 ∧ aff1 3 = aff1 2).
Proof. exact (qemu_core_position_unique 3 2 eq_refl eq_refl). Defined.

Lemma fvp_core_position_unique_witness :
  0 ≤ fvp_core_position 0x1010300 < 8 ∧
  (fvp_core_position 0x1010300 = fvp_core_position 0x1000200 →
     aff0 0x1010300 = aff0 0x1000200 ∧ aff1 0x1010300 = aff1 0x1000200 ∧
     aff2 0x1010300 = aff2 0x1000200).
Proof. exact (fvp_core_position_unique 0x1010300 0x1000200 eq_refl eq_refl eq_refl). Defined.

Lemma hold_pen_hands_over_witness :
  ∃ s0 s1 slot slot',
    plat_hold_pen_init (hold_slots sample_qemu_world) = Done s0 ∧
    plat_hold_pen_signal s0 2 0x60000000 = Done s1 ∧
    vec_get s1 2 = Done slot ∧ hold_pen_poll slot = (slot', Some 0x60000000) ∧
    hold_pen_poll slot' = (slot', None) ∧
    ∀ d, (d < QEMU_CORE_COUNT)%nat → d ≠ 2%nat →
      ∃ other, vec_get s1 d = Done other ∧ hold_pen_poll other = (other, None).
Proof. apply (hold_pen_hands_over _ 2 0x60000000); [change (2 < 4)%nat; lia|done]. Defined.
