(* ===== verification/Trng.v ===== *)
(** * The TRNG service

    [src/services/trng.rs]: the entropy pool, a ring buffer of bits that is
    filled a word at a time from the platform's source and read in pieces of
    any size, and the SMC handlers on top of it.  The platform's source is a
    parameter. *)

From Stdlib Require Import ZArith Lia.
From stdpp Require Import base list numbers option.
From S2P Require Import Prelude Smccc.
Open Scope rust_scope.
Open Scope Z_scope.

Definition ARM_TRNG_VERSION : Z := 0x84000050.
Definition ARM_TRNG_FEATURES : Z := 0x84000051.
Definition ARM_TRNG_GET_UUID : Z := 0x84000052.
Definition ARM_TRNG_RND32 : Z := 0x84000053.
Definition ARM_TRNG_RND64 : Z := 0xC4000053.
Definition TRNG_FN_NUM_MIN : Z := 0x50.
Definition TRNG_FN_NUM_MAX : Z := 0x53.
Definition TRNG_VERSION_MAJOR : Z := 1.
Definition TRNG_VERSION_MINOR : Z := 0.
Definition TRNG_VERSION : Z := Z.lor (Z.shiftl TRNG_VERSION_MAJOR 16) TRNG_VERSION_MINOR.

Inductive TrngError : Type := TrngNotSupported | TrngInvalidParams | TrngNoEntropy.
Definition trng_error_into_i32 (e : TrngError) : Z :=
  match e with TrngNotSupported => -1 | TrngInvalidParams => -2 | TrngNoEntropy => -3 end.
Definition set_from_trng_error (e : TrngError) (r : SmcReturn) : SmcReturn :=
  set_from_i32 (trng_error_into_i32 e) r.

Definition TRNG_RND32_ENTROPY_MAXBITS : nat := 96.
Definition TRNG_RND64_ENTROPY_MAXBITS : nat := 192.
Definition BITS_PER_WORD : nat := 64.

Definition words_in_pool (req_words : nat) : nat :=
  (TRNG_RND64_ENTROPY_MAXBITS / BITS_PER_WORD + req_words)%nat.
Definition bits_in_pool (words_in_pool : nat) : nat := (words_in_pool * BITS_PER_WORD)%nat.

Definition U64_MAX : Z := 2 ^ 64 - 1.
(** [a << n] and [a >> n] on [u64], for [n] below 64. *)
Definition u64_shl (a : Z) (n : nat) : Z := as_u64 (Z.shiftl a (Z.of_nat n)).
Definition u64_shr (a : Z) (n : nat) : Z := Z.shiftr a (Z.of_nat n).

Record EntropyPool := mkPool {
  entropy : list Z;
  entropy_bit_index : nat;
  entropy_bit_size : nat;
}.

Section Pool.
(** The platform: the state of its entropy source and [get_entropy]. *)
Context {Src : Type} (get_entropy : M Src (result (list Z) TrngError)).
Context (WORDS_IN_POOL : nat).
Local Abbreviation St := (EntropyPool * Src)%type.

Definition pool_new : EntropyPool := mkPool (replicate WORDS_IN_POOL 0) 0 0.

Definition source {A} (m : M Src A) : M St A := λ st,
  match m st.2 with
  | Ret a s => Ret a (st.1, s)
  | Halt s => Halt (st.1, s)
  | Crash => Crash
  end.
Definition get_pool : M St EntropyPool := st ← get; mret st.1.
Definition set_pool (p : EntropyPool) : M St unit := modify (λ st, (p, st.2)).

(** [for val in buf]. *)
Fixpoint store_words (buf : list Z) (free_word : nat) (p : EntropyPool) : outcome EntropyPool :=
  match buf with
  | [] => mret p
  | val :: buf =>
      e ← arr_set (entropy p) free_word val;
      store_words buf ((free_word + 1) mod WORDS_IN_POOL)
        (mkPool e (entropy_bit_index p) (entropy_bit_size p + BITS_PER_WORD))
  end.

(** The body of the loop of [fill_entropy]. *)
Definition fill_step (buf : list Z) (p : EntropyPool) : outcome EntropyPool :=
  let free_bit := (entropy_bit_size p + entropy_bit_index p)%nat in
  let free_word := ((free_bit / BITS_PER_WORD) mod WORDS_IN_POOL)%nat in
  p ← store_words buf free_word p;
  _ ← assert_ (bool_decide (entropy_bit_size p ≤ bits_in_pool WORDS_IN_POOL)%nat);
  mret p.

(** The core spins when the source keeps returning no words. *)
Fixpoint fill_entropy (fuel nbits : nat) : M St (result unit TrngError) :=
  match fuel with
  | O => halt
  | S fuel =>
      p ← get_pool;
      if decide (entropy_bit_size p < nbits)%nat then
        buf ←? source get_entropy;
        p ← lift (fill_step buf p);
        _ ← set_pool p;
        fill_entropy fuel nbits
      else mret (Ok tt)
  end.

(** One turn of the loop of [pack_entropy]: the words of the pool, the number
    of bits that remain to be discarded, and the word of the result. *)
Definition pack_step (bit_index idx : nat) (e : list Z) (bits_to_discard : nat) (word_i : Z)
    : outcome (list Z * nat * Z) :=
  let rshift := (bit_index mod BITS_PER_WORD)%nat in
  let lshift := (BITS_PER_WORD - rshift)%nat in
  let min_word := (bit_index / BITS_PER_WORD)%nat in
  let pool_idx0 := ((min_word + idx) mod WORDS_IN_POOL)%nat in
  x0 ← arr_get e pool_idx0;
  let word_i := Z.lor word_i (u64_shr x0 rshift) in
  '(e, bits_to_discard) ←
    (if decide (bits_to_discard < BITS_PER_WORD - rshift)%nat then
       e ← arr_set e pool_idx0
             (Z.land x0 (u64_shl U64_MAX ((bits_to_discard + rshift) mod BITS_PER_WORD)));
       mret (e, 0%nat)
     else
       e ← arr_set e pool_idx0 0;
       d ← checked_sub bits_to_discard (BITS_PER_WORD - rshift);
       mret (e, d));
  if decide (lshift ≠ BITS_PER_WORD) then
    let pool_idx1 := ((min_word + idx + 1) mod WORDS_IN_POOL)%nat in
    x1 ← arr_get e pool_idx1;
    let word_i := Z.lor word_i (u64_shl x1 lshift) in
    if decide (bits_to_discard < BITS_PER_WORD - lshift)%nat then
      e ← arr_set e pool_idx1 (Z.land x1 (u64_shl U64_MAX (bits_to_discard mod BITS_PER_WORD)));
      mret (e, 0%nat, word_i)
    else
      e ← arr_set e pool_idx1
            (Z.land x1 (u64_shl U64_MAX ((BITS_PER_WORD - lshift) mod BITS_PER_WORD)));
      d ← checked_sub bits_to_discard (BITS_PER_WORD - lshift);
      mret (e, d, word_i)
  else mret (e, bits_to_discard, word_i).

(** [for (idx, word_i) in out.iter_mut().enumerate().take(to_fill)]. *)
Fixpoint pack_loop (bit_index idx to_fill : nat) (e : list Z) (bits_to_discard : nat)
    (out : list Z) : outcome (list Z * list Z) :=
  match to_fill, out with
  | S to_fill, word_i :: out =>
      '(e, bits_to_discard, word_i) ← pack_step bit_index idx e bits_to_discard word_i;
      '(e, out) ← pack_loop bit_index (idx + 1) to_fill e bits_to_discard out;
      mret (e, word_i :: out)
  | _, _ => mret (e, out)
  end.

(** What follows the call of [fill_entropy]. *)
Definition pack (nbits : nat) (out : list Z) (p : EntropyPool) : outcome (EntropyPool * list Z) :=
  let out := (λ _, 0) <$> out in
  let to_fill := ((nbits + BITS_PER_WORD - 1) / BITS_PER_WORD)%nat in
  '(e, out) ← pack_loop (entropy_bit_index p) 0 to_fill (entropy p) nbits out;
  out ← (if decide (nbits mod BITS_PER_WORD ≠ 0)%nat then
           let mask := u64_shr U64_MAX (BITS_PER_WORD - nbits mod BITS_PER_WORD) in
           i ← checked_sub to_fill 1;
           x ← arr_get out i;
           arr_set out i (Z.land x mask)
         else mret out);
  size ← checked_sub (entropy_bit_size p) nbits;
  mret (mkPool e ((entropy_bit_index p + nbits) mod bits_in_pool WORDS_IN_POOL)%nat size, out).

Definition pack_entropy (nbits : nat) (out : list Z) : M St (result (list Z) TrngError) :=
  _ ←? fill_entropy (S nbits) nbits;
  p ← get_pool;
  '(p, out) ← lift (pack nbits out p);
  _ ← set_pool p;
  mret (Ok out).

(** ** The calls *)
Context (TRNG_UUID : list Z).

Definition trng_rnd32 (regs : SmcReturn) : M St SmcReturn :=
  x1 ← lift (arr_get (values regs) 1);
  let nbits := Z.to_nat x1 in
  if decide (nbits = 0%nat ∨ TRNG_RND32_ENTROPY_MAXBITS < nbits)%nat
  then mret (set_from_trng_error TrngInvalidParams regs)
  else
    r ← pack_entropy nbits [0; 0];
    match r with
    | Err e => mret (set_from_trng_error e regs)
    | Ok ent =>
        e0 ← lift (arr_get ent 0);
        e1 ← lift (arr_get ent 1);
        mret (set_args [SUCCESS; e1; Z.land (u64_shr e0 32) 0xffffffff; Z.land e0 0xffffffff] regs)
    end.

Definition trng_rnd64 (regs : SmcReturn) : M St SmcReturn :=
  x1 ← lift (arr_get (values regs) 1);
  let nbits := Z.to_nat x1 in
  if decide (nbits = 0%nat ∨ TRNG_RND64_ENTROPY_MAXBITS < nbits)%nat
  then mret (set_from_trng_error TrngInvalidParams regs)
  else
    r ← pack_entropy nbits [0; 0; 0];
    match r with
    | Err e => mret (set_from_trng_error e regs)
    | Ok ent =>
        e0 ← lift (arr_get ent 0);
        e1 ← lift (arr_get ent 1);
        e2 ← lift (arr_get ent 2);
        mret (set_args [SUCCESS; e2; e1; e0] regs)
    end.

Definition is_trng_fid (smc_fid : Z) : bool :=
  (smc_fid =? ARM_TRNG_VERSION) || (smc_fid =? ARM_TRNG_FEATURES) ||
  (smc_fid =? ARM_TRNG_GET_UUID) || (smc_fid =? ARM_TRNG_RND32) || (smc_fid =? ARM_TRNG_RND64).

Definition trng_handle_smc_common (regs : SmcReturn) : M St SmcReturn :=
  x0 ← lift (arr_get (values regs) 0);
  let function := clear_sve_hint (as_u32 x0) in
  if forallb (λ b, b =? 0) TRNG_UUID then mret (set_from_trng_error TrngNotSupported regs)
  else if function =? ARM_TRNG_VERSION then mret (set_from_u32 TRNG_VERSION regs)
  else if function =? ARM_TRNG_FEATURES then
    x1 ← lift (arr_get (values regs) 1);
    if is_trng_fid (as_u32 x1) then mret (set_from_i32 SUCCESS regs)
    else mret (set_from_trng_error TrngNotSupported regs)
  else if function =? ARM_TRNG_GET_UUID then mret (set_from_uuid TRNG_UUID regs)
  else if function =? ARM_TRNG_RND32 then trng_rnd32 regs
  else if function =? ARM_TRNG_RND64 then trng_rnd64 regs
  else mret (set_from_trng_error TrngNotSupported regs).

(** The [Service] implementation. *)
Definition trng_service : Service St :=
  let handle w regs := regs ← trng_handle_smc_common regs; mret (w, regs) in
  mkService (owns_range OEN_STANDARD_SECURE TRNG_FN_NUM_MIN TRNG_FN_NUM_MAX)
    (handle NonSecure) (handle Secure) (handle Realm).
End Pool.
