(* ===== verification/TrngProofs.v ===== *)
(** * The entropy pool is a queue of bits

    The ring buffer of [Trng.v] refines a queue: filling appends the bits of the
    words of the source, packing removes bits from the front.  What is handed
    out is erased from the pool. *)

From Stdlib Require Import ZArith Lia ZifyNat.
From stdpp Require Import base list numbers option.
From S2P Require Import Prelude Smccc Trng.
Open Scope rust_scope.
Open Scope nat_scope.

Ltac div_lia := Z.to_euclidean_division_equations; lia.

(** ** Bits of words *)
Definition bit (w : Z) (b : nat) : bool := Z.testbit w (Z.of_nat b).
Definition word_ok (w : Z) : Prop := (0 ≤ w < 2 ^ 64)%Z.

Lemma bit_high w b : word_ok w → 64 ≤ b → bit w b = false.
Proof.
  intros [Hw1 Hw2] Hb. unfold bit. destruct (decide (w = 0)%Z) as [->|Hne]; [apply Z.testbit_0_l|].
  apply Z.bits_above_log2; [done|]. apply Z.log2_lt_pow2; [lia|].
  apply (Z.lt_le_trans _ (2 ^ 64)%Z); [done|]. apply Z.pow_le_mono_r; lia.
Qed.

Lemma bit_0 b : bit 0 b = false.
Proof. apply Z.testbit_0_l. Qed.

Lemma bit_lor x y b : bit (Z.lor x y) b = bit x b || bit y b.
Proof. apply Z.lor_spec. Qed.

Lemma bit_land x y b : bit (Z.land x y) b = bit x b && bit y b.
Proof. apply Z.land_spec. Qed.

Lemma bit_shr x n b : bit (u64_shr x n) b = bit x (b + n).
Proof. unfold bit, u64_shr. rewrite Z.shiftr_spec by lia. f_equal. lia. Qed.

Lemma bit_as_u64 x b : bit (as_u64 x) b = bit x b && bool_decide (b < 64).
Proof.
  unfold bit, as_u64. rewrite <-Z.land_ones, Z.land_spec by lia. f_equal.
  case_bool_decide; [apply Z.ones_spec_low; lia|apply Z.ones_spec_high; lia].
Qed.

Lemma bit_shl x n b : bit (u64_shl x n) b = bool_decide (n ≤ b < 64) && bit x (b - n).
Proof.
  unfold u64_shl. rewrite bit_as_u64. unfold bit. case_bool_decide as Hb.
  - rewrite andb_true_r. destruct (decide (n ≤ b)).
    + rewrite Z.shiftl_spec, bool_decide_true by lia. simpl. f_equal. lia.
    + rewrite Z.shiftl_spec_low, bool_decide_false by lia. done.
  - rewrite andb_false_r, bool_decide_false by lia. done.
Qed.

Lemma bit_max b : bit U64_MAX b = bool_decide (b < 64).
Proof.
  unfold bit, U64_MAX. change (2 ^ 64 - 1)%Z with (Z.ones 64).
  case_bool_decide; [apply Z.ones_spec_low; lia|apply Z.ones_spec_high; lia].
Qed.

(** A mask that keeps the bits from [n] on. *)
Lemma bit_mask x n b : b < 64 → bit (Z.land x (u64_shl U64_MAX n)) b = bit x b && bool_decide (n ≤ b).
Proof.
  intros Hb. rewrite bit_land, bit_shl, bit_max. f_equal. rewrite (bool_decide_true (b - n < 64)) by lia.
  rewrite andb_true_r. apply bool_decide_ext. lia.
Qed.

Lemma word_ok_as_u64 x : word_ok (as_u64 x).
Proof. unfold word_ok, as_u64. apply Z.mod_pos_bound. lia. Qed.

Lemma word_ok_land x y : word_ok x → word_ok (Z.land x y).
Proof.
  intros Hx. replace (Z.land x y) with (as_u64 (Z.land x y)); [apply word_ok_as_u64|].
  unfold as_u64. rewrite <-Z.land_ones, (Z.land_comm x y), <-Z.land_assoc, Z.land_ones by lia.
  by rewrite Z.mod_small.
Qed.

Lemma word_ok_shr x n : word_ok x → word_ok (u64_shr x n).
Proof.
  intros [Hx1 Hx2]. unfold word_ok, u64_shr. rewrite Z.shiftr_div_pow2 by lia. split.
  - apply Z.div_pos; lia.
  - apply (Z.le_lt_trans _ x); [|done]. apply Z.div_le_upper_bound; [lia|].
    pose proof (Z.pow_pos_nonneg 2 (Z.of_nat n)). nia.
Qed.

Lemma word_ok_lor x y : word_ok x → word_ok y → word_ok (Z.lor x y).
Proof.
  intros [Hx1 Hx2] [Hy1 Hy2]. split; [by apply Z.lor_nonneg|].
  destruct (decide (Z.lor x y = 0)%Z) as [->|Hne]; [lia|]. apply Z.log2_lt_pow2.
  { pose proof (proj2 (Z.lor_nonneg x y)). lia. }
  rewrite Z.log2_lor by done. apply Z.max_lub_lt.
  - destruct (decide (x = 0)%Z) as [->|]; [done|]. apply Z.log2_lt_pow2; lia.
  - destruct (decide (y = 0)%Z) as [->|]; [done|]. apply Z.log2_lt_pow2; lia.
Qed.

Lemma word_ok_0 : word_ok 0.
Proof. done. Qed.

#[export] Hint Resolve word_ok_land word_ok_as_u64 word_ok_shr word_ok_lor word_ok_0 : rfa.

(** Two words with the same bits are equal. *)
Lemma bits_inj x y : (0 ≤ x)%Z → (0 ≤ y)%Z → (∀ b, bit x b = bit y b) → x = y.
Proof.
  intros Hx Hy Hb. apply Z.bits_inj'. intros n Hn. specialize (Hb (Z.to_nat n)).
  unfold bit in Hb. by rewrite Z2Nat.id in Hb.
Qed.

(** ** Bits of the ring *)

Lemma split_pos index j : (index + j) / 64 = index / 64 + (index mod 64 + j) / 64 ∧
  (index + j) mod 64 = (index mod 64 + j) mod 64.
Proof. split; div_lia. Qed.

Section Ring.
Context (W : nat) (HW : 0 < W).
Implicit Types e : list Z.

(** The bit at the position [k] of the ring. *)
Definition ring_bit e (k : nat) : bool :=
  match e !! (k / 64 mod W) with Some w => bit w (k mod 64) | None => false end.

Definition words_ok e : Prop := length e = W ∧ Forall word_ok e.

Lemma word_lookup e i : words_ok e → ∃ x, e !! (i mod W) = Some x ∧ word_ok x.
Proof.
  intros [Hl He]. destruct (lookup_lt_is_Some_2 e (i mod W)) as [x Hx].
  { rewrite Hl. apply Nat.mod_upper_bound. lia. }
  exists x. split; [done|]. by eapply Forall_lookup_1.
Qed.

Lemma words_ok_insert e i v : words_ok e → word_ok v → words_ok (<[i := v]> e).
Proof. intros [Hl He] Hv. split; [by rewrite length_insert|by apply Forall_insert]. Qed.

Lemma ring_bit_insert e i v k : words_ok e →
  ring_bit (<[i mod W := v]> e) k =
  if decide (k / 64 mod W = i mod W) then bit v (k mod 64) else ring_bit e k.
Proof.
  intros [Hl _]. unfold ring_bit. case_decide as Hk.
  - rewrite Hk, list_lookup_insert_eq; [done|]. rewrite Hl. apply Nat.mod_upper_bound. lia.
  - by rewrite list_lookup_insert_ne.
Qed.

Lemma ring_bit_wrap e k n : ring_bit e (k + n * (64 * W)) = ring_bit e k.
Proof.
  unfold ring_bit. replace (k + n * (64 * W)) with (k + n * W * 64) by lia.
  rewrite Nat.div_add, Nat.Div0.mod_add by lia. by rewrite Nat.Div0.mod_add.
Qed.

Lemma ring_bit_mod e k : ring_bit e (k mod (64 * W)) = ring_bit e k.
Proof.
  rewrite <-(ring_bit_wrap e _ (k / (64 * W))). f_equal.
  pose proof (Nat.div_mod_eq k (64 * W)). lia.
Qed.

(** The words of the ring are different. *)
Lemma ring_word m a b : a ≤ W → b < W → (m + a) mod W = (m + b) mod W →
  a = b ∨ (b = 0 ∧ a = W).
Proof.
  intros Ha Hb Heq. pose proof (Nat.div_mod_eq (m + a) W) as H1.
  pose proof (Nat.div_mod_eq (m + b) W) as H2. rewrite Heq in H1.
  assert (a = b ∨ a = b + W ∨ b = a + W) as [|[|]]; [|lia..].
  destruct (Nat.lt_trichotomy ((m + a) / W) ((m + b) / W)) as [|[|]]; nia.
Qed.

(** [e] is [e0] without the bits before [lo], counted from [index]. *)
Definition cleared (index : nat) e0 e (lo : nat) : Prop := ∀ j, j < 64 * W →
  ring_bit e (index + j) = ring_bit e0 (index + j) && bool_decide (lo ≤ j).

(** Clearing bits of the [q]-th word. *)
Lemma clear_word index e0 e q v lo hi :
  words_ok e → q < W → cleared index e0 e lo →
  (∀ j, j < 64 * W → (index mod 64 + j) / 64 = q →
     bit v ((index + j) mod 64) = ring_bit e0 (index + j) && bool_decide (hi ≤ j)) →
  (∀ j, q = 0 → j < 64 * W → (index mod 64 + j) / 64 = W →
     bit v ((index + j) mod 64) = ring_bit e0 (index + j) && bool_decide (hi ≤ j)) →
  (∀ j, j < 64 * W → (index mod 64 + j) / 64 ≠ q → (lo ≤ j ↔ hi ≤ j)) →
  cleared index e0 (<[(index / 64 + q) mod W := v]> e) hi.
Proof.
  intros He Hq Hlo Hv Htail Hrest j Hj. rewrite ring_bit_insert by done.
  destruct (split_pos index j) as [Hdiv _]. rewrite Hdiv.
  assert ((index mod 64 + j) / 64 ≤ W) as HjW by div_lia.
  case_decide as Hw.
  - apply ring_word in Hw as [Hw|[-> Hw]]; [by apply Hv|by apply Htail|done..].
  - rewrite (Hlo j Hj). f_equal. apply bool_decide_ext, Hrest; [done|].
    intros <-. done.
Qed.
End Ring.

(** ** Bits of a list of words *)

(** The bits of a list of words, the lowest bit of the first word first. *)
Definition words_bits (l : list Z) : list bool :=
  (λ k, default false ((λ w, bit w (k mod 64)) <$> l !! (k / 64))) <$> seq 0 (64 * length l).

Lemma words_bits_lookup l k w : l !! (k / 64) = Some w → words_bits l !! k = Some (bit w (k mod 64)).
Proof.
  intros Hw. pose proof (lookup_lt_Some _ _ _ Hw). unfold words_bits.
  rewrite list_lookup_fmap, lookup_seq_lt by div_lia.
  cbn [fmap option_fmap option_map]. by rewrite Nat.add_0_l, Hw.
Qed.

Lemma words_bits_length l : length (words_bits l) = 64 * length l.
Proof. unfold words_bits. by rewrite length_fmap, length_seq. Qed.

(** ** Packing *)
Section Pack.
Context (W : nat) (HW : 0 < W).
Implicit Types e : list Z.
Local Abbreviation ring_bit := (ring_bit W).
Local Abbreviation words_ok := (words_ok W).
Local Abbreviation cleared := (cleared W).

(** The bits before [index] in its word are clear. *)
Definition clean_below (index : nat) e : Prop := ∀ j,
  64 * W ≤ index mod 64 + j → j < 64 * W → ring_bit e (index + j) = false.

(** The two words a word of the result is made of. *)
Lemma bit_of_word index e e0 lo q x b :
  cleared index e0 e lo → q < W → e !! ((index / 64 + q) mod W) = Some x → b < 64 →
  index mod 64 ≤ 64 * q + b → 64 * q + b - index mod 64 < 64 * W →
  bit x b = ring_bit e0 (index + (64 * q + b - index mod 64)) &&
            bool_decide (lo ≤ 64 * q + b - index mod 64).
Proof.
  intros Hlo Hq Hx Hb Hge Hlt. rewrite <-(Hlo _ Hlt). unfold TrngProofs.ring_bit.
  destruct (split_pos index (64 * q + b - index mod 64)) as [-> ->].
  replace (index mod 64 + (64 * q + b - index mod 64)) with (64 * q + b) by lia.
  replace ((64 * q + b) / 64) with q by div_lia.
  replace ((64 * q + b) mod 64) with b by div_lia. by rewrite Hx.
Qed.

(** The first half of a turn: the word [q] is read from its bit [rshift] on. *)
Lemma pack_word_0 index e0 e q nbits d :
  words_ok e → q < W → clean_below index e0 → cleared index e0 e (Nat.min (64 * q) nbits) →
  d = nbits - 64 * q → 0 < d →
  let r := index mod 64 in
  let v x := if decide (d < 64 - r) then Z.land x (u64_shl U64_MAX ((d + r) mod 64)) else 0%Z in
  ∃ x, e !! ((index / 64 + q) mod W) = Some x ∧ word_ok x ∧
    (∀ b, b < 64 - r → bit x (b + r) = ring_bit e0 (index + (64 * q + b))) ∧
    words_ok (<[(index / 64 + q) mod W := v x]> e) ∧
    cleared index e0 (<[(index / 64 + q) mod W := v x]> e) (Nat.min (64 * q + (64 - r)) nbits).
Proof.
  intros He Hq Hclean Hcl -> Hd r v. destruct (word_lookup W HW e (index / 64 + q) He) as (x & Hx & Hxo).
  assert (r < 64) as Hr by (unfold r; div_lia).
  exists x. split; [done|]. split; [done|]. split.
  { intros b Hb. rewrite (bit_of_word index e e0 _ q x (b + r) Hcl Hq Hx) by (unfold r in *; lia).
    rewrite bool_decide_true by (unfold r; lia). rewrite andb_true_r. f_equal. unfold r. lia. }
  split. { apply words_ok_insert; [done|]. unfold v. case_decide; auto with rfa. }
  assert (∀ j, ring_bit e (index + j) = false → (index mod 64 + j) / 64 mod W = q mod W →
    bit (v x) ((index + j) mod 64) = false) as Hfalse.
  { intros j Hj Hw. unfold v. case_decide; [|apply bit_0]. rewrite bit_land.
    destruct (split_pos index j) as [Hdiv Hmod]. unfold TrngProofs.ring_bit in Hj. rewrite Hdiv in Hj.
    rewrite Nat.Div0.add_mod, Hw, <-Nat.Div0.add_mod, Hx in Hj. by rewrite Hj. }
  eapply clear_word; [done..| | |].
  - intros j Hj Hjq. destruct (split_pos index j) as [Hdiv Hmod].
    assert ((index + j) mod 64 = r + j - 64 * q) as Hb by (rewrite Hmod; unfold r; div_lia).
    assert (ring_bit e (index + j) = bit x ((index + j) mod 64)) as Hrb.
    { unfold TrngProofs.ring_bit. rewrite Hdiv, Hjq, Hx. done. }
    unfold v. case_decide as Hdr.
    + rewrite bit_mask by div_lia. rewrite <-Hrb, (Hcl j Hj), <-andb_assoc. f_equal.
      rewrite Nat.mod_small by lia. rewrite Hb, <-bool_decide_and. apply bool_decide_ext.
      unfold r in *. div_lia.
    + rewrite bit_0, bool_decide_false; [by rewrite andb_false_r|]. unfold r in *. div_lia.
  - intros j -> Hj HjW. rewrite (Hclean j) by div_lia. simpl. apply Hfalse.
    + rewrite (Hcl j Hj), (Hclean j) by div_lia. done.
    + rewrite HjW. rewrite Nat.Div0.mod_same, Nat.mod_small by lia. done.
  - intros j Hj Hjq. unfold r in *. div_lia.
Qed.

(** The second half: the word [q + 1] is read below its bit [rshift]. *)
Lemma pack_word_1 index e0 e q nbits d :
  words_ok e → q + 1 < W → index mod 64 ≠ 0 →
  cleared index e0 e (Nat.min (64 * q + (64 - index mod 64)) nbits) →
  d = nbits - (64 * q + (64 - index mod 64)) →
  let r := index mod 64 in
  let v x := Z.land x (u64_shl U64_MAX (if decide (d < r) then d else r)) in
  ∃ x, e !! ((index / 64 + (q + 1)) mod W) = Some x ∧ word_ok x ∧
    (∀ b, b < r → bit x b =
       ring_bit e0 (index + (64 * q + (64 - r) + b)) &&
       bool_decide (Nat.min (64 * q + (64 - r)) nbits ≤ 64 * q + (64 - r) + b)) ∧
    words_ok (<[(index / 64 + (q + 1)) mod W := v x]> e) ∧
    cleared index e0 (<[(index / 64 + (q + 1)) mod W := v x]> e) (Nat.min (64 * q + 64) nbits).
Proof.
  intros He Hq Hr0 Hcl -> r v.
  destruct (word_lookup W HW e (index / 64 + (q + 1)) He) as (x & Hx & Hxo).
  assert (r < 64) as Hr by (unfold r; div_lia).
  exists x. split; [done|]. split; [done|]. split.
  { intros b Hb. rewrite (bit_of_word index e e0 _ (q + 1) x b Hcl Hq Hx) by (unfold r in *; lia).
    f_equal; [f_equal; unfold r in *; lia|]. apply bool_decide_ext. unfold r in *. lia. }
  split; [apply words_ok_insert; [done|]; unfold v; auto with rfa|].
  eapply clear_word; [done..| |lia|].
  - intros j Hj Hjq. destruct (split_pos index j) as [Hdiv Hmod].
    assert ((index + j) mod 64 = r + j - 64 * (q + 1)) as Hb by (rewrite Hmod; unfold r; div_lia).
    assert (ring_bit e (index + j) = bit x ((index + j) mod 64)) as Hrb.
    { unfold TrngProofs.ring_bit. rewrite Hdiv, Hjq, Hx. done. }
    unfold v. rewrite bit_mask by div_lia. rewrite <-Hrb, (Hcl j Hj), <-andb_assoc. f_equal.
    rewrite Hb, <-bool_decide_and. apply bool_decide_ext. unfold r in *. case_decide; div_lia.
  - intros j Hj Hjq. unfold r in *. div_lia.
Qed.

Lemma set_word_Done e i v : words_ok e → arr_set e (i mod W) v = Done (<[i mod W := v]> e).
Proof.
  intros [Hl _]. unfold arr_set. rewrite decide_True; [done|]. rewrite Hl.
  apply Nat.mod_upper_bound. lia.
Qed.

(** One turn of the loop: the word of the result has the next 64 bits of the
    queue, and those that are consumed are cleared. *)
Lemma pack_step_spec index e0 e q nbits :
  words_ok e → q + 1 < W → clean_below index e0 →
  cleared index e0 e (Nat.min (64 * q) nbits) → 64 * q < nbits →
  ∃ e' w, pack_step W index q e (nbits - 64 * q) 0 = Done (e', nbits - 64 * (q + 1), w) ∧
    words_ok e' ∧ cleared index e0 e' (Nat.min (64 * (q + 1)) nbits) ∧ word_ok w ∧
    ∀ b, b < 64 → 64 * q + b < nbits → bit w b = ring_bit e0 (index + (64 * q + b)).
Proof.
  intros He Hq Hclean Hcl Hn. assert (index mod 64 < 64) as Hr by div_lia.
  destruct (pack_word_0 index e0 e q nbits _ He ltac:(lia) Hclean Hcl eq_refl ltac:(lia))
    as (x & Hx & Hxo & Hxb & He1 & Hcl1).
  set (e1 := <[_ := _]> e) in He1, Hcl1.
  unfold pack_step, BITS_PER_WORD. cbv zeta. rewrite (proj2 (arr_get_Done _ _ _) Hx).
  cbn [mbind outcome_bind]. rewrite Z.lor_0_l, !set_word_Done by done.
  assert ((if decide (nbits - 64 * q < 64 - index mod 64)
           then e' ← Done (<[(index / 64 + q) mod W := Z.land x (u64_shl U64_MAX
                  ((nbits - 64 * q + index mod 64) mod 64))]> e); mret (e', 0)
           else e' ← Done (<[(index / 64 + q) mod W := 0%Z]> e);
                d ← checked_sub (nbits - 64 * q) (64 - index mod 64); mret (e', d)) =
          Done (e1, nbits - (64 * q + (64 - index mod 64)))) as Hif.
  { unfold e1. case_decide; cbn [mbind outcome_bind mret outcome_ret]; [do 2 f_equal; lia|].
    unfold checked_sub. rewrite decide_True by lia. cbn [mbind outcome_bind mret outcome_ret].
    do 2 f_equal. lia. }
  rewrite Hif. cbn [mbind outcome_bind]. clear Hif. destruct (decide (index mod 64 = 0)) as [Hz|Hnz].
  - rewrite decide_False by lia. exists e1, (u64_shr x (index mod 64)).
    rewrite Hz in *. split; [f_equal; f_equal; f_equal; lia|]. split; [done|].
    split; [replace (64 * (q + 1)) with (64 * q + (64 - 0)) by lia; done|].
    split; [auto with rfa|]. intros b Hb Hbn. rewrite bit_shr. by apply Hxb; lia.
  - rewrite decide_True by lia.
    destruct (pack_word_1 index e0 e1 q nbits _ He1 Hq Hnz Hcl1 eq_refl)
      as (y & Hy & Hyo & Hyb & He2 & Hcl2).
    rewrite <-Nat.add_assoc, (proj2 (arr_get_Done _ _ _) Hy). cbn [mbind outcome_bind].
    rewrite !set_word_Done by done.
    set (e2 := <[_ := _]> e1) in He2, Hcl2.
    exists e2, (Z.lor (u64_shr x (index mod 64)) (u64_shl y (64 - index mod 64))).
    split.
    { unfold e2. replace (64 - (64 - index mod 64)) with (index mod 64) by lia.
      unfold checked_sub. repeat case_decide; try lia; cbn [mbind outcome_bind mret outcome_ret];
        [rewrite (Nat.mod_small (nbits - _)) by lia|rewrite Nat.Div0.mod_mod]; do 3 f_equal; lia. }
    split; [done|]. split; [by replace (64 * (q + 1)) with (64 * q + 64) by lia|].
    split; [unfold u64_shl; auto with rfa|]. intros b Hb Hbn.
    rewrite bit_lor, bit_shr, bit_shl. destruct (decide (b < 64 - index mod 64)) as [Hlt|Hge].
    + rewrite Hxb by done. rewrite bool_decide_false by lia. by rewrite orb_false_r.
    + rewrite bit_high by (auto; lia). rewrite bool_decide_true, orb_false_l, andb_true_l by lia.
      rewrite Hyb by lia.
      rewrite bool_decide_true by lia. rewrite andb_true_r. f_equal. lia.
Qed.

Lemma pack_loop_spec index e0 nbits to_fill q e out :
  clean_below index e0 → words_ok e → cleared index e0 e (Nat.min (64 * q) nbits) →
  Forall (eq 0%Z) out → to_fill ≤ length out → 64 * (q + to_fill) < nbits + 64 → q + to_fill < W →
  ∃ e' out', pack_loop W index q to_fill e (nbits - 64 * q) out = Done (e', out') ∧
    words_ok e' ∧ cleared index e0 e' (Nat.min (64 * (q + to_fill)) nbits) ∧
    length out' = length out ∧ Forall word_ok out' ∧
    (∀ i w b, i < to_fill → out' !! i = Some w → b < 64 → 64 * (q + i) + b < nbits →
       bit w b = ring_bit e0 (index + (64 * (q + i) + b))) ∧
    (∀ i, to_fill ≤ i → out' !! i = out !! i).
Proof.
  intros Hclean. revert q e out.
  induction to_fill as [|to_fill IH]; intros q e out He Hcl Hout Hlen Hn HqW.
  { exists e, out. simpl. rewrite Nat.add_0_r. do 4 (split; [done|]). split; [|split; [lia|done]].
    eapply Forall_impl; [|exact Hout]. intros ? <-. apply word_ok_0. }
  destruct out as [|z out]; [simpl in Hlen; lia|]. apply Forall_cons_iff in Hout as [<- Hout].
  simpl in Hlen. destruct (pack_step_spec index e0 e q nbits He ltac:(lia) Hclean Hcl ltac:(lia))
    as (e1 & w & Hstep & He1 & Hcl1 & Hw & Hwb).
  destruct (IH (q + 1) e1 out He1 Hcl1 Hout ltac:(lia) ltac:(lia) ltac:(lia))
    as (e' & out' & Hloop & He' & Hcl' & Hl' & Hok' & Hbits & Hrest).
  exists e', (w :: out'). cbn [pack_loop]. rewrite Hstep. cbn [mbind outcome_bind].
  rewrite Hloop. split; [done|]. split; [done|].
  split; [by replace (q + S to_fill) with (q + 1 + to_fill) by lia|].
  split; [simpl; by rewrite Hl'|]. split; [by constructor|]. split.
  - intros [|i] w' b Hi Hw' Hb Hbn; simpl in Hw'.
    + injection Hw' as <-. rewrite Nat.add_0_r in *. by apply Hwb.
    + replace (q + S i) with (q + 1 + i) in * by lia. apply (Hbits i w' b); [lia|done..].
  - intros [|i] Hi; [lia|]. simpl. apply Hrest. lia.
Qed.

(** ** The pool *)
Record pool_ok (p : EntropyPool) : Prop := {
  po_words : words_ok (entropy p);
  po_index : entropy_bit_index p < 64 * W;
  po_align : (entropy_bit_index p + entropy_bit_size p) mod 64 = 0;
  po_size : entropy_bit_index p mod 64 + entropy_bit_size p ≤ 64 * W;
  po_clean : ∀ j, entropy_bit_size p ≤ j → j < 64 * W →
    ring_bit (entropy p) (entropy_bit_index p + j) = false;
}.

(** The queue a pool stands for. *)
Definition contents (p : EntropyPool) : list bool :=
  (λ j, ring_bit (entropy p) (entropy_bit_index p + j)) <$> seq 0 (entropy_bit_size p).

Lemma contents_lookup p j : contents p !! j =
  if decide (j < entropy_bit_size p)
  then Some (ring_bit (entropy p) (entropy_bit_index p + j)) else None.
Proof.
  unfold contents. rewrite list_lookup_fmap. case_decide.
  - by rewrite lookup_seq_lt.
  - by rewrite lookup_seq_ge by lia.
Qed.

Lemma pool_new_ok : pool_ok (pool_new W) ∧ contents (pool_new W) = [].
Proof.
  split; [|done]. split; simpl; [|lia|done|lia|].
  - split; [by rewrite length_replicate|]. apply Forall_replicate. done.
  - intros j _ _. unfold TrngProofs.ring_bit. destruct (_ !! _) as [w|] eqn:Hw; [|done].
    apply lookup_replicate in Hw as [-> _]. apply bit_0.
Qed.

(** The last word of the result is masked. *)
Lemma pack_mask nbits (out : list Z) x i b :
  i = (nbits + 63) / 64 - 1 → 0 < nbits → nbits mod 64 ≠ 0 → out !! i = Some x → b < 64 →
  bit (Z.land x (u64_shr U64_MAX (64 - nbits mod 64))) b = bit x b && bool_decide (64 * i + b < nbits).
Proof.
  intros -> Hn Hm Hx Hb. rewrite bit_land, bit_shr, bit_max. f_equal. apply bool_decide_ext. div_lia.
Qed.

(** The result of packing, word by word. *)
Lemma pack_words p nbits out :
  pool_ok p → 0 < nbits → nbits ≤ entropy_bit_size p → nbits + 64 ≤ 64 * W →
  nbits ≤ 64 * length out →
  ∃ e' out', pack W nbits out p =
      Done (mkPool e' ((entropy_bit_index p + nbits) mod (W * 64)) (entropy_bit_size p - nbits), out') ∧
    words_ok e' ∧ cleared (entropy_bit_index p) (entropy p) e' nbits ∧
    length out' = length out ∧ Forall word_ok out' ∧
    ∀ i w b, out' !! i = Some w → b < 64 →
      bit w b = if decide (64 * i + b < nbits)
                then ring_bit (entropy p) (entropy_bit_index p + (64 * i + b)) else false.
Proof.
  intros [He Hidx Hal Hsz Hcl] Hn Hns HnW Hout. unfold pack, BITS_PER_WORD.
  set (index := entropy_bit_index p) in *. set (to_fill := (nbits + 64 - 1) / 64).
  destruct (pack_loop_spec index (entropy p) nbits to_fill 0 (entropy p) ((λ _, 0%Z) <$> out))
    as (e' & o & Hloop & He' & Hcl' & Hl & Hok & Hbits & Hrest).
  { intros j Hj HjW. apply Hcl; lia. }
  { done. }
  { intros j Hj. rewrite bool_decide_true by lia. by rewrite andb_true_r. }
  { apply Forall_fmap, Forall_true. done. }
  { rewrite length_fmap. unfold to_fill. div_lia. }
  { unfold to_fill. div_lia. }
  { unfold to_fill. div_lia. }
  rewrite Nat.mul_0_r, Nat.sub_0_r in Hloop. rewrite Hloop. cbn [mbind outcome_bind].
  rewrite length_fmap in Hl.
  assert (Nat.min (64 * (0 + to_fill)) nbits = nbits) as Hmin by (unfold to_fill; div_lia).
  rewrite Hmin in Hcl'.
  assert (∀ i w b, o !! i = Some w → b < 64 →
    bit w b && bool_decide (64 * i + b < nbits) = if decide (64 * i + b < nbits)
      then ring_bit (entropy p) (index + (64 * i + b)) else false) as Hfin.
  { intros i w b Hw Hb. case_decide as Hk; [|by rewrite bool_decide_false, andb_false_r].
    rewrite bool_decide_true, andb_true_r by done.
    apply (Hbits i w b); [unfold to_fill; div_lia|done..]. }
  assert (∀ i w b, o !! i = Some w → b < 64 → nbits ≤ 64 * i + b →
    to_fill ≤ i → bit w b = false) as Hhigh.
  { intros i w b Hw Hb Hk Hi. rewrite (Hrest i Hi), list_lookup_fmap in Hw.
    destruct (out !! i); [|done]. injection Hw as <-. apply bit_0. }
  unfold checked_sub. rewrite (decide_True (P := nbits ≤ entropy_bit_size p)) by done.
  destruct (decide (nbits mod 64 ≠ 0)) as [Hm|Hm%dec_stable].
  - rewrite decide_True by (unfold to_fill; div_lia). cbn [mbind outcome_bind].
    destruct (lookup_lt_is_Some_2 o (to_fill - 1)) as [x Hx]; [rewrite Hl; unfold to_fill; div_lia|].
    rewrite (proj2 (arr_get_Done _ _ _) Hx). cbn [mbind outcome_bind].
    unfold arr_set. rewrite decide_True by (by eapply lookup_lt_Some). cbn [mbind outcome_bind].
    eexists e', _. split; [done|]. do 2 (split; [done|]). split; [by rewrite length_insert|].
    split. { apply Forall_insert; [done|]. apply word_ok_land. by eapply Forall_lookup_1. }
    intros i w b Hw Hb. apply list_lookup_insert_Some in Hw as [(<- & <- & _)|[Hne Hw]].
    + rewrite (pack_mask nbits o x (to_fill - 1) b); [by apply Hfin|unfold to_fill; f_equal; lia|done..].
    + rewrite <-(Hfin i w b Hw Hb). case_bool_decide; [by rewrite andb_true_r|].
      rewrite andb_false_r. apply (Hhigh i w b Hw Hb); [lia|]. unfold to_fill in *. div_lia.
  - cbn [mbind outcome_bind mret outcome_ret]. eexists e', _. split; [done|]. do 4 (split; [done|]).
    intros i w b Hw Hb. rewrite <-(Hfin i w b Hw Hb). case_bool_decide; [by rewrite andb_true_r|].
    rewrite andb_false_r. apply (Hhigh i w b Hw Hb); [lia|]. unfold to_fill in *. div_lia.
Qed.

Lemma ring_bit_add_mod e k j : ring_bit e (k mod (W * 64) + j) = ring_bit e (k + j).
Proof.
  rewrite <-(ring_bit_wrap W HW e _ (k / (W * 64))). f_equal.
  pose proof (Nat.div_mod_eq k (W * 64)). lia.
Qed.

(** Packing removes the first bits of the queue. *)
Lemma pack_spec p nbits out :
  pool_ok p → 0 < nbits → nbits ≤ entropy_bit_size p → nbits + 64 ≤ 64 * W →
  nbits ≤ 64 * length out →
  ∃ p' out', pack W nbits out p = Done (p', out') ∧ pool_ok p' ∧
    contents p' = drop nbits (contents p) ∧
    length out' = length out ∧ Forall word_ok out' ∧
    words_bits out' = take nbits (contents p) ++ replicate (64 * length out - nbits) false.
Proof.
  intros Hok Hn Hns HnW Hout.
  destruct (pack_words p nbits out Hok Hn Hns HnW Hout)
    as (e' & out' & Hpack & He' & Hcl & Hlen & Hw & Hbits).
  destruct Hok as [He Hidx Hal Hsz Hclean].
  eexists _, out'. split; [done|]. split; [|split; [|split; [done|split; [done|]]]].
  - pose proof (Nat.div_mod_eq (entropy_bit_index p + nbits) (W * 64)) as Hdm.
    pose proof (Nat.mod_upper_bound (entropy_bit_index p + nbits) (W * 64)).
    set (m := (entropy_bit_index p + nbits) mod (W * 64)) in *.
    assert (W * 64 * ((entropy_bit_index p + nbits) / (W * 64)) =
            64 * (W * ((entropy_bit_index p + nbits) / (W * 64)))) as Hm64 by lia.
    rewrite Hm64 in Hdm. set (u := W * _) in Hdm.
    assert (m < 64 * W ∧ (m + (entropy_bit_size p - nbits)) mod 64 = 0 ∧
            m mod 64 + (entropy_bit_size p - nbits) ≤ 64 * W) as (Hm1 & Hm2 & Hm3).
    { clearbody m u. clear Hm64 Hclean Hcl Hbits He He'. split; [lia|]. split; div_lia. }
    split; simpl; [done..|].
    intros j Hj HjW. unfold m. rewrite ring_bit_add_mod, <-Nat.add_assoc.
    destruct (decide (nbits + j < 64 * W)).
    + rewrite (Hcl (nbits + j)), (Hclean (nbits + j)) by lia. done.
    + rewrite <-(ring_bit_wrap W HW e' _ 0), Nat.mul_0_l, Nat.add_0_r.
      replace (entropy_bit_index p + (nbits + j))
        with (entropy_bit_index p + (nbits + j - 64 * W) + 1 * (64 * W)) by lia.
      rewrite (ring_bit_wrap W HW), Hcl by lia. rewrite bool_decide_false by lia.
      apply andb_false_r.
  - apply list_eq. intros j. rewrite lookup_drop, !contents_lookup. cbn [entropy_bit_size entropy entropy_bit_index].
    repeat case_decide; try lia; [|done]. f_equal. rewrite ring_bit_add_mod, <-Nat.add_assoc.
    rewrite (Hcl (nbits + j)) by lia. rewrite bool_decide_true by lia. apply andb_true_r.
  - apply list_eq. intros k. destruct (decide (k < 64 * length out)) as [Hk|Hk].
    + destruct (lookup_lt_is_Some_2 out' (k / 64)) as [w Hwk]; [rewrite Hlen; div_lia|].
      rewrite (words_bits_lookup _ _ _ Hwk), (Hbits (k / 64) w (k mod 64) Hwk) by div_lia.
      replace (64 * (k / 64) + k mod 64) with k by div_lia.
      assert (length (take nbits (contents p)) = nbits) as Hlt.
      { rewrite length_take. unfold contents. rewrite length_fmap, length_seq. lia. }
      case_decide as Hkn.
      * rewrite lookup_app_l by lia. rewrite lookup_take_lt by lia. rewrite contents_lookup.
        by rewrite decide_True by lia.
      * rewrite lookup_app_r by lia. rewrite Hlt. symmetry. apply lookup_replicate_2. lia.
    + rewrite !lookup_ge_None_2; [done| |by rewrite words_bits_length, Hlen; lia].
      rewrite length_app, length_take, length_replicate. unfold contents.
      rewrite length_fmap, length_seq. lia.
Qed.

(** ** Filling *)

(** A word is stored behind the last bit. *)
Lemma store_word p v :
  pool_ok p → word_ok v → entropy_bit_index p mod 64 + entropy_bit_size p + 64 ≤ 64 * W →
  let i := (entropy_bit_size p + entropy_bit_index p) / 64 mod W in
  let p' := mkPool (<[i := v]> (entropy p)) (entropy_bit_index p) (entropy_bit_size p + 64) in
  arr_set (entropy p) i v = Done (<[i := v]> (entropy p)) ∧
  pool_ok p' ∧ contents p' = contents p ++ words_bits [v].
Proof.
  intros [He Hidx Hal Hsz Hclean] Hv Hroom i p'. set (index := entropy_bit_index p) in *.
  set (size := entropy_bit_size p) in *. set (q := (index mod 64 + size) / 64).
  assert (q < W) as Hq by (unfold q; div_lia).
  assert (i = (index / 64 + q) mod W) as Hi.
  { unfold i, q. f_equal. div_lia. }
  assert (64 * q = index mod 64 + size) as Hq64 by (unfold q; div_lia).
  split; [by apply set_word_Done|].
  assert (∀ j, j < 64 * W → ring_bit (<[i := v]> (entropy p)) (index + j) =
    if decide (size ≤ j < size + 64) then bit v (j - size)
    else ring_bit (entropy p) (index + j)) as Hbit.
  { intros j Hj. rewrite Hi, ring_bit_insert by done.
    destruct (split_pos index j) as [Hdiv Hmod]. rewrite Hdiv.
    assert ((index mod 64 + j) / 64 ≤ W) as HjW by div_lia.
    case_decide as Hw.
    - destruct (ring_word W HW _ _ _ HjW Hq Hw) as [Hjq|[H0 Hjq]]; [|div_lia].
      rewrite decide_True by div_lia. f_equal. div_lia.
    - rewrite decide_False; [done|]. intros Hr. apply Hw. f_equal. f_equal. div_lia. }
  split.
  - split; cbn [p' entropy entropy_bit_index entropy_bit_size];
      [by apply words_ok_insert|done|div_lia|lia|].
    intros j Hj HjW. rewrite Hbit, decide_False by lia. apply Hclean; lia.
  - apply list_eq. intros j. destruct (decide (j < size + 64)) as [Hj|Hj].
    + rewrite contents_lookup. cbn [p' entropy entropy_bit_index entropy_bit_size].
      rewrite decide_True, Hbit by lia.
      assert (length (contents p) = size) as Hlen by (unfold contents; by rewrite length_fmap, length_seq).
      case_decide.
      * rewrite lookup_app_r, Hlen by lia.
        rewrite (words_bits_lookup [v] (j - size) v); [f_equal; f_equal; div_lia|].
        by replace ((j - size) / 64) with 0 by div_lia.
      * rewrite lookup_app_l, contents_lookup by lia. fold index size. by rewrite decide_True by lia.
    + rewrite !lookup_ge_None_2; [done| |]; rewrite ?length_app, ?words_bits_length; unfold contents;
        rewrite !length_fmap, !length_seq; simpl; fold size; lia.
Qed.
End Pack.
