(* ===== verification/TrngProps.v ===== *)
(** * The properties of the TRNG service

    The entropy pool as a queue of the bits its source delivers: requests take
    bits from the front, in order, no bit is handed out twice or kept, and no
    call panics. *)

From Stdlib Require Import ZArith Lia ZifyNat.
From stdpp Require Import base list numbers option.
From S2P Require Import Prelude Smccc Trng TrngProofs.
Open Scope rust_scope.
Open Scope nat_scope.

Section Queue.
Context {Src : Type} (get_entropy : M Src (result (list Z) TrngError)).
Context (REQ_WORDS : nat).
Local Abbreviation W := (words_in_pool REQ_WORDS).
Local Abbreviation St := (EntropyPool * Src)%type.

(** The source delivers blocks of [REQ_WORDS] words, or fails. *)
Definition source_ok : Prop := ∀ s, ∃ r s', get_entropy s = Ret r s' ∧
  match r with Ok buf => length buf = REQ_WORDS ∧ Forall word_ok buf | Err _ => True end.

(** [draws s ws s']: from the state [s] the source delivers the words [ws]. *)
Inductive draws : Src → list Z → Src → Prop :=
| draws_nil s : draws s [] s
| draws_block s buf s1 ws s' :
    get_entropy s = Ret (Ok buf) s1 → draws s1 ws s' → draws s (buf ++ ws) s'
| draws_error s e s1 ws s' :
    get_entropy s = Ret (Err e) s1 → draws s1 ws s' → draws s ws s'.

Lemma draws_trans s ws1 s1 ws2 s2 : draws s ws1 s1 → draws s1 ws2 s2 → draws s (ws1 ++ ws2) s2.
Proof.
  induction 1; intros Hd; [done| |by econstructor; eauto].
  rewrite <-(assoc_L (++)). by econstructor; eauto.
Qed.

Context (Hsource : source_ok) (Hreq : 0 < REQ_WORDS).

Lemma W_eq : W = 3 + REQ_WORDS.
Proof. done. Qed.
Lemma W_pos : 0 < W.
Proof. rewrite W_eq. lia. Qed.

Lemma words_bits_app l1 l2 : words_bits (l1 ++ l2) = words_bits l1 ++ words_bits l2.
Proof.
  apply list_eq. intros k. destruct (decide (k < 64 * length (l1 ++ l2))) as [Hk|Hk].
  - rewrite length_app in Hk. destruct (decide (k < 64 * length l1)) as [Hk1|Hk1].
    + destruct (lookup_lt_is_Some_2 l1 (k / 64)) as [w Hw]; [div_lia|].
      rewrite lookup_app_l by (rewrite words_bits_length; lia).
      rewrite !(words_bits_lookup _ _ w); [done|done|]. by apply lookup_app_l_Some.
    + destruct (lookup_lt_is_Some_2 l2 (k / 64 - length l1)) as [w Hw]; [div_lia|].
      rewrite lookup_app_r by (rewrite words_bits_length; lia). rewrite words_bits_length.
      rewrite (words_bits_lookup (l1 ++ l2) k w); [|rewrite lookup_app_r by div_lia; done].
      rewrite (words_bits_lookup l2 (k - 64 * length l1) w).
      * do 2 f_equal. div_lia.
      * by replace ((k - 64 * length l1) / 64) with (k / 64 - length l1) by div_lia.
  - rewrite !lookup_ge_None_2; [done| |]; rewrite ?length_app, !words_bits_length, ?length_app in *; lia.
Qed.

(** The words of a block are appended to the queue. *)
Lemma store_words_spec buf p :
  pool_ok W p → Forall word_ok buf →
  entropy_bit_index p mod 64 + entropy_bit_size p + 64 * length buf ≤ 64 * W →
  ∃ p', store_words W buf ((entropy_bit_size p + entropy_bit_index p) / 64 mod W) p = Done p' ∧
    pool_ok W p' ∧ contents W p' = contents W p ++ words_bits buf ∧
    entropy_bit_size p' = entropy_bit_size p + 64 * length buf.
Proof.
  revert p. induction buf as [|v buf IH]; intros p Hok Hb Hroom.
  { exists p. split; [done|]. split; [done|]. rewrite app_nil_r. simpl. split; [done|lia]. }
  apply Forall_cons_iff in Hb as [Hv Hb]. cbn [length] in Hroom.
  destruct (store_word W W_pos p v Hok Hv) as (Hset & Hok1 & Hc1); [lia|].
  cbn [store_words]. rewrite Hset. cbn [mbind outcome_bind]. unfold BITS_PER_WORD.
  match type of Hok1 with pool_ok _ ?x => set (p1 := x) in * end.
  destruct (IH p1 Hok1 Hb) as (p' & Hst & Hok' & Hc' & Hsz').
  { unfold p1. cbn [entropy_bit_index entropy_bit_size]. lia. }
  exists p'. split.
  { rewrite <-Hst. f_equal. unfold p1. cbn [entropy_bit_index entropy_bit_size].
    rewrite Nat.Div0.add_mod_idemp_l. f_equal. div_lia. }
  split; [done|]. split.
  - change (v :: buf) with ([v] ++ buf). by rewrite Hc', Hc1, words_bits_app, (assoc_L (++)).
  - rewrite Hsz'. unfold p1. cbn [entropy_bit_size length]. lia.
Qed.

(** One block: the assertion on the size holds. *)
Lemma fill_step_spec buf p :
  pool_ok W p → Forall word_ok buf → length buf = REQ_WORDS → entropy_bit_size p < 192 →
  ∃ p', fill_step W buf p = Done p' ∧ pool_ok W p' ∧
    contents W p' = contents W p ++ words_bits buf ∧
    entropy_bit_size p' = entropy_bit_size p + 64 * REQ_WORDS.
Proof.
  intros Hok Hb Hlen Hsz. pose proof (po_align _ _ Hok) as Hal. pose proof W_eq as HW.
  destruct (store_words_spec buf p Hok Hb) as (p' & Hst & Hok' & Hc & Hsz').
  { rewrite Hlen. div_lia. }
  exists p'. unfold fill_step, BITS_PER_WORD. rewrite Hst. cbn [mbind outcome_bind].
  pose proof (po_size _ _ Hok') as Hps.
  rewrite bool_decide_true by (unfold bits_in_pool, BITS_PER_WORD; lia). cbn.
  do 3 (split; [done|]). by rewrite Hsz', Hlen.
Qed.

Lemma source_run s (p : EntropyPool) : ∃ r s', source get_entropy (p, s) = Ret r (p, s') ∧
  get_entropy s = Ret r s' ∧
  match r with Ok buf => length buf = REQ_WORDS ∧ Forall word_ok buf | Err _ => True end.
Proof.
  destruct (Hsource s) as (r & s' & Heq & Hr). exists r, s'. split; [|done].
  unfold source. simpl. by rewrite Heq.
Qed.

(** Filling ends; it appends what the source delivers until there are enough
    bits or the source fails. *)
Lemma fill_entropy_spec fuel nbits p s :
  pool_ok W p → nbits ≤ 192 → nbits - entropy_bit_size p < fuel →
  ∃ r p' s' ws, fill_entropy get_entropy W fuel nbits (p, s) = Ret r (p', s') ∧
    pool_ok W p' ∧ draws s ws s' ∧ contents W p' = contents W p ++ words_bits ws ∧
    (r = Ok tt → nbits ≤ entropy_bit_size p').
Proof.
  revert p s. induction fuel as [|fuel IH]; intros p s Hok Hn Hfuel; [lia|].
  cbn [fill_entropy]. cbv [mbind M_bind get_pool get mret M_ret]. cbn [fst].
  case_decide as Hsz.
  2: { exists (Ok tt), p, s, []. rewrite app_nil_r. split; [done|]. split; [done|].
       split; [constructor|]. split; [done|]. lia. }
  destruct (source_run s p) as (r & s1 & Hrun & Hget & Hr). unfold try_M. rewrite Hrun.
  destruct r as [buf|e].
  2: { exists (Err e), p, s1, []. rewrite app_nil_r. split; [done|]. split; [done|].
       split; [by eapply draws_error, draws_nil|]. done. }
  destruct Hr as [Hlen Hb]. destruct (fill_step_spec buf p Hok Hb Hlen) as (p1 & Hst & Hok1 & Hc1 & Hsz1);
    [lia|].
  rewrite Hst. cbv [lift set_pool modify]. cbn [snd].
  destruct (IH p1 s1 Hok1 Hn) as (r' & p' & s' & ws & Hfill & Hok' & Hdraw & Hc & Hpost); [lia|].
  exists r', p', s', (buf ++ ws). split; [done|]. split; [done|].
  split; [by econstructor|]. split; [|done]. by rewrite Hc, Hc1, words_bits_app, (assoc_L (++)).
Qed.

(** The outcome of a request. *)
Lemma pack_entropy_spec nbits out p s :
  pool_ok W p → 0 < nbits → nbits ≤ 192 → nbits ≤ 64 * length out →
  ∃ r p' s' ws, pack_entropy get_entropy W nbits out (p, s) = Ret r (p', s') ∧
    pool_ok W p' ∧ draws s ws s' ∧
    match r with
    | Ok out' => length out' = length out ∧ Forall word_ok out' ∧
        nbits ≤ length (contents W p ++ words_bits ws) ∧
        words_bits out' = take nbits (contents W p ++ words_bits ws) ++
          replicate (64 * length out - nbits) false ∧
        contents W p' = drop nbits (contents W p ++ words_bits ws)
    | Err _ => contents W p' = contents W p ++ words_bits ws
    end.
Proof.
  intros Hok Hn Hmax Hout. unfold pack_entropy, try_M.
  destruct (fill_entropy_spec (S nbits) nbits p s Hok Hmax ltac:(lia))
    as (r & p1 & s1 & ws & Hfill & Hok1 & Hdraw & Hc & Hpost). rewrite Hfill.
  destruct r as [[]|e]; [|by exists (Err e), p1, s1, ws].
  destruct (pack_spec W W_pos p1 nbits out Hok1 Hn (Hpost eq_refl))
    as (p' & out' & Hpack & Hok' & Hdrop & Hlen & Hwok & Htake); [rewrite W_eq; lia|done|].
  exists (Ok out'), p', s1, ws. cbv [mbind M_bind get_pool get mret M_ret]. cbn [fst].
  rewrite Hpack. rewrite Hc in Hdrop, Htake.
  do 3 (split; [done|]). do 2 (split; [done|]). split; [|done].
  rewrite <-Hc. unfold contents. rewrite length_fmap, length_seq. by apply Hpost.
Qed.

(** C6: a request for up to 192 bits always ends and never panics.  The words
    it draws from the source are appended to the queue of bits; on success the
    result is the front of the queue, packed from the lowest bit of the first
    word and padded with zeros, and the queue loses exactly these bits; on an
    error of the source the queue keeps what was drawn. *)
Theorem entropy_pool_is_queue nbits out p s :
  pool_ok W p → 0 < nbits → nbits ≤ TRNG_RND64_ENTROPY_MAXBITS → nbits ≤ 64 * length out →
  ∃ r p' s' ws, pack_entropy get_entropy W nbits out (p, s) = Ret r (p', s') ∧
    pool_ok W p' ∧ draws s ws s' ∧
    match r with
    | Ok out' => length out' = length out ∧
        nbits ≤ length (contents W p ++ words_bits ws) ∧
        words_bits out' = take nbits (contents W p ++ words_bits ws) ++
          replicate (64 * length out - nbits) false ∧
        contents W p' = drop nbits (contents W p ++ words_bits ws)
    | Err _ => contents W p' = contents W p ++ words_bits ws
    end.
Proof.
  intros Hok Hn Hmax Hout.
  destruct (pack_entropy_spec nbits out p s Hok Hn Hmax Hout)
    as (r & p' & s' & ws & Hrun & Hok' & Hd & Hpost).
  exists r, p', s', ws. do 3 (split; [done|]). destruct r; [|done]. naive_solver.
Qed.

(** A series of requests, and the bits they hand out. *)
Fixpoint requests (rs : list nat) : M St (list bool) :=
  match rs with
  | [] => mret []
  | nbits :: rs =>
      r ← pack_entropy get_entropy W nbits [0; 0; 0]%Z;
      bs ← requests rs;
      mret (match r with Ok out => take nbits (words_bits out) | Err _ => [] end ++ bs)
  end.

Lemma requests_spec rs p s :
  pool_ok W p → Forall (λ n, 0 < n ≤ 192) rs →
  ∃ bs p' s' ws, requests rs (p, s) = Ret bs (p', s') ∧ pool_ok W p' ∧ draws s ws s' ∧
    contents W p ++ words_bits ws = bs ++ contents W p'.
Proof.
  revert p s. induction rs as [|n rs IH]; intros p s Hok Hrs.
  { exists [], p, s, []. rewrite app_nil_r. split; [done|]. split; [done|]. split; [constructor|done]. }
  apply Forall_cons_iff in Hrs as [Hn Hrs].
  destruct (pack_entropy_spec n [0; 0; 0]%Z p s Hok) as (r & p1 & s1 & ws1 & Hrun & Hok1 & Hd1 & Hpost);
    [lia|lia|simpl; lia|].
  destruct (IH p1 s1 Hok1 Hrs) as (bs & p' & s' & ws & Hrest & Hok' & Hd & Hbs).
  eexists _, p', s', (ws1 ++ ws). cbn [requests]. cbv [mbind M_bind]. rewrite Hrun, Hrest.
  split; [done|]. split; [done|]. split; [by eapply draws_trans|].
  rewrite words_bits_app, (assoc_L (++)). destruct r as [out|e].
  - destruct Hpost as (Hlen & _ & Hle & Htake & Hdrop).
    assert (take n (words_bits out) = take n (contents W p ++ words_bits ws1)) as ->.
    { rewrite Htake, take_app_le by (rewrite length_take; lia).
      apply take_ge. rewrite length_take. lia. }
    rewrite <-(assoc_L (++) (take _ _)), <-Hbs, Hdrop, (assoc_L (++)). by rewrite take_drop.
  - rewrite <-Hpost, Hbs. done.
Qed.

(** C33: over any series of requests, served or refused, the bits handed out
    followed by what is left in the pool are exactly the bits the source
    delivered, in order: none is lost, repeated or made up. *)
Theorem entropy_handed_out_once rs s :
  Forall (λ n, 0 < n ≤ TRNG_RND64_ENTROPY_MAXBITS) rs →
  ∃ bs p' s' ws, requests rs (pool_new W, s) = Ret bs (p', s') ∧ draws s ws s' ∧
    words_bits ws = bs ++ contents W p'.
Proof.
  intros Hrs. destruct (pool_new_ok W W_pos) as [Hok Hc].
  destruct (requests_spec rs (pool_new W) s Hok Hrs) as (bs & p' & s' & ws & Hrun & _ & Hd & Hbs).
  exists bs, p', s', ws. rewrite Hc in Hbs. done.
Qed.

(** Entropy that has been handed out is not kept: after a request every bit
    of the pool that is not part of the queue is zero. *)
Theorem entropy_erased nbits out p s r p' s' k :
  pool_ok W p → 0 < nbits → nbits ≤ TRNG_RND64_ENTROPY_MAXBITS → nbits ≤ 64 * length out →
  pack_entropy get_entropy W nbits out (p, s) = Ret r (p', s') → k < 64 * W →
  (∀ j, j < entropy_bit_size p' → (entropy_bit_index p' + j) mod (64 * W) ≠ k) →
  ring_bit W (entropy p') k = false.
Proof.
  intros Hok Hn Hmax Hout Hrun Hk Hnot.
  destruct (pack_entropy_spec nbits out p s Hok Hn Hmax Hout)
    as (r1 & p1 & s1 & ws & Hrun1 & Hok' & _).
  rewrite Hrun in Hrun1. injection Hrun1 as <- <- <-.
  pose proof (po_index _ _ Hok') as Hidx. set (index := entropy_bit_index p') in *.
  set (j := if decide (index ≤ k) then k - index else k + 64 * W - index).
  assert ((index + j) mod (64 * W) = k ∧ j < 64 * W) as [Hj HjW].
  { unfold j. case_decide.
    - replace (index + (k - index)) with k by lia. split; [by apply Nat.mod_small|lia].
    - replace (index + (k + 64 * W - index)) with (k + 1 * (64 * W)) by lia.
      rewrite Nat.Div0.mod_add. split; [by apply Nat.mod_small|lia]. }
  rewrite <-Hj, ring_bit_mod by apply W_pos. apply (po_clean _ _ Hok'); [|done].
  destruct (decide (j < entropy_bit_size p')) as [Hlt|]; [|lia]. by destruct (Hnot j Hlt).
Qed.

(** ** The calls *)

(** What a call that asks for [n] of at most [max] bits leaves in the registers:
    an error code, or the words of the result as [regs_of] lays them out. *)
Definition rnd_post (max len n : nat) (regs_of : list Z → list Z) (q q' : list bool)
    (vs : list Z) : Prop :=
  if decide (0 < n ≤ max) then
    (∃ e, vs = [as_u64 (trng_error_into_i32 e)] ∧ q' = q) ∨
    (∃ out, vs = regs_of out ∧ length out = len ∧ Forall word_ok out ∧ n ≤ length q ∧
       words_bits out = take n q ++ replicate (64 * len - n) false ∧ q' = drop n q)
  else vs = [as_u64 (trng_error_into_i32 TrngInvalidParams)].

Definition rnd32_regs (out : list Z) : list Z :=
  match out with
  | [e0; e1] => [0; e1; Z.land (u64_shr e0 32) 0xffffffff; Z.land e0 0xffffffff]%Z
  | _ => []
  end.
Definition rnd64_regs (out : list Z) : list Z :=
  match out with [e0; e1; e2] => [0; e2; e1; e0]%Z | _ => [] end.

Lemma trng_error_values e regs :
  smc_return_wf regs → values (set_from_trng_error e regs) = [as_u64 (trng_error_into_i32 e)].
Proof. intros Hwf. by apply values_set_from_u64. Qed.

(** The three values of a 32-bit call have 32 bits. *)
Lemma rnd32_regs_range n out (q : list bool) :
  length out = 2 → Forall word_ok out → 0 < n ≤ 96 → n ≤ length q →
  words_bits out = take n q ++ replicate (64 * 2 - n) false →
  Forall (λ x, 0 ≤ x < 2 ^ 32)%Z (rnd32_regs out).
Proof.
  intros Hl Hwo Hn Hle Hbits. destruct out as [|e0 [|e1 [|]]]; try done.
  apply Forall_cons_iff in Hwo as [_ Hwo]. apply Forall_cons_iff in Hwo as [He1 _].
  assert (∀ x, 0 ≤ Z.land x 0xffffffff < 2 ^ 32)%Z as Hland.
  { intros x. change 0xffffffff%Z with (Z.ones 32). rewrite Z.land_ones by lia.
    apply Z.mod_pos_bound. lia. }
  unfold rnd32_regs. apply Forall_cons_iff. split; [done|]. apply Forall_cons_iff.
  split; [|apply Forall_cons_iff; split; [apply Hland|apply Forall_cons_iff; split; [apply Hland|done]]].
  replace e1 with (Z.land e1 0xffffffff); [apply Hland|].
  apply bits_inj; [apply Z.land_nonneg; left; apply He1|apply He1|]. intros b. rewrite bit_land.
  destruct (decide (b < 32)) as [Hb|Hb].
  - assert (bit 0xffffffff b = true) as ->; [|by rewrite andb_true_r].
    unfold bit. change 0xffffffff%Z with (Z.ones 32). apply Z.ones_spec_low. lia.
  - assert (bit 0xffffffff b = false) as ->.
    { unfold bit. change 0xffffffff%Z with (Z.ones 32). apply Z.ones_spec_high. lia. }
    rewrite andb_false_r. symmetry. destruct (decide (b < 64)) as [Hb64|Hb64].
    + assert (words_bits [e0; e1] !! (64 + b) = Some (bit e1 b)) as Hlk.
      { rewrite (words_bits_lookup _ _ e1); [f_equal; f_equal; div_lia|].
        by replace ((64 + b) / 64) with 1 by div_lia. }
      rewrite Hbits, lookup_app_r in Hlk by (rewrite length_take; lia).
      by apply lookup_replicate in Hlk as [? _].
    + apply bit_high; [done|lia].
Qed.

Lemma rnd64_spec regs v p s :
  pool_ok W p → smc_return_wf regs → values regs !! 1 = Some v →
  ∃ regs' p' s' ws, trng_rnd64 get_entropy W regs (p, s) = Ret regs' (p', s') ∧
    pool_ok W p' ∧ smc_return_wf regs' ∧ draws s ws s' ∧
    rnd_post 192 3 (Z.to_nat v) rnd64_regs (contents W p ++ words_bits ws) (contents W p') (values regs').
Proof.
  intros Hok Hwf Hv. unfold trng_rnd64. cbv [mbind M_bind]. rewrite (proj2 (arr_get_Done _ _ _) Hv).
  cbn [lift]. unfold rnd_post. unfold TRNG_RND64_ENTROPY_MAXBITS. case_decide as Hn.
  { eexists _, p, s, []. split; [done|]. split; [done|]. split; [by apply set_from_u64_wf|].
    split; [constructor|]. rewrite decide_False by lia. by apply trng_error_values. }
  destruct (pack_entropy_spec (Z.to_nat v) [0; 0; 0]%Z p s Hok)
    as (r & p' & s' & ws & Hrun & Hok' & Hd & Hpost); [lia|lia|simpl; lia|].
  rewrite Hrun. destruct r as [out|e].
  - destruct Hpost as (Hlen & Hwo & Hle & Htake & Hdrop).
    destruct out as [|e0 [|e1 [|e2 [|]]]]; try done. cbn.
    eexists _, p', s', ws. split; [done|]. split; [done|].
    split; [apply set_args_wf; [done|unfold MAX_VALUES; simpl; lia]|].
    split; [done|]. rewrite decide_True by lia. right. exists [e0; e1; e2]. rewrite values_set_args. done.
  - eexists _, p', s', ws. split; [done|]. split; [done|]. split; [by apply set_from_u64_wf|].
    split; [done|]. rewrite decide_True by lia. left. exists e.
    split; [by apply trng_error_values|done].
Qed.

Lemma rnd32_spec regs v p s :
  pool_ok W p → smc_return_wf regs → values regs !! 1 = Some v →
  ∃ regs' p' s' ws, trng_rnd32 get_entropy W regs (p, s) = Ret regs' (p', s') ∧
    pool_ok W p' ∧ smc_return_wf regs' ∧ draws s ws s' ∧
    rnd_post 96 2 (Z.to_nat v) rnd32_regs (contents W p ++ words_bits ws) (contents W p') (values regs').
Proof.
  intros Hok Hwf Hv. unfold trng_rnd32. cbv [mbind M_bind]. rewrite (proj2 (arr_get_Done _ _ _) Hv).
  cbn [lift]. unfold rnd_post. unfold TRNG_RND32_ENTROPY_MAXBITS. case_decide as Hn.
  { eexists _, p, s, []. split; [done|]. split; [done|]. split; [by apply set_from_u64_wf|].
    split; [constructor|]. rewrite decide_False by lia. by apply trng_error_values. }
  destruct (pack_entropy_spec (Z.to_nat v) [0; 0]%Z p s Hok)
    as (r & p' & s' & ws & Hrun & Hok' & Hd & Hpost); [lia|lia|simpl; lia|].
  rewrite Hrun. destruct r as [out|e].
  - destruct Hpost as (Hlen & Hwo & Hle & Htake & Hdrop).
    destruct out as [|e0 [|e1 [|]]]; try done. cbn -[Z.land u64_shr].
    eexists _, p', s', ws. split; [done|]. split; [done|].
    split; [apply set_args_wf; [done|unfold MAX_VALUES; simpl; lia]|].
    split; [done|]. rewrite decide_True by lia. right. exists [e0; e1]. rewrite values_set_args. done.
  - eexists _, p', s', ws. split; [done|]. split; [done|]. split; [by apply set_from_u64_wf|].
    split; [done|]. rewrite decide_True by lia. left. exists e.
    split; [by apply trng_error_values|done].
Qed.

Lemma trng_smc_returns uuid regs p s :
  pool_ok W p → smc_return_wf regs → 2 ≤ used regs →
  ∃ regs' p' s', trng_handle_smc_common get_entropy W uuid regs (p, s) = Ret regs' (p', s') ∧
    pool_ok W p' ∧ smc_return_wf regs'.
Proof.
  intros Hok Hwf Hused. unfold trng_handle_smc_common.
  assert (2 ≤ length (values regs)) as Hlen.
  { destruct Hwf as [Hl Hu]. unfold values. rewrite length_take, Hl. lia. }
  destruct (lookup_lt_is_Some_2 (values regs) 0) as [x0 Hx0]; [lia|].
  destruct (lookup_lt_is_Some_2 (values regs) 1) as [x1 Hx1]; [lia|].
  cbv [mbind M_bind]. rewrite (proj2 (arr_get_Done _ _ _) Hx0). cbn [lift].
  rewrite (proj2 (arr_get_Done _ _ _) Hx1). cbn [lift].
  repeat case_match; try (by eexists _, p, s; split; [done|]; split; [done|]; apply set_from_u64_wf).
  - eexists _, p, s. split; [done|]. split; [done|]. apply set_args_wf; [done|].
    unfold MAX_VALUES. simpl. lia.
  - destruct (rnd32_spec regs x1 p s Hok Hwf Hx1) as (regs' & p' & s' & ws & ? & ? & ? & _).
    by exists regs', p', s'.
  - destruct (rnd64_spec regs x1 p s Hok Hwf Hx1) as (regs' & p' & s' & ws & ? & ? & ? & _).
    by exists regs', p', s'.
Qed.

(** Every TRNG call of any world returns: whatever the function and its
    arguments, nothing panics or loops, and the registers and the pool stay
    well formed. *)
Theorem trng_smc_total uuid regs p s :
  pool_ok W p → smc_return_wf regs → 2 ≤ used regs →
  ∃ regs' p' s', trng_handle_smc_common get_entropy W uuid regs (p, s) = Ret regs' (p', s') ∧
    pool_ok W p' ∧ smc_return_wf regs'.
Proof. apply trng_smc_returns. Qed.

(** TRNG_RND32 and TRNG_RND64 check their argument, report an error of the
    source, or return the next bits of the queue: in the order of the registers
    x3, x2, x1 for 64 bits, and split into three 32-bit values for 32 bits. *)
Theorem trng_rnd_returns_queue regs v p s :
  pool_ok W p → smc_return_wf regs → values regs !! 1 = Some v →
  (∃ regs' p' s' ws, trng_rnd64 get_entropy W regs (p, s) = Ret regs' (p', s') ∧ draws s ws s' ∧
     rnd_post 192 3 (Z.to_nat v) rnd64_regs (contents W p ++ words_bits ws) (contents W p') (values regs')) ∧
  (∃ regs' p' s' ws, trng_rnd32 get_entropy W regs (p, s) = Ret regs' (p', s') ∧ draws s ws s' ∧
     rnd_post 96 2 (Z.to_nat v) rnd32_regs (contents W p ++ words_bits ws) (contents W p') (values regs') ∧
     (1 < length (values regs') → Forall (λ x, 0 ≤ x < 2 ^ 32)%Z (values regs'))).
Proof.
  intros Hok Hwf Hv. split.
  - destruct (rnd64_spec regs v p s Hok Hwf Hv) as (regs' & p' & s' & ws & ? & _ & _ & ? & ?).
    by exists regs', p', s', ws.
  - destruct (rnd32_spec regs v p s Hok Hwf Hv) as (regs' & p' & s' & ws & Hrun & _ & _ & Hd & Hpost).
    exists regs', p', s', ws. do 3 (split; [done|]). intros Hlen. unfold rnd_post in Hpost.
    case_decide as Hn; [|rewrite Hpost in Hlen; simpl in Hlen; lia].
    destruct Hpost as [(e & Hvs & _)|(out & Hvs & Hl & Hwo & Hle & Hbits & _)];
      [rewrite Hvs in Hlen; simpl in Hlen; lia|].
    rewrite Hvs. by apply (rnd32_regs_range (Z.to_nat v) out (contents W p ++ words_bits ws)).
Qed.
End Queue.

(** ** A source of four words *)
Definition sample_source : M nat (result (list Z) TrngError) := λ s,
  if decide (s < 4) then Ret (Ok [(0x0123456789abcdef + Z.of_nat s)%Z]) (S s)
  else Ret (Err TrngNoEntropy) s.

Lemma sample_source_ok : source_ok sample_source 1.
Proof.
  intros s. unfold sample_source. case_decide as Hs; [|by eexists _, s].
  eexists _, (S s). split; [done|]. split; [done|]. constructor; [|done]. unfold word_ok. lia.
Qed.

Lemma sample_pool_ok : pool_ok 4 (pool_new 4).
Proof. apply (pool_new_ok 4). lia. Qed.

Lemma entropy_pool_is_queue_witness :
  ∃ r p' s' ws, pack_entropy sample_source 4 100 [0; 0]%Z (pool_new 4, 0) = Ret r (p', s') ∧
    pool_ok 4 p' ∧ draws sample_source 0 ws s' ∧
    match r with
    | Ok out' => length out' = 2 ∧ 100 ≤ length (contents 4 (pool_new 4) ++ words_bits ws) ∧
        words_bits out' = take 100 (contents 4 (pool_new 4) ++ words_bits ws) ++ replicate 28 false ∧
        contents 4 p' = drop 100 (contents 4 (pool_new 4) ++ words_bits ws)
    | Err _ => contents 4 p' = contents 4 (pool_new 4) ++ words_bits ws
    end.
Proof.
  apply (entropy_pool_is_queue sample_source 1 sample_source_ok ltac:(lia) 100 [0; 0]%Z
    (pool_new 4) 0 sample_pool_ok); [lia|unfold TRNG_RND64_ENTROPY_MAXBITS; lia|simpl; lia].
Defined.

Lemma entropy_handed_out_once_witness :
  ∃ bs p' s' ws, requests sample_source 1 [23; 192; 64] (pool_new 4, 0) = Ret bs (p', s') ∧
    draws sample_source 0 ws s' ∧ words_bits ws = bs ++ contents 4 p'.
Proof.
  apply (entropy_handed_out_once sample_source 1 sample_source_ok ltac:(lia) [23; 192; 64] 0).
  repeat constructor; unfold TRNG_RND64_ENTROPY_MAXBITS; lia.
Defined.

(** The pool after a request of 23 bits. *)
Definition sample_pool : EntropyPool :=
  match pack_entropy sample_source 4 23 [0]%Z (pool_new 4, 0) with
  | Ret _ (p, _) => p
  | _ => pool_new 4
  end.

Lemma entropy_erased_witness : ring_bit 4 (entropy sample_pool) 22 = false.
Proof.
  apply (entropy_erased sample_source 1 sample_source_ok ltac:(lia) 23 [0]%Z (pool_new 4) 0
    (Ok [0x2bcdef]%Z) sample_pool 1 22 sample_pool_ok);
    [lia|unfold TRNG_RND64_ENTROPY_MAXBITS; lia|simpl; lia|vm_compute; reflexivity
    |change (22 < 256); lia|].
  change (∀ j, j < 41 → (23 + j) mod 256 ≠ 22). intros j Hj. rewrite Nat.mod_small; lia.
Defined.

(** A call for 65 bits. *)
Definition sample_trng_regs : SmcReturn :=
  mkSmcReturn 18 (ARM_TRNG_RND64 :: 65%Z :: replicate 16 0%Z).

Lemma trng_smc_total_witness :
  ∃ regs' p' s', trng_handle_smc_common sample_source 4 [1]%Z sample_trng_regs (pool_new 4, 0) =
      Ret regs' (p', s') ∧ pool_ok 4 p' ∧ smc_return_wf regs'.
Proof.
  apply (trng_smc_total sample_source 1 sample_source_ok ltac:(lia) [1]%Z sample_trng_regs
    (pool_new 4) 0 sample_pool_ok); [by split|simpl; lia].
Defined.

Lemma trng_rnd_returns_queue_witness :
  (∃ regs' p' s' ws, trng_rnd64 sample_source 4 sample_trng_regs (pool_new 4, 0) =
       Ret regs' (p', s') ∧ draws sample_source 0 ws s' ∧
     rnd_post 192 3 65 rnd64_regs (contents 4 (pool_new 4) ++ words_bits ws) (contents 4 p')
       (values regs')) ∧
  (∃ regs' p' s' ws, trng_rnd32 sample_source 4 sample_trng_regs (pool_new 4, 0) =
       Ret regs' (p', s') ∧ draws sample_source 0 ws s' ∧
     rnd_post 96 2 65 rnd32_regs (contents 4 (pool_new 4) ++ words_bits ws) (contents 4 p')
       (values regs') ∧
     (1 < length (values regs') → Forall (λ x, 0 ≤ x < 2 ^ 32)%Z (values regs'))).
Proof.
  apply (trng_rnd_returns_queue sample_source 1 sample_source_ok ltac:(lia) sample_trng_regs 65%Z
    (pool_new 4) 0 sample_pool_ok); [by split|done].
Defined.
