(* ===== verification/Gpt.v ===== *)
(** * Granule protection tables

    [src/gpt.rs] and [src/gpt/table.rs]: the descriptors of the two levels of a
    granule protection table, the resolution of physical addresses, [lookup] and
    [set], with the barriers and invalidations of [src/aarch64.rs] as events.
    Level 1 tables live in memory, a function from addresses to the 64-bit words
    stored there, so that tables that overlap do so in the model as well. *)

From Stdlib Require Import ZArith Lia.
From stdpp Require Import base list numbers option functions.
From S2P Require Import Prelude Smccc.
Open Scope rust_scope.
Open Scope Z_scope.

(** ** Descriptors *)

(** [mask!(len)] and [mask!(end, start)]. *)
Definition mask (len : Z) : Z := Z.shiftl 1 len - 1.
Definition mask_range (e s : Z) : Z := Z.ldiff (mask e) (mask s).

Inductive GPIAccessType : Type :=
| GpiNoAccess | GpiSecure | GpiNonSecure | GpiRoot | GpiRealm | GpiAny.
Global Instance GPIAccessType_eq_dec : EqDecision GPIAccessType.
Proof. solve_decision. Defined.
Definition gpi_into (g : GPIAccessType) : Z :=
  match g with
  | GpiNoAccess => 0 | GpiSecure => 8 | GpiNonSecure => 9
  | GpiRoot => 10 | GpiRealm => 11 | GpiAny => 15
  end.
Definition gpi_try_from (v : Z) : option GPIAccessType :=
  if v =? 0 then Some GpiNoAccess
  else if v =? 8 then Some GpiSecure
  else if v =? 9 then Some GpiNonSecure
  else if v =? 10 then Some GpiRoot
  else if v =? 11 then Some GpiRealm
  else if v =? 15 then Some GpiAny
  else None.
Definition GPI_MASK : Z := mask 4.

Inductive ContigSize : Type := MB2 | MB32 | MB512.
Global Instance ContigSize_eq_dec : EqDecision ContigSize.
Proof. solve_decision. Defined.
Definition contig_size_into (c : ContigSize) : Z :=
  match c with MB2 => 1 | MB32 => 2 | MB512 => 3 end.
Definition contig_size_try_from (v : Z) : option ContigSize :=
  if v =? 1 then Some MB2 else if v =? 2 then Some MB32
  else if v =? 3 then Some MB512 else None.
Definition CONTIG_SIZE_MASK : Z := mask 2.
Definition contig_shift (c : ContigSize) : Z :=
  match c with MB2 => 21 | MB32 => 25 | MB512 => 29 end.
Definition contig_from_shift (shift : Z) : option ContigSize :=
  if shift =? 21 then Some MB2 else if shift =? 25 then Some MB32
  else if shift =? 29 then Some MB512 else None.
Definition contig_bytes (c : ContigSize) : Z := Z.shiftl 1 (contig_shift c).

(** The accessors of the descriptors: a field that has no value of the type
    panics. *)
Definition field (e s d : Z) : Z := Z.land (Z.shiftr d s) (mask (e - s)).
Definition field_gpi (d : Z) : outcome GPIAccessType := unwrap (gpi_try_from (field 8 4 d)).
Definition field_size (d : Z) : outcome ContigSize := unwrap (contig_size_try_from (field 10 8 d)).

Definition TAG_MASK : Z := mask 4.
Definition BLOCK_TAG : Z := 1.
Definition TABLE_TAG : Z := 3.
Definition CONTIG_TAG : Z := 1.
Definition TABLE_ADDR_LEN : Z := 52.
Definition TABLE_ADDR_ALIGN : Z := 12.
Definition TABLE_ADDR_MASK : Z := mask_range TABLE_ADDR_LEN TABLE_ADDR_ALIGN.

(** Level 0 descriptors; the views of a descriptor are the descriptor itself. *)
Definition as_table (d : Z) : option Z :=
  if Z.land d TAG_MASK =? TABLE_TAG then Some d else None.
Definition as_block (d : Z) : option Z :=
  if Z.land d TAG_MASK =? BLOCK_TAG then Some d else None.
Definition block (gpi : GPIAccessType) : Z :=
  Z.lor BLOCK_TAG (Z.shiftl (Z.land (gpi_into gpi) GPI_MASK) 4).
Definition table (addr : Z) : outcome Z :=
  _ ← assert_ (Z.land addr TABLE_ADDR_MASK =? addr);
  mret (Z.lor TABLE_TAG (Z.land addr TABLE_ADDR_MASK)).
Definition table_address (d : Z) : Z := Z.land d TABLE_ADDR_MASK.

(** Level 1 descriptors. *)
Definition as_contig (d : Z) : option Z :=
  if Z.land d TAG_MASK =? CONTIG_TAG then Some d else None.
Definition contig (size : ContigSize) (gpi : GPIAccessType) : Z :=
  Z.lor (Z.lor CONTIG_TAG (Z.shiftl (Z.land (contig_size_into size) CONTIG_SIZE_MASK) 8))
    (Z.shiftl (Z.land (gpi_into gpi) GPI_MASK) 4).
Definition as_granule (d : Z) : option Z :=
  match gpi_try_from (Z.land d GPI_MASK) with Some _ => Some d | None => None end.

(** [GranuleDescriptorRef::gpi] and [GranuleDescriptorRefMut::set_gpi]. *)
Definition granule_gpi (d : Z) (idx : Z) : outcome (option GPIAccessType) :=
  _ ← assert_ (idx <? 16);
  let start := idx * 4 in
  mret (gpi_try_from (Z.land (Z.shiftr d start) 0xF)).
Definition set_gpi (d : Z) (idx : Z) (value : GPIAccessType) : outcome Z :=
  _ ← assert_ (idx <? 16);
  let start := idx * 4 in
  mret (Z.lor (Z.ldiff d (Z.shiftl 0xF start))
          (Z.shiftl (Z.land (gpi_into value) 0xF) start)).

Fixpoint granule_loop (i : Z) (gpis : list GPIAccessType) (d : Z) : outcome Z :=
  match gpis with
  | [] => mret d
  | gpi :: gpis => d ← set_gpi d i gpi; granule_loop (i + 1) gpis d
  end.
Definition granule (gpis : list GPIAccessType) : outcome Z := granule_loop 0 gpis 0.

(** [(0..16).all(f)]: stops at the first index that fails. *)
Fixpoint all_granules (fuel : nat) (idx : Z) (p : option GPIAccessType → bool) (d : Z)
    : outcome bool :=
  match fuel with
  | O => mret true
  | S fuel =>
      g ← granule_gpi d idx;
      if p g then all_granules fuel (idx + 1) p d else mret false
  end.
Definition granule_is_empty (d : Z) : outcome bool :=
  all_granules 16 0 (λ g, match g with None => true | Some v => bool_decide (v = GpiNoAccess) end) d.
Definition granule_is_all (d : Z) : outcome bool :=
  all_granules 16 0 (λ g, match g with None => false | Some v => bool_decide (v = GpiAny) end) d.

(** ** Sizes *)
Inductive ProtectedPhysicalAddressSize : Type :=
| PpsGB4 | PpsGB64 | PpsTB1 | PpsTB4 | PpsTB16 | PpsTB256 | PpsPB4.
Definition pps_width (p : ProtectedPhysicalAddressSize) : Z :=
  match p with
  | PpsGB4 => 32 | PpsGB64 => 36 | PpsTB1 => 40 | PpsTB4 => 42
  | PpsTB16 => 44 | PpsTB256 => 48 | PpsPB4 => 52
  end.
Definition pps_size (p : ProtectedPhysicalAddressSize) : Z := Z.shiftl 1 (pps_width p).
Definition pps_try_from (v : Z) : option ProtectedPhysicalAddressSize :=
  if v =? 0 then Some PpsGB4 else if v =? 1 then Some PpsGB64
  else if v =? 2 then Some PpsTB1 else if v =? 3 then Some PpsTB4
  else if v =? 4 then Some PpsTB16 else if v =? 5 then Some PpsTB256
  else if v =? 6 then Some PpsPB4 else None.

Inductive Level0GptSize : Type := L0GB1 | L0GB16 | L0GB64 | L0GB512.
Definition l0gptsz_width (l : Level0GptSize) : Z :=
  match l with L0GB1 => 30 | L0GB16 => 34 | L0GB64 => 36 | L0GB512 => 39 end.
Definition l0gptsz_try_from (v : Z) : option Level0GptSize :=
  if v =? 0 then Some L0GB1 else if v =? 4 then Some L0GB16
  else if v =? 6 then Some L0GB64 else if v =? 9 then Some L0GB512 else None.

Inductive PhysicalGranuleSize : Type := KB4 | KB64 | KB16.
Definition pgs_width (p : PhysicalGranuleSize) : Z :=
  match p with KB4 => 12 | KB16 => 14 | KB64 => 16 end.
Definition pgs_size (p : PhysicalGranuleSize) : Z := Z.shiftl 1 (pgs_width p).
Definition pgs_try_from (v : Z) : option PhysicalGranuleSize :=
  if v =? 0 then Some KB4 else if v =? 1 then Some KB64
  else if v =? 2 then Some KB16 else None.

Record GranuleProtectionConfig : Type := mkGpc {
  pps : ProtectedPhysicalAddressSize;
  l0gptsz : Level0GptSize;
  pgs : PhysicalGranuleSize;
}.

Definition l0_resolve (c : GranuleProtectionConfig) (pa : Z) : Z :=
  Z.shiftr (Z.land pa (mask (pps_width (pps c)))) (l0gptsz_width (l0gptsz c)).
Definition l1_resolve (c : GranuleProtectionConfig) (pa : Z) : Z :=
  Z.shiftr (Z.land pa (mask (l0gptsz_width (l0gptsz c)))) (pgs_width (pgs c) + 4).
Definition granule_resolve (c : GranuleProtectionConfig) (pa : Z) : Z :=
  Z.land (Z.shiftr pa (pgs_width (pgs c))) 0xF.

(** ** Tables in memory *)
Inductive GptError : Type := GptNotInitialized | InvalidConfiguration | MisalignedL0Buffer.
Inductive GranuleError : Type := InvalidRequest | InvalidL0Entry | InvalidL1Entry.

Record GranuleProtection : Type := mkGpt {
  level0 : list Z;
  config : GranuleProtectionConfig;
}.
Definition gpt_pgs (g : GranuleProtection) : Z := pgs_size (pgs (config g)).

(** What the other observers of the machine see, in program order. *)
Inductive Event : Type :=
| WriteL1 (addr value : Z)
| DsbOshst
| DsbOsh
| TlbiRpalos (arg : Z)
| FlushToPopa (mte2 : bool) (addr len : Z).
Record Machine : Type := mkMachine { memory : Z → Z; trace : list Event }.

Definition event (e : Event) : M Machine unit :=
  modify (λ m, mkMachine (memory m) (trace m ++ [e])).

(** [to_table]: a slice of the memory, from the address of the descriptor. *)
Definition l1_len (c : GranuleProtectionConfig) : Z :=
  Z.shiftl 1 (l0gptsz_width (l0gptsz c) - (pgs_width (pgs c) + 4)).
Definition l1_addr (d idx : Z) : Z := table_address d + 8 * idx.
Definition l1_read (c : GranuleProtectionConfig) (mem : Z → Z) (d idx : Z) : outcome Z :=
  _ ← assert_ (idx <? l1_len c);
  mret (mem (l1_addr d idx)).
Definition l1_write (d idx v : Z) : M Machine unit :=
  modify (λ m, mkMachine (<[l1_addr d idx := v]> (memory m))
                 (trace m ++ [WriteL1 (l1_addr d idx) v])).

Definition TLB_SZ_4K : Z := 0.
Definition TLB_SZ_16K : Z := 1.
Definition TLB_SZ_64K : Z := 2.
Definition TLBI_ADDR_SHIFT : Z := 12.
Definition TLBI_SIZE_SHIFT : Z := 44.
Definition tlbi_rpalos_sz (sz addr : Z) : M Machine unit :=
  event (TlbiRpalos (Z.lor (Z.shiftr addr TLBI_ADDR_SHIFT) (Z.shiftl sz TLBI_SIZE_SHIFT))).
Definition tlbi_rpalos (addr size : Z) : M Machine unit :=
  if size =? 0x1000 then tlbi_rpalos_sz TLB_SZ_4K addr
  else if size =? 0x4000 then tlbi_rpalos_sz TLB_SZ_16K addr
  else if size =? 0x10000 then tlbi_rpalos_sz TLB_SZ_64K addr
  else crash.

(** [GranuleProtection::set]. *)
Definition gpt_set (g : GranuleProtection) (base_pa : Z) (gpi : GPIAccessType)
    : M Machine (result unit GranuleError) :=
  if pps_size (pps (config g)) <=? base_pa then mret (Err InvalidRequest)
  else
    let l0_idx := l0_resolve (config g) base_pa in
    l0_entry ← lift (arr_get (level0 g) (Z.to_nat l0_idx));
    match as_block l0_entry, as_table l0_entry with
    | Some _, _ => mret (Err InvalidRequest)
    | None, None => mret (Err InvalidL0Entry)
    | None, Some l0_entry =>
        let l1_idx := l1_resolve (config g) base_pa in
        m ← get;
        l1_desc ← lift (l1_read (config g) (memory m) l0_entry l1_idx);
        match as_contig l1_desc, as_granule l1_desc with
        | Some _, _ => mret (Err InvalidRequest)
        | None, None => mret (Err InvalidL1Entry)
        | None, Some gran =>
            let gran_idx := granule_resolve (config g) base_pa in
            gran ← lift (set_gpi gran gran_idx gpi);
            _ ← l1_write l0_entry l1_idx gran;
            _ ← event DsbOshst;
            _ ← tlbi_rpalos base_pa (gpt_pgs g);
            _ ← event DsbOsh;
            mret (Ok tt)
        end
    end.

(** [GranuleProtection::lookup]. *)
Definition gpt_lookup (g : GranuleProtection) (mem : Z → Z) (base_pa : Z)
    : outcome (result GPIAccessType GranuleError) :=
  if pps_size (pps (config g)) <=? base_pa then mret (Err InvalidRequest)
  else
    let l0_idx := l0_resolve (config g) base_pa in
    l0_entry ← arr_get (level0 g) (Z.to_nat l0_idx);
    match as_block l0_entry, as_table l0_entry with
    | Some b, _ => gpi ← field_gpi b; mret (Ok gpi)
    | None, None => mret (Err InvalidL0Entry)
    | None, Some l0_entry =>
        let l1_idx := l1_resolve (config g) base_pa in
        l1_desc ← l1_read (config g) mem l0_entry l1_idx;
        match as_contig l1_desc, as_granule l1_desc with
        | Some contig, _ => gpi ← field_gpi contig; mret (Ok gpi)
        | None, None => mret (Err InvalidL1Entry)
        | None, Some granule =>
            let gran_idx := granule_resolve (config g) base_pa in
            gpi ← granule_gpi granule gran_idx;
            mret (ok_or gpi InvalidL1Entry)
        end
    end.

(** ** Discovery of the tables programmed by an earlier boot stage

    The fields of [GPCCR_EL3] and [GPTBR_EL3], as the register crate reads
    them; the words of memory are read at the address in [GPTBR_EL3]. *)
Record GpcRegs : Type := mkGpcRegs {
  gpccr_gpc : bool;
  gpccr_pps : Z;
  gpccr_l0gptsz : Z;
  gpccr_pgs : Z;
  gptbr_baddr : Z;
}.

Definition l0_slice (mem : Z → Z) (base : Z) (n : nat) : list Z :=
  (λ i : nat, mem (base + 8 * Z.of_nat i)) <$> seq 0 n.

Definition discover (regs : GpcRegs) (mem : Z → Z) : outcome (result GranuleProtection GptError) :=
  if negb (gpccr_gpc regs) then mret (Err GptNotInitialized)
  else
    match pps_try_from (gpccr_pps regs), l0gptsz_try_from (gpccr_l0gptsz regs),
          pgs_try_from (gpccr_pgs regs) with
    | Some pps, Some l0gptsz, Some pgs =>
        let config := mkGpc pps l0gptsz pgs in
        if pps_width pps <? l0gptsz_width l0gptsz then mret (Err InvalidConfiguration)
        else
          let len := Z.shiftl 1 (pps_width pps - l0gptsz_width l0gptsz) in
          mret (Ok (mkGpt (l0_slice mem (Z.shiftl (gptbr_baddr regs) 12) (Z.to_nat len)) config))
    | _, _, _ => mret (Err InvalidConfiguration)
    end.
