(* ===== verification/Rmm.v ===== *)
(** * The RMM dispatcher

    [src/services/rmmd.rs] and [src/services/rmmd/svc.rs]: the calls between EL3
    and the Realm Management Monitor, the delegation of granules to the Realm
    world, the attestation calls, and the boot status of the RMM.  Attestation is
    the platform's, a parameter; the cache maintenance of [src/pagetable.rs] is an
    event of the machine. *)

From Stdlib Require Import ZArith Lia.
From stdpp Require Import base list numbers option functions.
From S2P Require Import Prelude Smccc Gpt.
Open Scope rust_scope.
Open Scope Z_scope.

(** ** The calls, [rmmd/svc.rs] *)
Inductive RmmError : Type :=
| UnrecognisedFunctionId (fid : Z)
| InvalidEccCurve (v : Z)
| InvalidEl3TokenSignOpcode (v : Z)
| InvalidMecRefreshReason (v : Z).

Inductive RmmCommandReturnCode : Type :=
| RmmOk | RmmUnknown | RmmBadAddress | RmmBadPas | RmmNoMemory | RmmInvalidValue | RmmAgain.
Definition rmm_code (c : RmmCommandReturnCode) : Z :=
  match c with
  | RmmOk => 0 | RmmUnknown => -1 | RmmBadAddress => -2 | RmmBadPas => -3
  | RmmNoMemory => -4 | RmmInvalidValue => -5 | RmmAgain => -6
  end.
(** The cast to [u64] extends the sign. *)
Definition rmm_code_into_u64 (c : RmmCommandReturnCode) : Z := as_u64 (rmm_code c).

Inductive EccCurve : Type := EccSecp384r1.
Definition ecc_try_from (v : Z) : result EccCurve RmmError :=
  if v =? 0 then Ok EccSecp384r1 else Err (InvalidEccCurve v).
Inductive El3TokenSignOpcode : Type := SignPush | SignPull | SignGetRak.
Definition opcode_try_from (v : Z) : result El3TokenSignOpcode RmmError :=
  if v =? 1 then Ok SignPush else if v =? 2 then Ok SignPull
  else if v =? 3 then Ok SignGetRak else Err (InvalidEl3TokenSignOpcode v).
Inductive MecRefreshReason : Type := RealmCreation | RealmDestruction.
Definition reason_try_from (v : Z) : result MecRefreshReason RmmError :=
  if v =? 0 then Ok RealmCreation else if v =? 1 then Ok RealmDestruction
  else Err (InvalidMecRefreshReason v).

Record StreamSelector : Type := mkStream {
  keyset : bool; dir : bool; substream : Z; stream_id : Z;
}.
Definition stream_from (v : Z) : StreamSelector :=
  mkStream (negb (Z.land v (Z.shiftl 1 12) =? 0)) (negb (Z.land v (Z.shiftl 1 11) =? 0))
    (as_u8 (Z.land (Z.shiftr v 8) 7)) (as_u8 v).

Inductive RmmFuncId : Type :=
| FidRmiReqComplete | FidGtsiDelegate | FidGtsiUndelegate | FidAttestGetRealmKey
| FidAttestGetPlatToken | FidEl3Features | FidEl3TokenSign | FidMecRefresh | FidIdeKeyProg
| FidIdeKeySetGo | FidIdeKeySetStop | FidIdeKmPullResponse | FidReserveMemory.
Definition rmm_fid_try_from (v : Z) : result RmmFuncId RmmError :=
  if v =? 0xC400018F then Ok FidRmiReqComplete
  else if v =? 0xC40001B0 then Ok FidGtsiDelegate
  else if v =? 0xC40001B1 then Ok FidGtsiUndelegate
  else if v =? 0xC40001B2 then Ok FidAttestGetRealmKey
  else if v =? 0xC40001B3 then Ok FidAttestGetPlatToken
  else if v =? 0xC40001B4 then Ok FidEl3Features
  else if v =? 0xC40001B5 then Ok FidEl3TokenSign
  else if v =? 0xC40001B6 then Ok FidMecRefresh
  else if v =? 0xC40001B7 then Ok FidIdeKeyProg
  else if v =? 0xC40001B8 then Ok FidIdeKeySetGo
  else if v =? 0xC40001B9 then Ok FidIdeKeySetStop
  else if v =? 0xC40001BA then Ok FidIdeKmPullResponse
  else if v =? 0xC40001BB then Ok FidReserveMemory
  else Err (UnrecognisedFunctionId v).

Inductive RmmCall : Type :=
| RmiReqComplete (regs : list Z)
| GtsiDelegate (base_pa : Z)
| GtsiUndelegate (base_pa : Z)
| AttestGetRealmKey (buf_pa buf_size : Z) (ecc_curve : EccCurve)
| AttestGetPlatToken (buf_pa buf_size c_size : Z)
| El3Features (feat_reg_idx : Z)
| El3TokenSign (opcode : El3TokenSignOpcode) (buf_pa buf_size : Z) (ecc_curve : EccCurve)
| MecRefresh (mecid : Z) (reason : MecRefreshReason)
| IdeKeyProg (ecam_address rp_id : Z) (stream : StreamSelector) (keq_qw ifv_qw : list Z)
    (request_id cookie : Z)
| IdeKeySetGo (ecam_address rp_id : Z) (stream : StreamSelector) (request_id cookie : Z)
| IdeKeySetStop (ecam_address rp_id : Z) (stream : StreamSelector) (request_id cookie : Z)
| IdeKmPullResponse (ecam_address rp_id : Z)
| ReserveMemory (size alignment : Z) (local_cpu : bool).

(** [RmmCall::from_regs]; a missing register panics. *)
Definition from_regs (regs : list Z) : outcome (result RmmCall RmmError) :=
  let reg i := arr_get regs i in
  x0 ← reg 0%nat;
  fid ←! Done (rmm_fid_try_from (as_u32 x0));
  match fid with
  | FidRmiReqComplete => r ← slice regs 1 7; mret (Ok (RmiReqComplete r))
  | FidGtsiDelegate => base_pa ← reg 1%nat; mret (Ok (GtsiDelegate base_pa))
  | FidGtsiUndelegate => base_pa ← reg 1%nat; mret (Ok (GtsiUndelegate base_pa))
  | FidAttestGetRealmKey =>
      buf_pa ← reg 1%nat; buf_size ← reg 2%nat; c ← reg 3%nat;
      curve ←! Done (ecc_try_from c);
      mret (Ok (AttestGetRealmKey buf_pa buf_size curve))
  | FidAttestGetPlatToken =>
      buf_pa ← reg 1%nat; buf_size ← reg 2%nat; c_size ← reg 3%nat;
      mret (Ok (AttestGetPlatToken buf_pa buf_size c_size))
  | FidEl3Features => i ← reg 1%nat; mret (Ok (El3Features i))
  | FidEl3TokenSign =>
      o ← reg 1%nat;
      opcode ←! Done (opcode_try_from o);
      buf_pa ← reg 2%nat; buf_size ← reg 3%nat; c ← reg 4%nat;
      curve ←! Done (ecc_try_from c);
      mret (Ok (El3TokenSign opcode buf_pa buf_size curve))
  | FidMecRefresh =>
      x1 ← reg 1%nat;
      reason ←! Done (reason_try_from (Z.land x1 1));
      mret (Ok (MecRefresh (as_u16 (Z.shiftr x1 32)) reason))
  | FidIdeKeyProg =>
      e ← reg 1%nat; rp ← reg 2%nat; st ← reg 3%nat;
      k0 ← reg 4%nat; k1 ← reg 5%nat; k2 ← reg 6%nat; k3 ← reg 7%nat;
      i0 ← reg 8%nat; i1 ← reg 9%nat; rq ← reg 10%nat; ck ← reg 11%nat;
      mret (Ok (IdeKeyProg e rp (stream_from st) [k0; k1; k2; k3] [i0; i1] rq ck))
  | FidIdeKeySetGo =>
      e ← reg 1%nat; rp ← reg 2%nat; st ← reg 3%nat; rq ← reg 4%nat; ck ← reg 5%nat;
      mret (Ok (IdeKeySetGo e rp (stream_from st) rq ck))
  | FidIdeKeySetStop =>
      e ← reg 1%nat; rp ← reg 2%nat; st ← reg 3%nat; rq ← reg 4%nat; ck ← reg 5%nat;
      mret (Ok (IdeKeySetStop e rp (stream_from st) rq ck))
  | FidIdeKmPullResponse =>
      e ← reg 1%nat; rp ← reg 2%nat; mret (Ok (IdeKmPullResponse e rp))
  | FidReserveMemory =>
      size ← reg 1%nat; x2 ← reg 2%nat;
      mret (Ok (ReserveMemory size (as_u8 (Z.shiftr x2 56)) (Z.land x2 1 =? 1)))
  end.

(** The responses: [derive_setfrom!] for a struct with the given fields. *)
Definition set_from_rmm_code (c : RmmCommandReturnCode) (r : SmcReturn) : SmcReturn :=
  set_from_u64 (rmm_code_into_u64 c) r.
Definition set_from_response (fields : list Z) (r : SmcReturn) : SmcReturn :=
  set_args (rmm_code_into_u64 RmmOk :: fields) r.

(** ** Cache maintenance, [src/pagetable.rs] *)
Inductive PhysicalAddressSpace : Type := PasSecure | PasNonSecure | PasRoot | PasRealm.
Definition PAS_SHIFT : Z := 62.
Definition pas_into (p : PhysicalAddressSpace) : Z :=
  Z.shiftl (match p with PasSecure => 0 | PasNonSecure => 1 | PasRoot => 2 | PasRealm => 3 end)
    PAS_SHIFT.
Definition pas_try_from (g : GPIAccessType) : option PhysicalAddressSpace :=
  match g with
  | GpiSecure => Some PasSecure
  | GpiNonSecure => Some PasNonSecure
  | GpiRoot => Some PasRoot
  | GpiRealm => Some PasRealm
  | GpiNoAccess | GpiAny => None
  end.

Section Flush.
(** [mte2_is_present], read from an identification register. *)
Context (mte2 : bool).
(** The error is only ever mapped to [BadAddress]; [false] stands for it. *)
Definition flush_dcache_to_popa_range (addr len : Z) (gpi : GPIAccessType) : M Machine bool :=
  if negb (Z.land addr 0xFF00000000000000 =? 0) then mret false
  else
    match pas_try_from gpi with
    | None => mret false
    | Some bits =>
        let addr_masked := Z.lor addr (pas_into bits) in
        _ ← event (FlushToPopa mte2 addr_masked len);
        mret true
    end.
End Flush.

(** ** The dispatcher, [rmmd.rs] *)
Definition RMM_BOOT_VERSION : Z := 0x5.
Definition RMM_SHARED_BUFFER_SIZE : Z := 0x1000.
Definition RMM_BOOT_COMPLETE : Z := 0xC40001CF.
Definition VALID_HASH_SIZES : list Z := [32; 48; 64].
Definition MAX_HASH_SIZE : nat := 64.

Inductive RmmBootState : Type := BootUnknown | ColdBootDone | BootError.
Global Instance RmmBootState_eq_dec : EqDecision RmmBootState.
Proof. solve_decision. Defined.

(** [RmiFuncId::try_from(fid).is_ok()]. *)
Definition rmi_fids : list Z :=
  [0xC4000153; 0xC4000154; 0xC4000155; 0xC4000165; 0xC4000151; 0xC4000152; 0xC4000164;
   0xC4000157; 0xC4000158; 0xC4000159; 0xC4000167; 0xC400015A; 0xC400015B; 0xC400015C;
   0xC400015D; 0xC400015E; 0xC4000166; 0xC4000168; 0xC400015F; 0xC4000161; 0xC4000169;
   0xC4000162; 0xC4000150].
Definition is_rmi_fid (fid : Z) : bool := existsb (Z.eqb fid) rmi_fids.

(** What the service is built on: the shared buffer and the platform's
    attestation, which reads and writes a part of the buffer. *)
Record RmmPlatform (P : Type) : Type := mkRmmPlatform {
  RMM_SHARED_BUFFER_START : Z;
  CORE_COUNT : nat;
  read_attestation_key : list Z → EccCurve → M P (result Z RmmCommandReturnCode * list Z);
  read_attestation_token :
    list Z → list Z → Z → M P (result (Z * Z) RmmCommandReturnCode * list Z);
}.
Arguments mkRmmPlatform {P}.
Arguments RMM_SHARED_BUFFER_START {P}.
Arguments CORE_COUNT {P}.
Arguments read_attestation_key {P}.
Arguments read_attestation_token {P}.

Record RmmdState (P : Type) : Type := mkRmmd {
  machine : Machine;
  activation_token : list (option Z);
  attestation_token_read_index : Z;
  rmm_boot_state : RmmBootState;
  shared_buffer : list Z;
  rmm_plat : P;
}.
Arguments mkRmmd {P}.
Arguments machine {P}.
Arguments activation_token {P}.
Arguments attestation_token_read_index {P}.
Arguments rmm_boot_state {P}.
Arguments shared_buffer {P}.
Arguments rmm_plat {P}.

(** [x?] on a [Result] whose error is another one than the function's. *)
Definition or_err {S A B E} (b : bool) (e : E) (k : M S (result (A * B) E)) : M S (result (A * B) E) :=
  if b then k else mret (Err e).

Section Rmmd.
Context {P : Type} (plat : RmmPlatform P).
(** The GPT found at boot, the cache enable bit of [SCTLR_EL3], the presence of
    memory tagging, and the index of the calling core. *)
Context (gpt : option GranuleProtection) (sctlr_c mte2 : bool) (core : nat).
Local Abbreviation St := (RmmdState P).
Local Abbreviation Res := (result (World * SmcReturn) RmmCommandReturnCode).

(** The shared buffer holds the manifest the platform prepared. *)
Definition rmmd_new (m : Machine) (buf : list Z) (p : P) : St :=
  mkRmmd m (replicate (CORE_COUNT plat) None) 0 BootUnknown buf p.

Definition with_machine (s : St) (m : Machine) : St :=
  mkRmmd m (activation_token s) (attestation_token_read_index s)
    (rmm_boot_state s) (shared_buffer s) (rmm_plat s).
Definition on_machine {A} (f : M Machine A) : M St A := λ s,
  match f (machine s) with
  | Ret a m => Ret a (with_machine s m)
  | Halt m => Halt (with_machine s m)
  | Crash => Crash
  end.
Definition on_plat {A} (f : M P A) : M St A := λ s,
  let upd p := mkRmmd (machine s) (activation_token s) (attestation_token_read_index s)
                 (rmm_boot_state s) (shared_buffer s) p in
  match f (rmm_plat s) with
  | Ret a p => Ret a (upd p)
  | Halt p => Halt (upd p)
  | Crash => Crash
  end.
Definition set_token (t : list (option Z)) : M St unit := modify (λ s,
  mkRmmd (machine s) t (attestation_token_read_index s) (rmm_boot_state s)
    (shared_buffer s) (rmm_plat s)).
Definition set_read_index (i : Z) : M St unit := modify (λ s,
  mkRmmd (machine s) (activation_token s) i (rmm_boot_state s) (shared_buffer s) (rmm_plat s)).
Definition set_boot_state (b : RmmBootState) : M St unit := modify (λ s,
  mkRmmd (machine s) (activation_token s) (attestation_token_read_index s) b
    (shared_buffer s) (rmm_plat s)).
Definition set_shared_buffer (buf : list Z) : M St unit := modify (λ s,
  mkRmmd (machine s) (activation_token s) (attestation_token_read_index s)
    (rmm_boot_state s) buf (rmm_plat s)).

Definition boot_success (s : St) : bool := bool_decide (rmm_boot_state s = ColdBootDone).
Definition boot_failure (s : St) : bool := bool_decide (rmm_boot_state s = BootError).
(** A compare and exchange; its result is ignored. *)
Definition set_boot_success : M St unit :=
  s ← get;
  if decide (rmm_boot_state s = BootUnknown) then set_boot_state ColdBootDone else mret tt.
Definition set_boot_failure : M St unit := set_boot_state BootError.

(** [as i32]. *)
Definition as_i32 (x : Z) : Z := let v := as_u32 x in if v <? 2 ^ 31 then v else v - 2 ^ 32.

Definition handle_boot_complete (regs : SmcReturn) : M St (World * SmcReturn) :=
  x1 ← lift (arr_get (values regs) 1);
  let ret := as_i32 x1 in
  if negb (ret =? 0) then _ ← set_boot_failure; mret (NonSecure, regs)
  else
    s ← get;
    state ← lift (arr_get (activation_token s) core);
    match state with
    | None =>
        token ← lift (arr_get (values regs) 2);
        t ← lift (arr_set (activation_token s) core (Some token));
        _ ← set_token t;
        _ ← set_boot_success;
        mret (NonSecure, set_from_i32 ret regs)
    | Some _ => mret (Realm, set_from_i32 NOT_SUPPORTED regs)
    end.

Definition handle_wake_from_cpu_suspend : M St (list Z) :=
  s ← get;
  state ← lift (arr_get (activation_token s) core);
  mret [Z.of_nat core; default 0 state; 0; 0].

Definition entrypoint_args (s : St) : list Z :=
  if boot_success s then [Z.of_nat core; 0; 0; 0; 0; 0; 0; 0]
  else [Z.of_nat core; RMM_BOOT_VERSION; Z.of_nat (CORE_COUNT plat); RMM_SHARED_BUFFER_START plat;
        0; 0; 0; 0].

(** [check_shared_buffer_range]. *)
Definition in_shared_buffer (a : Z) : bool :=
  (RMM_SHARED_BUFFER_START plat <=? a) &&
  (a <? RMM_SHARED_BUFFER_START plat + RMM_SHARED_BUFFER_SIZE).
Definition check_shared_buffer_range (buf_pa buf_size : Z) : option RmmCommandReturnCode :=
  let last :=
    if buf_pa + buf_size <? 2 ^ 64 then
      if 1 <=? buf_pa + buf_size then Some (buf_pa + buf_size - 1) else None
    else None in
  if negb (in_shared_buffer buf_pa) then Some RmmBadAddress
  else if negb (match last with Some e => in_shared_buffer e | None => false end)
  then Some RmmInvalidValue
  else None.

(** [get_shared_buffer_slice], and the write back of what the borrower of the
    slice stored in it. *)
Definition shared_off (buf_pa : Z) : nat := Z.to_nat (buf_pa - RMM_SHARED_BUFFER_START plat).
Definition read_shared (buf_pa len : Z) : M St (list Z) :=
  s ← get;
  lift (slice (shared_buffer s) (shared_off buf_pa) (shared_off buf_pa + Z.to_nat len)%nat).
Definition write_shared (buf_pa : Z) (bs : list Z) : M St unit :=
  s ← get;
  set_shared_buffer (take (shared_off buf_pa) (shared_buffer s) ++ bs ++
                     drop (shared_off buf_pa + length bs) (shared_buffer s)).

(** The GPT requests shared by both calls: a table that is not well formed
    panics. *)
Definition gpt_request {A} (r : result A GranuleError) (regs : SmcReturn) (k : A → M St Res)
    : M St Res :=
  match r with
  | Ok a => k a
  | Err InvalidRequest => mret (Ok (Realm, set_from_rmm_code RmmBadAddress regs))
  | Err (InvalidL0Entry | InvalidL1Entry) => crash
  end.
Definition lookup_m (g : GranuleProtection) (pa : Z) : M St (result GPIAccessType GranuleError) :=
  s ← get; lift (gpt_lookup g (memory (machine s)) pa).
Definition flush_or_bad_address (pa len : Z) (gpi : GPIAccessType) (k : M St Res) : M St Res :=
  b ← on_machine (flush_dcache_to_popa_range mte2 pa len gpi);
  or_err b RmmBadAddress k.

Definition gtsi_delegate (base_pa : Z) (regs : SmcReturn) : M St Res :=
  g ← lift (unwrap gpt);
  let pgs := gpt_pgs g in
  if negb (base_pa mod pgs =? 0) then mret (Ok (Realm, set_from_rmm_code RmmUnknown regs))
  else
    _ ← lift (assert_ sctlr_c);
    r ← lookup_m g base_pa;
    gpt_request r regs (λ gpi,
      if decide (gpi ≠ GpiNonSecure) then mret (Ok (Realm, set_from_rmm_code RmmBadPas regs))
      else
        flush_or_bad_address base_pa pgs GpiRealm (
        r ← on_machine (gpt_set g base_pa GpiRealm);
        gpt_request r regs (λ _,
        flush_or_bad_address base_pa pgs GpiNonSecure (
        mret (Ok (Realm, set_from_rmm_code RmmOk regs)))))).

Definition gtsi_undelegate (base_pa : Z) (regs : SmcReturn) : M St Res :=
  g ← lift (unwrap gpt);
  let pgs := gpt_pgs g in
  if negb (base_pa mod pgs =? 0) then mret (Ok (Realm, set_from_rmm_code RmmUnknown regs))
  else
    _ ← lift (assert_ sctlr_c);
    r ← lookup_m g base_pa;
    gpt_request r regs (λ gpi,
      if decide (gpi ≠ GpiRealm) then mret (Ok (Realm, set_from_rmm_code RmmBadPas regs))
      else
        r ← on_machine (gpt_set g base_pa GpiNoAccess);
        gpt_request r regs (λ _,
        flush_or_bad_address base_pa pgs GpiRealm (
        _ ← on_machine (event DsbOsh);
        flush_or_bad_address base_pa pgs GpiNonSecure (
        _ ← on_machine (event DsbOsh);
        r ← on_machine (gpt_set g base_pa GpiNonSecure);
        gpt_request r regs (λ _,
        mret (Ok (Realm, set_from_rmm_code RmmOk regs))))))).

Definition attest_get_realm_key (buf_pa buf_size : Z) (curve : EccCurve) (regs : SmcReturn)
    : M St Res :=
  match check_shared_buffer_range buf_pa buf_size with
  | Some e => mret (Err e)
  | None =>
      buf ← read_shared buf_pa buf_size;
      '(r, buf) ← on_plat (read_attestation_key plat buf curve);
      _ ← write_shared buf_pa buf;
      match r with
      | Err e => mret (Err e)
      | Ok key_size => mret (Ok (Realm, set_from_response [key_size] regs))
      end
  end.

Definition attest_get_plat_token (buf_pa buf_size c_size : Z) (regs : SmcReturn) : M St Res :=
  s ← get;
  let idx := attestation_token_read_index s in
  let is_first_chunk := idx =? 0 in
  if (is_first_chunk && negb (existsb (Z.eqb c_size) VALID_HASH_SIZES)) ||
     (negb is_first_chunk && negb (c_size =? 0))
  then mret (Err RmmInvalidValue)
  else
    match check_shared_buffer_range buf_pa (Z.max buf_size c_size) with
    | Some e => mret (Err e)
    | None =>
        buf ← read_shared buf_pa (Z.max buf_size c_size);
        hash ← lift (slice buf 0 (Z.to_nat c_size));
        _ ← lift (assert_ (bool_decide (Z.to_nat c_size ≤ MAX_HASH_SIZE)%nat));
        out ← lift (slice buf 0 (Z.to_nat buf_size));
        '(r, out) ← on_plat (read_attestation_token plat out hash idx);
        _ ← write_shared buf_pa out;
        match r with
        | Err e => mret (Err e)
        | Ok (size, rem) =>
            _ ← (if 0 <? rem then
                   if idx + size <? 2 ^ 64 then set_read_index (idx + size) else crash
                 else set_read_index 0);
            mret (Ok (Realm, set_from_response [size; rem] regs))
        end
    end.

(** [regs.values_mut()[..6].copy_from_slice(..); regs.values_mut()[6..].fill(0)]. *)
Definition req_complete (req_regs : list Z) (regs : SmcReturn) : outcome SmcReturn :=
  _ ← assert_ (bool_decide (6 ≤ used regs)%nat);
  mret (mkSmcReturn (used regs)
    (req_regs ++ replicate (used regs - 6) 0 ++ drop (used regs) (all_values regs))).

Definition try_handle_realm_smc (regs : SmcReturn) : M St Res :=
  x0 ← lift (arr_get (values regs) 0);
  let function := clear_sve_hint (as_u32 x0) in
  if function =? RMM_BOOT_COMPLETE then r ← handle_boot_complete regs; mret (Ok r)
  else
    c ← lift (from_regs (values regs));
    match c with
    | Err (UnrecognisedFunctionId _) => mret (Ok (Realm, set_from_i32 NOT_SUPPORTED regs))
    | Err _ => mret (Err RmmInvalidValue)
    | Ok command =>
        match command with
        | RmiReqComplete req_regs =>
            regs ← lift (req_complete req_regs regs); mret (Ok (NonSecure, regs))
        | GtsiDelegate base_pa => gtsi_delegate base_pa regs
        | GtsiUndelegate base_pa => gtsi_undelegate base_pa regs
        | AttestGetRealmKey buf_pa buf_size curve => attest_get_realm_key buf_pa buf_size curve regs
        | AttestGetPlatToken buf_pa buf_size c_size =>
            attest_get_plat_token buf_pa buf_size c_size regs
        | El3Features _ => mret (Ok (Realm, set_from_response [0] regs))
        | MecRefresh _ _ => mret (Ok (Realm, set_from_i32 NOT_SUPPORTED regs))
        | El3TokenSign _ _ _ _ | IdeKeyProg _ _ _ _ _ _ _ | IdeKeySetGo _ _ _ _ _
        | IdeKeySetStop _ _ _ _ _ | IdeKmPullResponse _ _ | ReserveMemory _ _ _ => crash
        end
    end.

Definition rmmd_handle_non_secure_smc (regs : SmcReturn) : M St (World * SmcReturn) :=
  x0 ← lift (arr_get (values regs) 0);
  s ← get;
  if is_rmi_fid (as_u32 x0) && boot_success s then mret (Realm, regs)
  else mret (NonSecure, set_from_i32 NOT_SUPPORTED regs).

Definition rmmd_handle_realm_smc (regs : SmcReturn) : M St (World * SmcReturn) :=
  s ← get;
  if boot_failure s then mret (NonSecure, set_from_i32 NOT_SUPPORTED regs)
  else
    r ← try_handle_realm_smc regs;
    match r with
    | Ok wr => mret wr
    | Err rec => mret (Realm, set_from_rmm_code rec regs)
    end.

Definition rmmd_service : Service St :=
  mkService (owns_range OEN_STANDARD_SECURE 0x0150 0x01CF)
    rmmd_handle_non_secure_smc (default_smc Secure) rmmd_handle_realm_smc.
End Rmmd.
