(* ===== verification/GptProofs.v ===== *)
(** * Lemmas on granule protection tables

    Fields of descriptors, the resolution of addresses as division with
    remainder, and how [gpt_lookup] and [gpt_set] go through a well-formed
    table. *)

From Stdlib Require Import ZArith Lia.
From stdpp Require Import base list numbers option functions.
From S2P Require Import Prelude Smccc Gpt.
Open Scope rust_scope.
Open Scope Z_scope.

(** ** Values of the fields *)
Lemma gpi_try_from_into g : gpi_try_from (gpi_into g) = Some g.
Proof. by destruct g. Qed.
Lemma gpi_try_from_Some v g : gpi_try_from v = Some g → v = gpi_into g.
Proof.
  unfold gpi_try_from. repeat case_match; intros; simplify_eq; by apply Z.eqb_eq.
Qed.
Lemma gpi_into_range g : 0 ≤ gpi_into g < 16.
Proof. by destruct g. Qed.
Lemma gpi_into_not_tag g : gpi_into g ≠ CONTIG_TAG.
Proof. by destruct g. Qed.

Lemma mask_ones n : mask n = Z.ones n.
Proof. unfold mask, Z.ones. rewrite Z.sub_1_r. reflexivity. Qed.

Lemma land_mask a n : 0 ≤ n → Z.land a (mask n) = a mod 2 ^ n.
Proof. intros Hn. by rewrite mask_ones, Z.land_ones. Qed.

(** The nibble at the index [i] of a descriptor. *)
Definition nibble (d i : Z) : Z := Z.land (Z.shiftr d (i * 4)) 0xF.

Lemma nibble_0 d : Z.land d GPI_MASK = nibble d 0.
Proof. unfold nibble. by rewrite Z.shiftr_0_r. Qed.

Lemma land_15_small v : 0 ≤ v < 16 → Z.land v 15 = v.
Proof. intros Hv. change 15 with (Z.ones 4). rewrite Z.land_ones by lia. by apply Z.mod_small. Qed.

(** Bits of [0xF << s]. *)
Lemma testbit_15_shift s n : 0 ≤ s → 0 ≤ n → Z.testbit (Z.shiftl 15 s) n = (s <=? n) && (n <? s + 4).
Proof.
  intros Hs Hn. rewrite Z.shiftl_spec by done. change 15 with (Z.ones 4).
  destruct (Z.leb_spec s n).
  - rewrite Z.testbit_ones_nonneg by lia. destruct (Z.ltb_spec (n - s) 4), (Z.ltb_spec n (s + 4)); lia.
  - by rewrite Z.testbit_neg_r by lia.
Qed.

(** Writing a nibble changes that nibble only. *)
Lemma nibble_update d i j v :
  0 ≤ i → 0 ≤ j → 0 ≤ v < 16 →
  nibble (Z.lor (Z.ldiff d (Z.shiftl 15 (i * 4))) (Z.shiftl v (i * 4))) j =
  if decide (i = j) then v else nibble d j.
Proof.
  intros Hi Hj Hv. unfold nibble. apply Z.bits_inj'. intros n Hn.
  rewrite Z.land_spec. destruct (decide (n < 4)) as [Hn4|Hn4].
  - change 15 with (Z.ones 4) at 2. rewrite Z.ones_spec_low, andb_true_r by lia.
    rewrite Z.shiftr_spec, Z.lor_spec, Z.ldiff_spec, testbit_15_shift by lia.
    rewrite Z.shiftl_spec by lia. case_decide as Hij.
    + subst j. rewrite (proj2 (Z.leb_le _ _)), (proj2 (Z.ltb_lt _ _)), andb_false_r by lia.
      simpl. f_equal. lia.
    + rewrite Z.land_spec, Z.shiftr_spec by lia.
      change 15 with (Z.ones 4). rewrite Z.ones_spec_low, andb_true_r by lia.
      replace ((i * 4 <=? n + j * 4) && (n + j * 4 <? i * 4 + 4)) with false.
      2: { symmetry. rewrite andb_false_iff, Z.leb_gt, Z.ltb_ge. lia. }
      rewrite andb_true_r. replace (Z.testbit v (n + j * 4 - i * 4)) with false; [apply orb_false_r|].
      destruct (decide (j < i)); [by rewrite Z.testbit_neg_r by lia|].
      symmetry. rewrite <-(land_15_small v) by done. rewrite Z.land_spec.
      change 15 with (Z.ones 4). rewrite Z.ones_spec_high by lia. apply andb_false_r.
  - change 15 with (Z.ones 4) at 2. rewrite Z.ones_spec_high, andb_false_r by lia.
    symmetry. case_decide.
    + rewrite <-(land_15_small v) by done. rewrite Z.land_spec.
      change 15 with (Z.ones 4). rewrite Z.ones_spec_high by lia. apply andb_false_r.
    + rewrite Z.land_spec. change 15 with (Z.ones 4). rewrite Z.ones_spec_high by lia.
      apply andb_false_r.
Qed.

(** ** Granules of a descriptor *)
Lemma granule_gpi_eq d i : i < 16 → granule_gpi d i = Done (gpi_try_from (nibble d i)).
Proof. intros Hi. unfold granule_gpi. by rewrite (proj2 (Z.ltb_lt _ _) Hi). Qed.

Lemma set_gpi_eq d i v :
  0 ≤ i < 16 → ∃ d', set_gpi d i v = Done d' ∧
    ∀ j, 0 ≤ j → nibble d' j = if decide (i = j) then gpi_into v else nibble d j.
Proof.
  intros Hi. unfold set_gpi. rewrite (proj2 (Z.ltb_lt _ _)) by lia. eexists. split; [done|].
  intros j Hj. pose proof (gpi_into_range v) as Hv. rewrite (land_15_small (gpi_into v)) by done.
  apply nibble_update; lia.
Qed.

Lemma as_granule_Some d d' : as_granule d = Some d' → d' = d ∧ ∃ g, nibble d 0 = gpi_into g.
Proof.
  unfold as_granule. rewrite nibble_0. destruct (gpi_try_from _) as [g|] eqn:Hg; [|done].
  intros [= <-]. split; [done|]. exists g. by apply gpi_try_from_Some.
Qed.
Lemma as_granule_intro d g : nibble d 0 = gpi_into g → as_granule d = Some d.
Proof. intros Hd. unfold as_granule. by rewrite nibble_0, Hd, gpi_try_from_into. Qed.
Lemma as_contig_granule d g : nibble d 0 = gpi_into g → as_contig d = None.
Proof.
  intros Hd. unfold as_contig. change TAG_MASK with GPI_MASK. rewrite nibble_0, Hd.
  rewrite (proj2 (Z.eqb_neq _ _)); [done|]. apply gpi_into_not_tag.
Qed.
Lemma as_table_Some d d' : as_table d = Some d' → d' = d ∧ as_block d = None.
Proof.
  unfold as_table, as_block. case_match eqn:Ht; [|done]. intros [= <-]. split; [done|].
  apply Z.eqb_eq in Ht. by rewrite Ht.
Qed.

(** ** Resolution of addresses *)
Section Resolve.
Context (c : GranuleProtectionConfig).
Local Abbreviation PG := (pgs_width (pgs c)).
Local Abbreviation L0 := (l0gptsz_width (l0gptsz c)).
Local Abbreviation PP := (pps_width (pps c)).

Lemma widths : 12 ≤ PG ≤ 16 ∧ 30 ≤ L0 ≤ 39 ∧ 32 ≤ PP ≤ 52.
Proof. destruct c as [[] [] []]; simpl; lia. Qed.

(** The number of the granule of an address. *)
Definition granule_of (pa : Z) : Z := pa / 2 ^ PG.

Lemma pps_size_pow : pps_size (pps c) = 2 ^ PP.
Proof. unfold pps_size. pose proof widths. by rewrite Z.shiftl_1_l. Qed.
Lemma pgs_size_pow : pgs_size (pgs c) = 2 ^ PG.
Proof. unfold pgs_size. by rewrite Z.shiftl_1_l. Qed.
Lemma l1_len_pow : l1_len c = 2 ^ (L0 - (PG + 4)).
Proof. unfold l1_len. by rewrite Z.shiftl_1_l. Qed.

Lemma l0_resolve_eq pa : 0 ≤ pa < 2 ^ PP → l0_resolve c pa = pa / 2 ^ L0.
Proof.
  intros Hpa. pose proof widths. unfold l0_resolve.
  rewrite land_mask, Z.shiftr_div_pow2, Z.mod_small by lia. done.
Qed.
Lemma l1_resolve_eq pa : l1_resolve c pa = pa mod 2 ^ L0 / 2 ^ (PG + 4).
Proof. pose proof widths. unfold l1_resolve. by rewrite land_mask, Z.shiftr_div_pow2 by lia. Qed.
Lemma granule_resolve_eq pa : granule_resolve c pa = granule_of pa mod 16.
Proof.
  pose proof widths. unfold granule_resolve, granule_of. change 0xF with (mask 4).
  by rewrite land_mask, Z.shiftr_div_pow2 by lia.
Qed.

(** The parts of a granule number. *)
Lemma resolve_granule pa :
  0 ≤ pa → pa / 2 ^ L0 = granule_of pa / 2 ^ (L0 - PG) ∧
  pa mod 2 ^ L0 / 2 ^ (PG + 4) = (granule_of pa / 16) mod 2 ^ (L0 - (PG + 4)).
Proof.
  intros Hpa. pose proof widths as (? & ? & ?). unfold granule_of. split.
  - rewrite Z.div_div by lia. rewrite <-Z.pow_add_r by lia. do 2 f_equal. lia.
  - change 16 with (2 ^ 4). rewrite Z.div_div by lia. rewrite <-Z.pow_add_r by lia.
    rewrite <-!Z.shiftr_div_pow2, <-!Z.land_ones by lia. apply Z.bits_inj'. intros n Hn.
    rewrite Z.land_spec, !Z.shiftr_spec, Z.land_spec by done. f_equal.
    rewrite !Z.testbit_ones_nonneg by lia.
    destruct (Z.ltb_spec (n + (PG + 4)) L0), (Z.ltb_spec n (L0 - (PG + 4))); lia.
Qed.

Lemma resolve_bounds pa :
  0 ≤ pa < 2 ^ PP → L0 ≤ PP →
  0 ≤ l0_resolve c pa < 2 ^ (PP - L0) ∧ 0 ≤ l1_resolve c pa < l1_len c ∧
  0 ≤ granule_resolve c pa < 16.
Proof.
  intros Hpa Hle. pose proof widths as (? & ? & ?).
  rewrite l0_resolve_eq, l1_resolve_eq, granule_resolve_eq, l1_len_pow by done.
  destruct (resolve_granule pa) as [_ ->]; [lia|]. repeat split.
  - apply Z.div_pos; lia.
  - apply Z.div_lt_upper_bound; [lia|]. rewrite <-Z.pow_add_r by lia.
    replace (L0 + (PP - L0)) with PP by lia. apply Hpa.
  - apply Z.mod_pos_bound. lia.
  - apply Z.mod_pos_bound. apply Z.pow_pos_nonneg; lia.
  - apply Z.mod_pos_bound. lia.
  - apply Z.mod_pos_bound. lia.
Qed.

(** The three indices determine the granule, and conversely. *)
Lemma resolve_inj pa pa' :
  0 ≤ pa < 2 ^ PP → 0 ≤ pa' < 2 ^ PP →
  l0_resolve c pa = l0_resolve c pa' → l1_resolve c pa = l1_resolve c pa' →
  granule_resolve c pa = granule_resolve c pa' → granule_of pa = granule_of pa'.
Proof.
  intros Hpa Hpa'. pose proof widths as (? & ? & ?).
  rewrite !l0_resolve_eq, !l1_resolve_eq, !granule_resolve_eq by done.
  destruct (resolve_granule pa) as [-> ->]; [lia|].
  destruct (resolve_granule pa') as [-> ->]; [lia|].
  replace (L0 - PG) with (4 + (L0 - (PG + 4))) by lia. rewrite Z.pow_add_r by lia.
  change (2 ^ 4) with 16. set (w := L0 - (PG + 4)).
  assert (0 < 2 ^ w) by (apply Z.pow_pos_nonneg; lia).
  rewrite <-!Z.div_div by lia. intros Hq Hr Hlow.
  pose proof (Z.div_mod (granule_of pa / 16) (2 ^ w)) as Ha.
  pose proof (Z.div_mod (granule_of pa' / 16) (2 ^ w)) as Ha'.
  rewrite Hq, Hr in Ha. pose proof (Z.div_mod (granule_of pa) 16).
  pose proof (Z.div_mod (granule_of pa') 16). lia.
Qed.

Lemma resolve_same pa pa' :
  0 ≤ pa < 2 ^ PP → 0 ≤ pa' < 2 ^ PP → granule_of pa = granule_of pa' →
  l0_resolve c pa = l0_resolve c pa' ∧ l1_resolve c pa = l1_resolve c pa' ∧
  granule_resolve c pa = granule_resolve c pa'.
Proof.
  intros Hpa Hpa' Hg. rewrite !l0_resolve_eq, !l1_resolve_eq, !granule_resolve_eq by done.
  destruct (resolve_granule pa) as [-> ->]; [lia|].
  destruct (resolve_granule pa') as [-> ->]; [lia|]. by rewrite Hg.
Qed.

(** Addresses of one granule are inside the protected space together. *)
Lemma granule_in_range pa pa' :
  0 ≤ pa → 0 ≤ pa' → granule_of pa = granule_of pa' → pa < 2 ^ PP → pa' < 2 ^ PP.
Proof.
  intros Hpa Hpa' Hg Hlt. pose proof widths as (? & ? & ?). unfold granule_of in Hg.
  assert (0 < 2 ^ PG) by (apply Z.pow_pos_nonneg; lia).
  assert (2 ^ PP = 2 ^ PG * 2 ^ (PP - PG)) as Hpow.
  { rewrite <-Z.pow_add_r by lia. f_equal. lia. }
  assert (pa' / 2 ^ PG < 2 ^ (PP - PG)) as Hq.
  { rewrite <-Hg. apply Z.div_lt_upper_bound; lia. }
  pose proof (Z.mul_succ_div_gt pa' (2 ^ PG)). nia.
Qed.
End Resolve.

(** ** Well-formed tables

    The level 0 table covers the protected space, and the level 1 tables it
    points to do not overlap. *)
Record gpt_ok (g : GranuleProtection) : Prop := mkGptOk {
  ok_sizes : l0gptsz_width (l0gptsz (config g)) ≤ pps_width (pps (config g));
  ok_level0 : Z.of_nat (length (level0 g)) =
    2 ^ (pps_width (pps (config g)) - l0gptsz_width (l0gptsz (config g)));
  ok_tables i j d e :
    level0 g !! i = Some d → level0 g !! j = Some e → i ≠ j →
    is_Some (as_table d) → is_Some (as_table e) →
    table_address d + 8 * l1_len (config g) ≤ table_address e ∨
    table_address e + 8 * l1_len (config g) ≤ table_address d;
}.

(** The entry of the level 0 table that covers an address, and the address of
    its level 1 descriptor. *)
Definition l0_entry (g : GranuleProtection) (pa : Z) : option Z :=
  level0 g !! Z.to_nat (l0_resolve (config g) pa).
Definition l1_entry_addr (g : GranuleProtection) (d pa : Z) : Z :=
  l1_addr d (l1_resolve (config g) pa).
Definition in_space (g : GranuleProtection) (pa : Z) : Prop :=
  0 ≤ pa < 2 ^ pps_width (pps (config g)).

Section Walk.
Context (g : GranuleProtection) (Hok : gpt_ok g).
Local Abbreviation c := (config g).
Implicit Types mem : Z → Z.

Lemma l0_entry_is_Some pa : in_space g pa → ∃ d, l0_entry g pa = Some d.
Proof.
  intros Hpa. apply lookup_lt_is_Some. pose proof (ok_sizes g Hok) as Hs.
  destruct (resolve_bounds c pa Hpa Hs) as ([? ?] & _). pose proof (ok_level0 g Hok). lia.
Qed.

Lemma in_space_dec pa : 0 ≤ pa →
  (in_space g pa ∧ (pps_size (pps c) <=? pa) = false) ∨
  (¬ in_space g pa ∧ (pps_size (pps c) <=? pa) = true).
Proof.
  intros Hpa. unfold in_space. rewrite pps_size_pow.
  destruct (Z.leb_spec (2 ^ pps_width (pps c)) pa); [right|left]; split; lia || done.
Qed.

Lemma l1_read_in mem d pa : in_space g pa →
  l1_read c mem d (l1_resolve c pa) = Done (mem (l1_entry_addr g d pa)).
Proof.
  intros Hpa. destruct (resolve_bounds c pa Hpa (ok_sizes g Hok)) as (_ & Hl1 & _).
  unfold l1_read. by rewrite (proj2 (Z.ltb_lt _ _)) by apply Hl1.
Qed.

(** The walk of [gpt_lookup] down to a granule descriptor. *)
Lemma gpt_lookup_granule mem pa d g0 :
  in_space g pa → l0_entry g pa = Some d → as_table d = Some d →
  nibble (mem (l1_entry_addr g d pa)) 0 = gpi_into g0 →
  gpt_lookup g mem pa =
    Done (ok_or (gpi_try_from (nibble (mem (l1_entry_addr g d pa)) (granule_resolve c pa)))
            InvalidL1Entry).
Proof.
  intros Hpa Hd Ht Hg0. destruct (in_space_dec pa) as [[_ Hlt]|[? _]]; [apply Hpa| |done].
  destruct (resolve_bounds c pa Hpa (ok_sizes g Hok)) as (_ & _ & Hgr).
  unfold gpt_lookup. rewrite Hlt. unfold arr_get. fold (l0_entry g pa). rewrite Hd. simpl.
  destruct (as_table_Some d d Ht) as [_ Hb]. rewrite Hb, Ht, l1_read_in by done. simpl.
  rewrite (as_contig_granule _ g0), (as_granule_intro _ g0) by done.
  rewrite granule_gpi_eq by lia. done.
Qed.

(** [gpt_lookup] reads no other word of memory than the level 1 descriptor. *)
Lemma gpt_lookup_ext mem mem' pa :
  0 ≤ pa →
  (∀ d, in_space g pa → l0_entry g pa = Some d → as_table d = Some d →
     mem (l1_entry_addr g d pa) = mem' (l1_entry_addr g d pa)) →
  gpt_lookup g mem pa = gpt_lookup g mem' pa.
Proof.
  intros Hpa Heq. unfold gpt_lookup.
  destruct (in_space_dec pa Hpa) as [[Hin ->]|[_ ->]]; [|done].
  destruct (l0_entry_is_Some pa Hin) as [d Hd]. unfold arr_get. fold (l0_entry g pa).
  rewrite Hd. simpl. destruct (as_block d); [done|]. destruct (as_table d) as [d'|] eqn:Ht; [|done].
  destruct (as_table_Some d d' Ht) as [-> _]. rewrite !l1_read_in by done. by rewrite (Heq d).
Qed.

(** The result of a lookup is the same for all addresses of a granule. *)
Lemma gpt_lookup_same_granule mem pa pa' :
  0 ≤ pa → 0 ≤ pa' → granule_of c pa = granule_of c pa' →
  gpt_lookup g mem pa = gpt_lookup g mem pa'.
Proof.
  intros Hpa Hpa' Hg. pose proof (granule_in_range c pa pa' Hpa Hpa' Hg) as H1.
  pose proof (granule_in_range c pa' pa Hpa' Hpa (eq_sym Hg)) as H2. unfold gpt_lookup.
  destruct (in_space_dec pa Hpa) as [[Hin ->]|[Hn ->]],
    (in_space_dec pa' Hpa') as [[Hin' ->]|[Hn' ->]]; try done.
  - destruct (resolve_same c pa pa' Hin Hin' Hg) as (-> & -> & ->). done.
  - unfold in_space in *. lia.
  - unfold in_space in *. lia.
Qed.

(** Two level 1 descriptors are the same word only for one entry of each level. *)
Lemma l1_entry_addr_inj pa pa' d d' :
  in_space g pa → in_space g pa' → l0_entry g pa = Some d → l0_entry g pa' = Some d' →
  as_table d = Some d → as_table d' = Some d' →
  l1_entry_addr g d pa = l1_entry_addr g d' pa' →
  l0_resolve c pa = l0_resolve c pa' ∧ l1_resolve c pa = l1_resolve c pa' ∧ d = d'.
Proof.
  intros Hpa Hpa' Hd Hd' Ht Ht' Heq. unfold l1_entry_addr, l1_addr in Heq.
  destruct (resolve_bounds c pa Hpa (ok_sizes g Hok)) as (Hl & Hb & _).
  destruct (resolve_bounds c pa' Hpa' (ok_sizes g Hok)) as (Hl' & Hb' & _).
  destruct (decide (l0_resolve c pa = l0_resolve c pa')) as [He|Hne].
  - unfold l0_entry in *. rewrite He in Hd. assert (d = d') as -> by congruence.
    split; [done|]. split; [lia|done].
  - exfalso. destruct (ok_tables g Hok (Z.to_nat (l0_resolve c pa)) (Z.to_nat (l0_resolve c pa'))
      d d' Hd Hd'); [lia|done|done|lia|lia].
Qed.

(** The operand that invalidates the granule of an address. *)
Definition tlbi_arg (pa : Z) : Z :=
  Z.lor (Z.shiftr pa 12) (Z.shiftl (match pgs c with KB4 => 0 | KB16 => 1 | KB64 => 2 end) 44).

Lemma tlbi_rpalos_gpt pa m :
  tlbi_rpalos pa (gpt_pgs g) m =
  Ret tt (mkMachine (memory m) (trace m ++ [TlbiRpalos (tlbi_arg pa)])).
Proof. unfold gpt_pgs, tlbi_rpalos, tlbi_arg. by destruct (pgs c). Qed.

(** [gpt_set] fails without an effect, or updates one nibble of one level 1
    descriptor and makes it visible. *)
Inductive set_outcome (pa : Z) (v : GPIAccessType) (m : Machine) :
    run Machine (result unit GranuleError) → Prop :=
| set_out_of_range : ¬ in_space g pa → set_outcome pa v m (Ret (Err InvalidRequest) m)
| set_block d : in_space g pa → l0_entry g pa = Some d → is_Some (as_block d) →
    set_outcome pa v m (Ret (Err InvalidRequest) m)
| set_invalid_l0 d : in_space g pa → l0_entry g pa = Some d → as_block d = None → as_table d = None →
    set_outcome pa v m (Ret (Err InvalidL0Entry) m)
| set_contig d : in_space g pa → l0_entry g pa = Some d → as_table d = Some d →
    is_Some (as_contig (memory m (l1_entry_addr g d pa))) →
    set_outcome pa v m (Ret (Err InvalidRequest) m)
| set_invalid_l1 d : in_space g pa → l0_entry g pa = Some d → as_table d = Some d →
    as_contig (memory m (l1_entry_addr g d pa)) = None →
    as_granule (memory m (l1_entry_addr g d pa)) = None →
    set_outcome pa v m (Ret (Err InvalidL1Entry) m)
| set_granule d g0 new : in_space g pa → l0_entry g pa = Some d → as_table d = Some d →
    nibble (memory m (l1_entry_addr g d pa)) 0 = gpi_into g0 →
    (∀ j, 0 ≤ j → nibble new j = if decide (granule_resolve c pa = j) then gpi_into v
                                 else nibble (memory m (l1_entry_addr g d pa)) j) →
    set_outcome pa v m
      (Ret (Ok tt) (mkMachine (<[l1_entry_addr g d pa := new]> (memory m))
         (trace m ++ [WriteL1 (l1_entry_addr g d pa) new; DsbOshst; TlbiRpalos (tlbi_arg pa); DsbOsh]))).

Lemma gpt_set_outcome pa v m : 0 ≤ pa → set_outcome pa v m (gpt_set g pa v m).
Proof.
  intros Hpa. unfold gpt_set. destruct (in_space_dec pa Hpa) as [[Hin ->]|[Hn ->]].
  2: by constructor.
  destruct (l0_entry_is_Some pa Hin) as [d Hd]. cbv [mbind M_bind]. unfold arr_get.
  fold (l0_entry g pa). rewrite Hd. cbn [unwrap lift].
  destruct (as_block d) as [b|] eqn:Hb; [by eapply set_block|].
  destruct (as_table d) as [d'|] eqn:Ht; [|by eapply set_invalid_l0].
  destruct (as_table_Some d d' Ht) as [-> _]. cbn [get]. rewrite l1_read_in by done. cbn [lift].
  destruct (as_contig _) eqn:Hc; [by eapply set_contig|].
  destruct (as_granule _) as [gr|] eqn:Hgr; [|by eapply set_invalid_l1].
  apply as_granule_Some in Hgr as [-> [g0 Hg0]].
  destruct (resolve_bounds c pa Hin (ok_sizes g Hok)) as (_ & _ & Hidx).
  destruct (set_gpi_eq (memory m (l1_entry_addr g d pa)) (granule_resolve c pa) v Hidx)
    as (new & -> & Hnew). cbn [lift l1_write modify event memory trace].
  cbv [l1_write modify event]. rewrite tlbi_rpalos_gpt. cbn [memory trace mret M_ret].
  rewrite <-!(assoc_L (++)). by eapply (set_granule pa v m d g0 new).
Qed.

(** The malformed entries, as [gpt_lookup] reports them. *)
Lemma gpt_lookup_invalid_l0 mem pa d :
  in_space g pa → l0_entry g pa = Some d → as_block d = None → as_table d = None →
  gpt_lookup g mem pa = Done (Err InvalidL0Entry).
Proof.
  intros Hin Hd Hb Ht. destruct (in_space_dec pa) as [[_ Hlt]|[? _]]; [apply Hin| |done].
  unfold gpt_lookup, arr_get. rewrite Hlt. fold (l0_entry g pa). rewrite Hd. simpl.
  by rewrite Hb, Ht.
Qed.
Lemma gpt_lookup_invalid_l1 mem pa d :
  in_space g pa → l0_entry g pa = Some d → as_table d = Some d →
  as_contig (mem (l1_entry_addr g d pa)) = None → as_granule (mem (l1_entry_addr g d pa)) = None →
  gpt_lookup g mem pa = Done (Err InvalidL1Entry).
Proof.
  intros Hin Hd Ht Hc Hg. destruct (in_space_dec pa) as [[_ Hlt]|[? _]]; [apply Hin| |done].
  unfold gpt_lookup, arr_get. rewrite Hlt. fold (l0_entry g pa). rewrite Hd. simpl.
  destruct (as_table_Some d d Ht) as [_ Hb]. rewrite Hb, Ht, l1_read_in by done. simpl.
  by rewrite Hc, Hg.
Qed.

(** What a successful [gpt_set] does to the permissions. *)
Lemma gpt_set_lookup_lemma pa v m m' :
  0 ≤ pa → gpt_set g pa v m = Ret (Ok tt) m' →
  ∀ pa', 0 ≤ pa' → gpt_lookup g (memory m') pa' =
    if decide (granule_of c pa = granule_of c pa') then Done (Ok v)
    else gpt_lookup g (memory m) pa'.
Proof.
  intros Hpa Hset pa' Hpa'. pose proof (gpt_set_outcome pa v m Hpa) as Hout. rewrite Hset in Hout.
  inversion Hout as [| | | | |d g0 new Hin Hd Ht Hg0 Hnew Heq]; subst. cbn [memory]. clear Hout Hset.
  set (a := l1_entry_addr g d pa) in *.
  assert (∃ g1, nibble new 0 = gpi_into g1) as [g1 Hg1].
  { rewrite Hnew by done. case_decide; eauto. }
  destruct (resolve_bounds c pa Hin (ok_sizes g Hok)) as (_ & _ & Hidx). case_decide as Hgr.
  - rewrite <-(gpt_lookup_same_granule _ pa pa') by done.
    rewrite (gpt_lookup_granule _ pa d g1); rewrite ?fn_lookup_insert; try done.
    rewrite Hnew, decide_True, gpi_try_from_into by lia. done.
  - destruct (decide (in_space g pa')) as [Hin'|Hn].
    2: { apply gpt_lookup_ext; [done|]. by intros ? ?. }
    destruct (l0_entry_is_Some pa' Hin') as [d' Hd'].
    destruct (decide (as_table d' = Some d' ∧ l1_entry_addr g d' pa' = a)) as [[Ht' Ha]|Hna].
    + destruct (l1_entry_addr_inj pa pa' d d') as (Hl0 & Hl1 & <-); try done.
      rewrite (gpt_lookup_granule _ pa' d g1); rewrite ?Ha, ?fn_lookup_insert; try done.
      rewrite (gpt_lookup_granule _ pa' d g0); rewrite ?Ha; try done.
      destruct (resolve_bounds c pa' Hin' (ok_sizes g Hok)) as (_ & _ & Hidx').
      rewrite Hnew, decide_False; [done| |lia]. intros Hr. apply Hgr. by apply resolve_inj.
    + apply gpt_lookup_ext; [done|]. intros d'' _ Hd'' Ht''. assert (d'' = d') as -> by congruence.
      rewrite fn_lookup_insert_ne; [done|]. intros Heq. apply Hna. by rewrite Heq.
Qed.
End Walk.
