(* ===== verification/RmmProofs.v ===== *)
(** * Lemmas on the RMM dispatcher

    What the two granule transitions do to the permissions, on every path. *)

From Stdlib Require Import ZArith Lia.
From stdpp Require Import base list numbers option functions.
From S2P Require Import Prelude Smccc Gpt GptProofs Rmm.
Open Scope rust_scope.
Open Scope Z_scope.

Lemma land_top_byte pa : 0 ≤ pa < 2 ^ 56 → Z.land pa 0xFF00000000000000 = 0.
Proof.
  intros Hpa. change 0xFF00000000000000 with (Z.shiftl 255 56). apply Z.bits_inj'. intros n Hn.
  rewrite Z.bits_0, Z.land_spec. destruct (decide (n < 56)).
  - rewrite Z.shiftl_spec_low by lia. apply andb_false_r.
  - rewrite <-(Z.mod_small pa (2 ^ 56)) by done. rewrite Z.mod_pow2_bits_high by lia. done.
Qed.

(** Every lookup inside the protected space finds a permission. *)
Definition gpt_valid (g : GranuleProtection) (mem : Z → Z) : Prop :=
  ∀ pa, in_space g pa → ∃ v, gpt_lookup g mem pa = Done (Ok v).

Section Granules.
Context (g : GranuleProtection) (Hok : gpt_ok g).

Lemma gpt_lookup_in_space mem pa v : 0 ≤ pa → gpt_lookup g mem pa = Done (Ok v) → in_space g pa.
Proof.
  intros Hpa. unfold gpt_lookup. destruct (in_space_dec g pa Hpa) as [[Hin ->]|[Hn ->]]; done.
Qed.

Lemma in_space_56 pa : in_space g pa → 0 ≤ pa < 2 ^ 56.
Proof.
  intros [? Hlt]. split; [done|]. pose proof (widths (config g)).
  eapply Z.lt_le_trans; [exact Hlt|]. apply Z.pow_le_mono_r; lia.
Qed.

(** The events of an update of the granule of an address, written in a word
    whose nibble holds the new permission. *)
Definition set_events (pa : Z) (u : GPIAccessType) (l : list Event) : Prop :=
  ∃ a new, nibble new (granule_resolve (config g) pa) = gpi_into u ∧
    l = [WriteL1 a new; DsbOshst; TlbiRpalos (tlbi_arg g pa); DsbOsh].

Definition set_done (pa : Z) (u : GPIAccessType) (m : Machine) : Prop :=
  ∃ m' l, gpt_set g pa u m = Ret (Ok tt) m' ∧ trace m' = trace m ++ l ∧ set_events pa u l.

Lemma set_done_intro pa u m d g0 :
  in_space g pa → l0_entry g pa = Some d → as_table d = Some d →
  nibble (memory m (l1_entry_addr g d pa)) 0 = gpi_into g0 → set_done pa u m.
Proof.
  intros Hin Hd Ht Hg0. pose proof (gpt_set_outcome g Hok pa u m (proj1 Hin)) as Hout.
  destruct (resolve_bounds (config g) pa Hin (ok_sizes g Hok)) as (_ & _ & Hidx).
  destruct (as_table_Some d d Ht) as [_ Hb].
  inversion Hout as [?|d' _ Hd' [? Hb']|d' _ Hd' _ Ht'|d' _ Hd' Ht' [? Hc']|d' _ Hd' Ht' _ Hg'|
                     d' g1 new _ Hd' Ht' _ Hnew Heq]; [done|..];
    assert (d' = d) as -> by congruence.
  - congruence.
  - congruence.
  - by erewrite as_contig_granule in Hc'.
  - by erewrite as_granule_intro in Hg'.
  - eexists _, _. split; [by symmetry|]. split; [done|]. eexists _, _. split; [|done].
    rewrite Hnew by lia. by rewrite decide_True.
Qed.

(** Where a lookup succeeds, the update does not meet a malformed entry. *)
Lemma gpt_set_after_lookup pa v u m :
  0 ≤ pa → gpt_lookup g (memory m) pa = Done (Ok v) →
  gpt_set g pa u m = Ret (Err InvalidRequest) m ∨ set_done pa u m.
Proof.
  intros Hpa Hl. pose proof (gpt_lookup_in_space (memory m) pa v Hpa Hl) as Hin.
  pose proof (gpt_set_outcome g Hok pa u m Hpa) as Hout. unfold gpt_lookup in Hl.
  destruct (in_space_dec g pa Hpa) as [[_ Hlt]|[? _]]; [|done]. rewrite Hlt in Hl.
  destruct (l0_entry_is_Some g Hok pa Hin) as [d Hd]. unfold arr_get in Hl.
  fold (l0_entry g pa) in Hl. rewrite Hd in Hl. simpl in Hl.
  inversion Hout as [?|?|d' _ Hd' Hb' Ht'|?|d' _ Hd' Ht' Hc' Hg'|d' g0 new]; auto.
  - assert (d' = d) as -> by congruence. by rewrite Hb', Ht' in Hl.
  - assert (d' = d) as -> by congruence. destruct (as_table_Some d d Ht') as [_ Hb'].
    rewrite Hb', Ht', l1_read_in in Hl by done. simpl in Hl. by rewrite Hc', Hg' in Hl.
  - right. by eapply set_done_intro.
Qed.

(** A granule that was updated can be updated again. *)
Lemma gpt_set_again pa v u m m1 m2 :
  0 ≤ pa → gpt_set g pa v m = Ret (Ok tt) m1 → memory m2 = memory m1 → set_done pa u m2.
Proof.
  intros Hpa Hset Hm. pose proof (gpt_set_outcome g Hok pa v m Hpa) as Hout. rewrite Hset in Hout.
  inversion Hout as [| | | | |d g0 new Hin Hd Ht Hg0 Hnew]; subst.
  assert (∃ g1, nibble new 0 = gpi_into g1) as [g1 Hg1].
  { rewrite Hnew by done. case_decide; eauto. }
  apply (set_done_intro pa u m2 d g1); [done..|]. rewrite Hm. cbn [memory].
  by rewrite fn_lookup_insert.
Qed.

(** The state of a granule that is being changed: the granule has the
    permission [v], all others are as in [mem]. *)
Definition granule_set (pa : Z) (v : GPIAccessType) (mem mem' : Z → Z) : Prop :=
  ∀ pa', 0 ≤ pa' → gpt_lookup g mem' pa' =
    if decide (granule_of (config g) pa = granule_of (config g) pa') then Done (Ok v)
    else gpt_lookup g mem pa'.

Lemma granule_set_trans pa v u mem mem' mem'' :
  granule_set pa v mem mem' → granule_set pa u mem' mem'' → granule_set pa u mem mem''.
Proof.
  intros H1 H2 pa' Hpa'. rewrite H2 by done. case_decide as Hd; [done|].
  rewrite H1 by done. by rewrite decide_False.
Qed.

Lemma granule_set_lookup pa v mem mem' :
  0 ≤ pa → granule_set pa v mem mem' → gpt_lookup g mem' pa = Done (Ok v).
Proof. intros Hpa H. rewrite H by done. by rewrite decide_True. Qed.

Lemma granule_set_valid pa v mem mem' :
  granule_set pa v mem mem' → gpt_valid g mem → gpt_valid g mem'.
Proof.
  intros H Hv pa' Hin. rewrite H by apply Hin. case_decide; [by eexists|]. by apply Hv.
Qed.

Context {P : Type} (plat : RmmPlatform P) (sctlr_c mte2 : bool).
Local Abbreviation St := (RmmdState P).
Implicit Types s : St.

Lemma flush_ok pa len gpi bits (k : M St (result (World * SmcReturn) RmmCommandReturnCode)) s :
  in_space g pa → pas_try_from gpi = Some bits →
  flush_or_bad_address mte2 pa len gpi k s =
  k (with_machine s (mkMachine (memory (machine s))
       (trace (machine s) ++ [FlushToPopa mte2 (Z.lor pa (pas_into bits)) len]))).
Proof.
  intros Hin Hp. unfold flush_or_bad_address. cbv [mbind M_bind on_machine].
  unfold flush_dcache_to_popa_range. rewrite land_top_byte by by apply in_space_56.
  rewrite Hp. reflexivity.
Qed.

(** The possible results of a transition of the granule at [pa] from the
    permission [from] to the permission [to]: refused without an effect, a
    panic, or done with the given events. *)
Inductive transition (pa : Z) (from to : GPIAccessType) (evs : list Event → Prop)
    (regs : SmcReturn) (s : St) :
    run St (result (World * SmcReturn) RmmCommandReturnCode) → Prop :=
| trans_unaligned : pa mod gpt_pgs g ≠ 0 →
    transition pa from to evs regs s (Ret (Ok (Realm, set_from_rmm_code RmmUnknown regs)) s)
| trans_bad_pas v : gpt_lookup g (memory (machine s)) pa = Done (Ok v) → v ≠ from →
    transition pa from to evs regs s (Ret (Ok (Realm, set_from_rmm_code RmmBadPas regs)) s)
| trans_out_of_range : ¬ in_space g pa →
    transition pa from to evs regs s (Ret (Ok (Realm, set_from_rmm_code RmmBadAddress regs)) s)
| trans_not_granule m' : gpt_lookup g (memory (machine s)) pa = Done (Ok from) →
    memory m' = memory (machine s) →
    transition pa from to evs regs s
      (Ret (Ok (Realm, set_from_rmm_code RmmBadAddress regs)) (with_machine s m'))
| trans_done m' l : pa mod gpt_pgs g = 0 →
    gpt_lookup g (memory (machine s)) pa = Done (Ok from) →
    granule_set pa to (memory (machine s)) (memory m') →
    trace m' = trace (machine s) ++ l → evs l →
    transition pa from to evs regs s
      (Ret (Ok (Realm, set_from_rmm_code RmmOk regs)) (with_machine s m'))
| trans_crash : sctlr_c = false ∨ ¬ gpt_valid g (memory (machine s)) →
    transition pa from to evs regs s Crash.

Definition flush_event (pa : Z) (p : PhysicalAddressSpace) : Event :=
  FlushToPopa mte2 (Z.lor pa (pas_into p)) (gpt_pgs g).
(** What a transition reports and does, with a valid table and the caches on. *)
Definition transition_post (pa : Z) (from to : GPIAccessType) (evs : list Event → Prop)
    (code : RmmCommandReturnCode) (s s' : St) : Prop :=
  ∃ m', s' = with_machine s m' ∧
  match code with
  | RmmOk => pa mod gpt_pgs g = 0 ∧ gpt_lookup g (memory (machine s)) pa = Done (Ok from) ∧
      granule_set pa to (memory (machine s)) (memory m') ∧
      ∃ l, trace m' = trace (machine s) ++ l ∧ evs l
  | RmmUnknown => m' = machine s ∧ pa mod gpt_pgs g ≠ 0
  | RmmBadPas => m' = machine s ∧
      ∃ v, gpt_lookup g (memory (machine s)) pa = Done (Ok v) ∧ v ≠ from
  | RmmBadAddress => memory m' = memory (machine s) ∧
      (in_space g pa → gpt_lookup g (memory (machine s)) pa = Done (Ok from))
  | _ => False
  end.

Lemma with_machine_id s : with_machine s (machine s) = s.
Proof. by destruct s. Qed.

Lemma transition_total pa from to evs regs s r :
  gpt_valid g (memory (machine s)) → sctlr_c = true →
  transition pa from to evs regs s r →
  ∃ code s', r = Ret (Ok (Realm, set_from_rmm_code code regs)) s' ∧
    transition_post pa from to evs code s s'.
Proof.
  intros Hv Hc Htr. destruct Htr as [Ha|v Hl Hne|Hn|m' Hl Hm|m' l Ha Hl Hset Htr Hev|[?|?]];
    try (by exfalso; congruence); eexists _, _; (split; [done|]); unfold transition_post.
  1, 2: exists (machine s); rewrite with_machine_id; by eauto.
  - exists (machine s). by rewrite with_machine_id.
  - by exists m'.
  - exists m'. eauto 10.
Qed.

(** Delegation: the Realm alias is cleaned before the change, the Non-secure one
    after it. *)
Definition delegate_events (pa : Z) (l : list Event) : Prop :=
  ∃ l1, set_events pa GpiRealm l1 ∧ l = flush_event pa PasRealm :: l1 ++ [flush_event pa PasNonSecure].
(** The reverse: access is removed first, both aliases are cleaned, and only then
    does the granule become Non-secure. *)
Definition undelegate_events (pa : Z) (l : list Event) : Prop :=
  ∃ l1 l2, set_events pa GpiNoAccess l1 ∧ set_events pa GpiNonSecure l2 ∧
    l = l1 ++ [flush_event pa PasRealm; DsbOsh; flush_event pa PasNonSecure; DsbOsh] ++ l2.

(** The steps before the change: alignment, caches and the permission. *)
Lemma transition_start pa from to evs regs s
    (k : GPIAccessType → M St (result (World * SmcReturn) RmmCommandReturnCode)) :
  0 ≤ pa →
  (pa mod gpt_pgs g = 0 → sctlr_c = true →
   gpt_lookup g (memory (machine s)) pa = Done (Ok from) →
   transition pa from to evs regs s (k from s)) →
  transition pa from to evs regs s
    ((if negb (pa mod gpt_pgs g =? 0) then mret (Ok (Realm, set_from_rmm_code RmmUnknown regs))
      else
        _ ← lift (assert_ sctlr_c);
        r ← lookup_m g pa;
        gpt_request r regs (λ gpi,
          if decide (gpi ≠ from) then mret (Ok (Realm, set_from_rmm_code RmmBadPas regs))
          else k gpi)) s).
Proof.
  intros Hpa Hk. destruct (Z.eqb_spec (pa mod gpt_pgs g) 0) as [Ha|Ha]; simpl.
  2: by apply trans_unaligned.
  cbv [mbind M_bind lift]. destruct sctlr_c eqn:Hc; simpl; [|apply trans_crash; by left].
  unfold lookup_m. cbv [mbind M_bind get lift].
  destruct (in_space_dec g pa Hpa) as [[Hin _]|[Hn Hlt]].
  - destruct (gpt_lookup g (memory (machine s)) pa) as [[v|e]|] eqn:Hl; simpl.
    + case_decide as Hv; [by eapply trans_bad_pas|]. subst v. by apply Hk.
    + destruct e; simpl; [|apply trans_crash; right; intros Hv; destruct (Hv pa Hin); congruence..].
      unfold gpt_lookup in Hl.
      exfalso. destruct (in_space_dec g pa Hpa) as [[_ Hlt]|[? _]]; [|done]. rewrite Hlt in Hl.
      destruct (l0_entry_is_Some g Hok pa Hin) as [d Hd]. unfold arr_get in Hl.
      fold (l0_entry g pa) in Hl. rewrite Hd in Hl. simpl in Hl.
      destruct (as_block d); [destruct (field_gpi _); done|]. destruct (as_table d); [|done].
      rewrite l1_read_in in Hl by done. simpl in Hl. destruct (as_contig _); [destruct (field_gpi _); done|].
      destruct (as_granule _); [|done].
      destruct (resolve_bounds (config g) pa Hin (ok_sizes g Hok)) as (_ & _ & ?).
      rewrite granule_gpi_eq in Hl by lia. simpl in Hl. by destruct (gpi_try_from _).
    + apply trans_crash. right. intros Hv. destruct (Hv pa Hin). congruence.
  - unfold gpt_lookup. rewrite Hlt. simpl. by apply trans_out_of_range.
Qed.

Lemma gtsi_delegate_transition pa regs s :
  0 ≤ pa →
  transition pa GpiNonSecure GpiRealm (delegate_events pa) regs s
    (gtsi_delegate (Some g) sctlr_c mte2 pa regs s).
Proof.
  intros Hpa. unfold gtsi_delegate.
  apply (transition_start pa GpiNonSecure GpiRealm (delegate_events pa) regs s); [done|].
  intros Ha _ Hl. pose proof (gpt_lookup_in_space _ pa _ Hpa Hl) as Hin.
  rewrite (flush_ok pa _ GpiRealm PasRealm) by done. set (s1 := with_machine s _).
  cbv [mbind M_bind on_machine].
  destruct (gpt_set_after_lookup pa GpiNonSecure GpiRealm (machine s1) Hpa Hl)
    as [->|(m' & l & Hset & Htr & Hev)].
  { apply (trans_not_granule pa _ _ _ regs s (machine s1) Hl). done. }
  rewrite Hset. cbn [gpt_request]. rewrite (flush_ok pa _ GpiNonSecure PasNonSecure) by done.
  cbv [mret M_ret]. cbn [machine with_machine].
  apply (trans_done pa _ _ _ regs s _ (flush_event pa PasRealm :: l ++ [flush_event pa PasNonSecure]));
    [done|done|..].
  - cbn [memory]. exact (gpt_set_lookup_lemma g Hok pa GpiRealm _ m' Hpa Hset).
  - cbn [trace]. rewrite Htr. cbn [machine with_machine trace s1]. by rewrite <-!(assoc_L (++)).
  - by exists l.
Qed.

Lemma gtsi_undelegate_transition pa regs s :
  0 ≤ pa →
  transition pa GpiRealm GpiNonSecure (undelegate_events pa) regs s
    (gtsi_undelegate (Some g) sctlr_c mte2 pa regs s).
Proof.
  intros Hpa. unfold gtsi_undelegate.
  apply (transition_start pa GpiRealm GpiNonSecure (undelegate_events pa) regs s); [done|].
  intros Ha _ Hl. pose proof (gpt_lookup_in_space _ pa _ Hpa Hl) as Hin.
  cbv [mbind M_bind on_machine].
  destruct (gpt_set_after_lookup pa GpiRealm GpiNoAccess (machine s) Hpa Hl)
    as [->|(m1 & l1 & Hset1 & Htr1 & Hev1)].
  { simpl. apply trans_not_granule; done. }
  rewrite Hset1. cbn [gpt_request]. rewrite (flush_ok pa _ GpiRealm PasRealm) by done.
  cbn [event modify machine with_machine memory trace].
  rewrite (flush_ok pa _ GpiNonSecure PasNonSecure) by done.
  cbn [event modify machine with_machine memory trace].
  match goal with |- context [gpt_set g pa GpiNonSecure ?m] => set (m2 := m) end.
  destruct (gpt_set_again pa GpiNoAccess GpiNonSecure (machine s) m1 m2)
    as (m3 & l2 & Hset2 & Htr2 & Hev2); [done..|].
  rewrite Hset2. cbn [gpt_request]. cbv [mret M_ret].
  apply (trans_done pa _ _ _ regs s m3
    (l1 ++ [flush_event pa PasRealm; DsbOsh; flush_event pa PasNonSecure; DsbOsh] ++ l2)); [done|done|..].
  - eapply granule_set_trans.
    + exact (gpt_set_lookup_lemma g Hok pa GpiNoAccess _ m1 Hpa Hset1).
    + exact (gpt_set_lookup_lemma g Hok pa GpiNonSecure _ m3 Hpa Hset2).
  - rewrite Htr2. cbn [trace m2]. rewrite Htr1. by rewrite <-!(assoc_L (++)).
  - by exists l1, l2.
Qed.
End Granules.

(** ** The permissions over any call *)

(** The permissions the transitions are about. *)
Definition shared_pas (v : GPIAccessType) : Prop := v = GpiNonSecure ∨ v = GpiRealm.

Section Isolation.
Context (g : GranuleProtection) (Hok : gpt_ok g).

(** Every permission is as before, or was and is Non-secure or Realm. *)
Definition pas_preserved (mem mem' : Z → Z) : Prop := ∀ pa, 0 ≤ pa →
  gpt_lookup g mem' pa = gpt_lookup g mem pa ∨
  ∃ v v', gpt_lookup g mem pa = Done (Ok v) ∧ gpt_lookup g mem' pa = Done (Ok v') ∧
    shared_pas v ∧ shared_pas v'.

Global Instance pas_preserved_preorder : PreOrder pas_preserved.
Proof.
  split; [by left|]. intros m1 m2 m3 H12 H23 pa Hpa.
  destruct (H12 pa Hpa) as [E12|(v & v' & E1 & E2 & Hv & Hv')],
    (H23 pa Hpa) as [E23|(u & u' & F2 & F3 & Hu & Hu')].
  - left. congruence.
  - right. exists u, u'. by rewrite <-E12.
  - right. exists v, v'. by rewrite E23.
  - right. by exists v, u'.
Qed.

Lemma granule_set_preserved pa from to mem mem' :
  0 ≤ pa → shared_pas from → shared_pas to → gpt_lookup g mem pa = Done (Ok from) →
  granule_set g pa to mem mem' → pas_preserved mem mem'.
Proof.
  intros Hpa Hf Ht Hl Hs pa' Hpa'. specialize (Hs pa' Hpa'). case_decide as Hd; [|by left].
  right. exists from, to. rewrite <-(gpt_lookup_same_granule g mem pa pa') by done. done.
Qed.
End Isolation.

(** ** Relations kept by a computation *)

(** A transitive relation between states that does not look at the tokens, the
    buffer or the platform. *)
Class SoftRel {P} (R : RmmdState P → RmmdState P → Prop) : Prop := {
  soft_trans :: Transitive R;
  soft s s' : machine s' = machine s → rmm_boot_state s' = rmm_boot_state s → R s s';
}.

Section Keeps.
Context {P : Type} (R : RmmdState P → RmmdState P → Prop) `{!SoftRel R}.
Local Abbreviation St := (RmmdState P).

Definition preserves {A} (m : M St A) : Prop := ∀ s,
  match m s with Ret _ s' | Halt s' => R s s' | Crash => True end.

Lemma preserves_bind {A B} (m : M St A) (f : A → M St B) : preserves m → (∀ a, preserves (f a)) → preserves (m ≫= f).
Proof.
  intros Hm Hf s. specialize (Hm s). cbv [mbind M_bind]. destruct (m s) as [a s1|s1|]; [|done..].
  specialize (Hf a s1). destruct (f a s1); [by etrans..|done].
Qed.
Lemma preserves_ret {A} (a : A) : preserves (mret a).
Proof. intros s. by apply soft. Qed.
Lemma preserves_get : preserves get.
Proof. intros s. by apply soft. Qed.
Lemma preserves_crash {A} : preserves (@crash St A).
Proof. intros s. done. Qed.
Lemma preserves_lift {A} (o : outcome A) : preserves (lift o).
Proof. intros s. unfold lift. destruct o; [by apply soft|done]. Qed.
Lemma preserves_set_token t : preserves (set_token t).
Proof. intros s. by apply soft. Qed.
Lemma preserves_set_read_index i : preserves (set_read_index i).
Proof. intros s. by apply soft. Qed.
Lemma preserves_set_shared_buffer b : preserves (set_shared_buffer b).
Proof. intros s. by apply soft. Qed.
Lemma preserves_on_plat {A} (m : M P A) : preserves (on_plat m).
Proof. intros s. unfold on_plat. destruct (m (rmm_plat s)); [by apply soft..|done]. Qed.
End Keeps.

#[export] Hint Resolve preserves_bind preserves_ret preserves_get preserves_crash preserves_lift preserves_set_token
  preserves_set_read_index preserves_set_shared_buffer preserves_on_plat : rfa.

Ltac preserves := repeat first
  [ solve [eauto with rfa typeclass_instances] | progress intros | apply preserves_bind | case_match ].

(** Register values are [u64]s. *)
Definition regs_u64 (regs : SmcReturn) : Prop := Forall (λ v, 0 ≤ v < 2 ^ 64) (all_values regs).

Lemma regs_u64_values regs i v : regs_u64 regs → values regs !! i = Some v → 0 ≤ v < 2 ^ 64.
Proof.
  intros H Hv. unfold values in Hv. apply lookup_take_Some in Hv as [Hv _].
  exact (Forall_lookup_1 _ _ i v H Hv).
Qed.

Lemma try_outcome_Done {A B E} (m : outcome (result A E)) (k : A → outcome (result B E)) r :
  try_outcome m k = Done (Ok r) → ∃ a, m = Done (Ok a) ∧ k a = Done (Ok r).
Proof. destruct m as [[]|]; simpl; try done. eauto. Qed.

(** The address of a transition is the first argument. *)
Lemma from_regs_granule regs c pa :
  from_regs regs = Done (Ok c) → c = GtsiDelegate pa ∨ c = GtsiUndelegate pa → regs !! 1%nat = Some pa.
Proof.
  intros H Hc. unfold from_regs in H. apply outcome_bind_Done in H as (x0 & _ & H).
  apply try_outcome_Done in H as (fid & _ & H).
  destruct fid; repeat first
    [ apply outcome_bind_Done in H as (? & ?%arr_get_Done & H)
    | apply outcome_bind_Done in H as (? & _ & H)
    | apply try_outcome_Done in H as (? & _ & H) ];
  injection H as <-; destruct Hc; simplify_eq; done.
Qed.

Section Calls.
Context {P : Type} (plat : RmmPlatform P) (R : RmmdState P → RmmdState P → Prop) `{!SoftRel R}.
Context (gpt : option GranuleProtection) (sctlr_c mte2 : bool).

Lemma preserves_realm_key buf_pa size curve regs :
  preserves R (attest_get_realm_key plat buf_pa size curve regs).
Proof. unfold attest_get_realm_key, read_shared, write_shared. preserves. Qed.
Lemma preserves_plat_token buf_pa size c_size regs :
  preserves R (attest_get_plat_token plat buf_pa size c_size regs).
Proof. unfold attest_get_plat_token, read_shared, write_shared. preserves. Qed.

(** A call of the RMM keeps what the transitions and the boot status keep. *)
Lemma preserves_realm_smc core regs :
  regs_u64 regs →
  preserves R (handle_boot_complete core regs) →
  (∀ pa, 0 ≤ pa → preserves R (gtsi_delegate gpt sctlr_c mte2 pa regs)) →
  (∀ pa, 0 ≤ pa → preserves R (gtsi_undelegate gpt sctlr_c mte2 pa regs)) →
  preserves R (rmmd_handle_realm_smc plat gpt sctlr_c mte2 core regs).
Proof.
  intros Hregs Hboot Hdel Hundel. unfold rmmd_handle_realm_smc.
  apply preserves_bind; [done|eauto with rfa|]. intros s.
  case_match; [eauto with rfa|]. apply preserves_bind; [done| |intros []; eauto with rfa].
  unfold try_handle_realm_smc. apply preserves_bind; [done|eauto with rfa|]. intros x0.
  case_match; [apply preserves_bind; [done|exact Hboot|eauto with rfa]|].
  destruct (from_regs (values regs)) as [[c|e]|] eqn:Hc.
  all: intros s1; cbv [mbind M_bind lift]; revert s1.
  2: by destruct e; apply preserves_ret.
  2: done.
  destruct c; try solve [by apply preserves_ret | apply preserves_crash].
  - by apply (preserves_bind R (lift (req_complete regs0 regs)) (λ r, mret (Ok (NonSecure, r)))); eauto with rfa.
  - apply Hdel. eapply from_regs_granule in Hc; [|by left].
    by eapply regs_u64_values in Hc as [? _].
  - apply Hundel. eapply from_regs_granule in Hc; [|by right].
    by eapply regs_u64_values in Hc as [? _].
  - apply preserves_realm_key.
  - apply preserves_plat_token.
Qed.
End Calls.

(** ** The two relations *)
Section Relations.
Context (g : GranuleProtection) (Hok : gpt_ok g).
Context {P : Type} (plat : RmmPlatform P) (sctlr_c mte2 : bool).
Local Abbreviation St := (RmmdState P).

Definition pas_rel (s s' : St) : Prop := pas_preserved g (memory (machine s)) (memory (machine s')).
Global Instance pas_rel_soft : SoftRel pas_rel.
Proof.
  split; [intros ? ? ? H1 H2; exact (transitivity (R:=pas_preserved g) H1 H2)|].
  intros s s' Hm _. unfold pas_rel. by rewrite Hm.
Qed.

(** The boot status: a failure is final, a success is only followed by a failure. *)
Definition boot_rel (s s' : St) : Prop :=
  match rmm_boot_state s with
  | BootError => rmm_boot_state s' = BootError
  | ColdBootDone => rmm_boot_state s' ≠ BootUnknown
  | BootUnknown => True
  end.
Global Instance boot_rel_soft : SoftRel boot_rel.
Proof.
  split.
  - intros s1 s2 s3. unfold boot_rel. intros H12 H23.
    destruct (rmm_boot_state s1), (rmm_boot_state s2); try done. by rewrite H23.
  - intros s s' _ Hb. unfold boot_rel. rewrite Hb. by destruct (rmm_boot_state s).
Qed.

Lemma transition_pas pa from to evs regs (s : St) r :
  0 ≤ pa → shared_pas from → shared_pas to →
  transition g sctlr_c pa from to evs regs s r →
  match r with Ret _ s' | Halt s' => pas_rel s s' | Crash => True end.
Proof.
  intros Hpa Hf Ht Htr. destruct Htr as [|v| |m' _ Hm|m' l _ Hl Hset _ _|]; try by unfold pas_rel.
  { unfold pas_rel. cbn [machine with_machine]. by rewrite Hm. }
  exact (granule_set_preserved g pa from to _ _ Hpa Hf Ht Hl Hset).
Qed.

Lemma transition_boot pa from to evs regs (s : St) r :
  transition g sctlr_c pa from to evs regs s r →
  match r with Ret _ s' | Halt s' => boot_rel s s' | Crash => True end.
Proof. intros Htr. unfold boot_rel. destruct Htr; try done; simpl; by destruct (rmm_boot_state s). Qed.

Lemma preserves_boot_complete_pas core regs : preserves pas_rel (handle_boot_complete (P:=P) core regs).
Proof.
  assert (∀ b, preserves pas_rel (set_boot_state b)) by (intros b s; exact (reflexivity (R:=pas_preserved g) _)).
  unfold handle_boot_complete, set_boot_failure, set_boot_success. preserves.
Qed.

Lemma preserves_boot_complete_boot core regs : preserves boot_rel (handle_boot_complete (P:=P) core regs).
Proof.
  assert (preserves boot_rel set_boot_failure) by (intros s; unfold boot_rel; simpl; by case_match).
  assert (preserves boot_rel set_boot_success).
  { intros s. unfold set_boot_success, boot_rel. cbv [mbind M_bind get].
    case_decide as Hb; simpl; [by rewrite Hb|by case_match]. }
  unfold handle_boot_complete. preserves.
Qed.

(** No call of the RMM changes a permission but between Non-secure and Realm. *)
Lemma realm_smc_pas core regs :
  regs_u64 regs → preserves pas_rel (rmmd_handle_realm_smc plat (Some g) sctlr_c mte2 core regs).
Proof.
  intros Hregs. apply preserves_realm_smc; [apply _|done|apply preserves_boot_complete_pas|..]; intros pa Hpa s.
  - eapply transition_pas; [done|by left|by right|]. by apply gtsi_delegate_transition.
  - eapply transition_pas; [done|by right|by left|]. by apply gtsi_undelegate_transition.
Qed.

Lemma realm_smc_boot core regs :
  regs_u64 regs → preserves boot_rel (rmmd_handle_realm_smc plat (Some g) sctlr_c mte2 core regs).
Proof.
  intros Hregs. apply preserves_realm_smc; [apply _|done|apply preserves_boot_complete_boot|..]; intros pa Hpa s.
  - eapply transition_boot. by apply gtsi_delegate_transition.
  - eapply transition_boot. by apply gtsi_undelegate_transition.
Qed.
End Relations.

(** ** The calls return *)

(** What the dispatcher relies on of the platform: the shared buffer is a part of
    the address space, and attestation returns, keeps the length of its buffer
    and reports sizes that fit. *)
Record rmm_platform_ok {P} (plat : RmmPlatform P) : Prop := mkRmmPlatformOk {
  plat_start : 0 ≤ RMM_SHARED_BUFFER_START plat;
  plat_key buf curve p : ∃ r buf' p',
    read_attestation_key plat buf curve p = Ret (r, buf') p' ∧ length buf' = length buf;
  plat_token buf hash idx p : 0 ≤ idx < 2 ^ 64 → ∃ r buf' p',
    read_attestation_token plat buf hash idx p = Ret (r, buf') p' ∧ length buf' = length buf ∧
    ∀ size rem, r = Ok (size, rem) → 0 < rem → 0 ≤ idx + size < 2 ^ 64;
}.

(** The calls that are not [todo!()]. *)
Definition implemented (c : RmmCall) : bool :=
  match c with
  | RmiReqComplete _ | GtsiDelegate _ | GtsiUndelegate _ | AttestGetRealmKey _ _ _
  | AttestGetPlatToken _ _ _ | El3Features _ | MecRefresh _ _ => true
  | _ => false
  end.

Section Total.
Context {P : Type} (plat : RmmPlatform P) (Hplat : rmm_platform_ok plat).
Context (g : GranuleProtection) (Hok : gpt_ok g) (mte2 : bool) (core : nat).
Context (Hcore : (core < CORE_COUNT plat)%nat).
Local Abbreviation St := (RmmdState P).

(** The invariant of the dispatcher. *)
Record rmm_ok (s : St) : Prop := mkRmmOk {
  rmm_valid : gpt_valid g (memory (machine s));
  rmm_tokens : length (activation_token s) = CORE_COUNT plat;
  rmm_index : 0 ≤ attestation_token_read_index s < 2 ^ 64;
  rmm_buffer : length (shared_buffer s) = Z.to_nat RMM_SHARED_BUFFER_SIZE;
}.

Definition returns_ok {A} (r : run St A) : Prop := ∃ a s', r = Ret a s' ∧ rmm_ok s'.

Lemma boot_complete_ok regs s :
  rmm_ok s → (3 ≤ length (values regs))%nat → returns_ok (handle_boot_complete core regs s).
Proof.
  intros [Hv Ht Hi Hb] Hlen. unfold handle_boot_complete.
  destruct (lookup_lt_is_Some_2 (values regs) 1) as [x1 Hx1]; [lia|].
  destruct (lookup_lt_is_Some_2 (values regs) 2) as [x2 Hx2]; [lia|].
  destruct (lookup_lt_is_Some_2 (activation_token s) core) as [t Htok]; [lia|].
  cbv [mbind M_bind lift get]. unfold arr_get. rewrite Hx1, Hx2. cbn [unwrap].
  case_match; [by eexists _, _; split; [reflexivity|split]|]. rewrite Htok. cbn [unwrap].
  destruct t; [by eexists _, _; split; [reflexivity|split]|]. unfold arr_set.
  rewrite decide_True by lia. cbn [set_token modify set_boot_success]. unfold set_boot_success.
  cbv [mbind M_bind get]. cbn [rmm_boot_state].
  destruct (decide _); (eexists _, _; split; [reflexivity|]);
    (split; [done|cbn; by rewrite length_insert|done|done]).
Qed.

Lemma check_shared_buffer_range_ok buf_pa size :
  0 ≤ size → check_shared_buffer_range plat buf_pa size = None →
  RMM_SHARED_BUFFER_START plat ≤ buf_pa ∧
  buf_pa + size ≤ RMM_SHARED_BUFFER_START plat + RMM_SHARED_BUFFER_SIZE.
Proof.
  intros Hsize. unfold check_shared_buffer_range, in_shared_buffer.
  pose proof (plat_start plat Hplat).
  destruct (Z.leb_spec (RMM_SHARED_BUFFER_START plat) buf_pa); [|done].
  destruct (Z.ltb_spec buf_pa (RMM_SHARED_BUFFER_START plat + RMM_SHARED_BUFFER_SIZE)); [|done]. simpl.
  destruct (Z.ltb_spec (buf_pa + size) (2 ^ 64)); [|done].
  destruct (Z.leb_spec 1 (buf_pa + size)); [|done].
  destruct (Z.leb_spec (RMM_SHARED_BUFFER_START plat) (buf_pa + size - 1)); [|done].
  destruct (Z.ltb_spec (buf_pa + size - 1) (RMM_SHARED_BUFFER_START plat + RMM_SHARED_BUFFER_SIZE)); [|done].
  lia.
Qed.

(** The part of the shared buffer a call works on. *)
Lemma read_shared_ok buf_pa size s :
  rmm_ok s → 0 ≤ size → check_shared_buffer_range plat buf_pa size = None →
  ∃ bs, read_shared plat buf_pa size s = Ret bs s ∧ length bs = Z.to_nat size ∧
    (shared_off plat buf_pa + length bs ≤ length (shared_buffer s))%nat.
Proof.
  intros Hs Hsize Hc. destruct (check_shared_buffer_range_ok buf_pa size Hsize Hc) as [Hlo Hhi].
  pose proof (rmm_buffer s Hs) as Hb. unfold RMM_SHARED_BUFFER_SIZE in *.
  unfold read_shared. cbv [mbind M_bind get lift]. unfold slice, shared_off.
  rewrite decide_True by lia. eexists. split; [done|]. rewrite length_take, length_drop. lia.
Qed.

Lemma write_shared_ok buf_pa bs s :
  rmm_ok s → (shared_off plat buf_pa + length bs ≤ length (shared_buffer s))%nat →
  ∃ s', write_shared plat buf_pa bs s = Ret tt s' ∧ rmm_ok s' ∧
    attestation_token_read_index s' = attestation_token_read_index s.
Proof.
  intros [Hv Ht Hi Hb] Hlen. eexists. split; [reflexivity|]. split; [split|]; try done. cbn.
  rewrite !length_app, length_take, length_drop. lia.
Qed.

Lemma on_plat_ok {A} (m : M P A) a p' s :
  rmm_ok s → m (rmm_plat s) = Ret a p' →
  ∃ s', on_plat m s = Ret a s' ∧ rmm_ok s' ∧ shared_buffer s' = shared_buffer s ∧
    attestation_token_read_index s' = attestation_token_read_index s.
Proof. intros [] Hm. unfold on_plat. rewrite Hm. eexists. split; [reflexivity|]. done. Qed.

Lemma realm_key_ok buf_pa size curve regs s :
  rmm_ok s → 0 ≤ size → returns_ok (attest_get_realm_key plat buf_pa size curve regs s).
Proof.
  intros Hs Hsize. unfold attest_get_realm_key.
  destruct (check_shared_buffer_range plat buf_pa size) eqn:Hc; [by eexists _, _|].
  destruct (read_shared_ok buf_pa size s Hs Hsize Hc) as (bs & Hr & Hl & Hfit).
  cbv [mbind M_bind]. rewrite Hr.
  destruct (plat_key plat Hplat bs curve (rmm_plat s)) as (r & bs' & p' & Hk & Hlen).
  destruct (on_plat_ok _ _ _ s Hs Hk) as (s1 & -> & Hs1 & Hsb & _).
  destruct (write_shared_ok buf_pa bs' s1 Hs1) as (s2 & -> & Hs2 & _); [by rewrite Hlen, Hsb|].
  destruct r; by eexists _, _.
Qed.

Lemma plat_token_ok buf_pa size c_size regs s :
  rmm_ok s → 0 ≤ size → 0 ≤ c_size →
  returns_ok (attest_get_plat_token plat buf_pa size c_size regs s).
Proof.
  intros Hs Hsize Hcs. unfold attest_get_plat_token. cbv [mbind M_bind get].
  destruct (_ || _) eqn:Hchk; [by eexists _, _|].
  assert (c_size ≤ 64) as H64.
  { apply orb_false_iff in Hchk as [H1 H2]. destruct (_ =? 0); simpl in H1, H2.
    - destruct (Z.eqb_spec c_size 32), (Z.eqb_spec c_size 48), (Z.eqb_spec c_size 64);
        simpl in H1; try lia; done.
    - apply negb_false_iff, Z.eqb_eq in H2. lia. }
  destruct (check_shared_buffer_range _ _ _) eqn:Hc; [by eexists _, _|].
  destruct (read_shared_ok buf_pa (Z.max size c_size) s Hs) as (bs & Hr & Hl & Hfit); [lia|done|].
  rewrite Hr. cbv [lift]. unfold slice. rewrite !decide_True by lia.
  rewrite bool_decide_true by (unfold MAX_HASH_SIZE; lia). cbn [assert_].
  set (out := take (Z.to_nat size - 0) (drop 0 bs)).
  assert (length out = Z.to_nat size) as Hout.
  { unfold out. rewrite length_take, length_drop. lia. }
  destruct (plat_token plat Hplat out (take (Z.to_nat c_size - 0) (drop 0 bs))
    (attestation_token_read_index s) (rmm_plat s) (rmm_index s Hs)) as (r & out' & p' & Hk & Hlen & Hadd).
  destruct (on_plat_ok _ _ _ s Hs Hk) as (s1 & -> & Hs1 & Hsb & Hidx).
  destruct (write_shared_ok buf_pa out' s1 Hs1) as (s2 & -> & [? ? ? ?] & Hidx2); [rewrite Hsb; lia|].
  destruct r as [[sz rem]|]; [|by eexists _, _].
  specialize (Hadd sz rem eq_refl). destruct (Z.ltb_spec 0 rem) as [Hrem|Hrem].
  - rewrite (proj2 (Z.ltb_lt _ _)) by lia. eexists _, _. split; [reflexivity|]. split; try done.
    cbn. lia.
  - eexists _, _. split; [reflexivity|]. by split.
Qed.

Lemma transition_ok pa from to evs regs s r :
  0 ≤ pa → rmm_ok s → transition g true pa from to evs regs s r → returns_ok r.
Proof.
  intros Hpa Hs Htr. pose proof Hs as [Hv Ht Hi Hb].
  destruct (transition_total g true pa from to evs regs s r Hv eq_refl Htr) as (code & s' & -> & Hp).
  exists (Ok (Realm, set_from_rmm_code code regs)), s'. split; [done|].
  destruct Hp as (m' & -> & Hcase). split; [|done..]. cbn [machine with_machine].
  destruct code; try done; [|by destruct Hcase as [-> _]..].
  destruct Hcase as (_ & _ & Hset & _). by eapply granule_set_valid.
Qed.

(** The arguments of the calls come from the registers. *)
Lemma from_regs_args regs c :
  Forall (λ v, 0 ≤ v) regs → from_regs regs = Done (Ok c) →
  match c with
  | GtsiDelegate pa | GtsiUndelegate pa => 0 ≤ pa
  | AttestGetRealmKey _ size _ => 0 ≤ size
  | AttestGetPlatToken _ size c_size => 0 ≤ size ∧ 0 ≤ c_size
  | _ => True
  end.
Proof.
  intros Hr H. unfold from_regs in H. apply outcome_bind_Done in H as (x0 & _ & H).
  apply try_outcome_Done in H as (fid & _ & H).
  destruct fid; repeat first
    [ apply outcome_bind_Done in H as (? & ?%arr_get_Done & H)
    | apply outcome_bind_Done in H as (? & _ & H)
    | apply try_outcome_Done in H as (? & _ & H) ];
  injection H as <-; rewrite ?Forall_lookup in Hr; naive_solver.
Qed.

Lemma from_regs_total regs : (12 ≤ length regs)%nat → ∃ r, from_regs regs = Done r.
Proof.
  intros Hlen. do 12 (destruct regs as [|? regs]; [cbn [length] in Hlen; lia|]).
  unfold from_regs. cbn [arr_get unwrap lookup list_lookup mbind outcome_bind].
  destruct (rmm_fid_try_from _) as [fid|]; [|by eexists]. cbn [try_outcome].
  destruct fid; cbn [arr_get unwrap lookup list_lookup mbind outcome_bind];
    try (by eexists); unfold try_outcome; repeat case_match; by eexists.
Qed.

Lemma try_handle_realm_smc_ok regs s :
  rmm_ok s → smc_return_wf regs → used regs = MAX_VALUES → regs_u64 regs →
  (∀ c, from_regs (values regs) = Done (Ok c) → implemented c = true) →
  returns_ok (try_handle_realm_smc plat (Some g) true mte2 core regs s).
Proof.
  intros Hs [Hl _] Hused Hregs Himpl.
  assert (values regs = all_values regs) as Hvals.
  { unfold values. rewrite Hused. apply take_ge. by rewrite Hl. }
  assert (length (values regs) = 18%nat) as Hlen by by rewrite Hvals.
  destruct (lookup_lt_is_Some_2 (values regs) 0) as [x0 Hx0]; [lia|].
  unfold try_handle_realm_smc. cbv [mbind M_bind lift]. unfold arr_get. rewrite Hx0. cbn [unwrap].
  case_match.
  { destruct (boot_complete_ok regs s Hs) as (r & s' & -> & Hs'); [lia|]. by eexists _, _. }
  destruct (from_regs_total (values regs)) as [[c|e] Hc]; [lia| |]; rewrite Hc.
  2: { destruct e; by eexists _, _. }
  specialize (Himpl c Hc). apply from_regs_args in Hc.
  2: { rewrite Hvals. eapply Forall_impl; [|exact Hregs]. simpl. lia. }
  destruct c; try done; try by eexists _, _.
  - unfold req_complete. rewrite bool_decide_true by (rewrite Hused; unfold MAX_VALUES; lia).
    by eexists _, _.
  - eapply transition_ok; [done|done|]. by apply gtsi_delegate_transition.
  - eapply transition_ok; [done|done|]. by apply gtsi_undelegate_transition.
  - by apply realm_key_ok.
  - destruct Hc. by apply plat_token_ok.
Qed.
End Total.

(** The world a call of the RMM continues in. *)
Lemma realm_smc_world {P} (plat : RmmPlatform P) gpt sctlr_c mte2 core regs s :
  match rmmd_handle_realm_smc plat gpt sctlr_c mte2 core regs s with
  | Ret (w, _) _ => w ≠ Secure | _ => True
  end.
Proof.
  unfold rmmd_handle_realm_smc, try_handle_realm_smc, handle_boot_complete, gtsi_delegate,
    gtsi_undelegate, attest_get_realm_key, attest_get_plat_token, gpt_request,
    flush_or_bad_address, or_err.
  cbv [mbind M_bind get lift mret M_ret crash]. by repeat (case_match; simplify_eq/=).
Qed.

Lemma realm_smc_returns {P} (plat : RmmPlatform P) g mte2 core regs s :
  rmm_platform_ok plat → gpt_ok g → (core < CORE_COUNT plat)%nat →
  rmm_ok plat g s → smc_return_wf regs → used regs = MAX_VALUES → regs_u64 regs →
  (∀ c, from_regs (values regs) = Done (Ok c) → implemented c = true) →
  ∃ w regs' s', rmmd_handle_realm_smc plat (Some g) true mte2 core regs s = Ret (w, regs') s' ∧
    rmm_ok plat g s' ∧ w ≠ Secure.
Proof.
  intros Hplat Hok Hcore Hs Hwf Hused Hregs Himpl.
  pose proof (realm_smc_world plat (Some g) true mte2 core regs s) as Hw.
  cut (returns_ok plat g (rmmd_handle_realm_smc plat (Some g) true mte2 core regs s)).
  { intros ([w regs'] & s' & Hrun & Hs'). exists w, regs', s'. rewrite Hrun in Hw. done. }
  clear Hw. unfold rmmd_handle_realm_smc. cbv [mbind M_bind get].
  destruct (boot_failure s); [by eexists _, _|].
  cut (returns_ok plat g (try_handle_realm_smc plat (Some g) true mte2 core regs s)).
  { intros (r & s' & -> & Hs'). destruct r; by eexists _, _. }
  by apply try_handle_realm_smc_ok.
Qed.
