(* ===== verification/RmmProps.v ===== *)
(** * The properties of granule protection and of the RMM dispatcher

    An update of the granule protection table changes one granule; the RMM can
    move granules between the Non-secure and the Realm world and no others; its
    calls are answered without a panic; a failed boot of the RMM is final. *)

From Stdlib Require Import ZArith Lia.
From stdpp Require Import base list numbers option functions relations.
From S2P Require Import Prelude Smccc Gpt GptProofs Rmm RmmProofs.
Open Scope rust_scope.
Open Scope Z_scope.

(** ** A table to evaluate *)
Definition sample_config : GranuleProtectionConfig := mkGpc PpsGB4 L0GB1 KB4.
(** One level 1 table, at 0x100000, and three blocks. *)
Definition sample_gpt : GranuleProtection :=
  mkGpt [0x100003; block GpiRoot; block GpiNonSecure; block GpiAny] sample_config.
(** All granules of the table are Non-secure, but for the second group of
    sixteen, which is Root. *)
Definition sample_memory (a : Z) : Z :=
  if a =? 0x100008 then 0xAAAAAAAAAAAAAAAA else 0x9999999999999999.
Definition sample_machine : Machine := mkMachine sample_memory [].

Lemma sample_gpt_ok : gpt_ok sample_gpt.
Proof.
  split; [done|done|]. intros i j d e Hi Hj Hij [? Hd] [? He]. exfalso.
  destruct i as [|[|[|[|i]]]], j as [|[|[|[|j]]]]; simplify_eq/=; vm_compute in Hd, He; done.
Qed.

Lemma sample_gpt_valid : gpt_valid sample_gpt sample_memory.
Proof.
  intros pa Hin. destruct (l0_entry_is_Some _ sample_gpt_ok pa Hin) as [d Hd].
  destruct (resolve_bounds _ pa Hin (ok_sizes _ sample_gpt_ok)) as (Hl0 & _ & Hgr).
  assert (0 ≤ l0_resolve sample_config pa < 4) as Hl0' by exact Hl0.
  destruct (in_space_dec sample_gpt pa) as [[_ Hlt]|[? _]]; [apply Hin| |done].
  destruct (decide (l0_resolve sample_config pa = 0)) as [H0|H0].
  - unfold l0_entry in Hd. cbn [sample_gpt config level0] in Hd. rewrite H0 in Hd.
    injection Hd as <-. set (a := l1_entry_addr sample_gpt 0x100003 pa).
    assert (sample_memory a = 0xAAAAAAAAAAAAAAAA ∨ sample_memory a = 0x9999999999999999) as Hm.
    { unfold sample_memory. destruct (_ =? _); auto. }
    rewrite (gpt_lookup_granule sample_gpt sample_gpt_ok sample_memory pa 0x100003
      (if a =? 0x100008 then GpiRoot else GpiNonSecure)); fold a.
    + cbn [sample_gpt config] in *. set (i := granule_resolve sample_config pa) in *.
      assert (i = 0 ∨ i = 1 ∨ i = 2 ∨ i = 3 ∨ i = 4 ∨ i = 5 ∨ i = 6 ∨ i = 7 ∨ i = 8 ∨ i = 9 ∨
        i = 10 ∨ i = 11 ∨ i = 12 ∨ i = 13 ∨ i = 14 ∨ i = 15) as Hi by lia. clearbody i.
      destruct Hm as [-> | ->]; repeat (destruct Hi as [->|Hi]; [by eexists|]); subst i; by eexists.
    + done.
    + unfold l0_entry. cbn [sample_gpt config level0]. by rewrite H0.
    + done.
    + unfold sample_memory. by destruct (_ =? _).
  - assert (l0_resolve sample_config pa = 1 ∨ l0_resolve sample_config pa = 2 ∨
      l0_resolve sample_config pa = 3) as Hcases by lia.
    unfold gpt_lookup. rewrite Hlt. cbn [sample_gpt config level0].
    destruct Hcases as [-> |[-> | ->]]; by eexists.
Qed.

(** A platform without attestation. *)
Definition sample_plat : RmmPlatform unit :=
  mkRmmPlatform 0x80000000 4 (λ buf _, mret (Err RmmUnknown, buf))
    (λ buf _ _, mret (Ok (0, 0), buf)).
Definition sample_state : RmmdState unit :=
  rmmd_new sample_plat sample_machine (replicate 4096 0) tt.
(** The registers of a call. *)
Definition call_regs (args : list Z) : SmcReturn :=
  mkSmcReturn 18 (args ++ replicate (18 - length args) 0).

(** ** Granule protection tables *)

(** C28: an update of the granule protection table always returns.  If it
    succeeds the granule has the new permission, every other granule keeps its
    own, and the write is followed by a barrier, the invalidation of the granule
    and another barrier; if it fails nothing has changed, and a malformed entry
    is reported as a lookup reports it. *)
Theorem gpt_set_exact g pa v m :
  gpt_ok g → 0 ≤ pa →
  ∃ r m', gpt_set g pa v m = Ret r m' ∧
    match r with
    | Ok _ =>
        (∀ pa', 0 ≤ pa' → gpt_lookup g (memory m') pa' =
           if decide (granule_of (config g) pa = granule_of (config g) pa') then Done (Ok v)
           else gpt_lookup g (memory m) pa') ∧
        ∃ a new, trace m' = trace m ++ [WriteL1 a new; DsbOshst; TlbiRpalos (tlbi_arg g pa); DsbOsh]
    | Err e => m' = m ∧ (e ≠ InvalidRequest → gpt_lookup g (memory m) pa = Done (Err e))
    end.
Proof.
  intros Hok Hpa. pose proof (gpt_set_outcome g Hok pa v m Hpa) as Hout.
  pose proof (gpt_set_lookup_lemma g Hok pa v m) as Hl.
  inversion Hout as [?|?|d Hin Hd Hb Ht|?|d Hin Hd Ht Hc Hgr|d g0 new Hin Hd Ht Hg0 Hnew Heq];
    eexists _, _; (split; [done|]); try done.
  - split; [done|]. intros _. by apply (gpt_lookup_invalid_l0 g (memory m) pa d).
  - split; [done|]. intros _. by apply (gpt_lookup_invalid_l1 g Hok (memory m) pa d).
  - split; [|eauto]. by apply Hl.
Qed.

Lemma gpt_set_exact_witness :
  ∃ r m', gpt_set sample_gpt 0x3000 GpiRealm sample_machine = Ret r m' ∧
    match r with
    | Ok _ =>
        (∀ pa', 0 ≤ pa' → gpt_lookup sample_gpt (memory m') pa' =
           if decide (granule_of sample_config 0x3000 = granule_of sample_config pa')
           then Done (Ok GpiRealm) else gpt_lookup sample_gpt sample_memory pa') ∧
        ∃ a new, trace m' =
          [] ++ [WriteL1 a new; DsbOshst; TlbiRpalos (tlbi_arg sample_gpt 0x3000); DsbOsh]
    | Err e => m' = sample_machine ∧
        (e ≠ InvalidRequest → gpt_lookup sample_gpt sample_memory 0x3000 = Done (Err e))
    end.
Proof. apply (gpt_set_exact sample_gpt 0x3000 GpiRealm sample_machine sample_gpt_ok). lia. Defined.

(** The granules of a descriptor built from a list. *)
Lemma granule_loop_spec gpis i d :
  0 ≤ i → i + Z.of_nat (length gpis) ≤ 16 →
  ∃ d', granule_loop i gpis d = Done d' ∧
    (∀ k v, gpis !! k = Some v → nibble d' (i + Z.of_nat k) = gpi_into v) ∧
    (∀ j, 0 ≤ j < i → nibble d' j = nibble d j).
Proof.
  revert i d. induction gpis as [|v gpis IH]; intros i d Hi Hlen.
  { exists d. split; [done|]. split; [|done]. intros k v Hk. by rewrite lookup_nil in Hk. }
  cbn [length] in Hlen. destruct (set_gpi_eq d i v) as (d1 & Hd1 & Hn1); [lia|].
  destruct (IH (i + 1) d1) as (d' & Hd' & Hk & Hj); [lia..|].
  exists d'. cbn [granule_loop]. rewrite Hd1. split; [done|]. split.
  - intros [|k] u Hu; simplify_eq/=.
    + replace (i + 0) with i by lia. rewrite Hj, Hn1, decide_True by lia. done.
    + rewrite <-(Hk k u Hu). f_equal. lia.
  - intros j Hj'. rewrite Hj, Hn1, decide_False by lia. done.
Qed.

(** The descriptors are read back as they were built: the permission of a
    block, the address of a table, the size and permission of a contiguous
    descriptor, and all sixteen permissions of a granule descriptor; and each is
    recognised as what it is. *)
Theorem descriptor_round_trip :
  (∀ v, as_block (block v) = Some (block v) ∧ as_table (block v) = None ∧
        field_gpi (block v) = Done v) ∧
  (∀ addr d, table addr = Done d → as_table d = Some d ∧ as_block d = None ∧ table_address d = addr) ∧
  (∀ sz v, as_contig (contig sz v) = Some (contig sz v) ∧ as_granule (contig sz v) = None ∧
           field_size (contig sz v) = Done sz ∧ field_gpi (contig sz v) = Done v) ∧
  (∀ gpis, length gpis = 16%nat →
     ∃ d, granule gpis = Done d ∧ as_granule d = Some d ∧ as_contig d = None ∧
       ∀ (i : nat) v, gpis !! i = Some v → granule_gpi d (Z.of_nat i) = Done (Some v)).
Proof.
  split; [by intros []|]. split; [|split; [by intros [] []|]].
  - intros addr d Hd. unfold table in Hd. outcome_invs.
    match goal with H : (_ =? _) = true |- _ => apply Z.eqb_eq in H as Hm end.
    rewrite Hm in *. apply and_assoc. assert (Z.land (Z.lor TABLE_TAG addr) TAG_MASK = TABLE_TAG) as Htag.
    { rewrite <-Hm, Z.land_lor_distr_l, <-Z.land_assoc.
      change (Z.land TABLE_ADDR_MASK TAG_MASK) with 0. by rewrite Z.land_0_r. }
    split; [unfold as_table, as_block; by rewrite Htag|].
    unfold table_address. rewrite Z.land_lor_distr_l, Hm. done.
  - intros gpis Hlen. destruct (granule_loop_spec gpis 0 0) as (d & Hd & Hk & _); [lia..|].
    exists d. split; [done|]. destruct (lookup_lt_is_Some_2 gpis 0) as [v0 Hv0]; [lia|].
    pose proof (Hk 0%nat v0 Hv0) as Hn0. split; [by eapply as_granule_intro|].
    split; [by eapply as_contig_granule|]. intros i v Hv. pose proof (lookup_lt_Some _ _ _ Hv).
    rewrite granule_gpi_eq by lia. rewrite (Hk i v Hv : nibble d (Z.of_nat i) = _).
    by rewrite gpi_try_from_into.
Qed.

(** ** The RMM dispatcher *)

(** What other worlds can do to the state of the dispatcher: calls of either
    world on any core, and writes of the RMM to the shared buffer. *)
Section Steps.
Context {P : Type} (plat : RmmPlatform P) (g : GranuleProtection) (sctlr_c mte2 : bool).
Local Abbreviation St := (RmmdState P).
Implicit Types s : St.

Inductive rmm_step : St → St → Prop :=
| step_realm core regs w regs' s s' :
    regs_u64 regs →
    rmmd_handle_realm_smc plat (Some g) sctlr_c mte2 core regs s = Ret (w, regs') s' → rmm_step s s'
| step_non_secure regs w regs' s s' :
    rmmd_handle_non_secure_smc regs s = Ret (w, regs') s' → rmm_step s s'
| step_shared_buffer buf s :
    rmm_step s (mkRmmd (machine s) (activation_token s) (attestation_token_read_index s)
                  (rmm_boot_state s) buf (rmm_plat s)).

Lemma non_secure_smc_state regs w regs' s s' :
  rmmd_handle_non_secure_smc regs s = Ret (w, regs') s' →
  s' = s ∧ (w = Realm → rmm_boot_state s = ColdBootDone ∧ regs' = regs).
Proof.
  unfold rmmd_handle_non_secure_smc. cbv [mbind M_bind lift get].
  destruct (arr_get _ 0); [|done]. case_match eqn:Hb; intros [= <- <- <-]; (split; [done|]); [|done].
  apply andb_true_iff in Hb as [_ Hb]. intros _. split; [|done]. by apply bool_decide_eq_true in Hb.
Qed.

(** C3: whatever the RMM and the Normal World call, in any order and on any
    cores, a granule that belongs to the Secure or the Root world, or that is
    closed or open to all, keeps its permission, and the other granules stay
    Non-secure or Realm. *)
Theorem rmm_granule_isolation s s' pa v :
  gpt_ok g → rtc rmm_step s s' → 0 ≤ pa →
  gpt_lookup g (memory (machine s)) pa = Done (Ok v) →
  (¬ shared_pas v → gpt_lookup g (memory (machine s')) pa = Done (Ok v)) ∧
  (shared_pas v → ∃ v', shared_pas v' ∧ gpt_lookup g (memory (machine s')) pa = Done (Ok v')).
Proof.
  intros Hok Hsteps Hpa Hv.
  assert (pas_preserved g (memory (machine s)) (memory (machine s'))) as Hp.
  { clear Hv. induction Hsteps as [|s1 s2 s3 Hstep _ IH]; [done|]. etrans; [|exact IH].
    destruct Hstep as [core regs w regs' s1 s2 Hregs Hrun|regs w regs' s1 s2 Hrun|]; [| |done].
    - pose proof (realm_smc_pas g Hok plat sctlr_c mte2 core regs Hregs s1) as Hk. by rewrite Hrun in Hk.
    - by apply non_secure_smc_state in Hrun as [-> _]. }
  destruct (Hp pa Hpa) as [E|(u & u' & E & E' & Hu & Hu')].
  - rewrite E. split; [done|eauto].
  - assert (u = v) as -> by congruence. split; [done|eauto].
Qed.

(** Delegation moves an aligned Non-secure granule to the Realm world,
    undelegation moves it back; nothing else changes.  The aliases of a granule
    are cleaned in the order that keeps the worlds apart: the Realm alias before
    a delegation and the Non-secure one after it; before an undelegated granule
    becomes Non-secure its access is removed and both aliases are cleaned.
    Otherwise the code names the reason and no permission changes. *)
Theorem granule_transitions pa regs s :
  gpt_ok g → gpt_valid g (memory (machine s)) → sctlr_c = true → 0 ≤ pa →
  (∃ code s', gtsi_delegate (Some g) sctlr_c mte2 pa regs s =
      Ret (Ok (Realm, set_from_rmm_code code regs)) s' ∧
    transition_post g pa GpiNonSecure GpiRealm (delegate_events g mte2 pa) code s s') ∧
  (∃ code s', gtsi_undelegate (Some g) sctlr_c mte2 pa regs s =
      Ret (Ok (Realm, set_from_rmm_code code regs)) s' ∧
    transition_post g pa GpiRealm GpiNonSecure (undelegate_events g mte2 pa) code s s').
Proof.
  intros Hok Hv Hc Hpa. split; (eapply (transition_total g sctlr_c); [done|done|]).
  - by apply gtsi_delegate_transition.
  - by apply gtsi_undelegate_transition.
Qed.
End Steps.

Lemma delegate_step :
  rtc (rmm_step sample_plat sample_gpt true true) sample_state
    (match rmmd_handle_realm_smc sample_plat (Some sample_gpt) true true 0
             (call_regs [0xC40001B0; 0x3000]) sample_state with
     | Ret _ s' => s' | _ => sample_state end).
Proof.
  eapply rtc_once, (step_realm _ _ _ _ 0 (call_regs [0xC40001B0; 0x3000])).
  - repeat constructor; lia.
  - reflexivity.
Qed.

Lemma rmm_granule_isolation_witness : ∃ s',
  rtc (rmm_step sample_plat sample_gpt true true) sample_state s' ∧
  (¬ shared_pas GpiRoot → gpt_lookup sample_gpt (memory (machine s')) 0x10000 = Done (Ok GpiRoot)) ∧
  (shared_pas GpiRoot → ∃ v', shared_pas v' ∧
     gpt_lookup sample_gpt (memory (machine s')) 0x10000 = Done (Ok v')).
Proof.
  eexists. split; [exact delegate_step|].
  apply (rmm_granule_isolation sample_plat sample_gpt true true sample_state _ 0x10000 GpiRoot
    sample_gpt_ok delegate_step); [lia|reflexivity].
Defined.

Lemma granule_transitions_witness :
  (∃ code s', gtsi_delegate (Some sample_gpt) true false 0x3000 (call_regs [0xC40001B0; 0x3000])
        sample_state =
      Ret (Ok (Realm, set_from_rmm_code code (call_regs [0xC40001B0; 0x3000]))) s' ∧
    transition_post sample_gpt 0x3000 GpiNonSecure GpiRealm
      (delegate_events sample_gpt false 0x3000) code sample_state s') ∧
  (∃ code s', gtsi_undelegate (Some sample_gpt) true false 0x3000 (call_regs [0xC40001B0; 0x3000])
        sample_state =
      Ret (Ok (Realm, set_from_rmm_code code (call_regs [0xC40001B0; 0x3000]))) s' ∧
    transition_post sample_gpt 0x3000 GpiRealm GpiNonSecure
      (undelegate_events sample_gpt false 0x3000) code sample_state s').
Proof.
  apply (granule_transitions sample_gpt true false 0x3000 (call_regs [0xC40001B0; 0x3000])
    sample_state sample_gpt_ok sample_gpt_valid eq_refl). lia.
Defined.

(** Every call of the RMM that EL3 implements is answered: with a valid
    table, the caches on and a platform that keeps its promises, nothing panics,
    the state stays well formed, and the core continues in the Realm or the
    Normal World. *)
Theorem realm_smc_total {P} (plat : RmmPlatform P) g mte2 core regs s :
  rmm_platform_ok plat → gpt_ok g → (core < CORE_COUNT plat)%nat →
  rmm_ok plat g s → smc_return_wf regs → used regs = MAX_VALUES → regs_u64 regs →
  (∀ c, from_regs (values regs) = Done (Ok c) → implemented c = true) →
  ∃ w regs' s', rmmd_handle_realm_smc plat (Some g) true mte2 core regs s = Ret (w, regs') s' ∧
    rmm_ok plat g s' ∧ w ≠ Secure.
Proof. apply realm_smc_returns. Qed.

Lemma realm_smc_total_witness :
  ∃ w regs' s', rmmd_handle_realm_smc sample_plat (Some sample_gpt) true false 2
      (call_regs [0xC40001B0; 0x3000]) sample_state = Ret (w, regs') s' ∧
    rmm_ok sample_plat sample_gpt s' ∧ w ≠ Secure.
Proof.
  apply (realm_smc_total sample_plat sample_gpt false 2 (call_regs [0xC40001B0; 0x3000]) sample_state).
  - split; [done|..]; intros; eexists _, _, _; (split; [done|]); [done|]. split; [done|].
    intros size rem [= <- <-]. done.
  - exact sample_gpt_ok.
  - cbn. lia.
  - split; [exact sample_gpt_valid|done|done|done].
  - by split.
  - done.
  - repeat constructor; lia.
  - intros c Hc. by injection Hc as <-.
Defined.

Section Boot.
Context {P : Type} (plat : RmmPlatform P) (g : GranuleProtection) (sctlr_c mte2 : bool).

(** Once a boot of the RMM has failed on any core, whatever is called
    afterwards in any order, the RMM stays disabled: no call of the Normal World
    is forwarded to it, and its own calls are refused with a switch to the
    Normal World and without an effect. *)
Theorem rmm_failure_is_final (s s' : RmmdState P) core regs :
  gpt_ok g → rmm_boot_state s = BootError → rtc (rmm_step plat g sctlr_c mte2) s s' →
  (0 < used regs)%nat → smc_return_wf regs →
  rmmd_handle_non_secure_smc regs s' = Ret (NonSecure, set_from_i32 NOT_SUPPORTED regs) s' ∧
  rmmd_handle_realm_smc plat (Some g) sctlr_c mte2 core regs s' =
    Ret (NonSecure, set_from_i32 NOT_SUPPORTED regs) s'.
Proof.
  intros Hok Hs Hsteps Hused [Hlen Hmax].
  assert (rmm_boot_state s' = BootError) as Hs'.
  { induction Hsteps as [|s1 s2 s3 Hstep _ IH]; [done|]. apply IH.
    destruct Hstep as [core' r w r' s1 s2 Hregs Hrun|r w r' s1 s2 Hrun|]; [| |done].
    - pose proof (realm_smc_boot g Hok plat sctlr_c mte2 core' r Hregs s1) as Hk.
      rewrite Hrun in Hk. unfold boot_rel in Hk. by rewrite Hs in Hk.
    - by apply non_secure_smc_state in Hrun as [-> _]. }
  unfold rmmd_handle_non_secure_smc, rmmd_handle_realm_smc, boot_success, boot_failure.
  cbv [mbind M_bind get lift]. destruct (lookup_lt_is_Some_2 (values regs) 0) as [x0 Hx0].
  { unfold values. rewrite length_take. lia. }
  unfold arr_get. rewrite Hx0. cbn [unwrap].
  rewrite (bool_decide_false (rmm_boot_state s' = ColdBootDone)) by congruence.
  by rewrite (bool_decide_true (rmm_boot_state s' = BootError)), andb_false_r by done.
Qed.
End Boot.

Lemma rmm_failure_is_final_witness :
  let s := mkRmmd sample_machine (replicate 4 None) 0 BootError (replicate 4096 0) tt in
  let regs := call_regs [0xC4000150] in
  rmmd_handle_non_secure_smc regs s = Ret (NonSecure, set_from_i32 NOT_SUPPORTED regs) s ∧
  rmmd_handle_realm_smc sample_plat (Some sample_gpt) true true 1 regs s =
    Ret (NonSecure, set_from_i32 NOT_SUPPORTED regs) s.
Proof.
  intros s regs.
  apply (rmm_failure_is_final sample_plat sample_gpt true true s s 1 regs sample_gpt_ok eq_refl);
    [constructor|cbn; lia|by split].
Defined.

(** EL3 answers no call of the RMM but RMM_BOOT_COMPLETE when the SVE hint
    of its function identifier is set: every other call is refused as not
    supported, although the SMC calling convention has the hint ignored. *)
Theorem rmm_calls_with_sve_hint {P} (plat : RmmPlatform P) gpt sctlr_c mte2 core regs x0 s :
  values regs !! 0%nat = Some x0 → sve_hint (as_u32 x0) = true →
  clear_sve_hint (as_u32 x0) ≠ RMM_BOOT_COMPLETE → rmm_boot_state s ≠ BootError →
  rmmd_handle_realm_smc plat gpt sctlr_c mte2 core regs s =
    Ret (Realm, set_from_i32 NOT_SUPPORTED regs) s.
Proof.
  intros Hx0 Hsve Hne Hs. unfold rmmd_handle_realm_smc, boot_failure. cbv [mbind M_bind get].
  rewrite bool_decide_false by done. unfold try_handle_realm_smc. cbv [mbind M_bind lift].
  unfold arr_get. rewrite Hx0. cbn [unwrap]. rewrite (proj2 (Z.eqb_neq _ _)) by done.
  unfold from_regs, arr_get. cbv beta zeta. rewrite Hx0. cbn [unwrap mbind outcome_bind].
  destruct (rmm_fid_try_from (as_u32 x0)) as [fid|e] eqn:Hfid; [exfalso|].
  - unfold rmm_fid_try_from in Hfid. repeat case_match; simplify_eq;
      match goal with H : (as_u32 x0 =? _) = true |- _ => apply Z.eqb_eq in H; by rewrite H in Hsve end.
  - assert (e = UnrecognisedFunctionId (as_u32 x0)) as ->; [|reflexivity].
    unfold rmm_fid_try_from in Hfid. by repeat (case_match; [done|]); simplify_eq.
Qed.

Lemma rmm_calls_with_sve_hint_witness :
  rmmd_handle_realm_smc sample_plat (Some sample_gpt) true false 0
    (call_regs [0xC40101B0; 0x3000]) sample_state =
  Ret (Realm, set_from_i32 NOT_SUPPORTED (call_regs [0xC40101B0; 0x3000])) sample_state.
Proof.
  apply (rmm_calls_with_sve_hint sample_plat (Some sample_gpt) true false 0
    (call_regs [0xC40101B0; 0x3000]) 0xC40101B0 sample_state); done.
Defined.
