(* ===== verification/FvpRmm.v ===== *)
(** * Attestation on FVP

    The parts of [fvp-rf-a-bl31/src/main.rs] the RMM dispatcher uses: the key and the
    token of the platform, which the RMM reads in hunks through the shared buffer. *)

From Stdlib Require Import ZArith Lia.
From stdpp Require Import base list numbers option.
From S2P Require Import Prelude Smccc Platforms Gpt Rmm GptProofs RmmProofs RmmProps.
Open Scope rust_scope.
Open Scope Z_scope.

Definition ATTESTATION_KEY_ECC_SECP384R1 : list Z := [
  0x20; 0x11; 0xC7; 0xF0; 0x3C; 0xEE; 0x43; 0x25; 0x17; 0x6E; 0x52; 0x4F; 0x03; 0x3C; 0x0C; 0xE1;
  0xE2; 0x1A; 0x76; 0xE6; 0xC1; 0xA4; 0xF0; 0xB8; 0x39; 0xAA; 0x1D; 0xF6; 0x1E; 0x0E; 0x8A; 0x5C;
  0x8A; 0x05; 0x74; 0x0F; 0x9B; 0x69; 0xEF; 0xA7; 0xEB; 0x1A; 0x41; 0x85; 0xBD; 0x11; 0x7F; 0x68].
Definition ATTESTATION_TOKEN : list Z := [
  0xd2; 0x84; 0x44; 0xa1; 0x01; 0x38; 0x22; 0xa0; 0x59; 0x05; 0x81; 0xa9; 0x19; 0x01; 0x09; 0x78;
  0x23; 0x74; 0x61; 0x67; 0x3a; 0x61; 0x72; 0x6d; 0x2e; 0x63; 0x6f; 0x6d; 0x2c; 0x32; 0x30; 0x32;
  0x33; 0x3a; 0x63; 0x63; 0x61; 0x5f; 0x70; 0x6c; 0x61; 0x74; 0x66; 0x6f; 0x72; 0x6d; 0x23; 0x31;
  0x2e; 0x30; 0x2e; 0x30; 0x0a; 0x58; 0x20; 0x0d; 0x22; 0xe0; 0x8a; 0x98; 0x46; 0x90; 0x58; 0x48;
  0x63; 0x18; 0x28; 0x34; 0x89; 0xbd; 0xb3; 0x6f; 0x09; 0xdb; 0xef; 0xeb; 0x18; 0x64; 0xdf; 0x43;
  0x3f; 0xa6; 0xe5; 0x4e; 0xa2; 0xd7; 0x11; 0x19; 0x09; 0x5c; 0x58; 0x20; 0x7f; 0x45; 0x4c; 0x46;
  0x02; 0x01; 0x01; 0x00; 0x00; 0x00; 0x00; 0x00; 0x00; 0x00; 0x00; 0x00; 0x03; 0x00; 0x3e; 0x00;
  0x01; 0x00; 0x00; 0x00; 0x50; 0x58; 0x00; 0x00; 0x00; 0x00; 0x00; 0x00; 0x19; 0x01; 0x00; 0x58;
  0x21; 0x01; 0x07; 0x06; 0x05; 0x04; 0x03; 0x02; 0x01; 0x00; 0x0f; 0x0e; 0x0d; 0x0c; 0x0b; 0x0a;
  0x09; 0x08; 0x17; 0x16; 0x15; 0x14; 0x13; 0x12; 0x11; 0x10; 0x1f; 0x1e; 0x1d; 0x1c; 0x1b; 0x1a;
  0x19; 0x18; 0x19; 0x09; 0x61; 0x44; 0xcf; 0xcf; 0xcf; 0xcf; 0x19; 0x09; 0x5b; 0x19; 0x30; 0x03;
  0x19; 0x09; 0x62; 0x67; 0x73; 0x68; 0x61; 0x2d; 0x32; 0x35; 0x36; 0x19; 0x09; 0x60; 0x78; 0x3a;
  0x68; 0x74; 0x74; 0x70; 0x73; 0x3a; 0x2f; 0x2f; 0x76; 0x65; 0x72; 0x61; 0x69; 0x73; 0x6f; 0x6e;
  0x2e; 0x65; 0x78; 0x61; 0x6d; 0x70; 0x6c; 0x65; 0x2f; 0x2e; 0x77; 0x65; 0x6c; 0x6c; 0x2d; 0x6b;
  0x6e; 0x6f; 0x77; 0x6e; 0x2f; 0x76; 0x65; 0x72; 0x61; 0x69; 0x73; 0x6f; 0x6e; 0x2f; 0x76; 0x65;
  0x72; 0x69; 0x66; 0x69; 0x63; 0x61; 0x74; 0x69; 0x6f; 0x6e; 0x19; 0x09; 0x5f; 0x8d; 0xa4; 0x01;
  0x69; 0x52; 0x53; 0x45; 0x5f; 0x42; 0x4c; 0x31; 0x5f; 0x32; 0x05; 0x58; 0x20; 0x53; 0x78; 0x79;
  0x63; 0x07; 0x53; 0x5d; 0xf3; 0xec; 0x8d; 0x8b; 0x15; 0xa2; 0xe2; 0xdc; 0x56; 0x41; 0x41; 0x9c;
  0x3d; 0x30; 0x60; 0xcf; 0xe3; 0x22; 0x38; 0xc0; 0xfa; 0x97; 0x3f; 0x7a; 0xa3; 0x02; 0x58; 0x20;
  0x9a; 0x27; 0x1f; 0x2a; 0x91; 0x6b; 0x0b; 0x6e; 0xe6; 0xce; 0xcb; 0x24; 0x26; 0xf0; 0xb3; 0x20;
  0x6e; 0xf0; 0x74; 0x57; 0x8b; 0xe5; 0x5d; 0x9b; 0xc9; 0x4f; 0x6f; 0x3f; 0xe3; 0xab; 0x86; 0xaa;
  0x06; 0x67; 0x73; 0x68; 0x61; 0x2d; 0x32; 0x35; 0x36; 0xa4; 0x01; 0x67; 0x52; 0x53; 0x45; 0x5f;
  0x42; 0x4c; 0x32; 0x05; 0x58; 0x20; 0x53; 0x78; 0x79; 0x63; 0x07; 0x53; 0x5d; 0xf3; 0xec; 0x8d;
  0x8b; 0x15; 0xa2; 0xe2; 0xdc; 0x56; 0x41; 0x41; 0x9c; 0x3d; 0x30; 0x60; 0xcf; 0xe3; 0x22; 0x38;
  0xc0; 0xfa; 0x97; 0x3f; 0x7a; 0xa3; 0x02; 0x58; 0x20; 0x53; 0xc2; 0x34; 0xe5; 0xe8; 0x47; 0x2b;
  0x6a; 0xc5; 0x1c; 0x1a; 0xe1; 0xca; 0xb3; 0xfe; 0x06; 0xfa; 0xd0; 0x53; 0xbe; 0xb8; 0xeb; 0xfd;
  0x89; 0x77; 0xb0; 0x10; 0x65; 0x5b; 0xfd; 0xd3; 0xc3; 0x06; 0x67; 0x73; 0x68; 0x61; 0x2d; 0x32;
  0x35; 0x36; 0xa4; 0x01; 0x65; 0x52; 0x53; 0x45; 0x5f; 0x53; 0x05; 0x58; 0x20; 0x53; 0x78; 0x79;
  0x63; 0x07; 0x53; 0x5d; 0xf3; 0xec; 0x8d; 0x8b; 0x15; 0xa2; 0xe2; 0xdc; 0x56; 0x41; 0x41; 0x9c;
  0x3d; 0x30; 0x60; 0xcf; 0xe3; 0x22; 0x38; 0xc0; 0xfa; 0x97; 0x3f; 0x7a; 0xa3; 0x02; 0x58; 0x20;
  0x11; 0x21; 0xcf; 0xcc; 0xd5; 0x91; 0x3f; 0x0a; 0x63; 0xfe; 0xc4; 0x0a; 0x6f; 0xfd; 0x44; 0xea;
  0x64; 0xf9; 0xdc; 0x13; 0x5c; 0x66; 0x63; 0x4b; 0xa0; 0x01; 0xd1; 0x0b; 0xcf; 0x43; 0x02; 0xa2;
  0x06; 0x67; 0x73; 0x68; 0x61; 0x2d; 0x32; 0x35; 0x36; 0xa4; 0x01; 0x66; 0x41; 0x50; 0x5f; 0x42;
  0x4c; 0x31; 0x05; 0x58; 0x20; 0x53; 0x78; 0x79; 0x63; 0x07; 0x53; 0x5d; 0xf3; 0xec; 0x8d; 0x8b;
  0x15; 0xa2; 0xe2; 0xdc; 0x56; 0x41; 0x41; 0x9c; 0x3d; 0x30; 0x60; 0xcf; 0xe3; 0x22; 0x38; 0xc0;
  0xfa; 0x97; 0x3f; 0x7a; 0xa3; 0x02; 0x58; 0x20; 0x15; 0x71; 0xb5; 0xec; 0x78; 0xbd; 0x68; 0x51;
  0x2b; 0xf7; 0x83; 0x0b; 0xb6; 0xa2; 0xa4; 0x4b; 0x20; 0x47; 0xc7; 0xdf; 0x57; 0xbc; 0xe7; 0x9e;
  0xb8; 0xa1; 0xc0; 0xe5; 0xbe; 0xa0; 0xa5; 0x01; 0x06; 0x67; 0x73; 0x68; 0x61; 0x2d; 0x32; 0x35;
  0x36; 0xa4; 0x01; 0x66; 0x41; 0x50; 0x5f; 0x42; 0x4c; 0x32; 0x05; 0x58; 0x20; 0x53; 0x78; 0x79;
  0x63; 0x07; 0x53; 0x5d; 0xf3; 0xec; 0x8d; 0x8b; 0x15; 0xa2; 0xe2; 0xdc; 0x56; 0x41; 0x41; 0x9c;
  0x3d; 0x30; 0x60; 0xcf; 0xe3; 0x22; 0x38; 0xc0; 0xfa; 0x97; 0x3f; 0x7a; 0xa3; 0x02; 0x58; 0x20;
  0x10; 0x15; 0x9b; 0xaf; 0x26; 0x2b; 0x43; 0xa9; 0x2d; 0x95; 0xdb; 0x59; 0xda; 0xe1; 0xf7; 0x2c;
  0x64; 0x51; 0x27; 0x30; 0x16; 0x61; 0xe0; 0xa3; 0xce; 0x4e; 0x38; 0xb2; 0x95; 0xa9; 0x7c; 0x58;
  0x06; 0x67; 0x73; 0x68; 0x61; 0x2d; 0x32; 0x35; 0x36; 0xa4; 0x01; 0x67; 0x53; 0x43; 0x50; 0x5f;
  0x42; 0x4c; 0x31; 0x05; 0x58; 0x20; 0x53; 0x78; 0x79; 0x63; 0x07; 0x53; 0x5d; 0xf3; 0xec; 0x8d;
  0x8b; 0x15; 0xa2; 0xe2; 0xdc; 0x56; 0x41; 0x41; 0x9c; 0x3d; 0x30; 0x60; 0xcf; 0xe3; 0x22; 0x38;
  0xc0; 0xfa; 0x97; 0x3f; 0x7a; 0xa3; 0x02; 0x58; 0x20; 0x10; 0x12; 0x2e; 0x85; 0x6b; 0x3f; 0xcd;
  0x49; 0xf0; 0x63; 0x63; 0x63; 0x17; 0x47; 0x61; 0x49; 0xcb; 0x73; 0x0a; 0x1a; 0xa1; 0xcf; 0xaa;
  0xd8; 0x18; 0x55; 0x2b; 0x72; 0xf5; 0x6d; 0x6f; 0x68; 0x06; 0x67; 0x73; 0x68; 0x61; 0x2d; 0x32;
  0x35; 0x36; 0xa4; 0x01; 0x67; 0x53; 0x43; 0x50; 0x5f; 0x42; 0x4c; 0x32; 0x05; 0x58; 0x20; 0xf1;
  0x4b; 0x49; 0x87; 0x90; 0x4b; 0xcb; 0x58; 0x14; 0xe4; 0x45; 0x9a; 0x05; 0x7e; 0xd4; 0xd2; 0x0f;
  0x58; 0xa6; 0x33; 0x15; 0x22; 0x88; 0xa7; 0x61; 0x21; 0x4d; 0xcd; 0x28; 0x78; 0x0b; 0x56; 0x02;
  0x58; 0x20; 0xaa; 0x67; 0xa1; 0x69; 0xb0; 0xbb; 0xa2; 0x17; 0xaa; 0x0a; 0xa8; 0x8a; 0x65; 0x34;
  0x69; 0x20; 0xc8; 0x4c; 0x42; 0x44; 0x7c; 0x36; 0xba; 0x5f; 0x7e; 0xa6; 0x5f; 0x42; 0x2c; 0x1f;
  0xe5; 0xd8; 0x06; 0x67; 0x73; 0x68; 0x61; 0x2d; 0x32; 0x35; 0x36; 0xa4; 0x01; 0x67; 0x41; 0x50;
  0x5f; 0x42; 0x4c; 0x33; 0x31; 0x05; 0x58; 0x20; 0x53; 0x78; 0x79; 0x63; 0x07; 0x53; 0x5d; 0xf3;
  0xec; 0x8d; 0x8b; 0x15; 0xa2; 0xe2; 0xdc; 0x56; 0x41; 0x41; 0x9c; 0x3d; 0x30; 0x60; 0xcf; 0xe3;
  0x22; 0x38; 0xc0; 0xfa; 0x97; 0x3f; 0x7a; 0xa3; 0x02; 0x58; 0x20; 0x2e; 0x6d; 0x31; 0xa5; 0x98;
  0x3a; 0x91; 0x25; 0x1b; 0xfa; 0xe5; 0xae; 0xfa; 0x1c; 0x0a; 0x19; 0xd8; 0xba; 0x3c; 0xf6; 0x01;
  0xd0; 0xe8; 0xa7; 0x06; 0xb4; 0xcf; 0xa9; 0x66; 0x1a; 0x6b; 0x8a; 0x06; 0x67; 0x73; 0x68; 0x61;
  0x2d; 0x32; 0x35; 0x36; 0xa4; 0x01; 0x63; 0x52; 0x4d; 0x4d; 0x05; 0x58; 0x20; 0x53; 0x78; 0x79;
  0x63; 0x07; 0x53; 0x5d; 0xf3; 0xec; 0x8d; 0x8b; 0x15; 0xa2; 0xe2; 0xdc; 0x56; 0x41; 0x41; 0x9c;
  0x3d; 0x30; 0x60; 0xcf; 0xe3; 0x22; 0x38; 0xc0; 0xfa; 0x97; 0x3f; 0x7a; 0xa3; 0x02; 0x58; 0x20;
  0xa1; 0xfb; 0x50; 0xe6; 0xc8; 0x6f; 0xae; 0x16; 0x79; 0xef; 0x33; 0x51; 0x29; 0x6f; 0xd6; 0x71;
  0x34; 0x11; 0xa0; 0x8c; 0xf8; 0xdd; 0x17; 0x90; 0xa4; 0xfd; 0x05; 0xfa; 0xe8; 0x68; 0x81; 0x64;
  0x06; 0x67; 0x73; 0x68; 0x61; 0x2d; 0x32; 0x35; 0x36; 0xa4; 0x01; 0x69; 0x48; 0x57; 0x5f; 0x43;
  0x4f; 0x4e; 0x46; 0x49; 0x47; 0x05; 0x58; 0x20; 0x53; 0x78; 0x79; 0x63; 0x07; 0x53; 0x5d; 0xf3;
  0xec; 0x8d; 0x8b; 0x15; 0xa2; 0xe2; 0xdc; 0x56; 0x41; 0x41; 0x9c; 0x3d; 0x30; 0x60; 0xcf; 0xe3;
  0x22; 0x38; 0xc0; 0xfa; 0x97; 0x3f; 0x7a; 0xa3; 0x02; 0x58; 0x20; 0x1a; 0x25; 0x24; 0x02; 0x97;
  0x2f; 0x60; 0x57; 0xfa; 0x53; 0xcc; 0x17; 0x2b; 0x52; 0xb9; 0xff; 0xca; 0x69; 0x8e; 0x18; 0x31;
  0x1f; 0xac; 0xd0; 0xf3; 0xb0; 0x6e; 0xca; 0xae; 0xf7; 0x9e; 0x17; 0x06; 0x67; 0x73; 0x68; 0x61;
  0x2d; 0x32; 0x35; 0x36; 0xa4; 0x01; 0x69; 0x46; 0x57; 0x5f; 0x43; 0x4f; 0x4e; 0x46; 0x49; 0x47;
  0x05; 0x58; 0x20; 0x53; 0x78; 0x79; 0x63; 0x07; 0x53; 0x5d; 0xf3; 0xec; 0x8d; 0x8b; 0x15; 0xa2;
  0xe2; 0xdc; 0x56; 0x41; 0x41; 0x9c; 0x3d; 0x30; 0x60; 0xcf; 0xe3; 0x22; 0x38; 0xc0; 0xfa; 0x97;
  0x3f; 0x7a; 0xa3; 0x02; 0x58; 0x20; 0x9a; 0x92; 0xad; 0xbc; 0x0c; 0xee; 0x38; 0xef; 0x65; 0x8c;
  0x71; 0xce; 0x1b; 0x1b; 0xf8; 0xc6; 0x56; 0x68; 0xf1; 0x66; 0xbf; 0xb2; 0x13; 0x64; 0x4c; 0x89;
  0x5c; 0xcb; 0x1a; 0xd0; 0x7a; 0x25; 0x06; 0x67; 0x73; 0x68; 0x61; 0x2d; 0x32; 0x35; 0x36; 0xa4;
  0x01; 0x6c; 0x54; 0x42; 0x5f; 0x46; 0x57; 0x5f; 0x43; 0x4f; 0x4e; 0x46; 0x49; 0x47; 0x05; 0x58;
  0x20; 0x53; 0x78; 0x79; 0x63; 0x07; 0x53; 0x5d; 0xf3; 0xec; 0x8d; 0x8b; 0x15; 0xa2; 0xe2; 0xdc;
  0x56; 0x41; 0x41; 0x9c; 0x3d; 0x30; 0x60; 0xcf; 0xe3; 0x22; 0x38; 0xc0; 0xfa; 0x97; 0x3f; 0x7a;
  0xa3; 0x02; 0x58; 0x20; 0x23; 0x89; 0x03; 0x18; 0x0c; 0xc1; 0x04; 0xec; 0x2c; 0x5d; 0x8b; 0x3f;
  0x20; 0xc5; 0xbc; 0x61; 0xb3; 0x89; 0xec; 0x0a; 0x96; 0x7d; 0xf8; 0xcc; 0x20; 0x8c; 0xdc; 0x7c;
  0xd4; 0x54; 0x17; 0x4f; 0x06; 0x67; 0x73; 0x68; 0x61; 0x2d; 0x32; 0x35; 0x36; 0xa4; 0x01; 0x6d;
  0x53; 0x4f; 0x43; 0x5f; 0x46; 0x57; 0x5f; 0x43; 0x4f; 0x4e; 0x46; 0x49; 0x47; 0x05; 0x58; 0x20;
  0x53; 0x78; 0x79; 0x63; 0x07; 0x53; 0x5d; 0xf3; 0xec; 0x8d; 0x8b; 0x15; 0xa2; 0xe2; 0xdc; 0x56;
  0x41; 0x41; 0x9c; 0x3d; 0x30; 0x60; 0xcf; 0xe3; 0x22; 0x38; 0xc0; 0xfa; 0x97; 0x3f; 0x7a; 0xa3;
  0x02; 0x58; 0x20; 0xe6; 0xc2; 0x1e; 0x8d; 0x26; 0x0f; 0xe7; 0x18; 0x82; 0xde; 0xbd; 0xb3; 0x39;
  0xd2; 0x40; 0x2a; 0x2c; 0xa7; 0x64; 0x85; 0x29; 0xbc; 0x23; 0x03; 0xf4; 0x86; 0x49; 0xbc; 0xe0;
  0x38; 0x00; 0x17; 0x06; 0x67; 0x73; 0x68; 0x61; 0x2d; 0x32; 0x35; 0x36; 0x58; 0x60; 0x31; 0xd0;
  0x4d; 0x52; 0xcc; 0xde; 0x95; 0x2c; 0x1e; 0x32; 0xcb; 0xa1; 0x81; 0x88; 0x5a; 0x40; 0xb8; 0xcc;
  0x38; 0xe0; 0x52; 0x8c; 0x1e; 0x89; 0x58; 0x98; 0x07; 0x64; 0x2a; 0xa5; 0xe3; 0xf2; 0xbc; 0x37;
  0xf9; 0x53; 0x74; 0x50; 0x6b; 0xff; 0x4d; 0x2e; 0x4b; 0xe7; 0x06; 0x3c; 0x4d; 0x72; 0x41; 0x92;
  0x70; 0xc7; 0x22; 0xe8; 0xd4; 0xd9; 0x3e; 0xe8; 0xb6; 0xc9; 0xfa; 0xce; 0x3b; 0x43; 0xc9; 0x76;
  0x1a; 0x49; 0x94; 0x1a; 0xb6; 0xf3; 0x8f; 0xfd; 0xff; 0x49; 0x6a; 0xd4; 0x63; 0xb4; 0xcb; 0xfa;
  0x11; 0xd8; 0x3e; 0x23; 0xe3; 0x1f; 0x7f; 0x62; 0x32; 0x9d; 0xe3; 0x0c; 0x1c; 0xc8].

(** [buf[..src.len()].copy_from_slice(src)], for a source that fits. *)
Definition copy_to_start (buf src : list Z) : list Z := src ++ drop (length src) buf.

Definition fvp_read_attestation_key (buf : list Z) (curve : EccCurve)
    : M unit (result Z RmmCommandReturnCode * list Z) :=
  if decide (length buf < length ATTESTATION_KEY_ECC_SECP384R1)%nat then mret (Err RmmInvalidValue, buf)
  else mret (Ok (Z.of_nat (length ATTESTATION_KEY_ECC_SECP384R1)),
             copy_to_start buf ATTESTATION_KEY_ECC_SECP384R1).

Definition fvp_read_attestation_token (buf hash : list Z) (start_index : Z)
    : M unit (result (Z * Z) RmmCommandReturnCode * list Z) :=
  let len := Z.of_nat (length ATTESTATION_TOKEN) in
  if len <? start_index then mret (Err RmmInvalidValue, buf)
  else
    let hunk_size := Z.min (Z.of_nat (length buf)) (len - start_index) in
    let end_index := start_index + hunk_size in
    hunk ← lift (slice ATTESTATION_TOKEN (Z.to_nat start_index) (Z.to_nat end_index));
    mret (Ok (hunk_size, len - end_index), copy_to_start buf hunk).

Definition FVP_RMM_SHARED_BUFFER_START : Z := 0xffbff000.
Definition fvp_rmm_platform : RmmPlatform unit :=
  mkRmmPlatform FVP_RMM_SHARED_BUFFER_START FVP_CORE_COUNT fvp_read_attestation_key fvp_read_attestation_token.

(** ** The platform keeps its promises *)
Lemma token_length : length ATTESTATION_TOKEN = 1518%nat.
Proof. reflexivity. Qed.
Lemma key_length : length ATTESTATION_KEY_ECC_SECP384R1 = 48%nat.
Proof. reflexivity. Qed.

Lemma length_copy_to_start buf src : (length src ≤ length buf)%nat → length (copy_to_start buf src) = length buf.
Proof. intros. unfold copy_to_start. rewrite length_app, length_drop. lia. Qed.

(** The bytes [i] to [i + n] of the token. *)
Definition token_hunk (i n : nat) : list Z := take n (drop i ATTESTATION_TOKEN).

Lemma fvp_token_hunk buf hash i p :
  (i ≤ 1518)%nat →
  let n := (length buf `min` (1518 - i))%nat in
  fvp_read_attestation_token buf hash (Z.of_nat i) p =
    Ret (Ok (Z.of_nat n, Z.of_nat (1518 - i - n)), copy_to_start buf (token_hunk i n)) p ∧
  length (token_hunk i n) = n.
Proof.
  intros Hi n. assert (length (token_hunk i n) = n) as Hlen.
  { unfold token_hunk. rewrite length_take, length_drop, token_length. lia. }
  split; [|done]. unfold fvp_read_attestation_token. rewrite token_length.
  rewrite (proj2 (Z.ltb_ge _ _)) by lia.
  replace (Z.min (Z.of_nat (length buf)) (Z.of_nat 1518 - Z.of_nat i)) with (Z.of_nat n) by lia.
  rewrite <-Nat2Z.inj_add, !Nat2Z.id. unfold mbind, M_bind, lift.
  rewrite (proj2 (slice_Done _ _ _ (token_hunk i n))).
  - unfold mret, M_ret. do 4 f_equal. lia.
  - rewrite token_length. split; [lia|]. unfold token_hunk. f_equal. lia.
Qed.

Lemma fvp_rmm_platform_ok : rmm_platform_ok fvp_rmm_platform.
Proof.
  split; [done| |].
  - intros buf curve p. cbn [fvp_rmm_platform read_attestation_key]. unfold fvp_read_attestation_key.
    destruct (decide _) as [|Hge]; [by eexists _, _, _|]. eexists _, _, _. split; [reflexivity|].
    apply length_copy_to_start. lia.
  - intros buf hash idx p Hidx. cbn [fvp_rmm_platform read_attestation_token].
    destruct (decide (1518 < idx)) as [Hgt|Hle].
    { unfold fvp_read_attestation_token. rewrite token_length, (proj2 (Z.ltb_lt _ _)) by lia.
      by eexists _, _, _. }
    rewrite <-(Z2Nat.id idx) by lia.
    destruct (fvp_token_hunk buf hash (Z.to_nat idx) p) as [-> Hlen]; [lia|].
    eexists _, _, _. split; [reflexivity|]. split; [apply length_copy_to_start; lia|].
    intros size rem [= <- <-] Hrem. lia.
Qed.

(** ** Reading the token *)
Section Token.
Context (g : GranuleProtection) (regs : SmcReturn).
Local Abbreviation St := (RmmdState unit).

(** A request of the RMM: where in the shared buffer, how many bytes, and the size of
    the challenge, which comes with the first request only. *)
Record TokenRequest : Type := mkRequest { rq_pa : Z; rq_size : Z; rq_challenge : Z }.
Definition request_ok (first : bool) (rq : TokenRequest) : Prop :=
  1 ≤ rq_size rq ∧
  (if first then existsb (Z.eqb (rq_challenge rq)) VALID_HASH_SIZES = true else rq_challenge rq = 0) ∧
  check_shared_buffer_range fvp_rmm_platform (rq_pa rq) (Z.max (rq_size rq) (rq_challenge rq)) = None.

Lemma fvp_has_core : (0 < CORE_COUNT fvp_rmm_platform)%nat.
Proof. cbn. lia. Qed.

Lemma take_copy_to_start (buf src : list Z) : take (length src) (copy_to_start buf src) = src.
Proof. apply take_app_length. Qed.

Lemma write_shared_at (plat : RmmPlatform unit) pa bs s s' :
  write_shared plat pa bs s = Ret tt s' → (shared_off plat pa + length bs ≤ length (shared_buffer s))%nat →
  take (length bs) (drop (shared_off plat pa) (shared_buffer s')) = bs.
Proof.
  intros [= <-] Hlen. cbn [shared_buffer].
  rewrite drop_app_length' by (rewrite length_take; lia). apply take_app_length.
Qed.

Lemma token_request i rq s :
  rmm_ok fvp_rmm_platform g s → attestation_token_read_index s = Z.of_nat i → (i < 1518)%nat →
  request_ok (Nat.eqb i 0) rq →
  let n := (Z.to_nat (rq_size rq) `min` (1518 - i))%nat in
  let rem := (1518 - i - n)%nat in
  ∃ s', attest_get_plat_token fvp_rmm_platform (rq_pa rq) (rq_size rq) (rq_challenge rq) regs s =
      Ret (Ok (Realm, set_from_response [Z.of_nat n; Z.of_nat rem] regs)) s' ∧
    rmm_ok fvp_rmm_platform g s' ∧
    take n (drop (shared_off fvp_rmm_platform (rq_pa rq)) (shared_buffer s')) = token_hunk i n ∧
    attestation_token_read_index s' = Z.of_nat (if decide (0 < rem)%nat then i + n else 0).
Proof.
  intros Hs Hidx Hi (Hsize & Hc & Hrange) n rem. destruct rq as [pa size c]. cbn [rq_pa rq_size rq_challenge] in *.
  assert (0 ≤ c ≤ 64) as Hc64.
  { destruct (Nat.eqb i 0); [|lia]. cbn in Hc. lia. }
  unfold attest_get_plat_token. cbv [mbind M_bind get]. rewrite Hidx.
  assert ((Z.of_nat i =? 0) = Nat.eqb i 0) as -> by (destruct (Nat.eqb_spec i 0); lia).
  assert ((Nat.eqb i 0 && negb (existsb (Z.eqb c) VALID_HASH_SIZES)) || (negb (Nat.eqb i 0) && negb (c =? 0)) = false) as ->.
  { destruct (Nat.eqb i 0); cbn [andb negb orb]; [by rewrite Hc|]. by rewrite Hc. }
  rewrite Hrange.
  destruct (read_shared_ok fvp_rmm_platform fvp_rmm_platform_ok g 0 fvp_has_core pa (Z.max size c) s Hs) as (bs & -> & Hl & Hfit); [lia|done|].
  cbv [lift]. unfold slice. rewrite !decide_True by lia.
  rewrite bool_decide_true by (unfold MAX_HASH_SIZE; lia). cbn [assert_].
  set (out := take (Z.to_nat size - 0) (drop 0 bs)).
  assert (length out = Z.to_nat size) as Hout by (unfold out; rewrite length_take, length_drop; lia).
  destruct (fvp_token_hunk out (take (Z.to_nat c - 0) (drop 0 bs)) i (rmm_plat s)) as [Htok Hhunk]; [lia|].
  rewrite Hout in Htok, Hhunk. fold n rem in Htok, Hhunk.
  change (read_attestation_token fvp_rmm_platform) with fvp_read_attestation_token.
  destruct (on_plat_ok fvp_rmm_platform g _ _ _ s Hs Htok) as (s1 & -> & Hs1 & Hsb & Hidx1).
  set (bs' := copy_to_start out (token_hunk i n)) in *.
  assert (length bs' = Z.to_nat size) as Hcopy by (unfold bs'; rewrite length_copy_to_start; lia).
  destruct (write_shared_ok fvp_rmm_platform g 0 fvp_has_core pa bs' s1 Hs1) as (s2 & Hw & Hs2 & Hidx2);
    [rewrite Hsb, Hcopy; lia|].
  rewrite Hw. apply write_shared_at in Hw; [|rewrite Hsb, Hcopy; lia].
  assert (take n (drop (shared_off fvp_rmm_platform pa) (shared_buffer s2)) = token_hunk i n) as Hread.
  { rewrite <-(take_copy_to_start out (token_hunk i n)), Hhunk. fold bs'. rewrite <-Hw, take_take.
    f_equal. rewrite Hcopy. unfold n. lia. }
  destruct Hs2. case_decide as Hrem.
  - rewrite (proj2 (Z.ltb_lt _ _)) by lia. rewrite (proj2 (Z.ltb_lt _ _)) by (unfold n in *; lia).
    eexists. split; [reflexivity|]. split; [split; try done; cbn; unfold n in *; lia|]. split; [done|]. cbn. lia.
  - rewrite (proj2 (Z.ltb_ge _ _)) by lia. eexists. split; [reflexivity|]. by split; [split|].
Qed.

(** What the RMM does with the call: it takes the bytes each answer reports from the
    shared buffer until no byte remains. *)
Fixpoint collect_token (rqs : list TokenRequest) : M St (list Z) :=
  match rqs with
  | [] => mret []
  | rq :: rqs =>
      r ← attest_get_plat_token fvp_rmm_platform (rq_pa rq) (rq_size rq) (rq_challenge rq) regs;
      match r with
      | Ok (_, ret) =>
          n ← lift (arr_get (values ret) 1);
          remaining ← lift (arr_get (values ret) 2);
          s ← get;
          let hunk := take (Z.to_nat n) (drop (shared_off fvp_rmm_platform (rq_pa rq)) (shared_buffer s)) in
          rest ← (if remaining =? 0 then mret [] else collect_token rqs);
          mret (hunk ++ rest)
      | Err _ => mret []
      end
  end.

(** Valid requests: the first carries a challenge, the others none. *)
Fixpoint requests_ok (first : bool) (rqs : list TokenRequest) : Prop :=
  match rqs with
  | [] => True
  | rq :: rqs => request_ok first rq ∧ requests_ok false rqs
  end.

Lemma collect_token_from rqs i s :
  rmm_ok fvp_rmm_platform g s → attestation_token_read_index s = Z.of_nat i → (i < 1518)%nat →
  requests_ok (Nat.eqb i 0) rqs → 1518 - Z.of_nat i ≤ foldr Z.add 0 (rq_size <$> rqs) →
  ∃ s', collect_token rqs s = Ret (drop i ATTESTATION_TOKEN) s' ∧ rmm_ok fvp_rmm_platform g s' ∧
    attestation_token_read_index s' = 0.
Proof.
  revert i s. induction rqs as [|rq rqs IH]; intros i s Hs Hidx Hi Hrqs Hsum; [cbn in Hsum; lia|].
  destruct Hrqs as [Hrq Hrqs]. destruct Hrq as (Hpos & Hchal & Hrange) eqn:E; clear E.
  destruct (token_request i rq s Hs Hidx Hi Hrq) as (s1 & Hcall & Hs1 & Hread & Hidx1).
  set (n := (Z.to_nat (rq_size rq) `min` (1518 - i))%nat) in *.
  cbn [collect_token]. unfold mbind at 1, M_bind. rewrite Hcall.
  cbv [set_from_response]. unfold mbind at 1, M_bind. rewrite values_set_args.
  cbn [arr_get unwrap lookup list_lookup lift]. cbv [mbind M_bind get lift].
  rewrite Nat2Z.id, Hread. cbn [foldr fmap list_fmap] in Hsum.
  case_decide as Hrem.
  - rewrite (proj2 (Z.eqb_neq _ _)) by lia.
    destruct (IH (i + n)%nat s1) as (s' & -> & Hs' & Hidx'); [done|done|lia| |unfold n in *; lia|].
    { rewrite (proj2 (Nat.eqb_neq _ _)) by (unfold n in *; lia). done. }
    eexists. split; [|done]. cbv [mret M_ret]. f_equal. unfold token_hunk.
    rewrite <-drop_drop. apply take_drop.
  - rewrite (proj2 (Z.eqb_eq _ _)) by lia. eexists. split; [|done]. cbv [mret M_ret]. f_equal.
    rewrite app_nil_r. unfold token_hunk. apply take_ge. rewrite length_drop, token_length. lia.
Qed.

(** C26: the attestation token of the FVP platform survives the round trip through
    the shared buffer. Whatever valid requests the RMM makes - any positive sizes that
    add up to the length of the token, any places in the shared buffer, a challenge with
    the first request only - the hunks it collects put together are the token, every call
    returns, and the dispatcher is ready for a next token. *)
Theorem fvp_token_read_whole rqs s :
  rmm_ok fvp_rmm_platform g s → attestation_token_read_index s = 0 → requests_ok true rqs →
  Z.of_nat (length ATTESTATION_TOKEN) ≤ foldr Z.add 0 (rq_size <$> rqs) →
  ∃ s', collect_token rqs s = Ret ATTESTATION_TOKEN s' ∧ rmm_ok fvp_rmm_platform g s' ∧
    attestation_token_read_index s' = 0.
Proof.
  rewrite token_length. intros Hs Hidx Hrqs Hsum. apply (collect_token_from rqs 0 s); try done; lia.
Qed.
End Token.

(** Three requests, of 64, 1000 and 4000 bytes, at different places of the buffer. *)
Definition sample_requests : list TokenRequest :=
  [mkRequest (FVP_RMM_SHARED_BUFFER_START + 16) 64 48; mkRequest FVP_RMM_SHARED_BUFFER_START 1000 0;
   mkRequest (FVP_RMM_SHARED_BUFFER_START + 96) 4000 0].
Definition fvp_rmm_state : RmmdState unit :=
  rmmd_new fvp_rmm_platform sample_machine (replicate 4096 0) tt.

Lemma fvp_token_read_whole_witness :
  ∃ s', collect_token (mkSmcReturn 0 (replicate 18 0)) sample_requests fvp_rmm_state = Ret ATTESTATION_TOKEN s' ∧
    rmm_ok fvp_rmm_platform sample_gpt s' ∧ attestation_token_read_index s' = 0.
Proof.
  apply fvp_token_read_whole; [|done|by repeat split|done].
  split; [exact sample_gpt_valid|done|done|done].
Defined.
