(* ===== verification/Services.v ===== *)
(** * The services and the main loop

    [src/services/arch.rs] and [src/services/errata_management.rs], and
    [src/services.rs]: the dispatch of SMCs to the services, of interrupts and
    traps, and the loop that runs the worlds.  The lower exception levels, the
    interrupt controller and the platform's parts are parameters.  The model is
    that of a build with the [rme] feature. *)

From Stdlib Require Import ZArith Lia.
From stdpp Require Import base list numbers option.
From S2P Require Import Prelude Smccc.
Open Scope rust_scope.
Open Scope Z_scope.

(** ** Arm architecture calls, [arch.rs] *)
Definition SMCCC_VERSION : Z := 0x80000000.
Definition SMCCC_ARCH_FEATURES : Z := 0x80000001.
Definition SMCCC_ARCH_SOC_ID_32 : Z := 0x80000002.
Definition SMCCC_ARCH_SOC_ID_64 : Z := 0xc0000002.
Definition SMCCC_ARCH_SOC_ID_VERSION : Z := 0.
Definition SMCCC_ARCH_SOC_ID_REVISION : Z := 1.
Definition SMCCC_ARCH_SOC_ID_NAME : Z := 2.
Definition SMCCC_ARCH_WORKAROUND_1 : Z := 0x80008000.
Definition SMCCC_ARCH_WORKAROUND_2 : Z := 0x80007fff.
Definition SMCCC_ARCH_WORKAROUND_3 : Z := 0x80003fff.
Definition SMCCC_ARCH_WORKAROUND_4 : Z := 0x80000004.
Definition SMCCC_VERSION_1_5 : Z := 0x10005.

Inductive WorkaroundSupport : Type := Required | SafeButNotRequired.
Global Instance WorkaroundSupport_eq_dec : EqDecision WorkaroundSupport.
Proof. solve_decision. Defined.
Definition workaround_as_i32 (w : WorkaroundSupport) : Z :=
  match w with Required => 0 | SafeButNotRequired => 1 end.

(** The platform's answers about the workarounds and the workarounds. *)
Record ArchPlatform (St : Type) : Type := mkArchPlatform {
  arch_workaround_1_supported : WorkaroundSupport;
  arch_workaround_2_supported : WorkaroundSupport;
  arch_workaround_3_supported : WorkaroundSupport;
  arch_workaround_4_supported : WorkaroundSupport;
  arch_workaround_1 : M St unit;
  arch_workaround_2 : M St unit;
  arch_workaround_3 : M St unit;
}.
Arguments mkArchPlatform {St}.
Arguments arch_workaround_1_supported {St}.
Arguments arch_workaround_2_supported {St}.
Arguments arch_workaround_3_supported {St}.
Arguments arch_workaround_4_supported {St}.
Arguments arch_workaround_1 {St}.
Arguments arch_workaround_2 {St}.
Arguments arch_workaround_3 {St}.

Section Arch.
Context {St : Type} (plat : ArchPlatform St).

Definition run_workaround (supported : WorkaroundSupport) (w : M St unit) : M St unit :=
  if decide (supported = Required) then w else mret tt.

Definition arch_features (regs : SmcReturn) : outcome SmcReturn :=
  x1 ← arr_get (values regs) 1;
  let f := as_u32 x1 in
  let result :=
    if (f =? SMCCC_VERSION) || (f =? SMCCC_ARCH_FEATURES) || (f =? SMCCC_ARCH_SOC_ID_32) ||
       (f =? SMCCC_ARCH_SOC_ID_64) then SUCCESS
    else if f =? SMCCC_ARCH_WORKAROUND_1 then workaround_as_i32 (arch_workaround_1_supported plat)
    else if f =? SMCCC_ARCH_WORKAROUND_2 then workaround_as_i32 (arch_workaround_2_supported plat)
    else if f =? SMCCC_ARCH_WORKAROUND_3 then workaround_as_i32 (arch_workaround_3_supported plat)
    else if f =? SMCCC_ARCH_WORKAROUND_4 then workaround_as_i32 (arch_workaround_4_supported plat)
    else NOT_SUPPORTED in
  mret (set_from_i32 result regs).

Definition arch_soc_id (regs : SmcReturn) (ct : SmcccCallType) : outcome SmcReturn :=
  x1 ← arr_get (values regs) 1;
  let t := as_u32 x1 in
  mret
    (if t =? SMCCC_ARCH_SOC_ID_VERSION then set_from_i32 0 regs
     else if t =? SMCCC_ARCH_SOC_ID_REVISION then set_from_i32 0 regs
     else if (t =? SMCCC_ARCH_SOC_ID_NAME) && bool_decide (ct = Fast64) then
       set_args [0;
         from_le_bytes [0x6d; 0x49; 0x20; 0x3a; 0x4f; 0x44; 0x4f; 0x54];
         from_le_bytes [0x20; 0x74; 0x6e; 0x65; 0x6d; 0x65; 0x6c; 0x70];
         from_le_bytes [0x6f; 0x72; 0x70; 0x20; 0x73; 0x69; 0x68; 0x74];
         from_le_bytes [0x00; 0x00; 0x2e; 0x79; 0x6c; 0x72; 0x65; 0x70]] regs
     else set_from_i32 INVALID_PARAMETER regs).

Definition handle_common_smc (regs : SmcReturn) : M St SmcReturn :=
  x0 ← lift (arr_get (values regs) 0);
  let function := clear_sve_hint (as_u32 x0) in
  if function =? SMCCC_VERSION then mret (set_from_i32 SMCCC_VERSION_1_5 regs)
  else if function =? SMCCC_ARCH_FEATURES then lift (arch_features regs)
  else if (function =? SMCCC_ARCH_SOC_ID_32) || (function =? SMCCC_ARCH_SOC_ID_64) then
    lift (arch_soc_id regs (call_type function))
  else if function =? SMCCC_ARCH_WORKAROUND_1 then
    _ ← run_workaround (arch_workaround_1_supported plat) (arch_workaround_1 plat);
    mret (mark_empty regs)
  else if function =? SMCCC_ARCH_WORKAROUND_2 then
    _ ← lift (arr_get (values regs) 1);
    _ ← run_workaround (arch_workaround_2_supported plat) (arch_workaround_2 plat);
    mret (mark_empty regs)
  else if function =? SMCCC_ARCH_WORKAROUND_3 then
    _ ← run_workaround (arch_workaround_3_supported plat) (arch_workaround_3 plat);
    mret (mark_empty regs)
  else mret (set_from_i32 NOT_SUPPORTED regs).

Definition arch_service : Service St :=
  let handle w regs := regs ← handle_common_smc regs; mret (w, regs) in
  mkService (owns_entity OEN_ARM_ARCHITECTURE) (handle NonSecure) (handle Secure) (handle Realm).
End Arch.

(** ** Errata management, [errata_management.rs] *)
Definition EM_FUNCTION_NUMBER_MIN : Z := 0xF0.
Definition EM_FUNCTION_NUMBER_MAX : Z := 0x10F.
Definition EM_VERSION : Z := 0x840000F0.
Definition EM_FEATURES : Z := 0x840000F1.
Definition EM_CPU_ERRATUM_FEATURES : Z := 0x840000F2.
Definition VERSION_1_0 : Z := 0x10000.

Inductive EmStatus : Type :=
| HigherElMitigation | NotAffected | Affected | EmSuccess | EmNotSupported
| InvalidParameters | UnknownErratum.
Definition em_status_as_i32 (s : EmStatus) : Z :=
  match s with
  | HigherElMitigation => 3 | NotAffected => 2 | Affected => 1 | EmSuccess => 0
  | EmNotSupported => -1 | InvalidParameters => -2 | UnknownErratum => -3
  end.

Section Errata.
Context {St : Type}.
(** [ERRATA_LIST]: the identifier of an erratum and its check, and whether the
    caller is at EL2, from the saved program status. *)
Context (ERRATA_LIST : list (Z * M St bool)) (originator_is_el2 : St → bool).

Fixpoint find_erratum (id : Z) (l : list (Z * M St bool)) : M St EmStatus :=
  match l with
  | [] => mret UnknownErratum
  | (eid, check) :: l =>
      if eid =? id then
        b ← check;
        mret (if b : bool then HigherElMitigation else NotAffected)
      else find_erratum id l
  end.

(** [regs[i] != 0 || ...], evaluated from the left. *)
Fixpoint any_nonzero (regs : list Z) (idx : list nat) : outcome bool :=
  match idx with
  | [] => mret false
  | i :: idx => x ← arr_get regs i; if negb (x =? 0) then mret true else any_nonzero regs idx
  end.

Definition cpu_erratum_features (regs : list Z) : M St EmStatus :=
  x1 ← lift (arr_get regs 1);
  x2 ← lift (arr_get regs 2);
  let forward_flag := negb (x2 =? 0) in
  reserved ← lift (any_nonzero regs [3; 4; 5; 6; 7]%nat);
  if reserved : bool then mret InvalidParameters
  else
    s ← get;
    if forward_flag && negb (originator_is_el2 s) then mret InvalidParameters
    else find_erratum (as_u32 x1) ERRATA_LIST.

Definition em_features (f : Z) : Z :=
  if (f =? EM_VERSION) || (f =? EM_FEATURES) || (f =? EM_CPU_ERRATUM_FEATURES)
  then em_status_as_i32 EmSuccess else em_status_as_i32 EmNotSupported.

Definition em_handle_non_secure_smc (regs : SmcReturn) : M St (World * SmcReturn) :=
  x0 ← lift (arr_get (values regs) 0);
  let function := clear_sve_hint (as_u32 x0) in
  regs ←
    (if function =? EM_VERSION then mret (set_from_i32 VERSION_1_0 regs)
     else if function =? EM_FEATURES then
       x1 ← lift (arr_get (values regs) 1);
       mret (set_from_i32 (em_features (as_u32 x1)) regs)
     else if function =? EM_CPU_ERRATUM_FEATURES then
       st ← cpu_erratum_features (values regs);
       mret (set_from_i32 (em_status_as_i32 st) regs)
     else mret (set_from_i32 NOT_SUPPORTED regs));
  mret (NonSecure, regs).

Definition errata_service : Service St :=
  mkService (owns_range OEN_STANDARD_SECURE EM_FUNCTION_NUMBER_MIN EM_FUNCTION_NUMBER_MAX)
    em_handle_non_secure_smc (default_smc Secure) (default_smc Realm).
End Errata.

(** [DummyService] of [src/platform.rs], the platform service of QEMU and FVP. *)
Definition dummy_service {St : Type} : Service St :=
  mkService (λ _, false) (default_smc NonSecure) (default_smc Secure) (default_smc Realm).

(** ** The services together, [services.rs] *)
Definition SPMD_FUNCTION_NUMBER_MIN : Z := 0x60.
Definition SPMD_FUNCTION_NUMBER_MAX : Z := 0xEF.

Record Services (St : Type) : Type := mkServices {
  arch : Service St;
  psci : Service St;
  platform : Service St;
  spmd : Service St;
  errata_management : Service St;
  trng : Service St;
  rmmd : Service St;
}.
Arguments mkServices {St}.
Arguments arch {St}.
Arguments psci {St}.
Arguments platform {St}.
Arguments spmd {St}.
Arguments errata_management {St}.
Arguments trng {St}.
Arguments rmmd {St}.

Inductive InterruptType : Type := IntEl3 | IntSecure | IntNonSecure | IntInvalid.
Inductive RunResult : Type := RunSmc | RunInterrupt | RunSysregTrap (esr : Z).

(** What the main loop is built on: the lower exception levels, which run until
    an exception and leave their registers; the interrupt controller; the
    injection of an undefined instruction exception; the switch of contexts. *)
Record WorldOps (St : Type) : Type := mkWorldOps {
  enter_world : SmcReturn → World → M St (RunResult * SmcReturn);
  get_pending_interrupt_type : M St InterruptType;
  handle_group0_interrupt : M St unit;
  forward_secure_interrupt : SmcReturn → M St (World * SmcReturn);
  inject_undef64 : World → M St unit;
  set_initial_world : World → M St unit;
  switch_world : World → World → M St unit;
  rmm_boot_failure : St → bool;
}.
Arguments mkWorldOps {St}.
Arguments enter_world {St}.
Arguments get_pending_interrupt_type {St}.
Arguments handle_group0_interrupt {St}.
Arguments forward_secure_interrupt {St}.
Arguments inject_undef64 {St}.
Arguments set_initial_world {St}.
Arguments switch_world {St}.
Arguments rmm_boot_failure {St}.

Section Run.
Context {St : Type} (svc : Services St) (ops : WorldOps St).

Definition handle_by (s : Service St) (world : World) (regs : SmcReturn) : M St (World * SmcReturn) :=
  match world with
  | NonSecure => handle_non_secure_smc s regs
  | Secure => handle_secure_smc s regs
  | Realm => handle_realm_smc s regs
  end.

Definition find_service (f : Z) : option (Service St) :=
  if owns (arch svc) f then Some (arch svc)
  else if owns (psci svc) f then Some (psci svc)
  else if owns (platform svc) f then Some (platform svc)
  else if owns (spmd svc) f then Some (spmd svc)
  else if owns (errata_management svc) f then Some (errata_management svc)
  else if owns (trng svc) f then Some (trng svc)
  else if owns (rmmd svc) f then Some (rmmd svc)
  else None.

Definition handle_smc (regs : SmcReturn) (world : World) : M St (World * SmcReturn) :=
  x0 ← lift (arr_get (values regs) 0);
  let function := as_u32 x0 in
  if negb (valid function) then mret (world, set_from_i32 NOT_SUPPORTED regs)
  else
    match find_service function with
    | Some service => handle_by service world regs
    | None => mret (world, set_from_i32 NOT_SUPPORTED regs)
    end.

Definition handle_interrupt (regs : SmcReturn) (world : World) : M St (World * SmcReturn) :=
  t ← get_pending_interrupt_type ops;
  match t, world with
  | IntSecure, NonSecure => forward_secure_interrupt ops regs
  | IntEl3, NonSecure =>
      _ ← handle_group0_interrupt ops;
      mret (world, mark_empty regs)
  | IntInvalid, _ => mret (world, mark_empty regs)
  | _, _ => crash
  end.

(** Every trapped access is answered with an exception. *)
Definition handle_sysreg_trap (esr : Z) (world : World) : M St unit := inject_undef64 ops world.

(** The loops are cut off by fuel: the core then still runs in the world. *)
Fixpoint per_world_loop (fuel : nat) (regs : SmcReturn) (world : World) : M St (World * SmcReturn) :=
  match fuel with
  | O => halt
  | S fuel =>
      '(r, regs) ← enter_world ops regs world;
      '(next_world, regs) ←
        match r with
        | RunSmc => handle_smc regs world
        | RunInterrupt => handle_interrupt regs world
        | RunSysregTrap esr =>
            _ ← handle_sysreg_trap esr world;
            mret (world, mark_empty regs)
        end;
      if decide (next_world ≠ world) then mret (next_world, regs)
      else per_world_loop fuel regs world
  end.

Fixpoint main_loop (fuel : nat) (regs : SmcReturn) (current_world next_world : World) : M St unit :=
  match fuel with
  | O => halt
  | S fuel' =>
      _ ← switch_world ops current_world next_world;
      '(w, regs) ← per_world_loop fuel regs next_world;
      _ ← lift (assert_ (bool_decide (next_world ≠ w)));
      main_loop fuel' regs next_world w
  end.

Definition run_loop (fuel : nat) : M St unit :=
  _ ← set_initial_world ops Secure;
  '(w, regs) ← per_world_loop fuel EMPTY Secure;
  _ ← lift (assert_ (bool_decide (w = NonSecure)));
  s ← get;
  '(current_world, regs) ←
    (if negb (rmm_boot_failure ops s) then
       _ ← switch_world ops Secure Realm;
       '(w, regs) ← per_world_loop fuel (mark_empty regs) Realm;
       _ ← lift (assert_ (bool_decide (w = NonSecure)));
       mret (Realm, regs)
     else mret (Secure, regs));
  main_loop fuel (mark_empty regs) current_world NonSecure.
End Run.
