(* ===== verification/ServicesProps.v ===== *)
(** * The properties of the dispatch and of the main loop *)

From Stdlib Require Import ZArith Lia.
From stdpp Require Import base list numbers option.
From S2P Require Import Prelude Smccc PowerState Psci Trng Rmm Services.
Open Scope rust_scope.
Open Scope Z_scope.

(** The calls each service of the repository owns. *)
Record services_own {St} (svc : Services St) : Prop := mkServicesOwn {
  own_arch : owns (arch svc) = owns_entity OEN_ARM_ARCHITECTURE;
  own_psci : owns (psci svc) = owns_range OEN_STANDARD_SECURE FUNCTION_NUMBER_MIN FUNCTION_NUMBER_MAX;
  own_spmd : owns (spmd svc) =
    owns_range OEN_STANDARD_SECURE SPMD_FUNCTION_NUMBER_MIN SPMD_FUNCTION_NUMBER_MAX;
  own_errata : owns (errata_management svc) =
    owns_range OEN_STANDARD_SECURE EM_FUNCTION_NUMBER_MIN EM_FUNCTION_NUMBER_MAX;
  own_trng : owns (trng svc) = owns_range OEN_STANDARD_SECURE TRNG_FN_NUM_MIN TRNG_FN_NUM_MAX;
  own_rmmd : owns (rmmd svc) = owns_range OEN_STANDARD_SECURE 0x0150 0x01CF;
}.

Lemma owns_entity_range e e' lo hi f : e ≠ e' → owns_entity e f = true → owns_range e' lo hi f = false.
Proof.
  intros Hne. unfold owns_entity, owns_range. intros [He _]%andb_true_iff.
  apply Z.eqb_eq in He. rewrite He. by rewrite (proj2 (Z.eqb_neq _ _)).
Qed.
Lemma owns_range_entity e e' lo hi f : e ≠ e' → owns_range e lo hi f = true → owns_entity e' f = false.
Proof.
  intros Hne. unfold owns_entity, owns_range. intros [[He _]%andb_true_iff _]%andb_true_iff.
  apply Z.eqb_eq in He. rewrite He. by rewrite (proj2 (Z.eqb_neq _ _)).
Qed.
Lemma owns_range_disjoint e lo hi lo' hi' f :
  hi < lo' ∨ hi' < lo → owns_range e lo hi f = true → owns_range e lo' hi' f = false.
Proof.
  intros Hd. unfold owns_range. intros [[_ Hn]%andb_true_iff _]%andb_true_iff.
  apply andb_true_iff in Hn as [Hl Hh]. apply Z.leb_le in Hl, Hh.
  destruct (Z.leb_spec lo' (number f)), (Z.leb_spec (number f) hi'); rewrite ?andb_false_r; try done; lia.
Qed.

(** Evaluates the owners of a call whose owner is known. *)
Ltac disjoint_owners :=
  repeat match goal with
  | H : owns_range _ _ _ ?f = true |- context [owns_range ?e ?lo ?hi ?f] =>
      first [ rewrite H
            | rewrite (λ D, owns_range_disjoint _ _ _ lo hi f D H) by
                first [left; reflexivity | right; reflexivity] ]
  | H : owns_range _ _ _ ?f = true |- context [owns_entity ?e ?f] =>
      rewrite (λ D, owns_range_entity _ e _ _ f D H) by done
  | H : owns_entity _ ?f = true |- context [owns_range ?e ?lo ?hi ?f] =>
      rewrite (λ D, owns_entity_range _ e lo hi f D H) by done
  | H : owns_entity _ ?f = true |- _ => rewrite H
  end.

(** An SMC goes to the one service that owns its function identifier: the
    ranges of the services do not overlap, so that the order in which they are
    asked does not matter; the SVE hint does not change the service; and a call
    that is malformed or that nobody owns is refused in the caller's world. *)
Theorem smc_dispatch {St} (svc : Services St) f :
  services_own svc → owns (platform svc) f = false →
  (∀ s, s ∈ [arch svc; psci svc; spmd svc; errata_management svc; trng svc; rmmd svc] →
     owns s f = true → find_service svc f = Some s) ∧
  (owns (platform svc) (set_sve_hint f) = false → find_service svc (set_sve_hint f) = find_service svc f) ∧
  (∀ regs w s x0, values regs !! 0%nat = Some x0 → as_u32 x0 = f →
     valid f = false ∨ find_service svc f = None →
     handle_smc svc regs w s = Ret (w, set_from_i32 NOT_SUPPORTED regs) s).
Proof.
  intros Hown Hplat. destruct (Hown) as [Ha Hp Hs He Ht Hr]. split; [|split].
  - intros s Hin Ho. unfold find_service. rewrite Hplat, Ha, Hp, Hs, He, Ht, Hr.
    rewrite !elem_of_cons, elem_of_nil in Hin.
    destruct Hin as [->|[->|[->|[->|[->|[->|[]]]]]]]; rewrite ?Ha, ?Hp, ?Hs, ?He, ?Ht, ?Hr in Ho;
      by disjoint_owners.
  - intros Hplat'. unfold find_service. rewrite Hplat, Hplat', Ha, Hp, Hs, He, Ht, Hr.
    by rewrite owns_entity_set_sve_hint, !owns_range_set_sve_hint.
  - intros regs w s x0 Hx0 Hf Hno. unfold handle_smc. cbv [mbind M_bind lift]. unfold arr_get.
    rewrite Hx0. cbn [unwrap]. rewrite Hf. destruct Hno as [-> | ->]; [done|]. by destruct (valid f).
Qed.

Definition idle_service (St : Type) (o : Z → bool) : Service St :=
  mkService o (default_smc NonSecure) (default_smc Secure) (default_smc Realm).
(** Services that refuse every call, but for the dispatchers of the Secure and
    the Realm world, which switch to the Normal World. *)
Definition sample_services : Services unit :=
  let std := owns_range OEN_STANDARD_SECURE in
  let leave o := mkService o (default_smc NonSecure) (λ regs, mret (NonSecure, regs))
                   (λ regs, mret (NonSecure, regs)) in
  mkServices (idle_service unit (owns_entity OEN_ARM_ARCHITECTURE))
    (idle_service unit (std FUNCTION_NUMBER_MIN FUNCTION_NUMBER_MAX))
    (idle_service unit (λ _, false))
    (leave (std SPMD_FUNCTION_NUMBER_MIN SPMD_FUNCTION_NUMBER_MAX))
    (idle_service unit (std EM_FUNCTION_NUMBER_MIN EM_FUNCTION_NUMBER_MAX))
    (idle_service unit (std TRNG_FN_NUM_MIN TRNG_FN_NUM_MAX))
    (leave (std 0x0150 0x01CF)).

Lemma smc_dispatch_witness :
  (∀ s, s ∈ [arch sample_services; psci sample_services; spmd sample_services;
             errata_management sample_services; trng sample_services; rmmd sample_services] →
     owns s 0x84000050 = true → find_service sample_services 0x84000050 = Some s) ∧
  (owns (platform sample_services) (set_sve_hint 0x84000050) = false →
   find_service sample_services (set_sve_hint 0x84000050) = find_service sample_services 0x84000050) ∧
  (∀ regs w s x0, values regs !! 0%nat = Some x0 → as_u32 x0 = 0x84000050 →
     valid 0x84000050 = false ∨ find_service sample_services 0x84000050 = None →
     handle_smc sample_services regs w s = Ret (w, set_from_i32 NOT_SUPPORTED regs) s).
Proof. apply (smc_dispatch sample_services 0x84000050); [by split|reflexivity]. Defined.

(** ** The main loop *)

(** Where a core may continue after an exception from a world: the Secure and the
    Realm world only ever give way to the Normal World. *)
Definition world_ok (w w' : World) : Prop :=
  match w with
  | Secure => w' ≠ Realm
  | Realm => w' ≠ Secure
  | NonSecure => True
  end.
(** The interrupts that are routed to EL3 from a world. *)
Definition routed (t : InterruptType) (w : World) : Prop :=
  match t, w with
  | IntSecure, NonSecure | IntEl3, NonSecure | IntInvalid, _ => True
  | _, _ => False
  end.

(** A computation that returns a result with [Q], or during which the core stops. *)
Definition runs {St A} (m : M St A) (Q : A → St → Prop) (s : St) : Prop :=
  match m s with Ret a s' => Q a s' | Halt _ => True | Crash => False end.

Lemma runs_bind {St A B} (m : M St A) (f : A → M St B) Q R s :
  runs m Q s → (∀ a s', Q a s' → runs (f a) R s') → runs (m ≫= f) R s.
Proof. unfold runs. cbv [mbind M_bind]. intros Hm Hf. destruct (m s); [by apply Hf|done..]. Qed.
Lemma runs_ret {St A} (a : A) (Q : A → St → Prop) s : Q a s → runs (mret a) Q s.
Proof. done. Qed.
Lemma runs_weaken {St A} (m : M St A) (Q R : A → St → Prop) s :
  runs m Q s → (∀ a s', Q a s' → R a s') → runs m R s.
Proof. unfold runs. destruct (m s); naive_solver. Qed.

Section Loop.
(** [I w] holds while the core runs world [w], and [legal w regs] of the calls
    that world makes. *)
Context {St : Type} (svc : Services St) (ops : WorldOps St).
Context (I : World → St → Prop) (legal : World → SmcReturn → St → Prop).

(** What the loop relies on of a service: a call it owns does not panic, keeps
    the invariant for the world that runs next, which it may choose as [R] says,
    and keeps the registers well formed. *)
Definition service_moves (R : World → World → Prop) (s : Service St) : Prop :=
  ∀ w regs st x0, I w st → smc_return_wf regs → used regs = MAX_VALUES → legal w regs st →
    values regs !! 0%nat = Some x0 → owns s (as_u32 x0) = true →
    runs (handle_by s w regs) (λ '(w', regs') st',
      I w' st' ∧ R w w' ∧ smc_return_wf regs') st.
Definition service_ok : Service St → Prop := service_moves world_ok.

(** An interrupt that is routed to EL3, and that is there when it is handled. *)
Definition interrupt_ok (w : World) : St → Prop :=
  runs (get_pending_interrupt_type ops) (λ t s, I w s ∧ routed t w ∧
    (t = IntEl3 → runs (handle_group0_interrupt ops) (λ _, I w) s)).

Record loop_laws : Prop := mkLoopLaws {
  law_enter regs w s : I w s → smc_return_wf regs →
    runs (enter_world ops regs w) (λ '(r, regs') s', I w s' ∧ smc_return_wf regs' ∧
      used regs' = MAX_VALUES ∧ (r = RunSmc → legal w regs' s') ∧
      (r = RunInterrupt → interrupt_ok w s') ∧
      (∀ esr, r = RunSysregTrap esr → runs (inject_undef64 ops w) (λ _ s'', I w s'') s')) s;
  law_services s :
    s ∈ [arch svc; psci svc; platform svc; spmd svc; errata_management svc; trng svc; rmmd svc] →
    service_ok s;
  law_forward regs s : I NonSecure s → smc_return_wf regs →
    runs (forward_secure_interrupt ops regs)
      (λ '(w', regs') s', I w' s' ∧ smc_return_wf regs') s;
  law_initial w s : I w s → runs (set_initial_world ops w) (λ _ s', I w s') s;
  law_switch w w' s : w ≠ w' → I w' s → runs (switch_world ops w w') (λ _ s', I w' s') s;
  law_boot_rmm s : I NonSecure s → I Realm s;
}.

Context (Hlaws : loop_laws).

(** What an exception of world [w] leaves behind. *)
Definition exception_post (w : World) (r : World * SmcReturn) (s : St) : Prop :=
  I r.1 s ∧ world_ok w r.1 ∧ smc_return_wf r.2.

Lemma handle_smc_runs regs w s :
  I w s → smc_return_wf regs → used regs = MAX_VALUES → legal w regs s →
  runs (handle_smc svc regs w) (exception_post w) s.
Proof.
  intros Hs Hwf Hu Hlegal. unfold handle_smc.
  destruct (lookup_lt_is_Some_2 (values regs) 0) as [x0 Hx0].
  { unfold values. destruct Hwf as [Hl _]. rewrite length_take, Hl, Hu. unfold MAX_VALUES. lia. }
  eapply runs_bind with (Q := λ x s', x = x0 ∧ s' = s).
  { unfold arr_get. by rewrite Hx0. }
  intros x s' [-> ->].
  assert (Hno : exception_post w (w, set_from_i32 NOT_SUPPORTED regs) s).
  { split; [done|]. split; [by destruct w|by apply set_from_u64_wf]. }
  case_match; [by apply runs_ret|].
  destruct (find_service svc (as_u32 x0)) as [sv|] eqn:Hf; [|by apply runs_ret].
  assert (Hin : sv ∈ [arch svc; psci svc; platform svc; spmd svc; errata_management svc;
    trng svc; rmmd svc] ∧ owns sv (as_u32 x0) = true).
  { unfold find_service in Hf. rewrite !elem_of_cons.
    repeat case_match; simplify_eq; split; (done || tauto). }
  eapply runs_weaken; [by eapply (law_services Hlaws sv (proj1 Hin)); [..|apply Hin]|].
  by intros [w' regs'] s' ?.
Qed.

Lemma handle_interrupt_runs regs w s :
  smc_return_wf regs → interrupt_ok w s → runs (handle_interrupt ops regs w) (exception_post w) s.
Proof.
  intros Hwf Hp. eapply runs_bind; [exact Hp|]. intros t s' (Hs' & Hr & Hg).
  assert (Hstay : ∀ s, I w s → exception_post w (w, mark_empty regs) s).
  { intros s1 Hs1. split; [done|]. split; [by destruct w|].
    split; [apply Hwf|simpl; unfold MAX_VALUES; lia]. }
  destruct t, w; try done; try by apply runs_ret, Hstay.
  - eapply runs_bind; [by apply Hg|]. intros ? s'' Hs''. by apply runs_ret, Hstay.
  - eapply runs_weaken; [by apply (law_forward Hlaws)|]. by intros [w' r] s'' [??].
Qed.

Lemma per_world_loop_runs fuel regs w s :
  I w s → smc_return_wf regs → runs (per_world_loop svc ops fuel regs w)
    (λ r s', exception_post w r s' ∧ r.1 ≠ w) s.
Proof.
  revert regs s. induction fuel as [|fuel IH]; intros regs s Hs Hwf0; [done|]. cbn [per_world_loop].
  eapply runs_bind; [by apply (law_enter Hlaws)|]. intros [r regs1] s1 (Hs1 & Hwf & Hu & Hleg & Hint & Hinj).
  eapply (runs_bind _ _ (exception_post w)).
  - destruct r as [| |esr].
    + apply handle_smc_runs; auto.
    + apply handle_interrupt_runs; auto.
    + eapply runs_bind; [by eapply Hinj|]. intros ? s2 Hs2. apply runs_ret.
      split; [done|]. split; [by destruct w|]. split; [apply Hwf|simpl; unfold MAX_VALUES; lia].
  - intros [w' regs2] s2 (Hs2 & Hw & Hwf2). simpl in *.
    case_decide as Hd; [by apply runs_ret|]. subst w'. by apply IH.
Qed.

Lemma main_loop_runs fuel regs cur next s :
  cur ≠ next → I next s → smc_return_wf regs → runs (main_loop svc ops fuel regs cur next) (λ _ _, False) s.
Proof.
  revert regs cur next s. induction fuel as [|fuel IH]; intros regs cur next s Hcur Hs Hwf; [done|].
  cbn [main_loop]. eapply runs_bind; [by apply (law_switch Hlaws)|]. intros ? s1 Hs1.
  eapply runs_bind; [by apply per_world_loop_runs|]. intros [w regs'] s2 [(Hs2 & _ & Hwf2) Hne].
  simpl in *. rewrite bool_decide_true by done. by apply IH; [apply not_eq_sym|..].
Qed.

(** The main loop never returns and never panics: the assertions on the
    order of the worlds hold, since the Secure world and the RMM give way to the
    Normal World only, and a world is left for another one only. *)
Theorem run_loop_runs fuel s :
  I Secure s → ∃ s', run_loop svc ops fuel s = Halt s'.
Proof.
  intros Hs. cut (runs (run_loop svc ops fuel) (λ _ _, False) s).
  { unfold runs. destruct (run_loop svc ops fuel s); [done| |done]. by eexists. }
  unfold run_loop. eapply runs_bind; [by apply (law_initial Hlaws)|]. intros ? s1 Hs1.
  eapply runs_bind; [apply per_world_loop_runs; [done|split; [done|simpl; lia]]|].
  intros [w regs1] s2 [(Hs2 & Hw & Hwf) Hne]. simpl in Hs2, Hw, Hwf, Hne.
  destruct w; [done| |done]. rewrite bool_decide_true by done.
  eapply (runs_bind _ _ (λ _, I NonSecure)); [done|]. intros ? s3 Hs3.
  eapply (runs_bind _ _ (λ _, I NonSecure)); [exact Hs3|]. intros s4 s5 Hs5.
  eapply (runs_bind _ _ (λ r s, r.1 ≠ NonSecure ∧ I NonSecure s ∧ smc_return_wf r.2)).
  - case_match; [|done]. eapply runs_bind; [by apply (law_switch Hlaws); [|apply law_boot_rmm]|].
    intros ? s6 Hs6. eapply runs_bind; [by apply per_world_loop_runs; [|apply mark_empty_wf]|].
    intros [w' regs2] s7 [(Hs7 & Hw' & Hwf') Hne']. simpl in Hs7, Hw', Hwf', Hne'.
    destruct w'; [done| |done]. rewrite bool_decide_true by done. done.
  - intros [cur regs2] s6 (Hcur & Hs6 & Hwf2). by apply main_loop_runs; [| |apply mark_empty_wf].
Qed.
End Loop.
