(* ===== verification/Spmd.v ===== *)
(** * The Secure Partition Manager Dispatcher

    [src/services/ffa/spmd.rs]: the service that passes FF-A messages between the
    Normal World and the SPM core (SPMC) of the Secure world, the states the SPMC
    of a core is in, and the notifications of PSCI.  The messages and their
    encoding are those of the [arm_ffa] crate, a parameter: [Interface] has the
    variants the dispatcher names, with the fields it reads; the fields it does
    not look at are a [Payload]. *)

From Stdlib Require Import ZArith Lia.
From stdpp Require Import base list numbers option.
From S2P Require Import Prelude PowerState Smccc PowerTree Composite Psci Services.
Open Scope rust_scope.
Open Scope Z_scope.

(** ** The types of [arm_ffa] *)
Class ArmFfaTypes := {
  Payload : Type;
  FfaError : Type;
  SuccessArgs : Type;
}.

Definition Version : Type := Z * Z.
Record TargetInfo : Type := mkTargetInfo { endpoint_id : Z; vcpu_id : Z }.
Inductive VersionQueryType : Type := Negotiate | QueryNegotiated | QueryCompatibility.
Inductive VersionOut : Type := VersionNotSupported | VersionIs (v : Version).
Inductive WarmBootType : Type := ExitFromSuspend | ExitFromLowPower.
Inductive SecondaryEpRegisterAddr : Type := Addr32 (addr : Z) | Addr64 (addr : Z).

Section Messages.
Context `{ArmFfaTypes}.

Record VersionFlags : Type := mkVersionFlags {
  query_type : VersionQueryType;
  other_flags : Payload;
}.

Inductive DirectMsgArgs : Type :=
| VersionReq (version : Version) (flags : VersionFlags)
| VersionResp (version : option Version)
| PowerPsciReq64 (params : list Z)
| PowerPsciResp (psci_status : Z)
| PowerWarmBootReq (boot_type : WarmBootType)
| OtherArgs (p : Payload).

Inductive Interface : Type :=
| IError (error_code : FfaError) (p : Payload)
| ISuccess (target_info : TargetInfo) (args : SuccessArgs)
| IInterrupt (target_info : TargetInfo) (interrupt_id : Z) (is_32bit : bool)
| IVersion (input_version : Version) (flags : VersionFlags)
| IVersionOut (output_version : VersionOut)
| IFeatures (p : Payload)
| IRxAcquire (p : Payload)
| IRxRelease (p : Payload)
| IRxTxMap (p : Payload)
| IRxTxUnmap (p : Payload)
| IPartitionInfoGet (p : Payload)
| IPartitionInfoGetRegs (p : Payload)
| IIdGet
| ISpmIdGet
| IMsgWait (p : Payload)
| IYield (p : Payload)
| IRun (p : Payload)
| INormalWorldResume (p : Payload)
| ISecondaryEpRegister (entrypoint : SecondaryEpRegisterAddr)
| IMsgSend2 (sender_vm_id : Z) (p : Payload)
| IMsgSendDirectReq (src_id dst_id : Z) (args : DirectMsgArgs)
| IMsgSendDirectResp (src_id dst_id : Z) (args : DirectMsgArgs)
| IMsgSendDirectReq2 (src_id dst_id : Z) (p : Payload)
| IMsgSendDirectResp2 (src_id dst_id : Z) (p : Payload)
| INotificationBitmapCreate (p : Payload)
| INotificationBitmapDestroy (p : Payload)
| INotificationBind (p : Payload)
| INotificationUnbind (p : Payload)
| INotificationSet (p : Payload)
| INotificationGet (p : Payload)
| INotificationInfoGet (p : Payload)
| IMemDonate (p : Payload)
| IMemLend (p : Payload)
| IMemShare (p : Payload)
| IMemRetrieveReq (p : Payload)
| IMemRetrieveResp (p : Payload)
| IMemReclaim (p : Payload)
| IMemOpPause (p : Payload)
| IMemOpResume (p : Payload)
| IMemFragRx (p : Payload)
| IMemFragTx (p : Payload)
| IOther (p : Payload).
End Messages.

(** The functions of [arm_ffa] and of [arm_psci] that the dispatcher calls.  A
    decoding error is given by the FF-A error it converts to and whether it is
    one of the errors of FFA_VERSION. *)
Class ArmFfaOps `{ArmFfaTypes} `{ArmPsciTypes} := {
  from_regs : Version → list Z → result Interface (FfaError * bool);
  to_regs : Version → Interface → list Z → list Z;
  ffa_not_supported : FfaError;
  ffa_invalid_parameters : FfaError;
  ffa_denied : FfaError;
  interface_error : FfaError → bool → Interface;
  success32_noargs : Interface;
  target_info_default : TargetInfo;
  success_args_id_get : Z → SuccessArgs;
  success_args_spm_id_get : Z → SuccessArgs;
  is_compatible_to : Version → Version → bool;
  copy_to_array : Function → list Z;
  return_code_try_from : Z → option (result unit ErrorCode);
}.

(** What is relied on: a message is written into the registers given for it. *)
Class ArmFfaLaws `{ArmFfaOps} : Prop := {
  to_regs_length v msg regs : length (to_regs v msg regs) = length regs;
}.

(** ** The state of the dispatcher *)
Inductive SpmcState : Type :=
| SpmcOff
| SpmcBoot
| SpmcRuntime
| SpmcSecureInterrupt
| SpmcPsciEventHandling.
Global Instance SpmcState_eq_dec : EqDecision SpmcState.
Proof. solve_decision. Defined.

Record Spmd : Type := mkSpmd {
  spmc_id : Z;
  spmc_version : Version;
  spmc_primary_ep : Z;
  spmc_secondary_ep : Z;
  core_local : list SpmcState;
}.

Definition OWN_ID : Z := 0xffff.
Definition SPMD_VERSION : Version := (1, 3).
Definition NS_EP_ID : Z := 0.

(** [Spmd::is_secure_id] *)
Definition is_secure_id (id : Z) : bool := negb (Z.land id 0x8000 =? 0).

(** The dispatcher as a part of a larger state, with the lower exception levels
    and the switch of contexts as operations on that state. *)
Record SpmdEnv (St : Type) : Type := mkSpmdEnv {
  get_spmd : St → Spmd;
  put_spmd : Spmd → St → St;
  spm_enter_world : SmcReturn → World → M St (RunResult * SmcReturn);
  spm_switch_world : World → World → M St unit;
}.
Arguments mkSpmdEnv {St}.
Arguments get_spmd {St}.
Arguments put_spmd {St}.
Arguments spm_enter_world {St}.
Arguments spm_switch_world {St}.

Section Dispatcher.
Context `{Hpsci : ArmPsciTypes} `{Hffa : ArmFfaTypes} `{!ArmFfaOps}.
Context {St : Type} (env : SpmdEnv St).
(** The core that runs the code, [CoresImpl::core_index()]. *)
Context (me : nat).

Definition spmd_self : M St Spmd := s ← get; mret (get_spmd env s).

(** [core_local.get()], the state of this core. *)
Definition local_state : M St SpmcState :=
  self ← spmd_self; lift (arr_get (core_local self) me).

Definition set_local_state (new_state : SpmcState) : M St unit :=
  self ← spmd_self;
  local ← lift (arr_set (core_local self) me new_state);
  modify (put_spmd env (mkSpmd (spmc_id self) (spmc_version self) (spmc_primary_ep self)
                          (spmc_secondary_ep self) local)).

Definition switch_spmc_local_state (expected_state new_state : SpmcState) : M St unit :=
  spmc_state ← local_state;
  _ ← lift (assert_ (bool_decide (spmc_state = expected_state)));
  set_local_state new_state.

(** [Spmd::new], run on core [me] of [core_count]. *)
Definition spmd_new (core_count : nat) : outcome Spmd :=
  let spmc_id := 0x8000 in
  let spmc_version := (1, 3) in
  let spmc_primary_ep := 0x06000000 in
  _ ← assert_ (is_compatible_to spmc_version SPMD_VERSION);
  local ← arr_set (replicate core_count SpmcOff) me SpmcBoot;
  mret (mkSpmd spmc_id spmc_version spmc_primary_ep spmc_primary_ep local).

Definition primary_ep : M St Z := self ← spmd_self; mret (spmc_primary_ep self).
Definition secondary_ep : M St Z := self ← spmd_self; mret (spmc_secondary_ep self).
Definition store_secondary_ep (ep : Z) : M St unit :=
  self ← spmd_self;
  modify (put_spmd env (mkSpmd (spmc_id self) (spmc_version self) (spmc_primary_ep self)
                          ep (core_local self))).

(** ** Calls of the Secure world

    The result is whether the message is written to the registers, the world to
    enter, and the message. *)
Definition SecureResult : Type := bool * World * Interface.

Definition handle_secure_call_common (msg : Interface) : M St SecureResult :=
  self ← spmd_self;
  let msg :=
    match msg with
    | IFeatures _ => success32_noargs
    | IIdGet => ISuccess target_info_default (success_args_id_get (spmc_id self))
    | ISpmIdGet => ISuccess target_info_default (success_args_spm_id_get OWN_ID)
    | _ => interface_error ffa_not_supported true
    end in
  mret (true, Secure, msg).

Definition handle_secure_call_boot (msg : Interface) : M St SecureResult :=
  self ← spmd_self;
  match msg with
  | IError _ _ => crash
  | IVersion _ flags =>
      mret (true, Secure,
        IVersionOut (VersionIs
          match query_type flags with
          | Negotiate | QueryNegotiated => spmc_version self
          | QueryCompatibility => SPMD_VERSION
          end))
  | IMsgWait _ =>
      _ ← switch_spmc_local_state SpmcBoot SpmcRuntime;
      mret (false, NonSecure, msg)
  | ISecondaryEpRegister entrypoint =>
      _ ← store_secondary_ep (match entrypoint with Addr32 a => a | Addr64 a => a end);
      mret (true, Secure, success32_noargs)
  | IFeatures _ | IIdGet | ISpmIdGet | IPartitionInfoGetRegs _ =>
      handle_secure_call_common msg
  | _ => mret (true, Secure, interface_error ffa_denied true)
  end.

Definition handle_secure_call_runtime (msg : Interface) : M St SecureResult :=
  self ← spmd_self;
  match msg with
  | INormalWorldResume _ => mret (true, Secure, interface_error ffa_denied true)
  | IMsgSendDirectResp src_id dst_id args =>
      if negb (is_secure_id src_id) || (is_secure_id dst_id && negb (dst_id =? OWN_ID)) then
        mret (true, Secure, interface_error ffa_invalid_parameters true)
      else if dst_id =? OWN_ID then
        match args with
        | VersionResp version =>
            if src_id =? spmc_id self then
              mret (true, NonSecure,
                IVersionOut (match version with
                             | None => VersionNotSupported
                             | Some v => VersionIs v
                             end))
            else mret (true, Secure, interface_error ffa_invalid_parameters true)
        | _ => mret (true, Secure, interface_error ffa_invalid_parameters true)
        end
      else mret (true, NonSecure, msg)
  | IMsgSendDirectResp2 src_id dst_id _ =>
      if negb (is_secure_id src_id) || is_secure_id dst_id then
        mret (true, Secure, interface_error ffa_invalid_parameters true)
      else mret (true, NonSecure, msg)
  | IFeatures _ | IIdGet | ISpmIdGet | IPartitionInfoGetRegs _ =>
      handle_secure_call_common msg
  | IError _ _ | ISuccess _ _ | IInterrupt _ _ _ | IMsgWait _ | IYield _
  | IMemRetrieveResp _ | IMemOpPause _ | IMemFragRx _ | IMemFragTx _ =>
      mret (true, NonSecure, msg)
  | _ => mret (true, Secure, interface_error ffa_not_supported true)
  end.

Definition handle_secure_call_interrupt (msg : Interface) : M St SecureResult :=
  match msg with
  | INormalWorldResume _ =>
      _ ← switch_spmc_local_state SpmcSecureInterrupt SpmcRuntime;
      mret (false, NonSecure, msg)
  | _ => mret (true, Secure, interface_error ffa_denied true)
  end.

(** The response to a PSCI request, which only the SPMC sends to the SPMD. *)
Definition psci_response (self : Spmd) (msg : Interface) : option Z :=
  match msg with
  | IMsgSendDirectResp src_id dst_id (PowerPsciResp psci_status) =>
      if (dst_id =? OWN_ID) && (src_id =? spmc_id self) then Some psci_status else None
  | _ => None
  end.

Definition handle_secure_call_psci_event (msg : Interface) : M St SecureResult :=
  self ← spmd_self;
  match psci_response self msg with
  | Some _ =>
      _ ← switch_spmc_local_state SpmcPsciEventHandling SpmcRuntime;
      mret (false, NonSecure, msg)
  | None => mret (true, Secure, interface_error ffa_denied true)
  end.

(** ** Calls of the Normal World *)
Definition handle_non_secure_call (msg : Interface) : M St (World * Interface) :=
  self ← spmd_self;
  mret
    match msg with
    | IVersion input_version flags =>
        (Secure, IMsgSendDirectReq OWN_ID (spmc_id self) (VersionReq input_version flags))
    | IIdGet =>
        (NonSecure, ISuccess target_info_default (success_args_id_get NS_EP_ID))
    | ISpmIdGet =>
        (NonSecure, ISuccess target_info_default (success_args_spm_id_get (spmc_id self)))
    | IMsgSendDirectReq src_id dst_id _ | IMsgSendDirectReq2 src_id dst_id _ =>
        if is_secure_id src_id || negb (is_secure_id dst_id) then
          (NonSecure, interface_error ffa_invalid_parameters true)
        else (Secure, msg)
    | IMsgSend2 src_id _ =>
        if is_secure_id src_id then
          (NonSecure, interface_error ffa_invalid_parameters true)
        else (Secure, msg)
    | IError _ _ | ISuccess _ _ | IFeatures _ | IRxAcquire _ | IRxRelease _ | IRxTxMap _
    | IRxTxUnmap _ | IPartitionInfoGet _ | IPartitionInfoGetRegs _ | IRun _
    | INotificationBitmapCreate _ | INotificationBitmapDestroy _ | INotificationBind _
    | INotificationUnbind _ | INotificationSet _ | INotificationGet _
    | INotificationInfoGet _ | IMemDonate _ | IMemLend _ | IMemShare _ | IMemRetrieveReq _
    | IMemReclaim _ | IMemOpResume _ | IMemFragRx _ | IMemFragTx _ =>
        (Secure, msg)
    | _ => (NonSecure, interface_error ffa_not_supported true)
    end.

(** ** The service *)

(** [get_smc_regs] marks the registers of the call as used. *)
Definition get_smc_regs (regs : SmcReturn) : outcome SmcReturn :=
  x0 ← arr_get (values regs) 0;
  match call_type (as_u32 x0) with
  | Fast32 => mret (mark_used 8 regs)
  | Fast64 => mret (mark_used 18 regs)
  | Yielding => Panic
  end.

(** [msg.to_regs(version, smc_regs)] for the used registers. *)
Definition write_regs (version : Version) (msg : Interface) (regs : SmcReturn) : SmcReturn :=
  mkSmcReturn (used regs)
    (to_regs version msg (values regs) ++ drop (used regs) (all_values regs)).

Definition spmd_handle_non_secure_smc (regs : SmcReturn) : M St (World * SmcReturn) :=
  self ← spmd_self;
  let version := spmc_version self in
  regs ← lift (get_smc_regs regs);
  match from_regs version (values regs) with
  | Ok msg =>
      spmc_state ← local_state;
      _ ← lift (assert_ (bool_decide (spmc_state = SpmcRuntime)));
      '(next_world, msg) ← handle_non_secure_call msg;
      mret (next_world, write_regs version msg regs)
  | Err (error, is_version_error) =>
      let response :=
        if is_version_error : bool then IVersionOut VersionNotSupported
        else interface_error error true in
      mret (NonSecure, write_regs version response regs)
  end.

Definition spmd_handle_secure_smc (regs : SmcReturn) : M St (World * SmcReturn) :=
  self ← spmd_self;
  let version := spmc_version self in
  regs ← lift (get_smc_regs regs);
  match from_regs version (values regs) with
  | Ok msg =>
      spmc_state ← local_state;
      '(has_msg, next_world, msg) ←
        match spmc_state with
        | SpmcOff => crash
        | SpmcBoot => handle_secure_call_boot msg
        | SpmcRuntime => handle_secure_call_runtime msg
        | SpmcSecureInterrupt => handle_secure_call_interrupt msg
        | SpmcPsciEventHandling => handle_secure_call_psci_event msg
        end;
      mret (next_world,
            if has_msg : bool then write_regs version msg regs else mark_empty regs)
  | Err (error, _) =>
      mret (Secure, write_regs version (interface_error error true) regs)
  end.

Definition spmd_service : Service St :=
  mkService
    (owns_range OEN_STANDARD_SECURE SPMD_FUNCTION_NUMBER_MIN SPMD_FUNCTION_NUMBER_MAX)
    spmd_handle_non_secure_smc spmd_handle_secure_smc (default_smc Realm).

(** ** Interrupts and power *)
Definition spmd_forward_secure_interrupt (regs : SmcReturn) : M St (World * SmcReturn) :=
  let msg := IInterrupt (mkTargetInfo 0 0) 0 true in
  _ ← switch_spmc_local_state SpmcRuntime SpmcSecureInterrupt;
  self ← spmd_self;
  mret (Secure, write_regs (spmc_version self) msg (mark_all_used regs)).

Definition handle_wake_from_cpu_off : M St unit :=
  switch_spmc_local_state SpmcOff SpmcBoot.

(** A message of the dispatcher to the SPMC, in registers for it. *)
Definition power_request (self : Spmd) (args : DirectMsgArgs) : SmcReturn :=
  let msg := IMsgSendDirectReq OWN_ID (spmc_id self) args in
  write_regs (spmc_version self) msg (mark_all_used EMPTY).

Definition handle_wake_from_cpu_suspend : M St SmcReturn :=
  self ← spmd_self;
  _ ← switch_spmc_local_state SpmcRuntime SpmcPsciEventHandling;
  mret (power_request self (PowerWarmBootReq ExitFromLowPower)).

(** Both loops that run the Secure world for PSCI end with the first exception:
    anything but the response of the SPMC panics. *)
Definition run_spmc (regs : SmcReturn) : M St Z :=
  '(result, regs) ← spm_enter_world env regs Secure;
  self ← spmd_self;
  match result with
  | RunSmc =>
      match from_regs (spmc_version self) (values regs) with
      | Ok msg => lift (unwrap (psci_response self msg))
      | Err _ => crash
      end
  | RunInterrupt => crash
  | RunSysregTrap _ => crash
  end.

Definition spmd_forward_psci_request (function : Function) : M St (result unit ErrorCode) :=
  self ← spmd_self;
  let regs := power_request self (PowerPsciReq64 (copy_to_array function)) in
  _ ← spm_switch_world env NonSecure Secure;
  ret ← run_spmc regs;
  _ ← spm_switch_world env Secure NonSecure;
  mret (match return_code_try_from ret with
        | Some code => code
        | None => Err InternalFailure
        end).

Definition spmd_notify_cpu_off : M St unit :=
  switch_spmc_local_state SpmcRuntime SpmcOff.

Definition spmd_notify_cpu_suspend_powerdown_abandoned : M St unit :=
  regs ← handle_wake_from_cpu_suspend;
  _ ← spm_switch_world env NonSecure Secure;
  _ ← run_spmc regs;
  _ ← switch_spmc_local_state SpmcPsciEventHandling SpmcRuntime;
  spm_switch_world env Secure NonSecure.
End Dispatcher.

(** The dispatcher by itself, for the operations that do not enter a world. *)
Definition spmd_alone : SpmdEnv Spmd := mkSpmdEnv id (λ x _, x) (λ _ _, crash) (λ _ _, crash).
