(* ===== verification/SpmdProps.v ===== *)
(** * Properties of the SPM dispatcher

    The states of the SPMC on all cores over the life of the system, with the
    cores taking turns in any order; the calls that do not panic; and what the
    dispatcher lets pass from one world to the other. *)

From Stdlib Require Import ZArith Lia.
From stdpp Require Import base list numbers option relations.
From S2P Require Import Prelude PowerState Smccc PowerTree Composite Psci Sample Services ServicesProps Spmd.
Open Scope rust_scope.
Open Scope Z_scope.

(** ** The life of a core *)

(** A core runs a world, is off or never was on, or sleeps after a suspend call. *)
Inductive Phase : Type :=
| Running (w : World)
| PoweredOff
| Asleep.

(** The Normal World and the Realm world only run while the SPMC is idle, and
    the Secure world only once it was started. *)
Definition phase_ok (p : Phase) (st : SpmcState) : Prop :=
  match p with
  | Running Secure => st ≠ SpmcOff
  | Running NonSecure | Running Realm => st = SpmcRuntime
  | PoweredOff => st = SpmcOff
  | Asleep => st = SpmcRuntime
  end.

Section Props.
Context `{Hpsci : ArmPsciTypes} `{Hffa : ArmFfaTypes} `{!ArmFfaOps}.
Context {St : Type} (env : SpmdEnv St).

(** The Secure world and the switch of contexts leave the memory of the
    dispatcher alone. *)
Record spmd_env_laws : Prop := {
  get_put_spmd x s : get_spmd env (put_spmd env x s) = x;
  enter_keeps_spmd regs w s r s' :
    spm_enter_world env regs w s = Ret r s' → get_spmd env s' = get_spmd env s;
  switch_keeps_spmd w w' s u s' :
    spm_switch_world env w w' s = Ret u s' → get_spmd env s' = get_spmd env s;
}.
Context (Hlaws : spmd_env_laws).

(** The dispatcher's memory is as it was. *)
Definition local_kept (s s' : St) : Prop := get_spmd env s' = get_spmd env s.

Definition local (me : nat) (s : St) : option SpmcState := core_local (get_spmd env s) !! me.

(** From [s] to [s'] only the SPMC state of core [me] changed, to [st], and
    perhaps the secondary entry point. *)
Record moved (me : nat) (s : St) (st : SpmcState) (s' : St) : Prop := {
  moved_local : core_local (get_spmd env s') = <[me := st]> (core_local (get_spmd env s));
  moved_id : spmc_id (get_spmd env s') = spmc_id (get_spmd env s);
  moved_version : spmc_version (get_spmd env s') = spmc_version (get_spmd env s);
}.

Lemma moved_refl me s st : local me s = Some st → moved me s st s.
Proof. intros Hl. split; [|done..]. by rewrite list_insert_id. Qed.

Lemma moved_keep me s st s1 s' :
  moved me s st s1 → get_spmd env s' = get_spmd env s1 → moved me s st s'.
Proof. intros [H1 H2 H3] Hg. split; by rewrite Hg. Qed.

Lemma moved_trans me s st1 s1 st2 s2 :
  moved me s st1 s1 → moved me s1 st2 s2 → moved me s st2 s2.
Proof.
  intros [L1 I1 V1] [L2 I2 V2]. split; [|congruence..].
  by rewrite L2, L1, list_insert_insert_eq.
Qed.

Lemma moved_lookup me s st0 st s' :
  local me s = Some st0 → moved me s st s' → local me s' = Some st.
Proof.
  intros Hl [HL _ _]. unfold local. rewrite HL. apply list_lookup_insert_eq.
  by eapply lookup_lt_Some.
Qed.

Lemma switch_state_put (Hput : ∀ x s, get_spmd env (put_spmd env x s) = x) me s e n :
  local me s = Some e →
  ∃ x, let s' := put_spmd env x s in
    switch_spmc_local_state env me e n s = Ret tt s' ∧ moved me s n s'.
Proof.
  intros Hl. unfold switch_spmc_local_state, local_state, set_local_state, spmd_self.
  cbv [mbind M_bind get lift mret M_ret modify arr_get]. unfold local in Hl. rewrite Hl.
  cbn [unwrap]. rewrite bool_decide_true by done. cbn [assert_].
  unfold arr_set. rewrite decide_True by (by eapply lookup_lt_Some).
  eexists. split; [done|]. split; by rewrite Hput.
Qed.

Lemma switch_state_spec me s e n :
  local me s = Some e →
  ∃ s', switch_spmc_local_state env me e n s = Ret tt s' ∧ moved me s n s'.
Proof. intros (x & Hx)%(switch_state_put (get_put_spmd Hlaws) me s e n). by eexists. Qed.

Lemma switch_state_inv me s e n u s' :
  switch_spmc_local_state env me e n s = Ret u s' → local me s = Some e ∧ moved me s n s'.
Proof.
  intros Hs. destruct (local me s) as [st|] eqn:Hl.
  - destruct (decide (st = e)) as [->|Hne].
    + destruct (switch_state_spec me s e n Hl) as (s1 & Hs1 & Hm).
      rewrite Hs1 in Hs. by injection Hs as _ <-.
    + revert Hs. unfold switch_spmc_local_state, local_state, spmd_self.
      cbv [mbind M_bind get lift mret M_ret arr_get]. unfold local in Hl. rewrite Hl.
      cbn [unwrap]. by rewrite bool_decide_false by done.
  - revert Hs. unfold switch_spmc_local_state, local_state, spmd_self.
    cbv [mbind M_bind get lift mret M_ret arr_get]. unfold local in Hl. by rewrite Hl.
Qed.

Lemma runs_switch me s e n :
  local me s = Some e →
  runs (switch_spmc_local_state env me e n) (λ _ s', moved me s n s') s.
Proof. intros (s' & Hs' & Hm)%(switch_state_spec me s e n). unfold runs. by rewrite Hs'. Qed.

(** ** Calls of the Secure world *)

(** What a handler of a secure call in state [st] leaves: a state that fits the
    next world, which is not the Realm world.  Unless the SPMC was running for the
    Normal World, that world is resumed with the registers it has. *)
Definition secure_post (me : nat) (s : St) (st : SpmcState) (r : SecureResult) (s' : St) : Prop :=
  let '(has_msg, w', _) := r in
  ∃ st', moved me s st' s' ∧ phase_ok (Running w') st' ∧ w' ≠ Realm ∧
    (st ≠ SpmcRuntime → w' = NonSecure → has_msg = false).

Lemma secure_post_stay me s st msg has_msg w' :
  local me s = Some st → phase_ok (Running w') st → w' ≠ Realm →
  w' = Secure ∨ st = SpmcRuntime →
  secure_post me s st (has_msg, w', msg) s.
Proof.
  intros Hl Hp Hw Hst. exists st. split; [by apply moved_refl|].
  split; [done|]. split; [done|]. intros ? ->. naive_solver.
Qed.

Ltac stay st := by (eapply (secure_post_stay _ _ st); [done|done|done|tauto]).

Lemma handle_common_post me s st msg :
  local me s = Some st → st ≠ SpmcOff →
  runs (handle_secure_call_common env msg) (secure_post me s st) s.
Proof. intros Hl Hst. stay st. Qed.

Definition is_boot_error (msg : Interface) : bool :=
  match msg with IError _ _ => true | _ => false end.

Lemma handle_boot_post me s msg :
  local me s = Some SpmcBoot → is_boot_error msg = false →
  runs (handle_secure_call_boot env me msg) (secure_post me s SpmcBoot) s.
Proof.
  intros Hl Hmsg. destruct msg; try done; try stay SpmcBoot.
  - unfold handle_secure_call_boot. cbv [mbind M_bind spmd_self get mret M_ret].
    eapply (runs_bind (switch_spmc_local_state env me _ _)); [by apply runs_switch|].
    intros ? s' Hm. exists SpmcRuntime. done.
  - exists SpmcBoot. split; [|done].
    split; rewrite (get_put_spmd Hlaws); [|done..]. by rewrite list_insert_id.
Qed.

Lemma handle_runtime_post me s msg :
  local me s = Some SpmcRuntime →
  runs (handle_secure_call_runtime env msg) (secure_post me s SpmcRuntime) s.
Proof.
  intros Hl. unfold handle_secure_call_runtime, runs.
  cbv [mbind M_bind spmd_self get mret M_ret].
  destruct msg;
    repeat match goal with
    | |- context [if ?b then _ else _] => destruct b
    | args : DirectMsgArgs |- _ => destruct args
    end; stay SpmcRuntime.
Qed.

Lemma handle_interrupt_post me s msg :
  local me s = Some SpmcSecureInterrupt →
  runs (handle_secure_call_interrupt env me msg) (secure_post me s SpmcSecureInterrupt) s.
Proof.
  intros Hl. destruct msg; try stay SpmcSecureInterrupt.
  eapply runs_bind; [by apply runs_switch|]. intros ? s' Hm. by exists SpmcRuntime.
Qed.

Lemma handle_psci_event_post me s msg :
  local me s = Some SpmcPsciEventHandling →
  runs (handle_secure_call_psci_event env me msg) (secure_post me s SpmcPsciEventHandling) s.
Proof.
  intros Hl. unfold handle_secure_call_psci_event.
  eapply (runs_bind _ _ (λ sp s', sp = get_spmd env s ∧ s' = s)); [done|].
  intros sp s' [-> ->]. destruct (psci_response _ _).
  - eapply runs_bind; [by apply runs_switch|]. intros ? s' Hm. by exists SpmcRuntime.
  - stay SpmcPsciEventHandling.
Qed.

(** ** The service *)

(** A call that belongs to the dispatcher: its identifier is that of a fast call. *)
Definition ffa_call (regs : SmcReturn) : Prop :=
  ∃ x0, values regs !! 0%nat = Some x0 ∧ is_fast (as_u32 x0) = true.

(** The message of a call, decoded from the registers the call type has. *)
Definition call_message (sp : Spmd) (regs : SmcReturn) : result Interface (FfaError * bool) :=
  match get_smc_regs regs with
  | Done regs => from_regs (spmc_version sp) (values regs)
  | Panic => Err (ffa_denied, false)
  end.

Lemma get_smc_regs_done regs :
  ffa_call regs → ∃ n, get_smc_regs regs = Done (mark_used n regs).
Proof.
  intros (x0 & Hx & Hf). unfold get_smc_regs, arr_get. rewrite Hx. simpl.
  unfold is_fast in Hf. by destruct (call_type (as_u32 x0)); eauto.
Qed.

(** The SPMC reports that it failed to boot. *)
Definition spmc_boot_failure (me : nat) (s : St) (regs : SmcReturn) : Prop :=
  local me s = Some SpmcBoot ∧
  ∃ msg, call_message (get_spmd env s) regs = Ok msg ∧ is_boot_error msg = true.

Definition smc_post (me : nat) (s : St) (st : SpmcState) (r : World * SmcReturn) (s' : St) : Prop :=
  let '(w', regs') := r in
  ∃ st', moved me s st' s' ∧ phase_ok (Running w') st' ∧ w' ≠ Realm ∧
    (st ≠ SpmcRuntime → w' = NonSecure → used regs' = 0%nat).

Lemma secure_smc_runs me s st regs :
  local me s = Some st → st ≠ SpmcOff → ffa_call regs → ¬ spmc_boot_failure me s regs →
  runs (spmd_handle_secure_smc env me regs) (smc_post me s st) s.
Proof.
  intros Hl Hst Hc Hb. unfold spmd_handle_secure_smc.
  eapply (runs_bind _ _ (λ sp s', sp = get_spmd env s ∧ s' = s)); [done|].
  intros sp s' [-> ->]. unfold spmc_boot_failure, call_message in Hb.
  destruct (get_smc_regs_done regs Hc) as [n Hn]. rewrite Hn in Hb |- *.
  eapply (runs_bind _ _ (λ r s', r = mark_used n regs ∧ s' = s)); [done|].
  intros r s' [-> ->]. destruct (from_regs _ _) as [msg|[e v]] eqn:Hmsg.
  - eapply (runs_bind _ _ (λ st' s', st' = st ∧ s' = s)).
    { unfold local_state, spmd_self, runs. cbv [mbind M_bind get mret M_ret lift arr_get].
      unfold local in Hl. by rewrite Hl. }
    intros st' s' [-> ->].
    apply (runs_bind _ _ (secure_post me s st)).
    + destruct st; [done|apply handle_boot_post|apply handle_runtime_post
        |apply handle_interrupt_post|apply handle_psci_event_post]; try done.
      destruct (is_boot_error msg) eqn:He; [|done]. destruct Hb. eauto.
    + intros [[has_msg w'] msg'] s' (st' & Hm & Hp & Hw & Hres). exists st'.
      split; [done|]. split; [done|]. split; [done|]. intros H1 H2. by rewrite Hres.
  - exists st. split; [by apply moved_refl|]. done.
Qed.

Lemma boot_failure_crashes me s regs :
  spmc_boot_failure me s regs → spmd_handle_secure_smc env me regs s = Crash.
Proof.
  intros (Hl & msg & Hm & He). unfold call_message in Hm.
  unfold spmd_handle_secure_smc, spmd_self, local_state.
  cbv [mbind M_bind get mret M_ret lift arr_get].
  destruct (get_smc_regs regs) as [regs'|]; [|done]. rewrite Hm.
  unfold spmd_self, local in *. cbv [mbind M_bind get mret M_ret]. rewrite Hl. by destruct msg.
Qed.

Lemma non_secure_smc_runs me s regs :
  local me s = Some SpmcRuntime → ffa_call regs →
  runs (spmd_handle_non_secure_smc env me regs) (λ '(w', _) s', s' = s ∧ w' ≠ Realm) s.
Proof.
  intros Hl Hc. unfold spmd_handle_non_secure_smc.
  eapply (runs_bind _ _ (λ sp s', sp = get_spmd env s ∧ s' = s)); [done|].
  intros sp s' [-> ->]. destruct (get_smc_regs_done regs Hc) as [n Hn]. rewrite Hn.
  eapply (runs_bind _ _ (λ r s', r = mark_used n regs ∧ s' = s)); [done|].
  intros r s' [-> ->]. destruct (from_regs _ _) as [msg|[e v]]; [|done].
  unfold runs, local_state, handle_non_secure_call, spmd_self.
  cbv [mbind M_bind get mret M_ret lift arr_get]. unfold local in Hl. rewrite Hl.
  cbn [unwrap]. rewrite bool_decide_true by done. cbn [assert_].
  destruct msg; repeat (case_match; try done); by simplify_eq.
Qed.

Lemma forward_interrupt_runs me s regs :
  local me s = Some SpmcRuntime →
  runs (spmd_forward_secure_interrupt env me regs)
    (λ '(w', _) s', w' = Secure ∧ moved me s SpmcSecureInterrupt s') s.
Proof.
  intros Hl. eapply runs_bind; [by apply runs_switch|]. intros ? s' Hm. done.
Qed.

(** ** All cores *)

(** What core [me] does with the dispatcher, by the phase it is in.  A core that
    suspends keeps the state of its SPMC until it wakes up; calls to and from the
    Realm world do not reach the dispatcher. *)
Inductive core_step (me : nat) : Phase → St → Phase → St → Prop :=
| step_non_secure_smc regs w' regs' s s' :
    spmd_handle_non_secure_smc env me regs s = Ret (w', regs') s' →
    core_step me (Running NonSecure) s (Running w') s'
| step_secure_smc regs w' regs' s s' :
    spmd_handle_secure_smc env me regs s = Ret (w', regs') s' →
    core_step me (Running Secure) s (Running w') s'
| step_secure_interrupt regs w' regs' s s' :
    spmd_forward_secure_interrupt env me regs s = Ret (w', regs') s' →
    core_step me (Running NonSecure) s (Running w') s'
| step_psci_request f r s s' :
    spmd_forward_psci_request env f s = Ret r s' →
    core_step me (Running NonSecure) s (Running NonSecure) s'
| step_cpu_off u s s' :
    spmd_notify_cpu_off env me s = Ret u s' →
    core_step me (Running NonSecure) s PoweredOff s'
| step_suspend s : core_step me (Running NonSecure) s Asleep s
| step_suspend_abandoned u s s' :
    spmd_notify_cpu_suspend_powerdown_abandoned env me s = Ret u s' →
    core_step me (Running NonSecure) s (Running NonSecure) s'
| step_cpu_on u s s' :
    handle_wake_from_cpu_off env me s = Ret u s' →
    core_step me PoweredOff s (Running Secure) s'
| step_wake_up regs s s' :
    handle_wake_from_cpu_suspend env me s = Ret regs s' →
    core_step me Asleep s (Running Secure) s'
| step_enter_realm s : core_step me (Running NonSecure) s (Running Realm) s
| step_leave_realm s : core_step me (Running Realm) s (Running NonSecure) s.

Definition system_step (c1 c2 : list Phase * St) : Prop :=
  ∃ me p p', c1.1 !! me = Some p ∧ core_step me p c1.2 p' c2.2 ∧ c2.1 = <[me := p']> c1.1.

(** Every core has a state of its SPMC that fits its phase. *)
Definition consistent (c : list Phase * St) : Prop :=
  Forall2 phase_ok c.1 (core_local (get_spmd env c.2)).

Lemma run_spmc_keeps regs s z s' :
  run_spmc env regs s = Ret z s' → get_spmd env s' = get_spmd env s.
Proof.
  unfold run_spmc. intros ([r regs'] & s1 & He & H1)%M_bind_Ret.
  apply (enter_keeps_spmd Hlaws) in He. rewrite <-He.
  apply M_bind_Ret in H1 as (sp & s2 & Hsp & H1). injection Hsp as <- <-.
  destruct r; try done. destruct (from_regs _ _); [|done].
  unfold lift in H1. destruct (unwrap _); [|done]. by injection H1 as _ ->.
Qed.

Lemma psci_request_keeps f s r s' :
  spmd_forward_psci_request env f s = Ret r s' → get_spmd env s' = get_spmd env s.
Proof.
  unfold spmd_forward_psci_request. intros (sp & s1 & Hsp & H1)%M_bind_Ret.
  injection Hsp as <- <-. apply M_bind_Ret in H1 as (? & s2 & Hw & H2).
  apply M_bind_Ret in H2 as (z & s3 & Hr & H3). apply M_bind_Ret in H3 as (? & s4 & Hw' & H4).
  injection H4 as _ <-. apply (switch_keeps_spmd Hlaws) in Hw, Hw'.
  apply run_spmc_keeps in Hr. congruence.
Qed.

Lemma wake_from_suspend_inv me s regs s' :
  handle_wake_from_cpu_suspend env me s = Ret regs s' →
  local me s = Some SpmcRuntime ∧ moved me s SpmcPsciEventHandling s'.
Proof.
  unfold handle_wake_from_cpu_suspend. intros (sp & s1 & Hsp & H1)%M_bind_Ret.
  injection Hsp as <- <-. apply M_bind_Ret in H1 as (? & s2 & Hw & H2).
  injection H2 as _ <-. by apply switch_state_inv in Hw.
Qed.

Lemma suspend_abandoned_inv me s u s' :
  spmd_notify_cpu_suspend_powerdown_abandoned env me s = Ret u s' →
  local me s = Some SpmcRuntime ∧ moved me s SpmcRuntime s'.
Proof.
  unfold spmd_notify_cpu_suspend_powerdown_abandoned.
  intros (regs & s1 & [Hl Hm]%wake_from_suspend_inv & H1)%M_bind_Ret.
  apply M_bind_Ret in H1 as (? & s2 & Hw%(switch_keeps_spmd Hlaws) & H2).
  apply M_bind_Ret in H2 as (z & s3 & Hr%run_spmc_keeps & H3).
  apply M_bind_Ret in H3 as (? & s4 & [_ Hm']%switch_state_inv & H4).
  apply (switch_keeps_spmd Hlaws) in H4. split; [done|].
  eapply moved_trans; [eapply moved_keep; [eapply moved_keep; [exact Hm|]|]|].
  - exact Hw.
  - exact Hr.
  - by eapply moved_keep.
Qed.

Lemma ret_ffa_call {A} regs (k : SmcReturn → M St A) s r s' :
  (x ← lift (get_smc_regs regs); k x) s = Ret r s' → ffa_call regs.
Proof.
  cbv [mbind M_bind lift]. unfold get_smc_regs, arr_get, ffa_call, is_fast.
  destruct (values regs !! 0%nat) as [x0|] eqn:Hx; [|done]. simpl. intros Hr.
  exists x0. split; [done|]. by destruct (call_type (as_u32 x0)).
Qed.

(** A step of a core changes the state of its own SPMC only, to one that fits. *)
Lemma core_step_moved me p s p' s' st :
  core_step me p s p' s' → local me s = Some st → phase_ok p st →
  ∃ st', moved me s st' s' ∧ phase_ok p' st'.
Proof.
  intros Hstep Hl Hp. destruct Hstep as [regs w' regs' s s' Hs|regs w' regs' s s' Hs
    |regs w' regs' s s' Hs|f r s s' Hs|u s s' Hs|s|u s s' Hs|u s s' Hs|regs s s' Hs|s|s];
    simpl in Hp; subst; try (eexists; split; [by apply moved_refl|done]).
  - assert (Hc : ffa_call regs)
      by (pose proof Hs as (? & ? & _ & Hx)%M_bind_Ret; by eapply ret_ffa_call in Hx).
    pose proof (non_secure_smc_runs me s regs Hl Hc) as Hr. unfold runs in Hr.
    rewrite Hs in Hr. destruct Hr as [-> Hw]. exists SpmcRuntime.
    split; [by apply moved_refl|]. by destruct w'.
  - assert (Hc : ffa_call regs)
      by (pose proof Hs as (? & ? & _ & Hx)%M_bind_Ret; by eapply ret_ffa_call in Hx).
    assert (Hb : ¬ spmc_boot_failure me s regs)
      by (intros Hb; rewrite (boot_failure_crashes _ _ _ Hb) in Hs; done).
    pose proof (secure_smc_runs me s st regs Hl Hp Hc Hb) as Hr. unfold runs in Hr.
    rewrite Hs in Hr. destruct Hr as (st' & Hm & Hp' & _). eauto.
  - pose proof (forward_interrupt_runs me s regs Hl) as Hr. unfold runs in Hr.
    rewrite Hs in Hr. destruct Hr as [-> Hm]. by eexists.
  - apply psci_request_keeps in Hs. exists SpmcRuntime. split; [|done].
    eapply moved_keep; [by apply moved_refl|done].
  - apply switch_state_inv in Hs as [_ Hm]. by eexists.
  - apply suspend_abandoned_inv in Hs as [_ Hm]. by eexists.
  - apply switch_state_inv in Hs as [_ Hm]. by exists SpmcBoot.
  - apply wake_from_suspend_inv in Hs as [_ Hm]. by exists SpmcPsciEventHandling.
Qed.

Lemma system_step_consistent c1 c2 :
  system_step c1 c2 → consistent c1 → consistent c2.
Proof.
  destruct c1 as [ps s], c2 as [ps' s']. intros (me & p & p' & Hp & Hstep & Hps) Hc.
  simpl in *. subst ps'. unfold consistent in *. simpl in *.
  destruct (Forall2_lookup_l _ _ _ _ _ Hc Hp) as (st & Hl & Hok).
  destruct (core_step_moved _ _ _ _ _ _ Hstep Hl Hok) as (st' & [Hm _ _] & Hok').
  rewrite Hm. by apply Forall2_insert.
Qed.

(** The system after [Spmd::new] on the primary core. *)
Definition spmd_boots (primary core_count : nat) (c : list Phase * St) : Prop :=
  spmd_new primary core_count = Done (get_spmd env c.2) ∧
  c.1 = <[primary := Running Secure]> (replicate core_count PoweredOff).

Lemma boots_consistent primary core_count c : spmd_boots primary core_count c → consistent c.
Proof.
  intros [Hn Hp]. unfold consistent. rewrite Hp. unfold spmd_new in Hn.
  apply outcome_bind_Done in Hn as ([] & _ & Hn).
  apply outcome_bind_Done in Hn as (l & [Hlt ->]%arr_set_Done & Hn).
  injection Hn as <-. simpl. apply Forall2_insert; [|done].
  apply Forall2_replicate. done.
Qed.

(** Entered with [regs] the Secure world comes back, with anything but the response of
    the SPMC: an interrupt, a trap, another call or registers that are no message. *)
Definition no_answer (regs : SmcReturn) (s : St) : Prop :=
  match spm_enter_world env regs Secure s with
  | Ret (RunSmc, regs') s' =>
      match from_regs (spmc_version (get_spmd env s')) (values regs') with
      | Ok msg => psci_response (get_spmd env s') msg = None
      | Err _ => True
      end
  | Ret _ _ | Crash => True
  | Halt _ => False
  end.

(** The same after a switch to the contexts of the Secure world. *)
Definition request_fails (regs : SmcReturn) (s : St) : Prop :=
  ∃ s', spm_switch_world env NonSecure Secure s = Ret tt s' ∧ no_answer regs s'.

(** No panic on a core in phase [p] with state [s]; where one is possible, exactly
    when. *)
Definition phase_safe (me : nat) (p : Phase) (s : St) : Prop :=
  match p with
  | Running NonSecure =>
      (∀ regs, ffa_call regs → spmd_handle_non_secure_smc env me regs s ≠ Crash) ∧
      (∀ regs, spmd_forward_secure_interrupt env me regs s ≠ Crash) ∧
      spmd_notify_cpu_off env me s ≠ Crash ∧
      (∀ f, spmd_forward_psci_request env f s = Crash ↔
         request_fails (power_request (get_spmd env s) (PowerPsciReq64 (copy_to_array f))) s) ∧
      (spmd_notify_cpu_suspend_powerdown_abandoned env me s = Crash ↔
         ∃ regs s', handle_wake_from_cpu_suspend env me s = Ret regs s' ∧ request_fails regs s')
  | Running Secure =>
      ∀ regs, ffa_call regs →
        spmd_handle_secure_smc env me regs s = Crash ↔ spmc_boot_failure me s regs
  | Running Realm => True
  | PoweredOff => handle_wake_from_cpu_off env me s ≠ Crash
  | Asleep => handle_wake_from_cpu_suspend env me s ≠ Crash
  end.

(** The switch of contexts does not panic. *)
Context (Hswitch : ∀ w w' s, spm_switch_world env w w' s ≠ Crash).

Lemma run_spmc_crash regs s : run_spmc env regs s = Crash ↔ no_answer regs s.
Proof.
  unfold run_spmc, no_answer, spmd_self. cbv [mbind M_bind get mret M_ret].
  destruct (spm_enter_world env regs Secure s) as [[[| |esr] regs'] s'| |]; [|done..].
  destruct (from_regs _ _) as [msg|]; [|done]. by destruct (psci_response _ msg).
Qed.

(** Running the Secure world between two switches of contexts. *)
Lemma run_between_crash {A} regs (k : Z → M St A) s :
  (∀ z s', local_kept s s' → k z s' ≠ Crash) →
  (_ ← spm_switch_world env NonSecure Secure; z ← run_spmc env regs; k z) s = Crash ↔ request_fails regs s.
Proof.
  intros Hk. unfold request_fails. cbv [mbind M_bind].
  pose proof (Hswitch NonSecure Secure s) as Hne.
  destruct (spm_switch_world env NonSecure Secure s) as [[] s1| |] eqn:Hs; [|split; [done|naive_solver]|done].
  apply (switch_keeps_spmd Hlaws) in Hs. destruct (run_spmc env regs s1) as [z s2| |] eqn:Hr.
  - split.
    + intros Hc. destruct (Hk z s2); [|done]. apply run_spmc_keeps in Hr. unfold local_kept. congruence.
    + intros (s' & [= <-] & Hn%run_spmc_crash). congruence.
  - split; [done|]. intros (s' & [= <-] & Hn%run_spmc_crash). congruence.
  - apply run_spmc_crash in Hr. split; [by eauto|done].
Qed.

Lemma runs_safe {A} (m : M St A) Q s : runs m Q s → m s ≠ Crash.
Proof. unfold runs. by destruct (m s). Qed.

Lemma wake_returns me s :
  local me s = Some SpmcRuntime →
  ∃ regs s', handle_wake_from_cpu_suspend env me s = Ret regs s' ∧ local me s' = Some SpmcPsciEventHandling.
Proof.
  intros Hl. destruct (switch_state_spec me s _ SpmcPsciEventHandling Hl) as (s' & Hs' & Hm).
  unfold handle_wake_from_cpu_suspend, spmd_self. cbv [mbind M_bind get mret M_ret]. rewrite Hs'.
  eexists _, _. split; [done|]. exact (moved_lookup _ _ _ _ _ Hl Hm).
Qed.

Lemma abandoned_crash me s :
  local me s = Some SpmcRuntime →
  spmd_notify_cpu_suspend_powerdown_abandoned env me s = Crash ↔
    ∃ regs s', handle_wake_from_cpu_suspend env me s = Ret regs s' ∧ request_fails regs s'.
Proof.
  intros Hl. destruct (wake_returns me s Hl) as (regs & s1 & Hs1 & Hl1).
  transitivity (request_fails regs s1); [|split; [eauto|intros (r & s2 & Hs2 & ?); rewrite Hs1 in Hs2; by injection Hs2 as -> ->]].
  unfold spmd_notify_cpu_suspend_powerdown_abandoned. cbv [mbind M_bind]. rewrite Hs1.
  apply (run_between_crash regs). intros z s2 Hk. unfold local in Hl1. rewrite <-Hk in Hl1.
  destruct (switch_state_spec me s2 _ SpmcRuntime Hl1) as (s3 & Hs3 & _).
  cbv [mbind M_bind]. rewrite Hs3. apply Hswitch.
Qed.

Lemma phase_ok_safe me p s st : local me s = Some st → phase_ok p st → phase_safe me p s.
Proof.
  intros Hl Hp. destruct p as [[| |]| |]; simpl in *; subst; try done.
  - intros regs Hc. split; [|apply boot_failure_crashes]. intros Hcr.
    destruct (decide (st = SpmcBoot)) as [->|Hne].
    + destruct (call_message (get_spmd env s) regs) as [msg|] eqn:Hm;
        [destruct (is_boot_error msg) eqn:He|].
      * split; [done|]. eauto.
      * eapply runs_safe in Hcr as []; apply (secure_smc_runs me s _ regs Hl Hp Hc).
        intros (_ & msg' & Hm' & He'). congruence.
      * eapply runs_safe in Hcr as []; apply (secure_smc_runs me s _ regs Hl Hp Hc).
        intros (_ & msg' & Hm' & He'). congruence.
    + eapply runs_safe in Hcr as []; apply (secure_smc_runs me s _ regs Hl Hp Hc).
      intros (Hb & _). congruence.
  - split_and!.
    + intros regs Hc. by eapply runs_safe, non_secure_smc_runs.
    + intros regs. by eapply runs_safe, forward_interrupt_runs.
    + by eapply runs_safe, runs_switch.
    + intros f. apply (run_between_crash (power_request (get_spmd env s) _)).
      intros z s' _. cbv [mbind M_bind]. pose proof (Hswitch Secure NonSecure s') as Hne.
      by destruct (spm_switch_world env Secure NonSecure s').
    + by apply abandoned_crash.
  - by eapply runs_safe, runs_switch.
  - destruct (wake_returns me s Hl) as (regs & s' & Hs' & _). congruence.
Qed.

(** C7: in every state that the cores of the system reach from a cold boot, in
    any order of their steps, the SPMC of a core is idle while the core runs the
    Normal World or sleeps, started while it runs the Secure world and off while
    the core is off.  Hence no call of the Normal World, no secure interrupt, no
    notification that a core goes off and no wake-up of a core panics; a call of the
    Secure world panics exactly when the SPMC reports that it failed to boot; and
    forwarding a PSCI request, or the news that a power down was abandoned, panics
    exactly when the Secure world, entered for it, comes back with anything but the
    response of the SPMC.  The switch of contexts is assumed not to panic. *)
Theorem spmd_lifecycle primary core_count c0 c :
  spmd_boots primary core_count c0 → rtc system_step c0 c →
  ∀ me p, c.1 !! me = Some p →
    ∃ st, local me c.2 = Some st ∧ phase_ok p st ∧ phase_safe me p c.2.
Proof.
  intros Hb Hr me p Hp. assert (Hc : consistent c).
  { apply boots_consistent in Hb. clear Hp. induction Hr; [done|].
    eauto using system_step_consistent. }
  destruct (Forall2_lookup_l _ _ _ _ _ Hc Hp) as (st & Hl & Hok).
  exists st. split; [done|]. split; [done|]. by eapply phase_ok_safe.
Qed.

(** ** What passes from one world to the other *)

(** The endpoint that sends a message and the one it is for, where the message
    names them. *)
Definition sender (msg : Interface) : option Z :=
  match msg with
  | IMsgSendDirectReq src _ _ | IMsgSendDirectReq2 src _ _ | IMsgSendDirectResp src _ _
  | IMsgSendDirectResp2 src _ _ | IMsgSend2 src _ => Some src
  | _ => None
  end.
Definition receiver (msg : Interface) : option Z :=
  match msg with
  | IMsgSendDirectReq _ dst _ | IMsgSendDirectReq2 _ dst _ | IMsgSendDirectResp _ dst _
  | IMsgSendDirectResp2 _ dst _ => Some dst
  | _ => None
  end.

(** Nobody can send in the name of the other world.  A call of the Normal
    World is answered there with an error or an identifier, or reaches the Secure
    world unchanged, from a non-secure and to a secure endpoint where it names
    them; only FFA_VERSION becomes a request of the dispatcher itself.  In the
    other direction a message of the Secure world is unchanged, from a secure to a
    non-secure endpoint, or is the answer to FFA_VERSION that the SPMC sent to the
    dispatcher. *)
Theorem spmd_message_filter msg s :
  (∃ w' msg', handle_non_secure_call env msg s = Ret (w', msg') s ∧
     (w' = NonSecure ∨
      w' = Secure ∧ msg' = msg ∧
        (∀ id, sender msg = Some id → is_secure_id id = false) ∧
        (∀ id, receiver msg = Some id → is_secure_id id = true) ∨
      w' = Secure ∧ ∃ v flags, msg = IVersion v flags ∧
        msg' = IMsgSendDirectReq OWN_ID (spmc_id (get_spmd env s)) (VersionReq v flags))) ∧
  (∃ w' msg', handle_secure_call_runtime env msg s = Ret (true, w', msg') s ∧
     (w' = Secure ∨
      w' = NonSecure ∧ msg' = msg ∧
        (∀ id, sender msg = Some id → is_secure_id id = true) ∧
        (∀ id, receiver msg = Some id → is_secure_id id = false) ∨
      w' = NonSecure ∧ ∃ v,
        msg = IMsgSendDirectResp (spmc_id (get_spmd env s)) OWN_ID (VersionResp v) ∧
        msg' = IVersionOut (from_option VersionIs VersionNotSupported v))).
Proof.
  split.
  - unfold handle_non_secure_call, spmd_self. cbv [mbind M_bind get mret M_ret].
    destruct msg;
      repeat match goal with
      | |- context [is_secure_id ?id] => destruct (is_secure_id id) eqn:?
      end; simpl; do 2 eexists; (split; [done|]); naive_solver.
  - unfold handle_secure_call_runtime, spmd_self. cbv [mbind M_bind get mret M_ret].
    destruct msg; try (do 2 eexists; split; [done|]; naive_solver).
    + destruct (is_secure_id src_id) eqn:Hs; simpl;
        [|do 2 eexists; split; [done|]; naive_solver].
      destruct (Z.eqb_spec dst_id OWN_ID) as [->|Hne]; simpl.
      * destruct args as [|v| | | |]; try (do 2 eexists; split; [done|]; naive_solver).
        destruct (Z.eqb_spec src_id (spmc_id (get_spmd env s))) as [->|];
          (do 2 eexists; split; [done|]); [|naive_solver].
        right. right. split; [done|]. exists v. by destruct v.
      * destruct (is_secure_id dst_id) eqn:Hd; simpl;
          (do 2 eexists; split; [done|]); naive_solver.
    + destruct (is_secure_id src_id) eqn:Hs, (is_secure_id dst_id) eqn:Hd; simpl;
        (do 2 eexists; split; [done|]); naive_solver.
Qed.

(** The calls of the Secure world on core [me] until it leaves for another world.
    Between two calls the other cores may run. *)
Inductive secure_run (me : nat) : St → World → SmcReturn → St → Prop :=
| secure_run_leaves regs w' regs' s s' :
    spmd_handle_secure_smc env me regs s = Ret (w', regs') s' → w' ≠ Secure →
    secure_run me s w' regs' s'
| secure_run_calls regs regs1 s s1 s2 w' regs' s' :
    spmd_handle_secure_smc env me regs s = Ret (Secure, regs1) s1 →
    local me s2 = local me s1 →
    secure_run me s2 w' regs' s' →
    secure_run me s w' regs' s'.

Lemma secure_smc_inv me st regs s w' regs' s' :
  local me s = Some st → st ≠ SpmcOff →
  spmd_handle_secure_smc env me regs s = Ret (w', regs') s' →
  smc_post me s st (w', regs') s'.
Proof.
  intros Hl Hst Hs. assert (Hc : ffa_call regs)
    by (pose proof Hs as (? & ? & _ & Hx)%M_bind_Ret; by eapply ret_ffa_call in Hx).
  assert (Hb : ¬ spmc_boot_failure me s regs)
    by (intros Hb; rewrite (boot_failure_crashes _ _ _ Hb) in Hs; done).
  pose proof (secure_smc_runs me s st regs Hl Hst Hc Hb) as Hr. unfold runs in Hr.
  by rewrite Hs in Hr.
Qed.

(** The SPMC stays in the state of an interrupt until it resumes the Normal World. *)
Lemma secure_smc_interrupt me regs s regs' s' :
  local me s = Some SpmcSecureInterrupt →
  spmd_handle_secure_smc env me regs s = Ret (Secure, regs') s' →
  local me s' = Some SpmcSecureInterrupt.
Proof.
  intros Hl. unfold spmd_handle_secure_smc.
  intros (sp & s1 & Hsp & H1)%M_bind_Ret. injection Hsp as <- <-.
  apply M_bind_Ret in H1 as (r & s2 & Hr & H2).
  assert (s2 = s) as -> by (unfold lift in Hr; destruct (get_smc_regs regs); by simplify_eq).
  destruct (from_regs _ _) as [msg|[e v]]; [|by injection H2 as _ ->].
  apply M_bind_Ret in H2 as (st & s3 & Hst & H3).
  unfold local_state, spmd_self in Hst. cbv [mbind M_bind get mret M_ret lift arr_get] in Hst.
  unfold local in Hl. rewrite Hl in Hst. injection Hst as <- <-.
  apply M_bind_Ret in H3 as ([[h w] m] & s4 & Hm & H4). injection H4 as -> _ ->.
  destruct msg; try by injection Hm as _ _ ->.
  by apply M_bind_Ret in Hm as (? & s5 & _ & [=]).
Qed.

(** C37: a secure interrupt is transparent to the Normal World: whatever the SPMC
    calls while it handles the interrupt, it leaves for the Normal World, which
    finds all of its registers as they were, and the SPMC is idle again. *)
Theorem spmd_interrupt_transparent me regs s s1 r s0 w' regs' s' :
  spmd_forward_secure_interrupt env me regs s = Ret r s1 →
  local me s0 = local me s1 →
  secure_run me s0 w' regs' s' →
  r.1 = Secure ∧ w' = NonSecure ∧ used regs' = 0%nat ∧ local me s' = Some SpmcRuntime.
Proof.
  intros Hf Hl0 Hrun. apply M_bind_Ret in Hf as (? & s2 & [Hl Hm]%switch_state_inv & Hf).
  apply (moved_lookup _ _ _ _ _ Hl) in Hm.
  apply M_bind_Ret in Hf as (sp & s3 & Hsp & Hf). injection Hsp as _ <-.
  injection Hf as <- <-. split; [done|]. rewrite Hm in Hl0. clear Hm Hl s.
  induction Hrun as [regs1 w' regs' s s' Hs Hw|regs1 regs2 s s1 s3 w' regs' s' Hs Hl2 _ IH].
  - destruct (secure_smc_inv _ _ _ _ _ _ _ Hl0 ltac:(done) Hs) as (st' & Hm & Hp & Hw' & Hu).
    destruct w'; [done| |done]. apply (moved_lookup _ _ _ _ _ Hl0) in Hm. simpl in Hp. subst.
    split; [done|]. split; [by apply Hu|done].
  - apply IH. rewrite Hl2. by eapply secure_smc_interrupt.
Qed.
End Props.

(** ** A concrete dispatcher *)

(** Messages without payload, of which three are decoded by their function
    identifier; the response to a PSCI request has its sender in register 1. *)
Definition ffa_types : ArmFfaTypes := {|
  Payload := unit; FfaError := Z; SuccessArgs := Z;
|}.
#[local] Existing Instance ffa_types.

Definition decode (regs : list Z) : result Interface (Z * bool) :=
  match regs with
  | x0 :: x1 :: _ =>
      if x0 =? 0x84000063 then Ok (IVersion (1, 1) (mkVersionFlags Negotiate tt))
      else if x0 =? 0x8400006b then Ok (IMsgWait tt)
      else if x0 =? 0x8400007c then Ok (INormalWorldResume tt)
      else if x0 =? 0x84000070 then Ok (IMsgSendDirectResp x1 OWN_ID (PowerPsciResp 0))
      else Err (-1, false)
  | _ => Err (-1, false)
  end.

#[local] Instance ffa_ops : ArmFfaOps := {|
  from_regs := λ _ regs, decode regs;
  to_regs := λ _ _ regs, regs;
  ffa_not_supported := -1;
  ffa_invalid_parameters := -2;
  ffa_denied := -6;
  interface_error := λ e _, IError e tt;
  success32_noargs := ISuccess (mkTargetInfo 0 0) 0;
  target_info_default := mkTargetInfo 0 0;
  success_args_id_get := λ id, id;
  success_args_spm_id_get := λ id, id;
  is_compatible_to := λ v v', bool_decide (v.1 = v'.1);
  copy_to_array := λ _, [0; 0; 0; 0];
  return_code_try_from := λ z, if z =? 0 then Some (Ok tt) else None;
|}.

Definition ffa_regs (x0 : Z) : SmcReturn := mkSmcReturn 18 (x0 :: replicate 17 0).

Definition ffa_env : SpmdEnv Spmd :=
  mkSpmdEnv id (λ x _, x) (λ _ _, mret (RunSmc, mkSmcReturn 18 (0x84000070 :: 0x8000 :: replicate 16 0))) (λ _ _, mret tt).

Lemma ffa_env_laws : spmd_env_laws ffa_env.
Proof. split; [done|by intros ????? [= <- <-]|by intros ????? [= <- <-]]. Qed.

Definition booted (l : list SpmcState) : Spmd := mkSpmd 0x8000 (1, 3) 0x06000000 0x06000000 l.

(** The primary core boots the SPMC, is interrupted and resumed. *)
Lemma spmd_lifecycle_witness :
  ∃ st, local ffa_env 0 (booted [SpmcRuntime; SpmcOff]) = Some st ∧
    phase_ok (Running NonSecure) st ∧
    phase_safe ffa_env 0 (Running NonSecure) (booted [SpmcRuntime; SpmcOff]).
Proof.
  apply (spmd_lifecycle ffa_env ffa_env_laws (λ _ _ _ H, ltac:(discriminate H)) 0 2
    ([Running Secure; PoweredOff], booted [SpmcBoot; SpmcOff])
    ([Running NonSecure; PoweredOff], booted [SpmcRuntime; SpmcOff])); [done| |done].
  apply rtc_once. exists 0%nat, (Running Secure), (Running NonSecure).
  split; [done|]. split; [|done].
  apply (step_secure_smc _ _ (ffa_regs 0x8400006b) _ (mark_empty (ffa_regs 0x8400006b))).
  vm_compute. reflexivity.
Defined.

Lemma spmd_interrupt_transparent_witness :
  Secure = Secure ∧ NonSecure = NonSecure ∧
  used (mark_empty (ffa_regs 0x8400007c)) = 0%nat ∧
  local ffa_env 0 (booted [SpmcRuntime]) = Some SpmcRuntime.
Proof.
  apply (spmd_interrupt_transparent ffa_env ffa_env_laws 0 (ffa_regs 0)
    (booted [SpmcRuntime]) (booted [SpmcSecureInterrupt]) (Secure, ffa_regs 0)
    (booted [SpmcSecureInterrupt])); [vm_compute; reflexivity|done|].
  apply (secure_run_calls _ _ (ffa_regs 0x8400006b) (mark_used 8 (ffa_regs 0x8400006b)) _
    (booted [SpmcSecureInterrupt]) (booted [SpmcSecureInterrupt])); [vm_compute; reflexivity|done|].
  apply (secure_run_leaves _ _ (ffa_regs 0x8400007c)); [vm_compute; reflexivity|done].
Defined.
