(* ===== verification/EarlyPagetable.v ===== *)
(** * Early page tables

    [src/pagetable/early_pagetable.rs]: the compile-time translation of memory
    regions into ranges of descriptors ([build_ranges], [get_range_count]) and
    the assembly of [define_early_mapping!] that writes the descriptors into
    memory before the MMU is enabled.  Addresses and indices are [Z]: a block
    ends below 2^39 and there are fewer than 2^37 entries, so the arithmetic of
    [build_ranges] does not overflow.  Memory is a function from addresses to
    the 64-bit words stored there. *)

From Stdlib Require Import ZArith Lia.
From stdpp Require Import base list numbers option functions.
From S2P Require Import Prelude Smccc.
Open Scope rust_scope.
Open Scope Z_scope.

(** ** Regions and ranges of descriptors *)

Definition TOP_LEVEL_BLOCK_SIZE : Z := 0x40000000.
Definition TOP_LEVEL_DESCRIPTOR_COUNT : Z := 512.
Definition GRANULE_SIZE : Z := 4096.

Record EarlyRegion : Type := mkEarlyRegion {
  address_range : Z * Z;
  attributes : Z;
}.

Record DescriptorRange : Type := mkDescriptorRange {
  index : Z;
  step_count : Z;
  value : Z;
}.

Definition usize_min (a b : Z) : Z := if a <? b then a else b.
Definition usize_max (a b : Z) : Z := if a >? b then a else b.

Definition overlaps (a b : Z * Z) : bool :=
  usize_max a.1 b.1 <? usize_min a.2 b.2.

(** [range.start <= block.start && block.end <= range.end] *)
Definition covers (range block : Z * Z) : bool :=
  (range.1 <=? block.1) && (block.2 <=? range.2).

(** The block that descriptor [descriptor_index] of a table maps. *)
Definition block_of (block_base_address block_size descriptor_index : Z) : Z * Z :=
  (block_base_address + descriptor_index * block_size,
   block_base_address + (descriptor_index + 1) * block_size).

(** The loop over the regions stops at the first region that covers the block or
    overlaps it. *)
Inductive hit : Type :=
| Covered (region : EarlyRegion)
| Overlapped
| Unmapped.

Fixpoint find_hit (block : Z * Z) (regions : list EarlyRegion) : hit :=
  match regions with
  | [] => Unmapped
  | region :: regions =>
      if covers (address_range region) block then Covered region
      else if overlaps block (address_range region) then Overlapped
      else find_hit block regions
  end.

(** How many further descriptors repeat the one of a covered block. *)
Definition repeat_count (region : EarlyRegion)
    (block : Z * Z) (block_size descriptor_count descriptor_index : Z) : Z :=
  usize_min (((address_range region).2 - block.2) / block_size)
    (descriptor_count - descriptor_index).

(** ** Building the ranges

    The recursion enters a table of the next level at most twice, since blocks of
    a granule are not split: [depth] bounds the levels and [fuel] the
    descriptors that are visited.  Running out of either is a panic, which
    [build_total] excludes. *)
Section build.
Context (regions : list EarlyRegion).

(** The loop over the descriptors of a table, with the call for a table of the
    next level as [build_table]. *)
Definition TableBuilder : Type :=
  list DescriptorRange → nat → Z → Z → Z → Z →
  outcome (list DescriptorRange * (Z * nat)).

Definition block_descriptor
    (region : EarlyRegion) (block : Z * Z)
    (start_entry block_size descriptor_count descriptor_index : Z) : DescriptorRange :=
  let repeat := repeat_count region block block_size descriptor_count descriptor_index in
  let lsb := if GRANULE_SIZE =? block_size then 3 else 1 in
  {| index := (descriptor_index + start_entry) * 8;
     step_count := Z.lor block_size (repeat + 1);
     value := Z.lor (Z.lor block.1 (attributes region)) lsb |}.

Definition table_descriptor
    (start_entry used_entry_count descriptor_index : Z) : DescriptorRange :=
  {| index := (descriptor_index + start_entry) * 8;
     step_count := 0;
     value := Z.lor ((start_entry + used_entry_count) * 8) 3 |}.

Fixpoint build_loop (build_table : TableBuilder) (fuel : nat)
    (ranges : list DescriptorRange) (output_index : nat)
    (start_entry block_base_address block_size descriptor_count : Z)
    (used_entry_count descriptor_index : Z) {struct fuel} :
    outcome (list DescriptorRange * (Z * nat)) :=
  if descriptor_count <=? descriptor_index then
    Done (ranges, (used_entry_count, output_index))
  else
    match fuel with
    | O => Panic
    | S fuel =>
        let block := block_of block_base_address block_size descriptor_index in
        match find_hit block regions with
        | Covered region =>
            let repeat :=
              repeat_count region block block_size descriptor_count descriptor_index in
            ranges ← arr_set ranges output_index
              (block_descriptor region block start_entry block_size
                 descriptor_count descriptor_index);
            build_loop build_table fuel ranges (S output_index) start_entry
              block_base_address block_size descriptor_count used_entry_count
              (descriptor_index + repeat + 1)
        | Overlapped =>
            let next_descriptor_count := GRANULE_SIZE / 8 in
            _ ← assert_ (GRANULE_SIZE <=? block_size / next_descriptor_count);
            ranges ← arr_set ranges output_index
              (table_descriptor start_entry used_entry_count descriptor_index);
            '(ranges, (new_entry_count, new_output_index)) ←
              build_table ranges (S output_index) (start_entry + used_entry_count)
                block.1 (block_size / next_descriptor_count) next_descriptor_count;
            build_loop build_table fuel ranges new_output_index start_entry
              block_base_address block_size descriptor_count
              (used_entry_count + new_entry_count) (descriptor_index + 1)
        | Unmapped =>
            build_loop build_table fuel ranges output_index start_entry
              block_base_address block_size descriptor_count used_entry_count
              (descriptor_index + 1)
        end
    end.

Fixpoint build_ranges_for_table (depth : nat) : TableBuilder :=
  match depth with
  | O => λ _ _ _ _ _ _, Panic
  | S depth =>
      λ ranges output_index start_entry block_base_address block_size descriptor_count,
        build_loop (build_ranges_for_table depth) (Z.to_nat descriptor_count)
          ranges output_index start_entry block_base_address block_size
          descriptor_count (GRANULE_SIZE / 8) 0
  end.

Definition MAX_DEPTH : nat := 3.

(** [build_ranges::<N>] *)
Definition build_ranges (n : nat) : outcome (list DescriptorRange * Z) :=
  '(ranges, (entry_count, _)) ←
    build_ranges_for_table MAX_DEPTH (replicate n (mkDescriptorRange 0 0 0)) 0%nat 0 0
      TOP_LEVEL_BLOCK_SIZE TOP_LEVEL_DESCRIPTOR_COUNT;
  mret (ranges, entry_count * 8).

(** ** Counting the ranges *)
Definition TableCounter : Type := Z → Z → Z → Z → outcome nat.

Fixpoint count_loop (count_table : TableCounter) (fuel : nat)
    (block_base_address block_size descriptor_count granule_size : Z)
    (count : nat) (descriptor_index : Z) {struct fuel} : outcome nat :=
  if descriptor_count <=? descriptor_index then Done count
  else
    match fuel with
    | O => Panic
    | S fuel =>
        let block := block_of block_base_address block_size descriptor_index in
        match find_hit block regions with
        | Covered region =>
            let repeat :=
              repeat_count region block block_size descriptor_count descriptor_index in
            count_loop count_table fuel block_base_address block_size
              descriptor_count granule_size (S count) (descriptor_index + repeat + 1)
        | Overlapped =>
            let next_descriptor_count := granule_size / 8 in
            _ ← assert_ (granule_size <=? block_size / next_descriptor_count);
            n ← count_table block.1 (block_size / next_descriptor_count)
                  next_descriptor_count granule_size;
            count_loop count_table fuel block_base_address block_size
              descriptor_count granule_size (count + (n + 1))%nat (descriptor_index + 1)
        | Unmapped =>
            count_loop count_table fuel block_base_address block_size
              descriptor_count granule_size count (descriptor_index + 1)
        end
    end.

Fixpoint get_range_count_of_table (depth : nat) : TableCounter :=
  match depth with
  | O => λ _ _ _ _, Panic
  | S depth =>
      λ block_base_address block_size descriptor_count granule_size,
        count_loop (get_range_count_of_table depth) (Z.to_nat descriptor_count)
          block_base_address block_size descriptor_count granule_size 0%nat 0
  end.

Definition get_range_count : outcome nat :=
  get_range_count_of_table MAX_DEPTH 0 TOP_LEVEL_BLOCK_SIZE
    TOP_LEVEL_DESCRIPTOR_COUNT GRANULE_SIZE.
End build.

(** The constants of [define_early_mapping!]: the ranges and the size of the
    tables they are extracted to. *)
Definition define_early_mapping (regions : list EarlyRegion) :
    outcome (list DescriptorRange * Z) :=
  n ← get_range_count regions;
  build_ranges regions n.

(** ** Extracting the ranges

    The registers of [init_early_page_tables] are 64 bits wide; [x2] is the
    address of the page tables. *)
Definition Words : Type := Z → Z.

Definition COUNT_MASK : Z := GRANULE_SIZE - 1.

(** The loop at label 2, whose [n] bounds the descriptors of a range. *)
Fixpoint store_blocks (n : nat) (x2 x3 x4 x5 x6 : Z) (mem : Words) : outcome Words :=
  match n with
  | O => Panic
  | S n =>
      let mem := <[as_u64 (x2 + x3) := x5]> mem in
      let x3 := as_u64 (x3 + 8) in
      if x3 =? x6 then Done mem
      else store_blocks n x2 x3 x4 (as_u64 (x5 + x4)) x6 mem
  end.

(** One iteration of the loop at label 1. *)
Definition extract_range (x2 : Z) (mem : Words) (r : DescriptorRange) : outcome Words :=
  let x3 := index r in
  let x4 := step_count r in
  let x5 := value r in
  if x4 =? 0 then Done (<[as_u64 (x2 + x3) := as_u64 (x2 + x5)]> mem)
  else
    let x6 := Z.land x4 COUNT_MASK in
    let x4 := as_u64 (x4 - x6) in
    let x6 := as_u64 (Z.shiftl x6 3) in
    let x6 := as_u64 (x3 + x6) in
    store_blocks (Z.to_nat GRANULE_SIZE) x2 x3 x4 x5 x6 mem.

(** The end of the list is tested after a range has been extracted: without a
    range the loop reads beyond the list and is not defined here. *)
Definition init_early_page_tables (x2 : Z) (ranges : list DescriptorRange)
    (mem : Words) : outcome Words :=
  match ranges with
  | [] => Panic
  | _ => fold_outcome (extract_range x2) mem ranges
  end.

(** The assertion of [statics!] that the tables fit into the stacks of the
    secondary cores. *)
Definition STACK_SIZE : Z := 0x2000.
Definition early_page_tables_fit (core_count early_page_table_size : Z) : bool :=
  early_page_table_size <=? (core_count - 1) * STACK_SIZE.

(** The regions of QEMU, whose attributes are those of [src/pagetable.rs] and the
    paging crate. *)
Definition QEMU_BL31_BASE : Z := 0x0e090000.
Definition QEMU_BL32_BASE : Z := 0x0e100000.
Definition QEMU_DEVICE1_BASE : Z := 0x09000000.
Definition QEMU_DEVICE1_SIZE : Z := 0x00c00000.

Definition qemu_early_regions (MT_MEMORY_EL3 MT_DEVICE : Z) : list EarlyRegion :=
  [ {| address_range := (QEMU_BL31_BASE, QEMU_BL32_BASE);
       attributes := MT_MEMORY_EL3 |};
    {| address_range := (QEMU_DEVICE1_BASE, QEMU_DEVICE1_BASE + QEMU_DEVICE1_SIZE);
       attributes := MT_DEVICE |} ].
