(* ===== verification/EarlyPagetableProofs.v ===== *)
(** * The early page tables map the regions

    The reference for the early page tables: the translation table walk of the
    architecture and the mapping that a list of regions asks for.  [tables] is
    the result of the recursion over the tables as an inductive relation; rule
    induction over it bounds the entries that are written and relates the walk
    to the regions. *)

From Stdlib Require Import ZArith Lia.
From stdpp Require Import base list numbers option functions.
From S2P Require Import Prelude Smccc EarlyPagetable.
Open Scope rust_scope.
Open Scope Z_scope.

(** ** What the tables should map *)

(** Bits 47 to 12 of a descriptor are an address, bits 1 and 0 its type. *)
Definition ADDRESS_MASK : Z := 0xfffffffff000.
Definition ATTRIBUTE_MASK : Z := 0xffff000000000ffc.

Definition in_region (va : Z) (r : EarlyRegion) : bool :=
  ((address_range r).1 <=? va) && (va <? (address_range r).2).

(** Identity mapping with the attributes of the region of the address. *)
Definition mapping_of (regions : list EarlyRegion) (va : Z) : option (Z * Z) :=
  r ← list_find (λ r, in_region va r = true) regions;
  Some (va, Z.land (attributes r.2) ATTRIBUTE_MASK).

(** The walk of a table whose descriptors map blocks of the first size of
    [sizes]: a block or page descriptor gives the output address and the
    attributes, a table descriptor the table of the next size. *)
Fixpoint walk (mem : Words) (sizes : list Z) (table va : Z) : option (Z * Z) :=
  match sizes with
  | [] => None
  | size :: sizes =>
      let d := mem (table + 8 * ((va / size) mod 512)) in
      let leaf := Some (Z.land d ADDRESS_MASK + va mod size, Z.land d ATTRIBUTE_MASK) in
      if Z.land d 3 =? 1 then if size =? GRANULE_SIZE then None else leaf
      else if Z.land d 3 =? 3 then
        if size =? GRANULE_SIZE then leaf
        else walk mem sizes (Z.land d ADDRESS_MASK) va
      else None
  end.

Definition WALK_SIZES : list Z := [2 ^ 30; 2 ^ 21; 2 ^ 12].

(** A region that starts inside a table and not at its first descriptor ends
    before the second block of the table behind it. *)
Definition region_fits (span : Z) (r : EarlyRegion) : bool :=
  let '(s, e) := address_range r in
  (s mod span =? 0) || (e <? (s / span + 1) * span + span / 512).

Definition region_ok (r : EarlyRegion) : bool :=
  let '(s, e) := address_range r in
  let a := attributes r in
  (0 <=? s) && (s <? e) && (e <=? 2 ^ 39) &&
  (s mod GRANULE_SIZE =? 0) && (e mod GRANULE_SIZE =? 0) &&
  region_fits (2 ^ 30) r && region_fits (2 ^ 21) r &&
  (0 <=? a) && (a <? 2 ^ 64) && (Z.land a ADDRESS_MASK =? 0) && (Z.land a 2 =? 0).

Global Instance EarlyRegion_eq_dec : EqDecision EarlyRegion.
Proof. solve_decision. Defined.

Definition disjoint_regions (regions : list EarlyRegion) : bool :=
  forallb (λ r1, forallb (λ r2,
    bool_decide (r1 = r2) || negb (overlaps (address_range r1) (address_range r2)))
    regions) regions.

Definition regions_ok (regions : list EarlyRegion) : bool :=
  negb (bool_decide (regions = [])) && forallb region_ok regions &&
  disjoint_regions regions.

(** ** The result of the recursion *)
Section tables.
Context (regions : list EarlyRegion).

(** [tables start base size used i l used']: from descriptor [i] on, the table
    at entry [start] that maps [base] in blocks of [size] produces the ranges
    [l] and extends the used entries from [used] to [used']. *)
Inductive tables : Z → Z → Z → Z → Z → list DescriptorRange → Z → Prop :=
| tables_end start base size used i :
    512 ≤ i → tables start base size used i [] used
| tables_covered start base size used i r l used' :
    i < 512 →
    find_hit (block_of base size i) regions = Covered r →
    tables start base size used
      (i + repeat_count r (block_of base size i) size 512 i + 1) l used' →
    tables start base size used i
      (block_descriptor r (block_of base size i) start size 512 i :: l) used'
| tables_overlapped start base size used i l1 n l2 used' :
    i < 512 →
    find_hit (block_of base size i) regions = Overlapped →
    GRANULE_SIZE ≤ size / 512 →
    tables (start + used) (block_of base size i).1 (size / 512) 512 0 l1 n →
    tables start base size (used + n) (i + 1) l2 used' →
    tables start base size used i (table_descriptor start used i :: l1 ++ l2) used'
| tables_unmapped start base size used i l used' :
    i < 512 →
    find_hit (block_of base size i) regions = Unmapped →
    tables start base size used (i + 1) l used' →
    tables start base size used i l used'.

(** Writing [l] into an array behind its first entries [init]: the result when the
    rest of the array is long enough, and a panic otherwise. *)
Definition fills (l : list DescriptorRange) (used : Z)
    (build : list DescriptorRange → nat → outcome (list DescriptorRange * (Z * nat))) :=
  ∀ init rest, build (init ++ rest) (length init) =
    if decide (length l ≤ length rest)%nat
    then Done (init ++ l ++ drop (length l) rest, (used, (length init + length l)%nat))
    else Panic.

Lemma arr_set_app (init rest : list DescriptorRange) x :
  arr_set (init ++ rest) (length init) x =
  match rest with [] => Panic | _ :: rest => Done ((init ++ [x]) ++ rest) end.
Proof.
  unfold arr_set. rewrite length_app. destruct rest as [|y rest]; simpl.
  - by rewrite decide_False by lia.
  - rewrite decide_True by lia. rewrite insert_app_r_alt, Nat.sub_diag by lia. simpl.
    by rewrite <-(assoc_L (++)).
Qed.

Lemma fills_nil used : fills [] used (λ ranges o, Done (ranges, (used, o))).
Proof. intros init rest. by rewrite decide_True, Nat.add_0_r by (simpl; lia). Qed.

Lemma fills_cons x l used k :
  fills l used k →
  fills (x :: l) used (λ ranges o, ranges ← arr_set ranges o x; k ranges (S o)).
Proof.
  intros Hk init rest. rewrite arr_set_app. destruct rest as [|y rest]; [done|]. simpl.
  replace (S (length init)) with (length (init ++ [x])) by (rewrite length_app; simpl; lia).
  rewrite Hk. repeat case_decide; simpl in *; try lia; [|done].
  rewrite length_app, <-(assoc_L (++)). simpl. do 3 f_equal. lia.
Qed.

Lemma fills_assert b l used k :
  b = true → fills l used k → fills l used (λ ranges o, _ ← assert_ b; k ranges o).
Proof. by intros ->. Qed.

Lemma fills_app l1 u1 k1 l2 u2 k2 :
  fills l1 u1 k1 →
  fills l2 u2 (k2 u1) →
  fills (l1 ++ l2) u2
    (λ ranges o, '(ranges, (u, o)) ← k1 ranges o; k2 u ranges o).
Proof.
  intros H1 H2 init rest. rewrite H1, length_app. case_decide; simpl.
  - rewrite (assoc_L (++)), <-length_app, H2, length_drop.
    repeat case_decide; try lia; [|done].
    rewrite drop_drop, length_app, <-!(assoc_L (++)). do 3 f_equal. lia.
  - by rewrite decide_False by lia.
Qed.

(** What [count_table] counts, [build_table] builds. *)
Definition counted (count_table : TableCounter) (build_table : TableBuilder) : Prop :=
  ∀ start base size n,
    count_table base size 512 GRANULE_SIZE = Done n →
    ∃ l used, tables start base size 512 0 l used ∧ n = length l ∧
      fills l used (λ ranges o, build_table ranges o start base size 512).

Lemma count_loop_built ct bt (Hct : counted ct bt) fuel start base size used i c n :
  count_loop regions ct fuel base size 512 GRANULE_SIZE c i = Done n →
  ∃ l used', tables start base size used i l used' ∧ n = (c + length l)%nat ∧
    fills l used' (λ ranges o,
      build_loop regions bt fuel ranges o start base size 512 used i).
Proof.
  revert used i c. induction fuel as [|fuel IH]; intros used i c; simpl.
  { destruct (Z.leb_spec 512 i); [|done]. intros [= <-].
    exists [], used. repeat split; [by constructor|simpl; lia|apply fills_nil]. }
  destruct (Z.leb_spec 512 i) as [Hi|Hi].
  { intros [= <-].
    exists [], used. repeat split; [by constructor|simpl; lia|apply fills_nil]. }
  destruct (find_hit _ _) as [r| |] eqn:Hhit; intros Hc.
  - apply (IH used) in Hc as (l & u & Hl & -> & Hf).
    eexists (_ :: l), u. split; [by eapply tables_covered|]. split; [simpl; lia|].
    exact (fills_cons _ _ _ _ Hf).
  - change (GRANULE_SIZE / 8) with 512 in Hc |- *.
    apply outcome_bind_Done in Hc as ([] & Hs & Hc).
    apply outcome_bind_Done in Hc as (m & Hm & Hc).
    apply assert_Done, Z.leb_le in Hs.
    apply (Hct (start + used)) in Hm as (l1 & u1 & Hl1 & -> & Hf1).
    apply (IH (used + u1)) in Hc as (l2 & u2 & Hl2 & -> & Hf2).
    eexists (_ :: l1 ++ l2), u2.
    split; [by eapply tables_overlapped|]. split; [simpl; rewrite length_app; lia|].
    refine (fills_assert _ _ _ _ (proj2 (Z.leb_le _ _) Hs) _).
    refine (fills_cons _ _ _ _ (fills_app _ _ _ _ _ (λ u ranges o,
      build_loop regions bt fuel ranges o start base size 512 (used + u) (i + 1))
      Hf1 Hf2)).
  - apply (IH used) in Hc as (l & u & Hl & -> & Hf).
    exists l, u. split; [by eapply tables_unmapped|]. done.
Qed.

Lemma count_of_table_built depth :
  counted (get_range_count_of_table regions depth) (build_ranges_for_table regions depth).
Proof.
  induction depth as [|depth IH]; intros start base size n; [done|].
  cbn [get_range_count_of_table build_ranges_for_table]. apply (count_loop_built _ _ IH).
Qed.
End tables.

(** ** Regions *)
Lemma overlaps_spec a b :
  overlaps a b = true ↔ Z.max a.1 b.1 < Z.min a.2 b.2.
Proof.
  unfold overlaps, usize_max, usize_min. rewrite Z.ltb_lt.
  destruct (Z.ltb_spec a.2 b.2), (Z.gtb_spec a.1 b.1); lia.
Qed.

Lemma covers_spec r b : covers r b = true ↔ r.1 ≤ b.1 ∧ b.2 ≤ r.2.
Proof. unfold covers. rewrite andb_true_iff, !Z.leb_le. done. Qed.

Lemma find_hit_Covered b regions r :
  find_hit b regions = Covered r →
  r ∈ regions ∧ (address_range r).1 ≤ b.1 ∧ b.2 ≤ (address_range r).2.
Proof.
  induction regions as [|r' regions IH]; simpl; [done|].
  destruct (covers _ _) eqn:Hc.
  - intros [= ->]. apply covers_spec in Hc. split; [apply elem_of_cons; by left|done].
  - destruct (overlaps _ _); [done|]. intros [? ?]%IH. split; [apply elem_of_cons; by right|done].
Qed.

Lemma find_hit_Overlapped b regions :
  find_hit b regions = Overlapped →
  ∃ r, r ∈ regions ∧ covers (address_range r) b = false ∧
       overlaps b (address_range r) = true.
Proof.
  induction regions as [|r' regions IH]; simpl; [done|].
  destruct (covers _ _) eqn:Hc; [done|]. destruct (overlaps _ _) eqn:Ho.
  - intros _. exists r'. split; [apply elem_of_cons; by left|done].
  - intros (r & ? & ?)%IH. exists r. split; [apply elem_of_cons; by right|done].
Qed.

Lemma find_hit_Unmapped b regions r :
  find_hit b regions = Unmapped → r ∈ regions →
  overlaps b (address_range r) = false.
Proof.
  induction regions as [|r' regions IH]; simpl; [by intros _ ?%elem_of_nil|].
  destruct (covers _ _); [done|].
  destruct (overlaps b (address_range r')) eqn:Ho; [done|].
  intros Hf [->|Hr]%elem_of_cons; [done|]. by apply IH.
Qed.

Lemma forallb_elem {A} (f : A → bool) l :
  forallb f l = true ↔ ∀ x, x ∈ l → f x = true.
Proof. rewrite forallb_forall. by setoid_rewrite list_elem_of_In. Qed.

Section regions.
Context (regions : list EarlyRegion).
Context (Hrok : ∀ r, r ∈ regions → region_ok r = true).
Context (Hdisjoint : disjoint_regions regions = true).

Lemma region_bounds r :
  r ∈ regions →
  let '(s, e) := address_range r in
  0 ≤ s < e ∧ e ≤ 2 ^ 39 ∧ s mod 4096 = 0 ∧ e mod 4096 = 0.
Proof.
  intros Hr. specialize (Hrok r Hr). unfold region_ok, GRANULE_SIZE in Hrok.
  destruct (address_range r) as [s e]. rewrite !andb_true_iff, !Z.leb_le, !Z.ltb_lt,
    !Z.eqb_eq in Hrok. naive_solver.
Qed.

Lemma region_attributes r :
  r ∈ regions →
  0 ≤ attributes r < 2 ^ 64 ∧ Z.land (attributes r) ADDRESS_MASK = 0 ∧
  Z.land (attributes r) 2 = 0.
Proof.
  intros Hr. specialize (Hrok r Hr). unfold region_ok in Hrok.
  destruct (address_range r) as [s e]. rewrite !andb_true_iff, !Z.leb_le, !Z.ltb_lt,
    !Z.eqb_eq in Hrok. naive_solver.
Qed.

Lemma region_span r span :
  r ∈ regions → span = 2 ^ 30 ∨ span = 2 ^ 21 →
  (address_range r).1 mod span = 0 ∨
  (address_range r).2 < ((address_range r).1 / span + 1) * span + span / 512.
Proof.
  intros Hr Hs. specialize (Hrok r Hr). unfold region_ok, region_fits in Hrok.
  destruct (address_range r) as [s e]. rewrite !andb_true_iff, !orb_true_iff, !Z.leb_le,
    !Z.ltb_lt, !Z.eqb_eq in Hrok. simpl. destruct Hs as [-> | ->]; naive_solver.
Qed.

Lemma regions_disjoint r1 r2 a :
  r1 ∈ regions → r2 ∈ regions →
  (address_range r1).1 ≤ a < (address_range r1).2 →
  (address_range r2).1 ≤ a < (address_range r2).2 → r1 = r2.
Proof.
  intros H1 H2 ? ?. unfold disjoint_regions in Hdisjoint.
  rewrite forallb_elem in Hdisjoint. specialize (Hdisjoint r1 H1).
  rewrite forallb_elem in Hdisjoint. specialize (Hdisjoint r2 H2).
  rewrite orb_true_iff, bool_decide_eq_true, negb_true_iff in Hdisjoint.
  destruct Hdisjoint as [|Ho]; [done|]. exfalso. rewrite <-not_true_iff_false in Ho.
  apply Ho, overlaps_spec. lia.
Qed.

(** A region that covers an address is the one the mapping finds. *)
Lemma mapping_of_region r va :
  r ∈ regions → (address_range r).1 ≤ va < (address_range r).2 →
  mapping_of regions va = Some (va, Z.land (attributes r) ATTRIBUTE_MASK).
Proof.
  intros Hr Hva. unfold mapping_of.
  assert (Hin : ∀ r', in_region va r' = true ↔
    (address_range r').1 ≤ va < (address_range r').2).
  { intros r'. unfold in_region. rewrite andb_true_iff, Z.leb_le, Z.ltb_lt. done. }
  destruct (list_find _ regions) as [[k r']|] eqn:Hf; simpl.
  - apply list_find_Some in Hf as (Hk & Hr' & _). apply Hin in Hr'.
    by rewrite (regions_disjoint r r' va Hr (list_elem_of_lookup_2 _ _ _ Hk) Hva Hr').
  - apply list_find_None in Hf. rewrite list.Forall_forall in Hf.
    destruct (Hf r Hr). by apply Hin.
Qed.

Lemma mapping_of_none va :
  (∀ r, r ∈ regions → ¬ (address_range r).1 ≤ va < (address_range r).2) →
  mapping_of regions va = None.
Proof.
  intros Hn. unfold mapping_of.
  destruct (list_find _ regions) as [[k r']|] eqn:Hf; simpl; [|done].
  apply list_find_Some in Hf as (Hk & Hr' & _).
  destruct (Hn r' (list_elem_of_lookup_2 _ _ _ Hk)).
  unfold in_region in Hr'. by rewrite andb_true_iff, Z.leb_le, Z.ltb_lt in Hr'.
Qed.
End regions.

(** ** Descriptors *)
Lemma land_address b : 0 ≤ b < 2 ^ 48 → b mod 4096 = 0 → Z.land b ADDRESS_MASK = b.
Proof.
  intros Hb Hm. assert (Hq : b = Z.shiftl (b / 2 ^ 12) 12).
  { rewrite Z.shiftl_mul_pow2 by lia. change (2 ^ 12) with 4096.
    pose proof (Z.div_mod b 4096). lia. }
  rewrite Hq. change ADDRESS_MASK with (Z.shiftl (Z.ones 36) 12).
  rewrite <-Z.shiftl_land, Z.land_ones by lia.
  rewrite Z.mod_small; [done|]. split; [apply Z.div_pos|apply Z.div_lt_upper_bound]; lia.
Qed.

(** The fields of a descriptor for address [b] with attributes and type [a]. *)
Lemma descriptor_fields a b :
  0 ≤ a < 2 ^ 64 → Z.land a ADDRESS_MASK = 0 → 0 ≤ b < 2 ^ 48 → b mod 4096 = 0 →
  Z.lor b a = b + a ∧ 0 ≤ b + a < 2 ^ 64 ∧ Z.land (b + a) 3 = Z.land a 3 ∧
  Z.land (b + a) ADDRESS_MASK = b ∧
  Z.land (b + a) ATTRIBUTE_MASK = Z.land a ATTRIBUTE_MASK.
Proof.
  intros Ha Hm Hb Hb12. pose proof (land_address b Hb Hb12) as Hbm.
  assert (Hd : Z.land b a = 0).
  { by rewrite <-Hbm, <-Z.land_assoc, (Z.land_comm _ a), Hm, Z.land_0_r. }
  assert (Hz : ∀ m, Z.land ADDRESS_MASK m = 0 → Z.land b m = 0).
  { intros m H0. by rewrite <-Hbm, <-Z.land_assoc, H0, Z.land_0_r. }
  pose proof (lor_lt b a 64 ltac:(lia) ltac:(lia) Ha) as Hlt.
  rewrite <-(lor_disjoint _ _ Hd). split; [done|]. split; [done|].
  rewrite !Z.land_lor_distr_l, Hbm, Hm, (Hz 3), (Hz ATTRIBUTE_MASK), Z.lor_0_r by done.
  done.
Qed.

Lemma block_attributes a lsb :
  0 ≤ a < 2 ^ 64 → Z.land a ADDRESS_MASK = 0 → Z.land a 2 = 0 → lsb = 1 ∨ lsb = 3 →
  0 ≤ Z.lor a lsb < 2 ^ 64 ∧ Z.land (Z.lor a lsb) ADDRESS_MASK = 0 ∧
  Z.land (Z.lor a lsb) 3 = lsb ∧
  Z.land (Z.lor a lsb) ATTRIBUTE_MASK = Z.land a ATTRIBUTE_MASK.
Proof.
  intros Ha Hm H2 Hl. split; [apply lor_lt; lia|].
  rewrite !Z.land_lor_distr_l, Hm.
  assert (H3 : Z.land a 3 = 0 ∨ Z.land a 3 = 1).
  { change 3 with (Z.lor 1 2). rewrite Z.land_lor_distr_r, H2, Z.lor_0_r.
    pose proof (Z.land_ones a 1 ltac:(lia)) as H1. change (Z.ones 1) with 1 in H1.
    pose proof (Z.mod_pos_bound a (2 ^ 1)). lia. }
  destruct Hl as [-> | ->]; destruct H3 as [-> | ->]; rewrite ?Z.lor_0_r; done.
Qed.

(** The step and the count of a range of blocks. *)
Lemma step_count_fields size n :
  size = 2 ^ 30 ∨ size = 2 ^ 21 ∨ size = 2 ^ 12 → 0 < n < 4096 →
  Z.land (Z.lor size n) COUNT_MASK = n ∧ Z.lor size n = size + n.
Proof.
  intros Hs Hn. assert (Hn' : Z.land n COUNT_MASK = n).
  { change COUNT_MASK with (Z.ones 12). rewrite Z.land_ones, Z.mod_small by lia. done. }
  assert (Hsm : Z.land size COUNT_MASK = 0) by (destruct Hs as [-> |[-> | ->]]; done).
  rewrite Z.land_lor_distr_l, Hn', Hsm. split; [done|]. apply lor_disjoint.
  rewrite <-Hn', (Z.land_comm n), Z.land_assoc, Hsm. done.
Qed.

(** ** Writes of the extraction *)
Fixpoint block_writes (n : nat) (addr step v : Z) : list (Z * Z) :=
  match n with
  | O => []
  | S n => (addr, v) :: block_writes n (addr + 8) step (v + step)
  end.

Definition writes (x2 : Z) (r : DescriptorRange) : list (Z * Z) :=
  if step_count r =? 0 then [(x2 + index r, x2 + value r)]
  else
    let n := Z.land (step_count r) COUNT_MASK in
    block_writes (Z.to_nat n) (x2 + index r) (step_count r - n) (value r).

Definition apply_writes (ws : list (Z * Z)) (mem : Words) : Words :=
  foldl (λ mem w, <[w.1 := w.2]> mem) mem ws.

Lemma apply_writes_app ws1 ws2 mem :
  apply_writes (ws1 ++ ws2) mem = apply_writes ws2 (apply_writes ws1 mem).
Proof. apply foldl_app. Qed.

Lemma apply_writes_cons w ws mem :
  apply_writes (w :: ws) mem = apply_writes ws (<[w.1 := w.2]> mem).
Proof. done. Qed.

Lemma apply_writes_notin ws mem a :
  (∀ w, w ∈ ws → w.1 ≠ a) → apply_writes ws mem a = mem a.
Proof.
  revert mem. induction ws as [|w ws IH]; intros mem Hw; [done|]. simpl.
  rewrite IH by (intros w' ?; apply Hw; apply elem_of_cons; by right).
  apply fn_lookup_insert_ne, Hw, elem_of_cons. by left.
Qed.

Lemma apply_writes_ext ws mem1 mem2 a :
  mem1 a = mem2 a → apply_writes ws mem1 a = apply_writes ws mem2 a.
Proof.
  revert mem1 mem2. induction ws as [|w ws IH]; intros mem1 mem2 Ha; [done|].
  apply IH. unfold insert, fn_insert. by case_decide.
Qed.

Lemma elem_of_block_writes n addr step v w :
  w ∈ block_writes n addr step v → ∃ k, 0 ≤ k < Z.of_nat n ∧ w.1 = addr + 8 * k.
Proof.
  revert addr v. induction n as [|n IH]; intros addr v; simpl.
  - by intros ?%elem_of_nil.
  - intros [->|(k & Hk & ->)%IH]%elem_of_cons; [exists 0; simpl; lia|].
    exists (k + 1). lia.
Qed.

Lemma apply_block_writes n addr step v mem k :
  0 ≤ k < Z.of_nat n →
  apply_writes (block_writes n addr step v) mem (addr + 8 * k) = v + k * step.
Proof.
  revert addr v mem k. induction n as [|n IH]; intros addr v mem k Hk; [lia|].
  cbn [block_writes]. rewrite apply_writes_cons. cbn [fst snd].
  destruct (decide (k = 0)) as [->|Hne].
  - rewrite apply_writes_notin.
    + replace (addr + 8 * 0) with addr by lia. etrans; [apply fn_lookup_insert|lia].
    + intros w (j & ? & ->)%elem_of_block_writes. lia.
  - replace (addr + 8 * k) with ((addr + 8) + 8 * (k - 1)) by lia.
    rewrite IH by lia. lia.
Qed.

Lemma store_blocks_writes n f x2 x3 x4 x5 mem :
  (n < f)%nat → 0 ≤ x2 → 0 ≤ x3 → 0 ≤ x4 → 0 ≤ x5 →
  x2 + x3 + 8 * Z.of_nat (S n) < 2 ^ 64 → x5 + Z.of_nat (S n) * x4 < 2 ^ 64 →
  store_blocks f x2 x3 x4 x5 (x3 + 8 * Z.of_nat (S n)) mem =
  Done (apply_writes (block_writes (S n) (x2 + x3) x4 x5) mem).
Proof.
  revert n x3 x5 mem. induction f as [|f IH]; intros n x3 x5 mem; [lia|].
  intros. cbn [store_blocks]. unfold as_u64. rewrite !Z.mod_small by nia.
  destruct n as [|n].
  - replace (x3 + 8 =? x3 + 8 * Z.of_nat 1) with true by (symmetry; apply Z.eqb_eq; lia).
    done.
  - destruct (Z.eqb_spec (x3 + 8) (x3 + 8 * Z.of_nat (S (S n)))) as [|_]; [lia|].
    replace (x3 + 8 * Z.of_nat (S (S n))) with (x3 + 8 + 8 * Z.of_nat (S n)) by lia.
    rewrite IH by nia. cbn [block_writes]. by rewrite (Z.add_assoc x2 x3 8).
Qed.

(** ** The tables of a list of regions *)
Definition level (size : Z) : Prop := size = 2 ^ 30 ∨ size = 2 ^ 21 ∨ size = 2 ^ 12.

Section mapping.
Context (regions : list EarlyRegion).
Context (Hrok : ∀ r, r ∈ regions → region_ok r = true).
Context (Hdisjoint : disjoint_regions regions = true).

(** No region that reaches into a table extends by a block beyond its end. *)
Record table_ok (base size : Z) : Prop := {
  table_level : level size;
  table_base : 0 ≤ base;
  table_aligned : base mod (512 * size) = 0;
  table_end : base + 512 * size ≤ 2 ^ 39;
  table_contained r :
    r ∈ regions → (address_range r).1 < base + 512 * size →
    base < (address_range r).2 → (address_range r).2 < base + 513 * size;
}.

Lemma table_ok_top : table_ok 0 (2 ^ 30).
Proof.
  split; [by left|lia|done|lia|]. intros r Hr _ _.
  pose proof (region_bounds regions Hrok r Hr). destruct (address_range r). simpl. lia.
Qed.

Lemma table_ok_sub base size i :
  table_ok base size → 0 ≤ i < 512 → GRANULE_SIZE ≤ size / 512 →
  find_hit (block_of base size i) regions = Overlapped →
  table_ok (base + i * size) (size / 512).
Proof.
  intros [Hl Hb Ha He _] Hi Hg (r0 & Hr0 & Hc0 & Ho0)%find_hit_Overlapped.
  assert (Hs : level (size / 512) ∧ size = 512 * (size / 512) ∧
    (size = 2 ^ 30 ∨ size = 2 ^ 21)).
  { destruct Hl as [-> |[-> | ->]]; [..|done];
      (split; [unfold level; vm_compute; tauto|split; [done|tauto]]). }
  destruct Hs as (Hl' & Hss & Hspan).
  split; [done|nia| |nia|].
  { rewrite <-Hss. rewrite Z.mod_add by (destruct Hspan; lia).
    apply Z.mod_divide; [destruct Hspan; lia|]. apply Z.mod_divide in Ha; [|destruct Hspan; lia].
    destruct Ha as [q ->]. exists (q * 512). lia. }
  intros r Hr H1 H2. rewrite <-Hss in H1. set (b := base + i * size) in *.
  rewrite <-not_true_iff_false, covers_spec in Hc0. apply overlaps_spec in Ho0.
  unfold block_of in *. simpl in Hc0, Ho0.
  replace (base + (i + 1) * size) with (b + size) in * by lia. fold b in Hc0, Ho0.
  assert (Hnc : ¬ ((address_range r).1 ≤ b ∧ b + size ≤ (address_range r).2)).
  { intros Hc. assert (r = r0) as ->; [|done].
    apply (regions_disjoint regions Hdisjoint _ _ (Z.max b (address_range r0).1));
      [done..|lia|lia]. }
  destruct (decide ((address_range r).2 < b + size)) as [|Hge]; [lia|].
  assert (Hq : ∃ q, b = q * size).
  { apply Z.mod_divide in Ha as [q Hq]; [|destruct Hspan; lia].
    exists (q * 512 + i). subst b. rewrite Hq. lia. }
  destruct Hq as [q Hq]. pose proof (region_bounds regions Hrok r Hr) as Hrb.
  destruct (region_span regions Hrok r size Hr Hspan) as [Hm|Hlt];
    destruct (address_range r) as [s e]; simpl in *.
  - exfalso. apply Z.mod_divide in Hm as [q' Hq']; [|destruct Hspan; lia].
    destruct Hspan as [-> | ->]; lia.
  - replace (s / size) with q in Hlt; [lia|]. apply (Z.div_unique _ _ _ (s - b)); lia.
Qed.

Lemma repeat_bounds base size i r :
  table_ok base size → 0 ≤ i < 512 →
  find_hit (block_of base size i) regions = Covered r →
  let n := repeat_count r (block_of base size i) size 512 i in
  r ∈ regions ∧ 0 ≤ n ∧ i + n < 512 ∧ (address_range r).1 ≤ base + i * size ∧
  base + (i + n + 1) * size ≤ (address_range r).2.
Proof.
  intros [Hl Hb Ha He Hc] Hi (Hr & H1 & H2)%find_hit_Covered.
  assert (Hs : 0 < size) by (destruct Hl as [-> |[-> | ->]]; lia).
  unfold block_of in *. simpl in H1, H2.
  specialize (Hc r Hr ltac:(nia) ltac:(nia)).
  unfold repeat_count, usize_min. simpl.
  set (q := ((address_range r).2 - (base + (i + 1) * size)) / size).
  assert (0 ≤ q) by (apply Z.div_pos; lia).
  assert (q < 512 - i) by (apply Z.div_lt_upper_bound; nia).
  assert (size * q ≤ (address_range r).2 - (base + (i + 1) * size))
    by (apply Z.mul_div_le; lia).
  destruct (Z.ltb_spec q (512 - i)); [|lia]. split; [done|]. repeat split; lia.
Qed.

(** ** Sane ranges *)

(** A range of [n] entries from entry [s] on, all of them inside, whose values
    are 64-bit words. *)
Definition sane (inside : Z → Prop) (top : Z) (r : DescriptorRange) : Prop :=
  ∃ s n, index r = 8 * s ∧ 0 ≤ s ∧ 1 ≤ n ≤ 512 ∧ (∀ e, s ≤ e < s + n → inside e) ∧
    ((step_count r = 0 ∧ n = 1 ∧ 0 ≤ value r < 8 * top) ∨
     (step_count r ≠ 0 ∧ Z.land (step_count r) COUNT_MASK = n ∧
      0 ≤ step_count r - n ∧ 0 ≤ value r ∧
      value r + n * (step_count r - n) < 2 ^ 64)).

Definition own (start used i used' e : Z) : Prop :=
  start + i ≤ e < start + 512 ∨ start + used ≤ e < start + used'.

Lemma sane_weaken (I1 I2 : Z → Prop) t1 t2 r :
  (∀ e, I1 e → I2 e) → t1 ≤ t2 → sane I1 t1 r → sane I2 t2 r.
Proof.
  intros HI Ht (s & n & H1 & H2 & H3 & H4 & H5). exists s, n.
  do 3 (split; [done|]). split; [eauto|]. destruct H5 as [H5|H5]; [left|right]; lia.
Qed.

Lemma block_descriptor_fields base size i start r :
  table_ok base size → 0 ≤ i < 512 →
  find_hit (block_of base size i) regions = Covered r →
  let n := repeat_count r (block_of base size i) size 512 i in
  let d := block_descriptor r (block_of base size i) start size 512 i in
  ∃ a, value d = base + i * size + a ∧ step_count d = size + (n + 1) ∧
    Z.land (step_count d) COUNT_MASK = n + 1 ∧
    ∀ k, i ≤ k ≤ i + n + 1 →
      0 ≤ base + k * size + a < 2 ^ 64 ∧
      Z.land (base + k * size + a) 3 = (if GRANULE_SIZE =? size then 3 else 1) ∧
      Z.land (base + k * size + a) ADDRESS_MASK = base + k * size ∧
      Z.land (base + k * size + a) ATTRIBUTE_MASK = Z.land (attributes r) ATTRIBUTE_MASK.
Proof.
  intros Hok Hi Hf. pose proof (repeat_bounds _ _ _ _ Hok Hi Hf) as (Hr & Hn & Hin & _ & _).
  simpl. set (n := repeat_count _ _ _ _ _) in *. destruct Hok as [Hl Hb Ha He _].
  destruct (region_attributes regions Hrok r Hr) as (Hattr & Hm & H2).
  set (lsb := if GRANULE_SIZE =? size then 3 else 1).
  assert (Hlsb : lsb = 1 ∨ lsb = 3) by (unfold lsb; case_match; tauto).
  destruct (block_attributes _ _ Hattr Hm H2 Hlsb) as (A1 & A2 & A3 & A4).
  assert (Hb12 : ∀ k, 0 ≤ k ≤ 512 → 0 ≤ base + k * size < 2 ^ 48 ∧
    (base + k * size) mod 4096 = 0).
  { intros k Hk. split; [destruct Hl as [-> |[-> | ->]]; lia|]. apply Z.mod_divide in Ha as [q ->];
      [|destruct Hl as [-> |[-> | ->]]; lia].
    apply Z.mod_divide; [lia|]. destruct Hl as [-> |[-> | ->]];
      [exists (q * 2 ^ 27 + k * 2 ^ 18)|exists (q * 2 ^ 18 + k * 2 ^ 9)|
       exists (q * 512 + k)]; lia. }
  exists (Z.lor (attributes r) lsb).
  destruct (step_count_fields size (n + 1)) as [S1 S2]; [done|lia|].
  split; [|split; [done|split; [done|]]].
  - simpl. rewrite <-Z.lor_assoc. destruct (Hb12 i) as [B1 B2]; [lia|].
    by apply descriptor_fields.
  - intros k Hk. destruct (Hb12 k) as [B1 B2]; [lia|].
    destruct (descriptor_fields _ _ A1 A2 B1 B2) as (_ & ? & F3 & F4 & F5).
    rewrite F3, A3, F4, F5, A4. done.
Qed.
End mapping.
