(* ===== verification/EarlyPagetableProps.v ===== *)
(** * Properties of the early page tables

    The extraction writes the descriptors of the tables and nothing else; the
    walk of the extracted tables is the identity mapping of the regions; the
    count and the construction of the ranges agree; and an input on which a
    descriptor is written behind its table. *)

From Stdlib Require Import ZArith Lia.
From stdpp Require Import base list numbers option functions.
From S2P Require Import Prelude Smccc EarlyPagetable EarlyPagetableProofs.
Open Scope rust_scope.
Open Scope Z_scope.

Definition all_writes (x2 : Z) (l : list DescriptorRange) : list (Z * Z) :=
  l ≫= writes x2.

Lemma all_writes_cons x2 r l : all_writes x2 (r :: l) = writes x2 r ++ all_writes x2 l.
Proof. done. Qed.

Lemma all_writes_app x2 l1 l2 :
  all_writes x2 (l1 ++ l2) = all_writes x2 l1 ++ all_writes x2 l2.
Proof. unfold all_writes. apply bind_app. Qed.

Lemma elem_of_writes (I : Z → Prop) top x2 r w :
  sane I top r → w ∈ writes x2 r → ∃ e, w.1 = x2 + 8 * e ∧ I e.
Proof.
  intros (s & n & Hi & Hs & Hn & HI & Hv) Hw. unfold writes in Hw.
  destruct Hv as [(H0 & -> & _)|(H0 & Hc & _)].
  - rewrite H0 in Hw. apply list_elem_of_singleton in Hw as ->. exists s.
    split; [simpl; lia|]. apply HI. lia.
  - rewrite (proj2 (Z.eqb_neq _ _) H0), Hc in Hw.
    apply elem_of_block_writes in Hw as (k & Hk & ->). exists (s + k).
    split; [lia|]. apply HI. lia.
Qed.

Lemma elem_of_all_writes (I : Z → Prop) top x2 l w :
  Forall (sane I top) l → w ∈ all_writes x2 l → ∃ e, w.1 = x2 + 8 * e ∧ I e.
Proof.
  intros Hl. unfold all_writes. rewrite list_elem_of_bind. intros (r & Hw & Hr).
  rewrite list.Forall_forall in Hl. by eapply elem_of_writes; [apply Hl|].
Qed.

(** Entries that are not those of [l] keep their word. *)
Lemma all_writes_outside (I : Z → Prop) top x2 l mem a :
  Forall (sane I top) l → (∀ e, I e → a ≠ x2 + 8 * e) →
  apply_writes (all_writes x2 l) mem a = mem a.
Proof.
  intros Hl Ha. apply apply_writes_notin. intros w Hw.
  destruct (elem_of_all_writes I top x2 l w Hl Hw) as (e & -> & He).
  by apply not_eq_sym, Ha.
Qed.

(** ** The extraction performs the writes *)
Lemma extract_range_writes (I : Z → Prop) top x2 mem r :
  sane I top r → (∀ e, I e → e < top) → 0 ≤ x2 → x2 + 8 * top ≤ 2 ^ 48 →
  extract_range x2 mem r = Done (apply_writes (writes x2 r) mem).
Proof.
  intros (s & n & Hi & Hs & Hn & HI & Hv) Htop Hx2 Hx.
  assert (Hlast : s + n ≤ top) by (specialize (Htop (s + n - 1) ltac:(apply HI; lia)); lia).
  unfold extract_range, writes. rewrite Hi.
  destruct Hv as [(H0 & -> & Hval)|(H0 & Hc & Hst & Hv0 & Hval)].
  - rewrite H0. simpl. unfold as_u64. by rewrite !Z.mod_small by lia.
  - rewrite (proj2 (Z.eqb_neq _ _) H0), Hc. cbv zeta.
    rewrite Z.shiftl_mul_pow2 by lia. change (2 ^ 3) with 8.
    assert (Hst64 : step_count r - n < 2 ^ 64) by nia.
    unfold as_u64.
    rewrite (Z.mod_small (n * 8)), (Z.mod_small (8 * s + n * 8)),
      (Z.mod_small (step_count r - n)) by lia.
    replace n with (Z.of_nat (S (Z.to_nat (n - 1)))) in * by lia.
    rewrite Nat2Z.id, (Z.mul_comm _ 8).
    apply (store_blocks_writes (Z.to_nat (n - 1))); try lia.
    change (Z.to_nat GRANULE_SIZE) with (Z.to_nat 4096). lia.
Qed.

Lemma fold_extract_writes (I : Z → Prop) top x2 l mem :
  Forall (sane I top) l → (∀ e, I e → e < top) → 0 ≤ x2 → x2 + 8 * top ≤ 2 ^ 48 →
  fold_outcome (extract_range x2) mem l = Done (apply_writes (all_writes x2 l) mem).
Proof.
  intros Hl Htop Hx2 Hx. revert mem. induction Hl as [|r l Hr Hl IH]; intros mem; [done|].
  cbn [fold_outcome]. rewrite (extract_range_writes I top) by done. cbn [mbind outcome_bind].
  rewrite IH, all_writes_cons, apply_writes_app. done.
Qed.

(** ** Walking a table *)
Definition sizes_from (size : Z) : list Z :=
  if size =? 2 ^ 30 then WALK_SIZES
  else if size =? 2 ^ 21 then [2 ^ 21; 2 ^ 12] else [2 ^ 12].

Lemma walk_step mem size table va :
  level size →
  walk mem (sizes_from size) table va =
  let d := mem (table + 8 * ((va / size) mod 512)) in
  let leaf := Some (Z.land d ADDRESS_MASK + va mod size, Z.land d ATTRIBUTE_MASK) in
  if Z.land d 3 =? 1 then if size =? GRANULE_SIZE then None else leaf
  else if Z.land d 3 =? 3 then
    if size =? GRANULE_SIZE then leaf
    else walk mem (sizes_from (size / 512)) (Z.land d ADDRESS_MASK) va
  else None.
Proof. intros [-> |[-> | ->]]; done. Qed.

(** The descriptor of an address in a table. *)
Lemma entry_index base size k va :
  0 < size → base mod (512 * size) = 0 → 0 ≤ k < 512 →
  base + k * size ≤ va < base + (k + 1) * size →
  (va / size) mod 512 = k ∧ va mod size = va - (base + k * size).
Proof.
  intros Hs Ha Hk Hva. apply Z.mod_divide in Ha as [q Hq]; [|lia].
  assert (Hd : va / size = 512 * q + k).
  { symmetry. apply (Z.div_unique _ _ _ (va - (base + k * size))); lia. }
  split.
  - rewrite Hd. symmetry. apply (Z.mod_unique _ _ q); lia.
  - rewrite Z.mod_eq, Hd by lia. lia.
Qed.

Section mapping.
Context (regions : list EarlyRegion).
Context (Hrok : ∀ r, r ∈ regions → region_ok r = true).
Context (Hdisjoint : disjoint_regions regions = true).

Lemma block_descriptor_sane base size i start used used' r :
  table_ok regions base size → 0 ≤ i < 512 → 0 ≤ start →
  find_hit (block_of base size i) regions = Covered r →
  let d := block_descriptor r (block_of base size i) start size 512 i in
  sane (own start used i used') (start + used') d.
Proof.
  intros Hok Hi Hs Hf d.
  destruct (repeat_bounds regions _ _ _ _ Hok Hi Hf) as (_ & Hn & Hin & _).
  destruct (block_descriptor_fields regions Hrok base size i start r Hok Hi Hf)
    as (a & Hv & Hsc & Hc & Hk). fold d in Hv, Hsc, Hc.
  set (n := repeat_count _ _ _ _ _) in *.
  assert (Hsize : 0 < size) by (destruct Hok as [[-> |[-> | ->]] _ _ _ _]; lia).
  destruct (Hk i) as [Hi0 _]; [lia|]. destruct (Hk (i + n + 1)) as [Hi1 _]; [lia|].
  exists (start + i), (n + 1). split; [simpl; lia|]. split; [lia|]. split; [lia|].
  split; [intros e He; left; lia|]. right.
  rewrite Hc, Hsc, Hv. repeat split; lia.
Qed.

(** The entries of the tables are written once each, in tables of their own. *)
Lemma tables_sane start base size used i l used' :
  tables regions start base size used i l used' →
  table_ok regions base size → 0 ≤ i → 0 ≤ start → start mod 512 = 0 →
  512 ≤ used → used mod 512 = 0 →
  used ≤ used' ∧ used' mod 512 = 0 ∧
  Forall (sane (own start used i used') (start + used')) l.
Proof.
  induction 1 as [start base size used i Hi
    |start base size used i r l used' Hi Hf _ IH
    |start base size used i l1 n l2 used' Hi Hf Hg _ IH1 _ IH2
    |start base size used i l used' Hi Hf _ IH];
    intros Hok Hi0 Hs Hs512 Hu Hu512.
  - split; [lia|]. split; [done|constructor].
  - destruct (repeat_bounds regions _ _ _ _ Hok (conj Hi0 Hi) Hf) as (_ & Hn & Hin & _).
    destruct IH as (? & ? & Hl); [done|lia|done..|]. split; [done|]. split; [done|].
    constructor; [by apply block_descriptor_sane|].
    eapply Forall_impl; [|done]. intros d. apply sane_weaken; [|lia].
    unfold own. lia.
  - destruct IH1 as (Hn & Hn512 & Hl1);
      [by apply table_ok_sub|lia|lia| |lia|done|].
    { rewrite Z.add_mod, Hs512, Hu512 by lia. done. }
    destruct IH2 as (Hu' & Hu'512 & Hl2); [done|lia|lia|done|lia| |].
    { rewrite Z.add_mod, Hu512, Hn512 by lia. done. }
    split; [lia|]. split; [done|]. constructor.
    + exists (start + i), 1. split; [simpl; lia|]. split; [lia|]. split; [lia|].
      split; [intros e He; left; lia|]. left. split; [done|]. split; [done|].
      simpl. rewrite Z.lor_comm. change 3 with (Z.ones 2).
      assert (He : ∃ q, (start + used) * 8 = q * 2 ^ 2)
        by (exists ((start + used) * 2); lia). destruct He as [q He].
      rewrite He, Z.lor_comm, lor_disjoint.
      * change (Z.ones 2) with 3. lia.
      * by rewrite Z.land_ones, Z.mod_mul by lia.
    + apply Forall_app. split; (eapply Forall_impl; [|done]);
        intros d; (apply sane_weaken; [|lia]); unfold own; lia.
  - destruct IH as (? & ? & Hl); [done|lia|done..|]. split; [done|]. split; [done|].
    eapply Forall_impl; [|done]. intros d. apply sane_weaken; [|lia]. unfold own. lia.
Qed.

Lemma level_pos size : level size → 0 < size.
Proof. intros [-> |[-> | ->]]; lia. Qed.

(** The words that a table of [tables] consists of. *)
Definition holds (x2 : Z) (l : list DescriptorRange) (own : Z → Prop) (mem : Words) : Prop :=
  ∀ e, own e → mem (x2 + 8 * e) = apply_writes (all_writes x2 l) (λ _, 0) (x2 + 8 * e).

(** An address in a block that region [r] covers. *)
Lemma walk_covered mem table base size i k r va :
  table_ok regions base size → 0 ≤ i < 512 →
  find_hit (block_of base size i) regions = Covered r →
  let n := repeat_count r (block_of base size i) size 512 i in
  let d := block_descriptor r (block_of base size i) 0 size 512 i in
  i ≤ k ≤ i + n →
  mem (table + 8 * k) = value d + (k - i) * size →
  base + k * size ≤ va < base + (k + 1) * size →
  walk mem (sizes_from size) table va = mapping_of regions va.
Proof.
  intros Hok Hi Hf n d Hk Hmem Hva.
  destruct (repeat_bounds regions _ _ _ _ Hok Hi Hf) as (Hr & Hn & Hin & Hr1 & Hr2).
  fold n in Hn, Hin, Hr2.
  destruct (block_descriptor_fields regions Hrok base size i 0 r Hok Hi Hf)
    as (a & Hv & _ & _ & Hfields). fold d n in Hv, Hfields.
  destruct (Hfields k) as (_ & F3 & Fa & Ft); [lia|].
  destruct Hok as [Hl _ Ha _ _]. pose proof (level_pos _ Hl) as Hsize.
  destruct (entry_index base size k va Hsize Ha) as [Hidx Hmod]; [lia|done|].
  rewrite walk_step by done. cbv zeta. rewrite Hidx, Hmem, Hv, Hmod.
  replace (base + i * size + a + (k - i) * size) with (base + k * size + a) by lia.
  rewrite F3, Fa, Ft, (Z.eqb_sym size).
  rewrite (mapping_of_region regions Hdisjoint r) by (done || nia).
  replace (base + k * size + (va - (base + k * size))) with va by lia.
  by destruct (GRANULE_SIZE =? size).
Qed.

(** An address in a block that has a table of its own. *)
Lemma walk_overlapped mem x2 start used base size i va :
  table_ok regions base size → 0 ≤ i < 512 → GRANULE_SIZE ≤ size / 512 →
  0 ≤ x2 → x2 mod 4096 = 0 → 0 ≤ start → start mod 512 = 0 → 512 ≤ used →
  used mod 512 = 0 → x2 + 8 * (start + used) < 2 ^ 48 →
  mem (x2 + 8 * (start + i)) = x2 + value (table_descriptor start used i) →
  base + i * size ≤ va < base + (i + 1) * size →
  walk mem (sizes_from size) (x2 + 8 * start) va =
  walk mem (sizes_from (size / 512)) (x2 + 8 * (start + used)) va.
Proof.
  intros [Hl _ Ha _ _] Hi Hg Hx2 Hx Hs Hs512 Hu Hu512 Hlt Hmem Hva.
  destruct (entry_index base size i va (level_pos _ Hl) Ha Hi Hva) as [Hidx _].
  assert (Hne : (size =? GRANULE_SIZE) = false).
  { apply Z.eqb_neq. intros ->. done. }
  set (t := x2 + 8 * (start + used)) in *.
  assert (Ht : t mod 4096 = 0).
  { apply Z.mod_divide in Hx as [p Hp], Hs512 as [q Hq], Hu512 as [o Ho]; [|lia..].
    apply Z.mod_divide; [lia|]. exists (p + q + o). lia. }
  assert (Hval : x2 + value (table_descriptor start used i) = t + 3).
  { simpl. apply Z.mod_divide in Hs512 as [q Hq], Hu512 as [o Ho]; [|lia..].
    rewrite lor_disjoint; [lia|]. change 3 with (Z.ones 2).
    rewrite Z.land_ones by lia. apply Z.mod_divide; [lia|].
    exists ((q + o) * 1024). lia. }
  destruct (descriptor_fields 3 t) as (_ & _ & F3 & Fa & _); [lia|done|lia|done|].
  rewrite walk_step by done. cbv zeta.
  replace (x2 + 8 * start + 8 * ((va / size) mod 512)) with (x2 + 8 * (start + i)) by lia.
  rewrite Hmem, Hval, F3, Fa, Hne. done.
Qed.

(** An address in a block without a descriptor. *)
Lemma walk_unmapped mem table base size i va :
  table_ok regions base size → 0 ≤ i < 512 →
  find_hit (block_of base size i) regions = Unmapped →
  mem (table + 8 * i) = 0 →
  base + i * size ≤ va < base + (i + 1) * size →
  walk mem (sizes_from size) table va = mapping_of regions va.
Proof.
  intros [Hl _ Ha _ _] Hi Hf Hmem Hva.
  destruct (entry_index base size i va (level_pos _ Hl) Ha Hi Hva) as [Hidx _].
  rewrite walk_step by done. cbv zeta. rewrite Hidx, Hmem. simpl.
  symmetry. apply mapping_of_none. intros r Hr Hin.
  pose proof (find_hit_Unmapped _ _ r Hf Hr) as Ho. rewrite <-not_true_iff_false in Ho.
  apply Ho, overlaps_spec. simpl. lia.
Qed.

(** Writes elsewhere do not change what a part of the tables holds. *)
Lemma holds_tail x2 ws l l' (I1 I2 : Z → Prop) mem :
  holds x2 l' I1 mem →
  all_writes x2 l' = ws ++ all_writes x2 l →
  (∀ w e, w ∈ ws → I2 e → w.1 ≠ x2 + 8 * e) →
  (∀ e, I2 e → I1 e) →
  holds x2 l I2 mem.
Proof.
  intros Hh Hw Hd HI e He. rewrite Hh, Hw, apply_writes_app by auto.
  apply apply_writes_ext, apply_writes_notin. eauto.
Qed.

Lemma holds_head x2 ws l l' (I1 I2 : Z → Prop) top mem e :
  holds x2 l' I1 mem →
  all_writes x2 l' = ws ++ all_writes x2 l →
  Forall (sane I2 top) l → I1 e → ¬ I2 e →
  mem (x2 + 8 * e) = apply_writes ws (λ _, 0) (x2 + 8 * e).
Proof.
  intros Hh Hw Hl H1 H2. rewrite Hh, Hw, apply_writes_app by done.
  apply (all_writes_outside I2 top); [done|]. intros e' He' Heq.
  assert (e = e') as -> by lia. done.
Qed.

(** What a table holds from a covered block on. *)
Lemma holds_covered x2 mem start base size used i r l used' :
  table_ok regions base size → 0 ≤ i < 512 → 0 ≤ start → 512 ≤ used →
  find_hit (block_of base size i) regions = Covered r →
  let n := repeat_count r (block_of base size i) size 512 i in
  let d := block_descriptor r (block_of base size i) start size 512 i in
  Forall (sane (own start used (i + n + 1) used') (start + used')) l →
  holds x2 (d :: l) (own start used i used') mem →
  (∀ k, i ≤ k ≤ i + n → mem (x2 + 8 * (start + k)) = value d + (k - i) * size) ∧
  holds x2 l (own start used (i + n + 1) used') mem.
Proof.
  intros Hok Hi Hs Hu Hf n d Hsane Hmem.
  destruct (repeat_bounds regions _ _ _ _ Hok Hi Hf) as (_ & Hn & Hin & _). fold n in Hn, Hin.
  destruct (block_descriptor_fields regions Hrok base size i start r Hok Hi Hf)
    as (a & _ & Hsc & Hc & _). fold d n in Hsc, Hc.
  pose proof (level_pos _ (table_level _ _ _ Hok)) as Hsize.
  assert (Hwd : writes x2 d =
    block_writes (Z.to_nat (n + 1)) (x2 + 8 * (start + i)) size (value d)).
  { unfold writes. rewrite Hc, Hsc, (proj2 (Z.eqb_neq _ _)) by lia.
    f_equal; [simpl; lia|lia]. }
  split.
  - intros k Hk.
    rewrite (holds_head x2 _ l _ _ _ _ _ _ Hmem (all_writes_cons _ _ _) Hsane);
      [|unfold own; lia..].
    rewrite Hwd.
    replace (x2 + 8 * (start + k)) with (x2 + 8 * (start + i) + 8 * (k - i)) by lia.
    by rewrite apply_block_writes by lia.
  - apply (holds_tail x2 _ l _ _ _ _ Hmem (all_writes_cons _ _ _)); [|unfold own; lia].
    rewrite Hwd. intros w e (k & Hk & ->)%elem_of_block_writes. unfold own. lia.
Qed.

(** What a table holds from a block with a table of its own on. *)
Lemma holds_overlapped x2 mem start used i l1 n l2 used' :
  let d := table_descriptor start used i in
  0 ≤ i < 512 → 512 ≤ used → 512 ≤ n → used + n ≤ used' →
  Forall (sane (own (start + used) 512 0 n) (start + used + n)) l1 →
  Forall (sane (own start (used + n) (i + 1) used') (start + used')) l2 →
  holds x2 (d :: l1 ++ l2) (own start used i used') mem →
  mem (x2 + 8 * (start + i)) = x2 + value d ∧
  holds x2 l1 (own (start + used) 512 0 n) mem ∧
  holds x2 l2 (own start (used + n) (i + 1) used') mem.
Proof.
  intros d Hi Hu Hn Hu' Hs1 Hs2 Hmem.
  assert (Hws : writes x2 d = [(x2 + 8 * (start + i), x2 + value d)]).
  { unfold writes. simpl. by replace ((i + start) * 8) with (8 * (start + i)) by lia. }
  assert (Hall : all_writes x2 (d :: l1 ++ l2) =
    (writes x2 d ++ all_writes x2 l1) ++ all_writes x2 l2)
    by (rewrite all_writes_cons, all_writes_app; apply (assoc_L (++))).
  assert (Hmem1 : ∀ e, own start used i used' e → ¬ own start (used + n) (i + 1) used' e →
    mem (x2 + 8 * e) =
    apply_writes (writes x2 d ++ all_writes x2 l1) (λ _, 0) (x2 + 8 * e)).
  { intros e. by apply (holds_head x2 _ l2 _ _ _ _ _ _ Hmem Hall Hs2). }
  split; [|split].
  - rewrite Hmem1, apply_writes_app by (unfold own; lia).
    rewrite (all_writes_outside _ _ _ _ _ _ Hs1) by (unfold own; lia).
    rewrite Hws. apply fn_lookup_insert.
  - intros e He. rewrite Hmem1, apply_writes_app by (unfold own in *; lia).
    apply apply_writes_ext, apply_writes_notin. rewrite Hws.
    intros w ->%list_elem_of_singleton. simpl. unfold own in He. lia.
  - apply (holds_tail x2 _ l2 _ _ _ _ Hmem Hall); [|unfold own; lia].
    intros w e [Hw|Hw]%elem_of_app.
    + rewrite Hws in Hw. apply list_elem_of_singleton in Hw as ->. simpl. unfold own. lia.
    + destruct (elem_of_all_writes _ _ x2 _ w Hs1 Hw) as (e' & -> & He').
      unfold own in *. lia.
Qed.

Lemma walk_tables x2 start base size used i l used' mem :
  tables regions start base size used i l used' →
  table_ok regions base size → 0 ≤ i → 0 ≤ start → start mod 512 = 0 →
  512 ≤ used → used mod 512 = 0 →
  0 ≤ x2 → x2 mod 4096 = 0 → x2 + 8 * (start + used') ≤ 2 ^ 48 →
  holds x2 l (own start used i used') mem →
  ∀ va, base + i * size ≤ va < base + 512 * size →
    walk mem (sizes_from size) (x2 + 8 * start) va = mapping_of regions va.
Proof.
  intros Ht. revert mem.
  induction Ht as [start base size used i Hi
    |start base size used i r l used' Hi Hf Hl IH
    |start base size used i l1 n l2 used' Hi Hf Hg Hl1 IH1 Hl2 IH2
    |start base size used i l used' Hi Hf Hl IH];
    intros mem Hok Hi0 Hs Hs512 Hu Hu512 Hx2 Hx Hlt Hmem va Hva;
    pose proof (level_pos _ (table_level _ _ _ Hok)) as Hsize.
  - nia.
  - destruct (repeat_bounds regions _ _ _ _ Hok (conj Hi0 Hi) Hf) as (_ & Hn & Hin & _).
    destruct (tables_sane _ _ _ _ _ _ _ Hl) as (Hu' & _ & Hsane); try done; [lia|].
    destruct (holds_covered _ _ _ _ _ _ _ _ _ _ Hok (conj Hi0 Hi) Hs Hu Hf Hsane Hmem)
      as [Hd Hrest].
    set (rc := repeat_count _ _ _ _ _) in *.
    destruct (decide (va < base + (i + rc + 1) * size)) as [Hb|Hb];
      [|apply IH; try done; lia].
    set (k := (va - base) / size).
    assert (Hk : size * k ≤ va - base < size * (k + 1)).
    { pose proof (Z.div_mod (va - base) size). pose proof (Z.mod_pos_bound (va - base) size).
      unfold k. lia. }
    assert (i ≤ k ≤ i + rc) by nia.
    apply (walk_covered mem _ base size i k r); [done|lia|done|fold rc; lia| |lia].
    rewrite <-Z.add_assoc, <-Z.mul_add_distr_l. by apply Hd.
  - assert (Hn512 : (start + used) mod 512 = 0)
      by (rewrite Z.add_mod, Hs512, Hu512 by lia; done).
    assert (Hsub : table_ok regions (base + i * size) (size / 512))
      by (by apply table_ok_sub).
    destruct (tables_sane _ _ _ _ _ _ _ Hl1) as (Hn & Hn' & Hs1);
      [done|lia|lia|done|lia|done|].
    assert (Hun : (used + n) mod 512 = 0)
      by (rewrite Z.add_mod, Hu512, Hn' by lia; done).
    destruct (tables_sane _ _ _ _ _ _ _ Hl2) as (Hu' & _ & Hs2); [done|lia..|done|].
    destruct (holds_overlapped _ _ _ _ _ _ _ _ _ (conj Hi0 Hi) Hu Hn Hu' Hs1 Hs2 Hmem)
      as (Hd & H1 & H2).
    assert (Hsize512 : size = 512 * (size / 512))
      by (destruct (table_level _ _ _ Hok) as [-> |[-> | ->]]; done).
    destruct (decide (va < base + (i + 1) * size)) as [Hb|Hb];
      [|apply IH2; try done; lia].
    rewrite (walk_overlapped mem x2 start used base size i) by (done || lia).
    apply IH1; try done; simpl; lia.
  - destruct (tables_sane _ _ _ _ _ _ _ Hl) as (Hu' & _ & Hsane); try done; [lia|].
    destruct (decide (va < base + (i + 1) * size)) as [Hb|Hb].
    + apply (walk_unmapped mem _ base size i); [done|lia|done| |lia].
      rewrite <-Z.add_assoc, <-Z.mul_add_distr_l.
      apply (holds_head x2 [] l l _ _ _ _ _ Hmem eq_refl Hsane); unfold own; lia.
    + apply IH; try done; [lia| |lia].
      apply (holds_tail x2 [] l l _ _ _ Hmem eq_refl); [|unfold own; lia].
      by intros w e ?%elem_of_nil.
Qed.
End mapping.

(** ** Totality of the construction *)
Section total.
Context (regions : list EarlyRegion).
Context (Hrok : ∀ r, r ∈ regions → region_ok r = true).

Lemma count_loop_total ct fuel base size c i :
  0 < size → 0 ≤ i → 512 - i ≤ Z.of_nat fuel →
  (∀ j, find_hit (block_of base size j) regions = Overlapped →
     GRANULE_SIZE ≤ size / 512 ∧
     ∃ n, ct (base + j * size) (size / 512) 512 GRANULE_SIZE = Done n) →
  ∃ n, count_loop regions ct fuel base size 512 GRANULE_SIZE c i = Done n.
Proof.
  intros Hs Hi Hfuel Hsub. revert c i Hi Hfuel.
  induction fuel as [|fuel IH]; intros c i Hi Hfuel; simpl.
  { destruct (Z.leb_spec 512 i); [eauto|lia]. }
  destruct (Z.leb_spec 512 i) as [|Hlt]; [eauto|].
  destruct (find_hit _ _) as [r| |] eqn:Hf.
  - apply IH; [|]; apply find_hit_Covered in Hf as (_ & H1 & H2);
      unfold repeat_count, usize_min;
      set (q := (_ - _) / size); assert (0 ≤ q) by (apply Z.div_pos; lia);
      destruct (Z.ltb_spec q (512 - i)); lia.
  - change (GRANULE_SIZE / 8) with 512. destruct (Hsub i Hf) as (Hg & n & Hn).
    rewrite (proj2 (Z.leb_le _ _) Hg). simpl. rewrite Hn. simpl. apply IH; lia.
  - apply IH; lia.
Qed.

(** A block of one granule is covered or not, since regions are aligned. *)
Lemma no_overlapped_page base j :
  base mod 4096 = 0 → find_hit (block_of base 4096 j) regions ≠ Overlapped.
Proof.
  intros Hb (r & Hr & Hc & Ho)%find_hit_Overlapped.
  pose proof (region_bounds regions Hrok r Hr) as Hrb.
  rewrite <-not_true_iff_false, covers_spec in Hc. apply overlaps_spec in Ho.
  destruct (address_range r) as [s e]. simpl in *. destruct Hrb as (? & ? & Hs & He).
  apply Z.mod_divide in Hb as [b Hb], Hs as [x Hx], He as [y Hy]; lia.
Qed.

Lemma get_range_count_of_table_S depth base size n granule :
  get_range_count_of_table regions (S depth) base size n granule =
  count_loop regions (get_range_count_of_table regions depth) (Z.to_nat n)
    base size n granule 0 0.
Proof. done. Qed.

Lemma count_of_table_total depth base :
  base mod 4096 = 0 →
  ∃ n, get_range_count_of_table regions (S depth) base
         (4096 * 512 ^ Z.of_nat depth) 512 GRANULE_SIZE = Done n.
Proof.
  revert base. induction depth as [|depth IH]; intros base Hb;
    rewrite get_range_count_of_table_S; (apply count_loop_total; [lia|lia|by rewrite Z2Nat.id by lia|]); intros j Hj.
  - by apply no_overlapped_page in Hj.
  - rewrite Nat2Z.inj_succ, Z.pow_succ_r in * by lia.
    replace (4096 * (512 * 512 ^ Z.of_nat depth) / 512) with (4096 * 512 ^ Z.of_nat depth)
      by (apply (Z.div_unique _ _ _ 0); lia).
    split; [unfold GRANULE_SIZE; lia|]. apply IH.
    apply Z.mod_divide in Hb as [b ->]; [|lia]. apply Z.mod_divide; [lia|].
    exists (b + j * (512 * 512 ^ Z.of_nat depth)). lia.
Qed.

Lemma get_range_count_total : ∃ n, get_range_count regions = Done n.
Proof. apply (count_of_table_total 2 0 eq_refl). Qed.
End total.

Lemma fills_array build l used m :
  fills l used build →
  ('(ranges, (entry_count, _)) ← build (replicate m (mkDescriptorRange 0 0 0)) 0%nat;
   mret (ranges, entry_count * 8)) =
  if decide (length l ≤ m)%nat then
    Done (l ++ drop (length l) (replicate m (mkDescriptorRange 0 0 0)), used * 8)
  else Panic.
Proof.
  intros Hf. specialize (Hf [] (replicate m (mkDescriptorRange 0 0 0))).
  cbn [app length] in Hf. rewrite Hf, length_replicate. clear. by case_decide.
Qed.

Lemma build_ranges_counted regions n :
  get_range_count regions = Done n →
  ∃ ranges used, tables regions 0 0 (2 ^ 30) 512 0 ranges used ∧ n = length ranges ∧
    build_ranges regions n = Done (ranges, used * 8) ∧
    ∀ m, (m < n)%nat → build_ranges regions m = Panic.
Proof.
  unfold get_range_count, TOP_LEVEL_BLOCK_SIZE, TOP_LEVEL_DESCRIPTOR_COUNT.
  change 0x40000000 with (2 ^ 30). intros Hn.
  destruct (count_of_table_built regions MAX_DEPTH 0 _ _ _ Hn) as (l & used & Ht & -> & Hf).
  pose proof (λ m, fills_array _ l used m Hf) as Hb. clear Hn Hf.
  exists l, used. split; [done|]. split; [done|].
  unfold build_ranges, TOP_LEVEL_BLOCK_SIZE, TOP_LEVEL_DESCRIPTOR_COUNT.
  change 0x40000000 with (2 ^ 30). split.
  - rewrite Hb, decide_True, drop_ge, app_nil_r by (rewrite ?length_replicate; lia). done.
  - intros m Hm. by rewrite Hb, decide_False by lia.
Qed.

Lemma tables_nonzero regions start base size used i l used' :
  tables regions start base size used i l used' → Forall (λ r, value r ≠ 0) l.
Proof.
  induction 1 as [|start base size used i r l used' _ _ _ IH
    |start base size used i l1 n l2 used' _ _ _ _ IH1 _ IH2|]; [constructor|..|done].
  - constructor; [|done]. cbn [block_descriptor value]. rewrite Z.lor_eq_0_iff.
    intros [_ Hlsb]. by destruct (GRANULE_SIZE =? size).
  - constructor; [|by apply Forall_app]. simpl. rewrite Z.lor_eq_0_iff. lia.
Qed.

(** ** Properties *)

(** The number of ranges counted at compile time is the number of ranges
    that are built: [build_ranges] fills an array of that size with descriptors
    that are not the zero it starts from, and indexes a smaller array out of
    bounds. *)
Theorem early_range_count_exact regions n :
  get_range_count regions = Done n →
  (∃ ranges size, build_ranges regions n = Done (ranges, size) ∧
     length ranges = n ∧ Forall (λ r, value r ≠ 0) ranges) ∧
  ∀ m, (m < n)%nat → build_ranges regions m = Panic.
Proof.
  intros (l & used & Ht & Hn & Hb & Hm)%build_ranges_counted.
  split; [|done]. exists l, (used * 8). split; [done|]. split; [done|].
  by eapply tables_nonzero.
Qed.

Lemma early_range_count_exact_witness :
  (∃ ranges size, build_ranges (qemu_early_regions 1 1) 4 = Done (ranges, size) ∧
     length ranges = 4%nat ∧ Forall (λ r, value r ≠ 0) ranges) ∧
  ∀ m, (m < 4)%nat → build_ranges (qemu_early_regions 1 1) m = Panic.
Proof.
  apply (early_range_count_exact (qemu_early_regions 1 1) 4).
  vm_compute. reflexivity.
Defined.

Lemma tables_nil regions start base size used i l used' :
  tables regions start base size used i l used' → l = [] → used' = used.
Proof. induction 1; intros Hl; simplify_eq/=; auto. Qed.

(** The constants of a mapping: sane ranges, and memory that holds their words is walked as
    the regions say. *)
Lemma early_tables_built regions :
  regions_ok regions = true →
  ∃ ranges used, define_early_mapping regions = Done (ranges, used * 8) ∧ ranges ≠ [] ∧ 512 ≤ used ∧
    Forall (sane (own 0 512 0 used) used) ranges ∧
    ∀ x2 mem, 0 ≤ x2 → x2 mod 4096 = 0 → x2 + used * 8 ≤ 2 ^ 48 → holds x2 ranges (own 0 512 0 used) mem →
      ∀ va, 0 ≤ va < 2 ^ 39 → walk mem WALK_SIZES x2 va = mapping_of regions va.
Proof.
  unfold regions_ok. rewrite !andb_true_iff, negb_true_iff, bool_decide_eq_false,
    forallb_elem. intros [[Hne Hrok] Hd].
  destruct (get_range_count_total regions Hrok) as [n Hn].
  destruct (build_ranges_counted _ _ Hn) as (l & used & Ht & _ & Hb & _).
  destruct (tables_sane regions Hrok Hd _ _ _ _ _ _ _ Ht) as (Hu & _ & Hsane);
    try done; [by apply table_ok_top|].
  assert (Hwalk : ∀ x2 mem, 0 ≤ x2 → x2 mod 4096 = 0 → x2 + used * 8 ≤ 2 ^ 48 → holds x2 l (own 0 512 0 used) mem →
    ∀ va, 0 ≤ va < 2 ^ 39 → walk mem WALK_SIZES x2 va = mapping_of regions va).
  { intros x2 mem Hx2 Hx Hlt Hh va Hva.
    pose proof (walk_tables regions Hrok Hd x2 _ _ _ _ _ _ _ mem Ht) as Hw.
    specialize (Hw (table_ok_top regions Hrok)).
    replace (x2 + 8 * 0) with x2 in Hw by lia. apply Hw; try done; lia. }
  exists l, used. split; [unfold define_early_mapping; rewrite Hn; apply Hb|].
  split; [|done]. intros ->. destruct regions as [|r regions]; [exact (Hne eq_refl)|].
  assert (Hr : r ∈ r :: regions) by (apply elem_of_cons; by left).
  pose proof (region_bounds _ Hrok r Hr) as Hrb. destruct (address_range r) as [s e] eqn:Hse.
  (** Without a range a walk of zeros would be the mapping of the regions. *)
  pose proof (tables_nil _ _ _ _ _ _ _ _ Ht eq_refl) as ->.
  specialize (Hwalk 0 (λ _, 0) ltac:(done) eq_refl ltac:(done) ltac:(done) s ltac:(lia)).
  by rewrite (mapping_of_region _ Hd r s Hr) in Hwalk by (rewrite Hse; simpl; lia).
Qed.

(** C8: for regions that are aligned, disjoint and do not run over the end of a
    table, the constants of the early mapping can be computed; extracting them
    into zeroed, page aligned memory of the computed size ends, changes no other
    memory, and gives tables whose walk is the identity mapping of the regions
    with their attributes and faults everywhere else. *)
Theorem early_mapping_correct regions :
  regions_ok regions = true →
  ∃ ranges size, define_early_mapping regions = Done (ranges, size) ∧
    ∀ x2 mem, 0 ≤ x2 → x2 mod 4096 = 0 → x2 + size ≤ 2 ^ 48 →
      (∀ a, x2 ≤ a < x2 + size → mem a = 0) →
      ∃ mem', init_early_page_tables x2 ranges mem = Done mem' ∧
        (∀ va, 0 ≤ va < 2 ^ 39 → walk mem' WALK_SIZES x2 va = mapping_of regions va) ∧
        (∀ a, ¬ (x2 ≤ a < x2 + size) → mem' a = mem a).
Proof.
  intros (l & used & Hdef & Hne & Hu & Hsane & Hwalk)%early_tables_built. exists l, (used * 8). split; [done|].
  intros x2 mem Hx2 Hx Hlt Hz. exists (apply_writes (all_writes x2 l) mem).
  assert (∀ e, own 0 512 0 used e → 0 ≤ e < used) as Hown by (unfold own; lia). split; [|split].
  - destruct l as [|d l]; [done|].
    apply (fold_extract_writes (own 0 512 0 used) used); [done|intros e He; by apply Hown|lia..].
  - apply Hwalk; try done. intros e He%Hown. apply apply_writes_ext, Hz. lia.
  - intros a Ha. apply (all_writes_outside (own 0 512 0 used) used); [done|]. intros e He%Hown. lia.
Qed.

Lemma early_mapping_correct_witness :
  regions_ok (qemu_early_regions 0x711 0x40000000000605) = true ∧
  ∃ ranges size,
    define_early_mapping (qemu_early_regions 0x711 0x40000000000605) = Done (ranges, size) ∧
    ∀ x2 mem, 0 ≤ x2 → x2 mod 4096 = 0 → x2 + size ≤ 2 ^ 48 →
      (∀ a, x2 ≤ a < x2 + size → mem a = 0) →
      ∃ mem', init_early_page_tables x2 ranges mem = Done mem' ∧
        (∀ va, 0 ≤ va < 2 ^ 39 → walk mem' WALK_SIZES x2 va =
           mapping_of (qemu_early_regions 0x711 0x40000000000605) va) ∧
        (∀ a, ¬ (x2 ≤ a < x2 + size) → mem' a = mem a).
Proof.
  split; [vm_compute; reflexivity|].
  apply (early_mapping_correct (qemu_early_regions 0x711 0x40000000000605)).
  vm_compute. reflexivity.
Defined.

(** The mapping of an address in tables extracted to [x2]. *)
Definition early_walk (regions : list EarlyRegion) (x2 va : Z) : outcome (option (Z * Z)) :=
  '(ranges, _) ← define_early_mapping regions;
  mem ← init_early_page_tables x2 ranges (λ _, 0);
  mret (walk mem WALK_SIZES x2 va).

(** A region that starts inside a table and runs over its end writes a
    descriptor behind the table, into the next one: an address that no region
    contains is mapped, to another address and with the attributes of that
    region. *)
Theorem early_mapping_overrun :
  let regions := [mkEarlyRegion (0x80200000, 0x100000000) 0x711;
                  mkEarlyRegion (0x100200000, 0x100400000) 0x605] in
  early_walk regions 0x10000 0x100000000 = Done (Some (0xc0000000, 0x710)) ∧
  mapping_of regions 0x100000000 = None ∧ disjoint_regions regions = true.
Proof. vm_compute. done. Qed.
