(* ===== verification/Context.v ===== *)
(** * CPU contexts

    [src/context.rs], and the parts of [src/exceptions.rs], [src/gicv3.rs],
    [src/cpu_extensions.rs], [src/cpu_extensions/pmuv3.rs] and
    [src/errata_framework.rs] it is built on: the system registers of a core that
    are saved and restored when EL3 switches worlds, the registers of EL3 each
    world runs with, the first contexts of the worlds, and the exception that is
    injected for a trapped access.

    A system register is named by its name in the architecture and holds a value;
    a structure with a field for each of a set of registers is a [Bank] as well,
    since its fields are named after the registers.  The bits of the registers
    and the tests of the identification registers are those of the [arm_sysregs]
    crate, a parameter.  [isb] has no effect on the values of registers.  The
    model is that of a build with the [rme] feature, with or without [sel2]. *)

From Stdlib Require Import ZArith Lia.
From stdpp Require Import base list numbers option functions strings.
From S2P Require Import Prelude Smccc Services.
Open Scope rust_scope.
Open Scope string_scope.
Open Scope list_scope.
Open Scope Z_scope.

(** ** The [arm_sysregs] crate *)
Notation SysReg := string.
Notation Bank := (string → Z).

Inductive ExceptionLevel : Type := El0 | El1 | El2 | El3.
Global Instance ExceptionLevel_eq_dec : EqDecision ExceptionLevel.
Proof. solve_decision. Defined.
Inductive StackPointer : Type := SpEl0 | SpElX.
Global Instance StackPointer_eq_dec : EqDecision StackPointer.
Proof. solve_decision. Defined.

(** The flags of [ScrEl3], [CptrEl3], [MdcrEl3] and [SpsrEl3] that are used. *)
Inductive ScrFlag : Type :=
| SCR_RES1 | SCR_NS | SCR_IRQ | SCR_FIQ | SCR_HCE | SCR_SIF | SCR_RW | SCR_ST | SCR_APK | SCR_API
| SCR_EEL2 | SCR_ATA | SCR_FGTEN | SCR_ECVEN | SCR_HXEN | SCR_ENTP2 | SCR_TCR2EN | SCR_SCTLR2EN
| SCR_FGTEN2 | SCR_NSE.
Global Instance ScrFlag_eq_dec : EqDecision ScrFlag.
Proof. solve_decision. Defined.
Inductive CptrFlag : Type := CPTR_TAM | CPTR_TTA | CPTR_TFP | CPTR_EZ | CPTR_ESM.
Global Instance CptrFlag_eq_dec : EqDecision CptrFlag.
Proof. solve_decision. Defined.
Inductive MdcrFlag : Type :=
| MDCR_SDD | MDCR_SPD32 | MDCR_TTRF | MDCR_MTPME | MDCR_SCCD | MDCR_MCCD | MDCR_ENPM2 | MDCR_MPMX
| MDCR_SPME | MDCR_TPM | MDCR_NSPB_NS | MDCR_NSPBE | MDCR_ENPMSN | MDCR_ENPMS3 | MDCR_NSTB_EN
| MDCR_NSTB_SS | MDCR_NSTBE.
Global Instance MdcrFlag_eq_dec : EqDecision MdcrFlag.
Proof. solve_decision. Defined.
(** [SPSR_M] are the mode bits but bit 4, which is [SPSR_M_4]. *)
Inductive SpsrFlag : Type :=
| SPSR_M | SPSR_M_4 | SPSR_F | SPSR_I | SPSR_A | SPSR_D | SPSR_SSBS | SPSR_ALLINT | SPSR_PAN | SPSR_DIT
| SPSR_TCO | SPSR_NZCV | SPSR_PM | SPSR_EXLOCK.
Global Instance SpsrFlag_eq_dec : EqDecision SpsrFlag.
Proof. solve_decision. Defined.

(** The features that are looked up in an identification register. *)
Inductive Feature : Type :=
| FEAT_VHE | FEAT_MTPMU | FEAT_TRF | FEAT_MPAM | FEAT_AMUv1 | FEAT_FGT2 | FEAT_HCX | FEAT_MTE
| FEAT_MTE2 | FEAT_SPE | FEAT_SYS_REG_TRACE | FEAT_SCTLR2 | FEAT_TCR2 | FEAT_TRBE | FEAT_SVE
| FEAT_SME | FEAT_SME2 | FEAT_SSBS | FEAT_NMI | FEAT_EBEP | FEAT_GCS.

Class ArmSysregs := {
  scr : ScrFlag → Z;
  cptr : CptrFlag → Z;
  mdcr : MdcrFlag → Z;
  spsr : SpsrFlag → Z;
  M_AARCH64_EL2H : Z;
  M_AARCH64_EL1H : Z;
  (** Other constants, [Type::FLAG]. *)
  bits_of : string → Z;
  exception_level : Z → ExceptionLevel;
  stack_pointer : Z → StackPointer;
  is_feat_present : Feature → Z → bool;
  (** Fields of identification registers: [MpamidrEl1::vpmr_max],
      [AmcgcrEl0::cg1nc], [IdAa64pfr0El1::fp] and [advsimd]. *)
  vpmr_max : Z → Z;
  cg1nc : Z → Z;
  pfr0_fp : Z → Z;
  pfr0_advsimd : Z → Z;
  from_ssve_vector_len : Z → Z;
}.

(** The features of the build. *)
Class Features := { sel2 : bool }.

(** The operators of [bitflags]: [|] and [union], [-], [contains]. *)
Definition union (a b : Z) : Z := Z.lor a b.
Definition minus (a b : Z) : Z := Z.ldiff a b.
Definition contains (a b : Z) : bool := Z.land a b =? b.

(** ** The contexts *)
Record El3State : Type := mkEl3State {
  esr_el3 : Z;
  runtime_sp : Z;
  runtime_lr : Z;
  spsr_el3 : Z;
  elr_el3 : Z;
  pmcr_el0 : Z;
  saved_elr_el3 : Z;
  nested_ea_flag : Z;
  mdcr_el3 : Z;
}.
Definition El3State_EMPTY : El3State := mkEl3State 0 0 0 0 0 0 0 0 0.
Definition set_spsr_el3 (v : Z) (x : El3State) : El3State :=
  mkEl3State (esr_el3 x) (runtime_sp x) (runtime_lr x) v (elr_el3 x) (pmcr_el0 x)
    (saved_elr_el3 x) (nested_ea_flag x) (mdcr_el3 x).
Definition set_elr_el3 (v : Z) (x : El3State) : El3State :=
  mkEl3State (esr_el3 x) (runtime_sp x) (runtime_lr x) (spsr_el3 x) v (pmcr_el0 x)
    (saved_elr_el3 x) (nested_ea_flag x) (mdcr_el3 x).
Definition set_mdcr_el3 (v : Z) (x : El3State) : El3State :=
  mkEl3State (esr_el3 x) (runtime_sp x) (runtime_lr x) (spsr_el3 x) (elr_el3 x) (pmcr_el0 x)
    (saved_elr_el3 x) (nested_ea_flag x) v.

Definition GPREGS_COUNT : nat := 32.
(** [x0] to [x30] and [sp_el0]; the ten halves of the pointer authentication
    keys; the state of EL3; and the registers of EL2, or of EL1 without [sel2]. *)
Record CpuContext : Type := mkCpuContext {
  gpregs : list Z;
  pauth_regs : list Z;
  el3_state : El3State;
  lower_el_sysregs : Bank;
}.
Definition CpuContext_EMPTY : CpuContext :=
  mkCpuContext (replicate GPREGS_COUNT 0) (replicate 10 0) El3State_EMPTY (λ _, 0).
Definition set_gpregs (v : list Z) (c : CpuContext) : CpuContext :=
  mkCpuContext v (pauth_regs c) (el3_state c) (lower_el_sysregs c).
Definition set_el3_state (v : El3State) (c : CpuContext) : CpuContext :=
  mkCpuContext (gpregs c) (pauth_regs c) v (lower_el_sysregs c).
Definition set_lower_el_sysregs (v : Bank) (c : CpuContext) : CpuContext :=
  mkCpuContext (gpregs c) (pauth_regs c) (el3_state c) v.

Record PerWorldContext : Type := mkPerWorldContext {
  cptr_el3 : Z;
  mpam3_el3 : Z;
  scr_el3 : Z;
}.
Definition PerWorldContext_default : PerWorldContext := mkPerWorldContext 0 0 0.
Definition set_cptr_el3 (v : Z) (c : PerWorldContext) : PerWorldContext :=
  mkPerWorldContext v (mpam3_el3 c) (scr_el3 c).
Definition set_mpam3_el3 (v : Z) (c : PerWorldContext) : PerWorldContext :=
  mkPerWorldContext (cptr_el3 c) v (scr_el3 c).
Definition set_scr_el3 (v : Z) (c : PerWorldContext) : PerWorldContext :=
  mkPerWorldContext (cptr_el3 c) (mpam3_el3 c) v.

Record EntryPointInfo : Type := mkEntryPointInfo { pc : Z; args : list Z }.

(** A core: its registers; its context for each world; the contexts the CPU
    extensions keep, by the name of the extension; the context of the activity
    monitors, which is not per world; and [PER_WORLD_CONTEXT], a [Once]. *)
Record Core : Type := mkCore {
  sysregs : Bank;
  cpu_state : World → CpuContext;
  ext_contexts : string → World → Bank;
  amu_context : Bank;
  PER_WORLD_CONTEXT : option (World → PerWorldContext);
}.
Definition set_sysregs (v : Bank) (s : Core) : Core :=
  mkCore v (cpu_state s) (ext_contexts s) (amu_context s) (PER_WORLD_CONTEXT s).
Definition set_cpu_state (v : World → CpuContext) (s : Core) : Core :=
  mkCore (sysregs s) v (ext_contexts s) (amu_context s) (PER_WORLD_CONTEXT s).
Definition set_ext_contexts (v : string → World → Bank) (s : Core) : Core :=
  mkCore (sysregs s) (cpu_state s) v (amu_context s) (PER_WORLD_CONTEXT s).
Definition set_amu_context (v : Bank) (s : Core) : Core :=
  mkCore (sysregs s) (cpu_state s) (ext_contexts s) v (PER_WORLD_CONTEXT s).
Definition set_per_world (v : option (World → PerWorldContext)) (s : Core) : Core :=
  mkCore (sysregs s) (cpu_state s) (ext_contexts s) (amu_context s) v.

Definition read (r : SysReg) : M Core Z := λ s, Ret (sysregs s r) s.
Definition write (r : SysReg) (v : Z) : M Core unit :=
  modify (λ s, set_sysregs (<[r := v]> (sysregs s)) s).
Definition update_context (w : World) (f : CpuContext → CpuContext) (s : Core) : Core :=
  set_cpu_state (<[w := f (cpu_state s w)]> (cpu_state s)) s.

(** Reads or writes the registers of a list, in order. *)
Definition copy (rs : list SysReg) (src dst : Bank) : Bank :=
  foldl (λ d r, <[r := src r]> d) dst rs.

(** [l[..n].copy_from_slice(src)] *)
Definition copy_from_slice (l : list Z) (n : nat) (src : list Z) : outcome (list Z) :=
  _ ← assert_ (bool_decide (n ≤ length l)%nat);
  _ ← assert_ (bool_decide (length src = n));
  mret (src ++ drop n l).

(** Checked addition of [usize]. *)
Definition usize_add (a b : Z) : outcome Z :=
  let c := a + b in if c <? 2 ^ 64 then mret c else Panic.

Section Context.
Context `{ArmSysregs} `{Features}.

(** ** CPU extensions, [src/cpu_extensions.rs] *)

(** [read_<r>().is_feat_<f>_present()] *)
Definition present (f : Feature) (r : SysReg) (b : Bank) : bool := is_feat_present f (b r).

Record CpuExtension : Type := mkCpuExtension {
  is_present : Bank → bool;
  init : M Core unit;
  configure_per_world : Bank → World → PerWorldContext → PerWorldContext;
  configure_per_cpu : World → CpuContext → CpuContext;
  save_context : World → M Core unit;
  restore_context : World → M Core unit;
  save_context_before_suspend_to_powerdown : M Core unit;
  restore_context_after_suspend_to_powerdown : M Core unit;
}.

Fixpoint for_each {St A} (l : list A) (f : A → M St unit) : M St unit :=
  match l with
  | [] => mret tt
  | x :: l => _ ← f x; for_each l f
  end.

(** The platform: [CPU_EXTENSIONS] and [ERRATA_LIST], an identifier and the check
    of the registers that tell whether the erratum applies. *)
Context (CPU_EXTENSIONS : list CpuExtension) (ERRATA_LIST : list (Z * (Bank → bool))).

Definition erratum_applies (id : Z) (b : Bank) : bool :=
  existsb (λ '(eid, check), (eid =? id) && check b) ERRATA_LIST.

(** [pmuv3::init] and [pmuv3::configure_per_cpu]. *)
Definition pmuv3_init : M Core unit :=
  v ← read "pmcr_el0";
  let v := union v (union (union (bits_of "PmcrEl0::DP") (bits_of "PmcrEl0::C")) (bits_of "PmcrEl0::P")) in
  let v := minus v (union (bits_of "PmcrEl0::X") (bits_of "PmcrEl0::E")) in
  write "pmcr_el0" v.

Definition update_mdcr_el3 (f : Z → Z) (c : CpuContext) : CpuContext :=
  set_el3_state (set_mdcr_el3 (f (mdcr_el3 (el3_state c))) (el3_state c)) c.

Definition pmuv3_configure_per_cpu (b : Bank) (c : CpuContext) : CpuContext :=
  let c :=
    if sel2 then set_lower_el_sysregs (<["mdcr_el2" := b "mdcr_el2"]> (lower_el_sysregs c)) c
    else c in
  let c := update_mdcr_el3 (λ v, union v
    (union (union (mdcr MDCR_SCCD) (mdcr MDCR_MCCD)) (mdcr MDCR_ENPM2))) c in
  update_mdcr_el3 (λ v, minus v
    (union (union (mdcr MDCR_MPMX) (mdcr MDCR_SPME)) (mdcr MDCR_TPM))) c.

Definition initialise_el3_sysregs : M Core unit :=
  _ ← for_each CPU_EXTENSIONS (λ ext,
        s ← get;
        if is_present ext (sysregs s) then init ext else mret tt);
  pmuv3_init.

(** ** The registers of the lower exception level *)
Definition el2_save_list : list SysReg :=
  ["actlr_el2"; "afsr0_el2"; "afsr1_el2"; "amair_el2"; "cnthctl_el2"; "cntvoff_el2"; "cptr_el2";
   "elr_el2"; "esr_el2"; "far_el2"; "hacr_el2"; "hcr_el2"; "hpfar_el2"; "hstr_el2"; "icc_sre_el2";
   "ich_hcr_el2"; "ich_vmcr_el2"; "mair_el2"; "mdcr_el2"; "sctlr_el2"; "spsr_el2"; "sp_el2";
   "tcr_el2"; "tpidr_el2"; "ttbr0_el2"; "vbar_el2"; "vmpidr_el2"; "vpidr_el2"; "vtcr_el2";
   "vttbr_el2"].
Definition el2_save_vhe_list : list SysReg := ["contextidr_el2"; "ttbr1_el2"].
(** The registers written before and from [ICH_VMCR_EL2] on. *)
Definition el2_restore_list_1 : list SysReg :=
  ["actlr_el2"; "afsr0_el2"; "afsr1_el2"; "amair_el2"; "cnthctl_el2"; "cntvoff_el2"; "cptr_el2";
   "elr_el2"; "esr_el2"; "far_el2"; "hacr_el2"; "hcr_el2"; "hpfar_el2"; "hstr_el2"; "icc_sre_el2";
   "ich_hcr_el2"].
Definition el2_restore_list_2 : list SysReg :=
  ["ich_vmcr_el2"; "mair_el2"; "mdcr_el2"; "sctlr_el2"; "spsr_el2"; "sp_el2"; "tcr_el2";
   "tpidr_el2"; "ttbr0_el2"; "vbar_el2"; "vmpidr_el2"; "vpidr_el2"; "vtcr_el2"; "vttbr_el2"].
Definition el2_restore_vhe_list : list SysReg := ["contextidr_el2"; "ttbr1_el2"].
Definition el1_save_list : list SysReg :=
  ["spsr_el1"; "elr_el1"; "sctlr_el1"; "tcr_el1"; "cpacr_el1"; "csselr_el1"; "sp_el1"; "esr_el1";
   "ttbr0_el1"; "ttbr1_el1"; "mair_el1"; "amair_el1"; "actlr_el1"; "tpidr_el1"; "tpidr_el0";
   "tpidrro_el0"; "par_el1"; "far_el1"; "afsr0_el1"; "afsr1_el1"; "contextidr_el1"; "vbar_el1";
   "mdccint_el1"; "mdscr_el1"].
Definition el1_restore_list : list SysReg :=
  ["spsr_el1"; "elr_el1"; "sctlr_el1"; "tcr_el1"; "cpacr_el1"; "csselr_el1"; "sp_el1"; "esr_el1";
   "ttbr0_el1"; "ttbr1_el1"; "mair_el1"; "amair_el1"; "actlr_el1"; "tpidr_el1"; "tpidr_el0";
   "tpidrro_el0"; "par_el1"; "far_el1"; "afsr0_el1"; "afsr1_el1"; "contextidr_el1"; "vbar_el1";
   "mdccint_el1"; "mdscr_el1"].

(** [El2Sysregs::save] *)
Definition el2_save (b ctx : Bank) : Bank :=
  let ctx := copy el2_save_list b ctx in
  if present FEAT_VHE "id_aa64mmfr1_el1" b then copy el2_save_vhe_list b ctx else ctx.

Definition errata_ich_vmcr_el2_applies (b : Bank) : bool :=
  erratum_applies 3300099 b || erratum_applies 3658374 b || erratum_applies 3773617 b.

(** [El2Sysregs::restore] *)
Definition el2_restore (world : World) (ctx b : Bank) : Bank :=
  let b := copy el2_restore_list_1 ctx b in
  let b :=
    if errata_ich_vmcr_el2_applies b then
      <["scr_el3" := if decide (world = Secure) then minus (b "scr_el3") (scr SCR_NS)
                     else union (b "scr_el3") (scr SCR_NS)]> b
    else b in
  let b := copy el2_restore_list_2 ctx b in
  if present FEAT_VHE "id_aa64mmfr1_el1" b then copy el2_restore_vhe_list ctx b else b.

Definition el1_save (b ctx : Bank) : Bank := copy el1_save_list b ctx.
Definition el1_restore (ctx b : Bank) : Bank := copy el1_restore_list ctx b.

Definition save_lower_el_sysregs (b : Bank) (c : CpuContext) : CpuContext :=
  set_lower_el_sysregs
    (if sel2 then el2_save b (lower_el_sysregs c) else el1_save b (lower_el_sysregs c)) c.
Definition restore_lower_el_sysregs (world : World) (c : CpuContext) (b : Bank) : Bank :=
  if sel2 then el2_restore world (lower_el_sysregs c) b else el1_restore (lower_el_sysregs c) b.

Definition skip_lower_el_instruction (c : CpuContext) : outcome CpuContext :=
  pc ← usize_add (elr_el3 (el3_state c)) 4;
  mret (set_el3_state (set_elr_el3 pc (el3_state c)) c).

(** [GpRegs::write_return_value] *)
Definition write_return_value (value : SmcReturn) (registers : list Z) : outcome (list Z) :=
  fold_outcome (λ rs '(i, v), arr_set rs i v) registers (enumerate (values value)).

(** ** Switching worlds *)
Definition world_context (world : World) : M Core PerWorldContext :=
  s ← get;
  pw ← lift (unwrap (PER_WORLD_CONTEXT s));
  mret (pw world).

Definition mpam_is_present (b : Bank) : bool := present FEAT_MPAM "id_aa64pfr0_el1" b.

Definition restore_el3_sysregs (self : PerWorldContext) : M Core unit :=
  s ← get;
  _ ← (if mpam_is_present (sysregs s) then write "mpam3_el3" (mpam3_el3 self) else mret tt);
  write "cptr_el3" (cptr_el3 self).

Definition restore_world (world : World) (context : CpuContext) : M Core unit :=
  wc ← world_context world;
  _ ← restore_el3_sysregs wc;
  _ ← for_each CPU_EXTENSIONS (λ ext, restore_context ext world);
  modify (λ s, set_sysregs (restore_lower_el_sysregs world context (sysregs s)) s).

Definition switch_world (old_world new_world : World) : M Core unit :=
  _ ← lift (assert_ (bool_decide (old_world ≠ new_world)));
  _ ← modify (λ s, update_context old_world (save_lower_el_sysregs (sysregs s)) s);
  _ ← for_each CPU_EXTENSIONS (λ ext, save_context ext old_world);
  s ← get;
  restore_world new_world (cpu_state s new_world).

Definition set_initial_world (world : World) : M Core unit :=
  s ← get;
  wc ← world_context world;
  _ ← write "scr_el3" (scr_el3 wc);
  restore_world world (cpu_state s world).

(** ** The first contexts *)

(** [PerWorldContext::initialise_common] *)
Definition per_world_initialise_common (self : PerWorldContext) : PerWorldContext :=
  mkPerWorldContext
    (union (union (cptr CPTR_TAM) (cptr CPTR_TTA)) (cptr CPTR_TFP))
    (bits_of "Mpam3El3::TRAPLOWER")
    (union (union (union (union (union (union (union (scr SCR_RES1) (scr SCR_HCE)) (scr SCR_SIF))
       (scr SCR_RW)) (scr SCR_APK)) (scr SCR_API)) (scr SCR_ECVEN))
       (if sel2 then scr SCR_EEL2 else 0)).

(** [gicv3::set_routing_model] *)
Definition set_routing_model (scr_el3 : Z) (world : World) : Z :=
  match world with
  | NonSecure => minus (union scr_el3 (scr SCR_FIQ)) (scr SCR_IRQ)
  | Secure => minus (minus scr_el3 (scr SCR_IRQ)) (scr SCR_FIQ)
  | Realm => minus (minus scr_el3 (scr SCR_FIQ)) (scr SCR_IRQ)
  end.

Definition update_scr_el3 (f : Z → Z) (c : PerWorldContext) : PerWorldContext :=
  set_scr_el3 (f (scr_el3 c)) c.

(** The contexts before the extensions configure them. *)
Definition per_world_base (world : World) : PerWorldContext :=
  let c := per_world_initialise_common PerWorldContext_default in
  match world with
  | NonSecure =>
      let c := set_cptr_el3 (minus (cptr_el3 c) (cptr CPTR_TAM)) c in
      let c := update_scr_el3 (λ v, union v (union (scr SCR_NS) (scr SCR_FGTEN))) c in
      update_scr_el3 (λ v, set_routing_model v NonSecure) c
  | Secure =>
      let c := update_scr_el3 (λ v, union v (scr SCR_ST)) c in
      update_scr_el3 (λ v, set_routing_model v Secure) c
  | Realm =>
      let c := update_scr_el3
        (λ v, union v (union (union (scr SCR_NS) (scr SCR_NSE)) (scr SCR_FGTEN))) c in
      update_scr_el3 (λ v, set_routing_model v Realm) c
  end.

Definition configure_world (b : Bank) (world : World) (c : PerWorldContext) : PerWorldContext :=
  foldl (λ c ext, if is_present ext b then configure_per_world ext b world c else c) c CPU_EXTENSIONS.

Definition initialise_per_world_contexts : M Core unit :=
  modify (λ s,
    match PER_WORLD_CONTEXT s with
    | Some _ => s
    | None =>
        set_per_world (Some (λ w, configure_world (sysregs s) w (per_world_base w))) s
    end).

(** [initialise_common] of a CPU context. *)
Definition DAIF : Z := union (union (union (spsr SPSR_D) (spsr SPSR_A)) (spsr SPSR_I)) (spsr SPSR_F).

Definition initialise_lower_el_sysregs (b : Bank) : Bank :=
  if sel2 then
    let b := <["cptr_el2" := bits_of "CptrEl2::RES1"]> b in
    let b := <["icc_sre_el2" :=
      union (union (union (bits_of "IccSreEl2::DIB") (bits_of "IccSreEl2::DFB"))
        (bits_of "IccSreEl2::ENABLE")) (bits_of "IccSreEl2::SRE")]> b in
    let b := <["tcr_el2" := bits_of "TcrEl2::RES1"]> b in
    let b := <["vmpidr_el2" := bits_of "VmpidrEl2::RES1"]> b in
    <["vtcr_el2" := bits_of "VtcrEl2::RES1"]> b
  else
    let b := <["par_el1" := bits_of "ParEl1::RES1"]> b in
    <["sctlr_el1" :=
      union (union (union (union (union (bits_of "SctlrEl1::LSMAOE") (bits_of "SctlrEl1::NTLSMD"))
        (bits_of "SctlrEl1::SPAN")) (bits_of "SctlrEl1::EIS")) (bits_of "SctlrEl1::TSCXT"))
        (bits_of "SctlrEl1::EOS")]> b.

Definition initialise_common (b : Bank) (entry_point : EntryPointInfo) : outcome CpuContext :=
  let c := CpuContext_EMPTY in
  let c := set_el3_state (set_elr_el3 (pc entry_point) (el3_state c)) c in
  regs ← copy_from_slice (gpregs c) (length (args entry_point)) (args entry_point);
  let c := set_gpregs regs c in
  let c := set_el3_state (set_spsr_el3 (union DAIF M_AARCH64_EL2H) (el3_state c)) c in
  let c := set_lower_el_sysregs (initialise_lower_el_sysregs (lower_el_sysregs c)) c in
  let c := update_mdcr_el3 (λ _, union (mdcr MDCR_SDD) (mdcr MDCR_SPD32)) c in
  let c :=
    if present FEAT_TRF "id_aa64dfr0_el1" b then update_mdcr_el3 (λ v, union v (mdcr MDCR_TTRF)) c
    else c in
  mret (pmuv3_configure_per_cpu b c).

Definition configure_cpu (b : Bank) (world : World) (c : CpuContext) : CpuContext :=
  foldl (λ c ext, if is_present ext b then configure_per_cpu ext world c else c) c CPU_EXTENSIONS.

Definition initialise_nonsecure (b : Bank) (entry_point : EntryPointInfo) : outcome CpuContext :=
  c ← initialise_common b entry_point;
  mret (configure_cpu b NonSecure c).

Definition initialise_secure (b : Bank) (entry_point : EntryPointInfo) : outcome CpuContext :=
  c ← initialise_common b entry_point;
  let c :=
    if sel2 then c
    else set_el3_state (set_spsr_el3 (union DAIF M_AARCH64_EL1H) (el3_state c)) c in
  mret (configure_cpu b Secure c).

Definition initialise_realm (b : Bank) (entry_point : EntryPointInfo) : outcome CpuContext :=
  c ← initialise_common b entry_point;
  mret (configure_cpu b Realm c).

Definition initialise_contexts (ns secure realm : EntryPointInfo) : M Core unit :=
  _ ← initialise_el3_sysregs;
  _ ← initialise_per_world_contexts;
  s ← get;
  c ← lift (initialise_nonsecure (sysregs s) ns);
  _ ← modify (update_context NonSecure (λ _, c));
  c ← lift (initialise_secure (sysregs s) secure);
  _ ← modify (update_context Secure (λ _, c));
  c ← lift (initialise_realm (sysregs s) realm);
  modify (update_context Realm (λ _, c)).

(** [update_contexts_suspend], with the address and the context identifier of the
    PSCI entry point. *)
Definition update_contexts_suspend (entry_point_address context_id : Z) (secure_args : SmcReturn)
    (realm_args : list Z) : M Core unit :=
  _ ← initialise_el3_sysregs;
  s ← get;
  let entry_point := mkEntryPointInfo entry_point_address [context_id; 0; 0; 0; 0; 0; 0; 0] in
  c ← lift (initialise_nonsecure (sysregs s) entry_point);
  _ ← modify (update_context NonSecure (λ _, c));
  regs ← lift (copy_from_slice (gpregs (cpu_state s Secure)) 18 (values secure_args));
  _ ← modify (update_context Secure (set_gpregs regs));
  regs ← lift (copy_from_slice (gpregs (cpu_state s Realm)) (length realm_args) realm_args);
  _ ← modify (update_context Realm (set_gpregs regs));
  for_each CPU_EXTENSIONS restore_context_after_suspend_to_powerdown.

(** ** Entering a world and injecting an exception, [src/exceptions.rs] *)
Definition RUN_RESULT_SMC : Z := 0.
Definition RUN_RESULT_INTERRUPT : Z := 1.
Definition RUN_RESULT_SYSREG_TRAP : Z := 2.

(** Before the world is entered: the values for it go into its registers. *)
Definition prepare_entry (regs : SmcReturn) (world : World) : M Core unit :=
  _ ← (if negb (is_empty regs) then
         s ← get;
         rs ← lift (write_return_value regs (gpregs (cpu_state s world)));
         modify (update_context world (set_gpregs rs))
       else mret tt);
  _ ← world_context world;
  mret tt.

(** What it comes back with: the reason, the syndrome and the registers [x0] to
    [x17]. *)
Definition decode_exit {St} (r : Z * Z * list Z) : M St (RunResult * SmcReturn) :=
  let '(return_reason, esr, out_values) := r in
  let regs := mkSmcReturn MAX_VALUES out_values in
  if return_reason =? RUN_RESULT_SMC then mret (RunSmc, regs)
  else if return_reason =? RUN_RESULT_INTERRUPT then mret (RunInterrupt, regs)
  else if return_reason =? RUN_RESULT_SYSREG_TRAP then mret (RunSysregTrap esr, regs)
  else crash.

(** [el3_exit] runs the world until the next exception.  It is part of a larger
    state, in which [on_core] is a step of the core. *)
Definition enter_world {St} (on_core : M Core unit → M St unit) (el3_exit : World → M St (Z * Z * list Z))
    (regs : SmcReturn) (world : World) : M St (RunResult * SmcReturn) :=
  _ ← on_core (prepare_entry regs world);
  r ← el3_exit world;
  decode_exit r.

Definition CURRENT_EL_SP0 : Z := 0x0.
Definition CURRENT_EL_SPX : Z := 0x200.
Definition LOWER_EL_AARCH64 : Z := 0x400.

Definition is_tge_enabled (b : Bank) : bool :=
  present FEAT_VHE "id_aa64mmfr1_el1" b && contains (b "hcr_el2") (bits_of "HcrEl2::TGE").

Definition is_secure_trap_without_sel2 (scr_el3 : Z) : bool :=
  negb (contains scr_el3 (scr SCR_NS)) && negb (contains scr_el3 (scr SCR_EEL2)).

Definition target_el (b : Bank) (from_el : ExceptionLevel) (scr_el3 : Z) : ExceptionLevel :=
  match from_el with
  | El2 | El3 => from_el
  | El0 | El1 =>
      if is_tge_enabled b && negb (is_secure_trap_without_sel2 scr_el3) then El2 else El1
  end.

Definition find_exception_vector (spsr_el3 vbar : Z) (target_el : ExceptionLevel) : outcome Z :=
  if decide (exception_level spsr_el3 = target_el) then
    if decide (stack_pointer spsr_el3 = SpElX) then usize_add vbar CURRENT_EL_SPX
    else usize_add vbar CURRENT_EL_SP0
  else usize_add vbar LOWER_EL_AARCH64.

Definition create_spsr (b : Bank) (old_spsr : Z) (target_el : ExceptionLevel) : Z :=
  let at_el2 := bool_decide (target_el = El2) in
  let at_el1 := bool_decide (target_el = El1) in
  let sctlr_el1 := b "sctlr_el1" in
  let sctlr_el2 := b "sctlr_el2" in
  let pfr1 := "id_aa64pfr1_el1" in
  let v := if at_el2 then M_AARCH64_EL2H else M_AARCH64_EL1H in
  let v := union v DAIF in
  let v :=
    if present FEAT_SSBS pfr1 b &&
       ((at_el1 && contains sctlr_el1 (bits_of "SctlrEl1::DSSBS")) ||
        (at_el2 && contains sctlr_el2 (bits_of "SctlrEl2::DSSBS")))
    then union v (spsr SPSR_SSBS) else v in
  let v :=
    if present FEAT_NMI pfr1 b &&
       ((at_el1 && negb (contains sctlr_el1 (bits_of "SctlrEl1::SPINTMASK"))) ||
        (at_el2 && negb (contains sctlr_el2 (bits_of "SctlrEl2::SPINTMASK"))))
    then union v (spsr SPSR_ALLINT) else v in
  let v :=
    if contains old_spsr (spsr SPSR_PAN) ||
       (at_el1 && negb (contains sctlr_el1 (bits_of "SctlrEl1::SPAN"))) ||
       (at_el2 && is_tge_enabled b && negb (contains sctlr_el2 (bits_of "SctlrEl2::SPAN")))
    then union v (spsr SPSR_PAN) else v in
  let v := union v (Z.land old_spsr (spsr SPSR_DIT)) in
  let v := if present FEAT_MTE pfr1 b then union v (spsr SPSR_TCO) else v in
  let v := union v (Z.land old_spsr (spsr SPSR_NZCV)) in
  let v := if present FEAT_EBEP "id_aa64dfr1_el1" b then union v (spsr SPSR_PM) else v in
  if present FEAT_GCS pfr1 b then
    let gcscr_exlocken :=
      if at_el2 then contains (b "gcscr_el2") (bits_of "GcscrEl2::EXLOCKEN")
      else contains (b "gcscr_el1") (bits_of "GcscrEl1::EXLOCKEN") in
    if gcscr_exlocken then union v (spsr SPSR_EXLOCK) else v
  else v.

Definition inject_undef64 (world : World) : M Core unit :=
  s ← get;
  let st := el3_state (cpu_state s world) in
  let elr := elr_el3 st in
  let old_spsr := spsr_el3 st in
  wc ← world_context world;
  let to_el := target_el (sysregs s) (exception_level old_spsr) (scr_el3 wc) in
  if contains old_spsr (spsr SPSR_M_4) then crash
  else
    vbar ←
      match to_el with
      | El1 =>
          vbar ← read "vbar_el1";
          _ ← write "elr_el1" elr;
          _ ← write "esr_el1" (bits_of "EsrEl1::IL");
          _ ← write "spsr_el1" old_spsr;
          mret vbar
      | El2 =>
          vbar ← read "vbar_el2";
          _ ← write "elr_el2" elr;
          _ ← write "esr_el2" (bits_of "EsrEl2::IL");
          _ ← write "spsr_el2" old_spsr;
          mret vbar
      | El3 | El0 => crash
      end;
    s ← get;
    let st := set_spsr_el3 (create_spsr (sysregs s) old_spsr to_el) st in
    elr ← lift (find_exception_vector old_spsr vbar to_el);
    modify (update_context world (set_el3_state (set_elr_el3 elr st))).
End Context.
