(* ===== verification/Extensions.v ===== *)
(** * The CPU extensions

    [src/cpu_extensions/*.rs]: for each extension the test for its presence, what
    it sets up, and the registers it saves and restores when worlds are switched
    or a core is powered down.  [configure_per_world] and [configure_per_cpu] are
    given the registers of the core where they read an identification register.
    The vector registers are in [Simd.v]. *)

From Stdlib Require Import ZArith Lia.
From stdpp Require Import base list numbers option functions strings.
From S2P Require Import Prelude Smccc Services Context.
Open Scope rust_scope.
Open Scope string_scope.
Open Scope list_scope.
Open Scope Z_scope.

Section Extensions.
Context `{ArmSysregs} `{Features}.

(** The default methods of [CpuExtension]. *)
Definition no_init : M Core unit := mret tt.
Definition no_per_world (b : Bank) (world : World) (c : PerWorldContext) : PerWorldContext := c.
Definition no_per_cpu (world : World) (c : CpuContext) : CpuContext := c.
Definition no_context (world : World) : M Core unit := mret tt.

(** [self.context.get().borrow_mut(token)[world]] of the extension [name]: saving
    the registers of a list to it and restoring them from it. *)
Definition save_to (name : string) (world : World) (rs : list SysReg) (s : Core) : Core :=
  set_ext_contexts
    (<[name := <[world := copy rs (sysregs s) (ext_contexts s name world)]> (ext_contexts s name)]>
       (ext_contexts s)) s.
Definition restore_from (name : string) (world : World) (rs : list SysReg) (s : Core) : Core :=
  set_sysregs (copy rs (ext_contexts s name world) (sysregs s)) s.

(** An extension whose [save_context] and [restore_context] do so when it is
    present; the registers depend on identification registers. *)
Definition save_if (here : Bank → bool) (name : string) (rs : Bank → list SysReg) (world : World)
    : M Core unit :=
  modify (λ s, if here (sysregs s) then save_to name world (rs (sysregs s)) s else s).
Definition restore_if (here : Bank → bool) (name : string) (rs : Bank → list SysReg) (world : World)
    : M Core unit :=
  modify (λ s, if here (sysregs s) then restore_from name world (rs (sysregs s)) s else s).

(** ** [fgt.rs] *)
Definition fgt_save_list (b : Bank) : list SysReg :=
  (if present FEAT_AMUv1 "id_aa64pfr0_el1" b then ["hafgrtr_el2"] else []) ++
  ["hdfgrtr_el2"; "hdfgwtr_el2"; "hfgitr_el2"; "hfgrtr_el2"; "hfgwtr_el2"].
Definition fgt_restore_list (b : Bank) : list SysReg :=
  (if present FEAT_AMUv1 "id_aa64pfr0_el1" b then ["hafgrtr_el2"] else []) ++
  ["hdfgrtr_el2"; "hdfgwtr_el2"; "hfgitr_el2"; "hfgrtr_el2"; "hfgwtr_el2"].
Definition fgt_is_present (b : Bank) : bool := true.
Definition Fgt : CpuExtension :=
  mkCpuExtension fgt_is_present no_init no_per_world no_per_cpu
    (save_if fgt_is_present "FGT" fgt_save_list) (restore_if fgt_is_present "FGT" fgt_restore_list)
    no_init no_init.
(** [FgtCpuContext::INIT_VAL] *)
Definition HFGITR_EL2_INIT_VAL : Z :=
  union (bits_of "HfgitrEl2::NBRBINJ") (bits_of "HfgitrEl2::NBRBIALL").
Definition HFGRTR_EL2_INIT_VAL : Z :=
  union (union (bits_of "HfgrtrEl2::NACCDATA_EL1") (bits_of "HfgrtrEl2::NSMPRI_EL1"))
    (bits_of "HfgrtrEl2::NTPIDR2_EL0").
Definition HFGWTR_EL2_INIT_VAL : Z :=
  union (union (bits_of "HfgwtrEl2::NACCDATA_EL1") (bits_of "HfgwtrEl2::NSMPRI_EL1"))
    (bits_of "HfgwtrEl2::NTPIDR2_EL0").
Definition FgtCpuContext_INIT_VAL : Bank :=
  <["hfgitr_el2" := HFGITR_EL2_INIT_VAL]> (<["hfgrtr_el2" := HFGRTR_EL2_INIT_VAL]>
    (<["hfgwtr_el2" := HFGWTR_EL2_INIT_VAL]> (λ _, 0))).

(** ** [fgt2.rs] *)
Definition fgt2_save_list (b : Bank) : list SysReg :=
  ["hfgitr2_el2"; "hfgrtr2_el2"; "hfgwtr2_el2"; "hdfgrtr2_el2"; "hdfgwtr2_el2"].
Definition fgt2_restore_list (b : Bank) : list SysReg :=
  ["hfgitr2_el2"; "hfgrtr2_el2"; "hfgwtr2_el2"; "hdfgrtr2_el2"; "hdfgwtr2_el2"].
Definition fgt2_is_present : Bank → bool := present FEAT_FGT2 "id_aa64mmfr0_el1".
Definition fgt2_configure_per_world (b : Bank) (world : World) (c : PerWorldContext)
    : PerWorldContext :=
  update_scr_el3 (λ v, union v (scr SCR_FGTEN2)) c.
Definition Fgt2 : CpuExtension :=
  mkCpuExtension fgt2_is_present no_init fgt2_configure_per_world no_per_cpu
    (save_if fgt2_is_present "FGT2" fgt2_save_list)
    (restore_if fgt2_is_present "FGT2" fgt2_restore_list) no_init no_init.

(** ** [hcx.rs] and [hcx/hcx_sel2.rs] *)
Definition hcx_save_list (b : Bank) : list SysReg := if sel2 then ["hcrx_el2"] else [].
Definition hcx_restore_list (b : Bank) : list SysReg := if sel2 then ["hcrx_el2"] else [].
Definition hcx_is_present : Bank → bool := present FEAT_HCX "id_aa64mmfr1_el1".
Definition hcx_init : M Core unit := write "hcrx_el2" 0.
Definition hcx_configure_per_world (b : Bank) (world : World) (c : PerWorldContext)
    : PerWorldContext :=
  update_scr_el3 (λ v, union v (scr SCR_HXEN)) c.
Definition Hcx : CpuExtension :=
  mkCpuExtension hcx_is_present hcx_init hcx_configure_per_world no_per_cpu
    (save_if hcx_is_present "HCX" hcx_save_list)
    (restore_if hcx_is_present "HCX" hcx_restore_list) no_init no_init.

(** ** [mpam.rs] and [mpam/mpam_sel2.rs] *)
Definition mpam_save_list (b : Bank) : list SysReg :=
  if sel2 then
    let mpamidr_el1 := b "mpamidr_el1" in
    ["mpam2_el2"] ++
    if negb (contains mpamidr_el1 (bits_of "MpamidrEl1::HAS_HCR")) then []
    else
      let n := vpmr_max mpamidr_el1 in
      ["mpamhcr_el2"; "mpamvpmv_el2"; "mpamvpm0_el2"] ++
      (if n =? 7 then ["mpamvpm7_el2"] else []) ++
      (if 6 <=? n then ["mpamvpm6_el2"] else []) ++
      (if 5 <=? n then ["mpamvpm5_el2"] else []) ++
      (if 4 <=? n then ["mpamvpm4_el2"] else []) ++
      (if 3 <=? n then ["mpamvpm3_el2"] else []) ++
      (if 2 <=? n then ["mpamvpm2_el2"] else []) ++
      (if 1 <=? n then ["mpamvpm1_el2"] else [])
  else [].
Definition mpam_restore_list (b : Bank) : list SysReg :=
  if sel2 then
    let mpamidr_el1 := b "mpamidr_el1" in
    ["mpam2_el2"] ++
    if negb (contains mpamidr_el1 (bits_of "MpamidrEl1::HAS_HCR")) then []
    else
      let n := vpmr_max mpamidr_el1 in
      ["mpamhcr_el2"; "mpamvpmv_el2"; "mpamvpm0_el2"] ++
      (if n =? 7 then ["mpamvpm7_el2"] else []) ++
      (if 6 <=? n then ["mpamvpm6_el2"] else []) ++
      (if 5 <=? n then ["mpamvpm5_el2"] else []) ++
      (if 4 <=? n then ["mpamvpm4_el2"] else []) ++
      (if 3 <=? n then ["mpamvpm3_el2"] else []) ++
      (if 2 <=? n then ["mpamvpm2_el2"] else []) ++
      (if 1 <=? n then ["mpamvpm1_el2"] else [])
  else [].
Definition mpam_configure_per_world (b : Bank) (world : World) (c : PerWorldContext)
    : PerWorldContext :=
  if decide (world ≠ Secure) then set_mpam3_el3 (bits_of "Mpam3El3::MPAMEN") c else c.
Definition Mpam : CpuExtension :=
  mkCpuExtension mpam_is_present no_init mpam_configure_per_world no_per_cpu
    (save_if mpam_is_present "MPAM" mpam_save_list)
    (restore_if mpam_is_present "MPAM" mpam_restore_list) no_init no_init.

(** ** [mte2.rs], [mte2/mte2_sel2.rs] and [mte2/mte2_sel1.rs] *)
Definition mte2_save_list (b : Bank) : list SysReg :=
  if sel2 then ["tfsr_el2"] else ["tfsre0_el1"; "tfsr_el1"; "rgsr_el1"; "gcr_el1"].
Definition mte2_restore_list (b : Bank) : list SysReg :=
  if sel2 then ["tfsr_el2"] else ["tfsre0_el1"; "tfsr_el1"; "rgsr_el1"; "gcr_el1"].
Definition mte2_is_present : Bank → bool := present FEAT_MTE2 "id_aa64pfr1_el1".
Definition mte2_configure_per_world (b : Bank) (world : World) (c : PerWorldContext)
    : PerWorldContext :=
  if decide (world = NonSecure ∨ world = Secure) then update_scr_el3 (λ v, union v (scr SCR_ATA)) c
  else c.
Definition MemoryTagging : CpuExtension :=
  mkCpuExtension mte2_is_present no_init mte2_configure_per_world no_per_cpu
    (save_if mte2_is_present "MEMORY_TAGGING" mte2_save_list)
    (restore_if mte2_is_present "MEMORY_TAGGING" mte2_restore_list) no_init no_init.

(** ** [ras.rs], [ras/ras_sel2.rs] and [ras/ras_sel1.rs] *)
Definition ras_save_list (b : Bank) : list SysReg :=
  if sel2 then ["vdisr_el2"; "vsesr_el2"] else ["disr_el1"].
Definition ras_restore_list (b : Bank) : list SysReg :=
  if sel2 then ["vdisr_el2"; "vsesr_el2"] else ["disr_el1"].
Definition ras_is_present (b : Bank) : bool := true.
Definition Ras : CpuExtension :=
  mkCpuExtension ras_is_present no_init no_per_world no_per_cpu
    (save_if ras_is_present "RAS" ras_save_list)
    (restore_if ras_is_present "RAS" ras_restore_list) no_init no_init.

(** ** [sctlr2.rs], [sctlr2/sctlr2_sel2.rs] and [sctlr2/sctlr2_sel1.rs] *)
Definition sctlr2_save_list (b : Bank) : list SysReg :=
  if sel2 then ["sctlr2_el2"] else ["sctlr2_el1"].
Definition sctlr2_restore_list (b : Bank) : list SysReg :=
  if sel2 then ["sctlr2_el2"] else ["sctlr2_el1"].
Definition sctlr2_is_present : Bank → bool := present FEAT_SCTLR2 "id_aa64mmfr3_el1".
Definition sctlr2_configure_per_world (b : Bank) (world : World) (c : PerWorldContext)
    : PerWorldContext :=
  update_scr_el3 (λ v, union v (scr SCR_SCTLR2EN)) c.
Definition Sctlr2 : CpuExtension :=
  mkCpuExtension sctlr2_is_present no_init sctlr2_configure_per_world no_per_cpu
    (save_if sctlr2_is_present "SCTLR2" sctlr2_save_list)
    (restore_if sctlr2_is_present "SCTLR2" sctlr2_restore_list) no_init no_init.

(** ** [tcr2.rs], [tcr2/tcr2_sel2.rs] and [tcr2/tcr2_sel1.rs] *)
Definition tcr2_save_list (b : Bank) : list SysReg := if sel2 then ["tcr2_el2"] else ["tcr2_el1"].
Definition tcr2_restore_list (b : Bank) : list SysReg := if sel2 then ["tcr2_el2"] else ["tcr2_el1"].
Definition tcr2_is_present : Bank → bool := present FEAT_TCR2 "id_aa64mmfr3_el1".
Definition tcr2_configure_per_world (b : Bank) (world : World) (c : PerWorldContext)
    : PerWorldContext :=
  update_scr_el3 (λ v, union v (scr SCR_TCR2EN)) c.
Definition Tcr2 : CpuExtension :=
  mkCpuExtension tcr2_is_present no_init tcr2_configure_per_world no_per_cpu
    (save_if tcr2_is_present "TCR2" tcr2_save_list)
    (restore_if tcr2_is_present "TCR2" tcr2_restore_list) no_init no_init.

(** ** [pmuv3.rs], [trf.rs], [spe.rs], [sys_reg_trace.rs] and [trbe.rs] *)
Definition mtpmu_configure_per_cpu (world : World) (c : CpuContext) : CpuContext :=
  update_mdcr_el3 (λ v, union v (mdcr MDCR_MTPME)) c.
Definition MultiThreadedPmu : CpuExtension :=
  mkCpuExtension (present FEAT_MTPMU "id_aa64dfr0_el1") no_init no_per_world mtpmu_configure_per_cpu
    no_context no_context no_init no_init.

Definition trf_configure_per_cpu (world : World) (c : CpuContext) : CpuContext :=
  update_mdcr_el3 (λ v, minus v (mdcr MDCR_TTRF)) c.
Definition TraceFiltering : CpuExtension :=
  mkCpuExtension (present FEAT_TRF "id_aa64dfr0_el1") no_init no_per_world trf_configure_per_cpu
    no_context no_context no_init no_init.

Definition spe_configure_per_cpu (world : World) (c : CpuContext) : CpuContext :=
  if decide (world = NonSecure) then
    let c := update_mdcr_el3 (λ v, union v
      (union (union (mdcr MDCR_NSPB_NS) (mdcr MDCR_ENPMSN)) (mdcr MDCR_ENPMS3))) c in
    update_mdcr_el3 (λ v, minus v (mdcr MDCR_NSPBE)) c
  else c.
Definition StatisticalProfiling : CpuExtension :=
  mkCpuExtension (present FEAT_SPE "id_aa64dfr0_el1") no_init no_per_world spe_configure_per_cpu
    no_context no_context no_init no_init.

Definition sys_reg_trace_configure_per_world (b : Bank) (world : World) (c : PerWorldContext)
    : PerWorldContext :=
  if decide (world = NonSecure) then set_cptr_el3 (minus (cptr_el3 c) (cptr CPTR_TTA)) c else c.
Definition SysRegTrace : CpuExtension :=
  mkCpuExtension (present FEAT_SYS_REG_TRACE "id_aa64dfr0_el1") no_init
    sys_reg_trace_configure_per_world no_per_cpu no_context no_context no_init no_init.

Definition trbe_enable_ns (c : CpuContext) : CpuContext :=
  let c := update_mdcr_el3 (λ v, union v (union (mdcr MDCR_NSTB_EN) (mdcr MDCR_NSTB_SS))) c in
  update_mdcr_el3 (λ v, minus v (mdcr MDCR_NSTBE)) c.
Definition trbe_disable (world : World) (c : CpuContext) : CpuContext :=
  let c := update_mdcr_el3 (λ v, minus v (union (mdcr MDCR_NSTB_EN) (mdcr MDCR_NSTBE))) c in
  if decide (world = NonSecure) then update_mdcr_el3 (λ v, minus v (mdcr MDCR_NSTB_SS)) c
  else update_mdcr_el3 (λ v, union v (mdcr MDCR_NSTB_SS)) c.
Definition trbe_configure_per_cpu (world : World) (c : CpuContext) : CpuContext :=
  if decide (world = NonSecure) then trbe_enable_ns c else trbe_disable world c.
Definition TraceBufferNonSecure : CpuExtension :=
  mkCpuExtension (present FEAT_TRBE "id_aa64dfr0_el1") no_init no_per_world trbe_configure_per_cpu
    no_context no_context no_init no_init.

(** ** [amu.rs] *)
Definition amu_group0 : list SysReg :=
  ["amevcntr00_el0"; "amevcntr01_el0"; "amevcntr02_el0"; "amevcntr03_el0"].
Definition amu_group1 : list SysReg :=
  ["amevcntr10_el0"; "amevcntr11_el0"; "amevcntr12_el0"; "amevcntr13_el0"; "amevcntr14_el0";
   "amevcntr15_el0"; "amevcntr16_el0"; "amevcntr17_el0"; "amevcntr18_el0"; "amevcntr19_el0";
   "amevcntr110_el0"; "amevcntr111_el0"; "amevcntr112_el0"; "amevcntr113_el0"; "amevcntr114_el0";
   "amevcntr115_el0"].
(** The counters with [n_group1 > i]. *)
Definition amu_counters (n_group1 : Z) : list SysReg :=
  amu_group0 ++ take (Z.to_nat n_group1) amu_group1.
Definition amu_save (b ctx : Bank) : Bank :=
  let ctx := copy ["amcr_el0"; "amuserenr_el0"] b ctx in
  copy (amu_counters (cg1nc (b "amcgcr_el0"))) b ctx.
Definition amu_restore (ctx b : Bank) : Bank :=
  let b := <["amcr_el0" := 0]> b in
  let b := copy (amu_counters (cg1nc (b "amcgcr_el0"))) ctx b in
  copy ["amuserenr_el0"; "amcr_el0"] ctx b.
Definition amu_is_present : Bank → bool := present FEAT_AMUv1 "id_aa64pfr0_el1".
Definition amu_save_context_before_suspend_to_powerdown : M Core unit :=
  modify (λ s, if amu_is_present (sysregs s) then
                 set_amu_context (amu_save (sysregs s) (amu_context s)) s else s).
Definition amu_restore_context_after_suspend_to_powerdown : M Core unit :=
  modify (λ s, if amu_is_present (sysregs s) then
                 set_sysregs (amu_restore (amu_context s) (sysregs s)) s else s).
Definition Amu : CpuExtension :=
  mkCpuExtension amu_is_present no_init no_per_world no_per_cpu no_context no_context
    amu_save_context_before_suspend_to_powerdown amu_restore_context_after_suspend_to_powerdown.
End Extensions.
