(* ===== verification/Simd.v ===== *)
(** * The vector registers

    [src/cpu_extensions/simd.rs] and [src/cpu_extensions/simd/simd_sel1.rs]: the
    SIMD, SVE and SME extensions.  Without [sel2] EL3 saves and restores the vector
    registers: the scalable ones of the Normal World where SVE is present, the
    128-bit ones of the other worlds.  A register [z<i>] holds the whole vector, [q<i>]
    is its low 128 bits.  The vector length is the same when a context is saved
    and when it is restored, since [SVCR] is restored first, so that a vector is
    one value here. *)

From Stdlib Require Import ZArith Lia.
From stdpp Require Import base list numbers option functions strings.
From S2P Require Import Prelude Smccc Services Context Extensions.
Open Scope rust_scope.
Open Scope string_scope.
Open Scope list_scope.
Open Scope Z_scope.

Definition FP_NOT_SUPPORTED : Z := 0xf.
Definition ADVSIMD_NOT_SUPPORTED : Z := 0xf.

(** The registers [z0] to [z31], [q0] to [q31] and [p0] to [p15]. *)
Definition z_regs : list SysReg :=
  ["z0"; "z1"; "z2"; "z3"; "z4"; "z5"; "z6"; "z7"; "z8"; "z9"; "z10"; "z11"; "z12"; "z13"; "z14";
   "z15"; "z16"; "z17"; "z18"; "z19"; "z20"; "z21"; "z22"; "z23"; "z24"; "z25"; "z26"; "z27";
   "z28"; "z29"; "z30"; "z31"].
Definition p_regs : list SysReg :=
  ["p0"; "p1"; "p2"; "p3"; "p4"; "p5"; "p6"; "p7"; "p8"; "p9"; "p10"; "p11"; "p12"; "p13"; "p14";
   "p15"].

Section Simd.
Context `{ArmSysregs} `{Features}.

(** ** The architecture *)

(** [stp q<i>] stores the low 128 bits of [z<i>]; [ldp q<i>] clears the others. *)
Definition store_q (b ctx : Bank) : Bank :=
  foldl (λ c r, <[r := b r mod 2 ^ 128]> c) ctx z_regs.
Definition load_q (ctx b : Bank) : Bank := copy z_regs ctx b.

(** Entering or leaving streaming mode clears the vector and predicate registers
    and resets [FPSR]. *)
Definition reset_sve_state (b : Bank) : Bank :=
  <["fpsr" := 0x0800009f]> (<["ffr" := 0]> (copy (z_regs ++ p_regs) (λ _, 0) b)).
Definition is_streaming (svcr : Z) : bool := contains svcr (bits_of "Svcr::SM").
Definition write_svcr (v : Z) (b : Bank) : Bank :=
  let b := if eqb (is_streaming (b "svcr")) (is_streaming v) then b else reset_sve_state b in
  <["svcr" := v]> b.

(** ** [SimdCpuContext] *)
Definition simd_save (b ctx : Bank) : Bank := copy ["fpsr"; "fpcr"] b (store_q b ctx).
Definition simd_restore (ctx b : Bank) : Bank := copy ["fpsr"; "fpcr"] ctx (load_q ctx b).

(** ** [SveCpuContext] *)
Definition should_save_restore_ffr (has_sme : bool) (ctx b : Bank) : bool :=
  negb (has_sme && (is_streaming (ctx "svcr") &&
                    negb (contains (b "id_aa64smfr0_el1") (bits_of "IdAa64smfr0El1::FA64")))).

(** [rdffr p0.b; str p0, [dest]] and [ldr p0, [src]; wrffr p0.b], on the registers
    and the context. *)
Definition save_ffr (s : Bank * Bank) : Bank * Bank :=
  let b := <["p0" := s.1 "ffr"]> s.1 in
  (b, <["ffr" := b "p0"]> s.2).
Definition restore_ffr (ctx b : Bank) : Bank :=
  let b := <["p0" := ctx "ffr"]> b in
  <["ffr" := b "p0"]> b.

(** The registers, some of which saving changes, and the context. *)
Definition sve_save (has_sme : bool) (s : Bank * Bank) : Bank * Bank :=
  let s := (s.1, copy p_regs s.1 s.2) in
  let s := if has_sme then (s.1, copy ["svcr"] s.1 s.2) else s in
  let s := if should_save_restore_ffr has_sme s.2 s.1 then save_ffr s else s in
  let s := (s.1, copy z_regs s.1 s.2) in
  (s.1, copy ["fpsr"; "fpcr"] s.1 s.2).
Definition sve_restore (has_sme : bool) (ctx b : Bank) : Bank :=
  let b := if has_sme then write_svcr (ctx "svcr") b else b in
  let b := if should_save_restore_ffr has_sme ctx b then restore_ffr ctx b else b in
  let b := copy p_regs ctx b in
  let b := copy z_regs ctx b in
  copy ["fpsr"; "fpcr"] ctx b.

(** ** The extensions *)
Definition needs_sve_sme (world : World) : bool :=
  match world with
  | NonSecure => true
  | Secure => sel2
  | Realm => true
  end.

(** [Simd]: the vector lengths of SVE and SME where they are enabled. *)
Record SimdConfig : Type := mkSimdConfig { sve : option Z; sme : option Z }.

Definition valid_vector_length (n : Z) : bool :=
  (n mod 128 =? 0) && ((128 <=? n) && (n <=? 2048)).
Definition sve_new (vector_length : Z) : outcome Z :=
  _ ← assert_ (valid_vector_length vector_length); mret vector_length.
Definition sme_new (vector_length : Z) : outcome Z :=
  _ ← assert_ (valid_vector_length vector_length); mret vector_length.
Definition simd_simd : SimdConfig := mkSimdConfig None None.
Definition simd_sve (vector_length : Z) (enable_sme : bool) : outcome SimdConfig :=
  v ← sve_new vector_length;
  if enable_sme then m ← sme_new vector_length; mret (mkSimdConfig (Some v) (Some m))
  else mret (mkSimdConfig (Some v) None).

Definition sve_is_present : Bank → bool := present FEAT_SVE "id_aa64pfr0_el1".
Definition sme_is_present : Bank → bool := present FEAT_SME "id_aa64pfr1_el1".

Definition sve_init (vector_length : Z) : M Core unit :=
  cptr_el3 ← read "cptr_el3";
  _ ← write "cptr_el3" (minus (union cptr_el3 (cptr CPTR_EZ)) (cptr CPTR_TFP));
  _ ← write "zcr_el3" (vector_length / 128 - 1);
  write "cptr_el3" cptr_el3.

Definition sme_init (vector_length : Z) : M Core unit :=
  cptr_el3 ← read "cptr_el3";
  _ ← write "cptr_el3" (union cptr_el3 (cptr CPTR_ESM));
  let v := from_ssve_vector_len vector_length in
  smfr0 ← read "id_aa64smfr0_el1";
  let v :=
    if contains smfr0 (bits_of "IdAa64smfr0El1::FA64") then union v (bits_of "SmcrEl3::FA64") else v in
  s ← get;
  let v :=
    if present FEAT_SME2 "id_aa64pfr1_el1" (sysregs s) then union v (bits_of "SmcrEl3::EZT0") else v in
  _ ← write "smcr_el3" v;
  write "cptr_el3" cptr_el3.

Definition sve_configure_per_world (world : World) (c : PerWorldContext) : PerWorldContext :=
  if needs_sve_sme world then set_cptr_el3 (union (cptr_el3 c) (cptr CPTR_EZ)) c else c.
Definition sme_configure_per_world (world : World) (c : PerWorldContext) : PerWorldContext :=
  if needs_sve_sme world then
    let c := set_cptr_el3 (union (cptr_el3 c) (cptr CPTR_ESM)) c in
    update_scr_el3 (λ v, union v (scr SCR_ENTP2)) c
  else c.

Section Extension.
Context (self : SimdConfig).

Definition has_sve (b : Bank) : bool := bool_decide (is_Some (sve self)) && sve_is_present b.
Definition has_sme (b : Bank) : bool := bool_decide (is_Some (sme self)) && sme_is_present b.

Definition simd_is_present (b : Bank) : bool :=
  let v := b "id_aa64pfr0_el1" in
  negb (pfr0_fp v =? FP_NOT_SUPPORTED) && negb (pfr0_advsimd v =? ADVSIMD_NOT_SUPPORTED).

Definition simd_init : M Core unit :=
  s ← get;
  _ ← match sve self with
      | Some n => if sve_is_present (sysregs s) then sve_init n else mret tt
      | None => mret tt
      end;
  s ← get;
  match sme self with
  | Some n => if sme_is_present (sysregs s) then sme_init n else mret tt
  | None => mret tt
  end.

Definition simd_configure_per_world (b : Bank) (world : World) (c : PerWorldContext)
    : PerWorldContext :=
  let c := set_cptr_el3 (minus (cptr_el3 c) (cptr CPTR_TFP)) c in
  let c := if has_sve b then sve_configure_per_world world c else c in
  if has_sme b then sme_configure_per_world world c else c.

(** [sve.ns_context] is the context ["SVE"] of the Normal World. *)
Definition set_ext_context (name : string) (world : World) (v : Bank) (s : Core) : Core :=
  set_ext_contexts (<[name := <[world := v]> (ext_contexts s name)]> (ext_contexts s)) s.

Definition simd_save_context (world : World) : M Core unit :=
  if sel2 then mret tt
  else
    cptr_el3 ← read "cptr_el3";
    _ ← write "cptr_el3" (union (union (minus cptr_el3 (cptr CPTR_TFP)) (cptr CPTR_EZ)) (cptr CPTR_ESM));
    _ ← modify (λ s,
          if bool_decide (world = NonSecure) && has_sve (sysregs s) then
            let r := sve_save (has_sme (sysregs s)) (sysregs s, ext_contexts s "SVE" NonSecure) in
            set_ext_context "SVE" NonSecure r.2 (set_sysregs r.1 s)
          else
            set_ext_context "SIMD" world (simd_save (sysregs s) (ext_contexts s "SIMD" world)) s);
    write "cptr_el3" cptr_el3.

Definition simd_restore_context (world : World) : M Core unit :=
  if sel2 then mret tt
  else
    cptr_el3 ← read "cptr_el3";
    _ ← write "cptr_el3" (union (union (minus cptr_el3 (cptr CPTR_TFP)) (cptr CPTR_EZ)) (cptr CPTR_ESM));
    _ ← modify (λ s,
          if bool_decide (world = NonSecure) && has_sve (sysregs s) then
            set_sysregs (sve_restore (has_sme (sysregs s)) (ext_contexts s "SVE" NonSecure) (sysregs s)) s
          else
            set_sysregs (simd_restore (ext_contexts s "SIMD" world) (sysregs s)) s);
    write "cptr_el3" cptr_el3.

Definition Simd : CpuExtension :=
  mkCpuExtension simd_is_present simd_init simd_configure_per_world no_per_cpu
    simd_save_context simd_restore_context no_init no_init.
End Extension.

(** ** The extensions of the platforms *)
Definition fvp_cpu_extensions : list CpuExtension :=
  [Amu; Fgt; Fgt2; Hcx; MemoryTagging; Mpam; MultiThreadedPmu; Ras; Sctlr2; Simd simd_simd;
   StatisticalProfiling; SysRegTrace; Tcr2; TraceBufferNonSecure; TraceFiltering].
(** [Simd::sve(512, false)] *)
Definition qemu_simd : outcome SimdConfig := simd_sve 512 false.
Definition qemu_cpu_extensions : outcome (list CpuExtension) :=
  c ← qemu_simd; mret [Simd c].
End Simd.
