(* ===== verification/ContextProofs.v ===== *)
(** * Lemmas on CPU contexts

    What a CPU extension promises to the switch of worlds ([ext_spec]), and the
    switch of worlds against it: the registers of the world that is left are
    saved, those of the next one are restored, and nothing else changes. *)

From Stdlib Require Import ZArith Lia.
From stdpp Require Import base list numbers option functions strings sets.
From S2P Require Import Prelude Smccc Services Context Extensions Simd.
Open Scope rust_scope.
Open Scope string_scope.
Open Scope list_scope.
Open Scope Z_scope.

(** Membership in lists of names, and the like, by computation. *)
Ltac by_names := apply (bool_decide_unpack _); vm_compute; exact I.

(** ** Banks of registers *)
Lemma copy_cons r rs src dst : copy (r :: rs) src dst = copy rs src (<[r := src r]> dst).
Proof. done. Qed.

Lemma copy_lookup rs (src dst : Bank) r :
  copy rs src dst r = if decide (r ∈ rs) then src r else dst r.
Proof.
  revert dst. induction rs as [|x rs IH]; intros dst; [done|]. rewrite copy_cons, IH.
  destruct (decide (r ∈ rs)) as [Hr|Hr].
  - rewrite decide_True; [done|]. apply elem_of_cons. by right.
  - destruct (decide (r = x)) as [->|Hne].
    + rewrite decide_True by (apply elem_of_cons; by left). apply fn_lookup_insert.
    + rewrite decide_False by (rewrite elem_of_cons; tauto). by apply fn_lookup_insert_ne.
Qed.

Lemma copy_in rs (src dst : Bank) r : r ∈ rs → copy rs src dst r = src r.
Proof. intros Hr. by rewrite copy_lookup, decide_True. Qed.
Lemma copy_out rs (src dst : Bank) r : r ∉ rs → copy rs src dst r = dst r.
Proof. intros Hr. by rewrite copy_lookup, decide_False. Qed.

Lemma copy_app rs rs' (src dst : Bank) : copy (rs ++ rs') src dst = copy rs' src (copy rs src dst).
Proof. apply foldl_app. Qed.

(** The registers the presence of extensions and the registers they save depend
    on.  EL3 never writes them. *)
Definition ID_REGS : list SysReg :=
  ["id_aa64mmfr0_el1"; "id_aa64mmfr1_el1"; "id_aa64mmfr3_el1"; "id_aa64pfr0_el1"; "id_aa64pfr1_el1";
   "id_aa64dfr0_el1"; "id_aa64smfr0_el1"; "mpamidr_el1"; "amcgcr_el0"].
Definition same_id (b b' : Bank) : Prop := ∀ r, r ∈ ID_REGS → b r = b' r.

Global Instance same_id_equiv : Equivalence same_id.
Proof.
  split; [done| |].
  - intros b b' Hb r Hr. symmetry. by apply Hb.
  - intros b1 b2 b3 H1 H2 r Hr. rewrite (H1 r Hr). by apply H2.
Qed.

(** Registers of EL3 that are written by a switch of worlds. *)
Definition EL3_REGS : list SysReg := ["cptr_el3"; "mpam3_el3"; "scr_el3"].

Section Specs.
Context `{ArmSysregs} `{Features}.

(** ** What an extension promises

    [x_regs] are the registers the extension saves in its context [x_name] and
    restores from it, which only depend on identification registers; [x_all] has
    all of them.  It uses the contexts [x_names] and may overwrite the registers
    [x_scratch]. *)
Record ExtInfo : Type := mkExtInfo {
  x_ext : CpuExtension;
  x_name : string;
  x_names : list string;
  x_regs : Bank → list SysReg;
  x_all : list SysReg;
  x_scratch : list SysReg;
}.

(** What is left alone by an operation of an extension. *)
Definition same_cpu (s s' : Core) : Prop :=
  cpu_state s' = cpu_state s ∧ PER_WORLD_CONTEXT s' = PER_WORLD_CONTEXT s.

Definition saved (names : list string) (name : string) (regs scratch : list SysReg) (w : World)
    (s s' : Core) : Prop :=
  same_cpu s s' ∧
  (∀ r, r ∉ scratch → sysregs s' r = sysregs s r) ∧
  (∀ r, r ∈ regs → ext_contexts s' name w r = sysregs s r) ∧
  (∀ n w' r, n ∉ names ∨ w' ≠ w → ext_contexts s' n w' r = ext_contexts s n w' r).

Definition restored (name : string) (regs scratch : list SysReg) (w : World) (s s' : Core) : Prop :=
  same_cpu s s' ∧ ext_contexts s' = ext_contexts s ∧
  (∀ r, r ∈ regs → sysregs s' r = ext_contexts s name w r) ∧
  (∀ r, r ∉ scratch → r ∉ regs → sysregs s' r = sysregs s r).

Record ext_spec (x : ExtInfo) : Prop := mkExtSpec {
  spec_name : x_name x ∈ x_names x;
  spec_all b r : r ∈ x_regs x b → r ∈ x_all x;
  spec_stable b b' : same_id b b' → x_regs x b = x_regs x b';
  spec_save w s : ∃ s', save_context (x_ext x) w s = Ret tt s' ∧
    saved (x_names x) (x_name x) (x_regs x (sysregs s)) (x_scratch x) w s s';
  spec_restore w s : ∃ s', restore_context (x_ext x) w s = Ret tt s' ∧
    restored (x_name x) (x_regs x (sysregs s)) (x_scratch x) w s s';
}.

(** An extension built with [save_if] and [restore_if]. *)
Definition bank_info (ext : CpuExtension) (here : Bank → bool) (name : string)
    (rs : Bank → list SysReg) (all : list SysReg) : ExtInfo :=
  mkExtInfo ext name [name] (λ b, if here b then rs b else []) all [].

Lemma save_if_saved here name save_rs rs w s :
  (∀ b r, r ∈ rs b ↔ r ∈ save_rs b) →
  ∃ s', save_if here name save_rs w s = Ret tt s' ∧
    saved [name] name (if here (sysregs s) then rs (sysregs s) else []) [] w s s'.
Proof.
  intros Hrs. eexists. split; [reflexivity|]. destruct (here (sysregs s)).
  - split; [done|]. split; [done|]. split.
    + intros r Hr. simpl. rewrite fn_lookup_insert, fn_lookup_insert. by apply copy_in, Hrs.
    + intros n w' r Hn. simpl. destruct (decide (n = name)) as [->|Hne].
      * rewrite fn_lookup_insert, fn_lookup_insert_ne; [done|]. destruct Hn as [Hn|Hn]; [|done].
        by rewrite list_elem_of_singleton in Hn.
      * by rewrite fn_lookup_insert_ne.
  - split; [done|]. split; [done|]. split; [|done]. intros r Hr. by apply not_elem_of_nil in Hr.
Qed.

Lemma restore_if_restored here name restore_rs rs w s :
  (∀ b r, r ∈ rs b ↔ r ∈ restore_rs b) →
  ∃ s', restore_if here name restore_rs w s = Ret tt s' ∧
    restored name (if here (sysregs s) then rs (sysregs s) else []) [] w s s'.
Proof.
  intros Hrs. eexists. split; [reflexivity|]. destruct (here (sysregs s)).
  - split; [done|]. split; [done|]. split; intros r; simpl.
    + intros Hr. by apply copy_in, Hrs.
    + intros _ Hr. apply copy_out. by rewrite <-Hrs.
  - split; [done|]. split; [done|]. split; [|done]. intros r Hr. by apply not_elem_of_nil in Hr.
Qed.

(** An extension that neither saves nor restores registers. *)
Definition plain_info (ext : CpuExtension) (name : string) : ExtInfo :=
  mkExtInfo ext name [name] (λ _, []) [] [].

Lemma plain_spec ext name :
  (∀ w s, save_context ext w s = Ret tt s) → (∀ w s, restore_context ext w s = Ret tt s) →
  ext_spec (plain_info ext name).
Proof.
  intros Hs Hr. split; try done.
  - apply elem_of_cons. by left.
  - intros w s. exists s. split; [apply Hs|]. split; [done|]. split; [done|]. split; [|done].
    intros r Hin. by apply not_elem_of_nil in Hin.
  - intros w s. exists s. split; [apply Hr|]. split; [done|]. split; [done|]. split; [|done].
    intros r Hin. by apply not_elem_of_nil in Hin.
Qed.
(** ** The extensions of a platform *)
Lemma elem_of_scratch (l : list ExtInfo) x r :
  x ∈ l → r ∈ x_scratch x → r ∈ (l ≫= x_scratch).
Proof. intros. apply list_elem_of_bind. eauto. Qed.
Lemma elem_of_all (l : list ExtInfo) x r : x ∈ l → r ∈ x_all x → r ∈ (l ≫= x_all).
Proof. intros. apply list_elem_of_bind. eauto. Qed.
Lemma elem_of_names (l : list ExtInfo) x n : x ∈ l → n ∈ x_names x → n ∈ (l ≫= x_names).
Proof. intros. apply list_elem_of_bind. eauto. Qed.

(** Registers that no extension uses as scratch registers: those it saves, and
    the identification registers. *)
Definition scratch_ok (l : list ExtInfo) : Prop :=
  ∀ r, r ∈ (l ≫= x_scratch) → (r ∉ (l ≫= x_all)) ∧ (r ∉ ID_REGS).

Definition all_saved (l : list ExtInfo) (w : World) (s s' : Core) : Prop :=
  same_cpu s s' ∧
  (∀ r, r ∉ (l ≫= x_scratch) → sysregs s' r = sysregs s r) ∧
  (∀ x r, x ∈ l → r ∈ x_regs x (sysregs s) → ext_contexts s' (x_name x) w r = sysregs s r) ∧
  (∀ n w' r, n ∉ (l ≫= x_names) ∨ w' ≠ w → ext_contexts s' n w' r = ext_contexts s n w' r).

Lemma save_loop l w s :
  Forall ext_spec l → NoDup (l ≫= x_names) → scratch_ok l →
  ∃ s', for_each (x_ext <$> l) (λ ext, save_context ext w) s = Ret tt s' ∧ all_saved l w s s'.
Proof.
  revert s. induction l as [|x l IH]; intros s Hspec Hnd Hscr.
  { exists s. split; [done|]. split; [done|]. split; [done|]. split; [|done].
    intros x r Hx. by apply not_elem_of_nil in Hx. }
  apply Forall_cons_iff in Hspec as [Hx Hl]. rewrite bind_cons in Hnd.
  apply NoDup_app in Hnd as (_ & Hdisj & Hnd).
  destruct (spec_save x Hx w s) as (s1 & Hs1 & [Hc1 Hp1] & Hr1 & Hsv1 & Hk1).
  destruct (IH s1 Hl Hnd) as (s2 & Hs2 & [Hc2 Hp2] & Hr2 & Hsv2 & Hk2).
  { intros r Hr. destruct (Hscr r) as [Ha Hi]; [rewrite bind_cons; set_solver|].
    rewrite bind_cons in Ha. set_solver. }
  exists s2. split; [cbn [for_each fmap list_fmap]; cbv [mbind M_bind]; by rewrite Hs1|].
  assert (Hid : same_id (sysregs s) (sysregs s1)).
  { intros r Hr. symmetry. apply Hr1. intros Hs. destruct (Hscr r) as [_ ?]; [|done].
    rewrite bind_cons. set_solver. }
  split; [split; congruence|]. split; [|split].
  - intros r Hr. rewrite bind_cons in Hr. rewrite Hr2, Hr1; set_solver.
  - intros y r Hy Hr. apply elem_of_cons in Hy as [->|Hy].
    + rewrite Hk2; [by apply Hsv1|]. left. apply Hdisj, (spec_name x Hx).
    + rewrite Hsv2; [|done|].
      * apply Hr1. intros Hs. destruct (Hscr r) as [Ha _]; [rewrite bind_cons; set_solver|].
        apply Ha. rewrite bind_cons. apply elem_of_app. right. apply (elem_of_all l y); [done|].
        eapply spec_all; [|done]. by eapply list.Forall_forall in Hl.
      * erewrite spec_stable; [done|by eapply list.Forall_forall in Hl|].
        by symmetry.
  - intros n w' r Hn. rewrite bind_cons in Hn. rewrite Hk2, Hk1; set_solver.
Qed.

Definition all_restored (l : list ExtInfo) (w : World) (s s' : Core) : Prop :=
  same_cpu s s' ∧ ext_contexts s' = ext_contexts s ∧
  (∀ x r, x ∈ l → r ∈ x_regs x (sysregs s) → sysregs s' r = ext_contexts s (x_name x) w r) ∧
  (∀ r, r ∉ (l ≫= x_scratch) → (∀ x, x ∈ l → r ∉ x_regs x (sysregs s)) →
     sysregs s' r = sysregs s r).

Lemma restore_loop l w s :
  Forall ext_spec l → NoDup (l ≫= x_all) → (∀ r, r ∈ (l ≫= x_all) → r ∉ ID_REGS) → scratch_ok l →
  ∃ s', for_each (x_ext <$> l) (λ ext, restore_context ext w) s = Ret tt s' ∧ all_restored l w s s'.
Proof.
  revert s. induction l as [|x l IH]; intros s Hspec Hnd Hids Hscr.
  { exists s. split; [done|]. split; [done|]. split; [done|]. split; [|done].
    intros x r Hx. by apply not_elem_of_nil in Hx. }
  apply Forall_cons_iff in Hspec as [Hx Hl]. rewrite bind_cons in Hnd, Hids.
  assert (Hsc : ∀ r, r ∈ x_scratch x ∨ r ∈ (l ≫= x_scratch) →
    (r ∉ x_all x) ∧ (r ∉ (l ≫= x_all)) ∧ (r ∉ ID_REGS)).
  { intros r Hr. destruct (Hscr r) as [Ha Hi]; [rewrite bind_cons; set_solver|].
    rewrite bind_cons in Ha. set_solver. }
  apply NoDup_app in Hnd as (_ & Hdisj & Hnd).
  destruct (spec_restore x Hx w s) as (s1 & Hs1 & [Hc1 Hp1] & Hx1 & Hr1 & Hk1).
  destruct (IH s1 Hl Hnd) as (s2 & Hs2 & [Hc2 Hp2] & Hx2 & Hr2 & Hk2).
  { intros r Hr. apply Hids, elem_of_app. by right. }
  { intros r Hr. split; apply (Hsc r); by right. }
  exists s2. split; [cbn [for_each fmap list_fmap]; cbv [mbind M_bind]; by rewrite Hs1|].
  pose proof (spec_all x Hx (sysregs s)) as Hall.
  assert (Hid : same_id (sysregs s) (sysregs s1)).
  { intros r Hr. symmetry. apply Hk1.
    - intros Hs. destruct (Hsc r) as (_ & _ & ?); [by left|done].
    - intros Hs%Hall. apply (Hids r); [|done]. apply elem_of_app. by left. }
  assert (Hst : ∀ y, y ∈ l → x_regs y (sysregs s1) = x_regs y (sysregs s) ∧
    ∀ r, r ∈ x_regs y (sysregs s) → r ∈ (l ≫= x_all)).
  { intros y Hy. pose proof Hl as Hspec. eapply list.Forall_forall in Hspec; [|done]. split.
    - by apply spec_stable.
    - intros r Hr. apply (elem_of_all l y); [done|]. by eapply spec_all. }
  split; [split; congruence|]. split; [congruence|]. split.
  - intros y r Hy Hr. apply elem_of_cons in Hy as [->|Hy].
    + rewrite Hk2; [by apply Hr1| |].
      * intros Hs. destruct (Hsc r) as (? & _); [by right|]. by apply Hall in Hr.
      * intros y Hy Hry. destruct (Hst y Hy) as [He Ha]. rewrite He in Hry.
        apply (Hdisj r); [by apply Hall|by apply Ha].
    + destruct (Hst y Hy) as [He _]. rewrite (Hr2 y), Hx1; [done|done|by rewrite He].
  - intros r Hr Hno. rewrite bind_cons in Hr. rewrite Hk2; [apply Hk1; [set_solver|]|set_solver|].
    + apply Hno, elem_of_cons. by left.
    + intros y Hy. destruct (Hst y Hy) as [-> _]. apply Hno, elem_of_cons. by right.
Qed.

(** ** The registers of the lower exception level *)
Definition lower_regs (b : Bank) : list SysReg :=
  if sel2 then
    if present FEAT_VHE "id_aa64mmfr1_el1" b then el2_save_list ++ el2_save_vhe_list
    else el2_save_list
  else el1_save_list.
Definition LOWER_ALL : list SysReg :=
  if sel2 then el2_save_list ++ el2_save_vhe_list else el1_save_list.

Lemma lower_regs_all b r : r ∈ lower_regs b → r ∈ LOWER_ALL.
Proof.
  unfold lower_regs, LOWER_ALL. destruct sel2; [|done]. case_match; [done|].
  intros. apply elem_of_app. by left.
Qed.

Lemma lower_regs_stable b b' : same_id b b' → lower_regs b = lower_regs b'.
Proof.
  intros Hb. unfold lower_regs, present. rewrite (Hb "id_aa64mmfr1_el1"); [done|]. by_names.
Qed.

Lemma save_lower b c r :
  lower_el_sysregs (save_lower_el_sysregs b c) r =
  if decide (r ∈ lower_regs b) then b r else lower_el_sysregs c r.
Proof.
  unfold save_lower_el_sysregs, lower_regs, el2_save, el1_save.
  cbn [lower_el_sysregs set_lower_el_sysregs].
  destruct sel2; [case_match; [rewrite <-copy_app|]|]; apply copy_lookup.
Qed.

(** Restoring writes the registers that are saved; the erratum writes SCR_EL3. *)
Lemma restore_lower errata w c b r :
  r ≠ "scr_el3" →
  restore_lower_el_sysregs errata w c b r =
  if decide (r ∈ lower_regs b) then lower_el_sysregs c r else b r.
Proof.
  intros Hr. unfold restore_lower_el_sysregs, lower_regs. destruct sel2; [|apply copy_lookup].
  assert (Hl : ∀ r, r ∈ el2_save_list ↔ r ∈ el2_restore_list_1 ∨ r ∈ el2_restore_list_2).
  { intros r'. rewrite <-elem_of_app. done. }
  unfold el2_restore. cbv zeta.
  set (b1 := copy el2_restore_list_1 _ b).
  set (b2 := if errata_ich_vmcr_el2_applies errata b1 then _ else b1).
  assert (H12 : ∀ r, r ≠ "scr_el3" → b2 r = b1 r).
  { intros r' Hr'. unfold b2. case_match; [|done]. by apply fn_lookup_insert_ne. }
  assert (Hv : present FEAT_VHE "id_aa64mmfr1_el1" (copy el2_restore_list_2 (lower_el_sysregs c) b2) =
    present FEAT_VHE "id_aa64mmfr1_el1" b).
  { unfold present. rewrite copy_out, H12; [|by_names..].
    unfold b1. by rewrite copy_out by by_names. }
  rewrite Hv. change el2_restore_vhe_list with el2_save_vhe_list.
  assert (Hc : copy el2_restore_list_2 (lower_el_sysregs c) b2 r =
    if decide (r ∈ el2_save_list) then lower_el_sysregs c r else b r).
  { rewrite copy_lookup, H12 by done. unfold b1. rewrite copy_lookup.
    specialize (Hl r). repeat case_decide; tauto. }
  destruct (present FEAT_VHE "id_aa64mmfr1_el1" b); [|exact Hc]. rewrite copy_lookup, Hc.
  pose proof (elem_of_app el2_save_list el2_save_vhe_list r). repeat case_decide; tauto.
Qed.
(** ** Switching worlds *)

(** The extensions of a platform fit together: no two of them save the same
    register or use the same context, and no register of a lower exception level
    is one of EL3 or an identification register. *)
Record infos_ok (l : list ExtInfo) : Prop := mkInfosOk {
  ok_specs : Forall ext_spec l;
  ok_names : NoDup (l ≫= x_names);
  ok_regs : NoDup ((l ≫= x_all) ++ LOWER_ALL ++ ID_REGS ++ EL3_REGS);
  ok_scratch : Forall (λ r, r ∉ (l ≫= x_all) ++ LOWER_ALL ++ ID_REGS ++ EL3_REGS) (l ≫= x_scratch);
}.

Section Switch.
Context (l : list ExtInfo) (errata : list (Z * (Bank → bool))) (Hok : infos_ok l).

Lemma ok_scratch_ok : scratch_ok l.
Proof. intros r Hr. pose proof (ok_scratch l Hok) as Hn. eapply list.Forall_forall in Hn; [|done]. rewrite !elem_of_app in Hn. tauto. Qed.

Lemma ok_disjoint :
  NoDup (l ≫= x_all) ∧
  (∀ r, r ∈ (l ≫= x_all) → (r ∉ LOWER_ALL) ∧ (r ∉ ID_REGS) ∧ (r ∉ EL3_REGS)) ∧
  (∀ r, r ∈ LOWER_ALL → (r ∉ ID_REGS) ∧ (r ∉ EL3_REGS)) ∧
  (∀ r, r ∈ ID_REGS → r ∉ EL3_REGS).
Proof.
  pose proof (ok_regs l Hok) as Hnd. apply NoDup_app in Hnd as (H1 & H2 & H3).
  apply NoDup_app in H3 as (_ & H4 & H5). apply NoDup_app in H5 as (_ & H5 & _).
  split; [done|]. split; [|split; [|done]]; intros r Hr.
  - specialize (H2 r Hr). rewrite !elem_of_app in H2. tauto.
  - specialize (H4 r Hr). rewrite !elem_of_app in H4. tauto.
Qed.

Lemma ext_regs_all x b r : x ∈ l → r ∈ x_regs x b → r ∈ (l ≫= x_all).
Proof.
  intros Hx Hr. apply (elem_of_all l x); [done|]. eapply spec_all; [|done].
  by eapply list.Forall_forall in Hx; [|apply (ok_specs l Hok)].
Qed.

(** A register that is neither of the lower exception level nor of an extension. *)
Definition unswitched (b : Bank) (r : SysReg) : Prop :=
  (r ∉ EL3_REGS) ∧ (r ∉ (l ≫= x_scratch)) ∧ (r ∉ lower_regs b) ∧ ∀ x, x ∈ l → r ∉ x_regs x b.

Lemma restore_el3_spec pwc s :
  ∃ s', restore_el3_sysregs pwc s = Ret tt s' ∧ same_cpu s s' ∧ ext_contexts s' = ext_contexts s ∧
    sysregs s' "cptr_el3" = cptr_el3 pwc ∧ ∀ r, r ∉ EL3_REGS → sysregs s' r = sysregs s r.
Proof.
  assert (Hne : ∀ r n v (b : Bank), n ∈ EL3_REGS → r ∉ EL3_REGS → <[n := v]> b r = b r).
  { intros r n v b Hn Hr. apply fn_lookup_insert_ne. by intros ->. }
  assert ("cptr_el3" ∈ EL3_REGS) by by_names. assert ("mpam3_el3" ∈ EL3_REGS) by by_names.
  unfold restore_el3_sysregs. cbv [mbind M_bind get].
  destruct (mpam_is_present (sysregs s)); eexists; (split; [reflexivity|]); simpl;
    (split; [done|]); (split; [done|]); (split; [apply fn_lookup_insert|]); intros r Hr;
    by rewrite !Hne.
Qed.

Lemma restore_world_spec w c s pw :
  PER_WORLD_CONTEXT s = Some pw →
  ∃ s', restore_world (x_ext <$> l) errata w c s = Ret tt s' ∧ same_cpu s s' ∧
    ext_contexts s' = ext_contexts s ∧
    (∀ r, r ∈ lower_regs (sysregs s) → sysregs s' r = lower_el_sysregs c r) ∧
    (∀ x r, x ∈ l → r ∈ x_regs x (sysregs s) → sysregs s' r = ext_contexts s (x_name x) w r) ∧
    (∀ r, unswitched (sysregs s) r → sysregs s' r = sysregs s r) ∧
    sysregs s' "cptr_el3" = cptr_el3 (pw w).
Proof.
  intros Hpw. destruct ok_disjoint as (Hnd & Hx & Hlow & Hide).
  destruct (restore_el3_spec (pw w) s) as (s1 & H1 & [Hc1 Hp1] & He1 & Hcp1 & Hr1).
  assert (Hid1 : same_id (sysregs s) (sysregs s1)).
  { intros r Hr. symmetry. by apply Hr1, Hide. }
  destruct (restore_loop l w s1) as (s2 & H2 & [Hc2 Hp2] & He2 & Hr2 & Hk2);
    [apply ok_specs, Hok|done|apply Hx|apply ok_scratch_ok|].
  assert (Hst : ∀ x, x ∈ l → x_regs x (sysregs s1) = x_regs x (sysregs s)).
  { intros x Hin. symmetry. apply spec_stable; [|done].
    by eapply list.Forall_forall in Hin; [|apply (ok_specs l Hok)]. }
  assert (Hk : ∀ r, (r ∉ (l ≫= x_scratch)) → (r ∉ (l ≫= x_all)) → sysregs s2 r = sysregs s1 r).
  { intros r Hs Ha. apply Hk2; [done|]. intros x Hin Hr. by apply Ha, (ext_regs_all x (sysregs s1)). }
  assert (Hid2 : same_id (sysregs s) (sysregs s2)).
  { intros r Hr. rewrite (Hid1 r Hr). symmetry. apply Hk; intros Hr'.
    - by destruct (ok_scratch_ok r Hr').
    - by destruct (Hx r Hr') as (_ & ? & _). }
  assert (Hlr : lower_regs (sysregs s2) = lower_regs (sysregs s))
    by (symmetry; by apply lower_regs_stable).
  eexists. split.
  { unfold restore_world, world_context. cbv [mbind M_bind get lift]. rewrite Hpw. simpl.
    rewrite H1, H2. reflexivity. }
  cbn [sysregs set_sysregs cpu_state ext_contexts PER_WORLD_CONTEXT].
  split; [split; simpl; congruence|]. split; [congruence|].
  assert (Hscr : ∀ r, (r ∉ EL3_REGS) → r ≠ "scr_el3").
  { intros r Hr ->. apply Hr. by_names. }
  assert (Hres : ∀ r, r ≠ "scr_el3" → restore_lower_el_sysregs errata w c (sysregs s2) r =
    if decide (r ∈ lower_regs (sysregs s)) then lower_el_sysregs c r else sysregs s2 r).
  { intros r Hr. by rewrite restore_lower, Hlr. }
  split; [|split; [|split]].
  - intros r Hr. rewrite Hres, decide_True; [done..|]. by eapply Hscr, Hlow, lower_regs_all.
  - intros x r Hin Hr. pose proof (ext_regs_all x _ r Hin Hr) as Ha.
    destruct (Hx r Ha) as (Hn & _ & He). rewrite Hres, decide_False by (by apply Hscr || by intros ?%lower_regs_all).
    rewrite (Hr2 x), He1; [done|done|]. by rewrite Hst.
  - intros r (He & Hs & Hl & Hno). rewrite Hres, decide_False by (done || by apply Hscr).
    rewrite Hk2, Hr1; [done..|]. intros x Hin. rewrite Hst by done. by apply Hno.
  - assert (Hin : "cptr_el3" ∈ EL3_REGS) by by_names. rewrite Hres, decide_False by
      (done || by intros (_ & ?)%lower_regs_all%Hlow).
    rewrite Hk; [done|..]; intros Hr.
    + pose proof (ok_scratch l Hok) as Hn. eapply list.Forall_forall in Hn; [|done].
      rewrite !elem_of_app in Hn. tauto.
    + by destruct (Hx _ Hr) as (_ & _ & ?).
Qed.
End Switch.
End Specs.
