(* ===== verification/ContextProps.v ===== *)
(** * The properties of CPU contexts *)

From Stdlib Require Import ZArith Lia.
From stdpp Require Import base list numbers option functions strings sets.
From S2P Require Import Prelude Smccc Services Context Extensions Simd ContextProofs.
Open Scope rust_scope.
Open Scope string_scope.
Open Scope list_scope.
Open Scope Z_scope.

Section Platforms.
Context `{ArmSysregs} `{Features}.

(** ** The extensions keep what they promise *)
Lemma present_stable f r b b' : r ∈ ID_REGS → same_id b b' → present f r b = present f r b'.
Proof. intros Hr Hb. unfold present. by rewrite (Hb r Hr). Qed.

(** Evaluates the registers that are read to those of another bank. *)
Ltac stable Hb :=
  repeat match goal with
  | |- context [present ?f ?r _] => rewrite (present_stable f r _ _ ltac:(by_names) Hb)
  end.

Lemma bank_spec ext here name save_rs restore_rs all :
  save_context ext = save_if here name save_rs →
  restore_context ext = restore_if here name restore_rs →
  (∀ b r, r ∈ save_rs b ↔ r ∈ restore_rs b) → (∀ b r, r ∈ save_rs b → r ∈ all) →
  (∀ b b', same_id b b' → here b = here b' ∧ save_rs b = save_rs b') →
  ext_spec (bank_info ext here name save_rs all).
Proof.
  intros Hs Hr Hiff Hall Hst. split; simpl.
  - apply elem_of_cons. by left.
  - intros b r. case_match; [apply Hall|]. by intros ?%not_elem_of_nil.
  - intros b b' Hb. by destruct (Hst b b' Hb) as [-> ->].
  - intros w s. rewrite Hs. by apply save_if_saved.
  - intros w s. rewrite Hr. by apply restore_if_restored.
Qed.

(** The vector registers and their contexts are not looked at here. *)
Definition VECTOR_REGS : list SysReg := z_regs ++ p_regs ++ ["ffr"; "fpsr"; "fpcr"; "svcr"].
Definition simd_info (c : SimdConfig) : ExtInfo :=
  mkExtInfo (Simd c) "SIMD" ["SIMD"; "SVE"] (λ _, []) [] (if sel2 then [] else VECTOR_REGS).

Lemma copy_frame rs (src dst : Bank) r :
  (∀ r, r ∈ rs → r ∈ VECTOR_REGS) → r ∉ VECTOR_REGS → copy rs src dst r = dst r.
Proof. intros Hrs Hr. apply copy_out. by intros ?%Hrs. Qed.
Lemma vector_frame n v (b : Bank) r : n ∈ VECTOR_REGS → r ∉ VECTOR_REGS → <[n := v]> b r = b r.
Proof. intros Hn Hr. apply fn_lookup_insert_ne. by intros ->. Qed.

Lemma z_vector r : r ∈ z_regs → r ∈ VECTOR_REGS.
Proof. intros. apply elem_of_app. by left. Qed.
Lemma p_vector r : r ∈ p_regs → r ∈ VECTOR_REGS.
Proof. intros. apply elem_of_app. right. apply elem_of_app. by left. Qed.
Lemma fp_vector r : r ∈ ["ffr"; "fpsr"; "fpcr"; "svcr"] → r ∈ VECTOR_REGS.
Proof. intros. apply elem_of_app. right. apply elem_of_app. by right. Qed.
Lemma fp_state_vector r : r ∈ ["fpsr"; "fpcr"] → r ∈ VECTOR_REGS.
Proof.
  rewrite !elem_of_cons, elem_of_nil. intros [->|[->|[]]]; by_names.
Qed.

Lemma sve_save_frame sme s r : r ∉ VECTOR_REGS → (sve_save sme s).1 r = s.1 r.
Proof.
  intros Hr. unfold sve_save, save_ffr. cbv zeta. repeat case_match; simpl; try done;
    apply vector_frame; (done || by_names).
Qed.

Lemma sve_restore_frame sme ctx b r : r ∉ VECTOR_REGS → sve_restore sme ctx b r = b r.
Proof.
  intros Hr. unfold sve_restore, restore_ffr, write_svcr, reset_sve_state. cbv zeta.
  rewrite !copy_frame by (apply z_vector || apply p_vector || apply fp_state_vector || done).
  assert (Hz : ∀ b', copy (z_regs ++ p_regs) (λ _, 0) b' r = b' r).
  { intros b'. apply copy_frame; [|done]. intros r' [?|?]%elem_of_app; [by apply z_vector|by apply p_vector]. }
  repeat case_match; rewrite ?vector_frame by (done || by_names); rewrite ?Hz; done.
Qed.

Lemma simd_restore_frame ctx b r : r ∉ VECTOR_REGS → simd_restore ctx b r = b r.
Proof.
  intros Hr. unfold simd_restore, load_q.
  by rewrite !copy_frame by (apply z_vector || apply fp_state_vector || done).
Qed.

(** Saving and restoring, whatever is done between the two writes of CPTR_EL3. *)
Lemma simd_cptr (f : Core → Core) v s :
  (∀ s r, r ∉ VECTOR_REGS → sysregs (f s) r = sysregs s r) → (∀ s, same_cpu s (f s)) →
  let s' := set_sysregs (<["cptr_el3" := sysregs s "cptr_el3"]>
              (sysregs (f (set_sysregs (<["cptr_el3" := v]> (sysregs s)) s))))
              (f (set_sysregs (<["cptr_el3" := v]> (sysregs s)) s)) in
  same_cpu s s' ∧ ∀ r, r ∉ VECTOR_REGS → sysregs s' r = sysregs s r.
Proof.
  intros Hf Hc. split.
  - destruct (Hc (set_sysregs (<["cptr_el3" := v]> (sysregs s)) s)) as [H1 H2]. by split.
  - intros r Hr. simpl. destruct (decide (r = "cptr_el3")) as [->|Hne];
      [apply fn_lookup_insert|]. rewrite fn_lookup_insert_ne, Hf by done. simpl.
    by apply fn_lookup_insert_ne.
Qed.

Lemma set_ext_context_other name w v s n w' r :
  n ≠ name ∨ w' ≠ w → ext_contexts (set_ext_context name w v s) n w' r = ext_contexts s n w' r.
Proof.
  intros Hn. simpl. destruct (decide (n = name)) as [->|Hne]; [|by rewrite fn_lookup_insert_ne].
  rewrite fn_lookup_insert, fn_lookup_insert_ne; [done|]. intros Heq. subst. tauto.
Qed.

Lemma simd_spec c : ext_spec (simd_info c).
Proof.
  unfold simd_info. destruct sel2 eqn:Hsel.
  { split; simpl; try done; [by_names|..]; intros w s; exists s;
      unfold simd_save_context, simd_restore_context; rewrite Hsel; (split; [done|]);
      (split; [done|]); (split; [done|]); (split; [|done]); by intros r ?%not_elem_of_nil. }
  split; simpl; try done; [by_names|..]; intros w s;
    unfold simd_save_context, simd_restore_context; rewrite Hsel; cbv [mbind M_bind read write modify];
    eexists; (split; [reflexivity|]).
  - edestruct (simd_cptr (λ s, if bool_decide (w = NonSecure) && has_sve c (sysregs s) then
        let r := sve_save (has_sme c (sysregs s)) (sysregs s, ext_contexts s "SVE" NonSecure) in
        set_ext_context "SVE" NonSecure r.2 (set_sysregs r.1 s)
      else set_ext_context "SIMD" w (simd_save (sysregs s) (ext_contexts s "SIMD" w)) s))
      as [Hc Hr]; [| |split; [exact Hc|split; [exact Hr|]]].
    + intros s0 r Hr. case_match; [by apply sve_save_frame|done].
    + intros s0. by case_match.
    + split; [by intros r ?%not_elem_of_nil|]. intros n w' r Hn. cbn [ext_contexts set_sysregs].
      rewrite !elem_of_cons, elem_of_nil in Hn.
      destruct (bool_decide (w = NonSecure)) eqn:Hb; [destruct (has_sve _ _)|]; cbn [andb];
        [|by rewrite set_ext_context_other by tauto..].
      apply bool_decide_eq_true in Hb. subst w. by rewrite set_ext_context_other by tauto.
  - edestruct (simd_cptr (λ s, if bool_decide (w = NonSecure) && has_sve c (sysregs s) then
        set_sysregs (sve_restore (has_sme c (sysregs s)) (ext_contexts s "SVE" NonSecure) (sysregs s)) s
      else set_sysregs (simd_restore (ext_contexts s "SIMD" w) (sysregs s)) s))
      as [Hc Hr]; [| |split; [exact Hc|split; [|split; [|intros r Hv _; exact (Hr r Hv)]]]].
    + intros s0 r Hr. case_match; [by apply sve_restore_frame|by apply simd_restore_frame].
    + intros s0. by case_match.
    + cbn [ext_contexts set_sysregs]. by case_match.
    + by intros r ?%not_elem_of_nil.
Qed.
(** The extensions of FVP; those of QEMU are the last of them. *)
Definition fvp_infos : list ExtInfo :=
  [plain_info Amu "AMU";
   bank_info Fgt fgt_is_present "FGT" fgt_save_list
     ["hafgrtr_el2"; "hdfgrtr_el2"; "hdfgwtr_el2"; "hfgitr_el2"; "hfgrtr_el2"; "hfgwtr_el2"];
   bank_info Fgt2 fgt2_is_present "FGT2" fgt2_save_list (fgt2_save_list (λ _, 0));
   bank_info Hcx hcx_is_present "HCX" hcx_save_list (hcx_save_list (λ _, 0));
   bank_info MemoryTagging mte2_is_present "MEMORY_TAGGING" mte2_save_list (mte2_save_list (λ _, 0));
   bank_info Mpam mpam_is_present "MPAM" mpam_save_list
     (if sel2 then
        ["mpam2_el2"; "mpamhcr_el2"; "mpamvpmv_el2"; "mpamvpm0_el2"; "mpamvpm7_el2"; "mpamvpm6_el2";
         "mpamvpm5_el2"; "mpamvpm4_el2"; "mpamvpm3_el2"; "mpamvpm2_el2"; "mpamvpm1_el2"]
      else []);
   plain_info MultiThreadedPmu "MTPMU";
   bank_info Ras ras_is_present "RAS" ras_save_list (ras_save_list (λ _, 0));
   bank_info Sctlr2 sctlr2_is_present "SCTLR2" sctlr2_save_list (sctlr2_save_list (λ _, 0));
   simd_info simd_simd;
   plain_info StatisticalProfiling "SPE";
   plain_info SysRegTrace "SYS_REG_TRACE";
   bank_info Tcr2 tcr2_is_present "TCR2" tcr2_save_list (tcr2_save_list (λ _, 0));
   plain_info TraceBufferNonSecure "TRBE";
   plain_info TraceFiltering "TRF"].

Lemma fvp_infos_exts : x_ext <$> fvp_infos = fvp_cpu_extensions.
Proof. done. Qed.

Lemma fgt_all b r : r ∈ fgt_save_list b →
  r ∈ ["hafgrtr_el2"; "hdfgrtr_el2"; "hdfgwtr_el2"; "hfgitr_el2"; "hfgrtr_el2"; "hfgwtr_el2"].
Proof. unfold fgt_save_list. case_match; [done|]. intros Hr. apply elem_of_cons. by right. Qed.

Lemma mpam_all b r : r ∈ mpam_save_list b →
  r ∈ (if sel2 then
        ["mpam2_el2"; "mpamhcr_el2"; "mpamvpmv_el2"; "mpamvpm0_el2"; "mpamvpm7_el2"; "mpamvpm6_el2";
         "mpamvpm5_el2"; "mpamvpm4_el2"; "mpamvpm3_el2"; "mpamvpm2_el2"; "mpamvpm1_el2"]
      else []).
Proof.
  unfold mpam_save_list. destruct sel2; [|done]. cbv zeta.
  assert (Hif : ∀ (c : bool) x l, r ∈ (if c then [x] else []) ++ l → r = x ∨ r ∈ l).
  { intros c x l'. rewrite elem_of_app. case_match; [rewrite list_elem_of_singleton|rewrite elem_of_nil]; tauto. }
  rewrite elem_of_app. intros [Hr|Hr].
  { apply list_elem_of_singleton in Hr as ->. by_names. }
  destruct (negb _); [by apply not_elem_of_nil in Hr|].
  apply elem_of_app in Hr as [Hr|Hr].
  { rewrite !elem_of_cons, elem_of_nil in Hr. destruct Hr as [->|[->|[->|[]]]]; by_names. }
  repeat (apply Hif in Hr as [->|Hr]; [by_names|]).
  case_match; [|by apply not_elem_of_nil in Hr]. apply list_elem_of_singleton in Hr as ->. by_names.
Qed.

Lemma fvp_specs : Forall ext_spec fvp_infos.
Proof.
  assert (Hp : ∀ f r b b', r ∈ ID_REGS → same_id b b' → present f r b = present f r b')
    by (intros; by apply present_stable).
  assert (Hin : ∀ r, bool_decide (r ∈ ID_REGS) = true → r ∈ ID_REGS)
    by (intros r; apply bool_decide_eq_true).
  repeat (apply Forall_cons_iff; split); [..|by constructor];
    try (by apply plain_spec); try apply simd_spec;
    (eapply bank_spec; [reflexivity|reflexivity|done| |]; try (by intros b r Hr); try (by apply fgt_all);
     try (by apply mpam_all); intros b b' Hb; split; try done;
     try (apply Hp; [by apply Hin|done])).
  - unfold fgt_save_list. by rewrite (Hp _ _ _ b') by (done || by apply Hin).
  - unfold mpam_save_list. by rewrite (Hb "mpamidr_el1") by (by apply Hin).
Qed.

Lemma fvp_infos_ok : infos_ok fvp_infos.
Proof.
  split; [apply fvp_specs|by_names|..].
  - unfold LOWER_ALL, fvp_infos, bank_info, mte2_save_list, hcx_save_list, ras_save_list,
      sctlr2_save_list, tcr2_save_list, simd_info.
    destruct sel2; by_names.
  - unfold LOWER_ALL, fvp_infos, bank_info, mte2_save_list, hcx_save_list, ras_save_list,
      sctlr2_save_list, tcr2_save_list, simd_info.
    destruct sel2; by_names.
Qed.
End Platforms.

(** ** Each world has its own registers *)

(** Where the registers of a world that does not run are kept. *)
Inductive Slot : Type := LowerEl | ExtContext (name : string).
Definition bank_of (s : Core) (sl : Slot) (w : World) : Bank :=
  match sl with
  | LowerEl => lower_el_sysregs (cpu_state s w)
  | ExtContext n => ext_contexts s n w
  end.

Section Worlds.
Context `{ArmSysregs} `{Features} (l : list ExtInfo) (errata : list (Z * (Bank → bool))).

(** The registers that each world has for itself. *)
Definition switched (b : Bank) (sl : Slot) (r : SysReg) : Prop :=
  match sl with
  | LowerEl => r ∈ lower_regs b
  | ExtContext n => ∃ x, x ∈ l ∧ x_name x = n ∧ r ∈ x_regs x b
  end.

(** What world [w] has in a register while world [cur] runs. *)
Definition view (cur : World) (s : Core) (sl : Slot) (w : World) (r : SysReg) : Z :=
  if decide (w = cur) then sysregs s r else bank_of s sl w r.

(** What happens between two switches: the world that runs writes a register. *)
Inductive Action : Type := Write (r : SysReg) (v : Z) | SwitchTo (w : World).

(** The abstract machine: a bank of registers for each world. *)
Definition Worlds : Type := World * (World → Bank).
Definition world_step (st : Worlds) (a : Action) : Worlds :=
  match a with
  | Write r v => (st.1, <[st.1 := <[r := v]> (st.2 st.1)]> st.2)
  | SwitchTo w => (w, st.2)
  end.
Definition legal_action (b : Bank) (cur : World) (a : Action) : Prop :=
  match a with
  | Write r _ => ∃ sl, switched b sl r
  | SwitchTo w => w ≠ cur
  end.
Fixpoint legal_actions (b : Bank) (st : Worlds) (acts : list Action) : Prop :=
  match acts with
  | [] => True
  | a :: acts => legal_action b st.1 a ∧ legal_actions b (world_step st a) acts
  end.

(** The core. *)
Fixpoint run_actions (cur : World) (acts : list Action) : M Core World :=
  match acts with
  | [] => mret cur
  | Write r v :: acts => _ ← write r v; run_actions cur acts
  | SwitchTo w :: acts => _ ← switch_world (x_ext <$> l) errata cur w; run_actions w acts
  end.

(** The core implements the abstract machine. *)
Definition implements (b : Bank) (st : Worlds) (s : Core) : Prop :=
  same_id b (sysregs s) ∧ is_Some (PER_WORLD_CONTEXT s) ∧
  ∀ sl w r, switched b sl r → view st.1 s sl w r = st.2 w r.

Context (Hok : infos_ok l).

Lemma switched_stable b b' sl r : same_id b b' → switched b sl r → switched b' sl r.
Proof.
  intros Hb. destruct sl as [|n]; simpl; [by rewrite (lower_regs_stable b b' Hb)|].
  intros (x & Hx & Hn & Hr). exists x. split; [done|]. split; [done|].
  erewrite <-spec_stable; [done| |done].
  by eapply list.Forall_forall in Hx; [|apply (ok_specs l Hok)].
Qed.

Lemma switched_not_id b sl r : switched b sl r → r ∉ ID_REGS.
Proof.
  destruct (ok_disjoint l Hok) as (_ & Hx & Hl & _).
  destruct sl as [|n]; simpl; [by intros [? _]%lower_regs_all%Hl|].
  intros (x & Hin & _ & Hr). eapply Hx, ext_regs_all; done.
Qed.

Lemma switched_not_scratch b sl r : switched b sl r → r ∉ (l ≫= x_scratch).
Proof.
  intros Hs Hr. pose proof (ok_scratch l Hok) as Hn. eapply list.Forall_forall in Hn; [|done].
  apply Hn. rewrite !elem_of_app. destruct sl as [|n]; simpl in Hs.
  - right. left. by eapply lower_regs_all.
  - left. destruct Hs as (x & Hin & _ & Hx). by eapply ext_regs_all.
Qed.

Lemma id_not_scratch r : r ∈ ID_REGS → r ∉ (l ≫= x_scratch).
Proof. intros Hi Hr. by destruct (ok_scratch_ok l Hok r Hr). Qed.

Lemma id_unswitched b r : r ∈ ID_REGS → unswitched l b r.
Proof.
  intros Hi. destruct (ok_disjoint l Hok) as (_ & Hx & Hl & Hd). split; [by apply Hd|].
  split; [by apply id_not_scratch|]. split; [by intros [? _]%lower_regs_all%Hl|].
  intros x Hin Hr. by eapply (switched_not_id b (ExtContext (x_name x)) r); [exists x|].
Qed.

(** Restoring a world shows its registers. *)
Lemma restore_world_shows w s pw :
  PER_WORLD_CONTEXT s = Some pw →
  ∃ s', restore_world (x_ext <$> l) errata w (cpu_state s w) s = Ret tt s' ∧
    same_id (sysregs s) (sysregs s') ∧ PER_WORLD_CONTEXT s' = Some pw ∧
    ∀ sl w' r, switched (sysregs s) sl r → view w s' sl w' r = bank_of s sl w' r.
Proof.
  intros Hpw. destruct (restore_world_spec l errata Hok w (cpu_state s w) s pw Hpw)
    as (s' & Hs' & [Hc Hp] & He & Hlow & Hx & Hun & _).
  exists s'. split; [done|]. split; [|split; [congruence|]].
  - intros r Hr. symmetry. by apply Hun, id_unswitched.
  - intros sl w' r Hr. unfold view. case_decide as Hw; [subst w'|destruct sl; simpl; by rewrite ?Hc, ?He].
    destruct sl as [|n]; simpl in *; [by apply Hlow|]. destruct Hr as (x & Hin & <- & Hr). by apply Hx.
Qed.

Lemma set_initial_world_implements w s banks :
  is_Some (PER_WORLD_CONTEXT s) →
  (∀ sl w' r, switched (sysregs s) sl r → bank_of s sl w' r = banks w' r) →
  ∃ s', set_initial_world (x_ext <$> l) errata w s = Ret tt s' ∧ implements (sysregs s) (w, banks) s'.
Proof.
  intros [pw Hpw] Hb. set (s1 := set_sysregs (<["scr_el3" := scr_el3 (pw w)]> (sysregs s)) s).
  destruct (restore_world_shows w s1 pw) as (s' & Hs' & Hid & Hp & Hv); [done|].
  assert (Hid1 : same_id (sysregs s) (sysregs s1)).
  { intros r Hr. symmetry. apply fn_lookup_insert_ne. intros <-.
    apply (ok_disjoint l Hok) in Hr. apply Hr. by_names. }
  exists s'. split.
  - unfold set_initial_world, world_context. cbv [mbind M_bind get lift write modify]. by rewrite Hpw.
  - split; [by etrans|]. split; [by exists pw|]. intros sl w' r Hr.
    rewrite Hv by (by eapply switched_stable). destruct sl; exact (Hb _ w' r Hr).
Qed.

Lemma switch_world_implements b cur new banks s :
  cur ≠ new → implements b (cur, banks) s →
  ∃ s', switch_world (x_ext <$> l) errata cur new s = Ret tt s' ∧ implements b (new, banks) s'.
Proof.
  intros Hne (Hid & [pw Hpw] & Hv). simpl in Hv.
  set (s1 := update_context cur (save_lower_el_sysregs (sysregs s)) s).
  destruct (save_loop l cur s1) as (s2 & Hs2 & [Hc2 Hp2] & Hr2 & Hsv & Hk);
    [apply ok_specs, Hok|apply ok_names, Hok|by apply ok_scratch_ok|].
  assert (Hid2 : same_id b (sysregs s2)).
  { etrans; [done|]. intros r Hr. symmetry. by apply Hr2, id_not_scratch. }
  destruct (restore_world_shows new s2 pw) as (s' & Hs' & Hid' & Hp' & Hv'); [by rewrite Hp2|].
  exists s'. split.
  { unfold switch_world. rewrite bool_decide_true by done. cbv [mbind M_bind get lift assert_ modify].
    fold s1. by rewrite Hs2. }
  split; [by etrans|]. split; [by exists pw|]. intros sl w r Hr. simpl.
  rewrite Hv' by (by eapply switched_stable). rewrite <-(Hv sl w r Hr). unfold view.
  assert (Hrs : switched (sysregs s) sl r) by (by eapply switched_stable).
  case_decide as Hw; [subst w|].
  - destruct sl as [|n]; simpl in *.
    + rewrite Hc2. simpl. rewrite fn_lookup_insert, save_lower, decide_True; [done|done].
    + destruct Hrs as (x & Hin & <- & Hx). by apply Hsv.
  - destruct sl as [|n]; simpl.
    + rewrite Hc2. simpl. by rewrite fn_lookup_insert_ne.
    + by rewrite Hk by (by right).
Qed.

(** A switch of worlds only writes the saved registers of the world that is left. *)
Lemma switch_world_keeps cur new s :
  cur ≠ new → is_Some (PER_WORLD_CONTEXT s) →
  ∃ s', switch_world (x_ext <$> l) errata cur new s = Ret tt s' ∧
    PER_WORLD_CONTEXT s' = PER_WORLD_CONTEXT s ∧
    ∀ w, gpregs (cpu_state s' w) = gpregs (cpu_state s w) ∧
         el3_state (cpu_state s' w) = el3_state (cpu_state s w).
Proof.
  intros Hne [pw Hpw]. set (s1 := update_context cur (save_lower_el_sysregs (sysregs s)) s).
  destruct (save_loop l cur s1) as (s2 & Hs2 & [Hc2 Hp2] & _);
    [apply ok_specs, Hok|apply ok_names, Hok|by apply ok_scratch_ok|].
  destruct (restore_world_spec l errata Hok new (cpu_state s2 new) s2 pw) as (s' & Hs' & [Hc Hp] & _);
    [by rewrite Hp2|].
  exists s'. split.
  { unfold switch_world. rewrite bool_decide_true by done. cbv [mbind M_bind get lift assert_ modify].
    fold s1. by rewrite Hs2. }
  split; [by rewrite Hp, Hp2|]. intros w. rewrite Hc, Hc2. simpl.
  destruct (decide (w = cur)) as [->|Hw]; [by rewrite fn_lookup_insert|by rewrite fn_lookup_insert_ne].
Qed.

Lemma set_initial_world_keeps w s :
  is_Some (PER_WORLD_CONTEXT s) →
  ∃ s', set_initial_world (x_ext <$> l) errata w s = Ret tt s' ∧
    PER_WORLD_CONTEXT s' = PER_WORLD_CONTEXT s ∧ cpu_state s' = cpu_state s.
Proof.
  intros [pw Hpw]. set (s1 := set_sysregs (<["scr_el3" := scr_el3 (pw w)]> (sysregs s)) s).
  destruct (restore_world_spec l errata Hok w (cpu_state s w) s1 pw) as (s' & Hs' & [Hc Hp] & _); [done|].
  exists s'. split; [|by split].
  unfold set_initial_world, world_context. cbv [mbind M_bind get lift write modify]. by rewrite Hpw.
Qed.

Lemma write_implements b r v st s :
  (∃ sl, switched b sl r) → implements b st s →
  ∃ s', write r v s = Ret tt s' ∧ implements b (world_step st (Write r v)) s'.
Proof.
  intros [sl0 Hr0] (Hid & Hpw & Hv). eexists. split; [reflexivity|]. split; [|split; [done|]].
  - intros r' Hr'. simpl. rewrite fn_lookup_insert_ne; [by apply Hid|]. intros <-.
    by apply (switched_not_id b sl0 r).
  - intros sl w r' Hr'. specialize (Hv sl w r' Hr'). unfold view in *. simpl.
    destruct (decide (w = st.1)) as [->|Hne].
    + rewrite fn_lookup_insert. destruct (decide (r' = r)) as [->|Hne']; [by rewrite !fn_lookup_insert|].
      by rewrite !fn_lookup_insert_ne.
    + rewrite fn_lookup_insert_ne by done. by destruct sl.
Qed.

Lemma run_actions_implements b acts st s :
  legal_actions b st acts → implements b st s →
  ∃ s', run_actions st.1 acts s = Ret (foldl world_step st acts).1 s' ∧
    implements b (foldl world_step st acts) s'.
Proof.
  revert st s. induction acts as [|[r v|w] acts IH]; intros st s Hlegal Himp; [by exists s|..];
    destruct Hlegal as [Ha Hacts]; simpl in Ha.
  - destruct (write_implements b r v st s Ha Himp) as (s1 & Hs1 & H1).
    destruct (IH _ s1 Hacts H1) as (s2 & Hs2 & H2). exists s2. split; [|done].
    cbn [run_actions]. cbv [mbind M_bind]. by rewrite Hs1.
  - destruct st as [cur banks]. simpl in *.
    destruct (switch_world_implements b cur w banks s) as (s1 & Hs1 & H1); [done..|].
    destruct (IH (w, banks) s1 Hacts H1) as (s2 & Hs2 & H2). exists s2. split; [|done].
    cbv [mbind M_bind]. by rewrite Hs1.
Qed.

(** C5: switching worlds gives each world its own registers.  From the first entry
    on, whatever the worlds write and however often the core switches between
    them, the core behaves like a machine with a bank of registers for each world
    that starts from the saved contexts: the running world has in every
    context-switched register what it last wrote itself (or found there at
    first), and no other world's values. *)
Theorem worlds_have_own_registers w acts s banks :
  is_Some (PER_WORLD_CONTEXT s) →
  (∀ sl w' r, switched (sysregs s) sl r → bank_of s sl w' r = banks w' r) →
  legal_actions (sysregs s) (w, banks) acts →
  let '(cur, banks') := foldl world_step (w, banks) acts in
  ∃ s', (_ ← set_initial_world (x_ext <$> l) errata w; run_actions w acts) s = Ret cur s' ∧
    (∀ sl r, switched (sysregs s) sl r → sysregs s' r = banks' cur r) ∧
    (∀ sl w' r, switched (sysregs s) sl r → w' ≠ cur → bank_of s' sl w' r = banks' w' r).
Proof.
  intros Hpw Hb Hlegal.
  destruct (set_initial_world_implements w s banks Hpw Hb) as (s1 & Hs1 & H1).
  destruct (run_actions_implements (sysregs s) acts (w, banks) s1 Hlegal H1) as (s2 & Hs2 & H2).
  destruct (foldl world_step (w, banks) acts) as [cur banks']. exists s2. split.
  { cbv [mbind M_bind]. by rewrite Hs1. }
  destruct H2 as (_ & _ & Hv). split.
  - intros sl r Hr. specialize (Hv sl cur r Hr). unfold view in Hv. simpl in Hv.
    by rewrite decide_True in Hv.
  - intros sl w' r Hr Hne. specialize (Hv sl w' r Hr). unfold view in Hv. simpl in Hv.
    by rewrite decide_False in Hv.
Qed.
End Worlds.
