(* ===== verification/ContextBoot.v ===== *)
(** * The first contexts of the worlds, and injected exceptions

    What EL3 sets up for each world before it is entered for the first time, when
    a core resumes after a powerdown, and when an exception is injected, against
    what the architecture documents about the bits of the registers
    ([ArmSysregsLaws]). *)

From Stdlib Require Import ZArith Lia.
From stdpp Require Import base list numbers option functions strings sets.
From S2P Require Import Prelude Smccc Services Context Extensions Simd ContextProofs ContextProps.
Open Scope rust_scope.
Open Scope string_scope.
Open Scope list_scope.
Open Scope Z_scope.

(** ** Flags *)

(** Flags of a register are different bits of it. *)
Record flags {F : Type} (f : F → Z) : Prop := mkFlags {
  flag_nonzero x : f x ≠ 0;
  flags_disjoint x y : x ≠ y → Z.land (f x) (f y) = 0;
}.

Class ArmSysregsLaws `{ArmSysregs} : Prop := {
  scr_flags : flags scr;
  mdcr_flags : flags mdcr;
  spsr_flags : flags spsr;
  (** The modes are values of the mode bits, which give the exception level. *)
  el2h_mode : Z.land M_AARCH64_EL2H (spsr SPSR_M) = M_AARCH64_EL2H;
  el1h_mode : Z.land M_AARCH64_EL1H (spsr SPSR_M) = M_AARCH64_EL1H;
  exception_level_mode v : exception_level (Z.land v (spsr SPSR_M)) = exception_level v;
  el2h_level : exception_level M_AARCH64_EL2H = El2;
  el1h_level : exception_level M_AARCH64_EL1H = El1;
}.

Lemma land_union v g f : Z.land (union v g) f = Z.lor (Z.land v f) (Z.land g f).
Proof. apply Z.land_lor_distr_l. Qed.
Lemma land_minus v g f : Z.land (minus v g) f = Z.ldiff (Z.land v f) g.
Proof.
  apply Z.bits_inj'. intros i Hi. unfold minus. rewrite !Z.land_spec, !Z.ldiff_spec, Z.land_spec.
  by destruct (Z.testbit v i), (Z.testbit g i), (Z.testbit f i).
Qed.
Lemma ldiff_disjoint v g f : Z.land g f = 0 → Z.ldiff (Z.land v f) g = Z.land v f.
Proof.
  intros Hd. apply Z.bits_inj'. intros i Hi. rewrite !Z.ldiff_spec, !Z.land_spec.
  assert (Hb : Z.testbit (Z.land g f) i = false) by (rewrite Hd; apply Z.bits_0).
  rewrite Z.land_spec in Hb. by destruct (Z.testbit v i), (Z.testbit g i), (Z.testbit f i).
Qed.

Lemma contains_union_same v f : contains (union v f) f = true.
Proof.
  unfold contains. rewrite land_union, Z.land_diag. apply Z.eqb_eq, Z.bits_inj'. intros i Hi.
  rewrite Z.lor_spec, Z.land_spec. by destruct (Z.testbit v i), (Z.testbit f i).
Qed.
Lemma contains_union_other v g f : Z.land g f = 0 → contains (union v g) f = contains v f.
Proof. intros Hd. unfold contains. by rewrite land_union, Hd, Z.lor_0_r. Qed.
Lemma contains_minus_other v g f : Z.land g f = 0 → contains (minus v g) f = contains v f.
Proof. intros Hd. unfold contains. by rewrite land_minus, ldiff_disjoint. Qed.
Lemma contains_minus_same v f : f ≠ 0 → contains (minus v f) f = false.
Proof.
  intros Hf. unfold contains. rewrite land_minus. apply Z.eqb_neq. intros Heq. apply Hf.
  rewrite <-Heq. apply Z.bits_inj'. intros i Hi. rewrite Z.ldiff_spec, Z.land_spec, Z.bits_0.
  by destruct (Z.testbit v i), (Z.testbit f i).
Qed.
Lemma contains_0 f : f ≠ 0 → contains 0 f = false.
Proof. intros Hf. unfold contains. rewrite Z.land_0_l. by apply Z.eqb_neq. Qed.
Lemma minus_union v f g : minus v (union f g) = minus (minus v f) g.
Proof.
  apply Z.bits_inj'. intros i Hi. unfold minus, union. rewrite !Z.ldiff_spec, Z.lor_spec.
  by destruct (Z.testbit v i), (Z.testbit f i), (Z.testbit g i).
Qed.
Lemma union_assoc v f g : union v (union f g) = union (union v f) g.
Proof. apply Z.lor_assoc. Qed.

Section Flags.
Context {F : Type} `{!EqDecision F} (f : F → Z) (Hf : flags f).

Lemma has_union v x y :
  contains (union v (f x)) (f y) = bool_decide (x = y) || contains v (f y).
Proof.
  case_bool_decide as Hxy; [subst y; by rewrite contains_union_same|].
  by rewrite contains_union_other by (by apply (flags_disjoint f Hf)).
Qed.
Lemma has_minus v x y :
  contains (minus v (f x)) (f y) = negb (bool_decide (x = y)) && contains v (f y).
Proof.
  case_bool_decide as Hxy; [subst y; by rewrite contains_minus_same by apply (flag_nonzero f Hf)|].
  by rewrite contains_minus_other by (by apply (flags_disjoint f Hf)).
Qed.
Lemma has_flag x y : contains (f x) (f y) = bool_decide (x = y).
Proof.
  rewrite <-(Z.lor_0_l (f x)). change (Z.lor 0 (f x)) with (union 0 (f x)).
  rewrite has_union, contains_0 by apply (flag_nonzero f Hf). apply orb_false_r.
Qed.
End Flags.

(** Evaluates the flags of a value. *)
Ltac eval_flags :=
  repeat first
    [ rewrite minus_union | rewrite union_assoc
    | rewrite (has_union scr scr_flags) | rewrite (has_minus scr scr_flags)
    | rewrite (has_flag scr scr_flags)
    | rewrite (has_union mdcr mdcr_flags) | rewrite (has_minus mdcr mdcr_flags)
    | rewrite (has_flag mdcr mdcr_flags) ].

Section Boot.
Context `{ArmSysregs} `{Features} `{!ArmSysregsLaws}.

(** The flags of SCR_EL3 that make the security state of a world. *)
Definition SECURITY_FLAGS : list ScrFlag :=
  [SCR_NS; SCR_NSE; SCR_EEL2; SCR_FIQ; SCR_IRQ; SCR_RW; SCR_HCE; SCR_SIF].

(** A step that returns and leaves contexts and identification registers alone. *)
Definition quiet (m : M Core unit) : Prop :=
  ∀ s, ∃ s', m s = Ret tt s' ∧ same_cpu s s' ∧ same_id (sysregs s) (sysregs s') ∧
    amu_context s' = amu_context s.

(** What an extension leaves alone when contexts are set up. *)
Record boots (ext : CpuExtension) : Prop := mkBoots {
  boots_init : quiet (init ext);
  boots_world b w c f : f ∈ SECURITY_FLAGS →
    contains (scr_el3 (configure_per_world ext b w c)) (scr f) = contains (scr_el3 c) (scr f);
  boots_cpu w c : ∃ f, configure_per_cpu ext w c = update_mdcr_el3 f c;
  boots_resume s :
    ∃ s', restore_context_after_suspend_to_powerdown ext s = Ret tt s' ∧ same_cpu s s';
}.

(** The state the hardware is in when a world runs with a context. *)
Record secure_state (w : World) (c : PerWorldContext) : Prop := mkSecureState {
  state_ns : contains (scr_el3 c) (scr SCR_NS) = bool_decide (w ≠ Secure);
  state_nse : contains (scr_el3 c) (scr SCR_NSE) = bool_decide (w = Realm);
  state_eel2 : contains (scr_el3 c) (scr SCR_EEL2) = sel2;
  state_fiq : contains (scr_el3 c) (scr SCR_FIQ) = bool_decide (w = NonSecure);
  state_irq : contains (scr_el3 c) (scr SCR_IRQ) = false;
  state_rw : contains (scr_el3 c) (scr SCR_RW) = true;
}.

Lemma per_world_base_secure w : secure_state w (per_world_base w).
Proof.
  assert (Hsel : ∀ v f, contains (union v (if sel2 then scr SCR_EEL2 else 0)) (scr f) =
    (sel2 && bool_decide (SCR_EEL2 = f)) || contains v (scr f)).
  { intros v f. destruct sel2; simpl; [apply (has_union scr scr_flags)|].
    by rewrite contains_union_other by apply Z.land_0_l. }
  destruct w; split; unfold per_world_base, per_world_initialise_common, set_routing_model,
    update_scr_el3, set_scr_el3, set_cptr_el3; cbn [scr_el3]; eval_flags; rewrite Hsel; eval_flags;
    rewrite ?andb_false_r, ?andb_true_r, ?orb_false_r, ?orb_true_r; (done || by destruct sel2).
Qed.

Lemma quiet_bind m k : quiet m → quiet k → quiet (_ ← m; k).
Proof.
  intros Hm Hk s. destruct (Hm s) as (s1 & Hs1 & [Hc1 Hp1] & Hi1 & Ha1).
  destruct (Hk s1) as (s2 & Hs2 & [Hc2 Hp2] & Hi2 & Ha2). exists s2. cbv [mbind M_bind]. rewrite Hs1.
  split; [done|]. split; [split; congruence|]. split; [by etrans|congruence].
Qed.
Lemma quiet_if (b : bool) m : quiet m → quiet (if b then m else mret tt).
Proof. intros Hm s. destruct b; [apply Hm|by exists s]. Qed.
Lemma quiet_get (k : Core → M Core unit) : (∀ s, quiet (k s)) → quiet (s ← get; k s).
Proof. intros Hk s. apply Hk. Qed.
Lemma quiet_read r (k : Z → M Core unit) : (∀ v, quiet (k v)) → quiet (v ← read r; k v).
Proof. intros Hk s. apply Hk. Qed.
Lemma quiet_write r v : r ∉ ID_REGS → quiet (write r v).
Proof.
  intros Hr s. eexists. split; [reflexivity|]. split; [done|]. split; [|done].
  intros r' Hr'. simpl. rewrite fn_lookup_insert_ne; [done|]. by intros ->.
Qed.
Lemma quiet_ret : quiet (mret tt).
Proof. intros s. by exists s. Qed.

Section Extensions.
Context (exts : list CpuExtension) (Hexts : Forall boots exts).

Lemma configure_world_flags b w c f :
  f ∈ SECURITY_FLAGS →
  contains (scr_el3 (configure_world exts b w c)) (scr f) = contains (scr_el3 c) (scr f).
Proof.
  intros Hf. unfold configure_world. revert c. induction Hexts as [|ext l Hx Hl IH]; intros c; [done|].
  simpl. rewrite IH by done. case_match; [|done]. by apply boots_world.
Qed.

Lemma configure_world_secure b w : secure_state w (configure_world exts b w (per_world_base w)).
Proof.
  destruct (per_world_base_secure w) as [? ? ? ? ? ?].
  split; (rewrite configure_world_flags; [done|by_names]).
Qed.

Lemma configure_cpu_mdcr b w c : ∃ f, configure_cpu exts b w c = update_mdcr_el3 f c.
Proof.
  unfold configure_cpu. revert c. induction Hexts as [|ext l Hx Hl IH]; intros c.
  - exists (λ v, v). by destruct c as [? ? [] ?].
  - simpl. case_match; [|by apply IH]. destruct (boots_cpu ext Hx w c) as [f ->].
    destruct (IH Hl (update_mdcr_el3 f c)) as [g ->]. by exists (λ v, g (f v)).
Qed.

Lemma init_loop : quiet (initialise_el3_sysregs exts).
Proof.
  unfold initialise_el3_sysregs. apply quiet_bind.
  - clear -Hexts. induction Hexts as [|ext l Hx Hl IH]; [apply quiet_ret|]. cbn [for_each].
    apply quiet_bind; [|by apply IH]. apply quiet_get. intros s. by apply quiet_if, boots_init.
  - apply quiet_read. intros v. apply quiet_write. by_names.
Qed.

(** The context a world starts with. *)
Record starts_at (w : World) (level : ExceptionLevel) (ep : EntryPointInfo) (c : CpuContext) : Prop :=
  mkStartsAt {
    starts_pc : elr_el3 (el3_state c) = pc ep;
    starts_args : gpregs c = args ep ++ replicate (GPREGS_COUNT - length (args ep)) 0;
    starts_level : exception_level (spsr_el3 (el3_state c)) = level;
    starts_masked : Z.land (spsr_el3 (el3_state c)) DAIF = DAIF;
  }.

Lemma daif_mode m : Z.land (union DAIF m) (spsr SPSR_M) = Z.land m (spsr SPSR_M).
Proof.
  unfold DAIF. rewrite !land_union.
  by rewrite !(flags_disjoint spsr spsr_flags) by done.
Qed.
Lemma daif_masked m : Z.land (union DAIF m) DAIF = DAIF.
Proof.
  apply Z.bits_inj'. intros i Hi. unfold union. rewrite Z.land_spec, Z.lor_spec.
  by destruct (Z.testbit DAIF i), (Z.testbit m i).
Qed.
Lemma el2h_level_daif : exception_level (union DAIF M_AARCH64_EL2H) = El2.
Proof. rewrite <-exception_level_mode, daif_mode, el2h_mode. apply el2h_level. Qed.
Lemma el1h_level_daif : exception_level (union DAIF M_AARCH64_EL1H) = El1.
Proof. rewrite <-exception_level_mode, daif_mode, el1h_mode. apply el1h_level. Qed.

Lemma starts_at_mdcr w lvl ep c f : starts_at w lvl ep c → starts_at w lvl ep (update_mdcr_el3 f c).
Proof. by intros []. Qed.
Lemma starts_at_lower w lvl ep c v :
  starts_at w lvl ep c → starts_at w lvl ep (set_lower_el_sysregs v c).
Proof. by intros []. Qed.

Lemma initialise_common_starts b w ep :
  (length (args ep) ≤ GPREGS_COUNT)%nat →
  ∃ c, initialise_common b ep = Done c ∧ starts_at w El2 ep c.
Proof.
  intros Hlen. unfold initialise_common, copy_from_slice. cbv [mbind outcome_bind assert_].
  rewrite !bool_decide_true by (done || by rewrite length_replicate).
  eexists. split; [reflexivity|]. unfold pmuv3_configure_per_cpu.
  do 2 apply starts_at_mdcr. set (trf := present _ _ b).
  assert (Hc : ∀ c, starts_at w El2 ep c →
    starts_at w El2 ep (if trf then update_mdcr_el3 (λ v, union v (mdcr MDCR_TTRF)) c else c)).
  { intros c Hc. destruct trf; [by apply starts_at_mdcr|done]. }
  destruct sel2; [apply starts_at_lower|]; apply Hc, starts_at_mdcr, starts_at_lower; clear Hc;
    (split; [done| |apply el2h_level_daif|apply daif_masked]);
    exact (f_equal (app (args ep)) (drop_replicate (length (args ep)) GPREGS_COUNT 0)).
Qed.

Lemma configure_starts b w lvl ep c :
  starts_at w lvl ep c → starts_at w lvl ep (configure_cpu exts b w c).
Proof. intros Hc. destruct (configure_cpu_mdcr b w c) as [f ->]. by apply starts_at_mdcr. Qed.

(** The contexts of all worlds, at the exception levels the worlds start at. *)
Definition start_level (w : World) : ExceptionLevel :=
  match w with Secure => if sel2 then El2 else El1 | _ => El2 end.
Definition entry_points (ns secure realm : EntryPointInfo) (w : World) : EntryPointInfo :=
  match w with NonSecure => ns | Secure => secure | Realm => realm end.

Lemma initialise_world_starts b ns secure realm w :
  (∀ w, length (args (entry_points ns secure realm w)) ≤ GPREGS_COUNT)%nat →
  ∃ c, match w with
       | NonSecure => initialise_nonsecure exts b ns
       | Secure => initialise_secure exts b secure
       | Realm => initialise_realm exts b realm
       end = Done c ∧ starts_at w (start_level w) (entry_points ns secure realm w) c ∧
    ∃ c0, c = configure_cpu exts b w c0.
Proof.
  intros Hlen. specialize (Hlen w).
  destruct (initialise_common_starts b w (entry_points ns secure realm w) Hlen) as (c & Hc & Hs).
  destruct w; unfold initialise_nonsecure, initialise_secure, initialise_realm; simpl in *;
    rewrite Hc; eexists; (split; [reflexivity|]); (split; [|by eexists]); apply configure_starts; try done.
  destruct sel2; [done|]. destruct Hs. split; simpl; try done; [apply el1h_level_daif|apply daif_masked].
Qed.

Definition initialised (s : Core) (pw : World → PerWorldContext) : Prop :=
  PER_WORLD_CONTEXT s = Some pw ∧ ∀ w, secure_state w (pw w).

Lemma initialise_contexts_starts ns secure realm s :
  (∀ pw, PER_WORLD_CONTEXT s = Some pw → ∀ w, secure_state w (pw w)) →
  (∀ w, length (args (entry_points ns secure realm w)) ≤ GPREGS_COUNT)%nat →
  ∃ s' pw, initialise_contexts exts ns secure realm s = Ret tt s' ∧ initialised s' pw ∧
    ∀ w, starts_at w (start_level w) (entry_points ns secure realm w) (cpu_state s' w) ∧
      ∃ b c0, same_id (sysregs s) b ∧ cpu_state s' w = configure_cpu exts b w c0.
Proof.
  intros Hpw Hlen. destruct (init_loop s) as (s1 & Hs1 & [Hc1 Hp1] & Hi1 & _).
  unfold initialise_contexts. unfold mbind at 1, M_bind at 1. rewrite Hs1.
  set (s2 := match PER_WORLD_CONTEXT s1 with
             | Some _ => s1
             | None => set_per_world (Some (λ w, configure_world exts (sysregs s1) w (per_world_base w))) s1
             end).
  assert (Hi2 : ∃ pw, initialised s2 pw).
  { unfold s2, initialised. rewrite Hp1. destruct (PER_WORLD_CONTEXT s) as [pw|] eqn:E.
    - exists pw. rewrite Hp1. split; [done|]. by apply Hpw.
    - eexists. split; [reflexivity|]. intros w. apply configure_world_secure. }
  destruct Hi2 as (pw & Hpw2 & Hsec).
  destruct (initialise_world_starts (sysregs s2) ns secure realm NonSecure Hlen) as (cn & Hn & Hns & Hcn).
  destruct (initialise_world_starts (sysregs s2) ns secure realm Secure Hlen) as (cs & Hs & Hss & Hcs).
  destruct (initialise_world_starts (sysregs s2) ns secure realm Realm Hlen) as (cr & Hr & Hrs & Hcr).
  eexists. exists pw. split.
  { unfold initialise_per_world_contexts. cbv [mbind M_bind modify get lift]. fold s2.
    rewrite Hn, Hs, Hr. reflexivity. }
  assert (Hid : same_id (sysregs s) (sysregs s2)).
  { unfold s2. by destruct (PER_WORLD_CONTEXT s1). }
  split; [by split|]. intros []; (split; [done|]); exists (sysregs s2); simpl.
  - destruct Hcs as [c0 ->]. by exists c0.
  - destruct Hcn as [c0 ->]. by exists c0.
  - destruct Hcr as [c0 ->]. by exists c0.
Qed.
End Extensions.

(** C34: the contexts set up at boot.  For every list of extensions that only change
    their own bits, [initialise_contexts] returns; each world starts at its entry
    point with its arguments, at EL2 (S-EL1 for the Secure world of a build without
    [sel2]) with all interrupts masked, and SCR_EL3 gives it its own security
    state, interrupt routing and execution state: FIQs of the Normal World, and
    no other interrupts, are taken to EL3. *)
Theorem boot_contexts exts ns secure realm s :
  Forall boots exts →
  (∀ pw, PER_WORLD_CONTEXT s = Some pw → ∀ w, secure_state w (pw w)) →
  (∀ w, length (args (entry_points ns secure realm w)) = 8%nat) →
  ∃ s' pw, initialise_contexts exts ns secure realm s = Ret tt s' ∧
    PER_WORLD_CONTEXT s' = Some pw ∧
    ∀ w, secure_state w (pw w) ∧
      starts_at w (start_level w) (entry_points ns secure realm w) (cpu_state s' w).
Proof.
  intros Hexts Hpw Hlen.
  destruct (initialise_contexts_starts exts Hexts ns secure realm s Hpw) as (s' & pw & Hrun & [Hp Hsec] & Hst).
  { intros w. rewrite Hlen. unfold GPREGS_COUNT. lia. }
  exists s', pw. split; [done|]. split; [done|]. intros w. split; [done|]. apply Hst.
Qed.

(** ** The extensions *)
Lemma per_world_frame (f : PerWorldContext → PerWorldContext) :
  (∀ c, scr_el3 (f c) = scr_el3 c) →
  ∀ c fl, contains (scr_el3 (f c)) (scr fl) = contains (scr_el3 c) (scr fl).
Proof. intros Hf c fl. by rewrite Hf. Qed.

Lemma union_security v g fl :
  g ∉ SECURITY_FLAGS → fl ∈ SECURITY_FLAGS → contains (union v (scr g)) (scr fl) = contains v (scr fl).
Proof.
  intros Hg Hfl. rewrite (has_union scr scr_flags), bool_decide_false; [done|]. by intros ->.
Qed.

Lemma update_mdcr_id c : c = update_mdcr_el3 (λ v, v) c.
Proof. by destruct c as [? ? [] ?]. Qed.
Lemma update_mdcr_twice f g c : update_mdcr_el3 g (update_mdcr_el3 f c) = update_mdcr_el3 (λ v, g (f v)) c.
Proof. done. Qed.

Lemma resume_quiet m : quiet m → ∀ s, ∃ s', m s = Ret tt s' ∧ same_cpu s s'.
Proof. intros Hm s. destruct (Hm s) as (s' & ? & ? & _). by exists s'. Qed.

Lemma hcx_boots : boots Hcx.
Proof.
  split; [apply quiet_write; by_names|intros; by apply union_security; [by_names|]
         |intros; eexists; apply update_mdcr_id|apply resume_quiet, quiet_ret].
Qed.

Lemma amu_boots : boots Amu.
Proof.
  split; [apply quiet_ret|done|intros; eexists; apply update_mdcr_id|].
  intros s. eexists. split; [reflexivity|]. by case_match.
Qed.

(** An extension that neither initialises registers nor restores any at resume. *)
Lemma simple_boots ext :
  init ext = no_init → restore_context_after_suspend_to_powerdown ext = no_init →
  (∀ b w c f, f ∈ SECURITY_FLAGS →
     contains (scr_el3 (configure_per_world ext b w c)) (scr f) = contains (scr_el3 c) (scr f)) →
  (∀ w c, ∃ f, configure_per_cpu ext w c = update_mdcr_el3 f c) → boots ext.
Proof.
  intros Hi Hr Hw Hc. split; [rewrite Hi; apply quiet_ret|done|done|].
  rewrite Hr. apply resume_quiet, quiet_ret.
Qed.

Lemma simd_boots c : boots (Simd c).
Proof.
  split; [..|intros; eexists; apply update_mdcr_id|apply resume_quiet, quiet_ret].
  - apply quiet_get. intros s. apply quiet_bind; [|apply quiet_get; intros s'].
    + case_match; [|apply quiet_ret]. apply quiet_if, quiet_read. intros v.
      repeat (apply quiet_bind; [apply quiet_write; by_names|]). apply quiet_write. by_names.
    + case_match; [|apply quiet_ret]. apply quiet_if, quiet_read. intros v.
      apply quiet_bind; [apply quiet_write; by_names|]. apply quiet_read. intros v'.
      apply quiet_get. intros s1. apply quiet_bind; apply quiet_write; by_names.
  - intros b w c0 fl Hfl. unfold configure_per_world, Simd, simd_configure_per_world.
    unfold sve_configure_per_world, sme_configure_per_world.
    repeat case_match; try done; simpl; (rewrite union_security; [done|by_names|done]).
Qed.

Lemma fvp_boots : Forall boots fvp_cpu_extensions.
Proof.
  unfold fvp_cpu_extensions. repeat (apply Forall_cons_iff; split); [apply amu_boots|..|exact (List.Forall_nil _)];
    try apply hcx_boots; try apply simd_boots;
    (apply simple_boots; [done|done| |]);
    cbv [configure_per_world configure_per_cpu Fgt Fgt2 MemoryTagging Mpam MultiThreadedPmu Ras Sctlr2
      StatisticalProfiling SysRegTrace Tcr2 TraceBufferNonSecure TraceFiltering];
    try (intros b w c f Hf; unfold mpam_configure_per_world, mte2_configure_per_world,
           sys_reg_trace_configure_per_world; repeat case_decide; try reflexivity;
         (apply union_security; [by_names|done]));
    intros w c; unfold mtpmu_configure_per_cpu, trf_configure_per_cpu,
      spe_configure_per_cpu, trbe_configure_per_cpu, trbe_enable_ns, trbe_disable, no_per_cpu;
    repeat case_decide; rewrite ?update_mdcr_twice;
    first [eexists; reflexivity|eexists; apply update_mdcr_id].
Qed.

(** The bits of MDCR_EL3 for the trace buffer, after all extensions of FVP. *)
Lemma fvp_trace_bits b w c :
  present FEAT_TRBE "id_aa64dfr0_el1" b = true →
  let m := mdcr_el3 (el3_state (configure_cpu fvp_cpu_extensions b w c)) in
  contains m (mdcr MDCR_NSTB_EN) = bool_decide (w = NonSecure) ∧
  contains m (mdcr MDCR_NSTB_SS) = true ∧ contains m (mdcr MDCR_NSTBE) = false.
Proof.
  intros Hp.
  assert (∃ c1, configure_cpu fvp_cpu_extensions b w c =
    let c2 := trbe_configure_per_cpu w c1 in
    if present FEAT_TRF "id_aa64dfr0_el1" b then trf_configure_per_cpu w c2 else c2) as [c1 ->].
  { eexists. unfold configure_cpu, fvp_cpu_extensions. cbn [foldl is_present configure_per_cpu
      TraceBufferNonSecure TraceFiltering]. rewrite Hp. reflexivity. }
  cbv zeta. unfold trf_configure_per_cpu, trbe_configure_per_cpu, trbe_enable_ns, trbe_disable.
  destruct (present FEAT_TRF _ b), w; cbn [decide decide_rel World_eq_dec];
    repeat (case_decide; try done); cbn [mdcr_el3 el3_state update_mdcr_el3 set_el3_state set_mdcr_el3];
    eval_flags; done.
Qed.

(** The trace buffer belongs to the Normal World.  On FVP, with FEAT_TRBE, the
    buffer's owner (MDCR_EL3.NSTBE and NSTB[0]) is the security state of the world
    that runs (SCR_EL3.NSE and NS) for the Normal World only, and only it can reach
    the registers of the buffer without a trap: the rules [trbe.rs] states to
    enable and to disable the extension. *)
Theorem trace_buffer_owner ns secure realm s :
  PER_WORLD_CONTEXT s = None →
  (∀ w, length (args (entry_points ns secure realm w)) = 8%nat) →
  present FEAT_TRBE "id_aa64dfr0_el1" (sysregs s) = true →
  ∃ s' pw, initialise_contexts fvp_cpu_extensions ns secure realm s = Ret tt s' ∧
    PER_WORLD_CONTEXT s' = Some pw ∧
    ∀ w, let m := mdcr_el3 (el3_state (cpu_state s' w)) in
      (contains m (mdcr MDCR_NSTBE) = contains (scr_el3 (pw w)) (scr SCR_NSE) ∧
       contains m (mdcr MDCR_NSTB_SS) = contains (scr_el3 (pw w)) (scr SCR_NS) ↔ w = NonSecure) ∧
      contains m (mdcr MDCR_NSTB_EN) = bool_decide (w = NonSecure).
Proof.
  intros Hnone Hlen Htrbe.
  destruct (initialise_contexts_starts fvp_cpu_extensions fvp_boots ns secure realm s)
    as (s' & pw & Hrun & [Hp Hsec] & Hst).
  { by rewrite Hnone. }
  { intros w. rewrite Hlen. unfold GPREGS_COUNT. lia. }
  exists s', pw. split; [done|]. split; [done|]. intros w.
  destruct (Hst w) as (_ & b & c0 & Hid & ->).
  destruct (fvp_trace_bits b w c0) as (Hen & Hss & Hbe).
  { etrans; [|exact Htrbe]. symmetry. apply present_stable; [by_names|done]. }
  cbv zeta. rewrite Hen, Hss, Hbe, (state_ns w _ (Hsec w)), (state_nse w _ (Hsec w)).
  split; [|done]. destruct w; split; try done; by intros [??].
Qed.

(** ** Injected exceptions *)

(** The registers of the exception level the exception is injected into. *)
Definition el_regs (el : ExceptionLevel) : string * string * string * string :=
  match el with
  | El2 => ("vbar_el2", "elr_el2", "esr_el2", "spsr_el2")
  | _ => ("vbar_el1", "elr_el1", "esr_el1", "spsr_el1")
  end.
Definition vector_offset (old_spsr : Z) (to_el : ExceptionLevel) : Z :=
  if decide (exception_level old_spsr = to_el) then
    match stack_pointer old_spsr with SpElX => CURRENT_EL_SPX | SpEl0 => CURRENT_EL_SP0 end
  else LOWER_EL_AARCH64.

Lemma target_el_cases b from scr_el3 :
  from ≠ El3 → target_el b from scr_el3 = El1 ∨ target_el b from scr_el3 = El2.
Proof. intros Hf. unfold target_el. destruct from; repeat case_match; auto; done. Qed.

Lemma find_vector_done old_spsr vbar to_el :
  vbar + LOWER_EL_AARCH64 < 2 ^ 64 →
  find_exception_vector old_spsr vbar to_el = Done (vbar + vector_offset old_spsr to_el).
Proof.
  intros Hv. unfold find_exception_vector, vector_offset, usize_add, LOWER_EL_AARCH64, CURRENT_EL_SPX,
    CURRENT_EL_SP0 in *. cbv zeta.
  repeat case_decide; destruct (stack_pointer old_spsr); try done;
    (rewrite (proj2 (Z.ltb_lt _ _)); [done|lia]).
Qed.

(** The bits of a program status that are built up flag by flag. *)
Lemma spsr_union v f g : g ≠ f → Z.land (union v (spsr g)) (spsr f) = Z.land v (spsr f).
Proof. intros Hf. rewrite land_union, (flags_disjoint spsr spsr_flags), Z.lor_0_r; done. Qed.
Lemma spsr_if (c : bool) v f g :
  g ≠ f → Z.land (if c then union v (spsr g) else v) (spsr f) = Z.land v (spsr f).
Proof. intros Hf. destruct c; [by apply spsr_union|done]. Qed.
Lemma spsr_keep v old f g :
  g ≠ f → Z.land (union v (Z.land old (spsr g))) (spsr f) = Z.land v (spsr f).
Proof.
  intros Hf. rewrite land_union, <-(Z.land_assoc old), (flags_disjoint spsr spsr_flags) by done.
  by rewrite Z.land_0_r, Z.lor_0_r.
Qed.
Lemma spsr_daif v f :
  f ∉ [SPSR_D; SPSR_A; SPSR_I; SPSR_F] → Z.land (union v DAIF) (spsr f) = Z.land v (spsr f).
Proof.
  intros Hf. unfold DAIF. rewrite !union_assoc.
  rewrite !spsr_union; [done|intros Heq; apply Hf; rewrite <-Heq; by_names..].
Qed.
Lemma spsr_mode (c : bool) f :
  f ≠ SPSR_M → Z.land (if c then M_AARCH64_EL2H else M_AARCH64_EL1H) (spsr f) = 0.
Proof.
  intros Hf. destruct c; [rewrite <-el2h_mode|rewrite <-el1h_mode];
    by rewrite <-Z.land_assoc, (flags_disjoint spsr spsr_flags), Z.land_0_r.
Qed.

(** Steps back through the flags that [create_spsr] adds. *)
Ltac eval_spsr :=
  unfold create_spsr; cbv zeta;
  match goal with |- context [present FEAT_GCS ?r ?b] => destruct (present FEAT_GCS r b) end;
  repeat first [rewrite spsr_if by done | rewrite spsr_keep by done | rewrite spsr_daif by by_names].

Lemma create_spsr_mode b old to_el :
  to_el = El1 ∨ to_el = El2 → Z.land (create_spsr b old to_el) (spsr SPSR_M) =
    match to_el with El2 => M_AARCH64_EL2H | _ => M_AARCH64_EL1H end.
Proof. intros Hto. eval_spsr; (destruct Hto as [->| ->]; [apply el1h_mode|apply el2h_mode]). Qed.
Lemma create_spsr_level b old to_el :
  to_el = El1 ∨ to_el = El2 → exception_level (create_spsr b old to_el) = to_el.
Proof.
  intros Hto. rewrite <-exception_level_mode, create_spsr_mode by done.
  destruct Hto as [->| ->]; [apply el1h_level|apply el2h_level].
Qed.
Lemma create_spsr_aarch64 b old to_el : Z.land (create_spsr b old to_el) (spsr SPSR_M_4) = 0.
Proof. eval_spsr; by apply spsr_mode. Qed.
Lemma create_spsr_nzcv b old to_el :
  Z.land (create_spsr b old to_el) (spsr SPSR_NZCV) = Z.land old (spsr SPSR_NZCV).
Proof.
  eval_spsr; rewrite land_union; repeat first [rewrite spsr_if by done | rewrite spsr_keep by done
    | rewrite spsr_daif by by_names]; rewrite spsr_mode by done;
    by rewrite Z.lor_0_l, <-Z.land_assoc, Z.land_diag.
Qed.
Lemma create_spsr_dit b old to_el :
  Z.land (create_spsr b old to_el) (spsr SPSR_DIT) = Z.land old (spsr SPSR_DIT).
Proof.
  eval_spsr; rewrite land_union; repeat first [rewrite spsr_if by done | rewrite spsr_keep by done
    | rewrite spsr_daif by by_names]; rewrite spsr_mode by done;
    by rewrite Z.lor_0_l, <-Z.land_assoc, Z.land_diag.
Qed.
Lemma create_spsr_daif b old to_el : Z.land (create_spsr b old to_el) DAIF = DAIF.
Proof.
  assert (Hu : ∀ v g, Z.land v DAIF = DAIF → Z.land (union v g) DAIF = DAIF).
  { intros v g Hv. rewrite land_union, Hv. apply Z.bits_inj'. intros i Hi.
    rewrite Z.lor_spec, Z.land_spec. by destruct (Z.testbit DAIF i), (Z.testbit g i). }
  assert (Hd : ∀ v, Z.land (union v DAIF) DAIF = DAIF).
  { intros v. unfold union. rewrite Z.lor_comm. apply daif_masked. }
  assert (Hi : ∀ (c : bool) v g, Z.land v DAIF = DAIF → Z.land (if c then union v g else v) DAIF = DAIF).
  { intros [] v g Hv; [by apply Hu|done]. }
  unfold create_spsr. cbv zeta. destruct (present FEAT_GCS _ b);
    repeat first [apply Hd | apply Hi | apply Hu].
Qed.

(** The bits that depend on the features of the core and on the control registers of
    the target. *)
Lemma spsr_has_if (c : bool) v f g :
  contains (if c then union v (spsr g) else v) (spsr f) = (c && bool_decide (g = f)) || contains v (spsr f).
Proof. destruct c; [by rewrite (has_union spsr spsr_flags)|done]. Qed.
Lemma spsr_has_keep v old f g :
  g ≠ f → contains (union v (Z.land old (spsr g))) (spsr f) = contains v (spsr f).
Proof. intros Hf. unfold contains. by rewrite spsr_keep. Qed.
Lemma spsr_has_mode (c : bool) f :
  f ∉ [SPSR_M; SPSR_D; SPSR_A; SPSR_I; SPSR_F] →
  contains (union (if c then M_AARCH64_EL2H else M_AARCH64_EL1H) DAIF) (spsr f) = false.
Proof.
  intros Hf. unfold contains.
  rewrite spsr_daif by (intros Hin; by apply Hf, elem_of_cons; right).
  rewrite spsr_mode by (intros ->; by apply Hf, elem_of_cons; left).
  apply Z.eqb_neq. intros Hz. by apply (flag_nonzero spsr spsr_flags f).
Qed.

(** What [AArch64.TakeException] of the architecture makes of them. *)
Definition sctlr_has (b : Bank) (to_el : ExceptionLevel) (field : string) : bool :=
  match to_el with
  | El2 => contains (b "sctlr_el2") (bits_of ("SctlrEl2::" +:+ field))
  | _ => contains (b "sctlr_el1") (bits_of ("SctlrEl1::" +:+ field))
  end.
Definition tge (b : Bank) : bool :=
  present FEAT_VHE "id_aa64mmfr1_el1" b && contains (b "hcr_el2") (bits_of "HcrEl2::TGE").
Definition taken_pstate (b : Bank) (old : Z) (to_el : ExceptionLevel) : list (SpsrFlag * bool) :=
  [ (SPSR_SSBS, present FEAT_SSBS "id_aa64pfr1_el1" b && sctlr_has b to_el "DSSBS");
    (SPSR_ALLINT, present FEAT_NMI "id_aa64pfr1_el1" b && negb (sctlr_has b to_el "SPINTMASK"));
    (SPSR_PAN, contains old (spsr SPSR_PAN) ||
       (negb (sctlr_has b to_el "SPAN") && match to_el with El2 => tge b | _ => true end));
    (SPSR_TCO, present FEAT_MTE "id_aa64pfr1_el1" b);
    (SPSR_PM, present FEAT_EBEP "id_aa64dfr1_el1" b);
    (SPSR_EXLOCK, present FEAT_GCS "id_aa64pfr1_el1" b &&
       match to_el with
       | El2 => contains (b "gcscr_el2") (bits_of "GcscrEl2::EXLOCKEN")
       | _ => contains (b "gcscr_el1") (bits_of "GcscrEl1::EXLOCKEN")
       end) ].

Lemma if_if {A} (c d : bool) (x y : A) : (if c then if d then x else y else y) = if c && d then x else y.
Proof. by destruct c. Qed.

Lemma create_spsr_pstate b old to_el f v :
  to_el = El1 ∨ to_el = El2 → (f, v) ∈ taken_pstate b old to_el →
  contains (create_spsr b old to_el) (spsr f) = v.
Proof.
  intros Hto Hin. unfold create_spsr. cbv zeta.
  rewrite if_if.
  unfold taken_pstate in Hin. rewrite !elem_of_cons, elem_of_nil in Hin.
  destruct Hin as [[= -> ->]|[[= -> ->]|[[= -> ->]|[[= -> ->]|[[= -> ->]|[[= -> ->]|[]]]]]]];
    repeat first [rewrite spsr_has_if | rewrite spsr_has_keep by done]; rewrite spsr_has_mode by by_names;
    cbn; destruct Hto as [->| ->]; cbn; rewrite ?andb_false_r, ?andb_true_r, ?orb_false_r, ?orb_false_l; try done.
  rewrite bool_decide_true by done. cbn. f_equal. apply andb_comm.
Qed.

(** All other bits are clear. *)
Lemma create_spsr_clear b old to_el m :
  (∀ f, Z.land (spsr f) m = 0) → Z.land (create_spsr b old to_el) m = 0.
Proof.
  intros Hm.
  assert (Hu : ∀ v g, Z.land v m = 0 → Z.land g m = 0 → Z.land (union v g) m = 0)
    by (intros v g Hv Hg; by rewrite land_union, Hv, Hg).
  assert (Hi : ∀ (c : bool) v g, Z.land v m = 0 → Z.land g m = 0 → Z.land (if c then union v g else v) m = 0)
    by (intros []; auto).
  assert (Hk : ∀ f, Z.land (Z.land old (spsr f)) m = 0)
    by (intros f; by rewrite <-Z.land_assoc, Hm, Z.land_0_r).
  assert (Hd : Z.land DAIF m = 0) by (unfold DAIF; auto).
  assert (Hmode : ∀ c : bool, Z.land (if c then M_AARCH64_EL2H else M_AARCH64_EL1H) m = 0)
    by (intros []; [rewrite <-el2h_mode|rewrite <-el1h_mode]; by rewrite <-Z.land_assoc, Hm, Z.land_0_r).
  unfold create_spsr. cbv zeta. rewrite if_if. auto 20.
Qed.

(** The level the architecture takes the exception to: EL2 from EL2 itself, and from
    EL1 and EL0 where a hypervisor that is also the host has taken over their
    exceptions, in a security state that has an EL2. *)
Definition taken_to (b : Bank) (scr_el3 : Z) (from to_el : ExceptionLevel) : Prop :=
  (to_el = El1 ∨ to_el = El2) ∧
  (to_el = El2 ↔ from = El2 ∨
     tge b = true ∧ (contains scr_el3 (scr SCR_NS) = true ∨ contains scr_el3 (scr SCR_EEL2) = true)).

Lemma target_el_taken b from scr_el3 : from ≠ El3 → taken_to b scr_el3 from (target_el b from scr_el3).
Proof.
  intros Hf. split; [by apply target_el_cases|].
  unfold target_el, is_secure_trap_without_sel2. change (is_tge_enabled b) with (tge b).
  destruct from, (tge b), (contains _ (scr SCR_NS)), (contains _ (scr SCR_EEL2)); simpl; naive_solver.
Qed.

(** The state a lower exception level finds after the injection. *)
Record injected (w : World) (to_el : ExceptionLevel) (s s' : Core) : Prop := mkInjected {
  inj_regs : let '(vbar, elr, esr, spsr) := el_regs to_el in
    sysregs s' elr = elr_el3 (el3_state (cpu_state s w)) ∧
    sysregs s' spsr = spsr_el3 (el3_state (cpu_state s w)) ∧
    sysregs s' esr = bits_of (match to_el with El2 => "EsrEl2::IL" | _ => "EsrEl1::IL" end) ∧
    (∀ r, r ∉ [elr; esr; spsr] → sysregs s' r = sysregs s r) ∧
    elr_el3 (el3_state (cpu_state s' w)) =
      sysregs s vbar + vector_offset (spsr_el3 (el3_state (cpu_state s w))) to_el;
  inj_level : exception_level (spsr_el3 (el3_state (cpu_state s' w))) = to_el;
  inj_masked : Z.land (spsr_el3 (el3_state (cpu_state s' w))) DAIF = DAIF;
  inj_aarch64 : contains (spsr_el3 (el3_state (cpu_state s' w))) (spsr SPSR_M_4) = false;
  inj_kept f : f ∈ [SPSR_NZCV; SPSR_DIT] →
    Z.land (spsr_el3 (el3_state (cpu_state s' w))) (spsr f) =
    Z.land (spsr_el3 (el3_state (cpu_state s w))) (spsr f);
  inj_mode : Z.land (spsr_el3 (el3_state (cpu_state s' w))) (spsr SPSR_M) =
    match to_el with El2 => M_AARCH64_EL2H | _ => M_AARCH64_EL1H end;
  inj_pstate f v : (f, v) ∈ taken_pstate (sysregs s') (spsr_el3 (el3_state (cpu_state s w))) to_el →
    contains (spsr_el3 (el3_state (cpu_state s' w))) (spsr f) = v;
  inj_clear m : (∀ f, Z.land (spsr f) m = 0) → Z.land (spsr_el3 (el3_state (cpu_state s' w))) m = 0;
  inj_gpregs : gpregs (cpu_state s' w) = gpregs (cpu_state s w);
  inj_worlds w' : w' ≠ w → cpu_state s' w' = cpu_state s w';
  inj_per_world : PER_WORLD_CONTEXT s' = PER_WORLD_CONTEXT s;
}.

Lemma inject_spec w s pw to_el vbar :
  PER_WORLD_CONTEXT s = Some pw →
  let st := el3_state (cpu_state s w) in
  contains (spsr_el3 st) (spsr SPSR_M_4) = false →
  target_el (sysregs s) (exception_level (spsr_el3 st)) (scr_el3 (pw w)) = to_el →
  to_el = El1 ∨ to_el = El2 → (el_regs to_el).1.1.1 = vbar → sysregs s vbar + LOWER_EL_AARCH64 < 2 ^ 64 →
  ∃ s', inject_undef64 w s = Ret tt s' ∧ injected w to_el s s'.
Proof.
  intros Hpw st H4 Ht Hto Hvb Hv. subst st.
  assert (Hcr : ∀ sp, Z.land sp (spsr SPSR_M_4) = 0 → contains sp (spsr SPSR_M_4) = false).
  { intros sp Hsp. unfold contains. rewrite Hsp. apply Z.eqb_neq. intros He.
    by apply (flag_nonzero spsr spsr_flags SPSR_M_4). }
  unfold inject_undef64, world_context. cbv [mbind M_bind get lift]. rewrite Hpw. cbn [unwrap].
  cbv [mret M_ret]. rewrite Ht, H4.
  destruct Hto as [-> | ->]; simpl in Hvb; subst vbar; cbv [read write modify]; cbn [sysregs set_sysregs];
    rewrite find_vector_done by done; eexists; (split; [reflexivity|]);
    (split; [| | | |intros f Hf| |intros f v Hf|intros m Hm| | |]); cbn [el_regs sysregs cpu_state set_cpu_state update_context set_sysregs];
    rewrite ?fn_lookup_insert; cbn [el3_state set_el3_state set_elr_el3 set_spsr_el3 spsr_el3 elr_el3 gpregs];
    try (by apply create_spsr_level; auto); try apply create_spsr_daif;
    try (by apply create_spsr_mode; auto); try (by apply create_spsr_pstate; auto); try (by apply create_spsr_clear);
    try (by apply Hcr, create_spsr_aarch64); try done;
    try (by intros w' Hw; rewrite fn_lookup_insert_ne);
    try (rewrite !elem_of_cons, elem_of_nil in Hf; destruct Hf as [->|[->|[]]];
         [apply create_spsr_nzcv|apply create_spsr_dit]).
  all: (split; [by rewrite !fn_lookup_insert_ne, fn_lookup_insert by by_names|]);
    (split; [done|]); (split; [by rewrite fn_lookup_insert_ne, fn_lookup_insert by by_names|]);
    (split; [|done]); intros r Hr; rewrite !elem_of_cons, elem_of_nil in Hr;
    by rewrite !fn_lookup_insert_ne by naive_solver.
Qed.


(** ** Resuming after a powerdown *)

(** The registers of the activity monitors that are saved. *)
Definition amu_regs (b : Bank) : list SysReg :=
  ["amcr_el0"; "amuserenr_el0"] ++ amu_counters (cg1nc (b "amcgcr_el0")).

Lemma amu_counters_no_control n r :
  r ∈ amu_counters n → r ∉ ["amcr_el0"; "amuserenr_el0"; "amcgcr_el0"; "pmcr_el0"; "hcrx_el2"].
Proof.
  intros Hr. assert (Hall : Forall (λ r, r ∉ ["amcr_el0"; "amuserenr_el0"; "amcgcr_el0"; "pmcr_el0";
    "hcrx_el2"]) (amu_group0 ++ amu_group1)) by by_names.
  eapply list.Forall_forall in Hall; [exact Hall|]. apply elem_of_app in Hr as [Hr|Hr]; apply elem_of_app.
  - by left.
  - right. by eapply elem_of_take in Hr as (i & Hr%list_elem_of_lookup_2 & _).
Qed.

Lemma amu_round_trip b b' ctx r :
  b' "amcgcr_el0" = b "amcgcr_el0" → r ∈ amu_regs b →
  amu_restore (amu_save b ctx) b' r = b r.
Proof.
  intros Hn Hr. unfold amu_restore, amu_save. cbv zeta.
  assert (Hne : ∀ n r, r ∈ amu_counters n → r ∉ ["amuserenr_el0"; "amcr_el0"]).
  { intros n r' Hr'%amu_counters_no_control Hin. apply Hr'. rewrite !elem_of_cons in Hin.
    rewrite !elem_of_cons. tauto. }
  rewrite (fn_lookup_insert_ne b' "amcr_el0" "amcgcr_el0" 0), Hn by done.
  set (n := cg1nc (b "amcgcr_el0")) in *.
  apply elem_of_app in Hr as [Hr|Hr].
  - assert (Hc : r ∈ ["amuserenr_el0"; "amcr_el0"])
      by (rewrite !elem_of_cons in Hr; rewrite !elem_of_cons; tauto).
    rewrite copy_in by done. rewrite copy_out; [by apply copy_in|]. intros Ha. by apply (Hne n r).
  - rewrite copy_out by (by apply (Hne n)). rewrite copy_in by done. by apply copy_in.
Qed.

Lemma copy_from_slice_done l n src :
  (n ≤ length l)%nat → length src = n → copy_from_slice l n src = Done (src ++ drop n l).
Proof.
  intros Hn Hs. unfold copy_from_slice. cbv [mbind outcome_bind].
  by rewrite !bool_decide_true.
Qed.
Lemma copy_from_slice_panic l n src :
  (length l < n)%nat ∨ length src ≠ n → copy_from_slice l n src = Panic.
Proof.
  intros Hn. unfold copy_from_slice. cbv [mbind outcome_bind].
  case_bool_decide; [|done]. rewrite bool_decide_false; [done|]. lia.
Qed.

(** Only the activity monitors have registers to restore. *)
Lemma fvp_resume s :
  for_each fvp_cpu_extensions restore_context_after_suspend_to_powerdown s =
  Ret tt (if amu_is_present (sysregs s) then set_sysregs (amu_restore (amu_context s) (sysregs s)) s else s).
Proof. reflexivity. Qed.

(** The state of the core once the contexts are written. *)
Definition resumed (c : CpuContext) (secure_regs realm_regs : list Z) (s : Core) : Core :=
  update_context Realm (set_gpregs realm_regs)
    (update_context Secure (set_gpregs secure_regs) (update_context NonSecure (λ _, c) s)).

Lemma resume_loop exts s :
  Forall boots exts →
  ∃ s', for_each exts restore_context_after_suspend_to_powerdown s = Ret tt s' ∧ same_cpu s s'.
Proof.
  intros Hexts. revert s. induction Hexts as [|ext l Hx Hl IH]; intros s; [by exists s|].
  destruct (boots_resume ext Hx s) as (s1 & Hs1 & [Hc1 Hp1]).
  destruct (IH s1) as (s2 & Hs2 & [Hc2 Hp2]).
  exists s2. split; [cbn [for_each]; cbv [mbind M_bind]; by rewrite Hs1|]. split; congruence.
Qed.

Lemma update_contexts_suspend_eq exts addr ctx sargs rargs s :
  Forall boots exts →
  ∃ c s1, starts_at NonSecure El2 (mkEntryPointInfo addr [ctx; 0; 0; 0; 0; 0; 0; 0]) c ∧
    same_cpu s s1 ∧ amu_context s1 = amu_context s ∧ same_id (sysregs s) (sysregs s1) ∧
    update_contexts_suspend exts addr ctx sargs rargs s =
    match copy_from_slice (gpregs (cpu_state s Secure)) 18 (values sargs) with
    | Done sregs =>
        match copy_from_slice (gpregs (cpu_state s Realm)) (length rargs) rargs with
        | Done rregs => for_each exts restore_context_after_suspend_to_powerdown
                          (resumed c sregs rregs s1)
        | Panic => Crash
        end
    | Panic => Crash
    end.
Proof.
  intros Hexts.
  destruct (init_loop exts Hexts s) as (s1 & Hs1 & [Hc1 Hp1] & Hi1 & Ha1).
  destruct (initialise_common_starts (sysregs s1) NonSecure (mkEntryPointInfo addr [ctx; 0; 0; 0; 0; 0; 0; 0]))
    as (c & Hc & Hst); [simpl; unfold GPREGS_COUNT; lia|].
  exists (configure_cpu exts (sysregs s1) NonSecure c), s1.
  split; [by apply configure_starts|]. split; [done|].
  split; [done|]. split; [done|].
  unfold update_contexts_suspend. unfold mbind at 1, M_bind at 1. rewrite Hs1.
  cbv [mbind M_bind get lift modify]. unfold initialise_nonsecure. cbv [mbind outcome_bind].
  rewrite Hc. cbv [mret outcome_ret]. rewrite !Hc1.
  by destruct (copy_from_slice _ 18 _); [destruct (copy_from_slice _ (length rargs) _)|].
Qed.

(** C36: a core that resumes from a powerdown.  The Normal World starts again at the
    address it gave, with its context identifier, at EL2 with interrupts masked; the
    Secure world and the Realm world keep their contexts, with the registers the
    dispatchers give them; and the activity monitors count on from where they were
    saved.  It panics exactly when the dispatchers give too few or too many
    registers. *)
Theorem resume_contexts addr ctx sargs rargs s :
  (∀ w, length (gpregs (cpu_state s w)) = GPREGS_COUNT) →
  let run := update_contexts_suspend fvp_cpu_extensions addr ctx sargs rargs s in
  (length (values sargs) ≠ 18%nat ∨ (GPREGS_COUNT < length rargs)%nat → run = Crash) ∧
  (length (values sargs) = 18%nat → (length rargs ≤ GPREGS_COUNT)%nat →
   ∃ s', run = Ret tt s' ∧ PER_WORLD_CONTEXT s' = PER_WORLD_CONTEXT s ∧
     starts_at NonSecure El2 (mkEntryPointInfo addr [ctx; 0; 0; 0; 0; 0; 0; 0]) (cpu_state s' NonSecure) ∧
     cpu_state s' Secure =
       set_gpregs (values sargs ++ drop 18 (gpregs (cpu_state s Secure))) (cpu_state s Secure) ∧
     cpu_state s' Realm =
       set_gpregs (rargs ++ drop (length rargs) (gpregs (cpu_state s Realm))) (cpu_state s Realm) ∧
     ∀ b0 ctx0 r, amu_context s = amu_save b0 ctx0 → amu_is_present (sysregs s) = true →
       b0 "amcgcr_el0" = sysregs s "amcgcr_el0" → r ∈ amu_regs b0 → sysregs s' r = b0 r).
Proof.
  intros Hlen. cbv zeta.
  destruct (update_contexts_suspend_eq fvp_cpu_extensions addr ctx sargs rargs s fvp_boots) as (c & s1 & Hst & [Hc1 Hp1] & Ha1 & Hi1 & ->).
  split.
  - intros Hbad. destruct (decide (length (values sargs) = 18%nat)) as [H18|H18].
    + rewrite copy_from_slice_done by (rewrite ?Hlen; unfold GPREGS_COUNT; (done || lia)).
      rewrite copy_from_slice_panic; [done|]. rewrite Hlen. left. destruct Hbad; [done|lia].
    + by rewrite copy_from_slice_panic by auto.
  - intros H18 Hr.
    rewrite copy_from_slice_done by (rewrite ?Hlen; unfold GPREGS_COUNT; (done || lia)).
    rewrite copy_from_slice_done by (rewrite ?Hlen; (done || lia)).
    rewrite fvp_resume. eexists. split; [reflexivity|].
    assert (Hamu : amu_is_present (sysregs s1) = amu_is_present (sysregs s))
      by (symmetry; apply present_stable; [by_names|done]).
    assert (Hif : ∀ (b : bool) v (s0 : Core), cpu_state (if b then set_sysregs v s0 else s0) = cpu_state s0 ∧
      PER_WORLD_CONTEXT (if b then set_sysregs v s0 else s0) = PER_WORLD_CONTEXT s0) by (by intros []).
    cbn [resumed update_context set_cpu_state sysregs amu_context]. rewrite Hamu, Ha1.
    split; [rewrite (proj2 (Hif _ _ _)); done|].
    rewrite !(proj1 (Hif _ _ _)). cbn [resumed update_context set_cpu_state cpu_state].
    split; [done|]. split; [by simpl; rewrite Hc1|]. split; [by simpl; rewrite Hc1|].
    intros b0 ctx0 r Hctx Hpr Hn Hin. rewrite Hpr. simpl. rewrite Hctx.
    apply amu_round_trip; [|done]. rewrite Hn. symmetry. apply Hi1. by_names.
Qed.
End Boot.
