(* ===== verification/SimdProps.v ===== *)
(** * The vector registers survive a switch of worlds *)

From Stdlib Require Import ZArith Lia.
From stdpp Require Import base list numbers option functions strings sets.
From S2P Require Import Prelude Smccc Services Context Extensions Simd ContextProofs.
Open Scope rust_scope.
Open Scope string_scope.
Open Scope list_scope.
Open Scope Z_scope.

Section Sve.
Context `{ArmSysregs} `{Features}.

(** Whether FFR can be accessed in the state of the registers: not in streaming
    mode without FEAT_SME_FA64. *)
Definition ffr_accessible (has_sme : bool) (b : Bank) : bool := should_save_restore_ffr has_sme b b.

Lemma bank_ne (b : Bank) r n v : r ≠ n → <[n := v]> b r = b r.
Proof. intros Hr. by apply fn_lookup_insert_ne. Qed.

(** The registers of the three kinds are different ones. *)
Definition OTHERS : list SysReg := ["ffr"; "fpsr"; "fpcr"; "svcr"; "id_aa64smfr0_el1"].
Lemma vector_disjoint : NoDup (z_regs ++ p_regs ++ OTHERS).
Proof. by_names. Qed.
Lemma z_disjoint r : r ∈ z_regs → (r ∉ p_regs) ∧ (r ∉ OTHERS).
Proof.
  intros Hr. pose proof vector_disjoint as (_ & Hd & _)%NoDup_app. specialize (Hd r Hr).
  rewrite elem_of_app in Hd. tauto.
Qed.
Lemma p_disjoint r : r ∈ p_regs → (r ∉ z_regs) ∧ (r ∉ OTHERS).
Proof.
  intros Hr. pose proof vector_disjoint as (_ & Hd & (_ & Hd2 & _)%NoDup_app)%NoDup_app.
  split; [|by apply Hd2]. intros Hz. apply (Hd r Hz). apply elem_of_app. by left.
Qed.
Lemma other_ne r n : r ∉ OTHERS → n ∈ OTHERS → r ≠ n.
Proof. by intros Hr Hn ->. Qed.

(** What is in the context after a save. *)
Lemma sve_save_ctx has_sme b ctx :
  let ctx' := (sve_save has_sme (b, ctx)).2 in
  (∀ r, r ∈ z_regs ++ p_regs ++ ["fpsr"; "fpcr"] → ctx' r = b r) ∧
  (has_sme = true → ctx' "svcr" = b "svcr") ∧
  (ffr_accessible has_sme b = true → ctx' "ffr" = b "ffr").
Proof.
  unfold sve_save. cbv zeta. cbn [fst snd].
  set (c1 := copy p_regs b ctx). set (s2 := if has_sme then _ else (b, c1)).
  assert (H2 : s2.1 = b ∧ (∀ r, r ∈ p_regs → s2.2 r = b r) ∧ (has_sme = true → s2.2 "svcr" = b "svcr") ∧
    should_save_restore_ffr has_sme s2.2 s2.1 = ffr_accessible has_sme b).
  { unfold s2, ffr_accessible, should_save_restore_ffr. destruct has_sme; cbn [fst snd].
    - assert (Hs : copy ["svcr"] b c1 "svcr" = b "svcr") by (apply copy_in; by_names).
      split; [done|]. split; [|split; [done|by rewrite Hs]]. intros r Hr.
      rewrite copy_lookup. case_decide; [done|by apply copy_in].
    - split; [done|]. split; [|done]. intros r Hr. by apply copy_in. }
  destruct H2 as (Hb & Hp & Hsv & Hffr). rewrite Hffr.
  set (s3 := if ffr_accessible has_sme b then save_ffr s2 else s2).
  assert (H3 : (∀ r, r ≠ "p0" → s3.1 r = b r) ∧ (∀ r, r ≠ "ffr" → s3.2 r = s2.2 r) ∧
    (ffr_accessible has_sme b = true → s3.2 "ffr" = b "ffr")).
  { unfold s3. case_match; [|by rewrite Hb]. unfold save_ffr. cbn [fst snd]. rewrite Hb.
    split; [|split]; intros; [by apply bank_ne..|]. by rewrite !fn_lookup_insert. }
  destruct H3 as (Hr3 & Hc3 & Hf3).
  assert (Hz0 : ∀ r, r ∈ z_regs ++ ["fpsr"; "fpcr"] → r ≠ "p0").
  { intros r Hr ->. revert Hr. change ("p0" ∉ z_regs ++ ["fpsr"; "fpcr"]). by_names. }
  assert (Hout : ∀ r, (r ∉ ["fpsr"; "fpcr"]) → (r ∉ z_regs) →
    copy ["fpsr"; "fpcr"] s3.1 (copy z_regs s3.1 s3.2) r = s3.2 r).
  { intros r Hfp Hz. by rewrite !copy_out. }
  split; [|split].
  - intros r Hr. rewrite copy_lookup. case_decide as Hfp.
    { apply Hr3, Hz0, elem_of_app. by right. }
    rewrite copy_lookup. case_decide as Hz; [apply Hr3, Hz0, elem_of_app; by left|].
    rewrite !elem_of_app in Hr. destruct Hr as [?|[Hr|?]]; [done| |done].
    rewrite Hc3; [by apply Hp|]. eapply other_ne; [by apply p_disjoint|by_names].
  - intros Hs. rewrite Hout by by_names. rewrite Hc3 by done. by apply Hsv.
  - intros Ha. rewrite Hout by by_names. by apply Hf3.
Qed.

(** The vector state of the Normal World survives a switch of worlds.  Restoring
    what was saved, over registers another world has used in the meantime, in
    whichever streaming mode it left them, gives back all vector and predicate
    registers, FPSR, FPCR, SVCR where there is SME, and FFR where it can be accessed:
    SVCR is restored before the registers a change of mode would clear, and FFR before
    the predicate register it goes through. *)
Theorem sve_round_trip has_sme b b' ctx :
  b' "id_aa64smfr0_el1" = b "id_aa64smfr0_el1" →
  let b2 := sve_restore has_sme (sve_save has_sme (b, ctx)).2 b' in
  (∀ r, r ∈ z_regs ++ p_regs ++ ["fpsr"; "fpcr"] → b2 r = b r) ∧
  (has_sme = true → b2 "svcr" = b "svcr") ∧
  (ffr_accessible has_sme b = true → b2 "ffr" = b "ffr").
Proof.
  intros Hid. destruct (sve_save_ctx has_sme b ctx) as (Hr & Hs & Hf).
  set (ctx' := (sve_save has_sme (b, ctx)).2) in *. unfold sve_restore. cbv zeta.
  set (b1 := if has_sme then write_svcr (ctx' "svcr") b' else b').
  assert (Hid1 : b1 "id_aa64smfr0_el1" = b "id_aa64smfr0_el1").
  { rewrite <-Hid. unfold b1, write_svcr, reset_sve_state. repeat case_match; try done;
      by rewrite !bank_ne by done. }
  assert (Hacc : should_save_restore_ffr has_sme ctx' b1 = ffr_accessible has_sme b).
  { unfold should_save_restore_ffr, ffr_accessible, should_save_restore_ffr. rewrite Hid1.
    destruct has_sme; [by rewrite Hs|done]. }
  rewrite Hacc. set (b3 := if ffr_accessible has_sme b then _ else b1).
  assert (Hout : ∀ r, (r ∉ ["fpsr"; "fpcr"]) → (r ∉ z_regs) → (r ∉ p_regs) →
    copy ["fpsr"; "fpcr"] ctx' (copy z_regs ctx' (copy p_regs ctx' b3)) r = b3 r).
  { intros. by rewrite !copy_out. }
  split; [|split].
  - intros r Hin. rewrite <-(Hr r Hin). rewrite !copy_lookup. repeat case_decide; try done.
    rewrite !elem_of_app in Hin. tauto.
  - intros Hsme. rewrite Hout by by_names. rewrite <-(Hs Hsme). unfold b3, b1, restore_ffr.
    rewrite Hsme. case_match; rewrite ?bank_ne by done; unfold write_svcr; by rewrite fn_lookup_insert.
  - intros Ha. rewrite Hout by by_names. rewrite <-(Hf Ha). unfold b3. rewrite Ha. unfold restore_ffr.
    by rewrite !fn_lookup_insert.
Qed.
End Sve.
