(* ===== verification/ContextSample.v ===== *)
(** * Instances of the properties of CPU contexts

    The bits of the registers as the Arm Architecture Reference Manual gives them,
    and the properties of [ContextProps.v], [ContextBoot.v] and [SimdProps.v] at
    concrete states. *)

From Stdlib Require Import ZArith Lia.
From stdpp Require Import base list numbers option functions strings sets.
From S2P Require Import Prelude Smccc Services Context Extensions Simd ContextProofs ContextProps ContextBoot SimdProps.
Open Scope rust_scope.
Open Scope string_scope.
Open Scope list_scope.
Open Scope Z_scope.

Definition sample_scr (f : ScrFlag) : Z :=
  match f with
  | SCR_RES1 => 0x30
  | SCR_NS => 2 ^ 0 | SCR_IRQ => 2 ^ 1 | SCR_FIQ => 2 ^ 2 | SCR_HCE => 2 ^ 8 | SCR_SIF => 2 ^ 9
  | SCR_RW => 2 ^ 10 | SCR_ST => 2 ^ 11 | SCR_APK => 2 ^ 16 | SCR_API => 2 ^ 17 | SCR_EEL2 => 2 ^ 18
  | SCR_ATA => 2 ^ 26 | SCR_FGTEN => 2 ^ 27 | SCR_ECVEN => 2 ^ 28 | SCR_HXEN => 2 ^ 38
  | SCR_ENTP2 => 2 ^ 41 | SCR_TCR2EN => 2 ^ 43 | SCR_SCTLR2EN => 2 ^ 44 | SCR_FGTEN2 => 2 ^ 59
  | SCR_NSE => 2 ^ 62
  end.
Definition sample_cptr (f : CptrFlag) : Z :=
  match f with
  | CPTR_EZ => 2 ^ 8 | CPTR_TFP => 2 ^ 10 | CPTR_ESM => 2 ^ 12 | CPTR_TTA => 2 ^ 20 | CPTR_TAM => 2 ^ 30
  end.
Definition sample_mdcr (f : MdcrFlag) : Z :=
  match f with
  | MDCR_TPM => 2 ^ 6 | MDCR_ENPM2 => 2 ^ 7 | MDCR_NSPBE => 2 ^ 11 | MDCR_NSPB_NS => 2 ^ 12 + 2 ^ 13
  | MDCR_SPD32 => 2 ^ 15 | MDCR_SDD => 2 ^ 16 | MDCR_SPME => 2 ^ 17 | MDCR_TTRF => 2 ^ 19
  | MDCR_SCCD => 2 ^ 23 | MDCR_NSTB_SS => 2 ^ 24 | MDCR_NSTB_EN => 2 ^ 25 | MDCR_NSTBE => 2 ^ 26
  | MDCR_MTPME => 2 ^ 28 | MDCR_MCCD => 2 ^ 34 | MDCR_MPMX => 2 ^ 35 | MDCR_ENPMSN => 2 ^ 36
  | MDCR_ENPMS3 => 2 ^ 42
  end.
Definition sample_spsr (f : SpsrFlag) : Z :=
  match f with
  | SPSR_M => 0xf | SPSR_M_4 => 2 ^ 4 | SPSR_F => 2 ^ 6 | SPSR_I => 2 ^ 7 | SPSR_A => 2 ^ 8
  | SPSR_D => 2 ^ 9 | SPSR_SSBS => 2 ^ 12 | SPSR_ALLINT => 2 ^ 13 | SPSR_PAN => 2 ^ 22
  | SPSR_DIT => 2 ^ 24 | SPSR_TCO => 2 ^ 25 | SPSR_NZCV => 0xf0000000 | SPSR_PM => 2 ^ 32
  | SPSR_EXLOCK => 2 ^ 34
  end.
Definition sample_level (v : Z) : ExceptionLevel :=
  let m := Z.land v 0xf in
  if m <? 4 then El0 else if m <? 8 then El1 else if m <? 12 then El2 else El3.

(** A feature is present when its identification register is not zero. *)
Definition sample_sysregs : ArmSysregs := {|
  scr := sample_scr;
  cptr := sample_cptr;
  mdcr := sample_mdcr;
  spsr := sample_spsr;
  M_AARCH64_EL2H := 9;
  M_AARCH64_EL1H := 5;
  bits_of := λ _, 1;
  exception_level := sample_level;
  stack_pointer := λ v, if Z.testbit v 0 then SpElX else SpEl0;
  is_feat_present := λ _ v, negb (v =? 0);
  vpmr_max := λ v, Z.land v 7;
  cg1nc := λ v, Z.land v 0xff;
  pfr0_fp := λ v, Z.land v 0xf;
  pfr0_advsimd := λ v, Z.land v 0xf;
  from_ssve_vector_len := λ n, n / 128 - 1;
|}.
Definition sample_features : Features := {| sel2 := true |}.

Lemma sample_sysregs_laws : @ArmSysregsLaws sample_sysregs.
Proof.
  split; [split|split|split|..]; try reflexivity.
  - by intros [].
  - by intros [] [].
  - by intros [].
  - by intros [] [].
  - by intros [].
  - by intros [] [].
  - intros v. simpl. unfold sample_level. by rewrite <-Z.land_assoc.
Qed.

#[local] Existing Instance sample_sysregs.
#[local] Existing Instance sample_features.
#[local] Existing Instance sample_sysregs_laws.

(** Registers with FEAT_VHE, FEAT_TRBE and the activity monitors present. *)
Definition sample_regs : Bank := λ r,
  if decide (r ∈ ["id_aa64mmfr1_el1"; "id_aa64dfr0_el1"; "id_aa64pfr0_el1"]) then 1
  else if decide (r = "vbar_el2") then 0x1000 else 0.
Definition sample_context : CpuContext :=
  set_el3_state (set_spsr_el3 9 (set_elr_el3 0x8000 El3State_EMPTY)) CpuContext_EMPTY.
Definition sample_counters : Bank := λ r, if decide (r = "amcgcr_el0") then 0 else 3.
Definition reset_core : Core :=
  mkCore sample_regs (λ _, sample_context) (λ _ _ _, 0) (amu_save sample_counters (λ _, 0)) None.
Definition sample_core : Core := set_per_world (Some per_world_base) reset_core.

Lemma worlds_have_own_registers_witness :
  ∃ s', (_ ← set_initial_world fvp_cpu_extensions [] Secure;
         run_actions fvp_infos [] Secure
           [Write "vbar_el2" 5; SwitchTo NonSecure; Write "vbar_el2" 7; SwitchTo Secure]) sample_core
        = Ret Secure s' ∧ sysregs s' "vbar_el2" = 5.
Proof.
  assert (Hin : switched fvp_infos (sysregs sample_core) LowerEl "vbar_el2").
  { change ("vbar_el2" ∈ lower_regs (sysregs sample_core)). by_names. }
  destruct (worlds_have_own_registers fvp_infos [] fvp_infos_ok Secure
    [Write "vbar_el2" 5; SwitchTo NonSecure; Write "vbar_el2" 7; SwitchTo Secure] sample_core
    (λ _ _, 0)) as (s' & Hrun & Hregs & _).
  - by eexists.
  - by intros [] w' r _.
  - split; [by exists LowerEl|]. split; [done|]. split; [by exists LowerEl|]. by split.
  - exists s'. split; [exact Hrun|]. exact (Hregs LowerEl "vbar_el2" Hin).
Defined.

Definition sample_entry (n : Z) : EntryPointInfo := mkEntryPointInfo n [1; 2; 3; 4; 5; 6; 7; 8].

Lemma boot_contexts_witness :
  ∃ s' pw, initialise_contexts fvp_cpu_extensions (sample_entry 0x1000) (sample_entry 0x2000)
      (sample_entry 0x3000) reset_core = Ret tt s' ∧
    PER_WORLD_CONTEXT s' = Some pw ∧
    ∀ w, secure_state w (pw w) ∧
      starts_at w (start_level w)
        (entry_points (sample_entry 0x1000) (sample_entry 0x2000) (sample_entry 0x3000) w) (cpu_state s' w).
Proof. apply boot_contexts; [apply fvp_boots|done|by intros []]. Defined.

Lemma trace_buffer_owner_witness :
  ∃ s' pw, initialise_contexts fvp_cpu_extensions (sample_entry 0x1000) (sample_entry 0x2000)
      (sample_entry 0x3000) reset_core = Ret tt s' ∧
    PER_WORLD_CONTEXT s' = Some pw ∧
    ∀ w, let m := mdcr_el3 (el3_state (cpu_state s' w)) in
      (contains m (mdcr MDCR_NSTBE) = contains (scr_el3 (pw w)) (scr SCR_NSE) ∧
       contains m (mdcr MDCR_NSTB_SS) = contains (scr_el3 (pw w)) (scr SCR_NS) ↔ w = NonSecure) ∧
      contains m (mdcr MDCR_NSTB_EN) = bool_decide (w = NonSecure).
Proof. apply trace_buffer_owner; [done|by intros []|reflexivity]. Defined.


Lemma resume_contexts_witness :
  ∃ s', update_contexts_suspend fvp_cpu_extensions 0x9000 7 (mkSmcReturn 18 (replicate 18 1)) [2]
      sample_core = Ret tt s' ∧
    elr_el3 (el3_state (cpu_state s' NonSecure)) = 0x9000 ∧ sysregs s' "amevcntr00_el0" = 3.
Proof.
  destruct (resume_contexts 0x9000 7 (mkSmcReturn 18 (replicate 18 1)) [2] sample_core) as [_ Hgood];
    [done|].
  destruct Hgood as (s' & Hrun & _ & Hst & _ & _ & Hamu); [reflexivity|simpl; unfold GPREGS_COUNT; lia|].
  exists s'. split; [exact Hrun|]. split; [apply (starts_pc _ _ _ _ Hst)|].
  apply (Hamu sample_counters (λ _, 0)); [done|reflexivity|reflexivity|by_names].
Defined.

Lemma sve_round_trip_witness :
  let b2 := sve_restore true (sve_save true (λ r, if decide (r = "p3") then 9 else 0, λ _, 4)).2
              (λ r, if decide (r = "id_aa64smfr0_el1") then 0 else 1) in
  b2 "p3" = 9 ∧ b2 "svcr" = 0.
Proof.
  destruct (sve_round_trip true (λ r, if decide (r = "p3") then 9 else 0)
    (λ r, if decide (r = "id_aa64smfr0_el1") then 0 else 1) (λ _, 4)) as (Hr & Hs & _); [reflexivity|].
  split; [apply (Hr "p3"); by_names|exact (Hs eq_refl)].
Defined.
