(* ===== verification/Asm.v ===== *)
(** * Assembly

    Parts of the firmware are written in assembly, because they run before there is a
    stack or while the registers belong to another world.  The instructions they use
    have a meaning on the registers of a core and the memory, so that the assembly is a
    program of the model; what it calls is looked up by address or by name in an
    environment.  Landing pads ([bti]) have no effect and are left out. *)

From Stdlib Require Import ZArith Lia.
From stdpp Require Import base list numbers option functions strings.
From S2P Require Import Prelude Smccc Services Context.
Open Scope rust_scope.
Open Scope string_scope.
Open Scope list_scope.
Open Scope Z_scope.

(** ** The core *)
Inductive CpuEvent : Type :=
| EvIsb
| EvDsb
| EvDsbOsh
| EvDcCisw (operand : Z)
| EvDc (op : string) (operand : Z)
| EvTlbi (op : string)
(** Accesses to devices, and what is shown on the console. *)
| EvRead (a : Z)
| EvWrite (a v : Z)
| EvPutc (c : Z)
| EvFlush.
Record CpuState : Type := mkCpu {
  c_xs : nat → Z;
  (** What was compared last. *)
  c_cmp : Z * Z;
  c_sysregs : Bank;
  c_trace : list CpuEvent;
  (** The bytes of the memory. *)
  c_mem : Z → Z;
}.

(** General purpose register 31 is [xzr]. *)
Definition xr (r : nat) (s : CpuState) : Z := if decide (r = 31)%nat then 0 else c_xs s r.
Definition set_x (r : nat) (v : Z) (s : CpuState) : CpuState :=
  if decide (r = 31)%nat then s
  else mkCpu (<[r := v]> (c_xs s)) (c_cmp s) (c_sysregs s) (c_trace s) (c_mem s).
Definition set_cmp (a b : Z) (s : CpuState) : CpuState :=
  mkCpu (c_xs s) (a, b) (c_sysregs s) (c_trace s) (c_mem s).
Definition set_sysreg (r : SysReg) (v : Z) (s : CpuState) : CpuState :=
  mkCpu (c_xs s) (c_cmp s) (<[r := v]> (c_sysregs s)) (c_trace s) (c_mem s).
Definition emit (e : CpuEvent) (s : CpuState) : CpuState :=
  mkCpu (c_xs s) (c_cmp s) (c_sysregs s) (c_trace s ++ [e]) (c_mem s).
Definition set_mem (m : Z → Z) (s : CpuState) : CpuState :=
  mkCpu (c_xs s) (c_cmp s) (c_sysregs s) (c_trace s) m.

(** As a base or an operand of [mov], register 32 is the stack pointer that is selected. *)
Definition SP : nat := 32.
Definition sp_reg (s : CpuState) : SysReg := if c_sysregs s "spsel" =? 0 then "sp_el0" else "sp_el3".
Definition xsp (r : nat) (s : CpuState) : Z := if decide (r = SP) then c_sysregs s (sp_reg s) else xr r s.

(** ** The memory
    Words are in little endian order; an access does not wrap around. *)
Definition byte_of (v i : Z) : Z := Z.land (Z.shiftr v (8 * i)) 0xff.
Definition mem_store (n a v : Z) (m : Z → Z) : Z → Z := λ b,
  if bool_decide (a ≤ b < a + n) then byte_of v (b - a) else m b.
Definition mem_load64 (a : Z) (m : Z → Z) : Z :=
  m a + 2 ^ 8 * m (a + 1) + 2 ^ 16 * m (a + 2) + 2 ^ 24 * m (a + 3) +
  2 ^ 32 * m (a + 4) + 2 ^ 40 * m (a + 5) + 2 ^ 48 * m (a + 6) + 2 ^ 56 * m (a + 7).
Definition store64 (a v : Z) (s : CpuState) : CpuState := set_mem (mem_store 8 a v (c_mem s)) s.
Definition load64 (a : Z) (s : CpuState) : Z := mem_load64 a (c_mem s).
(** The block that [dc zva] zeroes, of the size that [DCZID_EL0] gives in words. *)
Definition zva_size (dczid : Z) : Z := Z.shiftl 4 (Z.land dczid 0xf).
Definition zero_block (a : Z) (s : CpuState) : CpuState :=
  let size := zva_size (c_sysregs s "dczid_el0") in
  set_mem (mem_store size (Z.ldiff a (size - 1)) 0 (c_mem s)) s.

(** ** Instructions *)
Inductive Cond : Type := CEq | CNe | CLt | CGe | CHi | CHs | CLo.
(** Targets of branches are positions in the program. *)
Inductive Instr : Type :=
| Mrs (rd : nat) (r : SysReg)
| Msr (r : SysReg) (rs : nat)
| MsrI (r : SysReg) (imm : Z)
| DaifClr (imm : Z)
| MovI (rd : nat) (imm : Z)
| MovR (rd rn : nat)
| MovSp (rd : nat)
| SetSp (rn : nat)
| Movk (rd : nat) (imm shift : Z)
| Adr (rd : nat) (sym : string)
| AdrOff (rd : nat) (sym : string) (off : Z)
| AndI (rd rn : nat) (imm : Z)
| AndR (rd rn rm : nat)
| AndW (rd rn rm : nat)
| OrrI (rd rn : nat) (imm : Z)
| OrrR (rd rn rm : nat)
| BicI (rd rn : nat) (imm : Z)
| BicR (rd rn rm : nat)
| AddI (rd rn : nat) (imm : Z)
| AddR (rd rn rm : nat)
| AddLsr (rd rn rm : nat) (imm : Z)
| SubI (rd rn : nat) (imm : Z)
| SubR (rd rn rm : nat)
| MulAdd (rd rn rm ra : nat)
| LslR (rd rn rm : nat)
| LslI (rd rn : nat) (imm : Z)
| LsrR (rd rn rm : nat)
| LslW (rd rn : nat) (imm : Z)
| LsrW (rd rn : nat) (imm : Z)
| DivW (rd rn rm : nat)
(** [xpaci] strips the authentication code of a pointer. *)
| Xpaci (rd : nat)
| Ubfx (rd rn : nat) (lsb width : Z)
| Bfi (rd rn : nat) (lsb width : Z)
| Csel (rd rn rm : nat) (c : Cond)
| CmpR (rn rm : nat)
| CmpI (rn : nat) (imm : Z)
| CmpW (rn rm : nat)
| CmpWI (rn : nat) (imm : Z)
| TstR (rn rm : nat)
| TstI (rn : nat) (imm : Z)
| Bc (c : Cond) (target : nat)
| B (target : nat)
| Cbz (rn target : nat)
| CbzW (rn target : nat)
| Cbnz (rn target : nat)
| Tbz (rn : nat) (bit : Z) (target : nat)
| Tbnz (rn : nat) (bit : Z) (target : nat)
(** Loads from the constants of the image, which nothing writes. *)
| LdrX (rd rn : nat) (off : Z)
| LdpX (r1 r2 rn : nat) (off : Z)
| LdrW (rd rn : nat) (off : Z)
| LdrB (rd rn : nat)
| LdrBPost (rd rn : nat)
(** Accesses to devices, of four bytes or, for [LdrDevPost], of eight. *)
| LdrDev (rd rn : nat) (off : Z)
| LdrDevPost (rd rn : nat) (off : Z)
| StrDev (rs rn : nat) (off : Z)
(** Accesses to the memory; [Stp0Post] and [Strb0Post] store zeros and move the base. *)
| Ldr (rd rn : nat) (off : Z)
| LdrPost (rd rn : nat) (off : Z)
| Str (rs rn : nat) (off : Z)
| StrReg (rs rn rm : nat)
| Ldp (r1 r2 rn : nat) (off : Z)
| Stp (r1 r2 rn : nat) (off : Z)
| Strb0Post (rn : nat)
| Stp0Post (rn : nat)
| DcZva (rn : nat)
| Dc (op : string) (rn : nat)
| Tlbi (op : string)
| Bl (f : string)
| Blr (rn : nat)
| Br (rn : nat)
| BSym (f : string)
| Isb
| DsbSy
| DsbOsh
| Wfi
| Eret
| RetX (rn : nat)
| Return.

(** A function returns to the address in [x30], to another address, or to a lower exception
    level. *)
Inductive Exit : Type :=
| Returned (s : CpuState)
| ReturnedTo (a : Z) (s : CpuState)
| Left (s : CpuState)
| Panicked
| Stuck.

(** What the assembly finds in the image: constants, the functions at addresses and of
    names, the address it is at itself, and the addresses of symbols; and outside of it:
    pointers without their authentication codes, and what devices answer, which may depend
    on all that happened before. *)
Record Env : Type := mkEnv {
  e_load : Z → Z → Z;
  e_code : Z → CpuState → Exit;
  e_sym : string → CpuState → Exit;
  e_base : Z;
  e_addr : string → Z;
  e_xpac : Z → Z;
  e_device : list CpuEvent → Z → Z;
}.
Definition no_env : Env := mkEnv (λ _ _, 0) (λ _ _, Stuck) (λ _ _, Stuck) 0 (λ _, 0) (λ x, x) (λ _ _, 0).

Definition signed64 (x : Z) : Z := if x <? 2 ^ 63 then x else x - 2 ^ 64.
(** The condition after [cmp]; after [tst], which compares with zero, [CEq] and [CNe]
    are the conditions that are used. *)
Definition holds (c : Cond) (ab : Z * Z) : bool :=
  let (a, b) := ab in
  match c with
  | CEq => a =? b
  | CNe => negb (a =? b)
  | CLt => signed64 a <? signed64 b
  | CGe => signed64 b <=? signed64 a
  | CHi => b <? a
  | CHs => b <=? a
  | CLo => a <? b
  end.
(** [ubfx] and [bfi]. *)
Definition bits (x lsb width : Z) : Z := Z.land (Z.shiftr x lsb) (Z.ones width).
Definition insert_bits (d x lsb width : Z) : Z :=
  Z.lor (Z.ldiff d (Z.shiftl (Z.ones width) lsb)) (Z.shiftl (Z.land x (Z.ones width)) lsb).

(** An instruction that does not branch. *)
Definition exec_instr (env : Env) (i : Instr) (s : CpuState) : CpuState :=
  match i with
  | Mrs rd r => set_x rd (c_sysregs s r) s
  | Msr r rs => set_sysreg r (xr rs s) s
  | MsrI r imm => set_sysreg r imm s
  | DaifClr imm => set_sysreg "daif" (Z.ldiff (c_sysregs s "daif") (Z.shiftl imm 6)) s
  | MovI rd imm => set_x rd imm s
  | MovR rd rn => set_x rd (xr rn s) s
  | MovSp rd => set_x rd (xsp SP s) s
  | SetSp rn => set_sysreg (sp_reg s) (xr rn s) s
  | Movk rd imm shift => set_x rd (insert_bits (xr rd s) imm shift 16) s
  | Adr rd sym => set_x rd (e_addr env sym) s
  | AdrOff rd sym off => set_x rd ((e_addr env sym + off) mod 2 ^ 64) s
  | AndI rd rn imm => set_x rd (Z.land (xr rn s) imm) s
  | AndR rd rn rm => set_x rd (Z.land (xr rn s) (xr rm s)) s
  | AndW rd rn rm => set_x rd (as_u32 (Z.land (xr rn s) (xr rm s))) s
  | OrrI rd rn imm => set_x rd (Z.lor (xr rn s) imm) s
  | OrrR rd rn rm => set_x rd (Z.lor (xr rn s) (xr rm s)) s
  | BicI rd rn imm => set_x rd (Z.ldiff (xr rn s) imm) s
  | BicR rd rn rm => set_x rd (Z.ldiff (xr rn s) (xr rm s)) s
  | AddI rd rn imm => set_x rd ((xr rn s + imm) mod 2 ^ 64) s
  | AddR rd rn rm => set_x rd ((xr rn s + xr rm s) mod 2 ^ 64) s
  | AddLsr rd rn rm imm => set_x rd ((xr rn s + Z.shiftr (xr rm s) imm) mod 2 ^ 64) s
  | SubI rd rn imm => set_x rd ((xr rn s - imm) mod 2 ^ 64) s
  | SubR rd rn rm => set_x rd ((xr rn s - xr rm s) mod 2 ^ 64) s
  | MulAdd rd rn rm ra => set_x rd ((xr rn s * xr rm s + xr ra s) mod 2 ^ 64) s
  | LsrR rd rn rm => set_x rd (Z.shiftr (xr rn s) (xr rm s mod 64)) s
  | LslW rd rn imm => set_x rd (as_u32 (Z.shiftl (xr rn s) imm)) s
  | LsrW rd rn imm => set_x rd (Z.shiftr (as_u32 (xr rn s)) imm) s
  | DivW rd rn rm => set_x rd (as_u32 (xr rn s) / as_u32 (xr rm s)) s
  | Xpaci rd => set_x rd (e_xpac env (xr rd s)) s
  | LslR rd rn rm => set_x rd (Z.shiftl (xr rn s) (xr rm s mod 64) mod 2 ^ 64) s
  | LslI rd rn imm => set_x rd (Z.shiftl (xr rn s) imm mod 2 ^ 64) s
  | Ubfx rd rn lsb width => set_x rd (bits (xr rn s) lsb width) s
  | Bfi rd rn lsb width => set_x rd (insert_bits (xr rd s) (xr rn s) lsb width) s
  | Csel rd rn rm c => set_x rd (if holds c (c_cmp s) then xr rn s else xr rm s) s
  | CmpR rn rm => set_cmp (xr rn s) (xr rm s) s
  | CmpI rn imm => set_cmp (xr rn s) imm s
  | CmpW rn rm => set_cmp (as_u32 (xr rn s)) (as_u32 (xr rm s)) s
  | CmpWI rn imm => set_cmp (as_u32 (xr rn s)) imm s
  | TstR rn rm => set_cmp (Z.land (xr rn s) (xr rm s)) 0 s
  | TstI rn imm => set_cmp (Z.land (xr rn s) imm) 0 s
  | LdrX rd rn off => set_x rd (e_load env 8 (xr rn s + off)) s
  | LdpX r1 r2 rn off => set_x r2 (e_load env 8 (xr rn s + off + 8)) (set_x r1 (e_load env 8 (xr rn s + off)) s)
  | LdrW rd rn off => set_x rd (e_load env 4 (xr rn s + off)) s
  | LdrB rd rn => set_x rd (e_load env 1 (xr rn s)) s
  | LdrBPost rd rn => set_x rn ((xr rn s + 1) mod 2 ^ 64) (set_x rd (e_load env 1 (xr rn s)) s)
  | LdrDev rd rn off => set_x rd (e_device env (c_trace s) (xr rn s + off)) (emit (EvRead (xr rn s + off)) s)
  | LdrDevPost rd rn off => set_x rn ((xr rn s + off) mod 2 ^ 64)
      (set_x rd (e_device env (c_trace s) (xr rn s)) (emit (EvRead (xr rn s)) s))
  | StrDev rs rn off => emit (EvWrite (xr rn s + off) (as_u32 (xr rs s))) s
  | LdrPost rd rn off => set_x rn ((xr rn s + off) mod 2 ^ 64) (set_x rd (load64 (xr rn s) s) s)
  | Ldr rd rn off => set_x rd (load64 (xsp rn s + off) s) s
  | Str rs rn off => store64 (xsp rn s + off) (xr rs s) s
  | StrReg rs rn rm => store64 ((xr rn s + xr rm s) mod 2 ^ 64) (xr rs s) s
  | Ldp r1 r2 rn off => set_x r2 (load64 (xsp rn s + off + 8) s) (set_x r1 (load64 (xsp rn s + off) s) s)
  | Stp r1 r2 rn off => store64 (xsp rn s + off + 8) (xr r2 s) (store64 (xsp rn s + off) (xr r1 s) s)
  | Strb0Post rn => set_x rn ((xr rn s + 1) mod 2 ^ 64) (set_mem (mem_store 1 (xr rn s) 0 (c_mem s)) s)
  | Stp0Post rn => set_x rn ((xr rn s + 16) mod 2 ^ 64) (set_mem (mem_store 16 (xr rn s) 0 (c_mem s)) s)
  | DcZva rn => zero_block (xr rn s) s
  | Dc op rn => emit (EvDc op (xr rn s)) s
  | Tlbi op => emit (EvTlbi op) s
  | Isb => emit EvIsb s
  | DsbSy => emit EvDsb s
  | DsbOsh => emit EvDsbOsh s
  | _ => s
  end.

Fixpoint exec (fuel : nat) (env : Env) (prog : list Instr) (pc : nat) (s : CpuState) : Exit :=
  match fuel with
  | O => Stuck
  | S fuel =>
      let continue pc s := exec fuel env prog pc s in
      let call f :=
        match f (set_x 30 (e_base env + 4 * Z.of_nat (S pc)) s) with
        | Returned s' => if xr 30 s' =? e_base env + 4 * Z.of_nat (S pc) then continue (S pc) s' else Stuck
        | ReturnedTo a s' => if a =? e_base env + 4 * Z.of_nat (S pc) then continue (S pc) s' else Stuck
        | e => e
        end in
      match prog !! pc with
      | None => Stuck
      | Some (Bc c target) => continue (if holds c (c_cmp s) then target else S pc) s
      | Some (B target) => continue target s
      | Some (Cbz rn target) => continue (if xr rn s =? 0 then target else S pc) s
      | Some (CbzW rn target) => continue (if as_u32 (xr rn s) =? 0 then target else S pc) s
      | Some (Cbnz rn target) => continue (if xr rn s =? 0 then S pc else target) s
      | Some (Tbz rn bit target) => continue (if Z.testbit (xr rn s) bit then S pc else target) s
      | Some (Tbnz rn bit target) => continue (if Z.testbit (xr rn s) bit then target else S pc) s
      | Some (Bl f) => call (e_sym env f)
      | Some (Blr rn) => call (e_code env (xr rn s))
      | Some (Br rn) => e_code env (xr rn s) s
      | Some (BSym f) => e_sym env f s
      | Some Eret => Left s
      | Some (RetX rn) => ReturnedTo (xr rn s) s
      | Some Return => Returned s
      | Some i => continue (S pc) (exec_instr env i s)
      end
  end.

(** A function that does not loop ends within its length. *)
Definition run_asm (env : Env) (prog : list Instr) (s : CpuState) : Exit := exec (length prog) env prog 0 s.

(** A core with these system registers, which has issued these events. *)
Definition fresh_cpu (b : Bank) (t : list CpuEvent) : CpuState := mkCpu (λ _, 0) (0, 0) b t (λ _, 0).

(** ** Labels
    The text of a function with its labels, and the program it is assembled to. *)
Inductive Line : Type :=
| Lab (l : string)
| I (i : Instr)
| JC (c : Cond) (l : string)
| J (l : string)
| JZ (rn : nat) (l : string)
| JZW (rn : nat) (l : string)
| JNZ (rn : nat) (l : string)
| JTbz (rn : nat) (bit : Z) (l : string)
| JTbnz (rn : nat) (bit : Z) (l : string).
Coercion I : Instr >-> Line.

(** The position of a label; a label that does not exist is behind the program. *)
Fixpoint label (text : list Line) (l : string) : nat :=
  match text with
  | [] => 0
  | Lab l' :: text => if String.eqb l l' then 0 else label text l
  | _ :: text => S (label text l)
  end.
Definition assemble_line (at_ : string → nat) (line : Line) : option Instr :=
  match line with
  | Lab _ => None
  | I i => Some i
  | JC c l => Some (Bc c (at_ l))
  | J l => Some (B (at_ l))
  | JZ rn l => Some (Cbz rn (at_ l))
  | JZW rn l => Some (CbzW rn (at_ l))
  | JNZ rn l => Some (Cbnz rn (at_ l))
  | JTbz rn bit l => Some (Tbz rn bit (at_ l))
  | JTbnz rn bit l => Some (Tbnz rn bit (at_ l))
  end.
Definition assemble (text : list Line) : list Instr := omap (assemble_line (label text)) text.

(** [ASM_ASSERT] *)
Definition ASM_ASSERT (cc : Cond) (message_name : string) : list Line :=
  [JC cc message_name; Adr 0 message_name : Line; BSym "asm_assert" : Line; Lab message_name].
