(* ===== verification/AsmProps.v ===== *)
(** * Symbolic execution of assembly

    The values of registers after instructions, the registers a function may change,
    one step of a program, runs of a program as a relation, and the memory. *)

From Stdlib Require Import ZArith Lia.
From stdpp Require Import base list numbers option functions strings sets.
From S2P Require Import Prelude Smccc Services Context Asm.
Open Scope rust_scope.
Open Scope string_scope.
Open Scope list_scope.
Open Scope Z_scope.

(** ** Registers *)
(** Only the registers that are listed may have changed. *)
Definition only_clobbers (clobbers : list nat) (s s' : CpuState) : Prop :=
  ∀ r, r ∉ clobbers → xr r s' = xr r s.

Lemma xr_set_x r r' v s : r' ≠ 31%nat → xr r (set_x r' v s) = if decide (r = r') then v else xr r s.
Proof.
  intros Hr. unfold xr, set_x. destruct (decide (r' = 31%nat)); [done|].
  destruct (decide (r = 31%nat)); destruct (decide (r = r')); subst; try done; simpl.
  - by rewrite fn_lookup_insert.
  - by rewrite fn_lookup_insert_ne.
Qed.
Lemma set_x_sysregs r v s : c_sysregs (set_x r v s) = c_sysregs s.
Proof. unfold set_x. by destruct (decide (r = 31%nat)). Qed.
Lemma set_x_trace r v s : c_trace (set_x r v s) = c_trace s.
Proof. unfold set_x. by destruct (decide (r = 31%nat)). Qed.
Lemma set_x_cmp r v s : c_cmp (set_x r v s) = c_cmp s.
Proof. unfold set_x. by destruct (decide (r = 31%nat)). Qed.
Lemma xr_set_cmp r a b s : xr r (set_cmp a b s) = xr r s.
Proof. done. Qed.
Lemma xr_set_sysreg r q v s : xr r (set_sysreg q v s) = xr r s.
Proof. done. Qed.
Lemma xr_emit r e s : xr r (emit e s) = xr r s.
Proof. done. Qed.

Lemma clobbers_refl l s : only_clobbers l s s.
Proof. by intros r Hr. Qed.
Lemma clobbers_set_x l s s0 r v : r ∈ l → only_clobbers l s s0 → only_clobbers l s (set_x r v s0).
Proof. intros Hr Hc q Hq. rewrite <-(Hc q Hq). unfold xr, set_x. destruct (decide (r = 31%nat)); [done|].
  destruct (decide (q = 31%nat)); [done|]. simpl. rewrite fn_lookup_insert_ne; [done|]. by intros ->. Qed.
Lemma clobbers_set_cmp l s s0 a b : only_clobbers l s s0 → only_clobbers l s (set_cmp a b s0).
Proof. intros Hc r Hr. by rewrite <-(Hc r Hr). Qed.
Lemma clobbers_set_sysreg l s s0 q v : only_clobbers l s s0 → only_clobbers l s (set_sysreg q v s0).
Proof. intros Hc r Hr. by rewrite <-(Hc r Hr). Qed.
Lemma clobbers_set_mem l s s0 m : only_clobbers l s s0 → only_clobbers l s (set_mem m s0).
Proof. intros Hc r Hr. by rewrite <-(Hc r Hr). Qed.
Lemma clobbers_emit l s s0 e : only_clobbers l s s0 → only_clobbers l s (emit e s0).
Proof. intros Hc r Hr. by rewrite <-(Hc r Hr). Qed.
Ltac clobbers :=
  repeat first [apply clobbers_refl | apply clobbers_set_x; [set_solver|] | apply clobbers_set_cmp
               |apply clobbers_set_sysreg | apply clobbers_set_mem | apply clobbers_emit].

Lemma xr_set_mem r m s : xr r (set_mem m s) = xr r s.
Proof. done. Qed.
Lemma set_x_mem r v s : c_mem (set_x r v s) = c_mem s.
Proof. unfold set_x. by destruct (decide (r = 31%nat)). Qed.

Create Rewrite HintDb cpu.
#[export] Hint Rewrite set_x_sysregs set_x_trace set_x_cmp set_x_mem xr_set_cmp xr_set_sysreg xr_emit xr_set_mem : cpu.

Lemma xr_set_x_eq r v s : r ≠ 31%nat → xr r (set_x r v s) = v.
Proof. intros. by rewrite xr_set_x, decide_True. Qed.
Lemma xr_set_x_ne r r' v s : r ≠ r' → xr r (set_x r' v s) = xr r s.
Proof.
  intros Hr. destruct (decide (r' = 31%nat)) as [->|]; [done|]. by rewrite xr_set_x, decide_False.
Qed.

(** One instruction of a program, then the values of the registers it reads. *)
Ltac regs_simpl :=
  repeat first [progress autorewrite with cpu | rewrite xr_set_x_eq by discriminate
               | rewrite xr_set_x_ne by discriminate].
Lemma exec_S fuel env prog pc s :
  exec (S fuel) env prog pc s =
    match prog !! pc with
    | None => Stuck
    | Some (Bc c target) => exec fuel env prog (if holds c (c_cmp s) then target else S pc) s
    | Some (B target) => exec fuel env prog target s
    | Some (Cbz rn target) => exec fuel env prog (if xr rn s =? 0 then target else S pc) s
    | Some (CbzW rn target) => exec fuel env prog (if as_u32 (xr rn s) =? 0 then target else S pc) s
    | Some (Cbnz rn target) => exec fuel env prog (if xr rn s =? 0 then S pc else target) s
    | Some (Tbz rn bit target) => exec fuel env prog (if Z.testbit (xr rn s) bit then S pc else target) s
    | Some (Tbnz rn bit target) => exec fuel env prog (if Z.testbit (xr rn s) bit then target else S pc) s
    | Some (Bl f) =>
        match e_sym env f (set_x 30 (e_base env + 4 * Z.of_nat (S pc)) s) with
        | Returned s' => if xr 30 s' =? e_base env + 4 * Z.of_nat (S pc) then exec fuel env prog (S pc) s' else Stuck
        | ReturnedTo a s' => if a =? e_base env + 4 * Z.of_nat (S pc) then exec fuel env prog (S pc) s' else Stuck
        | e => e end
    | Some (Blr rn) =>
        match e_code env (xr rn s) (set_x 30 (e_base env + 4 * Z.of_nat (S pc)) s) with
        | Returned s' => if xr 30 s' =? e_base env + 4 * Z.of_nat (S pc) then exec fuel env prog (S pc) s' else Stuck
        | ReturnedTo a s' => if a =? e_base env + 4 * Z.of_nat (S pc) then exec fuel env prog (S pc) s' else Stuck
        | e => e end
    | Some (Br rn) => e_code env (xr rn s) s
    | Some (BSym f) => e_sym env f s
    | Some Eret => Left s
    | Some (RetX rn) => ReturnedTo (xr rn s) s
    | Some Return => Returned s
    | Some i => exec fuel env prog (S pc) (exec_instr env i s)
    end.
Proof. reflexivity. Qed.
Ltac asm_step := rewrite exec_S; cbn [lookup list_lookup exec_instr]; regs_simpl.

Lemma clobbers_trans l l' s s' s'' :
  only_clobbers l s s' → only_clobbers l' s' s'' → (∀ r, r ∈ l' → r ∈ l) → only_clobbers l s s''.
Proof. intros H1 H2 Hl r Hr. rewrite (H2 r); [by apply H1|]. intros ?. by apply Hr, Hl. Qed.

(** The same for a program [p] that stays folded. *)
Ltac asm_step_in p d :=
  rewrite exec_S;
  match goal with
  | |- context [p !! ?pc] => let v := eval cbv [p d lookup list_lookup] in (p !! pc) in change (p !! pc) with v
  end; cbn [exec_instr]; regs_simpl.

(** What a function does to the system registers, and the barriers it issues. *)
Definition asm_effect (prog : list Instr) (bt : Bank * list CpuEvent) : Bank * list CpuEvent :=
  match run_asm no_env prog (fresh_cpu bt.1 bt.2) with
  | Returned s => (c_sysregs s, c_trace s)
  | _ => bt
  end.
(** A function that returns, with an effect that depends on the system registers only,
    and that changes at most the registers [l] besides them; the memory is as it was. *)
Definition asm_ok (l : list nat) (prog : list Instr) : Prop :=
  ∀ s, ∃ s', run_asm no_env prog s = Returned s' ∧
    (c_sysregs s', c_trace s') = asm_effect prog (c_sysregs s, c_trace s) ∧ c_mem s' = c_mem s ∧ only_clobbers l s s'.

(** ** Functions without branches
    A function that only reads registers it has written has an effect that depends on
    the system registers only.  This is checked on its instructions: [l] are the
    registers it may write, [d] those it has written. *)
Definition operands (i : Instr) : option (list nat * list nat) :=
  match i with
  | Mrs rd _ | MovI rd _ => Some ([], [rd])
  | Msr _ rs => Some ([rs], [])
  | MovR rd rn | OrrI rd rn _ | BicI rd rn _ | AddI rd rn _ | Ubfx rd rn _ _ => Some ([rn], [rd])
  | AndR rd rn rm | AndW rd rn rm => Some ([rn; rm], [rd])
  | Isb | DsbSy => Some ([], [])
  | _ => None
  end.
Definition subset (a b : list nat) : bool := forallb (λ r, existsb (Nat.eqb r) b) a.
Fixpoint straight (l d : list nat) (prog : list Instr) : bool :=
  match prog with
  | [Return] => true
  | i :: prog =>
      match operands i with
      | Some (rs, ws) => subset rs (31%nat :: d) && subset ws l && straight l (ws ++ d) prog
      | None => false
      end
  | [] => false
  end.

Lemma subset_spec a b : subset a b = true → ∀ r, r ∈ a → r ∈ b.
Proof.
  unfold subset. rewrite List.forallb_forall. intros Ha r Hr. apply list_elem_of_In in Hr.
  destruct (proj1 (List.existsb_exists _ _) (Ha r Hr)) as (r' & Hr' & ->%Nat.eqb_eq). by apply list_elem_of_In.
Qed.

(** Two cores that cannot be told apart by what is read. *)
Record agree (d : list nat) (s t : CpuState) : Prop := {
  agree_x r : r ∈ 31%nat :: d → xr r s = xr r t;
  agree_sysregs : c_sysregs s = c_sysregs t;
  agree_trace : c_trace s = c_trace t;
}.
Lemma agree_set_x d r s t v : agree d s t → agree ([r] ++ d) (set_x r v s) (set_x r v t).
Proof.
  intros [Hx Hb Ht]. split; [|by rewrite !set_x_sysregs|by rewrite !set_x_trace]. intros q Hq.
  destruct (decide (r = 31%nat)) as [->|Hr]; [apply Hx; set_solver|]. rewrite !xr_set_x by done.
  destruct (decide (q = r)) as [->|]; [done|]. apply Hx. set_solver.
Qed.
Lemma exec_agree env i rs ws l d s t :
  operands i = Some (rs, ws) → subset rs (31%nat :: d) = true → subset ws l = true → agree d s t →
  agree (ws ++ d) (exec_instr env i s) (exec_instr env i t) ∧ c_mem (exec_instr env i s) = c_mem s ∧
  only_clobbers l s (exec_instr env i s).
Proof.
  intros Ho Hrs Hws Hst. pose proof (subset_spec _ _ Hrs) as Hr. pose proof (subset_spec _ _ Hws) as Hw.
  assert (∀ r, r ∈ rs → xr r s = xr r t) as Hx by (intros r ?; by apply (agree_x _ _ _ Hst), Hr).
  pose proof (agree_sysregs _ _ _ Hst) as Hb. pose proof (agree_trace _ _ _ Hst) as Ht.
  destruct i; simplify_eq/=; rewrite ?Hx, ?Hb by set_solver; (split; [|split; [by rewrite ?set_x_mem|by clobbers]]);
    try by apply agree_set_x.
  all: destruct Hst as [Ha _ _]; split; cbn; [exact Ha|congruence|congruence].
Qed.
Lemma straight_run env l d prog rest pre s t :
  straight l d rest = true → prog = pre ++ rest → agree d s t →
  ∃ s' t', exec (length rest) env prog (length pre) s = Returned s' ∧
    exec (length rest) env prog (length pre) t = Returned t' ∧ (∃ d', agree d' s' t') ∧
    c_mem s' = c_mem s ∧ only_clobbers l s s'.
Proof.
  revert d pre s t. induction rest as [|i rest IH]; intros d pre s t Hs Hp Hst; [done|].
  assert (prog !! length pre = Some i) as Hi by (rewrite Hp; by apply list_lookup_middle).
  assert (i = Return ∧ rest = [] ∨ ∃ rs ws, operands i = Some (rs, ws) ∧ subset rs (31%nat :: d) = true ∧
    subset ws l = true ∧ straight l (ws ++ d) rest = true) as [[-> ->]|(rs & ws & Ho & Hrs & Hws & Hs')].
  { destruct i, rest; try (by left); right; cbn [straight operands] in Hs |- *; try done;
      eexists _, _; (split; [reflexivity|]); by apply andb_true_iff in Hs as [[? ?]%andb_true_iff ?]. }
  - exists s, t. cbn [length]. rewrite !exec_S, Hi. split; [done|]. split; [done|].
    split; [by exists d|split; [done|apply clobbers_refl]].
  - destruct (exec_agree env i rs ws l d s t Ho Hrs Hws Hst) as (Ha & Hm & Hc).
    destruct (IH (ws ++ d) (pre ++ [i]) _ _ Hs' ltac:(by rewrite Hp, <-app_assoc) Ha) as (s' & t' & H1 & H2 & Hd & Hm' & Hc').
    exists s', t'. rewrite length_app, Nat.add_1_r in H1, H2. cbn [length]. rewrite !exec_S, Hi.
    destruct i; try done; (split; [done|]; split; [done|]; split; [done|]; split; [congruence|]); by eapply clobbers_trans.
Qed.
Lemma straight_ok l prog : straight l [] prog = true → asm_ok l prog.
Proof.
  intros Hp s. unfold asm_effect, run_asm. cbn [fst snd].
  destruct (straight_run no_env l [] prog prog [] s (fresh_cpu (c_sysregs s) (c_trace s)) Hp eq_refl)
    as (s' & t' & H1 & H2 & (d' & [_ Hb Ht]) & Hm & Hc).
  { split; [|done..]. intros r Hr. assert (r = 31%nat) as -> by set_solver. done. }
  cbn [length] in *. rewrite H2. exists s'. split; [done|]. by rewrite Hb, Ht.
Qed.


(** ** Runs
    With enough fuel the program ends, from a position and a state, with an exit that
    satisfies [Q]. *)
Definition wp (env : Env) (prog : list Instr) (pc : nat) (s : CpuState) (Q : Exit → Prop) : Prop :=
  ∃ n e, Q e ∧ ∀ k, exec (n + k) env prog pc s = e.

(** The next position and state, for an instruction that stays in the function. *)
Definition next (env : Env) (i : Instr) (pc : nat) (s : CpuState) : option (nat * CpuState) :=
  match i with
  | Bc c target => Some (if holds c (c_cmp s) then target else S pc, s)
  | B target => Some (target, s)
  | Cbz rn target => Some (if xr rn s =? 0 then target else S pc, s)
  | CbzW rn target => Some (if as_u32 (xr rn s) =? 0 then target else S pc, s)
  | Cbnz rn target => Some (if xr rn s =? 0 then S pc else target, s)
  | Tbz rn bit target => Some (if Z.testbit (xr rn s) bit then S pc else target, s)
  | Tbnz rn bit target => Some (if Z.testbit (xr rn s) bit then target else S pc, s)
  | Bl _ | Blr _ | Br _ | BSym _ | Eret | RetX _ | Return => None
  | _ => Some (S pc, exec_instr env i s)
  end.

Section Wp.
Context (env : Env) (prog : list Instr).

(** The next instructions of the program. *)
Definition code_at (pc : nat) (seg : list Instr) : Prop := ∀ k i, seg !! k = Some i → prog !! (pc + k)%nat = Some i.

Lemma code_at_eval pc seg : take (length seg) (drop pc prog) = seg → code_at pc seg.
Proof.
  intros Hseg k i Hi. pose proof (lookup_lt_Some _ _ _ Hi) as Hlt. rewrite <-Hseg in Hi.
  rewrite lookup_take_lt, lookup_drop in Hi by done. done.
Qed.

Lemma code_at_app pc l l' : code_at pc (l ++ l') → code_at pc l ∧ code_at (pc + length l) l'.
Proof.
  intros Hc. split; intros k i Hk.
  - apply Hc. by apply lookup_app_l_Some.
  - rewrite <-Nat.add_assoc. apply Hc. by rewrite lookup_app_r, Nat.add_sub' by lia.
Qed.

Lemma wp_next pc s i pc' s' Q :
  prog !! pc = Some i → next env i pc s = Some (pc', s') → wp env prog pc' s' Q → wp env prog pc s Q.
Proof.
  intros Hi Hn (n & e & He & Hk). exists (S n), e. split; [done|]. intros k. cbn [Nat.add].
  rewrite exec_S, Hi. destruct i; simplify_eq/=; apply Hk.
Qed.
Lemma wp_return pc s Q : prog !! pc = Some Return → Q (Returned s) → wp env prog pc s Q.
Proof. intros Hi HQ. exists 1%nat, (Returned s). split; [done|]. intros k. cbn [Nat.add]. by rewrite exec_S, Hi. Qed.
Lemma wp_eret pc s Q : prog !! pc = Some Eret → Q (Left s) → wp env prog pc s Q.
Proof. intros Hi HQ. exists 1%nat, (Left s). split; [done|]. intros k. cbn [Nat.add]. by rewrite exec_S, Hi. Qed.
Lemma wp_bsym pc s f Q : prog !! pc = Some (BSym f) → Q (e_sym env f s) → wp env prog pc s Q.
Proof. intros Hi HQ. eexists 1%nat, _. split; [exact HQ|]. intros k. cbn [Nat.add]. by rewrite exec_S, Hi. Qed.
Lemma wp_bl pc s f s' Q :
  let ra := e_base env + 4 * Z.of_nat (S pc) in
  prog !! pc = Some (Bl f) → e_sym env f (set_x 30 ra s) = Returned s' ∧ xr 30 s' = ra ∨ e_sym env f (set_x 30 ra s) = ReturnedTo ra s' →
  wp env prog (S pc) s' Q → wp env prog pc s Q.
Proof.
  intros ra Hi Hf (n & e & He & Hk). exists (S n), e. split; [done|]. intros k. cbn [Nat.add].
  rewrite exec_S, Hi. fold ra. destruct Hf as [[-> ->]| ->]; by rewrite Z.eqb_refl.
Qed.
(** A call that does not come back. *)
Lemma wp_bl_out pc s f e Q :
  prog !! pc = Some (Bl f) → e_sym env f (set_x 30 (e_base env + 4 * Z.of_nat (S pc)) s) = e →
  match e with Returned _ | ReturnedTo _ _ => False | _ => True end → Q e → wp env prog pc s Q.
Proof.
  intros Hi Hf He HQ. exists 1%nat, e. split; [done|]. intros k. cbn [Nat.add]. rewrite exec_S, Hi, Hf. by destruct e.
Qed.
End Wp.

Ltac code_here := let k := fresh in let i := fresh in let Hk := fresh in
  intros k i Hk; do 4 (destruct k as [|k]; [first [exact Hk|discriminate Hk]|]); destruct k; discriminate Hk.
(** One instruction of a program that evaluates. *)
Ltac wp_step := eapply wp_next; [reflexivity|cbn [next exec_instr]; reflexivity|]; regs_simpl.

(** ** Programs without loops
    If all branches go forward the length of a program is enough fuel. *)
Definition forward_at (pc : nat) (i : Instr) : bool :=
  match i with
  | Bc _ t | B t | Cbz _ t | CbzW _ t | Cbnz _ t | Tbz _ _ t | Tbnz _ _ t => Nat.ltb pc t
  | _ => true
  end.
Definition forward (prog : list Instr) : bool :=
  forallb (λ pc, match prog !! pc with Some i => forward_at pc i | None => true end) (seq 0 (length prog)).
Lemma forward_spec prog pc i : forward prog = true → prog !! pc = Some i → forward_at pc i = true.
Proof.
  intros Hf Hi. unfold forward in Hf. rewrite List.forallb_forall in Hf.
  specialize (Hf pc). rewrite Hi in Hf. apply Hf, list_elem_of_In, elem_of_seq. apply lookup_lt_Some in Hi. lia.
Qed.
Lemma forward_fuel env prog d pc s k :
  forward prog = true → (length prog - pc ≤ d)%nat → exec (d + k) env prog pc s = exec d env prog pc s.
Proof.
  intros Hf. revert pc s. induction d as [|d IH]; intros pc s Hd.
  - destruct k; [done|]. cbn [Nat.add]. rewrite exec_S, lookup_ge_None_2 by lia. done.
  - cbn [Nat.add]. rewrite !exec_S. destruct (prog !! pc) as [i|] eqn:Hi; [|done].
    pose proof (forward_spec _ _ _ Hf Hi) as Hfi.
    destruct i; cbn [forward_at] in Hfi; try apply Nat.ltb_lt in Hfi; try done;
      repeat case_match; try done; apply IH; lia.
Qed.
Lemma wp_forward env prog pc s Q :
  forward prog = true → wp env prog pc s Q → Q (exec (length prog) env prog pc s).
Proof.
  intros Hf (n & e & He & Hk). rewrite <-(forward_fuel env prog _ pc s n), Nat.add_comm, Hk by (done || lia). done.
Qed.

(** ** The memory *)
Lemma byte_of_range v i : 0 ≤ byte_of v i < 256.
Proof. unfold byte_of. change 0xff with (Z.ones 8). rewrite Z.land_ones by done. by apply Z.mod_pos_bound. Qed.
Lemma byte_of_0 i : byte_of 0 i = 0.
Proof. unfold byte_of. by rewrite Z.shiftr_0_l. Qed.
Lemma mem_store_in n a v m b : a ≤ b < a + n → mem_store n a v m b = byte_of v (b - a).
Proof. intros. unfold mem_store. by rewrite bool_decide_true. Qed.
Lemma mem_store_out n a v m b : ¬ a ≤ b < a + n → mem_store n a v m b = m b.
Proof. intros. unfold mem_store. by rewrite bool_decide_false. Qed.

Lemma byte_of_eq v i : 0 ≤ i → byte_of v i = (v / 2 ^ (8 * i)) mod 256.
Proof.
  intros. unfold byte_of. change 0xff with (Z.ones 8). by rewrite Z.land_ones, Z.shiftr_div_pow2 by lia.
Qed.
(** A word is read as it was written, and is not changed by writes elsewhere. *)
Lemma load_store_same a v m : 0 ≤ v < 2 ^ 64 → mem_load64 a (mem_store 8 a v m) = v.
Proof.
  intros Hv. unfold mem_load64. rewrite !mem_store_in by lia.
  replace (a - a) with 0 by lia. rewrite !Z.add_simpl_l, !byte_of_eq by done.
  assert (∀ i, 0 ≤ i → v / 2 ^ (8 * (i + 1)) = v / 2 ^ (8 * i) / 256) as Hq.
  { intros i Hi. rewrite Z.div_div, <-(Z.pow_add_r 2 _ 8) by lia. f_equal. f_equal. lia. }
  rewrite (Hq 6 ltac:(done) : v / 2 ^ (8 * 7) = _), (Hq 5 ltac:(done) : v / 2 ^ (8 * 6) = _),
    (Hq 4 ltac:(done) : v / 2 ^ (8 * 5) = _), (Hq 3 ltac:(done) : v / 2 ^ (8 * 4) = _),
    (Hq 2 ltac:(done) : v / 2 ^ (8 * 3) = _), (Hq 1 ltac:(done) : v / 2 ^ (8 * 2) = _),
    (Hq 0 ltac:(done) : v / 2 ^ (8 * 1) = _), (Z.div_1_r v : v / 2 ^ (8 * 0) = v).
  assert (∀ q, q = 256 * (q / 256) + q mod 256) as Hd by (intros q; by apply Z.div_mod).
  assert (v / 256 / 256 / 256 / 256 / 256 / 256 / 256 / 256 = 0) as H0.
  { rewrite !Z.div_div by done. apply Z.div_small. exact Hv. }
  pose proof (Hd v). pose proof (Hd (v / 256)). pose proof (Hd (v / 256 / 256)).
  pose proof (Hd (v / 256 / 256 / 256)). pose proof (Hd (v / 256 / 256 / 256 / 256)).
  pose proof (Hd (v / 256 / 256 / 256 / 256 / 256)). pose proof (Hd (v / 256 / 256 / 256 / 256 / 256 / 256)).
  pose proof (Hd (v / 256 / 256 / 256 / 256 / 256 / 256 / 256)). clear Hd Hq Hv.
  repeat match goal with |- context [?x mod 256] => generalize dependent (x mod 256); intros end. lia.
Qed.
Lemma load_store_other a b v m : a + 8 ≤ b ∨ b + 8 ≤ a → mem_load64 b (mem_store 8 a v m) = mem_load64 b m.
Proof. intros Hab. unfold mem_load64. by rewrite !mem_store_out by lia. Qed.
