(* ===== verification/AsmWords.v ===== *)
(** * Assembly on a structure in memory

    Code that saves and restores registers works on one structure in memory, a word at a
    time.  Its effect is computed on a state with the words of the structure instead of
    bytes at addresses; [run_words] shows that this is sound, so that what a sequence of
    instructions does follows by evaluation. *)

From Stdlib Require Import ZArith Lia.
From stdpp Require Import base list numbers option functions strings sets.
From S2P Require Import Prelude Smccc Services Context Asm AsmProps.
Open Scope rust_scope.
Open Scope string_scope.
Open Scope list_scope.
Open Scope Z_scope.

(** Registers, system registers, what was compared, and the words of the structure by
    their offset. *)
Record Words : Type := mkWords {
  w_x : nat → Z;
  w_b : Bank;
  w_cmp : Z * Z;
  w_m : Z → Z;
}.
Definition wx (r : nat) (A : Words) : Z := if decide (r = 31)%nat then 0 else w_x A r.
Definition wset (r : nat) (v : Z) (A : Words) : Words :=
  if decide (r = 31)%nat then A else mkWords (<[r := v]> (w_x A)) (w_b A) (w_cmp A) (w_m A).
Definition wset_b (r : SysReg) (v : Z) (A : Words) : Words := mkWords (w_x A) (<[r := v]> (w_b A)) (w_cmp A) (w_m A).
Definition wset_cmp (a b : Z) (A : Words) : Words := mkWords (w_x A) (w_b A) (a, b) (w_m A).
Definition wset_m (o v : Z) (A : Words) : Words := mkWords (w_x A) (w_b A) (w_cmp A) (<[o := v]> (w_m A)).
Definition wsp_reg (A : Words) : SysReg := if w_b A "spsel" =? 0 then "sp_el0" else "sp_el3".
Definition wxsp (r : nat) (A : Words) : Z := if decide (r = SP) then w_b A (wsp_reg A) else wx r A.

Definition u64 (v : Z) : Prop := 0 ≤ v < 2 ^ 64.
Definition word_at (size o : Z) : Prop := (0 <=? o) && (o + 8 <=? size) && (o mod 8 =? 0) = true.
Lemma word_at_spec size o : word_at size o → 0 ≤ o ∧ o + 8 ≤ size ∧ (8 | o).
Proof.
  unfold word_at. rewrite !andb_true_iff, !Z.leb_le, Z.eqb_eq. intros [[? ?] ?].
  do 2 (split; [done|]). by apply Z.mod_divide.
Qed.

Section Words.
(** The structure is at [p] and has [size] bytes; words of the rest of the memory are read
    through the base registers [ext], and nothing else changes there. *)
Context (env : Env) (p size : Z) (ext : nat → bool) (m0 : Z → Z).

Record words_of (s : CpuState) (A : Words) : Prop := mkWordsOf {
  of_x r : xr r s = wx r A;
  of_b r : c_sysregs s r = w_b A r;
  of_cmp : c_cmp s = w_cmp A;
  of_m o : word_at size o → load64 (p + o) s = w_m A o;
  of_rest a : ¬ p ≤ a < p + size → c_mem s a = m0 a;
  of_x_u64 r : u64 (wx r A);
  of_b_u64 r : u64 (w_b A r);
  of_m_u64 o : word_at size o → u64 (w_m A o);
}.

(** A word of the rest of the memory. *)
Definition outside (a : Z) : Prop := (a + 8 ≤ p ∨ p + size ≤ a) ∧ u64 (mem_load64 a m0).
Definition load_w (rn : nat) (off : Z) (A : Words) : Z :=
  if ext rn then mem_load64 (wxsp rn A + off) m0 else w_m A off.
Definition load_pre (rn : nat) (off : Z) (A : Words) : Prop :=
  if ext rn then outside (wxsp rn A + off) else wxsp rn A = p ∧ word_at size off.
Definition store_pre (rn : nat) (off : Z) (A : Words) : Prop := wxsp rn A = p ∧ word_at size off.

Definition words_pre (i : Instr) (A : Words) : Prop :=
  match i with
  | Mrs _ _ | Msr _ _ | MovR _ _ | MovSp _ | SetSp _ | Isb | CmpR _ _ | AddI _ _ _ | SubI _ _ _ | SubR _ _ _ => True
  | MsrI _ imm | MovI _ imm | OrrI _ _ imm | AndI _ _ imm => u64 imm
  | DaifClr imm => 0 ≤ imm
  | CmpI _ _ => True
  | Ubfx _ _ lsb width => 0 ≤ lsb ∧ 0 ≤ width ≤ 64
  | Ldr _ rn off => load_pre rn off A
  | Ldp r1 _ rn off => load_pre rn off A ∧ load_pre rn (off + 8) A
  | Str _ rn off => store_pre rn off A
  | Stp _ _ rn off => store_pre rn off A ∧ store_pre rn (off + 8) A
  | _ => False
  end.
Definition words_exec (i : Instr) (A : Words) : Words :=
  match i with
  | Mrs rd r => wset rd (w_b A r) A
  | Msr r rs => wset_b r (wx rs A) A
  | MsrI r imm => wset_b r imm A
  | DaifClr imm => wset_b "daif" (Z.ldiff (w_b A "daif") (Z.shiftl imm 6)) A
  | MovI rd imm => wset rd imm A
  | MovR rd rn => wset rd (wx rn A) A
  | MovSp rd => wset rd (wxsp SP A) A
  | SetSp rn => wset_b (wsp_reg A) (wx rn A) A
  | OrrI rd rn imm => wset rd (Z.lor (wx rn A) imm) A
  | AndI rd rn imm => wset rd (Z.land (wx rn A) imm) A
  | AddI rd rn imm => wset rd ((wx rn A + imm) mod 2 ^ 64) A
  | SubI rd rn imm => wset rd ((wx rn A - imm) mod 2 ^ 64) A
  | SubR rd rn rm => wset rd ((wx rn A - wx rm A) mod 2 ^ 64) A
  | Ubfx rd rn lsb width => wset rd (bits (wx rn A) lsb width) A
  | CmpR rn rm => wset_cmp (wx rn A) (wx rm A) A
  | CmpI rn imm => wset_cmp (wx rn A) imm A
  | Ldr rd rn off => wset rd (load_w rn off A) A
  | Ldp r1 r2 rn off => wset r2 (load_w rn (off + 8) A) (wset r1 (load_w rn off A) A)
  | Str rs rn off => wset_m off (wx rs A) A
  | Stp r1 r2 rn off => wset_m (off + 8) (wx r2 A) (wset_m off (wx r1 A) A)
  | _ => A
  end.

(** ** Soundness *)
Lemma wx_wset r r' v A : r' ≠ 31%nat → wx r (wset r' v A) = if decide (r = r') then v else wx r A.
Proof.
  intros Hr. unfold wx, wset. rewrite (decide_False (P := r' = 31%nat)) by done. cbn [w_x].
  destruct (decide (r = r')) as [->|]; [by rewrite decide_False, fn_lookup_insert|].
  destruct (decide (r = 31%nat)); [done|]. by rewrite fn_lookup_insert_ne.
Qed.
Lemma words_set_x s A r v : u64 v → words_of s A → words_of (set_x r v s) (wset r v A).
Proof.
  intros Hv [Hx Hb Hc Hm Hr Hxu Hbu Hmu]. unfold wset, set_x. destruct (decide (r = 31%nat)) as [|Hne]; [done|].
  pose proof (λ q, wx_wset q r v A Hne) as Hw. unfold wset in Hw. rewrite decide_False in Hw by done.
  pose proof (λ q, xr_set_x q r v s Hne) as Hxs. unfold set_x in Hxs. rewrite decide_False in Hxs by done.
  split; cbn [c_sysregs c_cmp w_b w_cmp w_m c_mem]; try done.
  - intros q. by rewrite Hw, Hxs, Hx.
  - intros q. rewrite Hw. by destruct (decide (q = r)).
Qed.
Lemma words_set_b s A r v : u64 v → words_of s A → words_of (set_sysreg r v s) (wset_b r v A).
Proof.
  intros Hv [Hx Hb Hc Hm Hr Hxu Hbu Hmu]. split; try done; intros q; cbn [c_sysregs w_b set_sysreg wset_b].
  - destruct (decide (q = r)) as [->|]; [by rewrite !fn_lookup_insert|by rewrite !fn_lookup_insert_ne].
  - destruct (decide (q = r)) as [->|]; [by rewrite fn_lookup_insert|by rewrite fn_lookup_insert_ne].
Qed.
(** The registers matter only by their values. *)
Lemma words_of_ext s A A' :
  words_of s A → (∀ r, wx r A = wx r A') → (∀ r, w_b A r = w_b A' r) → w_cmp A = w_cmp A' → (∀ o, w_m A o = w_m A' o) → words_of s A'.
Proof.
  intros [Hx Hb Hc Hm Hr Hxu Hbu Hmu] Ex Eb Ec Em. split; try (by rewrite <-?Ec);
    intros r; rewrite <-?Ex, <-?Eb, <-?Em; [apply Hx|apply Hb|apply Hm|apply Hxu|apply Hbu|apply Hmu].
Qed.
Lemma words_set_cmp s A a b : words_of s A → words_of (set_cmp a b s) (wset_cmp a b A).
Proof. intros []. by split. Qed.
Lemma words_emit s A e : words_of s A → words_of (emit e s) A.
Proof. intros []. by split. Qed.
Lemma words_store s A o v : word_at size o → u64 v → words_of s A → words_of (store64 (p + o) v s) (wset_m o v A).
Proof.
  intros Ho Hv [Hx Hb Hc Hm Hr Hxu Hbu Hmu]. split; try done.
  - intros o' Ho'. unfold load64. cbn [c_mem store64 set_mem wset_m w_m].
    destruct (decide (o' = o)) as [->|Hne]; [by rewrite fn_lookup_insert, load_store_same|].
    rewrite fn_lookup_insert_ne, load_store_other by (done || (apply word_at_spec in Ho as (_ & _ & [z ->]), Ho' as (_ & _ & [z' ->]); lia)).
    by apply Hm.
  - intros a Ha. cbn [c_mem store64 set_mem]. rewrite mem_store_out; [by apply Hr|]. apply word_at_spec in Ho. lia.
  - intros o' Ho'. cbn [wset_m w_m]. destruct (decide (o' = o)) as [->|]; [by rewrite fn_lookup_insert|].
    rewrite fn_lookup_insert_ne by done. by apply Hmu.
Qed.
Lemma words_xsp s A r : words_of s A → xsp r s = wxsp r A.
Proof.
  intros Hs. unfold xsp, wxsp, sp_reg, wsp_reg. rewrite !(of_b _ _ Hs). by destruct (decide (r = SP)); [|apply Hs].
Qed.
Lemma words_load s A rn off :
  words_of s A → load_pre rn off A → load64 (xsp rn s + off) s = load_w rn off A ∧ u64 (load_w rn off A).
Proof.
  intros Hs. rewrite (words_xsp s A) by done. unfold load_pre, load_w. destruct (ext rn).
  - intros [Ho Hu]. split; [|done]. unfold load64, mem_load64. rewrite !(of_rest _ _ Hs) by lia. done.
  - intros [-> Ho]. split; [by apply (of_m _ _ Hs)|by apply (of_m_u64 _ _ Hs)].
Qed.

Lemma u64_lor a b : u64 a → u64 b → u64 (Z.lor a b).
Proof.
  intros Ha Hb. assert (Z.lor a b = Z.lor a b mod 2 ^ 64) as ->; [|by apply Z.mod_pos_bound].
  rewrite <-Z.land_ones, Z.land_lor_distr_l, !Z.land_ones by done. by rewrite !Z.mod_small.
Qed.
Lemma u64_land a b : u64 a → 0 ≤ b → u64 (Z.land a b).
Proof.
  intros [] ?. split; [apply Z.land_nonneg; by left|]. apply (Z.le_lt_trans _ a); [|done].
  apply Z.ldiff_le; [done|]. apply Z.bits_inj'. intros i Hi. rewrite Z.ldiff_spec, Z.land_spec, Z.bits_0.
  by destruct (Z.testbit a i), (Z.testbit b i).
Qed.
Lemma u64_ldiff a b : u64 a → u64 (Z.ldiff a b).
Proof.
  intros []. split; [apply Z.ldiff_nonneg; by left|]. apply (Z.le_lt_trans _ a); [|done].
  apply Z.ldiff_le; [done|]. apply Z.bits_inj'. intros i Hi. rewrite !Z.ldiff_spec, Z.bits_0.
  by destruct (Z.testbit a i), (Z.testbit b i).
Qed.
Lemma u64_mod a : u64 (a mod 2 ^ 64).
Proof. by apply Z.mod_pos_bound. Qed.
Lemma u64_bits x lsb width : 0 ≤ width ≤ 64 → u64 (bits x lsb width).
Proof.
  intros Hw. unfold bits, u64. rewrite Z.land_ones by lia.
  pose proof (Z.mod_pos_bound (Z.shiftr x lsb) (2 ^ width) ltac:(apply Z.pow_pos_nonneg; lia)).
  pose proof (Z.pow_le_mono_r 2 width 64 ltac:(lia) ltac:(lia)). lia.
Qed.

Lemma words_step i s A : words_pre i A → words_of s A → words_of (exec_instr env i s) (words_exec i A).
Proof.
  intros Hpre Hs. pose proof (of_x _ _ Hs) as Hx. pose proof (of_b _ _ Hs) as Hb.
  pose proof (of_x_u64 _ _ Hs) as Hxu. pose proof (of_b_u64 _ _ Hs) as Hbu.
  destruct i; try done; cbn [words_pre exec_instr words_exec] in *.
  all: rewrite ?Hx, ?Hb.
  all: try (by apply words_set_x); try (by apply words_set_b); try (by apply words_set_cmp); try (by apply words_emit).
  all: try (apply words_set_x; [|done]); try (apply words_set_b; [|done]).
  - by apply u64_ldiff.
  - rewrite (words_xsp s A) by done. apply words_set_x; [|done]. unfold wxsp. by rewrite decide_True.
  - unfold sp_reg. rewrite Hb. by apply words_set_b.
  - apply u64_land; [done|apply Hpre].
  - by apply u64_lor.
  - apply u64_mod.
  - apply u64_mod.
  - apply u64_mod.
  - apply u64_bits, Hpre.
  - destruct (words_load s A rn off) as [-> Hu]; [done..|]. by apply words_set_x.
  - destruct Hpre as [Hp Ho]. rewrite (words_xsp s A), Hp by done. by apply words_store.
  - destruct Hpre as [H1 H2]. destruct (words_load s A rn off) as [-> Hu1]; [done..|].
    rewrite <-Z.add_assoc. destruct (words_load s A rn (off + 8)) as [-> Hu2]; [done..|].
    by apply words_set_x, words_set_x.
  - destruct Hpre as [[Hp H1] [_ H2]]. rewrite (words_xsp s A), Hp by done. rewrite <-Z.add_assoc.
    apply words_store; [done|done|]. by apply words_store.
Qed.

(** A sequence of instructions. *)
Fixpoint words_pres (l : list Instr) (A : Words) : Prop :=
  match l with [] => True | i :: l => words_pre i A ∧ words_pres l (words_exec i A) end.
Definition words_run (l : list Instr) (A : Words) : Words := foldl (λ A i, words_exec i A) A l.
Lemma run_words prog l s A pc Q :
  code_at prog pc l → words_pres l A → words_of s A →
  (∀ s', words_of s' (words_run l A) → wp env prog (pc + length l)%nat s' Q) → wp env prog pc s Q.
Proof.
  revert s A pc. induction l as [|i l IH]; intros s A pc Hcode Hpre Hs HQ.
  - rewrite Nat.add_0_r in HQ. by apply HQ.
  - destruct Hpre as [Hi Hl]. pose proof (Hcode 0%nat i eq_refl) as C0. rewrite Nat.add_0_r in C0.
    eapply (wp_next env prog pc s i (S pc) (exec_instr env i s)); [done|by destruct i|].
    apply (IH _ (words_exec i A) (S pc)); [|done|by apply words_step|].
    + intros k j Hk. rewrite Nat.add_succ_comm. by apply (Hcode (S k)).
    + cbn [length] in HQ. intros s' Hs'. rewrite Nat.add_succ_comm. by apply HQ.
Qed.
End Words.

(** ** Well-typed cores
    Registers hold words and the memory holds bytes. *)
Record core_ok (s : CpuState) : Prop := {
  core_x r : u64 (xr r s);
  core_b r : u64 (c_sysregs s r);
  core_m a : 0 ≤ c_mem s a < 256;
}.
Lemma load64_u64 a m : (∀ b, 0 ≤ m b < 256) → u64 (mem_load64 a m).
Proof.
  intros Hm. unfold mem_load64, u64. pose proof (Hm a). pose proof (Hm (a + 1)). pose proof (Hm (a + 2)).
  pose proof (Hm (a + 3)). pose proof (Hm (a + 4)). pose proof (Hm (a + 5)). pose proof (Hm (a + 6)).
  pose proof (Hm (a + 7)). lia.
Qed.

(** The view of a core in which the structure is at [p]. *)
Definition words_view (p : Z) (s : CpuState) : Words :=
  mkWords (c_xs s) (c_sysregs s) (c_cmp s) (λ o, load64 (p + o) s).
Lemma words_view_of p size s : core_ok s → words_of p size (c_mem s) s (words_view p s).
Proof.
  intros [Hx Hb Hm]. split; try done. intros o _. by apply load64_u64.
Qed.
