(* ===== verification/MemAsm.v ===== *)
(** * Memory routines in assembly

    [src/zeromem.S] and [src/cache_helpers.S]: the functions that zero memory, with and
    without [dc zva], and those that maintain the data cache over a range.  Registers
    are those of the source: [x0] is the cursor, [x1] the length and later the mask of a
    block, [x2] the address to stop at, [x3] the size of a block. *)

From Stdlib Require Import ZArith Lia.
From stdpp Require Import base list numbers option functions strings.
From S2P Require Import Prelude Smccc Services Context Asm.
Open Scope rust_scope.
Open Scope string_scope.
Open Scope list_scope.
Open Scope Z_scope.

(** ** Zeroing memory *)
Section Zeromem.
Context (ENABLE_ASSERTIONS : bool) (SCTLR_M_BIT : Z).

Definition zeromem_checks : list Line :=
  if ENABLE_ASSERTIONS
  then [Mrs 4 "sctlr_el3" : Line; TstI 4 SCTLR_M_BIT : Line] ++ ASM_ASSERT CNe "assume_mmu_enabled"
  else [].
Definition block_size_checks : list Line :=
  if ENABLE_ASSERTIONS then [CmpI 3 16 : Line] ++ ASM_ASSERT CHs "assume_block_size" else [].

Definition zeromem_entry : list Line :=
  [Lab "zeromem";
   AddR 2 0 1 : Line;
   J "fallback_entry"].
Definition zeromem_dczva_start : list Line :=
  [Lab "zeromem_dczva"] ++
  zeromem_checks ++
  [AddR 2 0 1 : Line;
   Mrs 3 "dczid_el0" : Line;
   Ubfx 3 3 0 4 : Line;
   MovI 5 (Z.shiftl 1 2) : Line;
   LslR 3 5 3 : Line] ++
  block_size_checks ++
  [CmpR 1 3 : Line;
   JC CLo "fallback_entry";
   SubI 1 3 1 : Line;
   TstR 0 1 : Line;
   JC CEq "blocksize_aligned";
   OrrR 4 0 1 : Line;
   AddI 4 4 1 : Line;
   JZ 4 "fallback_entry";
   CmpR 4 2 : Line;
   JC CHi "fallback_entry"].
Definition zeromem_dczva_initial : list Line :=
  [TstI 0 0xf : Line;
   JC CEq "initial_1byte_aligned_end";
   OrrI 5 0 0xf : Line;
   AddI 5 5 1 : Line;
   JZ 5 "fallback_entry";
   Lab "initial_1byte";
   Strb0Post 0 : Line;
   CmpR 0 5 : Line;
   JC CNe "initial_1byte";
   Lab "initial_1byte_aligned_end";
   CmpR 0 4 : Line;
   JC CHs "blocksize_aligned";
   Lab "initial_16bytes";
   Stp0Post 0 : Line;
   CmpR 0 4 : Line;
   JC CLo "initial_16bytes"].
Definition zeromem_dczva_blocks : list Line :=
  [Lab "blocksize_aligned";
   BicR 4 2 1 : Line;
   CmpR 0 4 : Line;
   JC CHs "final_16bytes_aligned";
   Lab "blocks";
   DcZva 0 : Line;
   AddR 0 0 3 : Line;
   CmpR 0 4 : Line;
   JC CLo "blocks";
   Lab "final_16bytes_aligned";
   BicI 4 2 15 : Line;
   CmpR 0 4 : Line;
   JC CHs "final_1byte_aligned";
   Lab "final_16bytes";
   Stp0Post 0 : Line;
   CmpR 0 4 : Line;
   JC CLo "final_16bytes";
   Lab "final_1byte_aligned";
   CmpR 0 2 : Line;
   JC CEq "end";
   Lab "final_1byte";
   Strb0Post 0 : Line;
   CmpR 0 2 : Line;
   JC CNe "final_1byte";
   Lab "end";
   Return : Line].
Definition zeromem_dczva_fallback : list Line :=
  [Lab "fallback_entry";
   TstI 0 0xf : Line;
   JC CEq "final_16bytes_aligned";
   OrrI 4 0 15 : Line;
   AddI 4 4 1 : Line;
   JZ 4 "final_1byte_aligned";
   CmpR 4 2 : Line;
   JC CHs "final_1byte_aligned";
   Lab "fallback_1byte";
   Strb0Post 0 : Line;
   CmpR 0 4 : Line;
   JC CNe "fallback_1byte";
   J "final_16bytes_aligned"].
Definition zeromem_text : list Line :=
  zeromem_entry ++ zeromem_dczva_start ++ zeromem_dczva_initial ++ zeromem_dczva_blocks ++ zeromem_dczva_fallback.

(** Both functions are parts of one text. *)
Definition zeromem_at (l : string) : nat := label zeromem_text l.
Definition zeromem_prog : list Instr := assemble zeromem_text.
End Zeromem.

(** ** The data cache *)
Definition dcache_line_size (reg tmp : nat) : list Line :=
  [Mrs tmp "ctr_el0" : Line; Ubfx tmp tmp 16 4 : Line; MovI reg 4 : Line; LslR reg reg tmp : Line].

Definition do_dcache_maintenance_by_mva (op : string) : list Line :=
  [JZ 1 "exit_loop"] ++
  dcache_line_size 2 3 ++
  [AddR 1 0 1 : Line;
   SubI 3 2 1 : Line;
   BicR 0 0 3 : Line;
   Lab "loop";
   Dc op 0 : Line;
   AddR 0 0 2 : Line;
   CmpR 0 1 : Line;
   JC CLo "loop";
   DsbSy : Line;
   Lab "exit_loop";
   Return : Line].

Definition do_dcache_maintenance_instr (op : string) : list Line :=
  [JZ 1 "exit_loop"] ++
  dcache_line_size 2 3 ++
  [SubI 3 2 1 : Line;
   BicR 0 0 3 : Line;
   AddR 1 1 0 : Line;
   Lab "loop";
   Dc op 0 : Line;
   AddR 0 0 2 : Line;
   CmpR 0 1 : Line;
   JC CLo "loop";
   DsbOsh : Line;
   Lab "exit_loop";
   Return : Line].

Definition flush_dcache_range : list Instr := assemble (do_dcache_maintenance_by_mva "civac").
Definition inv_dcache_range : list Instr := assemble (do_dcache_maintenance_by_mva "ivac").
Definition popa_range_asm : list Instr := assemble (do_dcache_maintenance_instr "cipapa").
Definition popa_range_mte2_asm : list Instr := assemble (do_dcache_maintenance_instr "cigdpapa").
