(* ===== verification/MemAsmProps.v ===== *)
(** * The memory routines are correct

    Zeroing clears exactly the bytes of its range, with and without [dc zva], and cache
    maintenance reaches exactly the lines of its range. *)

From Stdlib Require Import ZArith Lia.
From stdpp Require Import base list numbers option functions strings sets.
From S2P Require Import Prelude Smccc Services Context Asm AsmProps MemAsm.
Open Scope rust_scope.
Open Scope string_scope.
Open Scope list_scope.
Open Scope Z_scope.

(** ** Zeroed ranges *)
Definition zeroed (a c : Z) (m0 m : Z → Z) : Prop :=
  ∀ b, m b = if bool_decide (a ≤ b < c) then 0 else m0 b.
Lemma zeroed_refl a m : zeroed a a m m.
Proof. intros b. by rewrite bool_decide_false by lia. Qed.
Lemma zeroed_store a c n m0 m : a ≤ c → 0 ≤ n → zeroed a c m0 m → zeroed a (c + n) m0 (mem_store n c 0 m).
Proof.
  intros Hac Hn Hz b. unfold mem_store. destruct (bool_decide (c ≤ b < c + n)) eqn:E.
  - apply bool_decide_eq_true in E. by rewrite byte_of_0, bool_decide_true by lia.
  - apply bool_decide_eq_false in E. rewrite (Hz b). by do 2 case_bool_decide; try lia.
Qed.

(** The state of a loop: only the cursor and the memory change. *)
Record frame (l : list nat) (s s' : CpuState) : Prop := {
  frame_x : only_clobbers l s s';
  frame_sysregs : c_sysregs s' = c_sysregs s;
  frame_trace : c_trace s' = c_trace s;
}.
Lemma frame_refl l s : frame l s s.
Proof. split; [apply clobbers_refl|done..]. Qed.
Lemma frame_trans l s s' s'' : frame l s s' → frame l s' s'' → frame l s s''.
Proof. intros [] []. split; [by eapply clobbers_trans|congruence..]. Qed.

Section Loops.
Context (env : Env) (prog : list Instr).
(** What a loop does: from cursor [c] to [e]. *)
Definition clears (a c e : Z) (m0 : Z → Z) (pc pc' : nat) (s : CpuState) : Prop :=
  ∀ Q, (∀ s', xr 0 s' = e mod 2 ^ 64 → zeroed a e m0 (c_mem s') → frame [0%nat] s s' → wp env prog pc' s' Q) →
  wp env prog pc s Q.

Lemma byte_loop a c e m0 r pc s :
  code_at prog pc [Strb0Post 0; CmpR 0 r; Bc CNe pc] → r ≠ 0%nat → r ≠ 31%nat → 0 ≤ a ≤ c → c < e ≤ 2 ^ 64 →
  xr 0 s = c → xr r s = e mod 2 ^ 64 → zeroed a c m0 (c_mem s) → clears a c e m0 pc (pc + 3)%nat s.
Proof.
  intros Hcode Hr Hr' Ha. remember (Z.to_nat (e - c)) as n eqn:Hn. revert c s Ha Hn.
  induction n as [|n IH]; intros c s Ha Hn Hce H0 Hrs Hz Q HQ; [lia|].
  pose proof (Hcode 0%nat _ eq_refl) as C0. pose proof (Hcode 1%nat _ eq_refl) as C1.
  pose proof (Hcode 2%nat _ eq_refl) as C2. rewrite Nat.add_0_r in C0. rewrite Nat.add_1_r in C1.
  replace (pc + 2)%nat with (S (S pc)) in C2 by lia.
  eapply wp_next; [exact C0|reflexivity|]. cbn [exec_instr]. rewrite H0.
  eapply wp_next; [exact C1|reflexivity|]. cbn [exec_instr].
  eapply wp_next; [exact C2|reflexivity|]. cbn [c_cmp set_cmp holds]. regs_simpl.
  rewrite (xr_set_x_ne r 0), xr_set_mem, Hrs by done. set (s1 := set_cmp _ _ _).
  assert (zeroed a (c + 1) m0 (c_mem s1)) as Hz1.
  { unfold s1. cbn [c_mem set_cmp]. rewrite set_x_mem. apply zeroed_store; [lia|lia|done]. }
  assert (frame [0%nat] s s1) as Hf1 by (unfold s1; split; [clobbers|cbn; by rewrite set_x_sysregs|cbn; by rewrite set_x_trace]).
  assert (xr 0 s1 = (c + 1) mod 2 ^ 64) as H01 by (unfold s1; by regs_simpl).
  destruct (decide (c + 1 = e)) as [<-|Hne].
  - rewrite Z.eqb_refl. cbn [negb]. replace (S (S (S pc))) with (pc + 3)%nat by lia. by apply HQ.
  - assert (((c + 1) mod 2 ^ 64 =? e mod 2 ^ 64) = false) as ->.
    { rewrite (Z.mod_small (c + 1)) by lia. apply Z.eqb_neq.
      destruct (decide (e = 2 ^ 64)) as [->|]; [rewrite Z_mod_same_full; lia|rewrite Z.mod_small; lia]. }
    cbn [negb]. rewrite Z.mod_small in H01 by lia.
    apply (IH (c + 1) s1); try done; try lia.
    + rewrite (frame_x _ _ _ Hf1) by set_solver. done.
    + intros s' H0' Hz' Hf'. apply HQ; try done. by eapply frame_trans.
Qed.

(** A loop that moves in steps of [w] bytes up to the address in [x4]. *)
Lemma stride_loop w a c e m0 pc pcb s0 s :
  code_at prog pcb [CmpR 0 4; Bc CLo pc] → 0 < w → 0 ≤ a ≤ c → c < e < 2 ^ 64 → (w | e - c) →
  (∀ c' s, frame [0%nat] s0 s → a ≤ c' → c' + w ≤ e → (w | c' - c) → xr 0 s = c' → zeroed a c' m0 (c_mem s) →
     clears a c' (c' + w) m0 pc pcb s) →
  frame [0%nat] s0 s → xr 0 s = c → xr 4 s = e → zeroed a c m0 (c_mem s) → clears a c e m0 pc (pcb + 2)%nat s.
Proof.
  intros Hcode Hw Ha Hce [q Hq] Hbody. remember (Z.to_nat q) as n eqn:Hn. revert c q s Ha Hce Hq Hn Hbody.
  induction n as [|n IH]; intros c q s Ha Hce Hq Hn Hbody Hf H0 H4 Hz Q HQ; [nia|].
  pose proof (Hcode 0%nat _ eq_refl) as C0. pose proof (Hcode 1%nat _ eq_refl) as C1.
  rewrite Nat.add_0_r in C0. rewrite Nat.add_1_r in C1.
  assert (c + w ≤ e) as Hle by nia.
  apply (Hbody c s); try done; [lia|by rewrite Z.sub_diag; apply Z.divide_0_r|].
  intros s1 H01 Hz1 Hf1. rewrite Z.mod_small in H01 by lia.
  eapply wp_next; [exact C0|reflexivity|]. cbn [exec_instr].
  eapply wp_next; [exact C1|reflexivity|]. cbn [c_cmp set_cmp holds].
  assert (xr 4 s1 = e) as H41 by (rewrite (frame_x _ _ _ Hf1) by set_solver; done).
  rewrite H01, H41. set (s2 := set_cmp _ _ _).
  assert (frame [0%nat] s s2) as Hf2 by (destruct Hf1; split; [by apply clobbers_set_cmp|done..]).
  destruct (Z.ltb_spec (c + w) e) as [Hlt|Hge].
  - apply (IH (c + w) (q - 1) s2); try done; try lia.
    + intros c' s' Hf' Hac Hc' [z Hz']. apply Hbody; try done. exists (z + 1). lia.
    + by eapply frame_trans.
    + intros s' H0' Hz' Hf'. apply HQ; try done. by eapply frame_trans.
  - replace (S (S pcb)) with (pcb + 2)%nat by lia. assert (c + w = e) as Heq by lia.
    apply HQ; [rewrite Z.mod_small by lia; unfold s2; by regs_simpl; lia| |done]. by rewrite <-Heq.
Qed.

Lemma pair_body a c e m0 pc s :
  code_at prog pc [Stp0Post 0] → a ≤ c → xr 0 s = c → zeroed a c m0 (c_mem s) → e = c + 16 →
  clears a c e m0 pc (S pc) s.
Proof.
  intros Hcode Ha H0 Hz -> Q HQ. pose proof (Hcode 0%nat _ eq_refl) as C0. rewrite Nat.add_0_r in C0.
  eapply wp_next; [exact C0|reflexivity|]. cbn [exec_instr]. rewrite H0. apply HQ.
  - by regs_simpl.
  - rewrite set_x_mem. apply zeroed_store; [lia|lia|done].
  - split; [clobbers|by rewrite set_x_sysregs|by rewrite set_x_trace].
Qed.

Lemma block_body a c size m0 pc s :
  code_at prog pc [DcZva 0; AddR 0 0 3] → a ≤ c → xr 0 s = c → zeroed a c m0 (c_mem s) →
  xr 3 s = size → zva_size (c_sysregs s "dczid_el0") = size → Z.ldiff c (size - 1) = c → 0 ≤ size →
  clears a c (c + size) m0 pc (pc + 2)%nat s.
Proof.
  intros Hcode Ha H0 Hz H3 Hsize Hal Hs Q HQ. pose proof (Hcode 0%nat _ eq_refl) as C0.
  pose proof (Hcode 1%nat _ eq_refl) as C1. rewrite Nat.add_0_r in C0. rewrite Nat.add_1_r in C1.
  eapply wp_next; [exact C0|reflexivity|]. cbn [exec_instr].
  eapply wp_next; [exact C1|reflexivity|]. cbn [exec_instr]. replace (pc + 2)%nat with (S (S pc)) in HQ by lia.
  unfold zero_block. rewrite Hsize, H0, Hal. apply HQ.
  - regs_simpl. by rewrite H0, H3.
  - rewrite set_x_mem. cbn [c_mem set_mem]. apply zeroed_store; [lia|lia|done].
  - split; [clobbers|by rewrite set_x_sysregs|by rewrite set_x_trace].
Qed.
End Loops.

(** ** Alignment *)
Lemma mod_lt x : 0 ≤ x < 2 ^ 64 → x mod 2 ^ 64 = x.
Proof. apply Z.mod_small. Qed.
(** The last address of a multiple of [w]. *)
Lemma ldiff_mod x k : 0 ≤ k → Z.ldiff x (2 ^ k - 1) = x - x mod 2 ^ k.
Proof.
  intros. rewrite Z.sub_1_r, <-Z.ones_equiv, Z.ldiff_ones_r by done.
  rewrite Z.shiftl_mul_pow2, Z.shiftr_div_pow2 by done. pose proof (Z.div_mod x (2 ^ k)). lia.
Qed.
Lemma lor_mod x k : 0 ≤ k → Z.lor x (2 ^ k - 1) = x - x mod 2 ^ k + (2 ^ k - 1).
Proof.
  intros. rewrite <-ldiff_mod by done. rewrite Z.sub_1_r, <-Z.ones_equiv.
  rewrite <-(lor_disjoint (Z.ldiff x (Z.ones k)) (Z.ones k)).
  - apply Z.bits_inj'. intros i Hi. rewrite !Z.lor_spec, Z.ldiff_spec.
    by destruct (Z.testbit x i), (Z.testbit (Z.ones k) i).
  - apply Z.bits_inj'. intros i Hi. rewrite Z.land_spec, Z.ldiff_spec, Z.bits_0.
    by destruct (Z.testbit x i), (Z.testbit (Z.ones k) i).
Qed.
Lemma aligned_sub x c w : 0 < w → c mod w = 0 → (w | x - x mod w - c).
Proof.
  intros Hw Hc. exists (x / w - c / w). pose proof (Z.div_mod x w). pose proof (Z.div_mod c w). lia.
Qed.
Lemma land_mod x k : 0 ≤ k → Z.land x (2 ^ k - 1) = x mod 2 ^ k.
Proof. intros. by rewrite Z.sub_1_r, <-Z.ones_equiv, Z.land_ones. Qed.
(** The next address that is aligned. *)
Definition next_aligned (x w : Z) : Z := x - x mod w + w.
Lemma next_aligned_spec x w : 0 < w → x < next_aligned x w ≤ x + w ∧ next_aligned x w mod w = 0.
Proof.
  intros Hw. unfold next_aligned. pose proof (Z.mod_pos_bound x w Hw). split; [lia|].
  apply Z.mod_divide; [lia|]. destruct (aligned_sub x 0 w Hw) as [q Hq]; [by apply Z.mod_0_l; lia|].
  exists (q + 1). lia.
Qed.

(** ** Zeroing *)
(** The assembled text, with and without assertions. *)
Definition zeromem_code_on (M : Z) : list Instr := Eval vm_compute in zeromem_prog true M.
Definition zeromem_code_off (M : Z) : list Instr := Eval vm_compute in zeromem_prog false M.
Lemma zeromem_prog_eq b M : zeromem_prog b M = if b then zeromem_code_on M else zeromem_code_off M.
Proof. destruct b; vm_compute; reflexivity. Qed.

(** Both variants of the program, at a position. *)
Ltac at_label b :=
  rewrite zeromem_prog_eq; destruct b;
  repeat match goal with |- context [zeromem_at ?b ?M ?l] =>
    let pc := eval vm_compute in (zeromem_at b M l) in change (zeromem_at b M l) with pc end.

Section Zero.
Context (env : Env) (b : bool) (M : Z) (a n : Z) (s0 : CpuState).
Context (Ha : 0 ≤ a < 2 ^ 64) (Hn : 0 ≤ n < 2 ^ 64) (He : a + n ≤ 2 ^ 64).
Let e := a + n.
Definition zero_clobbers : list nat := [0; 1; 2; 3; 4; 5]%nat.
Definition all_zeroed (ex : Exit) : Prop :=
  ∃ s', ex = Returned s' ∧ zeroed a e (c_mem s0) (c_mem s') ∧ frame zero_clobbers s0 s'.

(** The cursor is at [c]. *)
Record at_cursor (c : Z) (s : CpuState) : Prop := {
  cur_x0 : xr 0 s = c mod 2 ^ 64;
  cur_x2 : xr 2 s = e mod 2 ^ 64;
  cur_zeroed : zeroed a c (c_mem s0) (c_mem s);
  cur_frame : frame zero_clobbers s0 s;
}.

Lemma at_cursor_cmp c s x y : at_cursor c s → at_cursor c (set_cmp x y s).
Proof using Type. intros [? ? ? [? ? ?]]. by split; [..|split]. Qed.
Lemma at_cursor_set_x c s r v : r ∈ [1; 3; 4; 5]%nat → at_cursor c s → at_cursor c (set_x r v s).
Proof using Type.
  clear Ha Hn He. intros Hr [? ? ? [? ? ?]]. assert (r ≠ 0 ∧ r ≠ 2)%nat as [? ?] by set_solver.
  split; [by rewrite xr_set_x_ne|by rewrite xr_set_x_ne|by rewrite set_x_mem|].
  split; [apply clobbers_set_x; [unfold zero_clobbers; set_solver|done]|by rewrite set_x_sysregs|by rewrite set_x_trace].
Qed.
Lemma frame_zero s s' : frame zero_clobbers s0 s → frame [0%nat] s s' → frame zero_clobbers s0 s'.
Proof using Type.
  clear Ha Hn He. intros [] []. split; [|congruence..]. eapply clobbers_trans; [done|done|]. unfold zero_clobbers. set_solver.
Qed.

Lemma final_1byte c s :
  a ≤ c ≤ e → at_cursor c s → wp env (zeromem_prog b M) (zeromem_at b M "final_1byte_aligned") s all_zeroed.
Proof.
  intros Hc Hs. pose proof Hs as [H0 H2 Hz Hf]. unfold e in *. at_label b.
  all: do 2 wp_step; cbn [c_cmp set_cmp holds]; rewrite H0, H2; set (s1 := set_cmp _ _ _);
    assert (at_cursor c s1) as Hs1 by (by apply at_cursor_cmp); clearbody s1.
  all: destruct (decide (c = a + n)) as [->|Hne];
    [rewrite Z.eqb_refl; apply wp_return; [reflexivity|]; exists s1; by destruct Hs1|].
  all: assert ((c mod 2 ^ 64 =? (a + n) mod 2 ^ 64) = false) as ->
    by (rewrite (mod_lt c) by lia; apply Z.eqb_neq;
        destruct (decide (a + n = 2 ^ 64)) as [Heq|]; [rewrite Heq, Z_mod_same_full; lia|rewrite mod_lt by lia; lia]).
  all: destruct Hs1 as [H01 H21 Hz1 Hf1]; apply (byte_loop env _ a c (a + n) (c_mem s0) 2); try done;
    [code_here|lia|lia|by rewrite H01, mod_lt by lia|].
  all: intros s' H0' Hz' Hf'; apply wp_return; [reflexivity|]; exists s'; split; [done|]; split; [done|];
    by eapply frame_zero.
Qed.


Lemma at_cursor_loop c c' s s' :
  at_cursor c s → xr 0 s' = c' mod 2 ^ 64 → zeroed a c' (c_mem s0) (c_mem s') → frame [0%nat] s s' → at_cursor c' s'.
Proof.
  intros [H0 H2 Hz Hf] H0' Hz' Hf'. split; [done| |done|by eapply frame_zero].
  by rewrite (frame_x _ _ _ Hf') by set_solver.
Qed.


Lemma final_16bytes c s :
  a ≤ c ≤ e → c mod 16 = 0 → at_cursor c s →
  wp env (zeromem_prog b M) (zeromem_at b M "final_16bytes_aligned") s all_zeroed.
Proof.
  intros Hc Hal Hs. pose proof Hs as [H0 H2 Hz Hf].
  assert (Z.ldiff (e mod 2 ^ 64) 15 = e mod 2 ^ 64 - (e mod 2 ^ 64) mod 16) as Hbic by exact (ldiff_mod _ 4 ltac:(done)).
  pose proof final_1byte as Hdone. revert Hdone. at_label b; intros Hdone.
  all: do 3 wp_step; cbn [c_cmp set_cmp holds]; rewrite H0, H2, Hbic; set (s1 := set_cmp _ _ _).
  all: assert (at_cursor c s1) as Hs1 by (apply at_cursor_cmp, at_cursor_set_x; [set_solver|done]);
    assert (xr 4 s1 = e mod 2 ^ 64 - (e mod 2 ^ 64) mod 16) as H41 by (unfold s1; by regs_simpl); clearbody s1.
  all: destruct (Z.leb_spec (e mod 2 ^ 64 - (e mod 2 ^ 64) mod 16) (c mod 2 ^ 64)) as [Hle|Hgt];
    [by apply (Hdone c)|].
  all: assert (e < 2 ^ 64) as Hlt by (destruct (decide (e = 2 ^ 64)) as [Heq|];
    [rewrite Heq, Z_mod_same_full, Z.mod_0_l in Hgt by done; pose proof (Z.mod_pos_bound c (2 ^ 64)); lia|unfold e in *; lia]).
  all: rewrite (mod_lt e) in * by (unfold e in *; lia); rewrite (mod_lt c) in Hgt by (unfold e in *; lia);
    pose proof (Z.mod_pos_bound e 16 ltac:(done)) as He16.
  all: match goal with |- wp _ _ ?pc _ _ =>
    apply (stride_loop env _ 16 a c (e - e mod 16) (c_mem s0) pc (S pc) s1 s1) end;
    [code_here|done|lia|lia|by apply aligned_sub|..].
  all: try apply frame_refl; try apply Hs1; try done; try (destruct Hs1 as [-> _ _ _]; apply mod_lt; unfold e in *; lia).
  all: try (intros c' s' Hf' Hac Hc' _ H0' Hz'; eapply pair_body; [code_here|lia|done|done|done]).
  all: intros s' H0' Hz' Hf'; apply (Hdone (e - e mod 16)); [lia|]; by eapply at_cursor_loop.
Qed.

Lemma next_16 : (Z.lor a 15 + 1) = next_aligned a 16.
Proof. unfold next_aligned. assert (Z.lor a 15 = a - a mod 16 + 15) as -> by exact (lor_mod a 4 ltac:(done)). lia. Qed.

Lemma fallback s :
  at_cursor a s → wp env (zeromem_prog b M) (zeromem_at b M "fallback_entry") s all_zeroed.
Proof.
  intros Hs. pose proof Hs as [H0 H2 Hz Hf]. destruct (next_aligned_spec a 16 ltac:(done)) as [Ht Hta].
  pose proof next_16 as Hnext. assert (Z.land a 15 = a mod 16) as Hland by exact (land_mod a 4 ltac:(done)).
  set (t := next_aligned a 16) in *. clearbody t.
  assert (t ≤ 2 ^ 64) as Htb by (apply Z.mod_divide in Hta as [q ->]; [clear - Ha Ht; lia|done]). rewrite mod_lt in H0 by done.
  pose proof final_1byte as Hdone1. pose proof final_16bytes as Hdone16. revert Hdone1 Hdone16.
  at_label b; intros Hdone1 Hdone16.
  all: do 2 wp_step; cbn [c_cmp set_cmp holds]; rewrite H0, Hland; set (s1 := set_cmp _ _ _);
    assert (at_cursor a s1) as Hs1 by (by apply at_cursor_cmp); clearbody s1.
  all: destruct (Z.eqb_spec (a mod 16) 0) as [|Hmod]; [apply (Hdone16 a); [unfold e; lia|done..]|].
  all: do 3 wp_step; rewrite (cur_x0 _ _ Hs1), (mod_lt a Ha), Hnext; set (s2 := set_x 4 _ _).
  all: assert (at_cursor a s2) as Hs2 by (do 2 (apply at_cursor_set_x; [set_solver|]); done);
    assert (xr 4 s2 = t mod 2 ^ 64) as H42 by (unfold s2; by regs_simpl); clearbody s2.
  all: destruct (decide (t = 2 ^ 64)) as [Hwrap|];
    [rewrite Hwrap, Z_mod_same_full; apply (Hdone1 a); [unfold e; lia|done]|].
  all: rewrite (mod_lt t) in H42 |- * by lia; rewrite (proj2 (Z.eqb_neq t 0)) by lia; do 2 wp_step;
    cbn [c_cmp set_cmp holds]; rewrite (cur_x2 _ _ Hs2), H42; set (s3 := set_cmp _ _ _);
    assert (at_cursor a s3) as Hs3 by (by apply at_cursor_cmp); assert (xr 4 s3 = t) as H43 by done; clearbody s3.
  all: destruct (Z.leb_spec (e mod 2 ^ 64) t) as [|Hgt]; [apply (Hdone1 a); [unfold e; lia|done]|].
  all: assert (t < e) as Hte by (pose proof (Z.mod_le e (2 ^ 64)); unfold e in *; lia).
  all: apply (byte_loop env _ a a t (c_mem s0) 4); try done; [code_here|lia|lia|
    by rewrite (cur_x0 _ _ Hs3), mod_lt|by rewrite mod_lt by lia|apply Hs3|].
  all: intros s' H0' Hz' Hf'; wp_step; apply (Hdone16 t); [lia|done|]; by eapply at_cursor_loop.
Qed.

(** *** With [dc zva] *)
Context (k : Z) (Hk : 4 ≤ k < 64).
Let size := 2 ^ k.
Context (Hdczid : zva_size (c_sysregs s0 "dczid_el0") = size).

Lemma size_pos : 16 ≤ size.
Proof. unfold size. change 16 with (2 ^ 4). apply Z.pow_le_mono_r; lia. Qed.
Lemma aligned_16 c : c mod size = 0 → c mod 16 = 0.
Proof.
  pose proof size_pos. intros [q ->]%Z.mod_divide; [|lia]. apply Z.mod_divide; [done|].
  exists (q * 2 ^ (k - 4)). unfold size. change 16 with (2 ^ 4). rewrite <-Z.mul_assoc, <-Z.pow_add_r by lia.
  do 2 f_equal. lia.
Qed.

Lemma blocks c s :
  a ≤ c ≤ e → c mod size = 0 → at_cursor c s → xr 1 s = size - 1 → xr 3 s = size →
  wp env (zeromem_prog b M) (zeromem_at b M "blocksize_aligned") s all_zeroed.
Proof.
  intros Hc Hal Hs H1 H3. pose proof Hs as [H0 H2 Hz Hf]. pose proof size_pos as Hsz.
  assert (Z.ldiff (e mod 2 ^ 64) (size - 1) = e mod 2 ^ 64 - (e mod 2 ^ 64) mod size) as Hbic by (apply ldiff_mod; lia).
  pose proof final_16bytes as Hdone. revert Hdone. at_label b; intros Hdone.
  all: do 3 wp_step; cbn [c_cmp set_cmp holds]; rewrite H0, H1, H2, Hbic; set (s1 := set_cmp _ _ _).
  all: assert (at_cursor c s1) as Hs1 by (apply at_cursor_cmp, at_cursor_set_x; [set_solver|done]);
    assert (xr 4 s1 = e mod 2 ^ 64 - (e mod 2 ^ 64) mod size) as H41 by (unfold s1; by regs_simpl);
    assert (xr 3 s1 = size) as H31 by (unfold s1; by regs_simpl); clearbody s1.
  all: destruct (Z.leb_spec (e mod 2 ^ 64 - (e mod 2 ^ 64) mod size) (c mod 2 ^ 64)) as [Hle|Hgt];
    [apply (Hdone c); try done; by apply aligned_16|].
  all: assert (e < 2 ^ 64) as Hlt by (destruct (decide (e = 2 ^ 64)) as [Heq|];
    [rewrite Heq, Z_mod_same_full, Z.mod_0_l in Hgt by lia; pose proof (Z.mod_pos_bound c (2 ^ 64)); lia|unfold e in *; lia]).
  all: rewrite (mod_lt e) in * by (unfold e in *; lia); rewrite (mod_lt c) in Hgt by (unfold e in *; lia);
    pose proof (Z.mod_pos_bound e size ltac:(lia)) as Hes.
  all: match goal with |- wp _ _ ?pc _ _ =>
    apply (stride_loop env _ size a c (e - e mod size) (c_mem s0) pc (pc + 2) s1 s1) end;
    [code_here|lia|lia|lia|apply aligned_sub; [lia|done]|..].
  all: try apply frame_refl; try apply Hs1; try done; try (destruct Hs1 as [-> _ _ _]; apply mod_lt; unfold e in *; lia).
  all: try (intros c' s' Hf' Hac Hc' [q Hq] H0' Hz'; eapply block_body;
    [code_here|lia|done|done|by rewrite (frame_x _ _ _ Hf') by set_solver|
     rewrite (frame_sysregs _ _ _ Hf'), (frame_sysregs _ _ _ (cur_frame _ _ Hs1)); done|..|lia]).
  all: try (unfold size; rewrite ldiff_mod by lia; fold size; replace c' with (c + q * size) by lia;
    rewrite Z.mod_add by lia; lia).
  all: intros s' H0' Hz' Hf'; apply (Hdone (e - e mod size)); [lia| |by eapply at_cursor_loop].
  all: apply aligned_16, Z.mod_divide; [lia|]; exists (e / size); pose proof (Z.div_mod e size ltac:(lia)); lia.
Qed.

Lemma initial_16bytes c t s :
  a ≤ c ≤ t → t ≤ e → t < 2 ^ 64 → c mod 16 = 0 → t mod size = 0 → at_cursor c s →
  xr 1 s = size - 1 → xr 3 s = size → xr 4 s = t →
  wp env (zeromem_prog b M) (zeromem_at b M "initial_1byte_aligned_end") s all_zeroed.
Proof.
  intros Hc Hte Htb Hal Htal Hs H1 H3 H4. pose proof Hs as [H0 H2 Hz Hf]. rewrite mod_lt in H0 by lia.
  pose proof blocks as Hdone. revert Hdone. at_label b; intros Hdone.
  all: do 2 wp_step; cbn [c_cmp set_cmp holds]; rewrite H0, H4; set (s1 := set_cmp _ _ _);
    assert (at_cursor c s1) as Hs1 by (by apply at_cursor_cmp); change (xr 0 s1 = c) in H0;
    change (xr 1 s1 = size - 1) in H1; change (xr 3 s1 = size) in H3; change (xr 4 s1 = t) in H4; clearbody s1.
  all: destruct (Z.leb_spec t c) as [Hle|Hgt]; [apply (Hdone c); try done; [lia|by replace c with t by lia]|].
  all: match goal with |- wp _ _ ?pc _ _ =>
    apply (stride_loop env _ 16 a c t (c_mem s0) pc (S pc) s1 s1) end;
    [code_here|done|lia|lia|replace t with (t - t mod 16) by (rewrite aligned_16; [lia|done]); by apply aligned_sub|..];
    try apply frame_refl; try apply Hs1; try done.
  all: try (intros c' s' Hf' Hac Hc' _ H0' Hz'; eapply pair_body; [code_here|lia|done|done|done]).
  all: intros s' H0' Hz' Hf'; apply (Hdone t); [lia|done|by eapply at_cursor_loop|..];
    by rewrite (frame_x _ _ _ Hf') by set_solver.
Qed.

Lemma next_block x : Z.lor x (size - 1) + 1 = next_aligned x size.
Proof. unfold next_aligned, size. rewrite lor_mod by lia. lia. Qed.
Lemma next_16_le t : a < t → t mod size = 0 → next_aligned a 16 ≤ t.
Proof.
  intros Hat Ht%aligned_16. destruct (next_aligned_spec a 16 ltac:(done)) as [Hb Hm].
  apply Z.mod_divide in Ht as [q ->], Hm as [q' Hq']; [|done..]. unfold next_aligned in *.
  pose proof (Z.div_mod a 16 ltac:(done)). lia.
Qed.

Lemma next_aligned_bound j : 0 ≤ j ≤ 64 → next_aligned a (2 ^ j) ≤ 2 ^ 64.
Proof.
  intros Hj. assert (0 < 2 ^ j) as Hp by (apply Z.pow_pos_nonneg; lia).
  destruct (next_aligned_spec a (2 ^ j) Hp) as [Hb [q Hq]%Z.mod_divide]; [|lia].
  assert (2 ^ 64 = 2 ^ (64 - j) * 2 ^ j) as H64 by (rewrite <-Z.pow_add_r by lia; by replace (64 - j + j) with 64 by lia).
  rewrite Hq in *. set (r := 2 ^ (64 - j)) in *. set (p := 2 ^ j) in *. clearbody r p.
  destruct (decide (q ≤ r)); [nia|]. assert ((r + 1) * p ≤ q * p) by (apply Z.mul_le_mono_nonneg_r; lia). lia.
Qed.

(** Five instructions before the first loop: the first block, at [t], is in the range. *)
Lemma unaligned_start t s :
  at_cursor a s → xr 1 s = size - 1 → xr 3 s = size → xr 4 s = t → a < t ≤ e → t < 2 ^ 64 → t mod size = 0 →
  wp env (zeromem_prog b M) (zeromem_at b M "initial_1byte" - 5) s all_zeroed.
Proof.
  intros Hs H1 H3 H4 Ht Htb Hta. pose proof Hs as [H0 H2 Hz Hf]. rewrite mod_lt in H0 by lia.
  destruct (next_aligned_spec a 16 ltac:(lia)) as [Ht16 Hta16]. pose proof next_16 as Hnext16.
  pose proof (next_16_le t ltac:(lia) Hta) as Hle16.
  assert (Z.land a 15 = a mod 16) as Hland16 by exact (land_mod a 4 ltac:(done)).
  set (t16 := next_aligned a 16) in *. clearbody t16. pose proof initial_16bytes as Hinit. revert Hinit.
  at_label b; intros Hinit; cbn [Nat.sub].
  all: do 2 wp_step; cbn [c_cmp set_cmp holds]; rewrite H0, Hland16; set (s1 := set_cmp _ _ _);
    assert (at_cursor a s1) as Hs1 by (by apply at_cursor_cmp); change (xr 0 s1 = a) in H0;
    change (xr 1 s1 = size - 1) in H1; change (xr 3 s1 = size) in H3; change (xr 4 s1 = t) in H4; clearbody s1.
  all: destruct (Z.eqb_spec (a mod 16) 0) as [|Hmod]; [apply (Hinit a t); try done; lia|].
  all: do 3 wp_step; rewrite H0, Hnext16, (mod_lt t16), (proj2 (Z.eqb_neq t16 0)) by lia; set (s2 := set_x 5 _ _);
    assert (at_cursor a s2) as Hs2 by (do 2 (apply at_cursor_set_x; [set_solver|]); done);
    assert (xr 1 s2 = size - 1 ∧ xr 3 s2 = size ∧ xr 4 s2 = t ∧ xr 5 s2 = t16 ∧ xr 0 s2 = a) as (H12 & H32 & H42 & H52 & H02)
      by (unfold s2; by regs_simpl); clearbody s2.
  all: apply (byte_loop env _ a a t16 (c_mem s0) 5); try done; [code_here|lia|lia|by rewrite mod_lt by lia|apply Hs2|].
  all: intros s' H0' Hz' Hf'; apply (Hinit t16 t); try done; try lia; try (by eapply at_cursor_loop);
    by rewrite (frame_x _ _ _ Hf') by set_solver.
Qed.

(** Behind the assertions, fifteen instructions before the first loop. *)
Lemma after_checks s :
  at_cursor a s → xr 1 s = n → xr 3 s = size →
  wp env (zeromem_prog b M) (zeromem_at b M "initial_1byte" - 15) s all_zeroed.
Proof.
  intros Hs H1 H3. pose proof Hs as [H0 H2 Hz Hf]. rewrite mod_lt in H0 by lia. pose proof size_pos as Hsz.
  assert (size < 2 ^ 64) as Hsb by (apply Z.pow_lt_mono_r; lia).
  destruct (next_aligned_spec a size ltac:(lia)) as [Ht Hta]. pose proof (next_block a) as Hnext.
  assert (Z.land a (size - 1) = a mod size) as Hland by (apply land_mod; lia).
  pose proof (next_aligned_bound k ltac:(lia)) as Htb. fold size in Htb.
  set (t := next_aligned a size) in *. clearbody t.
  pose proof blocks as Hdone. pose proof fallback as Hfall. pose proof unaligned_start as Hstart. revert Hdone Hfall Hstart.
  at_label b; intros Hdone Hfall Hstart; cbn [Nat.sub] in *.
  all: do 2 wp_step; cbn [c_cmp set_cmp holds]; rewrite H1, H3; set (s1 := set_cmp _ _ _);
    assert (at_cursor a s1) as Hs1 by (by apply at_cursor_cmp); change (xr 0 s1 = a) in H0;
    change (xr 3 s1 = size) in H3; clearbody s1; destruct (Z.ltb_spec n size) as [|Hns]; [by apply Hfall|].
  all: do 3 wp_step; cbn [c_cmp set_cmp holds]; rewrite H0, H3, mod_lt, Hland by lia; set (s2 := set_cmp _ _ _);
    assert (at_cursor a s2) as Hs2 by (apply at_cursor_cmp, at_cursor_set_x; [set_solver|done]);
    assert (xr 1 s2 = size - 1 ∧ xr 3 s2 = size ∧ xr 0 s2 = a) as (H12 & H32 & H02) by (unfold s2; by regs_simpl); clearbody s2.
  all: destruct (Z.eqb_spec (a mod size) 0) as [|Hmod]; [apply (Hdone a); try done; unfold e; lia|].
  all: do 3 wp_step; rewrite H02, H12, Hnext; set (s3 := set_x 4 _ _);
    assert (at_cursor a s3) as Hs3 by (do 2 (apply at_cursor_set_x; [set_solver|]); done);
    assert (xr 1 s3 = size - 1 ∧ xr 3 s3 = size ∧ xr 4 s3 = t mod 2 ^ 64) as (H13 & H33 & H43)
      by (unfold s3; by regs_simpl); clearbody s3.
  all: destruct (Z.eqb_spec (t mod 2 ^ 64) 0) as [|Hnw]; [by apply Hfall|].
  all: assert (t < 2 ^ 64) as Htl by (destruct (decide (t = 2 ^ 64)) as [->|]; [by rewrite Z_mod_same_full in Hnw|lia]).
  all: rewrite (mod_lt t) in H43 by lia; do 2 wp_step; cbn [c_cmp set_cmp holds]; rewrite (cur_x2 _ _ Hs3), H43;
    set (s4 := set_cmp _ _ _); assert (at_cursor a s4) as Hs4 by (by apply at_cursor_cmp);
    change (xr 1 s4 = size - 1) in H13; change (xr 3 s4 = size) in H33; change (xr 4 s4 = t) in H43; clearbody s4.
  all: destruct (Z.ltb_spec (e mod 2 ^ 64) t) as [|Hge]; [by apply Hfall|].
  all: apply (Hstart t); try done; pose proof (Z.mod_le e (2 ^ 64)); unfold e in *; lia.
Qed.
End Zero.

(** The size of a block as the code computes it. *)
Lemma dczid_size d : let x := Z.land d 15 in
  bits d 0 4 = x ∧ 0 ≤ x < 16 ∧ Z.shiftl 4 (x mod 64) mod 2 ^ 64 = 2 ^ (2 + x) ∧ zva_size d = 2 ^ (2 + x).
Proof.
  intros x. assert (0 ≤ x < 16) as Hx by (unfold x; change 15 with (Z.ones 4); rewrite Z.land_ones by done; by apply Z.mod_pos_bound).
  assert (Z.shiftl 4 x = 2 ^ (2 + x)) as Hs by (rewrite Z.shiftl_mul_pow2, Z.pow_add_r by lia; done).
  split; [unfold bits; by rewrite Z.shiftr_0_r|]. split; [done|]. split; [|exact Hs].
  rewrite (Z.mod_small x) by lia. rewrite Hs. apply Z.mod_small. split; [apply Z.pow_nonneg; lia|].
  apply Z.pow_lt_mono_r; lia.
Qed.

Section Dczva.
Context (env : Env) (b : bool) (M a n : Z) (s : CpuState).
Context (Ha : 0 ≤ a < 2 ^ 64) (Hn : 0 ≤ n < 2 ^ 64) (He : a + n ≤ 2 ^ 64) (H0 : xr 0 s = a) (H1 : xr 1 s = n).
Let dczva := wp env (zeromem_prog b M) (zeromem_at b M "zeromem_dczva") s.
Let x := Z.land (c_sysregs s "dczid_el0") 15.

Lemma at_start s' :
  frame [4%nat] s s' → c_mem s' = c_mem s → at_cursor a n s a (set_x 2 ((a + n) mod 2 ^ 64) s').
Proof.
  intros [Hx4 Hb Ht] Hm.
  split; [regs_simpl; rewrite Hx4, mod_lt by set_solver; done|by regs_simpl|rewrite set_x_mem, Hm; apply zeroed_refl|].
  split; [|by rewrite set_x_sysregs|by rewrite set_x_trace].
  apply clobbers_set_x; [unfold zero_clobbers; set_solver|].
  intros r Hr. apply Hx4. unfold zero_clobbers in Hr. set_solver.
Qed.

Lemma dczva_zeroes :
  2 ≤ x → (b = true → Z.land (c_sysregs s "sctlr_el3") M ≠ 0) → dczva (all_zeroed a n s).
Proof.
  intros Hblocks Hmmu. destruct (dczid_size (c_sysregs s "dczid_el0")) as (Hbits & Hx & Hsize & Hzva).
  fold x in Hbits, Hx, Hsize, Hzva.
  assert (16 ≤ 2 ^ (2 + x)) as H16 by (change 16 with (2 ^ 4); apply Z.pow_le_mono_r; lia).
  pose proof (after_checks env b M a n s Ha Hn He (2 + x) ltac:(lia) Hzva) as Hrun. revert Hrun. unfold dczva.
  revert Hmmu. at_label b; intros Hmmu Hrun; cbn [Nat.sub] in Hrun.
  - do 3 wp_step. cbn [c_cmp set_cmp holds]. rewrite (proj2 (Z.eqb_neq _ _)) by by apply Hmmu. cbn [negb].
    do 7 wp_step. cbn [c_cmp set_cmp holds c_sysregs]. rewrite H0, H1. autorewrite with cpu. rewrite Hbits, Hsize.
    rewrite (proj2 (Z.leb_le _ _)) by done. apply Hrun; [|by regs_simpl..].
    apply at_cursor_cmp. do 4 (apply at_cursor_set_x; [set_solver|]). apply at_start; [split; [clobbers|done..]|done].
  - do 5 wp_step. rewrite H0, H1, Hbits, Hsize. apply Hrun; [|by regs_simpl..].
    do 4 (apply at_cursor_set_x; [set_solver|]). apply at_start; [apply frame_refl|done].
Qed.

Lemma dczva_panics :
  b = true → (∀ s', e_sym env "asm_assert" s' = Panicked) →
  Z.land (c_sysregs s "sctlr_el3") M = 0 ∨ x < 2 → dczva (λ ex, ex = Panicked).
Proof.
  intros Hb Hpanic Hbad. destruct (dczid_size (c_sysregs s "dczid_el0")) as (Hbits & Hx & Hsize & _).
  fold x in Hbits, Hx, Hsize. unfold dczva. at_label b; [|done].
  do 3 wp_step. cbn [c_cmp set_cmp holds]. destruct (Z.eqb_spec (Z.land (c_sysregs s "sctlr_el3") M) 0) as [|Hm]; cbn [negb].
  { wp_step. eapply wp_bsym; [reflexivity|apply Hpanic]. }
  destruct Hbad as [|Hlt]; [done|]. do 7 wp_step. cbn [c_cmp set_cmp holds c_sysregs]. autorewrite with cpu.
  rewrite Hbits, Hsize. assert (2 ^ (2 + x) < 16) as H16 by (change 16 with (2 ^ 4); apply Z.pow_lt_mono_r; lia).
  rewrite (proj2 (Z.leb_gt _ _)) by done. wp_step. eapply wp_bsym; [reflexivity|apply Hpanic].
Qed.
End Dczva.

(** Without [dc zva]. *)
Lemma zeromem_run env b M a n s :
  0 ≤ a < 2 ^ 64 → 0 ≤ n < 2 ^ 64 → a + n ≤ 2 ^ 64 → xr 0 s = a → xr 1 s = n →
  wp env (zeromem_prog b M) (zeromem_at b M "zeromem") s (all_zeroed a n s).
Proof.
  intros Ha Hn He H0 H1. pose proof (fallback env b M a n s Ha Hn He) as Hfall. revert Hfall. at_label b; intros Hfall.
  all: do 2 wp_step; rewrite H0, H1; apply Hfall, at_start; try done; apply frame_refl.
Qed.

(** C23: both zeroing functions clear exactly the bytes from [x0] on, as many as [x1]
    says, return, and change nothing else but [x0] to [x5]: whatever the alignment of the
    range, the size of a block, and also if the range ends at the end of the address
    space. The version with [dc zva] relies on blocks of at least 16 bytes; with
    assertions it panics for smaller ones and with the MMU disabled. *)
Theorem zeromem_zeroes env b M a n s :
  0 ≤ a < 2 ^ 64 → 0 ≤ n < 2 ^ 64 → a + n ≤ 2 ^ 64 → xr 0 s = a → xr 1 s = n →
  let mmu_on := Z.land (c_sysregs s "sctlr_el3") M ≠ 0 in
  let blocks_ok := 2 ≤ Z.land (c_sysregs s "dczid_el0") 15 in
  let dczva := wp env (zeromem_prog b M) (zeromem_at b M "zeromem_dczva") s in
  wp env (zeromem_prog b M) (zeromem_at b M "zeromem") s (all_zeroed a n s) ∧
  (blocks_ok → (b = true → mmu_on) → dczva (all_zeroed a n s)) ∧
  (b = true → (∀ s', e_sym env "asm_assert" s' = Panicked) → ¬ mmu_on ∨ ¬ blocks_ok → dczva (λ ex, ex = Panicked)).
Proof.
  intros Ha Hn He H0 H1 mmu_on blocks_ok dczva. split; [|split].
  - by apply zeromem_run.
  - by apply dczva_zeroes.
  - intros Hb Hpanic Hbad. apply dczva_panics; try done.
    destruct Hbad as [Hm%dec_stable|Hx]; [by left|right; unfold blocks_ok in Hx; lia].
Qed.
