(* ===== verification/CacheAsmProps.v ===== *)
(** * Cache maintenance by address is correct

    The functions of [src/cache_helpers.S] maintain exactly the lines of their range,
    each once and in ascending order. *)

From Stdlib Require Import ZArith Lia Sorted.
From stdpp Require Import base list numbers option functions strings sets.
From S2P Require Import Prelude Smccc Services Context Asm AsmProps MemAsm MemAsmProps.
Open Scope rust_scope.
Open Scope string_scope.
Open Scope list_scope.
Open Scope Z_scope.

(** The size of a cache line as the code computes it. *)
Definition line_size (ctr : Z) : Z := 2 ^ (2 + bits ctr 16 4).
Lemma line_size_spec ctr : 4 ≤ line_size ctr ≤ 2 ^ 17 ∧ Z.shiftl 4 (bits ctr 16 4 mod 64) mod 2 ^ 64 = line_size ctr ∧
  0 ≤ 2 + bits ctr 16 4.
Proof.
  unfold line_size. assert (0 ≤ bits ctr 16 4 < 16) as Hx
    by (unfold bits; rewrite Z.land_ones by done; by apply Z.mod_pos_bound).
  set (x := bits ctr 16 4) in *. clearbody x.
  assert (4 ≤ 2 ^ (2 + x) ≤ 2 ^ 17) as Hb.
  { change 4 with (2 ^ 2). split; apply Z.pow_le_mono_r; lia. }
  split; [done|]. split; [|lia]. rewrite (Z.mod_small x), Z.shiftl_mul_pow2 by lia. change 4 with (2 ^ 2).
  rewrite <-Z.pow_add_r by lia. apply Z.mod_small. lia.
Qed.

(** The lines that meet the range from [lo] to [hi], each once, in ascending order. *)
Definition maintained (op : string) (L lo hi : Z) (evs : list CpuEvent) : Prop :=
  ∃ ls, evs = EvDc op <$> ls ∧ StronglySorted Z.lt ls ∧
    ∀ l, l ∈ ls ↔ l mod L = 0 ∧ l < hi ∧ lo < l + L.
Definition lines (L c : Z) (q : nat) : list Z := (λ i, c + L * Z.of_nat i) <$> seq 0 q.
Definition line_events (op : string) (L c : Z) (q : nat) : list CpuEvent := EvDc op <$> lines L c q.

Lemma lines_S L c q : lines L c (S q) = c :: lines L (c + L) q.
Proof.
  unfold lines. cbn [seq fmap list_fmap]. f_equal; [lia|]. rewrite <-(fmap_S_seq 0 q), <-list_fmap_compose.
  apply list_fmap_ext. intros i x _. unfold compose. lia.
Qed.

Lemma lines_sorted L c q : 0 < L → StronglySorted Z.lt (lines L c q).
Proof.
  intros HL. unfold lines. generalize 0%nat as k.
  induction q as [|q IH]; intros k; [constructor|]. simpl. constructor; [apply IH|].
  apply list.Forall_forall. intros x (i & -> & Hi%elem_of_seq)%list_elem_of_fmap. nia.
Qed.

Lemma line_events_maintained op L lo hi q :
  0 < L → lo < hi → hi ≤ lo - lo mod L + L * Z.of_nat q < hi + L →
  maintained op L lo hi (line_events op L (lo - lo mod L) q).
Proof.
  intros HL Hlh Hq. pose proof (Z.mod_pos_bound lo L HL) as Hm. eexists. split; [done|].
  split; [by apply lines_sorted|]. intros l. unfold lines. rewrite list_elem_of_fmap. split.
  - intros (i & -> & Hi%elem_of_seq). split; [|nia].
    apply Z.mod_divide; [lia|]. exists (lo / L + Z.of_nat i). pose proof (Z.div_mod lo L). nia.
  - intros (Hl & Hlo & Hhi). apply Z.mod_divide in Hl as [z ->]; [|lia].
    pose proof (Z.div_mod lo L ltac:(lia)) as Hd. exists (Z.to_nat (z - lo / L)).
    assert (lo / L ≤ z) by nia. split; [rewrite Z2Nat.id by lia; nia|]. apply elem_of_seq. nia.
Qed.

Section Loop.
Context (env : Env) (prog : list Instr) (op : string) (L : Z) (HL : 0 < L).

(** From line [c] on, [q] lines up to the end in [x1]. *)
Lemma dc_loop e q c pc s :
  code_at prog pc [Dc op 0; AddR 0 0 2; CmpR 0 1; Bc CLo pc] → 0 ≤ c → (1 ≤ q)%nat →
  e ≤ c + L * Z.of_nat q < e + L → c + L * Z.of_nat q < 2 ^ 64 →
  xr 0 s = c → xr 1 s = e → xr 2 s = L →
  ∀ Q, (∀ s', c_trace s' = c_trace s ++ line_events op L c q → c_mem s' = c_mem s → c_sysregs s' = c_sysregs s →
          only_clobbers [0%nat] s s' → wp env prog (pc + 4)%nat s' Q) → wp env prog pc s Q.
Proof.
  intros Hcode. revert c s. induction q as [|q IH]; intros c s Hc Hq He Hb H0 H1 H2 Q HQ; [lia|].
  pose proof (Hcode 0%nat _ eq_refl) as C0. pose proof (Hcode 1%nat _ eq_refl) as C1.
  pose proof (Hcode 2%nat _ eq_refl) as C2. pose proof (Hcode 3%nat _ eq_refl) as C3.
  rewrite Nat.add_0_r in C0. rewrite Nat.add_1_r in C1. replace (pc + 2)%nat with (S (S pc)) in C2 by lia.
  replace (pc + 3)%nat with (S (S (S pc))) in C3 by lia.
  eapply wp_next; [exact C0|reflexivity|]. cbn [exec_instr].
  eapply wp_next; [exact C1|reflexivity|]. cbn [exec_instr].
  eapply wp_next; [exact C2|reflexivity|]. cbn [exec_instr].
  eapply wp_next; [exact C3|reflexivity|]. cbn [c_cmp set_cmp holds]. regs_simpl.
  rewrite H0, H1, H2, Z.mod_small by nia. set (s1 := set_cmp _ _ _).
  assert (c_trace s1 = c_trace s ++ [EvDc op c] ∧ c_mem s1 = c_mem s ∧ c_sysregs s1 = c_sysregs s ∧
    only_clobbers [0%nat] s s1 ∧ xr 0 s1 = c + L ∧ xr 1 s1 = e ∧ xr 2 s1 = L) as (Ht & Hm & Hs & Hc1 & H01 & H11 & H21).
  { unfold s1. cbn [c_trace c_mem c_sysregs set_cmp]. rewrite set_x_trace, set_x_mem, set_x_sysregs.
    do 3 (split; [done|]). split; [clobbers|]. by regs_simpl. }
  clearbody s1. assert (line_events op L c (S q) = EvDc op c :: line_events op L (c + L) q) as Hev.
  { unfold line_events. by rewrite lines_S. }
  destruct (Z.ltb_spec (c + L) e) as [Hlt|Hge].
  - apply (IH (c + L) s1); try done; try lia.
    intros s' Ht' Hm' Hs' Hc'. apply HQ; [rewrite Ht', Ht, Hev, <-app_assoc; done|congruence..|].
    by eapply clobbers_trans.
  - replace (S (S (S (S pc)))) with (pc + 4)%nat by lia. assert (q = 0%nat) as -> by nia.
    apply HQ; try done. by rewrite Ht, Hev.
Qed.
End Loop.

(** The assembled texts. *)
Definition by_mva_code (op : string) : list Instr := Eval vm_compute in assemble (do_dcache_maintenance_by_mva op).
Definition instr_code (op : string) : list Instr := Eval vm_compute in assemble (do_dcache_maintenance_instr op).

(** How a function ends: the lines between [lo] and [hi] were maintained, and a barrier
    was issued. *)
Definition range_done (op : string) (lo hi : Z) (barrier : CpuEvent) (s : CpuState) (ex : Exit) : Prop :=
  ∃ s' evs, ex = Returned s' ∧ c_trace s' = c_trace s ++ evs ++ [barrier] ∧
    maintained op (line_size (c_sysregs s "ctr_el0")) lo hi evs ∧
    c_mem s' = c_mem s ∧ c_sysregs s' = c_sysregs s ∧ only_clobbers [0; 1; 2; 3]%nat s s'.

Section Range.
Context (env : Env) (op : string) (a n : Z) (s : CpuState).
Let L := line_size (c_sysregs s "ctr_el0").
Context (H0 : xr 0 s = a) (H1 : xr 1 s = n) (Ha : 0 ≤ a) (Hn : 0 < n) (Hb : a + n + L ≤ 2 ^ 64).

Lemma line_base : Z.ldiff a ((L - 1) mod 2 ^ 64) = a - a mod L.
Proof.
  destruct (line_size_spec (c_sysregs s "ctr_el0")) as (HL & _ & Hx). fold L in HL.
  rewrite Z.mod_small by lia. unfold L, line_size. by apply ldiff_mod.
Qed.
(** The number of lines. *)
Lemma lines_exist lo hi : lo < hi → 0 < L →
  ∃ q, (1 ≤ q)%nat ∧ hi ≤ lo - lo mod L + L * Z.of_nat q < hi + L.
Proof.
  intros Hlh HL. pose proof (Z.mod_pos_bound lo L HL) as Hm. set (d := hi - (lo - lo mod L) - 1).
  exists (Z.to_nat (d / L + 1)). assert (0 ≤ d) by (unfold d; lia). assert (0 ≤ d / L) by (apply Z.div_pos; lia).
  pose proof (Z.div_mod d L ltac:(lia)). pose proof (Z.mod_pos_bound d L HL). split; [lia|].
  rewrite Z2Nat.id by lia. unfold d in *. lia.
Qed.

Lemma by_mva_run : wp env (by_mva_code op) 0 s (range_done op a (a + n) EvDsb s).
Proof.
  destruct (line_size_spec (c_sysregs s "ctr_el0")) as (HL & Hshift & _). fold L in HL, Hshift.
  pose proof line_base as Hbase. destruct (lines_exist a (a + n)) as (q & Hq1 & Hq); [lia|lia|].
  pose proof (Z.mod_pos_bound a L ltac:(lia)) as Hm. pose proof (Z.mod_le a L ltac:(lia)) as Hmle.
  wp_step. rewrite H1, (proj2 (Z.eqb_neq n 0)) by lia. do 7 wp_step. rewrite H0, Hshift, Hbase, H1.
  rewrite (Z.mod_small (a + n)) by lia. set (s1 := set_x 0 _ _).
  assert (c_trace s1 = c_trace s ∧ c_mem s1 = c_mem s ∧ c_sysregs s1 = c_sysregs s ∧ only_clobbers [0; 1; 2; 3]%nat s s1 ∧
    xr 0 s1 = a - a mod L ∧ xr 1 s1 = a + n ∧ xr 2 s1 = L) as (Et & Em & Es & Ec & E0 & E1 & E2).
  { unfold s1. rewrite !set_x_trace, !set_x_mem, !set_x_sysregs. do 3 (split; [done|]). split; [clobbers|]. by regs_simpl. }
  clearbody s1. apply (dc_loop env _ op L ltac:(lia) (a + n) q (a - a mod L)); try done; try lia; [code_here|].
  intros s2 Ht Hmem Hs Hc. wp_step. eapply wp_return; [reflexivity|].
  eexists _, (line_events op L (a - a mod L) q). split; [done|]. cbn [emit c_trace c_mem c_sysregs].
  split; [by rewrite Ht, Et, <-app_assoc|]. split; [apply line_events_maintained; fold L; lia|].
  split; [congruence|]. split; [congruence|]. apply clobbers_emit. eapply clobbers_trans; [done|done|set_solver].
Qed.

Lemma instr_run : wp env (instr_code op) 0 s (range_done op (a - a mod L) (a - a mod L + n) EvDsbOsh s).
Proof.
  destruct (line_size_spec (c_sysregs s "ctr_el0")) as (HL & Hshift & _). fold L in HL, Hshift.
  pose proof line_base as Hbase. set (base := a - a mod L) in *.
  pose proof (Z.mod_pos_bound a L ltac:(lia)) as Hm. pose proof (Z.mod_le a L ltac:(lia)) as Hmle.
  assert (base mod L = 0) as Hal by (unfold base; rewrite Zminus_mod_idemp_r, Z.sub_diag; apply Z.mod_0_l; lia).
  destruct (lines_exist base (base + n)) as (q & Hq1 & Hq); [lia|lia|]. rewrite Hal, Z.sub_0_r in Hq.
  wp_step. rewrite H1, (proj2 (Z.eqb_neq n 0)) by lia. do 7 wp_step. rewrite H0, Hshift, Hbase, H1.
  rewrite (Z.mod_small (n + base)) by lia. set (s1 := set_x 1 _ _).
  assert (c_trace s1 = c_trace s ∧ c_mem s1 = c_mem s ∧ c_sysregs s1 = c_sysregs s ∧ only_clobbers [0; 1; 2; 3]%nat s s1 ∧
    xr 0 s1 = base ∧ xr 1 s1 = base + n ∧ xr 2 s1 = L) as (Et & Em & Es & Ec & E0 & E1 & E2).
  { unfold s1. rewrite !set_x_trace, !set_x_mem, !set_x_sysregs. do 3 (split; [done|]). split; [clobbers|].
    rewrite (Z.add_comm n). by regs_simpl. }
  clearbody s1. apply (dc_loop env _ op L ltac:(lia) (base + n) q base); try done; try lia; [code_here|].
  intros s2 Ht Hmem Hs Hc. wp_step. eapply wp_return; [reflexivity|].
  eexists _, (line_events op L base q). split; [done|]. cbn [emit c_trace c_mem c_sysregs].
  split; [by rewrite Ht, Et, <-app_assoc|].
  split; [replace (line_events op L base q) with (line_events op L (base - base mod L) q) by (by rewrite Hal, Z.sub_0_r);
    apply line_events_maintained; fold L; rewrite ?Hal; lia|].
  split; [congruence|]. split; [congruence|]. apply clobbers_emit. eapply clobbers_trans; [done|done|set_solver].
Qed.
End Range.

(** An empty range. *)
Lemma empty_range env code s :
  code !! 0%nat = Some (Cbz 1 13) → code !! 13%nat = Some Return → xr 1 s = 0 → wp env code 0 s (λ ex, ex = Returned s).
Proof. intros C0 C13 H1. eapply wp_next; [exact C0|reflexivity|]. rewrite H1. by eapply wp_return. Qed.

(** C24: the cache maintenance functions of the assembly return and reach their lines:
    [flush_dcache_range] and [inv_dcache_range] maintain exactly the cache lines that meet
    the range, each once and in ascending order, and then issue a barrier; the functions that flush to the point
    of physical aliasing do so only for a range that starts at the start of a line, as the
    granules of the RMM do. An empty range does nothing. *)
Theorem dcache_range_maintained env a n s :
  xr 0 s = a → xr 1 s = n → 0 ≤ a → 0 ≤ n → a + n + line_size (c_sysregs s "ctr_el0") ≤ 2 ^ 64 →
  let done_ op barrier ex := if n =? 0 then ex = Returned s else range_done op a (a + n) barrier s ex in
  wp env flush_dcache_range 0 s (done_ "civac" EvDsb) ∧ wp env inv_dcache_range 0 s (done_ "ivac" EvDsb) ∧
  (a mod line_size (c_sysregs s "ctr_el0") = 0 →
     wp env popa_range_asm 0 s (done_ "cipapa" EvDsbOsh) ∧ wp env popa_range_mte2_asm 0 s (done_ "cigdpapa" EvDsbOsh)).
Proof.
  intros H0 H1 Ha Hn Hb done_. unfold done_. destruct (Z.eqb_spec n 0) as [Hz|Hz].
  - rewrite Hz in H1. split; [by apply empty_range|]. split; [by apply empty_range|]. intros _. split; by apply empty_range.
  - split; [apply (by_mva_run env "civac" a n s); (done || lia)|].
    split; [apply (by_mva_run env "ivac" a n s); (done || lia)|]. intros Hal.
    pose proof (λ op, instr_run env op a n s H0 H1 Ha ltac:(lia) Hb) as Hrun. rewrite Hal, Z.sub_0_r in Hrun.
    split; [exact (Hrun "cipapa")|exact (Hrun "cigdpapa")].
Qed.
