(* ===== verification/ContextAsm.v ===== *)
(** * Leaving and entering EL3

    [src/context.S] and [src/runtime_exceptions.S]: the exit to a lower exception level,
    and the exception vectors that save the registers of the world that was interrupted
    before the Rust code runs again.  The workaround for speculative address translation
    is off ([ERRATA_SPECULATIVE_AT] is false), so that its macros are empty.  A branch to
    another function is a jump at the end of the text. *)

From Stdlib Require Import ZArith Lia.
From stdpp Require Import base list numbers option functions strings.
From S2P Require Import Prelude Smccc Services Context Asm.
Open Scope rust_scope.
Open Scope string_scope.
Open Scope list_scope.
Open Scope Z_scope.

(** ** The layout of the contexts, which are [repr(C)] *)
Definition CTX_GPREGS_OFFSET : Z := 0.
Definition CTX_PAUTH_REGS_OFFSET : Z := 256.
Definition CTX_EL3STATE_OFFSET : Z := 336.
Definition CTX_GPREG (r : Z) : Z := CTX_GPREGS_OFFSET + 8 * r.
Definition CTX_GPREG_LR : Z := CTX_GPREG 30.
Definition CTX_GPREG_SP_EL0 : Z := CTX_GPREG 31.
Definition CTX_RUNTIME_SP_LR : Z := CTX_EL3STATE_OFFSET + 8.
Definition CTX_SPSR_EL3 : Z := CTX_EL3STATE_OFFSET + 24.
Definition CTX_PMCR_EL0 : Z := CTX_EL3STATE_OFFSET + 40.
Definition CTX_SAVED_ELR_EL3 : Z := CTX_EL3STATE_OFFSET + 48.
Definition CTX_NESTED_EA_FLAG : Z := CTX_EL3STATE_OFFSET + 56.
Definition CTX_MDCR_EL3 : Z := CTX_EL3STATE_OFFSET + 64.
Definition PERWORLD_CONTEXT_SCR_EL3 : Z := 16.
Definition CPU_DATA_APIAKEY_OFFSET : Z := 0.

(** The words of a context. *)
Definition el3_words (x : El3State) : list Z :=
  [esr_el3 x; runtime_sp x; runtime_lr x; spsr_el3 x; elr_el3 x; pmcr_el0 x; saved_elr_el3 x; nested_ea_flag x; mdcr_el3 x].
Definition context_words (c : CpuContext) : list Z := gpregs c ++ pauth_regs c ++ el3_words (el3_state c).

(** The halves of the keys, in the order of [PAuthRegs]. *)
Definition PAUTH_KEYS : list SysReg :=
  ["s3_0_c2_c1_0"; "s3_0_c2_c1_1"; "s3_0_c2_c1_2"; "s3_0_c2_c1_3"; "s3_0_c2_c2_0";
   "s3_0_c2_c2_1"; "s3_0_c2_c2_2"; "s3_0_c2_c2_3"; "s3_0_c2_c3_0"; "s3_0_c2_c3_1"].

(** The constants of the [arm_sysregs] crate, and of the build. *)
Class AsmConsts := {
  DIT_BIT : Z;
  SCR_EA_BIT : Z;
  PMCR_EL0_DP_BIT : Z;
  MODE_SP_EL0 : Z;
  MODE_SP_ELX : Z;
  ENABLE_PAUTH : bool;
  ENABLE_ASSERTIONS : bool;
}.

Definition ISR_A_SHIFT : Z := 8.
Definition DAIF_ABT_BIT : Z := Z.shiftl 1 2.
Definition ESR_EC_SHIFT : Z := 26.
Definition ESR_EC_LENGTH : Z := 6.
Definition EC_AARCH32_SMC : Z := 0x13.
Definition EC_AARCH64_SMC : Z := 0x17.
Definition EC_AARCH64_SYS : Z := 0x18.
Definition EC_IMP_DEF_EL3 : Z := 0x1f.
Definition FUNCID_CC_SHIFT : Z := 30.
Definition ASYNC_EA_REPLAY_COUNTER : Z := 100.
Definition SMC_UNK : Z := as_u64 NOT_SUPPORTED.

Section ContextS.
Context `{AsmConsts}.

(** ** [context.S] *)
Definition enable_serror_at_el3 : list Instr :=
  [Mrs 18 "scr_el3"; OrrI 18 18 SCR_EA_BIT; Msr "scr_el3" 18].
Definition set_unset_pstate_bits : list Instr := [MovI 18 DIT_BIT; Msr "s3_3_c4_c2_5" 18].

Definition save_gp_pmcr_pauth_regs : list Instr :=
  [Stp 0 1 SP (CTX_GPREG 0); Stp 2 3 SP (CTX_GPREG 2); Stp 4 5 SP (CTX_GPREG 4);
   Stp 6 7 SP (CTX_GPREG 6); Stp 8 9 SP (CTX_GPREG 8); Stp 10 11 SP (CTX_GPREG 10);
   Stp 12 13 SP (CTX_GPREG 12); Stp 14 15 SP (CTX_GPREG 14); Stp 16 17 SP (CTX_GPREG 16);
   Stp 18 19 SP (CTX_GPREG 18); Stp 20 21 SP (CTX_GPREG 20); Stp 22 23 SP (CTX_GPREG 22);
   Stp 24 25 SP (CTX_GPREG 24); Stp 26 27 SP (CTX_GPREG 26); Stp 28 29 SP (CTX_GPREG 28);
   Mrs 18 "sp_el0"; Str 18 SP CTX_GPREG_SP_EL0;
   Mrs 18 "pmcr_el0"; Str 18 SP CTX_PMCR_EL0; OrrI 18 18 PMCR_EL0_DP_BIT; Msr "pmcr_el0" 18; Isb;
   Mrs 20 "s3_0_c2_c1_0"; Mrs 21 "s3_0_c2_c1_1"; Mrs 22 "s3_0_c2_c1_2"; Mrs 23 "s3_0_c2_c1_3";
   Mrs 24 "s3_0_c2_c2_0"; Mrs 25 "s3_0_c2_c2_1"; Mrs 26 "s3_0_c2_c2_2"; Mrs 27 "s3_0_c2_c2_3";
   Mrs 28 "s3_0_c2_c3_0"; Mrs 29 "s3_0_c2_c3_1";
   Stp 20 21 SP (CTX_PAUTH_REGS_OFFSET + 0); Stp 22 23 SP (CTX_PAUTH_REGS_OFFSET + 16);
   Stp 24 25 SP (CTX_PAUTH_REGS_OFFSET + 32); Stp 26 27 SP (CTX_PAUTH_REGS_OFFSET + 48);
   Stp 28 29 SP (CTX_PAUTH_REGS_OFFSET + 64)] ++
  if ENABLE_PAUTH
  then [Mrs 20 "tpidr_el3"; Ldp 21 22 20 CPU_DATA_APIAKEY_OFFSET;
        Msr "s3_0_c2_c1_0" 21; Msr "s3_0_c2_c1_1" 22]
  else [].

Definition prepare_el3_entry : list Instr :=
  save_gp_pmcr_pauth_regs ++ enable_serror_at_el3 ++ set_unset_pstate_bits ++ [Return].

Definition restore_gp_pmcr_pauth_regs : list Instr :=
  [Ldp 0 1 SP (CTX_PAUTH_REGS_OFFSET + 0); Ldp 2 3 SP (CTX_PAUTH_REGS_OFFSET + 16);
   Ldp 4 5 SP (CTX_PAUTH_REGS_OFFSET + 32); Ldp 6 7 SP (CTX_PAUTH_REGS_OFFSET + 48);
   Ldp 8 9 SP (CTX_PAUTH_REGS_OFFSET + 64);
   Msr "s3_0_c2_c1_0" 0; Msr "s3_0_c2_c1_1" 1; Msr "s3_0_c2_c1_2" 2; Msr "s3_0_c2_c1_3" 3;
   Msr "s3_0_c2_c2_0" 4; Msr "s3_0_c2_c2_1" 5; Msr "s3_0_c2_c2_2" 6; Msr "s3_0_c2_c2_3" 7;
   Msr "s3_0_c2_c3_0" 8; Msr "s3_0_c2_c3_1" 9;
   Ldr 0 SP CTX_PMCR_EL0; Msr "pmcr_el0" 0;
   Ldp 0 1 SP (CTX_GPREG 0); Ldp 2 3 SP (CTX_GPREG 2); Ldp 4 5 SP (CTX_GPREG 4);
   Ldp 6 7 SP (CTX_GPREG 6); Ldp 8 9 SP (CTX_GPREG 8); Ldp 10 11 SP (CTX_GPREG 10);
   Ldp 12 13 SP (CTX_GPREG 12); Ldp 14 15 SP (CTX_GPREG 14); Ldp 16 17 SP (CTX_GPREG 16);
   Ldp 18 19 SP (CTX_GPREG 18); Ldp 20 21 SP (CTX_GPREG 20); Ldp 22 23 SP (CTX_GPREG 22);
   Ldp 24 25 SP (CTX_GPREG 24); Ldp 26 27 SP (CTX_GPREG 26);
   Ldr 28 SP CTX_GPREG_SP_EL0; Msr "sp_el0" 28; Ldp 28 29 SP (CTX_GPREG 28); Return].

(** [exception_return]: behind the [eret] there is a speculation barrier. *)
Definition exception_return : list Instr := [Eret; Msr "s0_3_c3_c0_7" 31].

Definition el3_exit_checks : list Line :=
  if ENABLE_ASSERTIONS
  then [Mrs 17 "spsel" : Line; CmpI 17 MODE_SP_EL0 : Line] ++ ASM_ASSERT CEq "assume_sp_el0"
  else [].
Definition el3_exit_body : list Instr :=
  [MovSp 17; MsrI "spsel" MODE_SP_ELX; SetSp 0; Stp 17 30 SP CTX_RUNTIME_SP_LR;
   Ldr 19 SP CTX_MDCR_EL3; Ldp 16 17 SP CTX_SPSR_EL3; Ldr 18 1 PERWORLD_CONTEXT_SCR_EL3;
   Msr "mdcr_el3" 19; Msr "scr_el3" 18; Msr "spsr_el3" 16; Msr "elr_el3" 17].
Definition el3_exit : list Instr :=
  assemble (el3_exit_checks ++ (I <$> el3_exit_body) ++
    [Bl "restore_gp_pmcr_pauth_regs" : Line; Ldr 30 SP CTX_GPREG_LR : Line; Str 31 SP CTX_NESTED_EA_FLAG : Line] ++
    (I <$> exception_return)).

(** ** [runtime_exceptions.S] *)
Definition save_x30 : list Line := [Str 30 SP CTX_GPREG_LR : Line].
Definition sync_and_handle_pending_serror : list Line :=
  [Mrs 30 "isr_el1" : Line; JTbz 30 ISR_A_SHIFT "no_pending_serror";
   Bl "reflect_pending_async_ea_to_lower_el" : Line; Lab "no_pending_serror"].
Definition unmask_async_ea : list Line := [DaifClr DAIF_ABT_BIT : Line; Isb : Line].
Definition handle_sync_exception : list Line :=
  [Mrs 30 "esr_el3" : Line; Ubfx 30 30 ESR_EC_SHIFT ESR_EC_LENGTH : Line;
   CmpI 30 EC_AARCH32_SMC : Line; JC CEq "smc_handler32";
   CmpI 30 EC_AARCH64_SMC : Line; JC CEq "sync_handler64";
   CmpI 30 EC_AARCH64_SYS : Line; JC CEq "sync_handler64";
   CmpI 30 EC_IMP_DEF_EL3 : Line; JC CEq "imp_def_el3_handler";
   BSym "report_unhandled_exception" : Line;
   Lab "smc_handler32"; BSym "smc_handler32" : Line;
   Lab "sync_handler64"; BSym "sync_handler64" : Line;
   Lab "imp_def_el3_handler"; BSym "imp_def_el3_handler" : Line].

(** The vectors for exceptions from a lower level, which are the same for both execution
    states. *)
Definition sync_exception_vector : list Instr :=
  assemble (save_x30 ++ sync_and_handle_pending_serror ++ unmask_async_ea ++ handle_sync_exception).
Definition interrupt_vector : list Instr :=
  assemble (save_x30 ++ sync_and_handle_pending_serror ++ unmask_async_ea ++
    [BSym "handle_interrupt_exception" : Line]).
Definition serror_vector : list Instr := [BSym "report_unhandled_exception"].
(** The vectors for exceptions from EL3 itself. *)
Definition current_el_sync_vector : list Instr := [BSym "report_unhandled_exception"].
Definition current_el_interrupt_vector : list Instr := [BSym "report_unhandled_interrupt"].
Definition current_el_serror_vector : list Instr := [Bl "report_unhandled_exception"].
(** [runtime_exceptions]: the vectors by their offset. *)
Definition runtime_exceptions : list (Z * list Instr) :=
  [(0x000, current_el_sync_vector); (0x080, current_el_interrupt_vector);
   (0x100, current_el_interrupt_vector); (0x180, current_el_serror_vector);
   (0x200, current_el_sync_vector); (0x280, current_el_interrupt_vector);
   (0x300, current_el_interrupt_vector); (0x380, current_el_serror_vector);
   (0x400, sync_exception_vector); (0x480, interrupt_vector); (0x500, interrupt_vector); (0x580, serror_vector);
   (0x600, sync_exception_vector); (0x680, interrupt_vector); (0x700, interrupt_vector); (0x780, serror_vector)].

Definition sync_exception_handler : list Line :=
  [Lab "smc_handler32"; JTbnz 0 FUNCID_CC_SHIFT "smc_prohibited";
   Lab "sync_handler64"; Bl "prepare_el3_entry" : Line;
   MovSp 28 : Line;
   Ldp 29 30 28 CTX_RUNTIME_SP_LR : Line;
   MsrI "spsel" MODE_SP_EL0 : Line;
   SetSp 29 : Line;
   Mrs 26 "spsr_el3" : Line; Mrs 27 "elr_el3" : Line; Stp 26 27 28 CTX_SPSR_EL3 : Line;
   Mrs 26 "esr_el3" : Line; Ubfx 27 26 ESR_EC_SHIFT ESR_EC_LENGTH : Line;
   CmpI 27 EC_AARCH64_SYS : Line; JC CEq "sysreg_handler64";
   MovI 18 RUN_RESULT_SMC : Line; Return : Line;
   Lab "sysreg_handler64"; MovI 18 RUN_RESULT_SYSREG_TRAP : Line; MovR 20 26 : Line; Return : Line;
   Lab "smc_prohibited";
   Ldp 28 29 SP (CTX_GPREG 28) : Line; Ldr 30 SP CTX_GPREG_LR : Line; MovI 0 SMC_UNK : Line] ++
  (I <$> exception_return).

Definition handle_interrupt_exception : list Instr :=
  [Bl "prepare_el3_entry";
   Mrs 0 "spsr_el3"; Mrs 1 "elr_el3"; Stp 0 1 SP CTX_SPSR_EL3;
   Ldp 2 30 SP CTX_RUNTIME_SP_LR; MsrI "spsel" MODE_SP_EL0; SetSp 2;
   MovI 18 RUN_RESULT_INTERRUPT; Return].

Definition imp_def_el3_handler : list Instr :=
  [Stp 0 1 SP (CTX_GPREG 0); Stp 2 3 SP (CTX_GPREG 2); Stp 4 5 SP (CTX_GPREG 4);
   Ldp 0 1 SP (CTX_GPREG 0); Ldp 2 3 SP (CTX_GPREG 2); Ldp 4 5 SP (CTX_GPREG 4);
   Ldr 30 SP CTX_GPREG_LR; Bl "report_unhandled_exception"].

Definition reflect_pending_async_ea_to_lower_el : list Instr :=
  assemble ([Stp 28 29 SP (CTX_GPREG 28) : Line;
   Ldr 29 SP CTX_SAVED_ELR_EL3 : Line;
   Mrs 28 "elr_el3" : Line;
   CmpR 29 28 : Line;
   JC CEq "check_loop_ctr";
   Str 28 SP CTX_SAVED_ELR_EL3 : Line;
   Str 31 SP CTX_NESTED_EA_FLAG : Line;
   J "skip_loop_ctr";
   Lab "check_loop_ctr";
   Ldr 29 SP CTX_NESTED_EA_FLAG : Line;
   AddI 29 29 1 : Line;
   Str 29 SP CTX_NESTED_EA_FLAG : Line;
   CmpI 29 ASYNC_EA_REPLAY_COUNTER : Line;
   JC CGe "el3_panic";
   Lab "skip_loop_ctr";
   Mrs 29 "vbar_el3" : Line;
   SubR 30 30 29 : Line;
   AndI 30 30 0x1ff : Line;
   CmpI 30 0x80 : Line;
   JC CGe "skip_smc_check";
   Mrs 30 "esr_el3" : Line; Ubfx 30 30 ESR_EC_SHIFT ESR_EC_LENGTH : Line;
   CmpI 30 EC_AARCH32_SMC : Line; JC CEq "subtract_elr_el3";
   CmpI 30 EC_AARCH64_SMC : Line; JC CEq "subtract_elr_el3";
   J "skip_smc_check";
   Lab "subtract_elr_el3"; SubI 28 28 4 : Line;
   Lab "skip_smc_check";
   Msr "elr_el3" 28 : Line;
   Ldp 28 29 SP (CTX_GPREG 28) : Line;
   Ldr 30 SP CTX_GPREG_LR : Line] ++ (I <$> exception_return) ++
   [Lab "el3_panic"; BSym "el3_panic" : Line]).

(** ** What the functions call
    The crash handlers never return.  [base] is the address of the function itself. *)
Definition crash_env (base : Z) : Env := mkEnv (λ _ _, 0) (λ _ _, Stuck) (λ _ _, Panicked) base (λ _, 0) (λ x, x) (λ _ _, 0).
Definition context_env (base : Z) : Env :=
  mkEnv (λ _ _, 0) (λ _ _, Stuck)
    (λ f, if String.eqb f "prepare_el3_entry" then run_asm (crash_env 0) prepare_el3_entry
          else if String.eqb f "restore_gp_pmcr_pauth_regs" then run_asm (crash_env 0) restore_gp_pmcr_pauth_regs
          else e_sym (crash_env 0) f) base (λ _, 0) (λ x, x) (λ _ _, 0).
Definition run_handler (l : string) : CpuState → Exit :=
  let prog := assemble sync_exception_handler in
  exec (length prog) (context_env 0) prog (label sync_exception_handler l).
Definition vector_env (base : Z) : Env :=
  mkEnv (λ _ _, 0) (λ _ _, Stuck)
    (λ f, if String.eqb f "smc_handler32" then run_handler "smc_handler32"
          else if String.eqb f "sync_handler64" then run_handler "sync_handler64"
          else if String.eqb f "handle_interrupt_exception" then run_asm (context_env 0) handle_interrupt_exception
          else if String.eqb f "imp_def_el3_handler" then run_asm (context_env 0) imp_def_el3_handler
          else if String.eqb f "reflect_pending_async_ea_to_lower_el"
               then run_asm (crash_env 0) reflect_pending_async_ea_to_lower_el
          else e_sym (crash_env 0) f) base (λ _, 0) (λ x, x) (λ _ _, 0).
End ContextS.
