(* ===== verification/ContextAsmProps.v ===== *)
(** * The way into and out of EL3

    The exception vectors save the registers of the interrupted world in its context,
    and the exit restores them from there. *)

From Stdlib Require Import ZArith Lia.
From stdpp Require Import base list numbers option functions strings sets.
From S2P Require Import Prelude Smccc Services Context Asm AsmProps AsmWords ContextAsm.
Open Scope rust_scope.
Open Scope string_scope.
Open Scope list_scope.
Open Scope Z_scope.

Class AsmConstsLaws `{AsmConsts} : Prop := {
  mode_sp_el0 : MODE_SP_EL0 = 0;
  mode_sp_elx : MODE_SP_ELX = 1;
  dit_u64 : u64 DIT_BIT;
  scr_ea_u64 : u64 SCR_EA_BIT;
  pmcr_dp_u64 : u64 PMCR_EL0_DP_BIT;
}.

(** The size of the part of a context that the assembly uses. *)
Definition CTX_SIZE : Z := 408.

(** A context in memory. *)
Record context_at (p : Z) (c : CpuContext) (s : CpuState) : Prop := {
  ctx_words : (λ k, load64 (p + 8 * Z.of_nat k) s) <$> seq 0 51 = context_words c;
  ctx_gpregs : length (gpregs c) = 32%nat;
  ctx_pauth : length (pauth_regs c) = 10%nat;
}.

(** The registers that belong to a world. *)
Definition world_gpregs (s : CpuState) : list Z := ((λ r, xr r s) <$> seq 0 31) ++ [c_sysregs s "sp_el0"].
Definition context_of_world (s : CpuState) (c : CpuContext) : CpuContext :=
  let e := el3_state c in
  mkCpuContext (world_gpregs s) (c_sysregs s <$> PAUTH_KEYS)
    (mkEl3State (esr_el3 e) (runtime_sp e) (runtime_lr e) (c_sysregs s "spsr_el3") (c_sysregs s "elr_el3")
       (c_sysregs s "pmcr_el0") (saved_elr_el3 e) (nested_ea_flag e) (mdcr_el3 e)) (lower_el_sysregs c).

(** The context of the world is the structure; the data of the core and the context that
    is shared by all cores are elsewhere. *)
Definition ext (rn : nat) : bool := (rn =? 1)%nat || (rn =? 20)%nat.

(** The conditions of a sequence of instructions hold by evaluation. *)
Ltac words_ok :=
  cbn [app words_pres words_pre];
  repeat match goal with
  | |- _ ∧ _ => split
  | |- True => done
  | |- u64 _ => first [apply dit_u64 | apply scr_ea_u64 | apply pmcr_dp_u64 | split; [discriminate|reflexivity]]
  | |- store_pre _ _ _ _ _ => split; reflexivity
  | |- load_pre _ _ _ _ _ _ _ => first [assumption | split; reflexivity]
  | |- _ ≤ _ => done
  end.
(** The next instructions, from a state with known words. *)
Ltac run_at p m0 l Hs := eapply (run_words _ p CTX_SIZE ext m0 _ l); [by apply code_at_eval| |exact Hs|]; [first [unfold l|idtac]; words_ok|].

Section Context.
Context `{AsmConsts, !AsmConstsLaws}.
Context (p pw : Z) (m0 : Z → Z).
Let words_of := words_of p CTX_SIZE m0.
Let words_run := words_run ext m0.

(** The state at an exception, with the words of the context. *)
Definition at_vector (x : nat → Z) (b : Bank) (cmp : Z * Z) (w : Z → Z) : Words :=
  mkWords x (<["spsel" := 1]> (<["sp_el3" := p]> b)) cmp w.
Definition cpu_data_ok (b : Bank) : Prop :=
  ENABLE_PAUTH = true → outside p CTX_SIZE m0 (b "tpidr_el3" + 0) ∧ outside p CTX_SIZE m0 (b "tpidr_el3" + 8).

Ltac run_block l Hs := run_at p m0 l Hs.

Definition save_block : list Instr := save_gp_pmcr_pauth_regs ++ enable_serror_at_el3 ++ set_unset_pstate_bits.
Lemma prepare_run s A :
  words_of s A → words_pres p CTX_SIZE ext m0 save_block A →
  ∃ s', run_asm (crash_env 0) prepare_el3_entry s = Returned s' ∧ words_of s' (words_run save_block A).
Proof.
  intros Hs Hpre. apply (wp_forward _ _ _ _ (λ ex, ∃ s', ex = Returned s' ∧ words_of s' (words_run save_block A))).
  { unfold prepare_el3_entry, save_gp_pmcr_pauth_regs. by destruct ENABLE_PAUTH. }
  assert (prepare_el3_entry = save_block ++ [Return]) as -> by (unfold prepare_el3_entry, save_block; by rewrite <-!app_assoc).
  eapply run_words; [|exact Hpre|exact Hs|].
  - intros k i Hk. by apply lookup_app_l_Some.
  - intros s' Hs'. apply wp_return; [|by exists s']. cbn [Nat.add]. by rewrite lookup_app_r, Nat.sub_diag by lia.
Qed.

(** A fact about the state after saving, for both builds. *)
Ltac pauth_cases := unfold words_run, save_block, save_gp_pmcr_pauth_regs; destruct ENABLE_PAUTH.
Ltac by_pauth := pauth_cases; first [reflexivity|split; reflexivity].
Ltac low_regs := let r := fresh in intros r ?; pauth_cases; do 18 (destruct r as [|r]; [reflexivity|]); lia.

(** The parts of the vectors and handlers without branches. *)
Definition vector_start : list Instr := [Str 30 SP CTX_GPREG_LR; Mrs 30 "isr_el1"].
Definition vector_end : list Instr := [DaifClr DAIF_ABT_BIT; Isb; Mrs 30 "esr_el3"; Ubfx 30 30 ESR_EC_SHIFT ESR_EC_LENGTH].
Definition handler_mid : list Instr :=
  [MovSp 28; Ldp 29 30 28 CTX_RUNTIME_SP_LR; MsrI "spsel" 0; SetSp 29; Mrs 26 "spsr_el3"; Mrs 27 "elr_el3";
   Stp 26 27 28 CTX_SPSR_EL3; Mrs 26 "esr_el3"; Ubfx 27 26 ESR_EC_SHIFT ESR_EC_LENGTH; CmpI 27 EC_AARCH64_SYS].
Definition interrupt_mid : list Instr :=
  [Mrs 0 "spsr_el3"; Mrs 1 "elr_el3"; Stp 0 1 SP CTX_SPSR_EL3; Ldp 2 30 SP CTX_RUNTIME_SP_LR;
   MsrI "spsel" 0; SetSp 2; MovI 18 RUN_RESULT_INTERRUPT].

Section Entry.
(** At an exception. *)
Context (x : nat → Z) (b : Bank) (cmp : Z * Z) (w : Z → Z).
Let A0 := at_vector x b cmp w.
Context (Hdata : cpu_data_ok b) (Hisr : Z.testbit (b "isr_el1") 8 = false).
Let A1 := words_run vector_end (words_run vector_start A0).

Lemma vector_run s Q :
  words_of s A0 → (∀ s', words_of s' A1 → wp (vector_env 0) sync_exception_vector 8 s' Q) →
  wp (vector_env 0) sync_exception_vector 0 s Q.
Proof.
  intros Hs HQ. run_block vector_start Hs.
  intros s1 Hs1. eapply wp_next; [reflexivity|reflexivity|]. rewrite (of_x _ _ _ _ _ Hs1).
  change (wx 30 _) with (b "isr_el1"). change ISR_A_SHIFT with 8. rewrite Hisr.
  run_block vector_end Hs1. exact HQ.
Qed.

(** What is in the context then: the registers of the world, and the state of EL3 that was
    there before. *)
Definition saved_words : list Z :=
  (x <$> seq 0 31) ++ [b "sp_el0"] ++ (b <$> PAUTH_KEYS) ++
  [w 336; w 344; w 352; b "spsr_el3"; b "elr_el3"; b "pmcr_el0"; w 384; w 392; w 400].
Record entered (result : Z) (A : Words) : Prop := {
  ent_reason : wx 18 A = result;
  ent_lr : wx 30 A = w 352;
  ent_spsel : w_b A "spsel" = 0;
  ent_sp : w_b A "sp_el0" = w 344;
  ent_words : (λ k, w_m A (8 * Z.of_nat k)) <$> seq 0 51 = saved_words;
}.

Lemma bl_prepare s A base ret :
  words_of s A → u64 ret → words_pres p CTX_SIZE ext m0 save_block (wset 30 ret A) →
  ∃ s', e_sym (context_env base) "prepare_el3_entry" (set_x 30 ret s) = Returned s' ∧
    words_of s' (words_run save_block (wset 30 ret A)).
Proof. intros Hs Hret Hpre. apply prepare_run; [|done]. by apply words_set_x. Qed.

Let ec := bits (b "esr_el3") 26 6.

(** A call or a trap has been taken. *)
Definition call_taken (ex : Exit) : Prop := ∃ s' A', ex = Returned s' ∧ words_of s' A' ∧
  entered (if ec =? EC_AARCH64_SYS then RUN_RESULT_SYSREG_TRAP else RUN_RESULT_SMC) A' ∧
  (∀ r, (r ≤ 17)%nat → wx r A' = x r) ∧ (ec = EC_AARCH64_SYS → wx 20 A' = b "esr_el3").

Lemma handler_run s c1 c2 :
  words_of s (wset_cmp c1 c2 A1) → wp (context_env 0) (assemble sync_exception_handler) 1 s call_taken.
Proof.
  intros Hs. unfold call_taken.
  assert (words_pres p CTX_SIZE ext m0 save_block (wset 30 8 (wset_cmp c1 c2 A1))) as Hpre.
  { unfold cpu_data_ok in Hdata. unfold save_block, save_gp_pmcr_pauth_regs, enable_serror_at_el3, set_unset_pstate_bits.
    destruct ENABLE_PAUTH; [destruct (Hdata eq_refl)|]; words_ok. }
  destruct (bl_prepare s _ 0 8 Hs ltac:(done) Hpre) as (s1 & Hcall & Hs1).
  eapply wp_bl; [reflexivity|left; split; [exact Hcall|rewrite (of_x _ _ _ _ _ Hs1); by_pauth]|].
  eapply (run_words _ p CTX_SIZE ext m0 _ handler_mid); [apply code_at_eval; unfold handler_mid; rewrite <-mode_sp_el0; reflexivity| |exact Hs1|].
  { unfold handler_mid, save_block, save_gp_pmcr_pauth_regs. destruct ENABLE_PAUTH; words_ok. }
  set (A2 := AsmWords.words_run _ _ handler_mid _).
  assert (w_cmp A2 = (ec, EC_AARCH64_SYS)) as Hcmp by (unfold A2; by_pauth).
  intros s2 Hs2. eapply wp_next; [reflexivity|reflexivity|]. rewrite (of_cmp _ _ _ _ _ Hs2), Hcmp. cbn [holds].
  destruct (Z.eqb_spec ec EC_AARCH64_SYS) as [Hec|Hec].
  - run_block [MovI 18 RUN_RESULT_SYSREG_TRAP; MovR 20 26] Hs2. intros s3 Hs3. apply wp_return; [reflexivity|].
    eexists s3, _. split; [done|]. split; [exact Hs3|]. unfold A2.
    split; [by_pauth|]. split; [low_regs|intros _; by_pauth].
  - run_block [MovI 18 RUN_RESULT_SMC] Hs2. intros s3 Hs3. apply wp_return; [reflexivity|].
    eexists s3, _. split; [done|]. split; [exact Hs3|]. unfold A2.
    split; [by_pauth|]. split; [low_regs|done].
Qed.

Lemma vector_smc32 : e_sym (vector_env 0) "smc_handler32" = run_handler "smc_handler32".
Proof. reflexivity. Qed.
Lemma vector_interrupt : e_sym (vector_env 0) "handle_interrupt_exception" = run_asm (context_env 0) handle_interrupt_exception.
Proof. reflexivity. Qed.
Lemma vector_sync64 : e_sym (vector_env 0) "sync_handler64" = run_handler "sync_handler64".
Proof. reflexivity. Qed.

Lemma words_cmp_eta s A : words_of s A → words_of s (wset_cmp (w_cmp A).1 (w_cmp A).2 A).
Proof. by destruct A as [? ? [? ?] ?]. Qed.
(** A comparison of the exception class. *)
Lemma vector_cmp s n target pc c1 c2 Q :
  code_at sync_exception_vector pc [CmpI 30 n; Bc CEq target] → words_of s (wset_cmp c1 c2 A1) →
  (∀ s', words_of s' (wset_cmp ec n A1) →
     wp (vector_env 0) sync_exception_vector (if ec =? n then target else (pc + 2)%nat) s' Q) →
  wp (vector_env 0) sync_exception_vector pc s Q.
Proof.
  intros Hcode Hs HQ. pose proof (Hcode 0%nat _ eq_refl) as C0. pose proof (Hcode 1%nat _ eq_refl) as C1.
  rewrite Nat.add_0_r in C0. rewrite Nat.add_1_r in C1.
  eapply wp_next; [exact C0|reflexivity|]. cbn [exec_instr].
  assert (words_of (set_cmp (xr 30 s) n s) (wset_cmp ec n A1)) as Hs'.
  { rewrite (of_x _ _ _ _ _ Hs). exact (words_set_cmp _ _ _ _ _ ec n Hs). }
  eapply wp_next; [exact C1|reflexivity|]. rewrite (of_cmp _ _ _ _ _ Hs'). cbn [holds w_cmp wset_cmp].
  replace (S (S pc)) with (pc + 2)%nat by lia. by apply HQ.
Qed.

Lemma sync_vector_run s :
  words_of s A0 →
  ec = EC_AARCH64_SMC ∨ ec = EC_AARCH64_SYS ∨ ec = EC_AARCH32_SMC ∧ Z.testbit (x 0%nat) 30 = false →
  wp (vector_env 0) sync_exception_vector 0 s call_taken.
Proof.
  intros Hs Hec. apply vector_run; [done|]. intros s1 Hs1.
  eapply (vector_cmp s1 EC_AARCH32_SMC); [by apply code_at_eval|exact (words_cmp_eta _ _ Hs1)|]. intros s2 Hs2.
  assert (∀ s n, words_of s (wset_cmp ec n A1) → call_taken (run_handler "sync_handler64" s)) as Hrun.
  { intros s' n Hs'. unfold run_handler. apply wp_forward; [reflexivity|].
    change (label _ "sync_handler64") with 1%nat. by apply (handler_run s' ec n). }
  destruct (Z.eqb_spec ec EC_AARCH32_SMC) as [E|E].
  { destruct Hec as [E'|[E'|[_ Hbit]]]; [by rewrite E' in E..|]. eapply wp_bsym; [reflexivity|].
    rewrite vector_smc32. unfold run_handler. apply wp_forward; [reflexivity|].
    change (label _ "smc_handler32") with 0%nat.
    eapply wp_next; [reflexivity|reflexivity|]. rewrite (of_x _ _ _ _ _ Hs2).
    change (wx 0 _) with (x 0%nat). change FUNCID_CC_SHIFT with 30. rewrite Hbit. by apply (handler_run s2 ec EC_AARCH32_SMC). }
  eapply (vector_cmp s2 EC_AARCH64_SMC); [by apply code_at_eval|exact Hs2|]. intros s3 Hs3.
  destruct (Z.eqb_spec ec EC_AARCH64_SMC) as [E1|E1].
  { eapply wp_bsym; [reflexivity|]. rewrite vector_sync64. by eapply Hrun. }
  eapply (vector_cmp s3 EC_AARCH64_SYS); [by apply code_at_eval|exact Hs3|]. intros s4 Hs4.
  destruct (Z.eqb_spec ec EC_AARCH64_SYS) as [E2|E2]; [|by destruct Hec as [|[|[]]]].
  eapply wp_bsym; [reflexivity|]. rewrite vector_sync64. by eapply Hrun.
Qed.

Lemma interrupt_vector_run s :
  words_of s A0 →
  wp (vector_env 0) interrupt_vector 0 s (λ ex, ∃ s' A', ex = Returned s' ∧ words_of s' A' ∧ entered RUN_RESULT_INTERRUPT A').
Proof.
  intros Hs. run_block vector_start Hs. intros s1 Hs1.
  eapply wp_next; [reflexivity|reflexivity|]. rewrite (of_x _ _ _ _ _ Hs1).
  change (wx 30 _) with (b "isr_el1"). change ISR_A_SHIFT with 8. rewrite Hisr.
  run_block [DaifClr DAIF_ABT_BIT; Isb] Hs1. intros s2 Hs2. eapply wp_bsym; [reflexivity|]. rewrite vector_interrupt.
  unfold run_asm. apply wp_forward; [reflexivity|].
  match type of Hs2 with AsmWords.words_of _ _ _ _ ?A =>
    assert (words_pres p CTX_SIZE ext m0 save_block (wset 30 4 A)) as Hpre end.
  { unfold cpu_data_ok in Hdata. unfold save_block, save_gp_pmcr_pauth_regs, enable_serror_at_el3, set_unset_pstate_bits.
    destruct ENABLE_PAUTH; [destruct (Hdata eq_refl)|]; words_ok. }
  destruct (bl_prepare s2 _ 0 4 Hs2 ltac:(done) Hpre) as (s3 & Hcall & Hs3).
  eapply wp_bl; [reflexivity|left; split; [exact Hcall|rewrite (of_x _ _ _ _ _ Hs3); by_pauth]|].
  eapply (run_words _ p CTX_SIZE ext m0 _ interrupt_mid);
    [apply code_at_eval; unfold interrupt_mid; rewrite <-mode_sp_el0; reflexivity| |exact Hs3|].
  { unfold interrupt_mid, save_block, save_gp_pmcr_pauth_regs. destruct ENABLE_PAUTH; words_ok. }
  intros s4 Hs4. apply wp_return; [reflexivity|]. eexists s4, _. split; [done|]. split; [exact Hs4|]. by_pauth.
Qed.
End Entry.

(** ** The exit *)
Definition exit_body : list Instr :=
  [MovSp 17; MsrI "spsel" 1; SetSp 0; Stp 17 30 SP CTX_RUNTIME_SP_LR;
   Ldr 19 SP CTX_MDCR_EL3; Ldp 16 17 SP CTX_SPSR_EL3; Ldr 18 1 PERWORLD_CONTEXT_SCR_EL3;
   Msr "mdcr_el3" 19; Msr "scr_el3" 18; Msr "spsr_el3" 16; Msr "elr_el3" 17].
Definition restore_block : list Instr := take 34 restore_gp_pmcr_pauth_regs.

Section Exit.
(** [el3_exit] is called on the runtime stack with the addresses of both contexts. *)
Context (x : nat → Z) (b : Bank) (cmp : Z * Z) (w : Z → Z).
Definition at_exit : Words := mkWords (<[0%nat := p]> (<[1%nat := pw]> x)) (<["spsel" := 0]> b) cmp w.
Context (Hpw : outside p CTX_SIZE m0 (pw + 16)).

Record left_el3 (A : Words) : Prop := {
  left_gpregs r : (r ≤ 30)%nat → wx r A = w (8 * Z.of_nat r);
  left_sp_el0 : w_b A "sp_el0" = w 248;
  left_keys : w_b A <$> PAUTH_KEYS = (λ k, w (256 + 8 * Z.of_nat k)) <$> seq 0 10;
  left_el3_regs : w_b A <$> ["spsr_el3"; "elr_el3"; "pmcr_el0"; "mdcr_el3"] = [w 360; w 368; w 376; w 400];
  left_scr : w_b A "scr_el3" = mem_load64 (pw + 16) m0;
  left_sp : w_b A "spsel" = 1 ∧ w_b A "sp_el3" = p;
  left_words : (λ k, w_m A (8 * Z.of_nat k)) <$> seq 0 51 =
    ((λ k, w (8 * Z.of_nat k)) <$> seq 0 43) ++ [b "sp_el0"; x 30%nat; w 360; w 368; w 376; w 384; 0; w 400];
}.

Lemma restore_run s A :
  words_of s A → words_pres p CTX_SIZE ext m0 restore_block A →
  ∃ s', run_asm (crash_env 0) restore_gp_pmcr_pauth_regs s = Returned s' ∧ words_of s' (words_run restore_block A).
Proof.
  intros Hs Hpre. apply (wp_forward _ _ _ _ (λ ex, ∃ s', ex = Returned s' ∧ words_of s' (words_run restore_block A)));
    [reflexivity|].
  eapply (run_words _ p CTX_SIZE ext m0 _ restore_block); [by apply code_at_eval|exact Hpre|exact Hs|].
  intros s' Hs'. apply wp_return; [reflexivity|]. by exists s'.
Qed.

Lemma exit_body_run pc s x' c :
  (pc < 6)%nat → code_at el3_exit pc (exit_body ++ [Bl "restore_gp_pmcr_pauth_regs"; Ldr 30 SP CTX_GPREG_LR; Str 31 SP CTX_NESTED_EA_FLAG; Eret]) →
  (∀ r, r ≠ 17%nat → x' r = x r) → words_of s (mkWords (<[0%nat := p]> (<[1%nat := pw]> x')) (<["spsel" := 0]> b) c w) →
  wp (context_env 0) el3_exit pc s (λ ex, ∃ s' A', ex = Left s' ∧ words_of s' A' ∧ left_el3 A').
Proof.
  intros Hpc Hcode Hx Hs. apply code_at_app in Hcode as [Hcode Hc]. change (length exit_body) with 11%nat in Hc.
  apply (code_at_app _ _ [_]) in Hc as [Hbl Hc]. apply (code_at_app _ _ [_; _]) in Hc as [Hld Heret].
  eapply (run_words _ p CTX_SIZE ext m0 _ exit_body); [exact Hcode| |exact Hs|].
  { unfold exit_body. words_ok. }
  intros s1 Hs1. change (length exit_body) with 11%nat. set (ret := e_base (context_env 0) + 4 * Z.of_nat (S (pc + 11))).
  assert (u64 ret) as Hret by (unfold ret, u64; cbn; lia).
  match type of Hs1 with AsmWords.words_of _ _ _ _ ?A =>
    destruct (restore_run (set_x 30 ret s1) (wset 30 ret A)) as (s2 & Hcall & Hs2);
      [by apply words_set_x|unfold restore_block, restore_gp_pmcr_pauth_regs; cbn [take]; words_ok|] end.
  eapply wp_bl; [specialize (Hbl 0%nat _ eq_refl); by rewrite Nat.add_0_r in Hbl|
    left; split; [exact Hcall|rewrite (of_x _ _ _ _ _ Hs2); reflexivity]|].
  rewrite <-Nat.add_1_r.
  eapply (run_words _ p CTX_SIZE ext m0 _ [Ldr 30 SP CTX_GPREG_LR; Str 31 SP CTX_NESTED_EA_FLAG]); [exact Hld| |exact Hs2|].
  { words_ok. }
  intros s3 Hs3. apply wp_eret; [specialize (Heret 0%nat _ eq_refl); by rewrite Nat.add_0_r in Heret|].
  eexists s3, _. split; [done|]. split; [exact Hs3|]. clear -Hx. split.
  - intros r Hr. do 31 (destruct r as [|r]; [reflexivity|]). lia.
  - reflexivity.
  - reflexivity.
  - reflexivity.
  - reflexivity.
  - split; reflexivity.
  - rewrite <-(Hx 30%nat) by done. reflexivity.
Qed.

Lemma el3_exit_run s :
  words_of s at_exit →
  wp (context_env 0) el3_exit 0 s (λ ex, ∃ s' A', ex = Left s' ∧ words_of s' A' ∧ left_el3 A').
Proof.
  intros Hs. destruct ENABLE_ASSERTIONS eqn:Ha.
  - assert (el3_exit = [Mrs 17 "spsel"; CmpI 17 0; Bc CEq 5; Adr 0 "assume_sp_el0"; BSym "asm_assert"] ++ drop 5 el3_exit) as He.
    { unfold el3_exit, el3_exit_checks. rewrite Ha, mode_sp_el0. reflexivity. }
    eapply (run_words _ p CTX_SIZE ext m0 _ [Mrs 17 "spsel"; CmpI 17 0]); [|words_ok|exact Hs|].
    { intros k i Hk. rewrite He. cbn [Nat.add]. do 2 (destruct k as [|k]; [exact Hk|]). by destruct k. }
    intros s1 Hs1. eapply wp_next; [rewrite He; reflexivity|reflexivity|]. rewrite (of_cmp _ _ _ _ _ Hs1). cbn [holds].
    eapply (exit_body_run 5 s1 (<[17%nat := 0]> x)); [lia| |intros r ?; by apply fn_lookup_insert_ne|].
    { apply code_at_eval. unfold el3_exit, el3_exit_checks, el3_exit_body. rewrite Ha, mode_sp_elx. reflexivity. }
    eapply words_of_ext; [exact Hs1| |done..]. intros r. do 31 (destruct r as [|r]; [reflexivity|]). reflexivity.
  - eapply (exit_body_run 0 s x cmp); [lia| |done|exact Hs].
    apply code_at_eval. unfold el3_exit, el3_exit_checks, el3_exit_body. rewrite Ha, mode_sp_elx. reflexivity.
Qed.
End Exit.
End Context.
