(* ===== verification/WorldSwitchProps.v ===== *)
(** * Switching worlds

    The context of a world holds its registers from the exception that took the core to
    EL3 until the exit that gives the core back to the world. *)

From Stdlib Require Import ZArith Lia.
From stdpp Require Import base list numbers option functions strings sets.
From S2P Require Import Prelude Smccc Services Context Asm AsmProps AsmWords ContextAsm ContextAsmProps.
Open Scope rust_scope.
Open Scope string_scope.
Open Scope list_scope.
Open Scope Z_scope.

(** ** The words of a context *)
Lemma context_parts p c s :
  context_at p c s →
  (λ k, load64 (p + 8 * Z.of_nat k) s) <$> seq 0 32 = gpregs c ∧
  (λ k, load64 (p + 8 * Z.of_nat k) s) <$> seq 32 10 = pauth_regs c ∧
  (λ k, load64 (p + 8 * Z.of_nat k) s) <$> seq 42 9 = el3_words (el3_state c).
Proof.
  intros [Hw Hg Hp]. change (seq 0 51) with (seq 0 32 ++ seq 32 10 ++ seq 42 9) in Hw. rewrite !fmap_app in Hw.
  unfold context_words in Hw. apply app_inj_1 in Hw as [? Hw]; [|by rewrite Hg, length_fmap, length_seq].
  by apply app_inj_1 in Hw as [? ?]; [|by rewrite Hp, length_fmap, length_seq].
Qed.

Lemma words_of_context p m0 s A :
  words_of p CTX_SIZE m0 s A →
  (λ k, load64 (p + 8 * Z.of_nat k) s) <$> seq 0 51 = (λ k, w_m A (8 * Z.of_nat k)) <$> seq 0 51.
Proof.
  intros Hs. apply list_fmap_ext. intros i k Hk. apply (of_m _ _ _ _ _ Hs).
  apply lookup_seq in Hk as [-> Hk]. unfold word_at, CTX_SIZE.
  rewrite !andb_true_iff, !Z.leb_le, Z.eqb_eq. split; [lia|]. rewrite Z.mul_comm. by apply Z.mod_mul.
Qed.

Lemma context_at_mem p c s s' :
  context_at p c s → (∀ a, p ≤ a < p + CTX_SIZE → c_mem s' a = c_mem s a) → context_at p c s'.
Proof.
  intros [Hw ? ?] Hm. split; [|done..]. rewrite <-Hw. apply list_fmap_ext. intros i k Hk.
  apply lookup_seq in Hk as [-> Hk]. unfold load64, mem_load64, CTX_SIZE in *. by rewrite !Hm by lia.
Qed.

(** ** Taking an exception *)
Section Switch.
Context `{AsmConsts, !AsmConstsLaws}.

Record at_exception (p : Z) (c : CpuContext) (s : CpuState) : Prop := {
  exc_core : core_ok s;
  exc_spsel : c_sysregs s "spsel" = 1;
  exc_sp : c_sysregs s "sp_el3" = p;
  exc_context : context_at p c s;
  exc_data : ENABLE_PAUTH = true → c_sysregs s "tpidr_el3" + 16 ≤ p ∨ p + CTX_SIZE ≤ c_sysregs s "tpidr_el3";
}.
(** Whether an external abort is pending, and the class of the exception. *)
Definition abort_pending (s : CpuState) : bool := Z.testbit (c_sysregs s "isr_el1") ISR_A_SHIFT.
Definition exception_class (s : CpuState) : Z := bits (c_sysregs s "esr_el3") 26 6.
Definition is_call_or_trap (s : CpuState) : Prop :=
  exception_class s = EC_AARCH64_SMC ∨ exception_class s = EC_AARCH64_SYS ∨
  exception_class s = EC_AARCH32_SMC ∧ Z.testbit (xr 0 s) 30 = false.

(** Back in the caller of [el3_exit], with the registers of the world in its context. *)
Record back_in_el3 (p : Z) (c : CpuContext) (s s' : CpuState) : Prop := {
  back_spsel : c_sysregs s' "spsel" = 0;
  back_sp : c_sysregs s' "sp_el0" = runtime_sp (el3_state c);
  back_lr : xr 30 s' = runtime_lr (el3_state c);
  back_context : context_at p (context_of_world s c) s';
  back_rest a : ¬ p ≤ a < p + CTX_SIZE → c_mem s' a = c_mem s a;
}.
(** What the caller finds in the registers. *)
Definition exit_values (s : CpuState) : Z * Z * list Z := (xr 18 s, xr 20 s, (λ r, xr r s) <$> seq 0 18).

Section At.
Context (p : Z) (c : CpuContext) (s : CpuState) (Hs : at_exception p c s).
Let w (o : Z) : Z := load64 (p + o) s.

Lemma at_vector_of : words_of p CTX_SIZE (c_mem s) s (at_vector p (c_xs s) (c_sysregs s) (c_cmp s) w).
Proof.
  destruct Hs as [Hok Hsel Hsp _ _]. eapply words_of_ext; [by apply words_view_of|done| |done..].
  intros r. cbn [words_view at_vector w_b]. destruct (decide (r = "spsel")) as [->|]; [done|].
  rewrite fn_lookup_insert_ne by done. destruct (decide (r = "sp_el3")) as [->|]; [done|]. by rewrite fn_lookup_insert_ne.
Qed.
Lemma at_cpu_data : cpu_data_ok p (c_mem s) (c_sysregs s).
Proof.
  intros Hpa. pose proof (exc_data _ _ _ Hs Hpa). pose proof (core_m _ (exc_core _ _ _ Hs)) as Hm.
  split; (split; [lia|by apply load64_u64]).
Qed.
Lemma context_el3 :
  w <$> [336; 344; 352; 360; 368; 376; 384; 392; 400] = el3_words (el3_state c).
Proof. destruct (context_parts p c s) as (_ & _ & <-); [apply Hs|]. reflexivity. Qed.
Lemma saved_is_world : saved_words (c_xs s) (c_sysregs s) w = context_words (context_of_world s c).
Proof.
  pose proof context_el3 as He. unfold saved_words, context_words, context_of_world, world_gpregs.
  cbn [gpregs pauth_regs el3_state el3_words] in *. clearbody w. destruct (el3_state c).
  cbn [fmap list_fmap el3_words] in He. injection He as <- <- <- _ _ _ <- <- <-. rewrite <-app_assoc. reflexivity.
Qed.

Lemma entered_back reason s' A :
  words_of p CTX_SIZE (c_mem s) s' A → entered (c_xs s) (c_sysregs s) w reason A →
  xr 18 s' = reason ∧ back_in_el3 p c s s'.
Proof.
  intros Hs' [Hr Hl Hsel Hsp Hw]. pose proof context_el3 as He. rewrite saved_is_world in Hw. clearbody w.
  destruct (exc_context _ _ _ Hs) as [_ Hg Hp].
  assert (w 344 = runtime_sp (el3_state c) ∧ w 352 = runtime_lr (el3_state c)) as [E1 E2].
  { destruct (el3_state c). cbn [fmap list_fmap el3_words] in He. by injection He as _ -> -> _ _ _ _ _ _. }
  rewrite (of_x _ _ _ _ _ Hs'). split; [done|]. split; rewrite ?(of_b _ _ _ _ _ Hs'), ?(of_x _ _ _ _ _ Hs').
  - done.
  - by rewrite Hsp.
  - by rewrite Hl.
  - split; [|done..]. by rewrite (words_of_context _ _ _ _ Hs').
  - apply (of_rest _ _ _ _ _ Hs').
Qed.
Lemma sync_saves :
  abort_pending s = false → is_call_or_trap s →
  ∃ s', run_asm (vector_env 0) sync_exception_vector s = Returned s' ∧ back_in_el3 p c s s' ∧
    xr 18 s' = (if exception_class s =? EC_AARCH64_SYS then RUN_RESULT_SYSREG_TRAP else RUN_RESULT_SMC) ∧
    (exception_class s = EC_AARCH64_SYS → xr 20 s' = c_sysregs s "esr_el3") ∧
    (λ r, xr r s') <$> seq 0 18 = take 18 (world_gpregs s).
Proof.
  intros Hab Hc. destruct (wp_forward (vector_env 0) sync_exception_vector 0 s
    (call_taken p (c_mem s) (c_xs s) (c_sysregs s) w)) as (s' & A & Hrun & HA & He & Hx & Hesr); [reflexivity| |].
  { eapply sync_vector_run; [apply at_cpu_data|exact Hab|apply at_vector_of|exact Hc]. }
  destruct (entered_back _ _ _ HA He) as [H18 Hback]. exists s'. split; [done|]. split; [done|]. split; [done|].
  pose proof (of_x _ _ _ _ _ HA) as Hxa. split; [intros ?; rewrite Hxa; by apply Hesr|].
  change (take 18 (world_gpregs s)) with (c_xs s <$> seq 0 18). apply list_fmap_ext. intros i r Hr.
  apply lookup_seq in Hr as [-> Hr]. rewrite Hxa. apply Hx. lia.
Qed.
Lemma interrupt_saves :
  abort_pending s = false → ∃ s', run_asm (vector_env 0) interrupt_vector s = Returned s' ∧ back_in_el3 p c s s' ∧ xr 18 s' = RUN_RESULT_INTERRUPT.
Proof.
  intros Hab. destruct (wp_forward (vector_env 0) interrupt_vector 0 s (λ ex, ∃ s' A, ex = Returned s' ∧
    words_of p CTX_SIZE (c_mem s) s' A ∧ entered (c_xs s) (c_sysregs s) w RUN_RESULT_INTERRUPT A))
    as (s' & A & Hrun & HA & He); [reflexivity| |].
  { eapply interrupt_vector_run; [apply at_cpu_data|exact Hab|apply at_vector_of]. }
  destruct (entered_back _ _ _ HA He) as [H18 Hback]. by exists s'.
Qed.
End At.

(** ** Leaving EL3 *)
Record ready_to_leave (p pw : Z) (c : CpuContext) (s : CpuState) : Prop := {
  ready_core : core_ok s;
  ready_spsel : c_sysregs s "spsel" = 0;
  ready_x0 : xr 0 s = p;
  ready_x1 : xr 1 s = pw;
  ready_context : context_at p c s;
  ready_per_world : pw + PERWORLD_CONTEXT_SCR_EL3 + 8 ≤ p ∨ p + CTX_SIZE ≤ pw + PERWORLD_CONTEXT_SCR_EL3;
}.
(** The context while the world runs: the vectors return to where the exit was called. *)
Definition left_context (s : CpuState) (c : CpuContext) : CpuContext :=
  let e := el3_state c in
  set_el3_state (mkEl3State (esr_el3 e) (c_sysregs s "sp_el0") (xr 30 s) (spsr_el3 e) (elr_el3 e) (pmcr_el0 e)
    (saved_elr_el3 e) 0 (mdcr_el3 e)) c.
Record left_to_world (p pw : Z) (c : CpuContext) (s s' : CpuState) : Prop := {
  left_world : context_of_world s' c = c;
  left_mdcr : c_sysregs s' "mdcr_el3" = mdcr_el3 (el3_state c);
  left_world_scr : c_sysregs s' "scr_el3" = load64 (pw + PERWORLD_CONTEXT_SCR_EL3) s;
  left_spsel : c_sysregs s' "spsel" = 1;
  left_sp_el3 : c_sysregs s' "sp_el3" = p;
  left_context_at : context_at p (left_context s c) s';
  left_rest a : ¬ p ≤ a < p + CTX_SIZE → c_mem s' a = c_mem s a;
}.

Section Leave.
Context (p pw : Z) (c : CpuContext) (s : CpuState) (Hs : ready_to_leave p pw c s).
Let w (o : Z) : Z := load64 (p + o) s.

Lemma at_exit_of : words_of p CTX_SIZE (c_mem s) s (at_exit p pw (c_xs s) (c_sysregs s) (c_cmp s) w).
Proof.
  destruct Hs as [Hok Hsel Hx0 Hx1 _ _]. eapply words_of_ext; [by apply words_view_of| | |done..].
  - intros r. unfold wx. cbn [words_view at_exit w_x]. destruct (decide (r = 31%nat)); [done|].
    destruct (decide (r = 0%nat)) as [->|]; [done|]. rewrite fn_lookup_insert_ne by done.
    destruct (decide (r = 1%nat)) as [->|]; [done|]. by rewrite fn_lookup_insert_ne.
  - intros r. cbn [words_view at_exit w_b]. destruct (decide (r = "spsel")) as [->|]; [done|]. by rewrite fn_lookup_insert_ne.
Qed.

Lemma left_registers s' A :
  words_of p CTX_SIZE (c_mem s) s' A → left_el3 p pw (c_mem s) (c_xs s) (c_sysregs s) w A → context_of_world s' c = c.
Proof.
  intros Hs' [Hg Hsp Hk He _ _ _]. destruct (context_parts p c s) as (Gg & Gp & Ge); [apply Hs|].
  pose proof (of_b _ _ _ _ _ Hs') as Hb. unfold context_of_world. rewrite !Hb. f_equal.
  assert (world_gpregs s' = gpregs c) as ->.
  { rewrite <-Gg. unfold world_gpregs. rewrite Hb, Hsp. change (seq 0 32) with (seq 0 31 ++ [31%nat]). rewrite fmap_app.
    f_equal. apply list_fmap_ext. intros i r Hr. apply lookup_seq in Hr as [-> Hr].
    rewrite (of_x _ _ _ _ _ Hs'). apply Hg. lia. }
  assert (c_sysregs s' <$> PAUTH_KEYS = pauth_regs c) as ->.
  { rewrite <-Gp. transitivity (w_b A <$> PAUTH_KEYS); [by apply list_fmap_ext; intros; apply Hb|].
    rewrite Hk. reflexivity. }
  cbn [fmap list_fmap] in He. injection He as -> -> -> _.
  change (w <$> [336; 344; 352; 360; 368; 376; 384; 392; 400] = el3_words (el3_state c)) in Ge.
  clearbody w. destruct c as [g pr e b]. cbn [el3_state] in *. destruct e. cbn [fmap list_fmap el3_words] in Ge.
  by injection Ge as <- <- <- <- <- <- <- <- <-.
Qed.
Lemma left_is_world s' A :
  words_of p CTX_SIZE (c_mem s) s' A → left_el3 p pw (c_mem s) (c_xs s) (c_sysregs s) w A → left_to_world p pw c s s'.
Proof.
  intros Hs' HA. pose proof (left_registers _ _ Hs' HA) as Hworld. destruct HA as [_ _ _ He Hscr [Hsel Hsp3] Hw].
  destruct (context_parts p c s) as (Gg & Gp & Ge); [apply Hs|]. destruct (ready_context _ _ _ _ Hs) as [_ Lg Lp].
  pose proof (of_b _ _ _ _ _ Hs') as Hb.
  change (w <$> [336; 344; 352; 360; 368; 376; 384; 392; 400] = el3_words (el3_state c)) in Ge.
  split; rewrite ?Hb; try done.
  - cbn [fmap list_fmap] in He. injection He as _ _ _ ->. clearbody w. destruct (el3_state c).
    cbn [fmap list_fmap el3_words] in Ge. by injection Ge as <- <- <- <- <- <- <- <- <-.
  - split; [|done..]. rewrite (words_of_context _ _ _ _ Hs'), Hw. unfold context_words. cbn [left_context set_el3_state gpregs pauth_regs el3_state el3_words].
    change (seq 0 43) with (seq 0 32 ++ seq 32 10 ++ [42%nat]). rewrite !fmap_app, <-!app_assoc.
    f_equal; [exact Gg|]. f_equal; [exact Gp|]. change (w (8 * Z.of_nat 42)) with (w 336).
    change ((λ k, w (8 * Z.of_nat k)) <$> [42%nat]) with [w 336]. clearbody w.
    destruct (el3_state c). cbn [fmap list_fmap el3_words] in Ge. by injection Ge as <- <- <- <- <- <- <- <- <-.
  - apply (of_rest _ _ _ _ _ Hs').
Qed.
Lemma exit_leaves : ∃ s', run_asm (context_env 0) el3_exit s = Left s' ∧ left_to_world p pw c s s'.
Proof.
  destruct (wp_forward (context_env 0) el3_exit 0 s (λ ex, ∃ s' A, ex = Left s' ∧
    words_of p CTX_SIZE (c_mem s) s' A ∧ left_el3 p pw (c_mem s) (c_xs s) (c_sysregs s) w A)) as (s' & A & Hrun & HA & He).
  { unfold el3_exit, el3_exit_checks. by destruct ENABLE_ASSERTIONS. }
  { eapply el3_exit_run; [|apply at_exit_of]. split; [apply Hs|]. apply load64_u64, (core_m _ (ready_core _ _ _ _ Hs)). }
  exists s'. split; [done|]. by eapply left_is_world.
Qed.
End Leave.

(** C12: a call, or an access to a system register that is trapped, is taken to EL3
    completely: the exception vector returns to where the world was entered from, on the
    stack of the firmware; the context of the world in memory holds all its registers
    (the general purpose registers, the stack pointer, the keys for pointer
    authentication, [PMCR_EL0], and where and how it continues); nothing else in memory
    has changed; and what [enter_world] makes of the registers is a call with the
    arguments [x0] to [x17], or a trap with its syndrome. *)
Theorem exception_saves_world p c s :
  at_exception p c s → abort_pending s = false → is_call_or_trap s →
  ∃ s', run_asm (vector_env 0) sync_exception_vector s = Returned s' ∧ back_in_el3 p c s s' ∧
    decode_exit (exit_values s') (St := unit) =
      mret (if exception_class s =? EC_AARCH64_SYS then RunSysregTrap (c_sysregs s "esr_el3") else RunSmc,
            mkSmcReturn MAX_VALUES (take 18 (world_gpregs s))).
Proof.
  intros Hs Hab Hc. destruct (sync_saves p c s Hs Hab Hc) as (s' & Hrun & Hback & Hr & Hesr & Hx).
  exists s'. split; [done|]. split; [done|]. unfold exit_values, decode_exit. rewrite Hx, Hr.
  destruct (Z.eqb_spec (exception_class s) EC_AARCH64_SYS) as [E|]; [by rewrite Hesr|done].
Qed.

(** C13: the exit gives a world the core back as its context says: [el3_exit] returns to
    the lower exception level with exactly the registers of the context, with the
    [MDCR_EL3] of the context and the [SCR_EL3] of the world; the stack pointer of EL3 is
    the context, for the next exception; the context remembers where the exit was called
    from and has no external abort to count; nothing else in memory has changed. *)
Theorem exit_loads_world p pw c s :
  ready_to_leave p pw c s →
  ∃ s', run_asm (context_env 0) el3_exit s = Left s' ∧ left_to_world p pw c s s'.
Proof. apply exit_leaves. Qed.

(** C14: a world does not notice that it was interrupted: whatever the firmware does
    between a call, a trap or an interrupt and the next exit to the world, if it leaves
    the context in memory alone the world continues with all its registers as they were. *)
Theorem world_is_resumed p pw c s vector :
  at_exception p c s → abort_pending s = false →
  vector = sync_exception_vector ∧ is_call_or_trap s ∨ vector = interrupt_vector →
  ∃ s1, run_asm (vector_env 0) vector s = Returned s1 ∧ ∀ s2,
    core_ok s2 → c_sysregs s2 "spsel" = 0 → xr 0 s2 = p → xr 1 s2 = pw →
    (∀ a, p ≤ a < p + CTX_SIZE → c_mem s2 a = c_mem s1 a) →
    pw + PERWORLD_CONTEXT_SCR_EL3 + 8 ≤ p ∨ p + CTX_SIZE ≤ pw + PERWORLD_CONTEXT_SCR_EL3 →
    ∃ s3, run_asm (context_env 0) el3_exit s2 = Left s3 ∧ context_of_world s3 c = context_of_world s c.
Proof.
  intros Hs Hab Hv.
  assert (∃ s1, run_asm (vector_env 0) vector s = Returned s1 ∧ back_in_el3 p c s s1) as (s1 & Hrun & Hback).
  { destruct Hv as [[-> Hc]| ->].
    - destruct (sync_saves p c s Hs Hab Hc) as (s' & ? & ? & _). by exists s'.
    - destruct (interrupt_saves p c s Hs Hab) as (s' & ? & ? & _). by exists s'. }
  exists s1. split; [done|]. intros s2 Hok Hsel Hx0 Hx1 Hmem Hpw.
  destruct (exit_leaves p pw (context_of_world s c) s2) as (s3 & Hexit & Hleft).
  { split; try done. apply (context_at_mem _ _ s1); [apply Hback|done]. }
  exists s3. split; [done|]. exact (left_world _ _ _ _ _ Hleft).
Qed.
End Switch.
