(* ===== verification/ReflectProps.v ===== *)
(** * External aborts that belong to a lower level

    If an external abort is pending when an exception is taken to EL3 it belongs to the
    world that was interrupted: the vector returns there, so that the abort is taken
    before the exception is.  Should the same exception come back every time, the
    firmware gives up. *)

From Stdlib Require Import ZArith Lia.
From stdpp Require Import base list numbers option functions strings sets relations.
From S2P Require Import Prelude Smccc Services Context Asm AsmProps AsmWords ContextAsm ContextAsmProps WorldSwitchProps.
Open Scope rust_scope.
Open Scope string_scope.
Open Scope list_scope.
Open Scope Z_scope.

Definition reflect_start : list Instr := [Stp 28 29 SP (CTX_GPREG 28); Ldr 29 SP CTX_SAVED_ELR_EL3; Mrs 28 "elr_el3"; CmpR 29 28].
Definition reflect_vector : list Instr := [Mrs 29 "vbar_el3"; SubR 30 30 29; AndI 30 30 0x1ff; CmpI 30 0x80].
Definition reflect_end : list Instr := [Msr "elr_el3" 28; Ldp 28 29 SP (CTX_GPREG 28); Ldr 30 SP CTX_GPREG_LR].

(** The same registers, written in another order. *)
Ltac same_words H :=
  eapply words_of_ext; [exact H| |done..];
  let r := fresh in intros r; do 31 (destruct r as [|r]; [reflexivity|]); reflexivity.

Section Reflect.
Context `{AsmConsts, !AsmConstsLaws}.
Context (p : Z) (m0 : Z → Z) (x : nat → Z) (b : Bank) (w : Z → Z) (ret : Z).
Let words_of := words_of p CTX_SIZE m0.
Let elr := b "elr_el3".
Let prog := reflect_pending_async_ea_to_lower_el.
Let ec := bits (b "esr_el3") 26 6.

(** The state after the counter [n] was looked at; [v28], [v29] and [v30] are in the
    registers the function uses, whose values for the world are in the context. *)
Definition reflecting (n v28 v29 v30 : Z) (c : Z * Z) : Words :=
  mkWords (<[28%nat := v28]> (<[29%nat := v29]> (<[30%nat := v30]> x))) (<["spsel" := 1]> (<["sp_el3" := p]> b)) c
    (<[392 := n]> (<[384 := elr]> (<[232 := x 29%nat]> (<[224 := x 28%nat]> (<[240 := x 30%nat]> w))))).
Definition reflected (n elr' : Z) (ex : Exit) : Prop := ∃ s' A', ex = Left s' ∧ words_of s' A' ∧
  (∀ r, (r ≤ 30)%nat → wx r A' = x r) ∧ (∀ r, w_b A' r = (<["elr_el3" := elr']> (<["spsel" := 1]> (<["sp_el3" := p]> b))) r) ∧
  (∀ o, w_m A' o = (<[392 := n]> (<[384 := elr]> (<[232 := x 29%nat]> (<[224 := x 28%nat]> (<[240 := x 30%nat]> w))))) o).

Lemma reflect_end_run s n v28 v29 v30 c :
  words_of s (reflecting n v28 v29 v30 c) → wp (crash_env 0) prog 26 s (reflected n v28).
Proof.
  intros Hs. run_at p m0 reflect_end Hs. intros s1 Hs1. apply wp_eret; [reflexivity|].
  eexists s1, _. split; [done|]. split; [exact Hs1|]. split; [|done].
  intros r Hr. do 31 (destruct r as [|r]; [reflexivity|]). lia.
Qed.

(** The offset of the return address in its group of vectors. *)
Let off := Z.land ((ret - b "vbar_el3") mod 2 ^ 64) 0x1ff.
Lemma off_signed : signed64 off = off.
Proof.
  unfold signed64, off. change 0x1ff with (Z.ones 9). rewrite Z.land_ones by done.
  pose proof (Z.mod_pos_bound ((ret - b "vbar_el3") mod 2 ^ 64) (2 ^ 9) ltac:(done)).
  rewrite (proj2 (Z.ltb_lt _ _)) by lia. done.
Qed.
(** The world repeats a call; otherwise it continues where it was. *)
Definition resume_at : Z :=
  if (off <? 0x80) && ((ec =? EC_AARCH32_SMC) || (ec =? EC_AARCH64_SMC)) then (elr - 4) mod 2 ^ 64 else elr.

Lemma reflect_class s n v29 c :
  words_of s (reflecting n elr v29 ec c) → wp (crash_env 0) prog 20 s
    (reflected n (if (ec =? EC_AARCH32_SMC) || (ec =? EC_AARCH64_SMC) then (elr - 4) mod 2 ^ 64 else elr)).
Proof.
  intros Hs.
  assert (∀ s c, words_of s (reflecting n elr v29 ec c) → wp (crash_env 0) prog 25 s (reflected n ((elr - 4) mod 2 ^ 64))) as Hsub.
  { intros s' c' Hs'. run_at p m0 [SubI 28 28 4] Hs'. intros s2 Hs2. eapply (reflect_end_run s2). same_words Hs2. }
  run_at p m0 [CmpI 30 EC_AARCH32_SMC] Hs. intros s1 Hs1. eapply wp_next; [reflexivity|reflexivity|].
  rewrite (of_cmp _ _ _ _ _ Hs1). change (w_cmp _) with (ec, EC_AARCH32_SMC). cbn [holds].
  destruct (Z.eqb_spec ec EC_AARCH32_SMC); [by eapply (Hsub s1)|].
  run_at p m0 [CmpI 30 EC_AARCH64_SMC] Hs1. intros s2 Hs2. eapply wp_next; [reflexivity|reflexivity|].
  rewrite (of_cmp _ _ _ _ _ Hs2). change (w_cmp _) with (ec, EC_AARCH64_SMC). cbn [holds].
  destruct (Z.eqb_spec ec EC_AARCH64_SMC); [by eapply (Hsub s2)|].
  eapply wp_next; [reflexivity|reflexivity|]. eapply (reflect_end_run s2 n elr). exact Hs2.
Qed.
Lemma reflect_tail s n v29 c :
  words_of s (reflecting n elr v29 ret c) → wp (crash_env 0) prog 13 s (reflected n resume_at).
Proof.
  intros Hs. run_at p m0 reflect_vector Hs. intros s1 Hs1. eapply wp_next; [reflexivity|reflexivity|].
  rewrite (of_cmp _ _ _ _ _ Hs1). change (w_cmp _) with (off, 0x80). cbn [holds].
  rewrite off_signed. unfold resume_at. change (signed64 128) with 128. rewrite Z.ltb_antisym.
  destruct (128 <=? off); cbn [negb andb].
  - eapply (reflect_end_run s1). same_words Hs1.
  - run_at p m0 [Mrs 30 "esr_el3"; Ubfx 30 30 ESR_EC_SHIFT ESR_EC_LENGTH] Hs1. intros s2 Hs2.
    eapply (reflect_class s2). same_words Hs2.
Qed.

(** How often the world has come back with the same exception. *)
Definition replays : Z := if w 384 =? elr then w 392 + 1 else 0.
Context (Hcount : 0 ≤ w 392 < ASYNC_EA_REPLAY_COUNTER).
Definition reflect_outcome (ex : Exit) : Prop :=
  if replays =? ASYNC_EA_REPLAY_COUNTER then ex = Panicked else reflected replays resume_at ex.

Lemma reflect_run s c :
  words_of s (mkWords (<[30%nat := ret]> x) (<["spsel" := 1]> (<["sp_el3" := p]> b)) c (<[240 := x 30%nat]> w)) →
  reflect_outcome (run_asm (crash_env 0) prog s).
Proof.
  intros Hs. apply (wp_forward _ _ _ _ reflect_outcome); [reflexivity|]. run_at p m0 reflect_start Hs. intros s1 Hs1.
  eapply wp_next; [reflexivity|reflexivity|]. rewrite (of_cmp _ _ _ _ _ Hs1). change (w_cmp _) with (w 384, elr). cbn [holds].
  unfold reflect_outcome, replays. destruct (Z.eqb_spec (w 384) elr) as [E|E].
  - run_at p m0 [Ldr 29 SP CTX_NESTED_EA_FLAG; AddI 29 29 1; Str 29 SP CTX_NESTED_EA_FLAG; CmpI 29 ASYNC_EA_REPLAY_COUNTER] Hs1.
    intros s2 Hs2. eapply wp_next; [reflexivity|reflexivity|]. rewrite (of_cmp _ _ _ _ _ Hs2).
    change (w_cmp _) with ((w 392 + 1) mod 2 ^ 64, ASYNC_EA_REPLAY_COUNTER). cbn [holds].
    unfold ASYNC_EA_REPLAY_COUNTER in *. rewrite Z.mod_small by lia.
    unfold signed64. rewrite (proj2 (Z.ltb_lt (w 392 + 1) _)) by lia. change (100 <? 2 ^ 63) with true. cbn iota.
    destruct (Z.eqb_spec (w 392 + 1) 100) as [E'|E'].
    + rewrite (proj2 (Z.leb_le 100 _)) by lia. eapply wp_bsym; reflexivity.
    + rewrite (proj2 (Z.leb_gt 100 _)) by lia. eapply (reflect_tail s2 (w 392 + 1)).
      eapply words_of_ext; [exact Hs2|..|done|].
      * intros r. do 31 (destruct r as [|r]; [reflexivity|]). reflexivity.
      * done.
      * intros o. unfold reflecting. cbn [w_m]. destruct (decide (o = 392)) as [->|].
        { rewrite fn_lookup_insert. rewrite <-(Z.mod_small (w 392 + 1) (2 ^ 64)) by lia. reflexivity. }
        rewrite (fn_lookup_insert_ne _ 392) by done. destruct (decide (o = 384)) as [->|].
        { rewrite fn_lookup_insert. exact E. }
        rewrite (fn_lookup_insert_ne _ 384) by done.
        transitivity ((<[392 := (w 392 + 1) mod 2 ^ 64]>
          (<[232 := x 29%nat]> (<[224 := x 28%nat]> (<[240 := x 30%nat]> w)))) o); [reflexivity|].
        by rewrite fn_lookup_insert_ne.
  - run_at p m0 [Str 28 SP CTX_SAVED_ELR_EL3; Str 31 SP CTX_NESTED_EA_FLAG] Hs1. intros s2 Hs2.
    eapply wp_next; [reflexivity|reflexivity|]. cbn [Z.eqb]. eapply (reflect_tail s2 0). same_words Hs2.
Qed.
End Reflect.

(** ** On the context of a world *)
Section Vector.
Context `{AsmConsts, !AsmConstsLaws}.

(** The context after the [n]th replay. *)
Definition replayed_context (n : Z) (s : CpuState) (c : CpuContext) : CpuContext :=
  let e := el3_state c in
  mkCpuContext (<[28%nat := xr 28 s]> (<[29%nat := xr 29 s]> (<[30%nat := xr 30 s]> (gpregs c)))) (pauth_regs c)
    (mkEl3State (esr_el3 e) (runtime_sp e) (runtime_lr e) (spsr_el3 e) (elr_el3 e) (pmcr_el0 e)
       (c_sysregs s "elr_el3") n (mdcr_el3 e)) (lower_el_sysregs c).
Definition replay_count (s : CpuState) (c : CpuContext) : Z :=
  if saved_elr_el3 (el3_state c) =? c_sysregs s "elr_el3" then nested_ea_flag (el3_state c) + 1 else 0.
(** Where the world continues: at the call again, or where it was interrupted. *)
Definition replay_address (offset : Z) (s : CpuState) : Z :=
  if (offset mod 0x200 =? 0) && ((exception_class s =? EC_AARCH32_SMC) || (exception_class s =? EC_AARCH64_SMC))
  then (c_sysregs s "elr_el3" - 4) mod 2 ^ 64 else c_sysregs s "elr_el3".
(** The vectors for calls, traps and interrupts of lower levels. *)
Definition reflecting_vectors : list nat := [8; 9; 10; 12; 13; 14]%nat.

Record replayed (p offset : Z) (c : CpuContext) (s s' : CpuState) : Prop := {
  rep_x r : (r ≤ 30)%nat → xr r s' = xr r s;
  rep_sysregs r : r ≠ "elr_el3" → c_sysregs s' r = c_sysregs s r;
  rep_elr : c_sysregs s' "elr_el3" = replay_address offset s;
  rep_context : context_at p (replayed_context (replay_count s c) s c) s';
  rep_rest a : ¬ p ≤ a < p + CTX_SIZE → c_mem s' a = c_mem s a;
}.

Section Taken.
Context (p : Z) (c : CpuContext) (s : CpuState) (Hs : at_exception p c s).
Let w (o : Z) : Z := load64 (p + o) s.

Lemma w_counts : w 384 = saved_elr_el3 (el3_state c) ∧ w 392 = nested_ea_flag (el3_state c).
Proof.
  pose proof (context_el3 p c s Hs) as He. fold w in He. clearbody w. destruct (el3_state c).
  cbn [fmap list_fmap el3_words] in He. by injection He as <- <- <- <- <- <- <- <- <-.
Qed.
Lemma replays_count : replays (c_sysregs s) w = replay_count s c.
Proof. unfold replays, replay_count. by destruct w_counts as [-> ->]. Qed.
Lemma replayed_words n :
  (λ k, (<[392 := n]> (<[384 := c_sysregs s "elr_el3"]> (<[232 := c_xs s 29%nat]> (<[224 := c_xs s 28%nat]>
     (<[240 := c_xs s 30%nat]> w))))) (8 * Z.of_nat k)) <$> seq 0 51 = context_words (replayed_context n s c).
Proof.
  destruct (context_parts p c s) as (Gg & Gp & _); [apply Hs|]. pose proof (context_el3 p c s Hs) as He. fold w in He.
  unfold context_words, replayed_context. cbn [gpregs pauth_regs el3_state]. rewrite <-Gg, <-Gp.
  change (λ k, load64 (p + 8 * Z.of_nat k) s) with (λ k, w (8 * Z.of_nat k)). clearbody w. destruct (el3_state c).
  cbn [fmap list_fmap el3_words] in He. injection He as <- <- <- <- <- <- <- <- <-. reflexivity.
Qed.
Lemma reflected_replayed offset ret ex :
  resume_at (c_sysregs s) ret = replay_address offset s →
  reflected p (c_mem s) (c_xs s) (c_sysregs s) w (replays (c_sysregs s) w) (resume_at (c_sysregs s) ret) ex →
  ∃ s', ex = Left s' ∧ replayed p offset c s s'.
Proof.
  intros Hret (s' & A & -> & HA & Hx & Hb & Hm). exists s'. split; [done|].
  destruct w_counts as [E1 E2]. destruct Hs as [_ Hsel Hsp Hctx _].
  pose proof (of_b _ _ _ _ _ HA) as HbA. split.
  - intros r Hr. rewrite (of_x _ _ _ _ _ HA), Hx by done. unfold xr. by rewrite decide_False by lia.
  - intros r Hr. rewrite HbA, Hb, fn_lookup_insert_ne by done. destruct (decide (r = "spsel")) as [->|]; [done|].
    rewrite fn_lookup_insert_ne by done. destruct (decide (r = "sp_el3")) as [->|]; [done|]. by rewrite fn_lookup_insert_ne.
  - by rewrite HbA, Hb, fn_lookup_insert.
  - destruct Hctx as [_ Lg Lp]. split; [|cbn [replayed_context gpregs]; by rewrite !length_insert|done].
    rewrite (words_of_context _ _ _ _ HA), <-replays_count, <-replayed_words. apply list_fmap_ext. intros i k _. apply Hm.
  - apply (of_rest _ _ _ _ _ HA).
Qed.

Lemma vector_reflects base vector Q :
  0 ≤ nested_ea_flag (el3_state c) < ASYNC_EA_REPLAY_COUNTER → u64 (base + 16) → abort_pending s = true →
  vector = sync_exception_vector ∨ vector = interrupt_vector →
  (∀ ex, reflect_outcome p (c_mem s) (c_xs s) (c_sysregs s) w (base + 16) ex → Q ex) →
  wp (vector_env base) vector 0 s Q.
Proof.
  intros Hn Hret Hab Hv HQ. assert (code_at vector 0 (vector_start ++ [Tbz 30 8 4; Bl "reflect_pending_async_ea_to_lower_el"])) as Hcode.
  { destruct Hv as [-> | ->]; by apply code_at_eval. }
  apply code_at_app in Hcode as [Hstart Hcode].
  eapply (run_words _ p CTX_SIZE ext (c_mem s) _ vector_start); [exact Hstart| |exact (at_vector_of p c s Hs)|].
  { unfold vector_start. words_ok. }
  intros s1 Hs1. eapply wp_next; [exact (Hcode 0%nat _ eq_refl)|reflexivity|]. rewrite (of_x _ _ _ _ _ Hs1).
  change (wx 30 _) with (c_sysregs s "isr_el1"). unfold abort_pending, ISR_A_SHIFT in Hab. rewrite Hab.
  assert (reflect_outcome p (c_mem s) (c_xs s) (c_sysregs s) w (base + 16)
    (run_asm (crash_env 0) reflect_pending_async_ea_to_lower_el (set_x 30 (base + 16) s1))) as Hout.
  { eapply reflect_run; [by destruct w_counts as [_ ->]|]. 
    eapply (words_of_ext p CTX_SIZE (c_mem s)); [exact (words_set_x _ _ _ _ _ 30 (base + 16) Hret Hs1)| |done..].
    intros r. do 31 (destruct r as [|r]; [reflexivity|]). reflexivity. }
  eapply (wp_bl_out _ _ _ _ _ (run_asm (crash_env 0) reflect_pending_async_ea_to_lower_el (set_x 30 (base + 16) s1)));
    [exact (Hcode 1%nat _ eq_refl)|reflexivity| |by apply HQ].
  unfold reflect_outcome in Hout. destruct (_ =? _) in Hout; [by rewrite Hout|]. by destruct Hout as (s' & A & -> & _).
Qed.
End Taken.

Lemma abort_reflected p c s k offset vector :
  at_exception p c s → abort_pending s = true →
  0 ≤ nested_ea_flag (el3_state c) < ASYNC_EA_REPLAY_COUNTER →
  k ∈ reflecting_vectors → runtime_exceptions !! k = Some (offset, vector) →
  c_sysregs s "vbar_el3" + 0x800 ≤ 2 ^ 64 →
  let ex := run_asm (vector_env (c_sysregs s "vbar_el3" + offset)) vector s in
  if replay_count s c =? ASYNC_EA_REPLAY_COUNTER then ex = Panicked
  else ∃ s', ex = Left s' ∧ replayed p offset c s s' ∧ 0 ≤ replay_count s c < ASYNC_EA_REPLAY_COUNTER.
Proof.
  intros Hs Hab Hn Hk Hvec Hvbar. cbv zeta. pose proof (core_b _ (exc_core _ _ _ Hs) "vbar_el3") as [Hv0 _].
  assert (0 ≤ offset < 0x780 ∧ (vector = sync_exception_vector ∨ vector = interrupt_vector) ∧
    (Z.land ((offset + 16) mod 2 ^ 64) 0x1ff <? 0x80) = (offset mod 0x200 =? 0)) as (Ho & Hvector & Hoff).
  { unfold reflecting_vectors in Hk. repeat (apply elem_of_cons in Hk as [->|Hk]; [injection Hvec as <- <-; split; [lia|]; split; [tauto|reflexivity]|]).
    by apply not_elem_of_nil in Hk. }
  set (base := c_sysregs s "vbar_el3" + offset).
  assert (resume_at (c_sysregs s) (base + 16) = replay_address offset s) as Hres.
  { unfold resume_at, replay_address, base. by rewrite <-Hoff, <-Z.add_assoc, Z.add_simpl_l. }
  assert (reflect_outcome p (c_mem s) (c_xs s) (c_sysregs s) (λ o, load64 (p + o) s) (base + 16)
    (run_asm (vector_env base) vector s)) as Hout.
  { apply (wp_forward _ _ _ _ (reflect_outcome p (c_mem s) (c_xs s) (c_sysregs s) (λ o, load64 (p + o) s) (base + 16)));
      [by destruct Hvector as [-> | ->]|]. apply (vector_reflects p c s Hs); try done. unfold u64, base. lia. }
  unfold reflect_outcome in Hout. rewrite (replays_count p c s Hs) in Hout.
  destruct (Z.eqb_spec (replay_count s c) ASYNC_EA_REPLAY_COUNTER) as [|Hne]; [done|].
  rewrite <-(replays_count p c s Hs) in Hout.
  destruct (reflected_replayed p c s Hs offset _ _ Hres Hout) as (s' & -> & Hrep). exists s'. split; [done|]. split; [done|].
  unfold replay_count, ASYNC_EA_REPLAY_COUNTER in *. revert Hne; destruct (saved_elr_el3 _ =? _); lia.
Qed.

(** A world that comes to EL3 at [e] with a pending abort, and again after it was sent back. *)
Definition bounce (p e : Z) (from to : CpuContext * CpuState) : Prop :=
  let (c, s) := from in
  at_exception p c s ∧ abort_pending s = true ∧ c_sysregs s "elr_el3" = e ∧ c_sysregs s "vbar_el3" + 0x800 ≤ 2 ^ 64 ∧
  ∃ k offset vector s', k ∈ reflecting_vectors ∧ runtime_exceptions !! k = Some (offset, vector) ∧
    run_asm (vector_env (c_sysregs s "vbar_el3" + offset)) vector s = Left s' ∧ context_at p (fst to) s'.

Lemma context_at_el3 p c c' s : context_at p c s → context_at p c' s → el3_state c = el3_state c'.
Proof.
  intros (_ & _ & E)%context_parts (_ & _ & E')%context_parts. rewrite E in E'.
  destruct (el3_state c), (el3_state c'). by injection E' as -> -> -> -> -> -> -> -> ->.
Qed.
Lemma bounce_counts p e c s c' s' :
  0 ≤ nested_ea_flag (el3_state c) < ASYNC_EA_REPLAY_COUNTER → bounce p e (c, s) (c', s') →
  saved_elr_el3 (el3_state c') = e ∧ 0 ≤ nested_ea_flag (el3_state c') < ASYNC_EA_REPLAY_COUNTER ∧
  (saved_elr_el3 (el3_state c) = e → nested_ea_flag (el3_state c') = nested_ea_flag (el3_state c) + 1).
Proof.
  intros Hn (Hs & Hab & He & Hv & k & offset & vector & t & Hk & Hvec & Hrun & Hc').
  pose proof (abort_reflected p c s k offset vector Hs Hab Hn Hk Hvec Hv) as Hr. cbv zeta in Hr.
  destruct (_ =? _) in Hr; [by rewrite Hrun in Hr|]. destruct Hr as (t' & Ht & Hrep & Hcount).
  rewrite Hrun in Ht. injection Ht as <-. cbn [fst] in Hc'. rewrite (context_at_el3 _ _ _ _ Hc' (rep_context _ _ _ _ _ Hrep)).
  cbn [replayed_context el3_state saved_elr_el3 nested_ea_flag]. split; [done|]. split; [done|].
  intros Hsaved. unfold replay_count. by rewrite Hsaved, He, Z.eqb_refl.
Qed.
Lemma bounces_count p e n c s to :
  0 ≤ nested_ea_flag (el3_state c) < ASYNC_EA_REPLAY_COUNTER → saved_elr_el3 (el3_state c) = e →
  nsteps (bounce p e) n (c, s) to → nested_ea_flag (el3_state c) + Z.of_nat n < ASYNC_EA_REPLAY_COUNTER.
Proof.
  revert c s. induction n as [|n IH]; intros c s Hn He Hsteps; [lia|].
  inversion Hsteps as [|? ? [c1 s1] ? Hb Hrest]; simplify_eq. destruct (bounce_counts _ _ _ _ _ _ Hn Hb) as (He1 & Hn1 & Hnext).
  specialize (IH c1 s1 Hn1 ltac:(by rewrite He1) Hrest). rewrite (Hnext eq_refl) in IH. lia.
Qed.

(** C16: an external abort that is pending when a lower level comes to EL3 goes back to
    that level: the vector returns there with all registers as they were, a call being
    repeated and everything else continuing where it was interrupted, and the context
    counts how often that happened at the same address.  Once it has gone
    back a hundred times the firmware panics instead, so that it does not go on for ever. *)
Theorem pending_abort_is_reflected p c s k offset vector :
  at_exception p c s → abort_pending s = true →
  0 ≤ nested_ea_flag (el3_state c) < ASYNC_EA_REPLAY_COUNTER →
  k ∈ reflecting_vectors → runtime_exceptions !! k = Some (offset, vector) →
  c_sysregs s "vbar_el3" + 0x800 ≤ 2 ^ 64 →
  let ex := run_asm (vector_env (c_sysregs s "vbar_el3" + offset)) vector s in
  if replay_count s c =? ASYNC_EA_REPLAY_COUNTER then ex = Panicked
  else ∃ s', ex = Left s' ∧ replayed p offset c s s' ∧ 0 ≤ replay_count s c < ASYNC_EA_REPLAY_COUNTER.
Proof. apply abort_reflected. Qed.

(** C25: a world and the firmware do not send each other back and forth for ever: a world
    that always comes back at the same address with an external abort pending is sent
    back at most a hundred times in a row. *)
Theorem abort_replays_end p e n c s to :
  0 ≤ nested_ea_flag (el3_state c) < ASYNC_EA_REPLAY_COUNTER → nsteps (bounce p e) n (c, s) to → (n ≤ 100)%nat.
Proof.
  intros Hn Hsteps. destruct n as [|n]; [lia|]. inversion Hsteps as [|? ? [c1 s1] ? Hb Hrest]; simplify_eq.
  destruct (bounce_counts _ _ _ _ _ _ Hn Hb) as (He1 & Hn1 & _).
  pose proof (bounces_count p e n c1 s1 to Hn1 He1 Hrest). unfold ASYNC_EA_REPLAY_COUNTER in *. lia.
Qed.
End Vector.
