(* ===== verification/AsmSample.v ===== *)
(** * A sample core

    The theorems on assembly applied to a concrete core, and what the code does there in
    cases the theorems leave out. *)

From Stdlib Require Import ZArith Lia.
From stdpp Require Import base list numbers option functions strings sets relations.
From S2P Require Import Prelude Smccc Services Context Asm AsmProps AsmWords MemAsm MemAsmProps CacheAsmProps ContextAsm ContextAsmProps WorldSwitchProps ReflectProps.
Open Scope rust_scope.
Open Scope string_scope.
Open Scope list_scope.
Open Scope Z_scope.

(** The constants of the architecture, in a build with pointer authentication and
    assertions. *)
#[local] Instance sample_consts : AsmConsts :=
  {| DIT_BIT := 2 ^ 24; SCR_EA_BIT := 2 ^ 3; PMCR_EL0_DP_BIT := 2 ^ 5; MODE_SP_EL0 := 0; MODE_SP_ELX := 1;
     ENABLE_PAUTH := true; ENABLE_ASSERTIONS := true |}.
#[local] Instance sample_consts_laws : AsmConstsLaws.
Proof. by repeat split. Qed.

(** Register [r] holds [1000 + r], and the memory zeros. *)
Definition sample_x (r : nat) : Z := if (r <=? 30)%nat then 1000 + Z.of_nat r else 0.
Definition sample_bank (l : list (SysReg * Z)) : Bank := λ r,
  match list_find (λ e, r = fst e) l with Some (_, (_, v)) => v | None => 0 end.
Definition sample_cpu (x : nat → Z) (l : list (SysReg * Z)) : CpuState := mkCpu x (0, 0) (sample_bank l) [] (λ _, 0).

Lemma sample_ok x l : (∀ r, u64 (x r)) → Forall (λ e, u64 (snd e)) l → core_ok (sample_cpu x l).
Proof.
  intros Hx Hl. split; [|intros r; cbn; unfold sample_bank|done].
  - intros r. unfold xr. destruct (decide _); [done|apply Hx].
  - destruct (list_find _ l) as [[i [q v]]|] eqn:E; [|done]. apply list_find_Some in E as (E & _ & _).
    exact (proj1 (Forall_lookup _ _) Hl i _ E).
Qed.
Lemma sample_x_ok r : u64 (sample_x r).
Proof. unfold sample_x, u64. destruct (Nat.leb_spec r 30); lia. Qed.

(** A call from the world whose context is at [0x1000]. *)
Definition SAMPLE_CTX : Z := 0x1000.
Definition calling (ec isr : Z) : CpuState :=
  sample_cpu sample_x [("spsel", 1); ("sp_el3", SAMPLE_CTX); ("esr_el3", Z.shiftl ec 26); ("tpidr_el3", 0x5000);
                       ("elr_el3", 0x8000_0004); ("vbar_el3", 0x4000_0000); ("isr_el1", isr)].
Lemma calling_at ec isr : u64 (Z.shiftl ec 26) → u64 isr → at_exception SAMPLE_CTX CpuContext_EMPTY (calling ec isr).
Proof.
  intros ? ?. split; try done.
  - apply sample_ok; [apply sample_x_ok|]. by repeat (constructor; [done|]).
  - right. vm_compute. discriminate.
Qed.

Lemma exception_saves_world_witness :
  ∃ s', run_asm (vector_env 0) sync_exception_vector (calling EC_AARCH64_SMC 0) = Returned s' ∧
    back_in_el3 SAMPLE_CTX CpuContext_EMPTY (calling EC_AARCH64_SMC 0) s' ∧
    decode_exit (exit_values s') (St := unit) =
      mret (RunSmc, mkSmcReturn MAX_VALUES ((λ r, 1000 + Z.of_nat r) <$> seq 0 18)).
Proof.
  apply (exception_saves_world SAMPLE_CTX CpuContext_EMPTY (calling EC_AARCH64_SMC 0));
    [by apply calling_at|reflexivity|by left].
Defined.

(** The firmware, about to leave for the world. *)
Definition leaving : CpuState :=
  sample_cpu (λ r, if (r =? 0)%nat then SAMPLE_CTX else if (r =? 1)%nat then 0x3000 else sample_x r)
    [("spsel", 0); ("sp_el0", 0x7000)].
Lemma leaving_ok : core_ok leaving.
Proof.
  apply sample_ok; [|by repeat (constructor; [done|])]. intros r. destruct (r =? 0)%nat; [done|].
  destruct (r =? 1)%nat; [done|]. apply sample_x_ok.
Qed.
Lemma exit_loads_world_witness :
  ∃ s', run_asm (context_env 0) el3_exit leaving = Left s' ∧ left_to_world SAMPLE_CTX 0x3000 CpuContext_EMPTY leaving s'.
Proof.
  apply (exit_loads_world SAMPLE_CTX 0x3000 CpuContext_EMPTY leaving). split; try done; [apply leaving_ok|by right].
Defined.
Lemma world_is_resumed_witness :
  ∃ s1, run_asm (vector_env 0) interrupt_vector (calling 0 0) = Returned s1 ∧ ∀ s2,
    core_ok s2 → c_sysregs s2 "spsel" = 0 → xr 0 s2 = SAMPLE_CTX → xr 1 s2 = 0x3000 →
    (∀ a, SAMPLE_CTX ≤ a < SAMPLE_CTX + CTX_SIZE → c_mem s2 a = c_mem s1 a) →
    0x3000 + PERWORLD_CONTEXT_SCR_EL3 + 8 ≤ SAMPLE_CTX ∨ SAMPLE_CTX + CTX_SIZE ≤ 0x3000 + PERWORLD_CONTEXT_SCR_EL3 →
    ∃ s3, run_asm (context_env 0) el3_exit s2 = Left s3 ∧
      context_of_world s3 CpuContext_EMPTY = context_of_world (calling 0 0) CpuContext_EMPTY.
Proof.
  apply (world_is_resumed SAMPLE_CTX 0x3000 CpuContext_EMPTY (calling 0 0) interrupt_vector);
    [by apply calling_at|reflexivity|by right].
Defined.

(** The same call with an external abort pending. *)
Definition aborting : CpuState := calling EC_AARCH64_SMC (2 ^ 8).
Lemma pending_abort_is_reflected_witness :
  ∃ s', run_asm (vector_env 0x4000_0400) sync_exception_vector aborting = Left s' ∧
    replayed SAMPLE_CTX 0x400 CpuContext_EMPTY aborting s' ∧ 0 ≤ replay_count aborting CpuContext_EMPTY < 100.
Proof.
  apply (pending_abort_is_reflected SAMPLE_CTX CpuContext_EMPTY aborting 8 0x400 sync_exception_vector);
    [by apply calling_at|reflexivity|done|by left|reflexivity|vm_compute; discriminate].
Defined.
Lemma abort_replays_end_witness :
  nsteps (bounce SAMPLE_CTX 0x8000_0004) 1 (CpuContext_EMPTY, aborting)
    (replayed_context 0 aborting CpuContext_EMPTY, aborting) ∧ (1 ≤ 100)%nat.
Proof.
  assert (nsteps (bounce SAMPLE_CTX 0x8000_0004) 1 (CpuContext_EMPTY, aborting)
    (replayed_context 0 aborting CpuContext_EMPTY, aborting)) as Hsteps.
  { apply nsteps_once. split; [by apply calling_at|]. split; [done|]. split; [done|]. split; [vm_compute; discriminate|].
    destruct (abort_reflected SAMPLE_CTX CpuContext_EMPTY aborting 8 0x400 sync_exception_vector) as (s' & Hrun & Hrep & _);
      [by apply calling_at|reflexivity|done|by left|reflexivity|vm_compute; discriminate|].
    exists 8%nat, 0x400, sync_exception_vector, s'. split; [by left|]. split; [done|]. split; [exact Hrun|].
    exact (rep_context _ _ _ _ _ Hrep). }
  split; [exact Hsteps|].
  exact (abort_replays_end SAMPLE_CTX 0x8000_0004 1 CpuContext_EMPTY aborting _ ltac:(done) Hsteps).
Defined.

(** A function for 64 bits that is called from 32 bits is refused; but the registers
    [x28] and [x29] of the caller are then loaded from its context, where this path has
    not saved them. *)
Definition prohibited_call : CpuState :=
  sample_cpu (λ r, if (r =? 0)%nat then 2 ^ 30 else sample_x r)
    [("spsel", 1); ("sp_el3", SAMPLE_CTX); ("esr_el3", Z.shiftl EC_AARCH32_SMC 26)].
Lemma smc_prohibited_loses_registers :
  match run_asm (vector_env 0) sync_exception_vector prohibited_call with
  | Left s' => xr 0 s' = SMC_UNK ∧
      (λ r, xr r s') <$> [27; 28; 29; 30]%nat = [1027; 0; 0; 1030]
  | _ => False
  end.
Proof. vm_compute. by split. Qed.

(** ** Memory and caches *)
Definition zeroing : CpuState :=
  sample_cpu (λ r, if (r =? 0)%nat then 0x1003 else if (r =? 1)%nat then 0x345 else 0) [("sctlr_el3", 1); ("dczid_el0", 4)].
Lemma zeromem_zeroes_witness :
  wp (crash_env 0) (zeromem_prog true 1) (zeromem_at true 1 "zeromem") zeroing (all_zeroed 0x1003 0x345 zeroing) ∧
  wp (crash_env 0) (zeromem_prog true 1) (zeromem_at true 1 "zeromem_dczva") zeroing (all_zeroed 0x1003 0x345 zeroing).
Proof.
  destruct (zeromem_zeroes (crash_env 0) true 1 0x1003 0x345 zeroing) as (H1 & H2 & _); try done.
  split; [exact H1|]. by apply H2.
Defined.
Definition flushing (a n : Z) : CpuState :=
  sample_cpu (λ r, if (r =? 0)%nat then a else if (r =? 1)%nat then n else 0) [("ctr_el0", Z.shiftl 4 16)].
Lemma dcache_range_maintained_witness :
  wp (crash_env 0) flush_dcache_range 0 (flushing 60 8) (range_done "civac" 60 68 EvDsb (flushing 60 8)) ∧
  wp (crash_env 0) popa_range_asm 0 (flushing 128 8) (range_done "cipapa" 128 136 EvDsbOsh (flushing 128 8)).
Proof.
  destruct (dcache_range_maintained (crash_env 0) 60 8 (flushing 60 8)) as (H1 & _); try done.
  destruct (dcache_range_maintained (crash_env 0) 128 8 (flushing 128 8)) as (_ & _ & H2); try done.
  split; [exact H1|]. by apply H2.
Defined.
(** For a start that is not aligned the functions for the point of physical aliasing stop
    a line early: the eight bytes at 60 are in two lines, of which one is maintained. *)
Lemma popa_range_misses_line :
  match exec 100 (crash_env 0) popa_range_asm 0 (flushing 60 8) with
  | Returned s' => omap (λ e, match e with EvDc _ a => Some a | _ => None end) (c_trace s') = [0]
  | _ => False
  end.
Proof. vm_compute. reflexivity. Qed.
