(* ===== verification/Cpu.v ===== *)
(** * CPU operations and errata

    [src/cpu.rs], [src/cpu/aem_generic.rs], [src/cpu/c1_pro.rs],
    [src/cpu/c1_ultra.rs], [src/cpu/qemu_max.rs], [src/errata_framework.rs] and
    [src/errata_framework/dsu.rs].  Much of it is written in assembly; the Rust code is
    translated as elsewhere, on the same core. *)

From Stdlib Require Import ZArith Lia.
From stdpp Require Import base list numbers option functions strings.
From S2P Require Import Prelude Smccc Services Context Asm.
Open Scope rust_scope.
Open Scope string_scope.
Open Scope list_scope.
Open Scope Z_scope.

(** ** The errata framework
    The layout of [MIDR_EL1] is that of the [arm_sysregs] crate. *)
Class MidrLayout := {
  IMPLEMENTER_MASK : Z;
  IMPLEMENTER_SHIFT : Z;
  VARIANT_MASK : Z;
  VARIANT_SHIFT : Z;
  PARTNUM_MASK : Z;
  PARTNUM_SHIFT : Z;
  REVISION_MASK : Z;
}.

Fixpoint count_ones_pos (p : positive) : Z :=
  match p with xH => 1 | xO p => count_ones_pos p | xI p => 1 + count_ones_pos p end.
Definition count_ones (x : Z) : Z := match x with Zpos p => count_ones_pos p | _ => 0 end.

Record RevisionVariant : Type := mkRv { revision : Z; variant : Z }.
Definition NOT_FIXED : RevisionVariant := mkRv 255 255.

Inductive ErratumType : Type := ErratumReset | ErratumRuntime.
Definition erratum_type_as_u32 (t : ErratumType) : Z :=
  match t with ErratumReset => 0 | ErratumRuntime => 1 end.

Record ErratumEntry : Type := mkErratum {
  erratum_id : Z;
  apply_on : ErratumType;
  check : list Instr;
  workaround : list Instr;
}.

Section Errata.
Context `{MidrLayout}.

(** [implement_erratum_check!] *)
Definition VARIANT_LEN : Z := count_ones VARIANT_MASK.
Definition REVISION_LEN : Z := count_ones REVISION_MASK.
Definition midr_mask : Z :=
  Z.lor (Z.shiftl IMPLEMENTER_MASK IMPLEMENTER_SHIFT) (Z.shiftl PARTNUM_MASK PARTNUM_SHIFT).
Definition rv_const (v : RevisionVariant) : Z := Z.lor (Z.shiftl (revision v) VARIANT_LEN) (variant v).

Definition implement_erratum_check (midr : Z) (apply_from fixed_in : RevisionVariant) : list Instr := [
  Mrs 1 "midr_el1";
  MovI 4 midr_mask;
  AndR 2 1 4;
  MovI 3 midr;
  AndR 3 3 4;
  CmpR 2 3;
  Bc CNe 17;
  Ubfx 2 1 VARIANT_SHIFT VARIANT_LEN;
  Bfi 2 1 VARIANT_LEN REVISION_LEN;
  MovI 3 (rv_const apply_from);
  CmpR 2 3;
  Bc CLt 17;
  MovI 4 (rv_const fixed_in);
  CmpR 2 4;
  Bc CGe 17;
  MovI 0 1;
  Return;
  (* 1: *)
  MovI 0 0;
  Return].

(** [define_errata_list!]: the entries lie one after the other in memory. *)
Definition ERRATUM_ENTRY_SIZE : Z := 24.
Definition APPLY_ON_OFFSET : Z := 4.
Definition CHECK_OFFSET : Z := 8.
Definition WORKAROUND_OFFSET : Z := 16.
Definition apply_reset_errata (errata_list errata_list_count : Z) : list Instr := [
  MovR 8 30;
  MovI 9 errata_list;
  MovI 10 (errata_list + ERRATUM_ENTRY_SIZE * errata_list_count);
  (* 1: *)
  CmpR 9 10;
  Bc CEq 15;
  LdrW 11 9 APPLY_ON_OFFSET;
  CmpWI 11 (erratum_type_as_u32 ErratumReset);
  Bc CNe 13;
  LdrX 11 9 CHECK_OFFSET;
  Blr 11;
  Cbz 0 13;
  LdrX 11 9 WORKAROUND_OFFSET;
  Blr 11;
  (* 2: *)
  AddI 9 9 ERRATUM_ENTRY_SIZE;
  B 3;
  (* 3: *)
  MovR 30 8;
  Return].

(** What [check] of an erratum returns when it is called from Rust. *)
Definition call_check (e : ErratumEntry) (b : Bank) : bool :=
  match run_asm no_env (check e) (fresh_cpu b []) with
  | Returned s => negb (xr 0 s =? 0)
  | _ => false
  end.
(** A list of errata as [erratum_applies] uses it. *)
Definition errata_checks (l : list ErratumEntry) : list (Z * (Bank → bool)) :=
  (λ e, (erratum_id e, call_check e)) <$> l.
End Errata.

(** ** The operations of a CPU *)
Record CpuOps : Type := mkCpuOps {
  midr : Z;
  reset_handler : list Instr;
  dump_registers : list Instr;
  power_down_level0 : M CpuState unit;
  power_down_level1 : M CpuState unit;
  handle_power_down_abandon : M CpuState unit;
}.
Definition MIDR_MASK : Z := 0xff00fff0.
Definition has_matching_midr (self : CpuOps) (m : Z) : bool := midr self =? Z.land m MIDR_MASK.

(** [CpuOps::from_cpu] *)
Definition from_cpu (MIDR : Z) (reset dump : list Instr) (down0 down1 abandon : M CpuState unit) : CpuOps :=
  mkCpuOps (Z.land MIDR MIDR_MASK) reset dump down0 down1 abandon.

(** The default of [Cpu::handle_power_down_abandon]. *)
Definition unexpected_wake_up : M CpuState unit := crash.

Definition read_sysreg (r : SysReg) : M CpuState Z := λ s, Ret (c_sysregs s r) s.
Definition write_sysreg (r : SysReg) (v : Z) : M CpuState unit := λ s, Ret tt (set_sysreg r v s).
Definition event (e : CpuEvent) : M CpuState unit := λ s, Ret tt (emit e s).

Section CpuOps.
Context (CPU_OPS : list CpuOps).

Definition find_cpu_ops : M CpuState CpuOps :=
  m ← read_sysreg "midr_el1";
  match List.find (λ i, has_matching_midr i m) CPU_OPS with
  | Some ops => mret ops
  | None => crash
  end.

(** A function in assembly that is called from Rust. *)
Definition call_asm (prog : list Instr) : M CpuState unit := λ s,
  match run_asm no_env prog s with
  | Returned s' => Ret tt s'
  | _ => Crash
  end.

(** [cpu_reset_handler] of builds for the host. *)
Definition cpu_reset_handler : M CpuState unit :=
  ops ← find_cpu_ops;
  call_asm (reset_handler ops).

Definition cpu_power_down (level : nat) : M CpuState unit :=
  ops ← find_cpu_ops;
  if decide (level = 0)%nat then power_down_level0 ops else power_down_level1 ops.
Definition cpu_handle_power_down_abandon : M CpuState unit :=
  ops ← find_cpu_ops;
  handle_power_down_abandon ops.
End CpuOps.

(** [define_cpu_ops!] and [cpu_reset_handler] in assembly. *)
Section CpuOpsAsm.
Context (cpu_ops cpu_ops_size cpu_ops_count midr_offset reset_handler_offset dump_registers_offset : Z).

Definition get_cpu_ops : list Instr := [
  Mrs 2 "midr_el1";
  MovI 0 (Z.land MIDR_MASK 0xffff);
  Movk 0 (Z.land (Z.shiftr MIDR_MASK 16) 0xffff) 16;
  AndW 2 2 0;
  MovI 0 cpu_ops;
  MovI 3 (cpu_ops + cpu_ops_size * cpu_ops_count);
  (* 1: *)
  CmpR 0 3;
  Bc CEq 13;
  LdrW 1 0 midr_offset;
  CmpW 1 2;
  Bc CEq 14;
  AddI 0 0 cpu_ops_size;
  B 6;
  (* 2: *)
  MovR 0 31;
  (* 3: *)
  Return].

Definition cpu_reset_handler_asm : list Instr := [
  MovR 4 30;
  Bl "get_cpu_ops";
  MovR 30 4;
  Cbz 0 6;
  LdrX 1 0 reset_handler_offset;
  Br 1;
  (* 1: *)
  BSym "el3_panic"].

(** The registers of the implementation of the core, for a crash report. *)
Definition cpu_dump_registers_asm : list Instr := [
  MovR 4 30;
  Bl "get_cpu_ops";
  MovR 30 4;
  Cbz 0 6;
  LdrX 1 0 dump_registers_offset;
  Br 1;
  (* 1: *)
  Return].
End CpuOpsAsm.

(** ** QEMU *)
Definition QemuMax : CpuOps := from_cpu 0x000f0510 [Return] [Return] (mret tt) (mret tt) unexpected_wake_up.

(** ** C1-Pro and C1-Ultra
    The registers of the implementation are named by their encodings. *)
Definition CPUPWRCTLR : SysReg := "s3_0_c15_c2_7".
Definition CORE_PWRDN_ENABLE_BIT_MASK : Z := 0x1.
Definition c1_reset_handler : list Instr := [
  Msr "s3_3_c4_c2_6" 31;
  Mrs 1 CPUPWRCTLR;
  BicI 1 1 (Z.shiftl 1 0);
  Msr CPUPWRCTLR 1;
  Return].
(** [dump_registers]: the list of names and the value of one register. *)
Definition c1_dump_registers (regs : string) : list Instr := [Adr 6 regs; Mrs 8 "s3_0_c15_c1_4"; Return].
Definition power_down_enable : M CpuState unit :=
  v ← read_sysreg CPUPWRCTLR;
  _ ← write_sysreg CPUPWRCTLR (Z.lor v CORE_PWRDN_ENABLE_BIT_MASK);
  event EvIsb.
Definition power_down_abandon : M CpuState unit :=
  v ← read_sysreg CPUPWRCTLR;
  _ ← write_sysreg CPUPWRCTLR (Z.ldiff v CORE_PWRDN_ENABLE_BIT_MASK);
  event EvIsb.

(** A workaround that sets bits of a register through [x1]. *)
Definition set_bits (r : SysReg) (mask : Z) : list Instr := [Mrs 1 r; OrrI 1 1 mask; Msr r 1].

Definition C1PRO_MIDR : Z := 0x410FD8B0.
Definition C1ULTRA_MIDR : Z := 0x410FD8C0.

Section C1.
Context `{MidrLayout}.

Definition Erratum3300099 : ErratumEntry :=
  mkErratum 3300099 ErratumRuntime (implement_erratum_check C1PRO_MIDR (mkRv 0 0) (mkRv 1 1)) [Return].
Definition Erratum3773617 : ErratumEntry :=
  mkErratum 3773617 ErratumRuntime (implement_erratum_check C1PRO_MIDR (mkRv 1 1) (mkRv 1 2)) [Return].
Definition Erratum3619847 : ErratumEntry :=
  mkErratum 3619847 ErratumReset (implement_erratum_check C1PRO_MIDR (mkRv 0 0) (mkRv 1 0))
    (set_bits "s3_0_c15_c1_1" (Z.shiftl 1 42) ++ [Return]).
Definition Erratum3686597 : ErratumEntry :=
  mkErratum 3686597 ErratumRuntime (implement_erratum_check C1PRO_MIDR (mkRv 0 0) (mkRv 1 1))
    (set_bits "s3_0_c15_c1_4" (Z.shiftl 1 57) ++ [DsbSy; Return]).
Definition Erratum3694158 : ErratumEntry :=
  mkErratum 3694158 ErratumReset (implement_erratum_check C1PRO_MIDR (mkRv 0 0) (mkRv 1 2)) [
    MovI 0 5;
    Msr "s3_6_c15_c8_0" 0;
    Isb;
    MovI 0 0xd503329f;
    Msr "s3_6_c15_c8_2" 0;
    MovI 0 0xfffff3ff;
    Msr "s3_6_c15_c8_3" 0;
    MovI 0 (Z.lor (Z.lor (Z.shiftl 1 0) (Z.shiftl 3 4)) (Z.shiftl 0xf 6));
    OrrI 0 0 (Z.shiftl 1 22);
    OrrI 0 0 (Z.shiftl 1 32);
    Msr "s3_6_c15_c8_1" 0;
    Isb;
    Return].
Definition Erratum3684268 : ErratumEntry :=
  mkErratum 3684268 ErratumReset (implement_erratum_check C1PRO_MIDR (mkRv 0 0) (mkRv 1 1))
    (set_bits "s3_0_c15_c1_5" (Z.shiftl 1 49) ++ [DsbSy; Return]).
Definition Erratum3706576 : ErratumEntry :=
  mkErratum 3706576 ErratumReset (implement_erratum_check C1PRO_MIDR (mkRv 0 0) (mkRv 1 1))
    (set_bits "s3_0_c15_c1_1" (Z.shiftl 1 37) ++ [Return]).

Definition Erratum3658374 : ErratumEntry :=
  mkErratum 3658374 ErratumRuntime (implement_erratum_check C1ULTRA_MIDR (mkRv 0 0) NOT_FIXED) [Return].
Definition Erratum3705939 : ErratumEntry :=
  mkErratum 3705939 ErratumReset (implement_erratum_check C1ULTRA_MIDR (mkRv 0 0) NOT_FIXED)
    (set_bits "s3_0_c15_c1_0" (Z.shiftl 1 48) ++ [Return]).
Definition Erratum3815514 : ErratumEntry :=
  mkErratum 3815514 ErratumReset (implement_erratum_check C1ULTRA_MIDR (mkRv 0 0) NOT_FIXED)
    (set_bits "s3_0_c15_c8_0" (Z.shiftl 1 13) ++ [Return]).
Definition Erratum3865171 : ErratumEntry :=
  mkErratum 3865171 ErratumReset (implement_erratum_check C1ULTRA_MIDR (mkRv 0 0) NOT_FIXED)
    (set_bits "s3_0_c15_c1_1" (Z.shiftl 1 22) ++ [Return]).
Definition Erratum3926381 : ErratumEntry :=
  mkErratum 3926381 ErratumReset (implement_erratum_check C1ULTRA_MIDR (mkRv 1 0) NOT_FIXED) [
    MovI 0 0x0;
    Msr "s3_6_c15_c8_0" 0;
    MovI 0 0xD503205f;
    Msr "s3_6_c15_c8_2" 0;
    MovI 0 0xFFFFFFDF;
    Msr "s3_6_c15_c8_3" 0;
    MovI 0 0x1000002043ff;
    Msr "s3_6_c15_c8_1" 0;
    MovI 0 0x1;
    Msr "s3_6_c15_c8_0" 0;
    MovI 0 0xD5031000;
    Msr "s3_6_c15_c8_2" 0;
    MovI 0 0xFFFFFFC0;
    Msr "s3_6_c15_c8_3" 0;
    MovI 0 0x1000002043ff;
    Msr "s3_6_c15_c8_1" 0;
    Isb;
    Return].
Definition Erratum4102704 : ErratumEntry :=
  mkErratum 4102704 ErratumReset (implement_erratum_check C1ULTRA_MIDR (mkRv 0 0) NOT_FIXED)
    (set_bits "s3_0_c15_c1_3" (Z.shiftl 1 23) ++ [Return]).

(** [DsuErratum3396010], of the unit that is shared by the CPUs of a cluster. *)
Definition DsuErratum3396010 : ErratumEntry :=
  mkErratum 3396010 ErratumReset
    [MovI 0 0;
     Mrs 1 "s3_0_c15_c3_1";
     Ubfx 1 1 0 (4 + 4);
     MovI 2 (Z.shiftl 0x0 0);
     CmpR 1 2;
     Bc CHi 7;
     MovI 0 1;
     (* 1: *)
     Return]
    [Mrs 0 "s3_0_c15_c3_3";
     OrrI 0 0 (Z.shiftl 3 15);
     Msr "s3_0_c15_c3_3" 0;
     Return].

(** [C1Pro] and [C1Ultra] *)
Definition c1pro_power_down : M CpuState unit :=
  _ ← power_down_enable;
  b ← (λ s, Ret (c_sysregs s) s);
  if call_check Erratum3686597 b then call_asm (workaround Erratum3686597) else mret tt.
Definition C1Pro : CpuOps :=
  from_cpu C1PRO_MIDR c1_reset_handler (c1_dump_registers "C1_PRO_REGS") c1pro_power_down c1pro_power_down power_down_abandon.
Definition C1Ultra : CpuOps :=
  from_cpu C1ULTRA_MIDR c1_reset_handler (c1_dump_registers "C1_ULTRA_REGS") power_down_enable power_down_enable power_down_abandon.
End C1.

(** ** The AEM of the FVP
    It flushes its caches line by line.  The identification of the caches is that of
    the [arm_sysregs] crate; what [CCSIDR_EL1] reads depends on what [CSSELR_EL1]
    selects. *)
Inductive CacheType : Type :=
| NoCache | InstructionOnly | DataOnly | SeparateInstructionAndData | Unified.
Global Instance CacheType_eq_dec : EqDecision CacheType.
Proof. solve_decision. Defined.

Class CacheRegs := {
  CacheLevel : Type;
  cache_level_new : Z → CacheLevel;
  level_into_u64 : CacheLevel → Z;
  csselr_new : bool → CacheLevel → bool → Z;
  csselr_empty : Z;
  cache_type : Z → CacheLevel → CacheType;
  has_64_bit_ccsidr_el1 : Z → bool;
  ccsidr_linesize : Z → Z;
  (** The hardware: [CCSIDR_EL1] of a selection. *)
  ccsidr_of : Z → Z;
}.

Record CacheSize : Type := mkCacheSize { num_sets : Z; associativity : Z; line_size_log : Z }.

(** [u32::leading_zeros] and [<<] on [u32], which panics if all bits are shifted out. *)
Definition leading_zeros (x : Z) : Z := if x =? 0 then 32 else 31 - Z.log2 x.
Definition shl_u32 (x n : Z) : outcome Z := if n <? 32 then Done (as_u32 (Z.shiftl x n)) else Panic.

(** [(0..=last).step_by(step)] *)
Definition steps_to (last step : Z) : list Z :=
  (λ k, Z.of_nat k * step) <$> seq 0 (S (Z.to_nat (last / step))).

Fixpoint for_each {S A} (f : A → M S unit) (l : list A) : M S unit :=
  match l with
  | [] => mret tt
  | x :: l => _ ← f x; for_each f l
  end.

Section Aem.
Context `{CacheRegs}.

Definition read_cache_size (level : CacheLevel) : M CpuState CacheSize :=
  _ ← write_sysreg "csselr_el1" (csselr_new false level false);
  _ ← event EvIsb;
  sel ← read_sysreg "csselr_el1";
  let ccsidr := ccsidr_of sel in
  mmfr2 ← read_sysreg "id_aa64mmfr2_el1";
  let '(num_sets, associativity) :=
    if has_64_bit_ccsidr_el1 mmfr2
    then (as_u32 (Z.land (Z.shiftr ccsidr 32) 0x00ffffff), as_u32 (Z.land (Z.shiftr ccsidr 3) 0x001fffff))
    else (as_u32 (Z.land (Z.shiftr ccsidr 13) 0x00007fff), as_u32 (Z.land (Z.shiftr ccsidr 3) 0x000003ff)) in
  mret (mkCacheSize num_sets associativity (ccsidr_linesize ccsidr)).

(** One level of [flush_cache_levels]. *)
Definition flush_cache_level (clidr_el1 level_num : Z) : M CpuState unit :=
  let level := cache_level_new level_num in
  if bool_decide (cache_type clidr_el1 level = NoCache ∨ cache_type clidr_el1 level = InstructionOnly)
  then mret tt
  else
    cache_size ← read_cache_size level;
    let assoc_shift := leading_zeros (associativity cache_size) in
    ways_aligned ← lift (shl_u32 (associativity cache_size) assoc_shift);
    let way_step := Z.shiftl 1 assoc_shift in
    let line_length := Z.shiftl 1 (line_size_log cache_size + 4) in
    max_set_num ← lift (shl_u32 (num_sets cache_size) (line_size_log cache_size + 4));
    _ ← event EvDsb;
    for_each (λ way,
      let value := Z.lor (Z.shiftl (level_into_u64 level) 1) way in
      for_each (λ set, event (EvDcCisw (Z.lor value set))) (steps_to max_set_num line_length))
      (steps_to ways_aligned way_step).

Definition flush_cache_levels (levels : list Z) : M CpuState unit :=
  clidr_el1 ← read_sysreg "clidr_el1";
  _ ← for_each (flush_cache_level clidr_el1) levels;
  _ ← write_sysreg "csselr_el1" csselr_empty;
  _ ← event EvDsb;
  event EvIsb.

Definition aem_power_down_level0 : M CpuState unit :=
  _ ← flush_cache_levels [1];
  clidr_el1 ← read_sysreg "clidr_el1";
  if decide (cache_type clidr_el1 (cache_level_new 3) ≠ NoCache) then flush_cache_levels [2] else mret tt.
Definition aem_power_down_level1 : M CpuState unit := flush_cache_levels [1; 2; 3].

Definition AemGeneric : CpuOps :=
  from_cpu 0x410fd0f0 [Return] [Return] aem_power_down_level0 aem_power_down_level1 unexpected_wake_up.
End Aem.

(** [CPU_OPS] of the platforms. *)
Definition QEMU_CPU_OPS : list CpuOps := [QemuMax].
Definition FVP_CPU_OPS `{CacheRegs} : list CpuOps := [AemGeneric].
