(* ===== verification/ErrataProps.v ===== *)
(** * The properties of the errata framework

    The check of an erratum, and the errata that are worked around at reset. *)

From Stdlib Require Import ZArith Lia.
From stdpp Require Import base list numbers option functions strings sets.
From S2P Require Import Prelude Smccc Services Context Asm AsmProps Cpu.
Open Scope rust_scope.
Open Scope string_scope.
Open Scope list_scope.
Open Scope Z_scope.

(** The layout of [MIDR_EL1] in the architecture. *)
Class MidrLaws `{MidrLayout} : Prop := {
  midr_implementer : IMPLEMENTER_MASK = 0xff ∧ IMPLEMENTER_SHIFT = 24;
  midr_variant : VARIANT_MASK = 0xf ∧ VARIANT_SHIFT = 20;
  midr_partnum : PARTNUM_MASK = 0xfff ∧ PARTNUM_SHIFT = 4;
  midr_revision : REVISION_MASK = 0xf;
}.

Section Check.
Context `{MidrLayout}.

(** The revision and variant of a CPU, as the check compares them. *)
Definition rv_code (midr : Z) : Z :=
  insert_bits (bits midr VARIANT_SHIFT VARIANT_LEN) midr VARIANT_LEN REVISION_LEN.
Definition affected (m : Z) (apply_from fixed_in : RevisionVariant) (midr : Z) : bool :=
  (Z.land midr midr_mask =? Z.land m midr_mask) &&
  (signed64 (rv_const apply_from) <=? signed64 (rv_code midr)) &&
  (signed64 (rv_code midr) <? signed64 (rv_const fixed_in)).

Lemma check_run env m apply_from fixed_in s :
  ∃ s', run_asm env (implement_erratum_check m apply_from fixed_in) s = Returned s' ∧
    xr 0 s' = Z.b2z (affected m apply_from fixed_in (c_sysregs s "midr_el1")) ∧
    c_sysregs s' = c_sysregs s ∧ c_trace s' = c_trace s ∧ c_mem s' = c_mem s ∧ only_clobbers [0; 1; 2; 3; 4]%nat s s'.
Proof.
  unfold run_asm, implement_erratum_check. cbn [length].
  do 7 asm_step. cbn [c_cmp set_cmp holds]. unfold affected. fold (rv_code (c_sysregs s "midr_el1")).
  destruct (Z.land (c_sysregs s "midr_el1") midr_mask =? Z.land m midr_mask); cbn [negb andb].
  - do 5 asm_step. cbn [c_cmp set_cmp holds]. fold (rv_code (c_sysregs s "midr_el1")).
    rewrite Z.leb_antisym. destruct (_ <? _); cbn [negb andb].
    + do 2 asm_step. eexists. split; [reflexivity|]. regs_simpl. do 4 (split; [done|]). clobbers.
    + do 3 asm_step. cbn [c_cmp set_cmp holds]. rewrite Z.leb_antisym. destruct (_ <? _); cbn [negb].
      all: do 2 asm_step; eexists; (split; [reflexivity|]); regs_simpl; do 4 (split; [done|]); clobbers.
  - do 2 asm_step. eexists. split; [reflexivity|]. regs_simpl. do 4 (split; [done|]). clobbers.
Qed.

(** The fields of [MIDR_EL1]. *)
Definition midr_field (midr shift len : Z) : Z := (midr / 2 ^ shift) mod 2 ^ len.
Definition same_cpu (a b : Z) : Prop :=
  midr_field a 24 8 = midr_field b 24 8 ∧ midr_field a 4 12 = midr_field b 4 12.
Definition rv_of (midr : Z) : RevisionVariant := mkRv (midr_field midr 0 4) (midr_field midr 20 4).
(** The order that is derived for [RevisionVariant]. *)
Definition rv_lt (a b : RevisionVariant) : Prop :=
  revision a < revision b ∨ revision a = revision b ∧ variant a < variant b.
Definition rv_le (a b : RevisionVariant) : Prop := rv_lt a b ∨ a = b.
Definition rv_ok (v : RevisionVariant) : Prop := 0 ≤ revision v < 16 ∧ 0 ≤ variant v < 16.

Lemma bits_field x lsb width : 0 ≤ lsb → 0 ≤ width → bits x lsb width = midr_field x lsb width.
Proof. intros. unfold bits, midr_field. by rewrite Z.land_ones, Z.shiftr_div_pow2. Qed.
Lemma land_field x lsb width :
  0 ≤ lsb → 0 ≤ width →
  Z.land x (Z.shiftl (Z.ones width) lsb) = midr_field x lsb width * 2 ^ lsb.
Proof.
  intros Hl Hw. rewrite <-bits_field, <-Z.shiftl_mul_pow2 by done. unfold bits.
  apply Z.bits_inj'. intros i Hi. rewrite Z.land_spec.
  destruct (decide (i < lsb)); [rewrite !Z.shiftl_spec_low by lia; apply andb_false_r|].
  rewrite !Z.shiftl_spec, Z.land_spec, Z.shiftr_spec by lia. f_equal. f_equal. lia.
Qed.

Context `{!MidrLaws}.
Lemma midr_lens : VARIANT_LEN = 4 ∧ REVISION_LEN = 4 ∧ VARIANT_SHIFT = 20.
Proof.
  unfold VARIANT_LEN, REVISION_LEN. destruct midr_variant as [-> ->]. by rewrite midr_revision.
Qed.
Lemma midr_mask_eq : midr_mask = Z.lor (Z.shiftl (Z.ones 8) 24) (Z.shiftl (Z.ones 12) 4).
Proof. unfold midr_mask. destruct midr_implementer as [-> ->], midr_partnum as [-> ->]. done. Qed.

Lemma land_midr_mask x : Z.land x midr_mask = midr_field x 24 8 * 2 ^ 24 + midr_field x 4 12 * 2 ^ 4.
Proof.
  rewrite midr_mask_eq, Z.land_lor_distr_r, !land_field by done. apply lor_disjoint.
  rewrite <-!land_field by done. rewrite Z.land_assoc, <-(Z.land_assoc _ _ x), (Z.land_comm _ x).
  rewrite !Z.land_assoc, Z.land_diag, <-Z.land_assoc. apply Z.land_0_r.
Qed.
Lemma same_cpu_mask a b : Z.land a midr_mask = Z.land b midr_mask ↔ same_cpu a b.
Proof.
  rewrite !land_midr_mask. unfold same_cpu, midr_field.
  pose proof (Z.mod_pos_bound (a / 2 ^ 4) (2 ^ 12)). pose proof (Z.mod_pos_bound (b / 2 ^ 4) (2 ^ 12)). lia.
Qed.

Lemma low_disjoint a f n : 0 ≤ n → 0 ≤ f < 2 ^ n → Z.land f (Z.shiftl a n) = 0.
Proof.
  intros Hn Hf. rewrite <-(Z.mod_small f (2 ^ n)), <-Z.land_ones by done. rewrite <-Z.land_assoc.
  rewrite (Z.land_comm (Z.ones n)), Z.land_ones, Z.shiftl_mul_pow2, Z_mod_mult by done. apply Z.land_0_r.
Qed.
Lemma field_bound x shift len : 0 ≤ len → 0 ≤ midr_field x shift len < 2 ^ len.
Proof. intros. apply Z.mod_pos_bound. by apply Z.pow_pos_nonneg. Qed.
Lemma rv_of_ok x : rv_ok (rv_of x).
Proof. split; by apply (field_bound x). Qed.

Lemma rv_code_eq x : rv_code x = rv_const (rv_of x).
Proof.
  unfold rv_code, rv_const, rv_of, insert_bits. destruct midr_lens as (-> & -> & ->).
  cbn [revision variant]. rewrite bits_field by done. rewrite Z.lor_comm. f_equal.
  - f_equal. rewrite Z.land_ones by done. unfold midr_field. by rewrite Z.div_1_r.
  - rewrite Z.ldiff_land. apply Z.bits_inj'. intros i Hi. rewrite Z.land_spec, Z.lnot_spec by done.
    pose proof (f_equal (λ z, Z.testbit z i) (low_disjoint (Z.ones 4) (midr_field x 20 4) 4 ltac:(done)
      (field_bound x 20 4 ltac:(done)))) as Hd. cbv beta in Hd. rewrite Z.land_spec, Z.bits_0 in Hd.
    by destruct (Z.testbit (midr_field x 20 4) i), (Z.testbit (Z.shiftl (Z.ones 4) 4) i).
Qed.
Lemma rv_const_eq v : rv_ok v → rv_const v = 16 * revision v + variant v.
Proof.
  intros [Hr Hv]. unfold rv_const. destruct midr_lens as (-> & _ & _).
  rewrite lor_disjoint; [rewrite Z.shiftl_mul_pow2; lia|]. rewrite Z.land_comm. by apply low_disjoint.
Qed.

Definition fixed_ok (v : RevisionVariant) : Prop := rv_ok v ∨ v = NOT_FIXED.
Lemma rv_const_lt a b : rv_ok a → fixed_ok b → rv_const a < rv_const b ↔ rv_lt a b.
Proof.
  intros Ha [Hb| ->]; rewrite (rv_const_eq a Ha).
  - rewrite rv_const_eq by done. destruct Ha, Hb. unfold rv_lt. lia.
  - unfold rv_const, NOT_FIXED, rv_lt. destruct midr_lens as (-> & _ & _). destruct Ha. cbn [revision variant].
    change (Z.lor (Z.shiftl 255 4) 255) with 4095. lia.
Qed.
Lemma rv_const_bound v : fixed_ok v → signed64 (rv_const v) = rv_const v.
Proof.
  intros Hv. unfold signed64. rewrite (proj2 (Z.ltb_lt _ _)); [done|]. destruct Hv as [Hv| ->].
  - rewrite rv_const_eq by done. destruct Hv. lia.
  - unfold rv_const, NOT_FIXED. by destruct midr_lens as (-> & _ & _).
Qed.

Lemma affected_spec m apply_from fixed_in x :
  rv_ok apply_from → fixed_ok fixed_in →
  affected m apply_from fixed_in x = true ↔
    same_cpu x m ∧ rv_le apply_from (rv_of x) ∧ rv_lt (rv_of x) fixed_in.
Proof.
  intros Ha Hf. pose proof (rv_of_ok x) as Hx. unfold affected.
  rewrite !andb_true_iff, Z.eqb_eq, Z.leb_le, Z.ltb_lt, same_cpu_mask, rv_code_eq.
  rewrite !rv_const_bound by (done || by left). rewrite rv_const_lt by done.
  assert (rv_const apply_from ≤ rv_const (rv_of x) ↔ rv_le apply_from (rv_of x)) as ->; [|tauto].
  unfold rv_le. rewrite <-rv_const_lt by (done || by left). rewrite !rv_const_eq by done.
  destruct apply_from as [r v], (rv_of x) as [r' v'], Ha, Hx. cbn [revision variant] in *.
  split; [intros|intros [?|[= -> ->]]; lia].
  destruct (decide (16 * r + v < 16 * r' + v')); [by left|]. right. f_equal; lia.
Qed.

(** C20: the check that [implement_erratum_check!] generates returns one exactly if the
    CPU has the implementer and the part number of the erratum and its revision and
    variant are in the half-open range that is affected, in the order that is derived
    for [RevisionVariant]; an erratum that is not fixed has no upper end.  The check
    leaves the system registers alone and uses only the registers it may. *)
Theorem erratum_check_spec env m apply_from fixed_in s :
  rv_ok apply_from → fixed_ok fixed_in →
  let x := c_sysregs s "midr_el1" in
  ∃ s', run_asm env (implement_erratum_check m apply_from fixed_in) s = Returned s' ∧
    (xr 0 s' = 1 ∧ same_cpu x m ∧ rv_le apply_from (rv_of x) ∧ rv_lt (rv_of x) fixed_in ∨
     xr 0 s' = 0 ∧ ¬ (same_cpu x m ∧ rv_le apply_from (rv_of x) ∧ rv_lt (rv_of x) fixed_in)) ∧
    c_sysregs s' = c_sysregs s ∧ c_trace s' = c_trace s ∧ only_clobbers [0; 1; 2; 3; 4]%nat s s'.
Proof.
  intros Ha Hf x. destruct (check_run env m apply_from fixed_in s) as (s' & Hr & Hx0 & Hb & Ht & _ & Hc).
  fold x in Hx0. exists s'. split; [done|]. split; [|done]. rewrite <-(affected_spec m) by done.
  rewrite Hx0. destruct (affected m apply_from fixed_in x); [by left|by right].
Qed.
End Check.

(** ** The errata at reset *)

(** What the framework asks of an erratum: a check returns an answer that depends on
    the system registers only, and changes at most [x0] to [x4]; the workaround
    changes at most [x0] to [x7] besides the system registers. *)
Definition erratum_ok (e : ErratumEntry) : Prop :=
  (∀ s, ∃ s', run_asm no_env (check e) s = Returned s' ∧ xr 0 s' = Z.b2z (call_check e (c_sysregs s)) ∧
     c_sysregs s' = c_sysregs s ∧ c_trace s' = c_trace s ∧ c_mem s' = c_mem s ∧ only_clobbers (seq 0 5) s s') ∧
  asm_ok (seq 0 8) (workaround e).

(** The errata of a list that are worked around at reset, one after the other. *)
Definition reset_errata (l : list ErratumEntry) (bt : Bank * list CpuEvent) : Bank * list CpuEvent :=
  foldl (λ bt e, match apply_on e with
                 | ErratumReset => if call_check e bt.1 then asm_effect (workaround e) bt else bt
                 | ErratumRuntime => bt
                 end) bt l.

Section Reset.
(** Where the list of errata and the functions of the errata are. *)
Context (env : Env) (errata_list : Z) (errata : list ErratumEntry).
Context (check_at workaround_at : nat → Z).

(** The entries in memory. *)
Definition entries_in_memory : Prop := ∀ i e, errata !! i = Some e →
  let a := errata_list + ERRATUM_ENTRY_SIZE * Z.of_nat i in
  e_load env 4 (a + APPLY_ON_OFFSET) = erratum_type_as_u32 (apply_on e) ∧
  e_load env 8 (a + CHECK_OFFSET) = check_at i ∧ e_load env 8 (a + WORKAROUND_OFFSET) = workaround_at i ∧
  e_code env (check_at i) = run_asm no_env (check e) ∧
  e_code env (workaround_at i) = run_asm no_env (workaround e).

Context (Hmem : entries_in_memory) (Hok : Forall erratum_ok errata).
Let n := Z.of_nat (length errata).
Context (Haddr : 0 ≤ errata_list ∧ errata_list + ERRATUM_ENTRY_SIZE * n < 2 ^ 64).
Let prog := apply_reset_errata errata_list n.

(** The registers of the loop. *)
Record at_entry (i : nat) (s : CpuState) : Prop := {
  at_x9 : xr 9 s = errata_list + ERRATUM_ENTRY_SIZE * Z.of_nat i;
  at_x10 : xr 10 s = errata_list + ERRATUM_ENTRY_SIZE * n;
}.
Definition loop_clobbers : list nat := seq 0 8 ++ [9; 10; 11; 30]%nat.

Lemma at_entry_clobbers i l s s' :
  at_entry i s → only_clobbers l s s' → 9%nat ∉ l → 10%nat ∉ l → at_entry i s'.
Proof. intros [H9 H10] Hc ? ?. split; [by rewrite (Hc 9%nat)|by rewrite (Hc 10%nat)]. Qed.

(** The end of an entry. *)
Lemma reset_next i s0 s k :
  (i < length errata)%nat → at_entry i s → only_clobbers loop_clobbers s0 s →
  ∃ s', exec (2 + k) env prog 13 s = exec k env prog 3 s' ∧ at_entry (S i) s' ∧
    (c_sysregs s', c_trace s') = (c_sysregs s, c_trace s) ∧ c_mem s' = c_mem s ∧ only_clobbers loop_clobbers s0 s'.
Proof.
  intros Hi [H9 H10] Hc. unfold prog, apply_reset_errata. cbn [Nat.add]. do 2 asm_step. rewrite H9.
  rewrite Z.mod_small by (unfold ERRATUM_ENTRY_SIZE in *; lia).
  eexists. split; [reflexivity|]. split; [|split; [by regs_simpl|split; [by regs_simpl|]]].
  - split; regs_simpl; [unfold ERRATUM_ENTRY_SIZE; lia|done].
  - apply clobbers_set_x; [unfold loop_clobbers; set_solver|done].
Qed.

(** An erratum of the reset type. *)
Lemma reset_apply i e s s1 k :
  errata !! i = Some e → at_entry i s1 → only_clobbers loop_clobbers s s1 →
  let bt := (c_sysregs s1, c_trace s1) in
  ∃ s' j, exec (7 + k) env prog 8 s1 = exec (j + k) env prog 3 s' ∧
    (c_sysregs s', c_trace s') = (if call_check e (c_sysregs s1) then asm_effect (workaround e) bt else bt) ∧ c_mem s' = c_mem s1 ∧
    at_entry (S i) s' ∧ only_clobbers loop_clobbers s s'.
Proof.
  intros Hi Hat1 Hc1 bt. destruct (Hmem i e Hi) as (_ & Mc & Mw & Cc & Cw).
  pose proof (proj1 (Forall_lookup _ _) Hok i e Hi) as [Hcheck Hwork].
  pose proof (lookup_lt_Some _ _ _ Hi) as Hlt. unfold bt.
  change (7 + k)%nat with (S (S (S (4 + k)))).
  asm_step_in prog apply_reset_errata. rewrite (at_x9 _ _ Hat1), Mc. asm_step_in prog apply_reset_errata. rewrite Cc.
  set (s2 := set_x 30 _ _). destruct (Hcheck s2) as (s3 & -> & H0 & Hb3 & Ht3 & Hm3 & Hc3).
  rewrite (Hc3 30%nat) by set_solver. unfold s2 at 1. rewrite xr_set_x_eq, Z.eqb_refl by done.
  assert (c_sysregs s2 = c_sysregs s1 ∧ c_trace s2 = c_trace s1 ∧ c_mem s2 = c_mem s1) as (Hb2 & Ht2 & Hm2) by (unfold s2; by regs_simpl).
  assert (only_clobbers loop_clobbers s s3) as Hcs3.
  { eapply clobbers_trans; [|exact Hc3|unfold loop_clobbers; set_solver].
    unfold s2, loop_clobbers. do 2 (apply clobbers_set_x; [set_solver|]). exact Hc1. }
  assert (at_entry i s3) as Hat3.
  { eapply at_entry_clobbers; [|exact Hc3|set_solver..]. unfold s2. destruct Hat1. split; by regs_simpl. }
  asm_step_in prog apply_reset_errata. rewrite H0, Hb2. rewrite Hb2 in Hb3. rewrite Ht2 in Ht3. rewrite Hm2 in Hm3.
  clear s2 Hb2 Ht2 Hm2 H0 Hc3. destruct (call_check e (c_sysregs s1)); cbn [Z.b2z Z.eqb]; cycle 1.
  { change (4 + k)%nat with (2 + (2 + k))%nat.
    destruct (reset_next i s s3 (2 + k) Hlt Hat3 Hcs3) as (s' & -> & Hat' & Hbt & Hm' & Hc').
    exists s', 2%nat. by rewrite Hbt, Hb3, Ht3, Hm'. }
  change (4 + k)%nat with (S (S (2 + k))).
  asm_step_in prog apply_reset_errata. rewrite (at_x9 _ _ Hat3), Mw. asm_step_in prog apply_reset_errata. rewrite Cw.
  set (s4 := set_x 30 _ _). destruct (Hwork s4) as (s5 & -> & Hbt5 & Hm5 & Hc5).
  rewrite (Hc5 30%nat) by set_solver. unfold s4 at 1. rewrite xr_set_x_eq, Z.eqb_refl by done.
  destruct (reset_next i s s5 k Hlt) as (s' & -> & Hat' & Hbt & Hm' & Hc').
  { eapply at_entry_clobbers; [|exact Hc5|set_solver..]. unfold s4. destruct Hat3. split; by regs_simpl. }
  { eapply clobbers_trans; [|exact Hc5|unfold loop_clobbers; set_solver].
    unfold s4, loop_clobbers. do 2 (apply clobbers_set_x; [set_solver|]). exact Hcs3. }
  exists s', 0%nat. split; [done|]. rewrite Hm', Hm5, Hbt, Hbt5. unfold s4. regs_simpl. by rewrite Hb3, Ht3.
Qed.

(** One entry. *)
Lemma reset_entry i e s k :
  errata !! i = Some e → at_entry i s →
  ∃ s' j, exec (12 + k) env prog 3 s = exec (j + k) env prog 3 s' ∧
    (c_sysregs s', c_trace s') = reset_errata [e] (c_sysregs s, c_trace s) ∧ c_mem s' = c_mem s ∧
    at_entry (S i) s' ∧ only_clobbers loop_clobbers s s'.
Proof.
  intros Hi Hat. pose proof Hat as [H9 H10]. destruct (Hmem i e Hi) as (Mon & _).
  pose proof (lookup_lt_Some _ _ _ Hi) as Hlt.
  change (12 + k)%nat with (S (S (S (S (S (7 + k)))))). cbn [reset_errata foldl fst].
  do 2 asm_step_in prog apply_reset_errata. cbn [c_cmp set_cmp holds]. rewrite H9, H10.
  rewrite (proj2 (Z.eqb_neq _ _)) by (unfold ERRATUM_ENTRY_SIZE; lia).
  do 3 asm_step_in prog apply_reset_errata. rewrite ?H9, Mon. cbn [c_cmp set_cmp holds].
  set (s1 := set_cmp _ _ _). assert (only_clobbers loop_clobbers s s1) as Hc1 by (unfold s1, loop_clobbers; clobbers).
  assert (at_entry i s1) as Hat1 by (unfold s1; split; by regs_simpl).
  assert (c_sysregs s1 = c_sysregs s ∧ c_trace s1 = c_trace s ∧ c_mem s1 = c_mem s) as (Hb1 & Ht1 & Hm1)
    by (by unfold s1; cbn [set_cmp c_sysregs c_trace c_mem]; regs_simpl).
  clearbody s1. destruct (apply_on e); cbn [erratum_type_as_u32 negb]; cycle 1.
  { change (if negb (as_u32 1 =? 0) then 13%nat else 8%nat) with 13%nat. change (7 + k)%nat with (2 + (5 + k))%nat.
    destruct (reset_next i s s1 (5 + k) Hlt Hat1 Hc1) as (s' & -> & Hat' & Hbt & Hm' & Hc').
    exists s', 5%nat. by rewrite Hbt, Hb1, Ht1, Hm'. }
  change (if negb (as_u32 0 =? 0) then 13%nat else 8%nat) with 8%nat.
  destruct (reset_apply i e s s1 k Hi Hat1 Hc1) as (s' & j & Hr & Hbt & Hm' & Hat' & Hc').
  exists s', j. by rewrite Hbt, Hb1, Ht1, Hm'.
Qed.

(** The loop. *)
Lemma reset_loop rest don s k :
  errata = don ++ rest → at_entry (length don) s →
  ∃ s', exec (12 * length rest + 4 + k) env prog 3 s = Returned s' ∧
    (c_sysregs s', c_trace s') = reset_errata rest (c_sysregs s, c_trace s) ∧ c_mem s' = c_mem s ∧
    xr 30 s' = xr 8 s ∧ only_clobbers loop_clobbers s s'.
Proof.
  revert don s k. induction rest as [|e rest IH]; intros don s k Hd Hat.
  - replace (12 * length (@nil ErratumEntry) + 4 + k)%nat with (S (S (S (S k)))) by (cbn [length]; lia). destruct Hat as [H9 H10].
    do 2 asm_step_in prog apply_reset_errata. cbn [c_cmp set_cmp holds]. rewrite H9, H10.
    rewrite app_nil_r in Hd. subst don. fold n. rewrite Z.eqb_refl.
    do 2 asm_step_in prog apply_reset_errata. eexists. split; [done|]. regs_simpl.
    do 3 (split; [done|]). unfold loop_clobbers. clobbers.
  - replace (12 * length (e :: rest) + 4 + k)%nat with (12 + (12 * length rest + 4 + k))%nat by (cbn [length]; lia).
    destruct (reset_entry (length don) e s (12 * length rest + 4 + k)) as (s1 & j & -> & Hbt & Hm1 & Hat1 & Hc1).
    { by rewrite Hd, list_lookup_middle. } { done. }
    replace (j + (12 * length rest + 4 + k))%nat with (12 * length rest + 4 + (k + j))%nat by lia.
    destruct (IH (don ++ [e]) s1 (k + j)%nat) as (s' & Hr & Hbt' & Hm' & H30 & Hc').
    { by rewrite Hd, <-app_assoc. } { by rewrite length_app, Nat.add_comm. }
    exists s'. split; [done|]. split; [rewrite Hbt', Hbt; done|]. split; [congruence|].
    split; [rewrite H30; apply Hc1; unfold loop_clobbers; set_solver|].
    eapply clobbers_trans; [exact Hc1|exact Hc'|done].
Qed.

Lemma apply_reset_errata_run s fuel :
  (12 * length errata + 7 ≤ fuel)%nat →
  ∃ s', exec fuel env prog 0 s = Returned s' ∧
    (c_sysregs s', c_trace s') = reset_errata errata (c_sysregs s, c_trace s) ∧ c_mem s' = c_mem s ∧
    xr 30 s' = xr 30 s ∧ only_clobbers (seq 0 12) s s'.
Proof.
  intros Hfuel. replace fuel with (S (S (S (12 * length errata + 4 + (fuel - (12 * length errata + 7)))))) by lia.
  do 3 asm_step_in prog apply_reset_errata. set (s1 := set_x 10 _ _).
  destruct (reset_loop errata [] s1 (fuel - (12 * length errata + 7))) as (s' & -> & Hbt & Hm & H30 & Hc); [done| |].
  { unfold s1. split; regs_simpl; [cbn [length]; lia|done]. }
  exists s'. split; [done|]. split; [rewrite Hbt; unfold s1; by regs_simpl|].
  split; [rewrite Hm; unfold s1; by regs_simpl|].
  assert (xr 30 s' = xr 30 s) as H30' by (rewrite H30; unfold s1; by regs_simpl).
  split; [done|]. intros r Hr. destruct (decide (r = 30%nat)) as [->|Hne]; [done|].
  rewrite Hc; [|unfold loop_clobbers; set_solver]. unfold s1. rewrite !xr_set_x_ne; set_solver.
Qed.

(** C19: [apply_reset_errata], which runs in assembly before there is a stack, returns
    to its caller and has worked around exactly the errata of the list that are to
    be applied at reset and whose check holds when it is their turn, in the order of
    the list; it uses only the registers it may, whatever the checks and workarounds
    do to theirs. *)
Theorem reset_errata_applied s fuel :
  (12 * length errata + 7 ≤ fuel)%nat →
  ∃ s', exec fuel env prog 0 s = Returned s' ∧
    (c_sysregs s', c_trace s') = reset_errata errata (c_sysregs s, c_trace s) ∧
    xr 30 s' = xr 30 s ∧ only_clobbers (seq 0 12) s s'.
Proof.
  intros Hfuel. destruct (apply_reset_errata_run s fuel Hfuel) as (s' & Hr & Hbt & _ & Hrest). by exists s'.
Qed.
End Reset.

(** ** The errata of the CPUs *)
Section CpuErrata.
Context `{MidrLayout}.

Lemma check_ok id t m apply_from fixed_in w :
  asm_ok (seq 0 8) w → erratum_ok (mkErratum id t (implement_erratum_check m apply_from fixed_in) w).
Proof.
  intros Hw. split; [|done]. intros s. cbn [check].
  destruct (check_run no_env m apply_from fixed_in s) as (s' & Hr & Hx0 & Hrest).
  exists s'. split; [done|]. split; [|done]. rewrite Hx0. unfold call_check. cbn [check].
  destruct (check_run no_env m apply_from fixed_in (fresh_cpu (c_sysregs s) []))
    as (s1 & -> & -> & _). cbn [c_sysregs]. by destruct (affected _ _ _ _).
Qed.

Definition C1_ERRATA : list ErratumEntry :=
  [Erratum3300099; Erratum3773617; Erratum3619847; Erratum3686597; Erratum3694158; Erratum3684268;
   Erratum3706576; Erratum3658374; Erratum3705939; Erratum3815514; Erratum3865171; Erratum3926381;
   Erratum4102704; DsuErratum3396010].

Lemma dsu_erratum_ok : erratum_ok DsuErratum3396010.
Proof.
  assert (∀ s, ∃ s', run_asm no_env (check DsuErratum3396010) s = Returned s' ∧
    xr 0 s' = Z.b2z (negb (0 <? bits (c_sysregs s "s3_0_c15_c3_1") 0 8)) ∧
    c_sysregs s' = c_sysregs s ∧ c_trace s' = c_trace s ∧ c_mem s' = c_mem s ∧ only_clobbers (seq 0 5) s s') as Hc.
  { intros s. unfold run_asm. cbn [length check DsuErratum3396010]. do 6 asm_step. cbn [c_cmp set_cmp holds].
    change (Z.shiftl 0 0) with 0. change (4 + 4) with 8. destruct (0 <? _); cbn [negb Z.b2z].
    all: repeat asm_step; eexists; (split; [reflexivity|]); regs_simpl; do 4 (split; [done|]); clobbers. }
  split; [|by apply straight_ok]. intros s. destruct (Hc s) as (s' & Hr & Hx0 & Hrest). exists s'. split; [done|].
  split; [|done]. rewrite Hx0. unfold call_check.
  destruct (Hc (fresh_cpu (c_sysregs s) [])) as (s1 & -> & -> & _). cbn [c_sysregs].
  by destruct (0 <? _).
Qed.

Lemma c1_errata_ok : Forall erratum_ok C1_ERRATA.
Proof.
  repeat (apply List.Forall_cons; [first [apply dsu_erratum_ok | by apply check_ok, straight_ok]|]).
  exact (List.Forall_nil _).
Qed.
End CpuErrata.
