(* ===== verification/CpuProps.v ===== *)
(** * The properties of the CPU operations

    The operations of a CPU are found by assembly as they are by the Rust code, and
    the caches of the AEM are flushed line by line. *)

From Stdlib Require Import ZArith Lia.
From stdpp Require Import base list numbers option functions strings sets.
From S2P Require Import Prelude Smccc Services Context Asm AsmProps Cpu ErrataProps.
Open Scope rust_scope.
Open Scope string_scope.
Open Scope list_scope.
Open Scope Z_scope.

(** ** The lookup of the operations *)
Lemma land_mask_u32 m : as_u32 (Z.land m MIDR_MASK) = Z.land m MIDR_MASK.
Proof.
  unfold as_u32. rewrite <-Z.land_ones, <-Z.land_assoc by done. f_equal.
Qed.

(** The Rust version, as a search. *)
Lemma cpu_reset_handler_eq ops s :
  cpu_reset_handler ops s =
    match List.find (λ i, has_matching_midr i (c_sysregs s "midr_el1")) ops with
    | Some op => match run_asm no_env (reset_handler op) s with Returned s' => Ret tt s' | _ => Crash end
    | None => Crash
    end.
Proof.
  unfold cpu_reset_handler, find_cpu_ops, read_sysreg, mbind, M_bind. by destruct (List.find _ ops).
Qed.

Section Ops.
Context (env : Env) (cpu_ops cpu_ops_size midr_offset : Z) (ops : list CpuOps).
Let n := Z.of_nat (length ops).
Let prog := get_cpu_ops cpu_ops cpu_ops_size n midr_offset.
(** The search calls nothing. *)
Let genv := mkEnv (e_load env) (λ _ _, Stuck) (λ _ _, Stuck) 0 (λ _, 0) (λ x, x) (λ _ _, 0).
Definition ops_addr (i : nat) : Z := cpu_ops + cpu_ops_size * Z.of_nat i.

Record ops_table : Prop := {
  mem_entry i op : ops !! i = Some op → e_load env 4 (ops_addr i + midr_offset) = as_u32 (midr op);
  (** The list is not empty, not at address zero, and does not wrap around. *)
  mem_addr : 0 < cpu_ops ∧ 0 < cpu_ops_size ∧ ops_addr (length ops) < 2 ^ 64;
  mem_midr : Forall (λ op, Z.land (midr op) MIDR_MASK = midr op) ops;
  mem_get s : e_sym env "get_cpu_ops" s = exec (7 * length ops + 10) genv prog 0 s;
}.
Context (Hmem : ops_table).

(** The result of the search: the address of an entry, or zero. *)
Definition found (m : Z) (rest : list CpuOps) (x0 : Z) : Prop :=
  match List.find (λ i, has_matching_midr i m) rest with
  | Some op => ∃ i, ops !! i = Some op ∧ x0 = ops_addr i
  | None => x0 = 0
  end.

Lemma get_loop m rest don s k :
  ops = don ++ rest → xr 0 s = ops_addr (length don) → xr 3 s = ops_addr (length ops) →
  xr 2 s = Z.land m MIDR_MASK →
  ∃ s', exec (7 * length rest + 4 + k) genv prog 6 s = Returned s' ∧ found m rest (xr 0 s') ∧
    c_sysregs s' = c_sysregs s ∧ c_trace s' = c_trace s ∧ c_mem s' = c_mem s ∧ only_clobbers [0; 1]%nat s s'.
Proof.
  destruct (mem_addr Hmem) as (Ha1 & Ha2 & Ha3). unfold ops_addr in Ha3.
  revert don s k. induction rest as [|op rest IH]; intros don s k Hd H0 H3 H2.
  - replace (7 * length (@nil CpuOps) + 4 + k)%nat with (S (S (S (S k)))) by (cbn [length]; lia).
    rewrite app_nil_r in Hd. subst don.
    do 2 asm_step_in prog get_cpu_ops. cbn [c_cmp set_cmp holds]. rewrite H0, H3, Z.eqb_refl.
    do 2 asm_step_in prog get_cpu_ops. eexists. split; [done|]. unfold found. cbn [List.find]. regs_simpl.
    do 4 (split; [done|]). clobbers.
  - assert (ops !! length don = Some op) as Hi by (by rewrite Hd, list_lookup_middle).
    pose proof (mem_entry Hmem _ _ Hi) as Mm. pose proof (lookup_lt_Some _ _ _ Hi) as Hlt.
    pose proof (proj1 (Forall_lookup _ _) (mem_midr Hmem) _ _ Hi) as Hmask. cbv beta in Hmask.
    replace (7 * length (op :: rest) + 4 + k)%nat with (S (S (S (S (S (2 + (7 * length rest + 4 + k)))))))
      by (cbn [length]; lia).
    do 2 asm_step_in prog get_cpu_ops. cbn [c_cmp set_cmp holds]. rewrite H0, H3.
    rewrite (proj2 (Z.eqb_neq _ _)) by (unfold ops_addr; nia).
    do 3 asm_step_in prog get_cpu_ops. cbn [c_cmp set_cmp holds]. cbn [e_load genv]. rewrite H0, H2, Mm, land_mask_u32.
    assert (as_u32 (as_u32 (midr op)) = midr op) as -> by (by rewrite <-Hmask, !land_mask_u32).
    set (s1 := set_cmp _ _ _). assert (only_clobbers [0; 1]%nat s s1) as Hc1 by (unfold s1; clobbers).
    assert (xr 0 s1 = ops_addr (length don) ∧ xr 2 s1 = Z.land m MIDR_MASK ∧ xr 3 s1 = ops_addr (length ops) ∧
      c_sysregs s1 = c_sysregs s ∧ c_trace s1 = c_trace s ∧ c_mem s1 = c_mem s) as (E0 & E2 & E3 & Eb & Et & Em).
    { unfold s1. cbn [set_cmp c_sysregs c_trace c_mem]. by regs_simpl. }
    clearbody s1. unfold found. cbn [List.find]. unfold has_matching_midr at 1.
    destruct (midr op =? Z.land m MIDR_MASK).
    + cbn [Nat.add]. asm_step_in prog get_cpu_ops. exists s1. split; [done|]. split; [|done]. by exists (length don).
    + cbn [Nat.add]. do 2 asm_step_in prog get_cpu_ops. rewrite E0.
      destruct (IH (don ++ [op]) (set_x 0 ((ops_addr (length don) + cpu_ops_size) mod 2 ^ 64) s1) k)
        as (s' & Hr & Hf & Hb & Ht & Hm & Hc); regs_simpl; try done.
      { by rewrite Hd, <-app_assoc. }
      { rewrite length_app, Z.mod_small by (unfold ops_addr; nia). unfold ops_addr. cbn [length]. lia. }
      exists s'. rewrite Hb, Ht, Hm. regs_simpl. do 5 (split; [done|]).
      eapply clobbers_trans; [|exact Hc|done]. apply clobbers_set_x; [set_solver|done].
Qed.

Lemma get_cpu_ops_run s :
  ∃ s', e_sym env "get_cpu_ops" s = Returned s' ∧ found (c_sysregs s "midr_el1") ops (xr 0 s') ∧
    c_sysregs s' = c_sysregs s ∧ c_trace s' = c_trace s ∧ c_mem s' = c_mem s ∧ only_clobbers [0; 1; 2; 3]%nat s s'.
Proof.
  rewrite (mem_get Hmem). replace (7 * length ops + 10)%nat with (S (S (S (S (S (S (7 * length ops + 4 + 0))))))) by lia.
  do 6 asm_step_in prog get_cpu_ops. set (s1 := set_x 3 _ _).
  destruct (get_loop (c_sysregs s "midr_el1") ops [] s1 0) as (s' & -> & Hf & Hb & Ht & Hm & Hc); [done|..].
  - unfold s1. regs_simpl. unfold ops_addr. cbn [length]. lia.
  - unfold s1. by regs_simpl.
  - unfold s1. regs_simpl. change (insert_bits _ _ 16 16) with MIDR_MASK. apply land_mask_u32.
  - exists s'. split; [done|]. split; [done|]. rewrite Hb, Ht, Hm. unfold s1. regs_simpl. do 3 (split; [done|]).
    eapply clobbers_trans; [|exact Hc|set_solver]. unfold s1. clobbers.
Qed.

(** Both functions that look the operations up start in the same way. *)
Lemma lookup_run off s :
  let run prog := run_asm env (MovR 4 30 :: Bl "get_cpu_ops" :: MovR 30 4 :: Cbz 0 6 :: LdrX 1 0 off :: prog) s in
  ∃ s1, c_sysregs s1 = c_sysregs s ∧ c_trace s1 = c_trace s ∧ c_mem s1 = c_mem s ∧ only_clobbers (seq 0 5) s s1 ∧
  match List.find (λ i, has_matching_midr i (c_sysregs s "midr_el1")) ops with
  | Some op => ∃ i, ops !! i = Some op ∧ ∀ e, run [Br 1; e] = e_code env (e_load env 8 (ops_addr i + off)) s1
  | None => run [Br 1; Return] = Returned s1 ∧ ∀ f, run [Br 1; BSym f] = e_sym env f s1
  end.
Proof.
  intros run. set (s1 := set_x 30 (e_base env + 4 * Z.of_nat 2) (set_x 4 (xr 30 s) s)).
  destruct (get_cpu_ops_run s1) as (s2 & Hget & Hf & Hb & Ht & Hm & Hc).
  assert (c_sysregs s1 = c_sysregs s ∧ c_trace s1 = c_trace s ∧ c_mem s1 = c_mem s) as (Eb & Et & Em) by (unfold s1; by regs_simpl).
  assert (only_clobbers (30%nat :: seq 0 5) s s2) as Hc2.
  { eapply clobbers_trans; [|exact Hc|set_solver]. unfold s1. clobbers. }
  assert (xr 4 s2 = xr 30 s) as H4 by (rewrite (Hc 4%nat) by set_solver; unfold s1; by regs_simpl).
  assert (xr 30 s2 = e_base env + 4 * Z.of_nat 2) as H30 by (rewrite (Hc 30%nat) by set_solver; unfold s1; by regs_simpl).
  set (s3 := set_x 30 (xr 30 s) s2).
  assert (∀ prog, run prog = exec (2 + length prog) env (MovR 4 30 :: Bl "get_cpu_ops" :: MovR 30 4 :: Cbz 0 6 :: LdrX 1 0 off :: prog) 3 s3) as Hrun.
  { intros p. unfold run, run_asm. cbn [length Nat.add]. do 2 asm_step. fold s1. rewrite Hget, H30, Z.eqb_refl. asm_step. by rewrite H4. }
  assert (c_sysregs s3 = c_sysregs s ∧ c_trace s3 = c_trace s ∧ c_mem s3 = c_mem s) as (Eb3 & Et3 & Em3).
  { unfold s3. rewrite set_x_sysregs, set_x_trace, set_x_mem. by rewrite Hb, Ht, Hm. }
  assert (xr 0 s3 = xr 0 s2 ∧ only_clobbers (seq 0 5) s s3) as [E0 Hc3].
  { unfold s3. split; [by regs_simpl|]. intros r Hr. destruct (decide (r = 30%nat)) as [->|]; [by rewrite xr_set_x_eq|].
    rewrite xr_set_x_ne by done. apply Hc2. set_solver. }
  clearbody s3. rewrite Eb in Hf. unfold found in Hf. destruct (mem_addr Hmem) as (Ha & Hs & _). clear Hc Hc2 Hb Ht Hm Eb Et Em.
  destruct (List.find _ ops) as [op|] eqn:Hfind.
  - destruct Hf as (i & Hi & Hx). exists (set_x 1 (e_load env 8 (ops_addr i + off)) s3).
    rewrite set_x_sysregs, set_x_trace, set_x_mem. do 3 (split; [done|]). split; [by apply clobbers_set_x; [set_solver|]|].
    exists i. split; [done|]. intros e. rewrite Hrun. cbn [length Nat.add]. asm_step. rewrite E0, Hx.
    rewrite (proj2 (Z.eqb_neq _ _)) by (unfold ops_addr; nia). do 2 asm_step. by rewrite E0, Hx.
  - exists s3. do 4 (split; [done|]). split; [|intros f]; rewrite Hrun; cbn [length Nat.add]; asm_step; rewrite E0, Hf, Z.eqb_refl; by asm_step.
Qed.

Section Reset.
Context (reset_handler_offset : Z) (reset_at : nat → Z).
Record ops_in_memory : Prop := {
  mem_reset i op : ops !! i = Some op →
    e_load env 8 (ops_addr i + reset_handler_offset) = reset_at i ∧ e_code env (reset_at i) = run_asm no_env (reset_handler op);
  mem_panic s : e_sym env "el3_panic" s = Panicked;
}.
Context (Hreset : ops_in_memory).
Lemma cpu_reset_handler_run s :
  Forall (λ op, asm_ok (seq 0 19) (reset_handler op)) ops →
  match cpu_reset_handler ops s with
  | Ret _ s' => ∃ s1, run_asm env (cpu_reset_handler_asm reset_handler_offset) s = Returned s1 ∧
      c_sysregs s1 = c_sysregs s' ∧ c_trace s1 = c_trace s' ∧ c_mem s1 = c_mem s ∧ only_clobbers (seq 0 19) s s1
  | Halt _ => False
  | Crash => run_asm env (cpu_reset_handler_asm reset_handler_offset) s = Panicked
  end.
Proof.
  intros Hok. destruct (lookup_run reset_handler_offset s) as (s1 & Hb & Ht & Hm & Hc & Hf). rewrite cpu_reset_handler_eq.
  unfold cpu_reset_handler_asm. destruct (List.find _ ops) as [op|].
  - destruct Hf as (i & Hi & ->). destruct (mem_reset Hreset i op Hi) as [-> ->].
    pose proof (proj1 (Forall_lookup _ _) Hok i op Hi) as Hop. cbv beta in Hop.
    destruct (Hop s) as (s' & -> & Hbt & _). destruct (Hop s1) as (s4 & -> & Hbt' & Hm4 & Hc4).
    rewrite Hb, Ht, <-Hbt in Hbt'. injection Hbt' as ? ?. exists s4. do 3 (split; [done|]). split; [congruence|].
    intros r Hr. rewrite (Hc4 r) by done. apply Hc. rewrite elem_of_seq in *. lia.
  - destruct Hf as [_ ->]. apply (mem_panic Hreset).
Qed.

(** C21: [cpu_reset_handler] in assembly agrees with the Rust version that is used in
    tests: it runs the reset handler of the first CPU in the list that has the
    implementer and the part number of this core, with the same effect on the system
    registers, returns to its caller with [x19] and above as they were, and panics exactly
    if there is none. *)
Theorem cpu_reset_handler_agrees s :
  Forall (λ op, asm_ok (seq 0 19) (reset_handler op)) ops →
  match cpu_reset_handler ops s with
  | Ret _ s' => ∃ s1, run_asm env (cpu_reset_handler_asm reset_handler_offset) s = Returned s1 ∧
      c_sysregs s1 = c_sysregs s' ∧ c_trace s1 = c_trace s' ∧ only_clobbers (seq 0 19) s s1
  | Halt _ => False
  | Crash => run_asm env (cpu_reset_handler_asm reset_handler_offset) s = Panicked
  end.
Proof.
  intros Hok. pose proof (cpu_reset_handler_run s Hok) as Hrun. destruct (cpu_reset_handler ops s) as [? s'| |]; [|done..].
  destruct Hrun as (s1 & Hr & Hb & Ht & _ & Hc). by exists s1.
Qed.
End Reset.

(** [cpu_dump_registers] goes on with the function of the CPU, or returns if there is none. *)
Lemma cpu_dump_run dump_registers_offset (dump_at : nat → Z) s :
  (∀ i op, ops !! i = Some op → e_load env 8 (ops_addr i + dump_registers_offset) = dump_at i ∧
     e_code env (dump_at i) = run_asm env (dump_registers op)) →
  ∃ s1, c_sysregs s1 = c_sysregs s ∧ c_trace s1 = c_trace s ∧ c_mem s1 = c_mem s ∧ only_clobbers (seq 0 5) s s1 ∧
    run_asm env (cpu_dump_registers_asm dump_registers_offset) s =
      match List.find (λ i, has_matching_midr i (c_sysregs s "midr_el1")) ops with
      | Some op => run_asm env (dump_registers op) s1
      | None => Returned s1
      end.
Proof.
  intros Hdump. destruct (lookup_run dump_registers_offset s) as (s1 & Hb & Ht & Hm & Hc & Hf). exists s1. do 4 (split; [done|]).
  destruct (List.find _ ops) as [op|]; [|apply Hf]. destruct Hf as (i & Hi & Hrun). destruct (Hdump i op Hi) as [Hl Hcode].
  unfold cpu_dump_registers_asm. by rewrite Hrun, Hl, Hcode.
Qed.
End Ops.

(** ** The caches of the AEM *)
Lemma steps_to_mul q step : 0 < step → steps_to (Z.of_nat q * step) step = (λ k, Z.of_nat k * step) <$> seq 0 (S q).
Proof. intros. unfold steps_to. by rewrite Z.div_mul, Nat2Z.id by lia. Qed.

Lemma for_each_events {A} (f : A → list CpuEvent) (g : A → M CpuState unit) l s :
  (∀ x s, x ∈ l → g x s = Ret tt (mkCpu (c_xs s) (c_cmp s) (c_sysregs s) (c_trace s ++ f x) (c_mem s))) →
  for_each g l s = Ret tt (mkCpu (c_xs s) (c_cmp s) (c_sysregs s) (c_trace s ++ (l ≫= f)) (c_mem s)).
Proof.
  revert s. induction l as [|x l IH]; intros s Hg; [simpl; rewrite app_nil_r; by destruct s|].
  cbn [for_each]. unfold mbind at 1, M_bind. rewrite Hg by set_solver.
  rewrite IH by (intros; apply Hg; set_solver). cbn [c_xs c_cmp c_sysregs c_trace c_mem].
  by rewrite bind_cons, app_assoc.
Qed.

(** The operand of [dc cisw] for a line, and the line of an operand: the way is in the
    upper bits, the set above the offset in the line, the level in bits 1 to 3. *)
Definition line_operand (shift offset level : Z) (way_set : nat * nat) : Z :=
  Z.lor (Z.lor (Z.shiftl level 1) (Z.of_nat way_set.1 * 2 ^ shift)) (Z.of_nat way_set.2 * 2 ^ offset).
Definition decode_operand (shift offset op : Z) : Z * nat * nat :=
  ((op / 2) mod 8, Z.to_nat (op / 2 ^ shift), Z.to_nat ((op / 2 ^ offset) mod 2 ^ (shift - offset))).

Lemma lor_low f a n : 0 ≤ n → 0 ≤ f < 2 ^ n → Z.lor f (a * 2 ^ n) = f + a * 2 ^ n.
Proof. intros Hn Hf. apply lor_disjoint. rewrite <-Z.shiftl_mul_pow2 by done. by apply low_disjoint. Qed.

Lemma line_operand_eq shift offset level way set :
  4 ≤ offset ≤ shift → 0 ≤ level < 8 → Z.of_nat set < 2 ^ (shift - offset) →
  line_operand shift offset level (way, set) =
    level * 2 + Z.of_nat set * 2 ^ offset + Z.of_nat way * 2 ^ shift ∧
  16 ≤ 2 ^ offset ∧ 2 ^ shift = 2 ^ (shift - offset) * 2 ^ offset ∧
  0 ≤ level * 2 + Z.of_nat set * 2 ^ offset < 2 ^ shift.
Proof.
  intros Ho Hl Hs. unfold line_operand. cbn [fst snd]. rewrite Z.shiftl_mul_pow2 by lia. change (2 ^ 1) with 2.
  assert (2 ^ shift = 2 ^ (shift - offset) * 2 ^ offset) as Hsh by (rewrite <-Z.pow_add_r by lia; f_equal; lia).
  assert (16 ≤ 2 ^ offset) as H16 by (change 16 with (2 ^ 4); apply Z.pow_le_mono_r; lia).
  assert (0 ≤ level * 2 + Z.of_nat set * 2 ^ offset < 2 ^ shift) as Hlow by nia.
  rewrite (Z.lor_comm (level * 2)), <-Z.lor_assoc, (lor_low (level * 2)), Z.lor_comm by lia.
  rewrite lor_low by lia. done.
Qed.
Lemma decode_line shift offset level way set :
  4 ≤ offset ≤ shift → 0 ≤ level < 8 → Z.of_nat set < 2 ^ (shift - offset) →
  decode_operand shift offset (line_operand shift offset level (way, set)) = (level, way, set).
Proof.
  intros Ho Hl Hs. destruct (line_operand_eq shift offset level way set Ho Hl Hs) as (-> & H16 & Hsh & Hlow).
  assert (∃ q, 2 ^ offset = 16 * q ∧ 0 < q) as (q & Hq & Hq0).
  { exists (2 ^ (offset - 4)). split; [|apply Z.pow_pos_nonneg; lia]. change 16 with (2 ^ 4).
    rewrite <-Z.pow_add_r by lia. f_equal. lia. }
  set (p := 2 ^ (shift - offset)) in *. unfold decode_operand. f_equal; [f_equal|].
  - replace (_ + _) with ((level + (Z.of_nat set + Z.of_nat way * p) * q * 8) * 2) by (rewrite Hsh, Hq; lia).
    rewrite Z.div_mul, Z.mod_add, Z.mod_small by lia. done.
  - rewrite Z.div_add, Z.div_small by lia. lia.
  - replace (_ + _) with (level * 2 + (Z.of_nat set + Z.of_nat way * p) * 2 ^ offset) by (rewrite Hsh; lia).
    rewrite Z.div_add, (Z.div_small (level * 2)) by lia. fold p.
    rewrite Z.add_0_l, Z.mod_add, Z.mod_small by lia. lia.
Qed.

(** What is relied on of the [arm_sysregs] crate: levels are numbered from one, and the
    size of a line has three bits. *)
Class CacheLaws `{CacheRegs} : Prop := {
  level_number n : 1 ≤ n ≤ 7 → level_into_u64 (cache_level_new n) = n - 1;
  linesize_bound c : 0 ≤ ccsidr_linesize c < 8;
}.

Section Flush.
Context `{CacheRegs} `{!CacheLaws}.

(** The size of the cache of a level, and whether it holds data. *)
Definition geometry (b : Bank) (n : Z) : CacheSize :=
  let ccsidr := ccsidr_of (csselr_new false (cache_level_new n) false) in
  let '(sets, ways) :=
    if has_64_bit_ccsidr_el1 (b "id_aa64mmfr2_el1")
    then (Z.land (Z.shiftr ccsidr 32) 0x00ffffff, Z.land (Z.shiftr ccsidr 3) 0x001fffff)
    else (Z.land (Z.shiftr ccsidr 13) 0x00007fff, Z.land (Z.shiftr ccsidr 3) 0x000003ff) in
  mkCacheSize sets ways (ccsidr_linesize ccsidr).
Definition holds_data (b : Bank) (n : Z) : bool :=
  match cache_type (b "clidr_el1") (cache_level_new n) with
  | NoCache | InstructionOnly => false
  | _ => true
  end.

Definition way_shift (g : CacheSize) : Z := leading_zeros (associativity g).
Definition set_shift (g : CacheSize) : Z := line_size_log g + 4.
(** More than one way, and the way and the set fit into the operand side by side. *)
Definition fits (g : CacheSize) : Prop :=
  1 ≤ associativity g ∧ num_sets g < 2 ^ (way_shift g - set_shift g).
(** The lines of a cache, way by way. *)
Definition cache_lines (g : CacheSize) : list (nat * nat) :=
  way ← seq 0 (S (Z.to_nat (associativity g)));
  set ← seq 0 (S (Z.to_nat (num_sets g)));
  [(way, set)].

Lemma land_bound x n : 0 ≤ n → 0 ≤ Z.land x (Z.ones n) < 2 ^ n.
Proof. intros. rewrite Z.land_ones by done. apply Z.mod_pos_bound. by apply Z.pow_pos_nonneg. Qed.
Lemma geometry_bounds b n :
  0 ≤ num_sets (geometry b n) < 2 ^ 24 ∧ 0 ≤ associativity (geometry b n) < 2 ^ 21 ∧
  0 ≤ line_size_log (geometry b n) < 8.
Proof.
  unfold geometry. set (c := ccsidr_of _). pose proof (linesize_bound c).
  pose proof (land_bound (Z.shiftr c 32) 24). pose proof (land_bound (Z.shiftr c 3) 21).
  pose proof (land_bound (Z.shiftr c 13) 15). pose proof (land_bound (Z.shiftr c 3) 10).
  change (Z.ones 24) with 0x00ffffff in *. change (Z.ones 21) with 0x001fffff in *.
  change (Z.ones 15) with 0x00007fff in *. change (Z.ones 10) with 0x000003ff in *.
  destruct (has_64_bit_ccsidr_el1 _); cbn [num_sets associativity line_size_log]; lia.
Qed.

Lemma read_cache_size_run n s :
  read_cache_size (cache_level_new n) s =
    Ret (geometry (c_sysregs s) n)
      (emit EvIsb (set_sysreg "csselr_el1" (csselr_new false (cache_level_new n) false) s)).
Proof.
  unfold read_cache_size, geometry, write_sysreg, read_sysreg, event, mbind, M_bind, mret, M_ret.
  cbn [c_sysregs set_sysreg emit]. rewrite fn_lookup_insert, fn_lookup_insert_ne by done.
  set (c := ccsidr_of _).
  assert (∀ x k, (k =? 24) || (k =? 21) || (k =? 15) || (k =? 10) = true →
    as_u32 (Z.land x (Z.ones k)) = Z.land x (Z.ones k)) as Hu.
  { intros x k Hk. apply Z.mod_small. assert (0 ≤ k ≤ 24) as Hk' by lia. pose proof (land_bound x k).
    assert (2 ^ k ≤ 2 ^ 24) by (apply Z.pow_le_mono_r; lia). lia. }
  pose proof (Hu (Z.shiftr c 32) 24 eq_refl). pose proof (Hu (Z.shiftr c 3) 21 eq_refl).
  pose proof (Hu (Z.shiftr c 13) 15 eq_refl). pose proof (Hu (Z.shiftr c 3) 10 eq_refl).
  change (Z.ones 24) with 0x00ffffff in *. change (Z.ones 21) with 0x001fffff in *.
  change (Z.ones 15) with 0x00007fff in *. change (Z.ones 10) with 0x000003ff in *.
  destruct (has_64_bit_ccsidr_el1 _); congruence.
Qed.

Lemma way_shift_bound g : 1 ≤ associativity g < 2 ^ 21 → 0 ≤ way_shift g < 32 ∧ associativity g * 2 ^ way_shift g < 2 ^ 32.
Proof.
  intros Ha. unfold way_shift, leading_zeros. rewrite (proj2 (Z.eqb_neq _ _)) by lia.
  destruct (Z.log2_spec (associativity g)) as [_ Hl]; [lia|]. pose proof (Z.log2_nonneg (associativity g)).
  assert (Z.log2 (associativity g) < 21) by (apply Z.log2_lt_pow2; lia).
  split; [lia|]. apply (Z.lt_le_trans _ (2 ^ Z.succ (Z.log2 (associativity g)) * 2 ^ (31 - Z.log2 (associativity g)))).
  - apply Z.mul_lt_mono_pos_r; [apply Z.pow_pos_nonneg; lia|done].
  - rewrite <-Z.pow_add_r by lia. apply Z.pow_le_mono_r; lia.
Qed.

(** The events of the flush of a level. *)
Definition flush_events (b : Bank) (n : Z) : list CpuEvent :=
  if holds_data b n then
    let g := geometry b n in
    [EvIsb; EvDsb] ++ (EvDcCisw <$> (line_operand (way_shift g) (set_shift g) (n - 1) <$> cache_lines g))
  else [].

Lemma bind_single {A B} (f : A → B) l : (l ≫= λ x, [f x]) = f <$> l.
Proof. induction l as [|x l IH]; [done|]. by rewrite bind_cons, IH. Qed.

Lemma flush_order shift offset level ways sets :
  (((λ k, Z.of_nat k * 2 ^ shift) <$> ways) ≫= λ way,
     (λ set, EvDcCisw (Z.lor (Z.lor (Z.shiftl level 1) way) set)) <$> ((λ k, Z.of_nat k * 2 ^ offset) <$> sets)) =
  EvDcCisw <$> (line_operand shift offset level <$> (way ← ways; set ← sets; [(way, set)])).
Proof.
  induction ways as [|w ways IH]; [done|]. rewrite fmap_cons, !bind_cons, !fmap_app, IH. f_equal.
  by rewrite bind_single, <-!list_fmap_compose.
Qed.

Lemma holds_data_spec b n :
  bool_decide (cache_type (b "clidr_el1") (cache_level_new n) = NoCache ∨
               cache_type (b "clidr_el1") (cache_level_new n) = InstructionOnly) = negb (holds_data b n).
Proof.
  unfold holds_data. destruct (cache_type _ _); cbn [negb];
    (apply bool_decide_true; by auto) || (apply bool_decide_false; naive_solver).
Qed.

Lemma fits_bounds b n :
  let g := geometry b n in
  fits g → set_shift g ≤ way_shift g < 32 ∧ 4 ≤ set_shift g ∧
    shl_u32 (associativity g) (way_shift g) = Done (associativity g * 2 ^ way_shift g) ∧
    shl_u32 (num_sets g) (set_shift g) = Done (num_sets g * 2 ^ set_shift g).
Proof.
  intros g [Ha Hs]. destruct (geometry_bounds b n) as (B1 & B2 & B3). fold g in B1, B2, B3.
  destruct (way_shift_bound g) as [Hw Hw32]; [lia|]. unfold set_shift in *.
  destruct (decide (way_shift g < line_size_log g + 4)) as [Hlt|Hge].
  { rewrite Z.pow_neg_r in Hs by lia. lia. }
  split; [lia|]. split; [lia|]. unfold shl_u32. rewrite !(proj2 (Z.ltb_lt _ _)) by lia.
  rewrite !Z.shiftl_mul_pow2 by lia. unfold as_u32.
  rewrite !Z.mod_small; [done| |nia]. split; [nia|].
  apply (Z.lt_le_trans _ (2 ^ (way_shift g - (line_size_log g + 4)) * 2 ^ (line_size_log g + 4))); [nia|].
  rewrite <-Z.pow_add_r by lia. apply Z.pow_le_mono_r; lia.
Qed.

Lemma flush_level_run n s :
  1 ≤ n ≤ 7 → (holds_data (c_sysregs s) n = true → fits (geometry (c_sysregs s) n)) →
  ∃ s', flush_cache_level (c_sysregs s "clidr_el1") n s = Ret tt s' ∧
    c_trace s' = c_trace s ++ flush_events (c_sysregs s) n ∧
    (∀ r, r ≠ "csselr_el1" → c_sysregs s' r = c_sysregs s r).
Proof.
  intros Hn Hfit. unfold flush_cache_level, flush_events. rewrite holds_data_spec.
  destruct (holds_data _ _); cbn [negb]; [|exists s; by rewrite app_nil_r].
  specialize (Hfit eq_refl). unfold mbind at 1, M_bind. rewrite read_cache_size_run.
  destruct (fits_bounds _ _ Hfit) as (Hws & Hs4 & HW & HS). set (g := geometry _ _) in *.
  destruct (geometry_bounds (c_sysregs s) n) as (B1 & B2 & B3). fold g in B1, B2, B3.
  unfold mbind at 1, M_bind. fold (way_shift g). rewrite HW. cbn [lift].
  unfold mbind at 1, M_bind. fold (set_shift g). rewrite HS. cbn [lift].
  unfold mbind at 1, M_bind. unfold event at 1. rewrite level_number by lia.
  rewrite !Z.shiftl_1_l. rewrite <-(Z2Nat.id (associativity g)), <-(Z2Nat.id (num_sets g)) by lia.
  rewrite !steps_to_mul by (apply Z.pow_pos_nonneg; lia).
  rewrite (for_each_events (λ way, (λ set, EvDcCisw (Z.lor (Z.lor (Z.shiftl (n - 1) 1) way) set)) <$>
    ((λ k, Z.of_nat k * 2 ^ set_shift g) <$> seq 0 (S (Z.to_nat (num_sets g)))))).
  - eexists. split; [reflexivity|]. cbn [c_trace c_sysregs emit set_sysreg]. split.
    + rewrite (flush_order (way_shift g) (set_shift g)). by rewrite <-!app_assoc.
    + intros r Hr. by rewrite fn_lookup_insert_ne.
  - intros way s0 _. rewrite (for_each_events (λ set, [EvDcCisw (Z.lor (Z.lor (Z.shiftl (n - 1) 1) way) set)])) by done.
    by rewrite bind_single.
Qed.

(** Only two registers matter. *)
Definition same_caches (b b' : Bank) : Prop :=
  b' "clidr_el1" = b "clidr_el1" ∧ b' "id_aa64mmfr2_el1" = b "id_aa64mmfr2_el1".
Lemma flush_events_same b b' n :
  same_caches b b' → flush_events b' n = flush_events b n ∧ holds_data b' n = holds_data b n ∧
    geometry b' n = geometry b n.
Proof. intros [E1 E2]. unfold flush_events, holds_data, geometry. by rewrite E1, E2. Qed.

Definition levels_fit (b : Bank) (levels : list Z) : Prop :=
  Forall (λ n, 1 ≤ n ≤ 7 ∧ (holds_data b n = true → fits (geometry b n))) levels.

Lemma flush_loop b levels s :
  levels_fit b levels → same_caches b (c_sysregs s) →
  ∃ s', for_each (flush_cache_level (b "clidr_el1")) levels s = Ret tt s' ∧
    c_trace s' = c_trace s ++ (levels ≫= flush_events b) ∧ same_caches b (c_sysregs s').
Proof.
  intros Hf. revert s. induction Hf as [|n levels [Hn Hfit] _ IH]; intros s Hsame.
  { exists s. by rewrite app_nil_r. }
  destruct (flush_events_same _ _ n Hsame) as (E1 & E2 & E3).
  destruct (flush_level_run n s Hn) as (s1 & Hr & Ht & Hb); [by rewrite E2, E3|].
  cbn [for_each]. unfold mbind at 1, M_bind. rewrite <-(proj1 Hsame), Hr. rewrite (proj1 Hsame).
  destruct (IH s1) as (s' & -> & Ht' & Hsame'); [split; rewrite Hb by done; apply Hsame|].
  exists s'. split; [done|]. split; [|done]. by rewrite Ht', Ht, E1, bind_cons, app_assoc.
Qed.

Lemma flush_levels_run levels s :
  levels_fit (c_sysregs s) levels →
  ∃ s', flush_cache_levels levels s = Ret tt s' ∧
    c_trace s' = c_trace s ++ (levels ≫= flush_events (c_sysregs s)) ++ [EvDsb; EvIsb] ∧
    c_sysregs s' "csselr_el1" = csselr_empty ∧ same_caches (c_sysregs s) (c_sysregs s').
Proof.
  intros Hf. destruct (flush_loop _ levels s Hf) as (s1 & Hr & Ht & Hsame); [done|].
  unfold flush_cache_levels, read_sysreg. unfold mbind at 1 3, M_bind.
  unfold mbind at 1, M_bind. rewrite Hr. unfold write_sysreg, event, mbind, M_bind.
  eexists. split; [reflexivity|]. cbn [c_trace c_sysregs emit set_sysreg]. rewrite Ht, <-!app_assoc.
  split; [done|]. rewrite fn_lookup_insert. split; [done|].
  split; rewrite fn_lookup_insert_ne by done; apply Hsame.
Qed.

(** The lines that a sequence of events flushes. *)
Definition flushed (g : CacheSize) (l : list CpuEvent) : list (Z * nat * nat) :=
  omap (λ e, match e with EvDcCisw op => Some (decode_operand (way_shift g) (set_shift g) op) | _ => None end) l.

Lemma flushed_exact b n :
  1 ≤ n ≤ 7 → holds_data b n = true → fits (geometry b n) →
  flushed (geometry b n) (flush_events b n) = (λ '(way, set), (n - 1, way, set)) <$> cache_lines (geometry b n).
Proof.
  intros Hn Hd Hfit. unfold flush_events. rewrite Hd. set (g := geometry b n) in *.
  destruct (fits_bounds _ _ Hfit) as (Hws & Hs4 & _). fold g in Hws, Hs4.
  destruct (geometry_bounds b n) as (B1 & _). fold g in B1.
  assert (Forall (λ '(way, set), Z.of_nat set < 2 ^ (way_shift g - set_shift g)) (cache_lines g)) as Hall.
  { apply Forall_forall. intros [w q] Hwq. unfold cache_lines in Hwq.
    apply list_elem_of_bind in Hwq as (w' & Hwq & _). apply list_elem_of_bind in Hwq as (q' & Hwq & Hq).
    apply list_elem_of_singleton in Hwq as [= -> ->]. apply elem_of_seq in Hq. destruct Hfit as [_ Hs]. lia. }
  unfold flushed. cbn [app omap list_omap]. induction Hall as [|[w q] l Hq _ IH]; [done|].
  rewrite !fmap_cons. cbn [omap list_omap]. rewrite decode_line by (done || lia). by rewrite <-IH.
Qed.

Lemma cache_lines_spec g :
  NoDup (cache_lines g) ∧
  ∀ way set, (way, set) ∈ cache_lines g ↔ (way ≤ Z.to_nat (associativity g))%nat ∧ (set ≤ Z.to_nat (num_sets g))%nat.
Proof.
  unfold cache_lines. split.
  - apply NoDup_bind; [| |apply NoDup_seq].
    + intros w w' x _ _. rewrite !bind_single. intros (? & -> & _)%list_elem_of_fmap (? & [=] & _)%list_elem_of_fmap. done.
    + intros w _. rewrite bind_single. apply NoDup_fmap_2; [by intros ? ? [=]|apply NoDup_seq].
  - intros w q. setoid_rewrite list_elem_of_bind. setoid_rewrite bind_single. setoid_rewrite list_elem_of_fmap.
    setoid_rewrite elem_of_seq. split.
    + intros (w' & (q' & [= -> ->] & Hq) & Hw). lia.
    + intros [Hw Hq]. exists w. split; [exists q; split; [done|lia]|lia].
Qed.

(** The levels that are flushed when a core, or a cluster, loses power, and what is
    done for them. *)
Definition third_level (b : Bank) : bool := bool_decide (cache_type (b "clidr_el1") (cache_level_new 3) ≠ NoCache).
Definition levels_down (b : Bank) (level : nat) : list Z :=
  match level with O => 1 :: (if third_level b then [2] else []) | _ => [1; 2; 3] end.
Definition down_events (b : Bank) (level : nat) : list CpuEvent :=
  match level with
  | O => flush_events b 1 ++ [EvDsb; EvIsb] ++ (if third_level b then flush_events b 2 ++ [EvDsb; EvIsb] else [])
  | _ => flush_events b 1 ++ flush_events b 2 ++ flush_events b 3 ++ [EvDsb; EvIsb]
  end.
(** Every line of the cache of a level is flushed once, if it holds data. *)
Definition flushed_once (b : Bank) (n : Z) : Prop :=
  let g := geometry b n in
  if holds_data b n
  then ∃ lines, flushed g (flush_events b n) = ((λ '(way, set), (n - 1, way, set)) <$> lines) ∧ NoDup lines ∧
         ∀ way set, (way, set) ∈ lines ↔
           (way ≤ Z.to_nat (associativity g))%nat ∧ (set ≤ Z.to_nat (num_sets g))%nat
  else flush_events b n = [].

Lemma flush_events_once b n : 1 ≤ n ≤ 7 → (holds_data b n = true → fits (geometry b n)) → flushed_once b n.
Proof.
  intros Hn Hfit. unfold flushed_once. destruct (holds_data b n) eqn:Hd.
  - exists (cache_lines (geometry b n)). destruct (cache_lines_spec (geometry b n)) as [H1 H2].
    split; [by apply flushed_exact; [| |apply Hfit]|done].
  - unfold flush_events. by rewrite Hd.
Qed.

Lemma down_run level s :
  levels_fit (c_sysregs s) (levels_down (c_sysregs s) level) →
  ∃ s', (match level with O => aem_power_down_level0 | _ => aem_power_down_level1 end) s = Ret tt s' ∧
    c_trace s' = c_trace s ++ down_events (c_sysregs s) level ∧ c_sysregs s' "csselr_el1" = csselr_empty.
Proof.
  destruct level as [|level]; cbn [levels_down down_events]; intros Hfit.
  - apply Forall_cons_iff in Hfit as [H1 H2]. unfold aem_power_down_level0.
    destruct (flush_levels_run [1] s) as (s1 & Hr & Ht & Hcs & Hsame); [apply List.Forall_cons; [done|exact (List.Forall_nil _)]|].
    unfold mbind at 1, M_bind. rewrite Hr. unfold read_sysreg, mbind, M_bind.
    rewrite (proj1 Hsame). cbn in Ht. rewrite app_nil_r in Ht. case_decide as H3.
    + assert (third_level (c_sysregs s) = true) as H3' by (by apply bool_decide_true). rewrite H3' in H2 |- *. destruct (flush_events_same _ _ 2 Hsame) as (E & E2 & E3).
      destruct (flush_levels_run [2] s1) as (s2 & Hr2 & Ht2 & Hcs2 & _).
      { apply Forall_cons_iff in H2 as [H2 _]. apply List.Forall_cons; [|exact (List.Forall_nil _)].
        cbv beta in *. by rewrite E2, E3. }
      exists s2. split; [done|]. cbn in Ht2. rewrite app_nil_r, E in Ht2.
      split; [|done]. by rewrite Ht2, Ht, <-!app_assoc.
    + assert (third_level (c_sysregs s) = false) as -> by (apply bool_decide_false; tauto). exists s1. by rewrite app_nil_r.
  - destruct (flush_levels_run [1; 2; 3] s Hfit) as (s1 & Hr & Ht & Hcs & _). exists s1. split; [done|].
    split; [|done]. rewrite Ht. cbn. by rewrite app_nil_r, <-!app_assoc.
Qed.

(** C22: before an AEM core whose caches have more than one way each, and ways and sets
    that fit the operand of the maintenance instruction ([levels_fit]), loses power, every
    line of the data and unified caches that go down with it is cleaned and invalidated
    exactly once: the first level, the second one if there is a third one, and all three if
    the cluster goes down.  The selection of a cache is undone. *)
Theorem aem_power_down_flushes s level :
  Z.land (c_sysregs s "midr_el1") MIDR_MASK = 0x4100d0f0 →
  levels_fit (c_sysregs s) (levels_down (c_sysregs s) level) →
  ∃ s', cpu_power_down FVP_CPU_OPS level s = Ret tt s' ∧
    c_trace s' = c_trace s ++ down_events (c_sysregs s) level ∧
    Forall (flushed_once (c_sysregs s)) (levels_down (c_sysregs s) level) ∧
    c_sysregs s' "csselr_el1" = csselr_empty.
Proof.
  intros Hm Hfit. destruct (down_run level s Hfit) as (s' & Hr & Ht & Hcs). exists s'. split; [|split; [done|]].
  - unfold cpu_power_down, find_cpu_ops, read_sysreg, mbind, M_bind, FVP_CPU_OPS. cbn [List.find].
    unfold has_matching_midr. rewrite Hm. change (midr AemGeneric =? 0x4100d0f0) with true.
    by destruct level.
  - split; [|done]. apply (List.Forall_impl _ (λ n H, flush_events_once _ n (proj1 H) (proj2 H)) Hfit).
Qed.

(** A cache with a single way per set has associativity zero in its description, and
    the shift by its leading zeros overflows. *)
Theorem direct_mapped_cache_panics n s :
  holds_data (c_sysregs s) n = true → associativity (geometry (c_sysregs s) n) = 0 →
  flush_cache_level (c_sysregs s "clidr_el1") n s = Crash.
Proof.
  intros Hd Ha. unfold flush_cache_level. rewrite holds_data_spec, Hd. cbn [negb].
  unfold mbind at 1, M_bind. rewrite read_cache_size_run. unfold mbind at 1, M_bind. by rewrite Ha.
Qed.
End Flush.
