(* ===== verification/CpuSample.v ===== *)
(** * CPUs

    The layout of [MIDR_EL1] of the architecture, the errata of the C1 CPUs in memory,
    the operations of three CPUs in memory, and the caches of an AEM. *)

From Stdlib Require Import ZArith Lia.
From stdpp Require Import base list numbers option functions strings sets.
From S2P Require Import Prelude Smccc Services Context Asm AsmProps Cpu ErrataProps CpuProps.
Open Scope rust_scope.
Open Scope string_scope.
Open Scope list_scope.
Open Scope Z_scope.

#[export] Instance arm_midr : MidrLayout := {|
  IMPLEMENTER_MASK := 0xff; IMPLEMENTER_SHIFT := 24; VARIANT_MASK := 0xf; VARIANT_SHIFT := 20;
  PARTNUM_MASK := 0xfff; PARTNUM_SHIFT := 4; REVISION_MASK := 0xf |}.
#[export] Instance arm_midr_laws : MidrLaws.
Proof. by repeat split. Qed.

(** A C1-Pro of variant 0 and revision 1. *)
Definition c1pro_regs : Bank := <["midr_el1" := 0x410FD8B1]> (λ _, 0).
Definition cpu_at_reset (b : Bank) : CpuState := mkCpu (λ r, Z.of_nat r) (0, 0) b [] (λ _, 0).

Lemma erratum_check_spec_witness :
  let s := cpu_at_reset c1pro_regs in
  ∃ s', run_asm no_env (implement_erratum_check C1PRO_MIDR (mkRv 0 0) (mkRv 1 2)) s = Returned s' ∧
    (xr 0 s' = 1 ∧ same_cpu 0x410FD8B1 C1PRO_MIDR ∧ rv_le (mkRv 0 0) (rv_of 0x410FD8B1) ∧
       rv_lt (rv_of 0x410FD8B1) (mkRv 1 2) ∨
     xr 0 s' = 0 ∧ ¬ (same_cpu 0x410FD8B1 C1PRO_MIDR ∧ rv_le (mkRv 0 0) (rv_of 0x410FD8B1) ∧
       rv_lt (rv_of 0x410FD8B1) (mkRv 1 2))) ∧
    c_sysregs s' = c_sysregs s ∧ c_trace s' = c_trace s ∧ only_clobbers [0; 1; 2; 3; 4]%nat s s'.
Proof.
  apply (erratum_check_spec no_env C1PRO_MIDR (mkRv 0 0) (mkRv 1 2) (cpu_at_reset c1pro_regs)).
  - split; cbn; lia.
  - left. split; cbn; lia.
Defined.

(** The revision counts before the variant: an erratum that is fixed in revision 1 of
    variant 0 is not worked around there, but it is in revision 0 of all variants. *)
Lemma check_orders_by_revision :
  call_check Erratum3619847 (<["midr_el1" := 0x410FD8B1]> (λ _, 0)) = false ∧
  call_check Erratum3619847 (<["midr_el1" := 0x411FD8B0]> (λ _, 0)) = true.
Proof. by vm_compute. Qed.

(** ** Errata in memory *)
Definition errata_base : Z := 0x1000.
Definition check_addr (i : nat) : Z := 0x10000 + Z.of_nat i.
Definition workaround_addr (i : nat) : Z := 0x20000 + Z.of_nat i.
Definition errata_load (size a : Z) : Z :=
  let i := Z.to_nat ((a - errata_base) / ERRATUM_ENTRY_SIZE) in
  let off := (a - errata_base) mod ERRATUM_ENTRY_SIZE in
  if off =? CHECK_OFFSET then check_addr i
  else if off =? WORKAROUND_OFFSET then workaround_addr i
  else match C1_ERRATA !! i with Some e => erratum_type_as_u32 (apply_on e) | None => 0 end.
Definition errata_code (a : Z) : CpuState → Exit :=
  if a <? 0x20000 then
    match C1_ERRATA !! Z.to_nat (a - 0x10000) with Some e => run_asm no_env (check e) | None => λ _, Stuck end
  else
    match C1_ERRATA !! Z.to_nat (a - 0x20000) with Some e => run_asm no_env (workaround e) | None => λ _, Stuck end.
Definition errata_env : Env := mkEnv errata_load errata_code (λ _ _, Stuck) 0x8000 (λ _, 0) (λ x, x) (λ _ _, 0).

Lemma c1_errata_in_memory : entries_in_memory errata_env errata_base C1_ERRATA check_addr workaround_addr.
Proof.
  intros i e Hi. pose proof (lookup_lt_Some _ _ _ Hi) as Hlt. change (length C1_ERRATA) with 14%nat in Hlt.
  assert (∀ off, 0 ≤ off < 24 → let a := errata_base + ERRATUM_ENTRY_SIZE * Z.of_nat i + off in
    Z.to_nat ((a - errata_base) / ERRATUM_ENTRY_SIZE) = i ∧ (a - errata_base) mod ERRATUM_ENTRY_SIZE = off) as Ha.
  { intros off Ho a. unfold a, ERRATUM_ENTRY_SIZE. replace (_ - _) with (off + Z.of_nat i * 24) by lia.
    rewrite Z.div_add, Z.mod_add, Z.div_small, Z.mod_small by lia. split; [lia|done]. }
  cbv zeta in Ha. cbn [errata_env e_load e_code]. unfold errata_load.
  destruct (Ha APPLY_ON_OFFSET) as [-> ->]; [done|]. destruct (Ha CHECK_OFFSET) as [-> ->]; [done|].
  destruct (Ha WORKAROUND_OFFSET) as [-> ->]; [done|]. cbn [Z.eqb]. rewrite Hi.
  do 3 (split; [done|]). unfold errata_code, check_addr, workaround_addr.
  rewrite (proj2 (Z.ltb_lt _ _)), (proj2 (Z.ltb_ge _ _)) by lia.
  replace (Z.to_nat (0x10000 + Z.of_nat i - 0x10000)) with i by lia.
  replace (Z.to_nat (0x20000 + Z.of_nat i - 0x20000)) with i by lia. by rewrite Hi.
Qed.

Lemma reset_errata_applied_witness :
  let s := cpu_at_reset c1pro_regs in
  ∃ s', exec 175 errata_env (apply_reset_errata errata_base 14) 0 s = Returned s' ∧
    (c_sysregs s', c_trace s') = reset_errata C1_ERRATA (c_sysregs s, c_trace s) ∧
    xr 30 s' = xr 30 s ∧ only_clobbers (seq 0 12) s s'.
Proof.
  apply (reset_errata_applied errata_env errata_base C1_ERRATA check_addr workaround_addr c1_errata_in_memory
    c1_errata_ok).
  - split; vm_compute; [discriminate|reflexivity].
  - apply Nat.leb_le. reflexivity.
Defined.

(** ** The operations of CPUs in memory *)
Definition ops_base : Z := 0x4000.
Definition sample_ops : list CpuOps := [QemuMax; C1Pro; C1Ultra].
Definition reset_addr (i : nat) : Z := 0x30000 + Z.of_nat i.
Definition ops_load (size a : Z) : Z :=
  let i := Z.to_nat ((a - ops_base) / 48) in
  if (a - ops_base) mod 48 =? 8 then reset_addr i
  else match sample_ops !! i with Some op => as_u32 (midr op) | None => 0 end.
Definition ops_code (a : Z) : CpuState → Exit :=
  match sample_ops !! Z.to_nat (a - 0x30000) with
  | Some op => run_asm no_env (reset_handler op)
  | None => λ _, Stuck
  end.
Definition ops_env : Env :=
  mkEnv ops_load ops_code
    (λ f, if decide (f = "get_cpu_ops")
          then exec 31 (mkEnv ops_load (λ _ _, Stuck) (λ _ _, Stuck) 0 (λ _, 0) (λ x, x) (λ _ _, 0)) (get_cpu_ops ops_base 48 3 0) 0
          else λ _, Panicked) 0x8000 (λ _, 0) (λ x, x) (λ _ _, 0).

Lemma sample_ops_table : ops_table ops_env ops_base 48 0 sample_ops.
Proof.
  split; [|done| |done].
  - intros [|[|[|i]]] op Hi; try done; by injection Hi as <-.
  - by repeat (apply List.Forall_cons; [reflexivity|]).
Qed.
Lemma sample_ops_in_memory : ops_in_memory ops_env ops_base 48 sample_ops 8 reset_addr.
Proof. split; [|done]. intros [|[|[|i]]] op Hi; try done; by injection Hi as <-. Qed.

(** A C1-Ultra, whose reset handler clears two registers. *)
Definition c1ultra_regs : Bank := <["midr_el1" := 0x411FD8C0]> (λ _, 0xff).
Lemma cpu_reset_handler_agrees_witness :
  let s := cpu_at_reset c1ultra_regs in
  match cpu_reset_handler sample_ops s with
  | Ret _ s' => ∃ s1, run_asm ops_env (cpu_reset_handler_asm 8) s = Returned s1 ∧
      c_sysregs s1 = c_sysregs s' ∧ c_trace s1 = c_trace s' ∧ only_clobbers (seq 0 19) s s1
  | Halt _ => False
  | Crash => run_asm ops_env (cpu_reset_handler_asm 8) s = Panicked
  end.
Proof.
  apply (cpu_reset_handler_agrees ops_env ops_base 48 0 sample_ops sample_ops_table 8 reset_addr sample_ops_in_memory).
  repeat (apply List.Forall_cons; [apply straight_ok; reflexivity|]). exact (List.Forall_nil _).
Defined.

(** ** The caches of an AEM
    Two levels of caches with two ways of four sets and lines of 64 bytes, and a third
    level. *)
#[export] Instance sample_caches : CacheRegs := {|
  CacheLevel := Z; cache_level_new n := n; level_into_u64 n := n - 1; csselr_new _ n _ := 2 * (n - 1);
  csselr_empty := 0; cache_type _ n := if n =? 1 then SeparateInstructionAndData else Unified;
  has_64_bit_ccsidr_el1 _ := false; ccsidr_linesize c := Z.land c 7; ccsidr_of _ := 0x600a |}.
#[export] Instance sample_cache_laws : CacheLaws.
Proof. split; [done|]. intros c. exact (land_bound c 3 ltac:(done)). Qed.

Definition aem_regs : Bank := <["midr_el1" := 0x410fd0f0]> (λ _, 0).
Lemma aem_fits : levels_fit (c_sysregs (cpu_at_reset aem_regs)) (levels_down (c_sysregs (cpu_at_reset aem_regs)) 0).
Proof.
  vm_compute levels_down. repeat (apply List.Forall_cons; [split; [lia|intros _; split; vm_compute; done]|]).
  exact (List.Forall_nil _).
Qed.
Lemma aem_power_down_flushes_witness :
  let s := cpu_at_reset aem_regs in
  ∃ s', cpu_power_down FVP_CPU_OPS 0 s = Ret tt s' ∧
    c_trace s' = c_trace s ++ down_events (c_sysregs s) 0 ∧
    Forall (flushed_once (c_sysregs s)) (levels_down (c_sysregs s) 0) ∧
    c_sysregs s' "csselr_el1" = csselr_empty.
Proof. apply (aem_power_down_flushes (cpu_at_reset aem_regs) 0); [reflexivity|exact aem_fits]. Defined.
