(* ===== verification/CrashAsm.v ===== *)
(** * Crash reports

    [src/debug.S] and [src/crash_reporting.S]: when the firmware cannot go on it prints the
    registers of the core on the crash console and calls the panic handler.  There may be
    no stack then, so that return addresses are kept in registers, among them the stack
    pointer.  The functions of the console belong to the platform. *)

From Stdlib Require Import ZArith Lia Ascii.
From stdpp Require Import base list numbers option functions strings.
From S2P Require Import Prelude Smccc Services Context Asm ContextAsm.
Open Scope rust_scope.
Open Scope string_scope.
Open Scope list_scope.
Open Scope Z_scope.

(** ** Strings *)
Fixpoint ascii (s : string) : list Z :=
  match s with
  | EmptyString => []
  | String c s => Z.of_N (N_of_ascii c) :: ascii s
  end.
(** [.asciz] *)
Definition asciz (l : list string) : list Z := l ≫= λ s, ascii s ++ [0].
Definition NEWLINE : Z := 10.

Definition print_spacer : list Z := asciz ["             = 0x"].
Definition GP_REGS : list string :=
  ["x0"; "x1"; "x2"; "x3"; "x4"; "x5"; "x6"; "x7"; "x8"; "x9"; "x10"; "x11"; "x12"; "x13"; "x14"; "x15";
   "x16"; "x17"; "x18"; "x19"; "x20"; "x21"; "x22"; "x23"; "x24"; "x25"; "x26"; "x27"; "x28"; "x29"].
Definition EL3_SYS_REGS : list SysReg :=
  ["scr_el3"; "sctlr_el3"; "cptr_el3"; "tcr_el3"; "daif"; "mair_el3"; "spsr_el3"; "elr_el3";
   "ttbr0_el3"; "esr_el3"; "far_el3"].
Definition NON_EL3_SYS_REGS : list SysReg :=
  ["spsr_el1"; "elr_el1"; "spsr_abt"; "spsr_und"; "spsr_irq"; "spsr_fiq"; "sctlr_el1"; "actlr_el1";
   "cpacr_el1"; "csselr_el1"; "sp_el1"; "esr_el1"; "ttbr0_el1"; "ttbr1_el1"; "mair_el1"; "amair_el1";
   "tcr_el1"; "tpidr_el1"; "tpidr_el0"; "tpidrro_el0"; "par_el1"; "mpidr_el1"; "afsr0_el1"; "afsr1_el1";
   "contextidr_el1"; "vbar_el1"; "cntp_ctl_el0"; "cntp_cval_el0"; "cntv_ctl_el0"; "cntv_cval_el0";
   "cntkctl_el1"; "sp_el0"; "isr_el1"].
Definition crash_panic_msg : list Z := ascii "PANIC in EL3." ++ [NEWLINE] ++ ascii "x30" ++ [0].
Definition excpt_msg : list Z := ascii "Unhandled Exception in EL3." ++ [NEWLINE] ++ ascii "x30" ++ [0].
Definition intr_excpt_msg : list Z := ascii "Unhandled Interrupt Exception in EL3." ++ [NEWLINE] ++ ascii "x30" ++ [0].
Definition assert_msg : list Z := asciz ["ASSERT: "].
Definition panic_msg : list Z := asciz ["PANIC at PC : 0x"].

(** The constants in the image. *)
Definition crash_rodata : list (string * list Z) :=
  [("print_spacer", print_spacer); ("gp_regs", asciz (GP_REGS ++ [EmptyString])); ("el3_sys_regs", asciz (EL3_SYS_REGS ++ [EmptyString]));
   ("non_el3_sys_regs", asciz (NON_EL3_SYS_REGS ++ [EmptyString])); ("crash_panic_msg", crash_panic_msg);
   ("excpt_msg", excpt_msg); ("intr_excpt_msg", intr_excpt_msg); ("assert_msg", assert_msg); ("panic_msg", panic_msg)].

Definition CRASH_BUFFER_SIZE : Z := 64.
Definition REGSZ : Z := 8.
(** [debug.rs] has its own constant. *)
Definition CRASH_MODE_SP_ELX : Z := 1.

Section CrashS.
Context `{AsmConsts}.
(** The buffer is aligned to 64 bytes, behind the keys. *)
Definition CPU_DATA_CRASH_BUFFER_OFFSET : Z := if ENABLE_PAUTH then 64 else 0.
Context (CRASH_REPORTING : bool).

(** ** [debug.S] *)
Definition ASCII_OFFSET_NUM : Z := 0x30.
Definition asm_print_str : list Instr :=
  assemble [MovR 3 30 : Line;
    Lab "1"; LdrBPost 0 4 : Line; JZ 0 "2"; Bl "plat_crash_console_putc" : Line; J "1";
    Lab "2"; RetX 3 : Line].
(** [asm_print_hex_bits] is an entry behind the first instruction. *)
Definition asm_print_hex_text : list Line :=
  [MovI 5 64 : Line;
   Lab "asm_print_hex_bits"; MovR 3 30 : Line;
   Lab "1"; SubI 5 5 4 : Line; LsrR 0 4 5 : Line; AndI 0 0 0xf : Line; CmpI 0 0xA : Line; JC CLo "2";
   AddI 0 0 0x27 : Line;
   Lab "2"; AddI 0 0 ASCII_OFFSET_NUM : Line; Bl "plat_crash_console_putc" : Line; JNZ 5 "1";
   RetX 3 : Line].
Definition asm_print_hex : list Instr := assemble asm_print_hex_text.
Definition asm_print_newline : list Instr := [MovI 0 NEWLINE; BSym "plat_crash_console_putc"].

Definition asm_assert (log_debug : bool) : list Instr :=
  assemble ((if log_debug
    then [MovR 5 0 : Line; Bl "plat_crash_console_init" : Line; JZ 0 "_assert_loop";
          Adr 4 "assert_msg" : Line; Bl "asm_print_str" : Line; MovR 4 5 : Line; Bl "asm_print_str" : Line;
          Bl "plat_crash_console_flush" : Line; Lab "_assert_loop"]
    else []) ++ [Bl "plat_panic_handler" : Line]).

Definition el3_panic : list Instr :=
  assemble ((if CRASH_REPORTING then [BSym "report_el3_panic" : Line] else []) ++
    [MovR 6 30 : Line; Bl "plat_crash_console_init" : Line; JZ 0 "_panic_handler";
     Adr 4 "panic_msg" : Line; Bl "asm_print_str" : Line; MovR 4 6 : Line; SubI 4 4 4 : Line;
     Bl "asm_print_hex" : Line; Bl "asm_print_newline" : Line; Bl "plat_crash_console_flush" : Line;
     Lab "_panic_handler"; MovR 30 6 : Line; BSym "plat_panic_handler" : Line]).

(** ** [crash_reporting.S] *)
Definition size_controlled_print : list Instr :=
  assemble [SetSp 30 : Line; Mrs 7 "tpidr_el3" : Line;
    Lab "test_size_list"; Mrs 5 "tpidr_el3" : Line; AddI 5 5 CRASH_BUFFER_SIZE : Line;
    CmpR 7 5 : Line; JC CEq "exit_size_print";
    LdrB 4 6 : Line; JZ 4 "exit_size_print";
    MovR 4 6 : Line; Bl "asm_print_str" : Line;
    SubR 0 4 6 : Line; MovR 6 4 : Line; Bl "print_alignment" : Line;
    LdrPost 4 7 REGSZ : Line; Bl "asm_print_hex" : Line; Bl "asm_print_newline" : Line;
    J "test_size_list";
    Lab "exit_size_print"; MovSp 30 : Line; Return : Line].
Definition print_alignment : list Instr := [AdrOff 4 "print_spacer" (-3); AddR 4 4 0; BSym "asm_print_str"].
Definition str_in_crash_buf_print : list Instr :=
  [Mrs 0 "tpidr_el3"; Stp 8 9 0 0; Stp 10 11 0 (REGSZ * 2); Stp 12 13 0 (REGSZ * 4); Stp 14 15 0 (REGSZ * 6);
   BSym "size_controlled_print"].
Definition prepare_crash_buf_save_x0_x1 : list Instr :=
  [SetSp 0; Mrs 0 "tpidr_el3"; AddI 0 0 CPU_DATA_CRASH_BUFFER_OFFSET; Msr "tpidr_el3" 0;
   Str 1 0 REGSZ; MovSp 1; Str 1 0 0].

Definition report_unhandled_exception : list Instr :=
  if CRASH_REPORTING
  then prepare_crash_buf_save_x0_x1 ++ [Adr 0 "excpt_msg"; SetSp 0; BSym "do_crash_reporting"]
  else [Bl "plat_panic_handler"].
Definition report_unhandled_interrupt : list Instr :=
  if CRASH_REPORTING
  then prepare_crash_buf_save_x0_x1 ++ [Adr 0 "intr_excpt_msg"; SetSp 0; BSym "do_crash_reporting"]
  else [Bl "plat_panic_handler"].
Definition report_el3_panic : list Instr :=
  [MsrI "spsel" CRASH_MODE_SP_ELX] ++ prepare_crash_buf_save_x0_x1 ++
  [Adr 0 "crash_panic_msg"; SetSp 0; BSym "do_crash_reporting"].

Definition report_x30 : list Line :=
  [Mrs 0 "tpidr_el3" : Line; Stp 2 3 0 (REGSZ * 2) : Line; Stp 4 5 0 (REGSZ * 4) : Line; Stp 6 30 0 (REGSZ * 6) : Line;
   Bl "plat_crash_console_init" : Line; JZ 0 "crash_panic";
   MovSp 4 : Line; Bl "asm_print_str" : Line; MovI 0 4 : Line; Bl "print_alignment" : Line;
   Mrs 0 "tpidr_el3" : Line; Ldr 4 0 (REGSZ * 7) : Line] ++
  (if ENABLE_PAUTH then [Xpaci 4 : Line] else []) ++
  [Bl "asm_print_hex" : Line; Bl "asm_print_newline" : Line].
Definition report_gp_regs : list Instr :=
  [Mrs 0 "tpidr_el3"; Str 7 0 (REGSZ * 7); Adr 6 "gp_regs"; Bl "size_controlled_print";
   Bl "str_in_crash_buf_print";
   Mrs 0 "tpidr_el3"; Stp 16 17 0 0; Stp 18 19 0 (REGSZ * 2); Stp 20 21 0 (REGSZ * 4); Stp 22 23 0 (REGSZ * 6);
   Bl "size_controlled_print";
   Mrs 0 "tpidr_el3"; Stp 24 25 0 0; Stp 26 27 0 (REGSZ * 2); Stp 28 29 0 (REGSZ * 4);
   Bl "size_controlled_print"].
Definition report_el3_sys_regs : list Instr :=
  [Adr 6 "el3_sys_regs";
   Mrs 8 "scr_el3"; Mrs 9 "sctlr_el3"; Mrs 10 "cptr_el3"; Mrs 11 "tcr_el3";
   Mrs 12 "daif"; Mrs 13 "mair_el3"; Mrs 14 "spsr_el3"; Mrs 15 "elr_el3"; Bl "str_in_crash_buf_print";
   Mrs 8 "ttbr0_el3"; Mrs 9 "esr_el3"; Mrs 10 "far_el3"; Bl "str_in_crash_buf_print"].
Definition report_non_el3_sys_regs : list Instr :=
  [Adr 6 "non_el3_sys_regs";
   Mrs 8 "spsr_el1"; Mrs 9 "elr_el1"; Mrs 10 "spsr_abt"; Mrs 11 "spsr_und";
   Mrs 12 "spsr_irq"; Mrs 13 "spsr_fiq"; Mrs 14 "sctlr_el1"; Mrs 15 "actlr_el1"; Bl "str_in_crash_buf_print";
   Mrs 8 "cpacr_el1"; Mrs 9 "csselr_el1"; Mrs 10 "sp_el1"; Mrs 11 "esr_el1";
   Mrs 12 "ttbr0_el1"; Mrs 13 "ttbr1_el1"; Mrs 14 "mair_el1"; Mrs 15 "amair_el1"; Bl "str_in_crash_buf_print";
   Mrs 8 "tcr_el1"; Mrs 9 "tpidr_el1"; Mrs 10 "tpidr_el0"; Mrs 11 "tpidrro_el0";
   Mrs 12 "par_el1"; Mrs 13 "mpidr_el1"; Mrs 14 "afsr0_el1"; Mrs 15 "afsr1_el1"; Bl "str_in_crash_buf_print";
   Mrs 8 "contextidr_el1"; Mrs 9 "vbar_el1"; Mrs 10 "cntp_ctl_el0"; Mrs 11 "cntp_cval_el0";
   Mrs 12 "cntv_ctl_el0"; Mrs 13 "cntv_cval_el0"; Mrs 14 "cntkctl_el1"; Mrs 15 "sp_el0"; Bl "str_in_crash_buf_print";
   Mrs 8 "isr_el1"; Bl "str_in_crash_buf_print"].
Definition do_crash_reporting : list Instr :=
  assemble (report_x30 ++
    (I <$> report_gp_regs ++ report_el3_sys_regs ++ report_non_el3_sys_regs ++
       [Bl "cpu_dump_registers"; Bl "str_in_crash_buf_print";
        Bl "plat_crash_print_regs"; Bl "plat_crash_console_flush"; Bl "plat_panic_handler"]) ++
    [Lab "crash_panic"; BSym "crash_panic" : Line]).
Definition crash_panic : list Instr := [Bl "plat_panic_handler"].

(** ** The functions together
    [plat] are the functions of the platform, [sym] the addresses of functions and data.
    A string or a number is printed within 1000 steps, and a group of registers within
    200. *)
Context (image : Z → Z → Z) (sym : string → Z) (xpac : Z → Z) (device : list CpuEvent → Z → Z).
Context (plat : string → CpuState → Exit).
Definition print_env (calls : string → CpuState → Exit) (f : string) : Env :=
  mkEnv image (λ _ _, Stuck) calls (sym f) sym xpac device.
Definition PRINT_FUEL : nat := 1000.
Definition GROUP_FUEL : nat := 200.
Definition print_calls (f : string) : CpuState → Exit :=
  if String.eqb f "asm_print_str" then exec PRINT_FUEL (print_env plat f) asm_print_str 0
  else if String.eqb f "asm_print_hex" then exec PRINT_FUEL (print_env plat f) asm_print_hex 0
  else if String.eqb f "asm_print_hex_bits" then exec PRINT_FUEL (print_env plat "asm_print_hex") asm_print_hex 1
  else if String.eqb f "asm_print_newline" then exec PRINT_FUEL (print_env plat f) asm_print_newline 0
  else plat f.
Definition align_calls (f : string) : CpuState → Exit :=
  if String.eqb f "print_alignment" then run_asm (print_env print_calls f) print_alignment else print_calls f.
Definition size_calls (f : string) : CpuState → Exit :=
  if String.eqb f "size_controlled_print" then exec GROUP_FUEL (print_env align_calls f) size_controlled_print 0
  else align_calls f.
Definition buf_calls (f : string) : CpuState → Exit :=
  if String.eqb f "str_in_crash_buf_print" then run_asm (print_env size_calls f) str_in_crash_buf_print
  else if String.eqb f "crash_panic" then run_asm (print_env plat f) crash_panic
  else size_calls f.
Definition report_calls (f : string) : CpuState → Exit :=
  if String.eqb f "do_crash_reporting" then run_asm (print_env buf_calls f) do_crash_reporting else buf_calls f.
Definition crash_calls (f : string) : CpuState → Exit :=
  if String.eqb f "report_unhandled_exception" then run_asm (print_env report_calls f) report_unhandled_exception
  else if String.eqb f "report_unhandled_interrupt" then run_asm (print_env report_calls f) report_unhandled_interrupt
  else if String.eqb f "report_el3_panic" then run_asm (print_env report_calls f) report_el3_panic
  else report_calls f.
End CrashS.
