(* ===== verification/CrashProps.v ===== *)
(** * What a crash report shows

    A platform whose console prints characters prints every register of the core that
    crashed, with its name and its value, before the panic handler is called. *)

From Stdlib Require Import ZArith Lia.
From stdpp Require Import base list numbers option functions strings sets.
From S2P Require Import Prelude Smccc Services Context Asm AsmProps AsmWords ContextAsm CrashAsm.
Open Scope rust_scope.
Open Scope string_scope.
Open Scope list_scope.
Open Scope Z_scope.

(** ** Runs with a known number of steps *)
Definition runs (env : Env) (prog : list Instr) (n : nat) (pc : nat) (s : CpuState) (e : Exit) : Prop :=
  ∀ k, exec (n + k) env prog pc s = e.
Section Runs.
Context (env : Env) (prog : list Instr).
Lemma runs_next n pc s i pc' s' e :
  prog !! pc = Some i → next env i pc s = Some (pc', s') → runs env prog n pc' s' e → runs env prog (S n) pc s e.
Proof. intros Hi Hn Hk k. cbn [Nat.add]. rewrite exec_S, Hi. destruct i; simplify_eq/=; apply Hk. Qed.
Lemma runs_retx pc s rn : prog !! pc = Some (RetX rn) → runs env prog 1 pc s (ReturnedTo (xr rn s) s).
Proof. intros Hi k. cbn [Nat.add]. by rewrite exec_S, Hi. Qed.
Lemma runs_return pc s : prog !! pc = Some Return → runs env prog 1 pc s (Returned s).
Proof. intros Hi k. cbn [Nat.add]. by rewrite exec_S, Hi. Qed.
Lemma runs_bl n pc s f s' e :
  let ra := e_base env + 4 * Z.of_nat (S pc) in
  prog !! pc = Some (Bl f) → e_sym env f (set_x 30 ra s) = Returned s' ∧ xr 30 s' = ra ∨ e_sym env f (set_x 30 ra s) = ReturnedTo ra s' →
  runs env prog n (S pc) s' e → runs env prog (S n) pc s e.
Proof.
  intros ra Hi Hf Hk k. cbn [Nat.add]. rewrite exec_S, Hi. fold ra. destruct Hf as [[-> ->]| ->]; rewrite Z.eqb_refl; apply Hk.
Qed.
Lemma runs_exec n m pc s e : runs env prog n pc s e → (n ≤ m)%nat → exec m env prog pc s = e.
Proof. intros Hr Hm. specialize (Hr (m - n)%nat). by replace (n + (m - n))%nat with m in Hr by lia. Qed.
Lemma runs_le n m pc s e : runs env prog n pc s e → (n ≤ m)%nat → runs env prog m pc s e.
Proof. intros Hr Hm k. specialize (Hr (m - n + k)%nat). by replace (n + (m - n + k))%nat with (m + k)%nat in Hr by lia. Qed.
End Runs.
Ltac run_step := eapply runs_next; [reflexivity|cbn [next exec_instr]; reflexivity|]; regs_simpl.

(** Which registers are in a list, by evaluation. *)
Ltac reg_mem :=
  match goal with
  | |- ∀ r, r ∈ _ → r ∈ _ => apply subset_spec; reflexivity
  | |- _ => apply (bool_decide_eq_true_1 _); reflexivity
  end.

Lemma disjoint_spec a b : forallb (λ r, negb (existsb (Nat.eqb r) b)) a = true → ∀ r, r ∈ a → r ∉ b.
Proof.
  rewrite List.forallb_forall. intros Ha r Hr Hb. apply list_elem_of_In in Hr. specialize (Ha r Hr).
  apply negb_true_iff, not_true_iff_false in Ha. apply Ha, List.existsb_exists. exists r.
  split; [by apply list_elem_of_In|apply Nat.eqb_refl].
Qed.
Ltac reg_not_mem := apply disjoint_spec; reflexivity.

(** ** Numbers *)
Definition hex_digit (d : Z) : Z := if d <? 10 then d + 0x30 else d + 0x57.
(** The last [k] digits. *)
Definition hex_digits (k : nat) (v : Z) : list Z :=
  (λ i, hex_digit (Z.land (Z.shiftr v (4 * Z.of_nat i)) 0xf)) <$> rev (seq 0 k).
Lemma hex_digits_S k v : hex_digits (S k) v = hex_digit (Z.land (Z.shiftr v (4 * Z.of_nat k)) 0xf) :: hex_digits k v.
Proof. unfold hex_digits. rewrite seq_S, rev_app_distr. reflexivity. Qed.
Lemma nibble_range x : 0 ≤ Z.land x 0xf < 16.
Proof. change 0xf with (Z.ones 4). rewrite Z.land_ones by done. by apply Z.mod_pos_bound. Qed.

(** ** The console *)
(** A newline is shown as a carriage return and a newline. *)
Definition encode (l : list Z) : list Z := l ≫= λ c, if c =? NEWLINE then [13; NEWLINE] else [c].
Class Console := { shown : list CpuEvent → list Z }.

Section Prints.
Context `{Console}.
Record prints (l : list nat) (cs : list Z) (s s' : CpuState) : Prop := {
  pr_x : only_clobbers l s s';
  pr_b : c_sysregs s' = c_sysregs s;
  pr_m : c_mem s' = c_mem s;
  pr_out : shown (c_trace s') = shown (c_trace s) ++ encode cs;
}.
Lemma prints_refl l s : prints l [] s s.
Proof. split; [apply clobbers_refl|done|done|by rewrite app_nil_r]. Qed.
Lemma prints_trans l l' cs cs' s s' s'' :
  prints l cs s s' → prints l' cs' s' s'' → (∀ r, r ∈ l' → r ∈ l) → prints l (cs ++ cs') s s''.
Proof.
  intros [Hx Hb Hm Ho] [Hx' Hb' Hm' Ho'] Hl. split; [by eapply clobbers_trans|congruence|congruence|].
  rewrite Ho', Ho, <-app_assoc. f_equal. unfold encode. by rewrite bind_app.
Qed.
Lemma prints_set_x l cs s s0 r v : r ∈ l → prints l cs s s0 → prints l cs s (set_x r v s0).
Proof.
  intros Hr [Hx Hb Hm Ho]. split; [by apply clobbers_set_x|by rewrite set_x_sysregs|by rewrite set_x_mem|by rewrite set_x_trace].
Qed.
Lemma prints_set_cmp l cs s s0 a b : prints l cs s s0 → prints l cs s (set_cmp a b s0).
Proof. intros [Hx Hb Hm Ho]. by split. Qed.
End Prints.
Ltac prints := repeat first [apply prints_refl | apply prints_set_x; [reg_mem|] | apply prints_set_cmp | eassumption].

(** What the firmware relies on: the console prints a character. *)
Class ConsoleLaws `{Console} (plat : string → CpuState → Exit) : Prop := {
  putc_ok s : 0 ≤ xr 0 s < 256 → ∃ s', plat "plat_crash_console_putc" s = Returned s' ∧ prints [0; 1; 2]%nat [xr 0 s] s s';
}.

Lemma print_fuel : (1000 ≤ PRINT_FUEL)%nat.
Proof. reflexivity. Qed.
Lemma group_fuel : (200 ≤ GROUP_FUEL)%nat.
Proof. reflexivity. Qed.
#[local] Opaque PRINT_FUEL GROUP_FUEL.

Section Print.
Context `{AsmConsts, Console}.
Context (image : Z → Z → Z) (sym : string → Z) (xpac : Z → Z) (device : list CpuEvent → Z → Z).
Context (plat : string → CpuState → Exit) `{!ConsoleLaws plat}.
Let penv := print_env image sym xpac device plat.

(** Bytes of the image. *)
Definition bytes_at (a : Z) (l : list Z) : Prop := ∀ i b, l !! i = Some b → image 1 (a + Z.of_nat i) = b.
Definition char_ok (c : Z) : Prop := 0 < c < 256.

Definition str_clobbers : list nat := [0; 1; 2; 3; 4; 30]%nat.

Lemma print_str_loop l s0 s cs :
  bytes_at (xr 4 s) (l ++ [0]) → Forall char_ok l → 0 ≤ xr 4 s → xr 4 s + Z.of_nat (length l) + 1 < 2 ^ 64 →
  prints str_clobbers cs s0 s →
  ∃ s', runs (penv "asm_print_str") asm_print_str (4 * length l + 3) 1 s (ReturnedTo (xr 3 s') s') ∧
    xr 4 s' = xr 4 s + Z.of_nat (length l) + 1 ∧ xr 3 s' = xr 3 s ∧ prints str_clobbers (cs ++ l) s0 s'.
Proof.
  revert s cs. induction l as [|c l IH]; intros s cs Hb Hc Ha Hlt Hp.
  - pose proof (Hb 0%nat 0 eq_refl) as Hz. rewrite Z.add_0_r in Hz.
    exists (set_x 4 ((xr 4 s + 1) mod 2 ^ 64) (set_x 0 0 s)). split; [|split; [|split]].
    + cbn [length Nat.mul Nat.add]. eapply runs_next; [reflexivity|reflexivity|]. cbn [exec_instr e_load penv print_env]. rewrite Hz.
      eapply runs_next; [reflexivity|reflexivity|]. apply runs_retx. reflexivity.
    + cbn [length]. regs_simpl. rewrite Z.mod_small by lia. lia.
    + by regs_simpl.
    + rewrite app_nil_r. unfold str_clobbers. prints.
  - apply Forall_cons in Hc as [Hc1 Hc]. pose proof (Hb 0%nat c eq_refl) as Hz. rewrite Z.add_0_r in Hz.
    set (s1 := set_x 4 ((xr 4 s + 1) mod 2 ^ 64) (set_x 0 c s)).
    set (s2 := set_x 30 (e_base (penv "asm_print_str") + 4 * Z.of_nat 4) s1).
    destruct (putc_ok s2) as (s3 & Hput & Hp3); [unfold s2, s1; regs_simpl; unfold char_ok in Hc1; lia|].
    assert (xr 0 s2 = c ∧ xr 4 s2 = xr 4 s + 1 ∧ xr 3 s2 = xr 3 s) as (E0 & E4 & E3).
    { unfold s2, s1. regs_simpl. rewrite Z.mod_small by lia. done. }
    pose proof (pr_x _ _ _ _ Hp3) as Hx3. rewrite E0 in Hp3.
    destruct (IH s3 (cs ++ [c])) as (s' & Hrun & H4 & H3 & Hp').
    + rewrite (Hx3 4%nat), E4 by reg_mem. intros i x Hi. rewrite <-Z.add_assoc.
      specialize (Hb (S i) x Hi). rewrite <-Hb. f_equal. lia.
    + done.
    + rewrite (Hx3 4%nat), E4 by reg_mem. lia.
    + rewrite (Hx3 4%nat), E4 by reg_mem. cbn [length] in Hlt. lia.
    + eapply prints_trans; [|exact Hp3|reg_mem]. unfold s2, s1, str_clobbers. prints.
    + exists s'. rewrite H4, H3, (Hx3 4%nat), (Hx3 3%nat), E4, E3 by reg_mem. cbn [length].
      split; [|split; [lia|split; [done|by rewrite <-app_assoc in Hp']]].
      replace (4 * S (length l) + 3)%nat with (S (S (S (S (4 * length l + 3))))) by lia.
      run_step. cbn [e_load penv print_env]. rewrite Hz. eapply runs_next; [reflexivity|reflexivity|]. regs_simpl.
      rewrite (proj2 (Z.eqb_neq c 0)) by (unfold char_ok in Hc1; lia).
      eapply runs_bl; [reflexivity|left; split; [exact Hput|]|].
      { rewrite (Hx3 30%nat) by reg_mem. unfold s2. by regs_simpl. }
      run_step. rewrite (Hx3 3%nat), E3 in H3 by reg_mem. rewrite <-H3. exact Hrun.
Qed.

Lemma call_str : print_calls image sym xpac device plat "asm_print_str" = exec PRINT_FUEL (penv "asm_print_str") asm_print_str 0.
Proof. reflexivity. Qed.
Lemma print_str_run l s :
  bytes_at (xr 4 s) (l ++ [0]) → Forall char_ok l → (length l ≤ 240)%nat →
  0 ≤ xr 4 s → xr 4 s + Z.of_nat (length l) + 1 < 2 ^ 64 →
  ∃ s', print_calls image sym xpac device plat "asm_print_str" s = ReturnedTo (xr 30 s) s' ∧
    xr 4 s' = xr 4 s + Z.of_nat (length l) + 1 ∧ prints str_clobbers l s s'.
Proof.
  intros Hb Hc Hl Ha Hlt. set (s1 := set_x 3 (xr 30 s) s).
  destruct (print_str_loop l s s1 []) as (s' & Hrun & H4 & H3 & Hp); unfold s1; regs_simpl; try done.
  { unfold str_clobbers. prints. }
  exists s'. rewrite H4. unfold s1. regs_simpl. split; [|done].
  rewrite call_str. apply (runs_exec _ _ (S (4 * length l + 3))); [|pose proof print_fuel; lia]. run_step. fold s1. rewrite H3 in Hrun. unfold s1 in Hrun at 2.
  by rewrite xr_set_x_eq in Hrun.
Qed.

(** *** Numbers *)
Definition hex_clobbers : list nat := [0; 1; 2; 3; 5; 30]%nat.
(** One digit: the character is in [x0] when the console is called. *)
Lemma hex_body k s :
  xr 5 s = 4 * Z.of_nat (S k) → (k < 16)%nat →
  ∃ s2 n, (∀ m e, runs (penv "asm_print_hex") asm_print_hex m 9 s2 e → runs (penv "asm_print_hex") asm_print_hex (n + m) 2 s e) ∧
    (n ≤ 7)%nat ∧ xr 0 s2 = hex_digit (Z.land (Z.shiftr (xr 4 s) (4 * Z.of_nat k)) 0xf) ∧ xr 5 s2 = 4 * Z.of_nat k ∧
    prints [0; 5]%nat [] s s2.
Proof.
  intros H5 Hk. set (d := Z.land (Z.shiftr (xr 4 s) (4 * Z.of_nat k)) 0xf). pose proof (nibble_range (Z.shiftr (xr 4 s) (4 * Z.of_nat k))) as Hd.
  fold d in Hd. set (s1 := set_cmp d 0xA (set_x 0 d (set_x 0 (Z.shiftr (xr 4 s) (4 * Z.of_nat k)) (set_x 5 (4 * Z.of_nat k) s)))).
  assert (∀ m e, runs (penv "asm_print_hex") asm_print_hex m 6 s1 e → runs (penv "asm_print_hex") asm_print_hex (4 + m) 2 s e) as Hstart.
  { intros m e Hm. cbn [Nat.add]. do 4 run_step. rewrite H5, (Z.mod_small (4 * Z.of_nat (S k) - 4)) by lia.
    replace (4 * Z.of_nat (S k) - 4) with (4 * Z.of_nat k) by lia. rewrite (Z.mod_small (4 * Z.of_nat k) 64) by lia.
    fold d. exact Hm. }
  assert (xr 0 s1 = d ∧ xr 5 s1 = 4 * Z.of_nat k ∧ c_cmp s1 = (d, 0xA) ∧ prints [0; 5]%nat [] s s1) as (E0 & E5 & Ec & Hp).
  { unfold s1. regs_simpl. split; [done|]. split; [done|]. split; [done|]. prints. }
  clearbody s1. unfold hex_digit. destruct (Z.ltb_spec d 10).
  - exists (set_x 0 (d + 0x30) s1), 6%nat. split; [|split; [lia|]]; [|regs_simpl; rewrite E5; split; [done|split; [done|]]; prints].
    intros m e Hm. apply (Hstart (2 + m)%nat). cbn [Nat.add]. eapply runs_next; [reflexivity|reflexivity|]. rewrite Ec. cbn [holds].
    rewrite (proj2 (Z.ltb_lt d 10)) by lia. eapply runs_next; [reflexivity|reflexivity|]. cbn [exec_instr].
    rewrite E0, Z.mod_small by (unfold ASCII_OFFSET_NUM; lia). exact Hm.
  - exists (set_x 0 (d + 0x57) (set_x 0 (d + 0x27) s1)), 7%nat. split; [|split; [lia|]]; [|regs_simpl; rewrite E5; split; [done|split; [done|]]; prints].
    intros m e Hm. apply (Hstart (3 + m)%nat). cbn [Nat.add]. eapply runs_next; [reflexivity|reflexivity|]. rewrite Ec. cbn [holds].
    rewrite (proj2 (Z.ltb_ge d 10)) by lia. do 2 (eapply runs_next; [reflexivity|reflexivity|]). cbn [exec_instr].
    rewrite E0, (Z.mod_small (d + 0x27)) by lia. rewrite xr_set_x_eq, Z.mod_small by (done || unfold ASCII_OFFSET_NUM; lia).
    unfold ASCII_OFFSET_NUM. replace (d + 39 + 48) with (d + 0x57) by lia. exact Hm.
Qed.
Lemma hex_char k s :
  xr 5 s = 4 * Z.of_nat (S k) → (k < 16)%nat →
  ∃ s', (∀ m e, runs (penv "asm_print_hex") asm_print_hex m 10 s' e → runs (penv "asm_print_hex") asm_print_hex (8 + m) 2 s e) ∧
    xr 5 s' = 4 * Z.of_nat k ∧ xr 4 s' = xr 4 s ∧ xr 3 s' = xr 3 s ∧
    prints hex_clobbers [hex_digit (Z.land (Z.shiftr (xr 4 s) (4 * Z.of_nat k)) 0xf)] s s'.
Proof.
  intros H5 Hk. destruct (hex_body k s H5 Hk) as (s2 & n & Hrun & Hn & E0 & E5 & Hp2).
  set (s3 := set_x 30 (e_base (penv "asm_print_hex") + 4 * Z.of_nat 10) s2).
  pose proof (nibble_range (Z.shiftr (xr 4 s) (4 * Z.of_nat k))) as Hd.
  destruct (putc_ok s3) as (s4 & Hput & Hp4).
  { unfold s3. regs_simpl. rewrite E0. unfold hex_digit. destruct (_ <? _); lia. }
  pose proof (pr_x _ _ _ _ Hp4) as Hx4. pose proof (pr_x _ _ _ _ Hp2) as Hx2.
  exists s4. split; [|split; [|split; [|split]]].
  - intros m e Hm. apply (runs_le _ _ (n + S m)%nat); [|lia]. apply Hrun.
    eapply runs_bl; [reflexivity|left; split; [exact Hput|]|exact Hm].
    rewrite (Hx4 30%nat) by reg_mem. unfold s3. by regs_simpl.
  - rewrite (Hx4 5%nat) by reg_mem. unfold s3. by regs_simpl.
  - rewrite (Hx4 4%nat) by reg_mem. unfold s3. regs_simpl. apply Hx2. reg_mem.
  - rewrite (Hx4 3%nat) by reg_mem. unfold s3. regs_simpl. apply Hx2. reg_mem.
  - assert (xr 0 s3 = hex_digit (Z.land (Z.shiftr (xr 4 s) (4 * Z.of_nat k)) 0xf)) as E3 by (unfold s3; by regs_simpl).
    rewrite E3 in Hp4. change [hex_digit _] with ([] ++ [hex_digit (Z.land (Z.shiftr (xr 4 s) (4 * Z.of_nat k)) 0xf)]).
    eapply prints_trans; [|exact Hp4|reg_mem]. unfold s3. apply prints_set_x; [reg_mem|].
    change (@nil Z) with (@nil Z ++ []). eapply prints_trans; [apply prints_refl|exact Hp2|reg_mem].
Qed.
Lemma print_hex_loop k s0 s cs :
  xr 5 s = 4 * Z.of_nat (S k) → (k < 16)%nat → prints hex_clobbers cs s0 s →
  ∃ s', runs (penv "asm_print_hex") asm_print_hex (9 * S k + 1) 2 s (ReturnedTo (xr 3 s) s') ∧ xr 4 s' = xr 4 s ∧
    prints hex_clobbers (cs ++ hex_digits (S k) (xr 4 s)) s0 s'.
Proof.
  revert s cs. induction k as [|k IH]; intros s cs H5 Hk Hp; destruct (hex_char _ s H5 Hk) as (s1 & Hrun & E5 & E4 & E3 & Hp1).
  - exists s1. rewrite hex_digits_S. split; [|split; [done|]].
    + apply (runs_le _ _ (8 + 2)); [|lia]. apply Hrun. eapply runs_next; [reflexivity|reflexivity|]. rewrite E5. cbn [Z.eqb Z.of_nat Z.mul].
      rewrite <-E3. apply runs_retx. reflexivity.
    + eapply prints_trans; [exact Hp|exact Hp1|reg_mem].
  - destruct (IH s1 (cs ++ [hex_digit (Z.land (Z.shiftr (xr 4 s) (4 * Z.of_nat (S k))) 0xf)])) as (s' & Hrun' & E4' & Hp').
    + done.
    + lia.
    + eapply prints_trans; [exact Hp|exact Hp1|reg_mem].
    + exists s'. rewrite hex_digits_S. rewrite <-app_assoc, E4 in Hp'. split; [|split; [by rewrite E4', E4|done]].
      apply (runs_le _ _ (8 + S (9 * S k + 1))); [|lia]. apply Hrun. eapply runs_next; [reflexivity|reflexivity|]. rewrite E5.
      rewrite (proj2 (Z.eqb_neq _ 0)) by lia. rewrite <-E3. exact Hrun'.
Qed.
Lemma call_hex : print_calls image sym xpac device plat "asm_print_hex" = exec PRINT_FUEL (penv "asm_print_hex") asm_print_hex 0.
Proof. reflexivity. Qed.
Lemma print_hex_run s :
  ∃ s', print_calls image sym xpac device plat "asm_print_hex" s = ReturnedTo (xr 30 s) s' ∧
    prints hex_clobbers (hex_digits 16 (xr 4 s)) s s'.
Proof.
  set (s1 := set_x 3 (xr 30 s) (set_x 5 64 s)).
  destruct (print_hex_loop 15 s s1 []) as (s' & Hrun & _ & Hp); [unfold s1; by regs_simpl|lia|unfold s1, hex_clobbers; prints|].
  exists s'. replace (xr 4 s1) with (xr 4 s) in Hp by (unfold s1; by regs_simpl). split; [|done].
  rewrite call_hex. apply (runs_exec _ _ (2 + (9 * 16 + 1))); [|pose proof print_fuel; lia]. do 2 run_step. fold s1.
  replace (xr 3 s1) with (xr 30 s) in Hrun by (unfold s1; by regs_simpl). exact Hrun.
Qed.
Lemma call_hex_bits : print_calls image sym xpac device plat "asm_print_hex_bits" = exec PRINT_FUEL (penv "asm_print_hex") asm_print_hex 1.
Proof. reflexivity. Qed.
(** Some digits only. *)
Lemma print_hex_bits_run k s :
  xr 5 s = 4 * Z.of_nat (S k) → (k < 16)%nat →
  ∃ s', print_calls image sym xpac device plat "asm_print_hex_bits" s = ReturnedTo (xr 30 s) s' ∧
    prints hex_clobbers (hex_digits (S k) (xr 4 s)) s s'.
Proof.
  intros H5 Hk. set (s1 := set_x 3 (xr 30 s) s).
  destruct (print_hex_loop k s s1 []) as (s' & Hrun & _ & Hp); [unfold s1; by regs_simpl|lia|unfold s1, hex_clobbers; prints|].
  exists s'. replace (xr 4 s1) with (xr 4 s) in Hp by (unfold s1; by regs_simpl). split; [|done].
  rewrite call_hex_bits. apply (runs_exec _ _ (1 + (9 * S k + 1))); [|pose proof print_fuel; lia]. run_step. fold s1.
  replace (xr 3 s1) with (xr 30 s) in Hrun by (unfold s1; by regs_simpl). exact Hrun.
Qed.
Lemma call_newline : print_calls image sym xpac device plat "asm_print_newline" = exec PRINT_FUEL (penv "asm_print_newline") asm_print_newline 0.
Proof. reflexivity. Qed.
Lemma print_newline_run s :
  ∃ s', print_calls image sym xpac device plat "asm_print_newline" s = Returned s' ∧ xr 30 s' = xr 30 s ∧ prints [0; 1; 2]%nat [NEWLINE] s s'.
Proof.
  set (s1 := set_x 0 NEWLINE s). destruct (putc_ok s1) as (s' & Hput & Hp); [unfold s1; by regs_simpl|].
  exists s'. split; [|split].
  - rewrite call_newline. destruct PRINT_FUEL as [|[|n]] eqn:E; [pose proof print_fuel; lia..|]. rewrite !exec_S. exact Hput.
  - rewrite (pr_x _ _ _ _ Hp 30%nat) by reg_mem. unfold s1. by regs_simpl.
  - replace [NEWLINE] with ([] ++ [xr 0 s1]) by (unfold s1; by regs_simpl).
    eapply prints_trans; [|exact Hp|reg_mem]. unfold s1. prints.
Qed.

(** *** A register *)
(** The constants are in the image. *)
Definition rodata_at : Prop := ∀ f bytes, (f, bytes) ∈ crash_rodata →
  bytes_at (sym f) bytes ∧ 3 ≤ sym f ∧ sym f + Z.of_nat (length bytes) < 2 ^ 64.
Context (Hrodata : rodata_at).
Definition spacer : list Z := ascii "             = 0x".

Lemma text_at_app a l l' : bytes_at a (l ++ l') → bytes_at a l ∧ bytes_at (a + Z.of_nat (length l)) l'.
Proof.
  intros Hb. split; intros i b Hi; [apply Hb; by apply lookup_app_l_Some|].
  rewrite <-Z.add_assoc, <-Nat2Z.inj_add. apply Hb. by rewrite lookup_app_r, Nat.add_sub' by lia.
Qed.

Lemma call_align : align_calls image sym xpac device plat "print_alignment" =
  run_asm (print_env image sym xpac device (print_calls image sym xpac device plat) "print_alignment") print_alignment.
Proof. reflexivity. Qed.
Lemma print_alignment_run n s :
  xr 0 s = 3 + Z.of_nat n → (n ≤ 17)%nat →
  ∃ s', align_calls image sym xpac device plat "print_alignment" s = ReturnedTo (xr 30 s) s' ∧ prints str_clobbers (drop n spacer) s s'.
Proof.
  intros Hx Hn. destruct (Hrodata "print_spacer" print_spacer ltac:(left)) as (Hb & Hlo & Hhi).
  change (Z.of_nat (length print_spacer)) with 18 in Hhi. set (a := sym "print_spacer") in *.
  set (s1 := set_x 4 (a + Z.of_nat n) (set_x 4 ((a - 3) mod 2 ^ 64) s)).
  assert (length (drop n spacer) = 17 - n)%nat as Hlen by (rewrite length_drop; reflexivity).
  destruct (print_str_run (drop n spacer) s1) as (s' & Hrun & _ & Hp).
  - unfold s1. rewrite xr_set_x_eq by done.
    assert (print_spacer = take n spacer ++ drop n spacer ++ [0]) as E by (by rewrite app_assoc, take_drop).
    rewrite E in Hb. apply text_at_app in Hb as [_ Hb]. rewrite length_take_le in Hb by done. exact Hb.
  - apply Forall_drop. unfold char_ok. by repeat (constructor; [done|]).
  - lia.
  - unfold s1. rewrite xr_set_x_eq by done. lia.
  - unfold s1. rewrite xr_set_x_eq, Hlen by done. lia.
  - exists s'. split.
    + rewrite call_align. unfold run_asm, print_alignment. cbn [length]. do 3 asm_step. cbn [e_addr e_sym print_env]. fold a.
      rewrite Hx. change (a + -3) with (a - 3). replace (((a - 3) mod 2 ^ 64 + (3 + Z.of_nat n)) mod 2 ^ 64) with (a + Z.of_nat n).
      { fold s1. rewrite Hrun. f_equal; unfold s1; by regs_simpl. }
      rewrite (Z.mod_small (a - 3)), Z.mod_small by lia. lia.
    + change (drop n spacer) with ([] ++ drop n spacer). eapply prints_trans; [|exact Hp|reg_mem]. unfold s1, str_clobbers. prints.
Qed.

(** The line for a register. *)
Definition line (name : list Z) (v : Z) : list Z := name ++ drop (length name - 2) spacer ++ hex_digits 16 v ++ [NEWLINE].
Definition name_ok (name : list Z) : Prop := Forall char_ok name ∧ (2 ≤ length name ≤ 19)%nat.
Definition line_clobbers : list nat := [0; 1; 2; 3; 4; 5; 6; 7; 30]%nat.
Let senv := print_env image sym xpac device (align_calls image sym xpac device plat) "size_controlled_print".

(** From the name of the register, with its value behind [x7], to the next one. *)
Lemma print_line name s :
  name_ok name → bytes_at (xr 6 s) (name ++ [0]) → 0 ≤ xr 6 s → xr 6 s + Z.of_nat (length name) + 1 < 2 ^ 64 →
  0 ≤ xr 7 s → xr 7 s + 8 < 2 ^ 64 →
  ∃ s', (∀ n e, runs senv size_controlled_print n 2 s' e → runs senv size_controlled_print (9 + n) 8 s e) ∧
    xr 6 s' = xr 6 s + Z.of_nat (length name) + 1 ∧ xr 7 s' = xr 7 s + 8 ∧
    prints line_clobbers (line name (load64 (xr 7 s) s)) s s'.
Proof.
  intros [Hname Hlen] Hb Ha Hlt H7 H7'. pose (ra k := e_base senv + 4 * Z.of_nat k).
  (* the name *)
  set (s1 := set_x 30 (ra 10%nat) (set_x 4 (xr 6 s) s)).
  assert (xr 4 s1 = xr 6 s ∧ xr 30 s1 = ra 10%nat) as [E4 E30] by (unfold s1; by regs_simpl).
  destruct (print_str_run name s1) as (s2 & Hr2 & H24 & Hp2); [rewrite ?E4; (done || lia)..|]. rewrite E4 in H24. rewrite E30 in Hr2.
  pose proof (pr_x _ _ _ _ Hp2) as Hx2.
  assert (xr 6 s2 = xr 6 s ∧ xr 7 s2 = xr 7 s) as [E26 E27].
  { rewrite (Hx2 6%nat), (Hx2 7%nat) by reg_mem. unfold s1. by regs_simpl. }
  (* the spaces *)
  set (s3 := set_x 30 (ra 13%nat) (set_x 6 (xr 4 s2) (set_x 0 (3 + Z.of_nat (length name - 2)) s2))).
  destruct (print_alignment_run (length name - 2) s3) as (s4 & Hr4 & Hp4); [unfold s3; by regs_simpl|lia|].
  replace (xr 30 s3) with (ra 13%nat) in Hr4 by (unfold s3; by regs_simpl). pose proof (pr_x _ _ _ _ Hp4) as Hx4.
  assert (xr 6 s4 = xr 4 s2 ∧ xr 7 s4 = xr 7 s) as [E46 E47].
  { rewrite (Hx4 6%nat), (Hx4 7%nat) by reg_mem. unfold s3. by regs_simpl. }
  (* the value *)
  set (v := load64 (xr 7 s) s).
  assert (load64 (xr 7 s4) s4 = v) as Ev.
  { unfold v, load64. rewrite E47, (pr_m _ _ _ _ Hp4). unfold s3. rewrite !set_x_mem, (pr_m _ _ _ _ Hp2). unfold s1. by rewrite !set_x_mem. }
  set (s5 := set_x 30 (ra 15%nat) (set_x 7 (xr 7 s + 8) (set_x 4 v s4))).
  destruct (print_hex_run s5) as (s6 & Hr6 & Hp6). pose proof (pr_x _ _ _ _ Hp6) as Hx6.
  assert (xr 4 s5 = v ∧ xr 30 s5 = ra 15%nat) as [E54 E530] by (unfold s5; by regs_simpl). rewrite E54 in Hp6. rewrite E530 in Hr6.
  (* the end of the line *)
  set (s7 := set_x 30 (ra 16%nat) s6). destruct (print_newline_run s7) as (s8 & Hr8 & E830 & Hp8).
  pose proof (pr_x _ _ _ _ Hp8) as Hx8.
  exists s8. split; [|split; [|split]].
  - intros n e Hn. cbn [Nat.add]. eapply runs_next; [reflexivity|reflexivity|]. cbn [exec_instr].
    eapply runs_bl; [reflexivity|right; exact Hr2|].
    do 2 (eapply runs_next; [reflexivity|reflexivity|]). cbn [exec_instr].
    replace ((xr 4 s2 - xr 6 s2) mod 2 ^ 64) with (3 + Z.of_nat (length name - 2))
      by (rewrite H24, E26, Z.mod_small by lia; lia). rewrite xr_set_x_ne by done.
    eapply runs_bl; [reflexivity|right; exact Hr4|].
    eapply runs_next; [reflexivity|reflexivity|]. cbn [exec_instr]. rewrite Ev, E47. unfold REGSZ. rewrite Z.mod_small by lia.
    eapply runs_bl; [reflexivity|right; exact Hr6|].
    eapply runs_bl; [reflexivity|left; split; [exact Hr8|rewrite E830; unfold s7; by regs_simpl]|].
    eapply runs_next; [reflexivity|reflexivity|]. exact Hn.
  - rewrite (Hx8 6%nat) by reg_mem. unfold s7. regs_simpl. rewrite (Hx6 6%nat) by reg_mem.
    unfold s5. regs_simpl. by rewrite E46, H24.
  - rewrite (Hx8 7%nat) by reg_mem. unfold s7. regs_simpl. rewrite (Hx6 7%nat) by reg_mem.
    unfold s5. by regs_simpl.
  - unfold line. rewrite !app_assoc. eapply prints_trans; [|exact Hp8|reg_mem].
    unfold s7, line_clobbers. apply prints_set_x; [reg_mem|].
    eapply prints_trans; [|exact Hp6|reg_mem]. unfold s5. do 3 (apply prints_set_x; [reg_mem|]).
    eapply prints_trans; [|exact Hp4|reg_mem]. unfold s3. do 3 (apply prints_set_x; [reg_mem|]).
    eapply (prints_trans _ _ [] name); [|exact Hp2|reg_mem]. unfold s1. prints.
Qed.

(** *** A group of registers *)
Definition lines (names : list (list Z)) (vs : list Z) : list Z := concat (zip_with line names vs).
Definition strings (names : list (list Z)) : list Z := names ≫= λ name, name ++ [0].
(** The words of the crash buffer from the [i]th. *)
Definition buffer (m : Z → Z) (p : Z) (i : nat) : list Z := (λ j, mem_load64 (p + 8 * Z.of_nat j) m) <$> seq i (8 - i).
(** The core while it prints: [p] is the crash buffer. *)
Record crashing (p : Z) (s : CpuState) : Prop := {
  cr_tpidr : c_sysregs s "tpidr_el3" = p;
  cr_spsel : c_sysregs s "spsel" = 1;
  cr_p : 0 ≤ p ∧ p + 64 < 2 ^ 64;
}.

Lemma size_exit s :
  c_sysregs s "spsel" = 1 →
  runs senv size_controlled_print 2 17 s (Returned (set_x 30 (c_sysregs s "sp_el3") s)).
Proof.
  intros Hsel. eapply runs_next; [reflexivity|reflexivity|]. cbn [exec_instr]. unfold xsp, sp_reg. rewrite Hsel.
  apply runs_return. reflexivity.
Qed.
(** The test at the head of the loop. *)
Lemma size_test p i s :
  crashing p s → xr 7 s = p + 8 * Z.of_nat i → (i ≤ 8)%nat →
  ∃ s1, (∀ n e, runs senv size_controlled_print n (if decide (i = 8)%nat then 17 else 6)%nat s1 e →
                runs senv size_controlled_print (4 + n) 2 s e) ∧ prints [5%nat] [] s s1.
Proof.
  intros [Ht Hsel [Hp0 Hp1]] H7 Hi. exists (set_cmp (xr 7 s) (p + 64) (set_x 5 (p + 64) (set_x 5 p s))). split; [|prints].
  intros n e Hn. cbn [Nat.add]. do 3 run_step. rewrite Ht. unfold CRASH_BUFFER_SIZE. rewrite Z.mod_small by lia.
  eapply runs_next; [reflexivity|reflexivity|]. cbn [c_cmp set_cmp holds]. rewrite H7. rewrite H7 in Hn.
  destruct (decide (i = 8)%nat) as [->|]; [by rewrite Z.eqb_refl|]. by rewrite (proj2 (Z.eqb_neq _ _)) by lia.
Qed.
Lemma size_stop s0 s cs :
  c_sysregs s "spsel" = 1 → prints line_clobbers cs s0 s →
  ∃ s', runs senv size_controlled_print 2 17 s (Returned s') ∧ xr 30 s' = c_sysregs s "sp_el3" ∧ xr 6 s' = xr 6 s ∧
    prints line_clobbers cs s0 s'.
Proof.
  intros Hsel Hp. eexists. split; [by apply size_exit|]. split; [by regs_simpl|]. split; [by regs_simpl|]. unfold line_clobbers in *. prints.
Qed.
Lemma crashing_prints p l cs s s' : crashing p s → prints l cs s s' → crashing p s'.
Proof. intros [Ht Hsel ?] Hp. split; [by rewrite (pr_b _ _ _ _ Hp)..|done]. Qed.
Lemma prints_sub l l' cs cs' s0 s s' :
  prints l cs s0 s → prints l' cs' s s' → (∀ r, r ∈ l' → r ∈ l) → prints l (cs ++ cs') s0 s'.
Proof. apply prints_trans. Qed.
Lemma buffer_S m p i : (i < 8)%nat → buffer m p i = mem_load64 (p + 8 * Z.of_nat i) m :: buffer m p (S i).
Proof. intros Hi. unfold buffer. replace (8 - i)%nat with (S (8 - S i)) by lia. reflexivity. Qed.

Lemma size_step p name i s :
  crashing p s → xr 7 s = p + 8 * Z.of_nat i → (i < 8)%nat → name_ok name →
  bytes_at (xr 6 s) (name ++ [0]) → 0 ≤ xr 6 s → xr 6 s + Z.of_nat (length name) + 1 < 2 ^ 64 →
  ∃ s', (∀ n e, runs senv size_controlled_print n 2 s' e → runs senv size_controlled_print (15 + n) 2 s e) ∧
    xr 6 s' = xr 6 s + Z.of_nat (length name) + 1 ∧ xr 7 s' = p + 8 * Z.of_nat (S i) ∧
    prints line_clobbers (line name (mem_load64 (p + 8 * Z.of_nat i) (c_mem s))) s s'.
Proof.
  intros Hcr H7 Hi Hname Hb Ha Hlt. destruct (size_test p i s Hcr H7 ltac:(lia)) as (s1 & Hrun & Hp1).
  rewrite (decide_False (P := (i = 8)%nat)) in Hrun by lia. pose proof (pr_x _ _ _ _ Hp1) as Hx1. pose proof (cr_p _ _ Hcr) as Hpp.
  assert (∃ c, (name ++ [0]) !! 0%nat = Some c ∧ char_ok c) as (c & Hc0 & Hc).
  { destruct Hname as [Hf Hl]. destruct name as [|c name]; [cbn in Hl; lia|]. exists c. split; [done|]. by apply Forall_cons in Hf as [? _]. }
  pose proof (Hb 0%nat c Hc0) as Hz. rewrite Z.add_0_r in Hz.
  set (s2 := set_x 4 c s1).
  assert (xr 6 s2 = xr 6 s ∧ xr 7 s2 = xr 7 s ∧ c_mem s2 = c_mem s) as (E6 & E7 & Em).
  { unfold s2. regs_simpl. rewrite (pr_m _ _ _ _ Hp1). by rewrite (Hx1 6%nat), (Hx1 7%nat) by reg_mem. }
  destruct (print_line name s2 Hname) as (s' & Hrun' & E6' & E7' & Hp'); [by rewrite E6|rewrite E6; lia|rewrite E6; lia|rewrite E7; lia..|].
  exists s'. split; [|split; [|split]].
  - intros n e Hn. apply (Hrun (2 + (9 + n))%nat). cbn [Nat.add]. eapply runs_next; [reflexivity|reflexivity|]. cbn [exec_instr].
    rewrite (Hx1 6%nat) by reg_mem. change (e_load senv 1 (xr 6 s)) with (image 1 (xr 6 s)). rewrite Hz. fold s2.
    eapply runs_next; [reflexivity|reflexivity|]. replace (xr 4 s2) with c by (unfold s2; by regs_simpl).
    rewrite (proj2 (Z.eqb_neq c 0)) by (unfold char_ok in Hc; lia). by apply Hrun'.
  - by rewrite E6', E6.
  - rewrite E7', E7, H7. lia.
  - unfold load64 in Hp'. rewrite E7, H7, Em in Hp'. change (line _ _) with ([] ++ line name (mem_load64 (p + 8 * Z.of_nat i) (c_mem s))).
    eapply prints_trans; [|exact Hp'|reg_mem]. unfold s2. apply prints_set_x; [reg_mem|].
    change (@nil Z) with (@nil Z ++ []). eapply prints_trans; [apply prints_refl|exact Hp1|reg_mem].
Qed.

Lemma size_loop p names i s0 s cs :
  crashing p s → xr 7 s = p + 8 * Z.of_nat i → (i ≤ 8)%nat → Forall name_ok names →
  bytes_at (xr 6 s) (strings names ++ [0]) → 0 ≤ xr 6 s → xr 6 s + Z.of_nat (length (strings names)) < 2 ^ 64 →
  prints line_clobbers cs s0 s →
  ∃ s', runs senv size_controlled_print (15 * (8 - i) + 8) 2 s (Returned s') ∧ xr 30 s' = c_sysregs s "sp_el3" ∧
    xr 6 s' = xr 6 s + Z.of_nat (length (strings (take (8 - i) names))) ∧
    prints line_clobbers (cs ++ lines names (buffer (c_mem s) p i)) s0 s'.
Proof.
  revert i s cs. induction names as [|name names IH]; intros i s cs Hcr H7 Hi Hn Hb Ha Hlt Hp;
    destruct (size_test p i s Hcr H7 Hi) as (s1 & Hrun & Hp1); pose proof (pr_x _ _ _ _ Hp1) as Hx1;
    assert (prints line_clobbers cs s0 s1) as Hq1
      by (rewrite <-(app_nil_r cs); eapply prints_trans; [exact Hp|exact Hp1|reg_mem]);
    pose proof (crashing_prints _ _ _ _ _ Hcr Hp1) as Hcr1; pose proof (cr_spsel _ _ Hcr1) as Hsel1.
  - destruct (size_stop s0 s1 cs Hsel1 Hq1) as (s' & Hstop & E30 & E6 & Hp').
    assert (lines [] (buffer (c_mem s) p i) = []) as -> by done. rewrite app_nil_r, take_nil.
    set (s2 := set_x 4 0 s1).
    destruct (size_stop s0 s2 cs) as (s3 & Hstop3 & E330 & E36 & Hp3).
    { unfold s2. by regs_simpl. } { unfold s2, line_clobbers in *. prints. }
    destruct (decide (i = 8)%nat) as [->|].
    + exists s'. split; [apply (runs_le _ _ (4 + 2)); [by apply Hrun|lia]|].
      rewrite E30, E6, (pr_b _ _ _ _ Hp1), (Hx1 6%nat) by reg_mem. split; [done|]. split; [cbn; lia|done].
    + exists s3. split.
      * apply (runs_le _ _ (4 + (2 + 2))); [|lia]. apply Hrun. eapply runs_next; [reflexivity|reflexivity|].
        cbn [exec_instr]. rewrite (Hx1 6%nat) by reg_mem. pose proof (Hb 0%nat 0 eq_refl) as Hz. rewrite Z.add_0_r in Hz.
        change (e_load senv 1 (xr 6 s)) with (image 1 (xr 6 s)). rewrite Hz. fold s2.
        eapply runs_next; [reflexivity|reflexivity|]. replace (xr 4 s2) with 0 by (unfold s2; by regs_simpl). exact Hstop3.
      * rewrite E330, E36. unfold s2. regs_simpl. rewrite (pr_b _ _ _ _ Hp1), (Hx1 6%nat) by reg_mem.
        split; [done|]. split; [cbn; lia|done].
  - destruct (decide (i = 8)%nat) as [->|Hne].
    { destruct (size_stop s0 s1 cs Hsel1 Hq1) as (s' & Hstop & E30 & E6 & Hp'). exists s'.
      split; [apply (runs_le _ _ (4 + 2)); [by apply Hrun|lia]|].
      rewrite E30, E6, (pr_b _ _ _ _ Hp1), (Hx1 6%nat) by reg_mem. split; [done|]. split; [cbn; lia|].
      assert (lines (name :: names) (buffer (c_mem s) p 8) = []) as -> by done. by rewrite app_nil_r. }
    clear s1 Hrun Hp1 Hx1 Hq1 Hcr1 Hsel1. apply Forall_cons in Hn as [Hname Hn].
    change (strings (name :: names)) with ((name ++ [0]) ++ strings names) in *. rewrite <-app_assoc in Hb.
    pose proof (text_at_app _ _ _ Hb) as [Hb1 Hb2]. rewrite !length_app in Hlt. rewrite length_app in Hb2. cbn [length] in Hlt, Hb2.
    destruct (size_step p name i s Hcr H7 ltac:(lia) Hname Hb1 Ha ltac:(lia)) as (s1 & Hrun & E6 & E7 & Hp1).
    destruct (IH (S i) s1 (cs ++ line name (mem_load64 (p + 8 * Z.of_nat i) (c_mem s)))) as (s' & Hrun' & E30 & E6' & Hp').
    + by eapply crashing_prints.
    + exact E7.
    + lia.
    + exact Hn.
    + rewrite E6. replace (xr 6 s + Z.of_nat (length name) + 1) with (xr 6 s + Z.of_nat (length name + 1)) by lia. exact Hb2.
    + lia.
    + lia.
    + eapply prints_trans; [exact Hp|exact Hp1|reg_mem].
    + exists s'. split; [|split; [|split]].
      * apply (runs_le _ _ (15 + (15 * (8 - S i) + 8))); [by apply Hrun|lia].
      * by rewrite E30, (pr_b _ _ _ _ Hp1).
      * rewrite E6', E6. replace (8 - i)%nat with (S (8 - S i)) by lia. cbn [take].
        change (strings (name :: ?l)) with ((name ++ [0]) ++ strings l). rewrite !length_app. cbn [length]. lia.
      * rewrite buffer_S by lia. change (lines (name :: names) (?v :: ?vs)) with (line name v ++ lines names vs).
        rewrite app_assoc. by rewrite (pr_m _ _ _ _ Hp1) in Hp'.
Qed.

(** What a report changes: the registers it uses, the stack pointer, and the buffer. *)
Definition report_clobbers : list nat := seq 0 8 ++ [30%nat].
Record reports (l : list nat) (cs : list Z) (s s' : CpuState) : Prop := {
  rep_x : only_clobbers l s s';
  rep_b r : r ≠ "sp_el3" → c_sysregs s' r = c_sysregs s r;
  rep_out : shown (c_trace s') = shown (c_trace s) ++ encode cs;
}.
Lemma prints_reports l l' cs s s' : prints l cs s s' → (∀ r, r ∈ l → r ∈ l') → reports l' cs s s'.
Proof.
  intros [Hx Hb Hm Ho] Hl. split; [|by rewrite Hb|done]. intros r Hr. apply Hx. intros ?. by apply Hr, Hl.
Qed.
Lemma reports_trans l l' cs cs' s s' s'' :
  reports l cs s s' → reports l' cs' s' s'' → (∀ r, r ∈ l' → r ∈ l) → reports l (cs ++ cs') s s''.
Proof.
  intros [Hx Hb Ho] [Hx' Hb' Ho'] Hl. split; [by eapply clobbers_trans|by intros r Hr; rewrite Hb', Hb|].
  rewrite Ho', Ho, <-app_assoc. f_equal. unfold encode. by rewrite bind_app.
Qed.
Lemma crashing_reports p l cs s s' : crashing p s → reports l cs s s' → crashing p s'.
Proof. intros [Ht Hsel ?] Hp. split; [by rewrite (rep_b _ _ _ _ Hp)..|done]. Qed.

Lemma call_size : size_calls image sym xpac device plat "size_controlled_print" = exec GROUP_FUEL senv size_controlled_print 0.
Proof. reflexivity. Qed.
Lemma size_run p names s :
  crashing p s → Forall name_ok names → bytes_at (xr 6 s) (strings names ++ [0]) → 0 ≤ xr 6 s →
  xr 6 s + Z.of_nat (length (strings names)) < 2 ^ 64 →
  ∃ s', size_calls image sym xpac device plat "size_controlled_print" s = Returned s' ∧ xr 30 s' = xr 30 s ∧
    xr 6 s' = xr 6 s + Z.of_nat (length (strings (take 8 names))) ∧
    reports report_clobbers (lines names (buffer (c_mem s) p 0)) s s'.
Proof.
  intros Hcr Hn Hb Ha Hlt. pose proof Hcr as [Ht Hsel Hpp].
  set (s1 := set_x 7 p (set_sysreg "sp_el3" (xr 30 s) s)).
  assert (crashing p s1) as Hcr1 by (unfold s1; split; regs_simpl; done).
  assert (xr 6 s1 = xr 6 s) as E6 by (unfold s1; by regs_simpl).
  destruct (size_loop p names 0 s1 s1 []) as (s' & Hrun & E30 & E6' & Hp'); rewrite ?E6; try done.
  { unfold s1. regs_simpl. cbn. lia. } { lia. } { apply prints_refl. }
  exists s'. split; [|split; [|split]].
  - rewrite call_size. apply (runs_exec _ _ (2 + (15 * (8 - 0) + 8))); [|pose proof group_fuel; lia].
    eapply runs_next; [reflexivity|cbn [next exec_instr]; unfold sp_reg; rewrite Hsel; reflexivity|]. cbn [Z.eqb].
    eapply runs_next; [reflexivity|cbn [next exec_instr]; reflexivity|]. cbn [c_sysregs set_sysreg].
    rewrite fn_lookup_insert_ne, Ht by done. exact Hrun.
  - rewrite E30. unfold s1. regs_simpl. cbn [c_sysregs set_sysreg]. by rewrite fn_lookup_insert.
  - by rewrite E6', E6.
  - replace (c_mem s1) with (c_mem s) in Hp' by (unfold s1; by regs_simpl).
    change (lines names _) with ([] ++ lines names (buffer (c_mem s) p 0)).
    eapply reports_trans; [|apply (prints_reports line_clobbers line_clobbers); [exact Hp'|reg_mem]|reg_mem].
    unfold s1. split; [unfold report_clobbers; clobbers| |by rewrite app_nil_r, set_x_trace].
    intros r Hr. rewrite set_x_sysregs. cbn [c_sysregs set_sysreg]. by rewrite fn_lookup_insert_ne.
Qed.

Lemma stp_base env r1 r2 off s :
  exec_instr env (Stp r1 r2 0 off) s =
  set_mem (mem_store 8 (xr 0 s + off + 8) (xr r2 s) (mem_store 8 (xr 0 s + off) (xr r1 s) (c_mem s))) s.
Proof using Type. reflexivity. Qed.
Lemma set_mem_twice m m' s : set_mem m (set_mem m' s) = set_mem m s.
Proof using Type. reflexivity. Qed.
Ltac stp_step := rewrite exec_S; cbn [lookup list_lookup]; rewrite stp_base, ?xr_set_mem, ?set_mem_twice; cbn [c_mem set_mem].
(** The words of the buffer after it was filled. *)
Lemma load_store_at a b v m : a = b → u64 v → mem_load64 b (mem_store 8 a v m) = v.
Proof using Type. intros -> Hv. by apply load_store_same. Qed.
Ltac buffer_words := unfold buffer; cbn [fmap list_fmap seq Nat.sub];
  repeat first [rewrite load_store_other by lia | rewrite load_store_at by (done || lia)].
Lemma buffer_stores p v0 v1 v2 v3 v4 v5 v6 v7 m :
  Forall u64 [v0; v1; v2; v3; v4; v5; v6; v7] →
  buffer (mem_store 8 (p + REGSZ * 6 + 8) v7 (mem_store 8 (p + REGSZ * 6) v6
    (mem_store 8 (p + REGSZ * 4 + 8) v5 (mem_store 8 (p + REGSZ * 4) v4
    (mem_store 8 (p + REGSZ * 2 + 8) v3 (mem_store 8 (p + REGSZ * 2) v2
    (mem_store 8 (p + 0 + 8) v1 (mem_store 8 (p + 0) v0 m)))))))) p 0 = [v0; v1; v2; v3; v4; v5; v6; v7].
Proof using Type.
  unfold REGSZ. intros Hv. repeat (apply Forall_cons in Hv as [? Hv]). buffer_words. done.
Qed.

Let benv := print_env image sym xpac device (size_calls image sym xpac device plat) "str_in_crash_buf_print".
Lemma call_buf : buf_calls image sym xpac device plat "str_in_crash_buf_print" = run_asm benv str_in_crash_buf_print.
Proof. reflexivity. Qed.
Definition group_values (s : CpuState) : list Z := (λ r, xr r s) <$> seq 8 8.
Lemma buf_run p names s :
  crashing p s → Forall u64 (group_values s) → Forall name_ok names → bytes_at (xr 6 s) (strings names ++ [0]) → 0 ≤ xr 6 s →
  xr 6 s + Z.of_nat (length (strings names)) < 2 ^ 64 →
  ∃ s', buf_calls image sym xpac device plat "str_in_crash_buf_print" s = Returned s' ∧ xr 30 s' = xr 30 s ∧
    xr 6 s' = xr 6 s + Z.of_nat (length (strings (take 8 names))) ∧
    reports report_clobbers (lines names (group_values s)) s s'.
Proof.
  intros Hcr Hu Hn Hb Ha Hlt. pose proof Hcr as [Ht Hsel Hpp].
  rewrite call_buf. unfold run_asm, str_in_crash_buf_print. cbn [length]. 
  asm_step. rewrite Ht. do 4 stp_step. rewrite exec_S. cbn [lookup list_lookup].
  match goal with |- context [e_sym benv _ ?st] => set (s1 := st) end.
  assert (∀ r, r ≠ 0%nat → xr r s1 = xr r s) as Hx1.
  { intros r Hr. unfold s1. rewrite xr_set_mem. by apply xr_set_x_ne. }
  assert (c_sysregs s1 = c_sysregs s ∧ c_trace s1 = c_trace s) as [Hb1 Ht1].
  { unfold s1. cbn [c_sysregs c_trace set_mem]. by rewrite set_x_sysregs, set_x_trace. }
  assert (buffer (c_mem s1) p 0 = group_values s) as Hbuf.
  { unfold s1. cbn [c_mem set_mem]. regs_simpl. by apply buffer_stores. }
  clearbody s1. rewrite <-Hbuf.
  destruct (size_run p names s1) as (s' & Hrun & E30 & E6 & Hrep); rewrite ?(Hx1 6%nat) by done; try done.
  { split; rewrite ?Hb1; done. }
  exists s'. split; [exact Hrun|]. rewrite E30, E6, !Hx1 by done. split; [done|]. split; [done|].
  destruct Hrep as [Rx Rb Ro]. split.
  - intros r Hr. rewrite (Rx r Hr). apply Hx1. intros ->. apply Hr. reg_mem.
  - intros r Hr. by rewrite Rb, Hb1.
  - by rewrite Ro, Ht1.
Qed.

(** *** The report
    [p] is the crash buffer, [s0] the core when the report starts. *)
Context (p : Z) (s0 : CpuState) (prog : list Instr).
Let renv := print_env image sym xpac device (buf_calls image sym xpac device plat) "do_crash_reporting".
Record reporting (l : list nat) (cs : list Z) (s : CpuState) : Prop := {
  rp_crashing : crashing p s;
  rp_group : Forall u64 (group_values s);
  rp_reports : reports l cs s0 s;
}.
(** [x6] is the list of the names that are printed next. *)
Record naming (names : list (list Z)) (s : CpuState) : Prop := {
  nm_ok : Forall name_ok names;
  nm_bytes : bytes_at (xr 6 s) (strings names ++ [0]);
  nm_range : 0 ≤ xr 6 s ∧ xr 6 s + Z.of_nat (length (strings names)) < 2 ^ 64;
}.
Lemma strings_app l l' : strings (l ++ l') = strings l ++ strings l'.
Proof using Type. apply bind_app. Qed.
Lemma naming_drop names s s' :
  naming names s → xr 6 s' = xr 6 s + Z.of_nat (length (strings (take 8 names))) → naming (drop 8 names) s'.
Proof using Type.
  intros [Hok Hb [Ha Hlt]] H6. rewrite <-(take_drop 8 names), strings_app in Hb, Hlt. rewrite length_app in Hlt.
  rewrite <-app_assoc in Hb. apply text_at_app in Hb as [_ Hb]. split; [by apply Forall_drop|by rewrite H6|lia].
Qed.
Lemma lines_split n names vs : lines names vs = lines names (take n vs) ++ lines (drop n names) (drop n vs).
Proof using Type.
  revert names vs. induction n as [|n IH]; intros [|name names] [|v vs]; try done.
  - cbn [take drop]. by destruct (drop n names).
  - cbn [take drop]. change (lines (name :: names) (?v :: ?vs)) with (line name v ++ lines names vs).
    by rewrite (IH names vs), app_assoc.
Qed.
Lemma lines_trim names vs vs' : (length names ≤ length vs)%nat → lines names (vs ++ vs') = lines names vs.
Proof using Type.
  intros Hn. rewrite (lines_split (length vs)), take_app_length, drop_ge by done. by rewrite app_nil_r.
Qed.

Lemma code_cons pc i rest : code_at prog pc (i :: rest) → prog !! pc = Some i ∧ code_at prog (S pc) rest.
Proof using Type.
  intros Hc. split; [by specialize (Hc 0%nat i eq_refl); rewrite Nat.add_0_r in Hc|].
  intros k j Hk. specialize (Hc (S k) j Hk). by rewrite Nat.add_succ_r in Hc.
Qed.
Lemma reporting_set_x l cs r v s :
  r ∈ l → u64 v → reporting l cs s → reporting l cs (set_x r v s).
Proof using Type.
  intros Hr Hv [[Ht Hsel Hp] Hu [Hx Hb Ho]].
  split; [split; by rewrite ?set_x_sysregs| |split; [by apply clobbers_set_x|by intros; rewrite set_x_sysregs; apply Hb|by rewrite set_x_trace]].
  destruct (decide (r = 31%nat)) as [->|H31]; [done|]. unfold group_values in *. rewrite Forall_fmap in Hu |- *.
  eapply Forall_impl; [exact Hu|]. intros q Hq. cbn in *. rewrite xr_set_x by done. by destruct (decide _).
Qed.
Lemma reporting_trans l l' cs cs' s s' :
  reporting l cs s → reports l' cs' s s' → (∀ r, r ∈ l' → r ∈ l) → (∀ r, r ∈ l' → r ∉ seq 8 8) → reporting l (cs ++ cs') s'.
Proof using Type.
  intros [Hcr Hu Hr] Hr' Hl Hg. split; [by eapply crashing_reports| |by eapply reports_trans].
  assert (group_values s' = group_values s) as ->; [|done]. apply list_fmap_ext. intros i r Hi.
  apply (rep_x _ _ _ _ Hr'). intros Hin. apply list_elem_of_lookup_2 in Hi. by apply (Hg r).
Qed.

(** The registers the report may change: with the groups that are read into [x8] to [x15]. *)
Definition dump_clobbers : list nat := seq 0 16 ++ [30%nat].
(** A call that prints a group. *)
Lemma group_step l names vs f rest pc s cs Q :
  code_at prog pc (Bl f :: rest) → reporting l cs s → naming names s → (∀ r, r ∈ report_clobbers → r ∈ l) →
  (∀ ra, ∃ s', buf_calls image sym xpac device plat f (set_x 30 ra s) = Returned s' ∧ xr 30 s' = ra ∧
     xr 6 s' = xr 6 s + Z.of_nat (length (strings (take 8 names))) ∧
     reports report_clobbers (lines names vs) (set_x 30 ra s) s') →
  (∀ s', reporting l (cs ++ lines names vs) s' → naming (drop 8 names) s' → code_at prog (S pc) rest → wp renv prog (S pc) s' Q) →
  wp renv prog pc s Q.
Proof using Type.
  intros Hc Hr Hn Hl Hf Hk. apply code_cons in Hc as [Hi Hc].
  destruct (Hf (e_base renv + 4 * Z.of_nat (S pc))) as (s' & Hrun & E30 & E6 & Hrep).
  eapply wp_bl; [exact Hi|left; split; [exact Hrun|exact E30]|]. apply Hk; [|by apply (naming_drop _ s)|done].
  eapply (reporting_trans _ report_clobbers); [done| |done|reg_not_mem].
  change (lines names vs) with ([] ++ lines names vs). eapply reports_trans; [|exact Hrep|done].
  apply (prints_reports report_clobbers); [unfold report_clobbers; prints|done].
Qed.
Lemma crashing_set_x r v s : crashing p s → crashing p (set_x r v s).
Proof using Type. intros [Ht Hsel Hp]. split; by rewrite ?set_x_sysregs. Qed.
Lemma buf_step l names rest pc s cs Q :
  code_at prog pc (Bl "str_in_crash_buf_print" :: rest) → reporting l cs s → naming names s → (∀ r, r ∈ report_clobbers → r ∈ l) →
  (∀ s', reporting l (cs ++ lines names (group_values s)) s' → naming (drop 8 names) s' → code_at prog (S pc) rest →
     wp renv prog (S pc) s' Q) →
  wp renv prog pc s Q.
Proof.
  intros Hc Hr Hn Hl Hk. eapply (group_step l names (group_values s)); [done..| |done]. intros ra.
  destruct Hr as [Hcr Hu Hr], Hn as [Hok Hb [Ha Hlt]].
  assert (xr 6 (set_x 30 ra s) = xr 6 s ∧ group_values (set_x 30 ra s) = group_values s) as [E6 Eg] by (split; by regs_simpl).
  destruct (buf_run p names (set_x 30 ra s)) as (s' & Hrun & E30 & E6' & Hrep); rewrite ?E6, ?Eg; try done.
  { by apply crashing_set_x. }
  rewrite Eg in Hrep. rewrite E6 in E6'. exists s'. split; [done|]. split; [by rewrite E30, xr_set_x_eq|done].
Qed.
Lemma print_step l names rest pc s cs Q :
  code_at prog pc (Bl "size_controlled_print" :: rest) → reporting l cs s → naming names s → (∀ r, r ∈ report_clobbers → r ∈ l) →
  (∀ s', reporting l (cs ++ lines names (buffer (c_mem s) p 0)) s' → naming (drop 8 names) s' → code_at prog (S pc) rest →
     wp renv prog (S pc) s' Q) →
  wp renv prog pc s Q.
Proof.
  intros Hc Hr Hn Hl Hk. eapply (group_step l names (buffer (c_mem s) p 0)); [done..| |done]. intros ra.
  destruct Hr as [Hcr Hu Hr], Hn as [Hok Hb [Ha Hlt]].
  assert (xr 6 (set_x 30 ra s) = xr 6 s ∧ c_mem (set_x 30 ra s) = c_mem s) as [E6 Em] by (split; by regs_simpl).
  destruct (size_run p names (set_x 30 ra s)) as (s' & Hrun & E30 & E6' & Hrep); rewrite ?E6; try done.
  { by apply crashing_set_x. }
  rewrite Em in Hrep. rewrite E6 in E6'. exists s'. split; [exact Hrun|]. split; [by rewrite E30, xr_set_x_eq|done].
Qed.

(** Registers that are read into [x8] and the following. *)
Definition read_regs (k : nat) (regs : list SysReg) : list Instr := zip_with Mrs (seq k (length regs)) regs.
Lemma reading l k regs rest pc s cs Q :
  code_at prog pc (read_regs k regs ++ rest) → reporting l cs s → Forall (λ r, u64 (c_sysregs s r)) regs →
  (∀ r, (k ≤ r < k + length regs)%nat → r ∈ l) → (8 ≤ k)%nat → (k + length regs ≤ 16)%nat →
  (∀ s', reporting l cs s' → c_sysregs s' = c_sysregs s →
     (∀ r, xr r s' = if decide (k ≤ r < k + length regs)%nat then c_sysregs s (regs !!! (r - k)%nat) else xr r s) →
     code_at prog (pc + length regs) rest → wp renv prog (pc + length regs) s' Q) →
  wp renv prog pc s Q.
Proof using Type.
  revert k pc s. induction regs as [|reg regs IH]; intros k pc s Hc Hr Hu Hl Hk8 Hk Hgo.
  - rewrite <-(Nat.add_0_r pc). apply Hgo; [done|done| |by rewrite Nat.add_0_r]. intros r. rewrite decide_False; [done|cbn; lia].
  - cbn [length] in *. apply code_cons in Hc as [Hi Hc]. apply Forall_cons in Hu as [Hv Hu].
    eapply wp_next; [exact Hi|reflexivity|]. cbn [exec_instr].
    eapply (IH (S k)); [exact Hc|apply reporting_set_x; [apply Hl; lia|apply Hv|done]|by rewrite set_x_sysregs|..|].
    + intros r Hr'. apply Hl. lia.
    + lia.
    + lia.
    + intros s' Hr' Hb' Hx' Hc'. rewrite set_x_sysregs in Hb'. replace (S pc + length regs)%nat with (pc + S (length regs))%nat in * by lia.
      apply Hgo; [done|done| |done].
      intros r. rewrite Hx', set_x_sysregs. destruct (decide (r = k)) as [->|Hne].
      * rewrite decide_False, decide_True by lia. by rewrite xr_set_x_eq, Nat.sub_diag by lia.
      * rewrite xr_set_x_ne by done. destruct (decide (S k ≤ r < S k + length regs)%nat).
        -- rewrite decide_True by lia. by replace (r - k)%nat with (S (r - S k)) by lia.
        -- by rewrite decide_False by lia.
Qed.
Lemma group_read regs s s' :
  (length regs ≤ 8)%nat →
  (∀ r, xr r s' = if decide (8 ≤ r < 8 + length regs)%nat then c_sysregs s (regs !!! (r - 8)%nat) else xr r s) →
  ∃ vs, group_values s' = (c_sysregs s <$> regs) ++ vs ∧ (length vs = 8 - length regs)%nat.
Proof using Type.
  intros Hn Hx. exists ((λ r, xr r s') <$> seq (8 + length regs) (8 - length regs)). split; [|by rewrite length_fmap, length_seq].
  unfold group_values. replace 8%nat with (length regs + (8 - length regs))%nat at 2 by lia.
  rewrite seq_app, fmap_app. f_equal. apply list_eq. intros i. rewrite !list_lookup_fmap.
  destruct (decide (i < length regs)%nat).
  - rewrite lookup_seq_lt by done. cbn [fmap option_fmap option_map]. rewrite Hx, decide_True, Nat.add_sub' by lia.
    by rewrite list_lookup_lookup_total_lt.
  - by rewrite lookup_seq_ge, lookup_ge_None_2 by lia.
Qed.
(** The system registers, eight at a time. *)
Fixpoint dump_groups (n : nat) (regs : list SysReg) : list Instr :=
  match n with
  | O => []
  | S n => read_regs 8 (take 8 regs) ++ [Bl "str_in_crash_buf_print"] ++ dump_groups n (drop 8 regs)
  end.
Context (Hbank : ∀ r, u64 (c_sysregs s0 r)).
Definition reg_lines (regs : list SysReg) : list Z := lines (ascii <$> regs) (c_sysregs s0 <$> regs).
Lemma lines_group names vs vs' : (length vs' = 8 - length (take 8 vs))%nat → length names = length vs →
  lines names (take 8 vs ++ vs') = lines names (take 8 vs).
Proof using Type.
  intros Hv Hn. destruct (decide (length vs ≤ 8)%nat).
  - apply lines_trim. rewrite length_take. lia.
  - rewrite length_take_le in Hv by lia. destruct vs'; [by rewrite app_nil_r|done].
Qed.
Lemma groups_run n regs rest pc s cs Q :
  code_at prog pc (dump_groups n regs ++ rest) → (length regs ≤ 8 * n)%nat → reporting dump_clobbers cs s →
  Forall (λ r, r ≠ "sp_el3") regs → naming (ascii <$> regs) s →
  (∀ pc' s', reporting dump_clobbers (cs ++ reg_lines regs) s' → naming [] s' → code_at prog pc' rest → wp renv prog pc' s' Q) →
  wp renv prog pc s Q.
Proof.
  revert regs pc s cs. induction n as [|n IH]; intros regs pc s cs Hc Hlen Hr Hsp Hn Hgo.
  { destruct regs; [|cbn in Hlen; lia]. apply (Hgo pc s); [|done..]. unfold reg_lines. by rewrite app_nil_r. }
  assert (length (take 8 regs) ≤ 8)%nat as H8 by (rewrite length_take; lia).
  assert (∀ r, r ∈ regs → c_sysregs s r = c_sysregs s0 r) as Hb.
  { intros r Hin. apply (rep_b _ _ _ _ (rp_reports _ _ _ Hr)). by apply (proj1 (Forall_forall _ _) Hsp r). }
  assert (c_sysregs s <$> take 8 regs = take 8 (c_sysregs s0 <$> regs)) as Ev.
  { rewrite <-fmap_take. apply list_fmap_ext. intros i r Hi. apply Hb, (list_elem_of_lookup_2 _ i). by apply lookup_take_Some in Hi as [? _]. }
  cbn [dump_groups] in Hc. rewrite <-!app_assoc in Hc. eapply (reading dump_clobbers 8); [exact Hc|exact Hr|..|].
  - apply Forall_take, Forall_forall. intros r Hin. rewrite (Hb r Hin). apply Hbank.
  - intros r Hrr. unfold dump_clobbers. apply elem_of_app. left. apply elem_of_seq. lia.
  - lia.
  - lia.
  - clear Hc. intros s1 Hr1 Hb1 Hx1 Hc. destruct (group_read _ _ _ H8 Hx1) as (vs & Hvs & Hlv). rewrite Ev in Hvs.
    assert (naming (ascii <$> regs) s1) as Hn1.
    { destruct Hn as [? Hnb ?]. split; rewrite ?(Hx1 6%nat), ?decide_False by lia; done. }
    eapply buf_step; [exact Hc|exact Hr1|exact Hn1|reg_mem|]. clear Hc. intros s2 Hr2 Hn2 Hc.
    rewrite Hvs, lines_group in Hr2; [|by rewrite Hlv, <-fmap_take, length_fmap|by rewrite !length_fmap].
    rewrite <-fmap_drop in Hn2. eapply (IH (drop 8 regs)); [exact Hc|rewrite length_drop; lia|exact Hr2|by apply Forall_drop|done|].
    intros pc' s' Hr'. apply Hgo. unfold reg_lines in *. rewrite (lines_split 8), app_assoc, <-!fmap_drop. done.
Qed.
(** *** The registers of the core *)
Lemma reporting_set_mem l cs m s : reporting l cs s → reporting l cs (set_mem m s).
Proof using Type. intros [[Ht Hsel Hp] Hu [Hx Hb Ho]]. by split. Qed.
Lemma naming_at regs l :
  bytes_at l (asciz (regs ++ [EmptyString])) → 0 ≤ l → l + Z.of_nat (length (asciz (regs ++ [EmptyString]))) < 2 ^ 64 →
  Forall name_ok (ascii <$> regs) → ∀ s, xr 6 s = l → naming (ascii <$> regs) s.
Proof using Type.
  assert (asciz (regs ++ [EmptyString]) = strings (ascii <$> regs) ++ [0]) as ->.
  { unfold asciz, strings. rewrite bind_app. f_equal. induction regs as [|r regs IH]; [done|]. cbn. f_equal. exact IH. }
  intros Hb Hl Hlt Hok s <-. rewrite length_app in Hlt. split; [done|done|lia].
Qed.
Lemma names_ok : Forall (λ r, name_ok (ascii r)) (GP_REGS ++ EL3_SYS_REGS ++ NON_EL3_SYS_REGS).
Proof using Type. unfold name_ok, char_ok. apply (bool_decide_eq_true_1 _). vm_compute. reflexivity. Qed.
Lemma naming_rodata f regs s :
  (f, asciz (regs ++ [EmptyString])) ∈ crash_rodata → Forall (λ r, name_ok (ascii r)) regs → xr 6 s = sym f → naming (ascii <$> regs) s.
Proof.
  intros Hf Hok H6. destruct (Hrodata _ _ Hf) as (Hb & Hlo & Hhi). eapply naming_at; [exact Hb|lia|lia|by rewrite Forall_fmap|done].
Qed.

Ltac code_step Hc := let Hi := fresh in
  apply code_cons in Hc as [Hi Hc]; eapply wp_next; [exact Hi|reflexivity|]; clear Hi; cbn [exec_instr].
Ltac stp_code Hc := let Hi := fresh in
  apply code_cons in Hc as [Hi Hc]; eapply wp_next; [exact Hi|reflexivity|]; clear Hi;
  rewrite stp_base, ?xr_set_mem, ?set_mem_twice; cbn [c_mem set_mem]; rewrite ?set_x_mem.

Lemma group_values_reports l cs s : reporting l cs s → (∀ r, r ∈ l → r ∉ seq 8 8) → group_values s = group_values s0.
Proof using Type.
  intros Hr Hl. apply list_fmap_ext. intros i r Hi. apply (rep_x _ _ _ _ (rp_reports _ _ _ Hr)). intros Hin.
  apply list_elem_of_lookup_2 in Hi. by apply (Hl r).
Qed.
Context (Hregs : ∀ r, u64 (xr r s0)).
Lemma naming_eq names s s' : naming names s → xr 6 s' = xr 6 s → naming names s'.
Proof using Type. intros [? ? ?] E. split; by rewrite ?E. Qed.
(** The crash buffer is filled. *)
Lemma reporting_fill l cs m s : 0%nat ∈ l → reporting l cs s → reporting l cs (set_mem m (set_x 0 p s)).
Proof using Type.
  intros Hl Hr. pose proof (cr_p _ _ (rp_crashing _ _ _ Hr)). apply reporting_set_mem, reporting_set_x; [done|unfold u64; lia|done].
Qed.
Lemma buffer_word7 v0 v1 v2 v3 v4 v5 v6 w v m :
  u64 v → buffer m p 0 = [v0; v1; v2; v3; v4; v5; v6; w] →
  buffer (mem_store 8 (p + REGSZ * 7) v m) p 0 = [v0; v1; v2; v3; v4; v5; v6; v].
Proof using Type.
  intros Hv Hb. unfold REGSZ. unfold buffer in Hb. cbn [fmap list_fmap seq Nat.sub] in Hb. simplify_eq. by buffer_words.
Qed.
Lemma buffer_6 v0 v1 v2 v3 v4 v5 m :
  Forall u64 [v0; v1; v2; v3; v4; v5] →
  ∃ vs, buffer (mem_store 8 (p + REGSZ * 4 + 8) v5 (mem_store 8 (p + REGSZ * 4) v4
    (mem_store 8 (p + REGSZ * 2 + 8) v3 (mem_store 8 (p + REGSZ * 2) v2
    (mem_store 8 (p + 0 + 8) v1 (mem_store 8 (p + 0) v0 m)))))) p 0 = [v0; v1; v2; v3; v4; v5] ++ vs.
Proof using Type.
  unfold REGSZ. intros Hv. repeat (apply Forall_cons in Hv as [? Hv]). eexists. buffer_words. reflexivity.
Qed.
Lemma reports_kept l cs s r : reporting l cs s → r ∉ l → xr r s = xr r s0.
Proof using Type. intros Hr Hl. by apply (rep_x _ _ _ _ (rp_reports _ _ _ Hr)). Qed.

(** [x16] to [x29], behind the names of the others. *)
Lemma gp_tail names rest pc s cs Q :
  code_at prog pc (drop 5 report_gp_regs ++ rest) → reporting report_clobbers cs s → naming names s → length names = 14%nat →
  (∀ pc' s', reporting report_clobbers (cs ++ lines names ((λ r, xr r s0) <$> seq 16 14)) s' →
     code_at prog pc' rest → wp renv prog pc' s' Q) →
  wp renv prog pc s Q.
Proof.
  intros Hc Hr Hn Hlen Hgo. unfold report_gp_regs in Hc. cbn [app drop] in Hc.
  code_step Hc. rewrite (cr_tpidr _ _ (rp_crashing _ _ _ Hr)). do 4 stp_code Hc. regs_simpl.
  rewrite (reports_kept _ _ _ 16%nat Hr), (reports_kept _ _ _ 17%nat Hr), (reports_kept _ _ _ 18%nat Hr), (reports_kept _ _ _ 19%nat Hr),
    (reports_kept _ _ _ 20%nat Hr), (reports_kept _ _ _ 21%nat Hr), (reports_kept _ _ _ 22%nat Hr), (reports_kept _ _ _ 23%nat Hr) by reg_mem.
  eapply (print_step report_clobbers); [exact Hc|apply reporting_fill; [reg_mem|exact Hr]|by eapply naming_eq; [exact Hn|regs_simpl]|done|].
  cbn [c_mem set_mem]. rewrite buffer_stores by (repeat (apply Forall_cons; split; [apply Hregs|]); by apply Forall_nil).
  clear Hc Hn. intros s2 Hr2 Hn2 Hc. code_step Hc. rewrite (cr_tpidr _ _ (rp_crashing _ _ _ Hr2)). do 3 stp_code Hc. regs_simpl.
  rewrite (reports_kept _ _ _ 24%nat Hr2), (reports_kept _ _ _ 25%nat Hr2), (reports_kept _ _ _ 26%nat Hr2), (reports_kept _ _ _ 27%nat Hr2),
    (reports_kept _ _ _ 28%nat Hr2), (reports_kept _ _ _ 29%nat Hr2) by reg_mem.
  eapply (print_step report_clobbers); [exact Hc|apply reporting_fill; [reg_mem|exact Hr2]|by eapply naming_eq; [exact Hn2|regs_simpl]|done|].
  cbn [c_mem set_mem].
  destruct (buffer_6 (xr 24 s0) (xr 25 s0) (xr 26 s0) (xr 27 s0) (xr 28 s0) (xr 29 s0) (c_mem s2)) as (vs & ->).
  { repeat (apply Forall_cons; split; [apply Hregs|]). by apply Forall_nil. }
  rewrite lines_trim by (rewrite length_drop, Hlen; cbn; lia). clear Hc Hn2. intros s3 Hr3 Hn3 Hc. apply (Hgo _ s3); [|exact Hc].
  rewrite (lines_split 8 names), app_assoc. exact Hr3.
Qed.
Lemma gp_run v0 v1 v2 v3 v4 v5 v6 w rest pc s cs Q :
  code_at prog pc (report_gp_regs ++ rest) → reporting report_clobbers cs s → xr 7 s = xr 7 s0 →
  buffer (c_mem s) p 0 = [v0; v1; v2; v3; v4; v5; v6; w] →
  (∀ pc' s', reporting report_clobbers
      (cs ++ lines (ascii <$> GP_REGS) ([v0; v1; v2; v3; v4; v5; v6] ++ ((λ r, xr r s0) <$> seq 7 23))) s' →
     code_at prog pc' rest → wp renv prog pc' s' Q) →
  wp renv prog pc s Q.
Proof.
  intros Hc Hr H7 Hbuf Hgo. change (report_gp_regs ++ rest) with
    ([Mrs 0 "tpidr_el3"; Str 7 0 (REGSZ * 7); Adr 6 "gp_regs"; Bl "size_controlled_print"; Bl "str_in_crash_buf_print"] ++
     drop 5 report_gp_regs ++ rest) in Hc. cbn [app] in Hc.
  (* x0 to x7 *)
  code_step Hc. code_step Hc. code_step Hc. rewrite (cr_tpidr _ _ (rp_crashing _ _ _ Hr)).
  change (xsp 0 ?x) with (xr 0 x). unfold store64. regs_simpl. rewrite H7.
  assert (naming (ascii <$> GP_REGS) (set_x 6 (sym "gp_regs") (set_mem (mem_store 8 (p + REGSZ * 7) (xr 7 s0) (c_mem s)) (set_x 0 p s)))) as Hn.
  { apply (naming_rodata "gp_regs"); [right; left| |by regs_simpl]. by pose proof names_ok as [? _]%Forall_app. }
  destruct (Hrodata "gp_regs" _ ltac:(right; left)) as (_ & Hlo & Hhi).
  eapply (print_step report_clobbers); [exact Hc|apply reporting_set_x; [reg_mem|change (u64 (sym "gp_regs")); unfold u64; lia|apply reporting_fill; [reg_mem|exact Hr]]|exact Hn|done|].
  rewrite set_x_mem. cbn [c_mem set_mem]. erewrite buffer_word7 by (apply Hregs || exact Hbuf). clear Hc Hn.
  (* x8 to x15 *)
  intros s2 Hr2 Hn2 Hc. eapply (buf_step report_clobbers); [exact Hc|exact Hr2|exact Hn2|done|].
  rewrite (group_values_reports _ _ _ Hr2) by reg_not_mem. clear Hc Hn2. intros s3 Hr3 Hn3 Hc.
  eapply gp_tail; [exact Hc|exact Hr3|exact Hn3|reflexivity|]. clear Hc Hn3. intros pc' s' Hr' Hc'.
  apply (Hgo pc' s'); [|exact Hc']. rewrite <-!app_assoc in Hr'.
  rewrite (lines_split 8), (lines_split 8 (drop 8 _) (drop 8 _)). exact Hr'.
Qed.

(** *** The message and [x30] *)
Definition x30_code (target : nat) : list Instr :=
  [Mrs 0 "tpidr_el3"; Stp 2 3 0 (REGSZ * 2); Stp 4 5 0 (REGSZ * 4); Stp 6 30 0 (REGSZ * 6);
   Bl "plat_crash_console_init"; Cbz 0 target; MovSp 4; Bl "asm_print_str"; MovI 0 4; Bl "print_alignment";
   Mrs 0 "tpidr_el3"; Ldr 4 0 (REGSZ * 7)] ++ (if ENABLE_PAUTH then [Xpaci 4] else []) ++ [Bl "asm_print_hex"; Bl "asm_print_newline"].
Definition stripped (v : Z) : Z := if ENABLE_PAUTH then xpac v else v.

(** What the firmware relies on: the console can be initialised and flushed, at most
    eight registers of the implementation of the core, [cpu_regs], are read into [x8] and
    the following, the platform may print more, and the panic handler does not return. *)
Context (cpu_regs : Z → list (string * SysReg)).
Class CrashLaws : Prop := {
  init_ok s : ∃ s', plat "plat_crash_console_init" s = Returned s' ∧ xr 0 s' ≠ 0 ∧ prints (seq 0 5) [] s s';
  flush_ok s : ∃ s', plat "plat_crash_console_flush" s = Returned s' ∧ prints [0; 1]%nat [] s s';
  cpu_regs_ok midr r : r ∈ (cpu_regs midr).*2 → r ≠ "sp_el3" ∧ r ≠ "tpidr_el3" ∧ r ≠ "spsel";
  cpu_dump_ok s : naming [] s → (∀ r, r ≠ "sp_el3" → u64 (c_sysregs s r)) → Forall u64 (group_values s) →
    let regs := cpu_regs (c_sysregs s "midr_el1") in
    ∃ s', plat "cpu_dump_registers" s = Returned s' ∧ xr 30 s' = xr 30 s ∧ prints (seq 0 16) [] s s' ∧
      naming (ascii <$> regs.*1) s' ∧ (∃ vs, group_values s' = (c_sysregs s <$> regs.*2) ++ vs) ∧ Forall u64 (group_values s');
  plat_dump_ok s q : crashing q s → u64 (xr 30 s) → (∀ r, r ≠ "sp_el3" → u64 (c_sysregs s r)) → Forall u64 (group_values s) →
    ∃ s' out, plat "plat_crash_print_regs" s = Returned s' ∧ xr 30 s' = xr 30 s ∧
      reports (seq 0 12 ++ [16; 17; 30]%nat) out s s';
  panic_ok s : match plat "plat_panic_handler" s with Returned _ | ReturnedTo _ _ => False | _ => True end;
}.
Context {Hlaws : CrashLaws}.

Definition x30_clobbers : list nat := [0; 1; 2; 3; 4; 5; 30]%nat.
Lemma buffer_x30 v0 v1 l v2 v3 v4 v5 v6 v7 m :
  Forall u64 [v2; v3; v4; v5; v6; v7] → buffer m p 0 = v0 :: v1 :: l →
  buffer (mem_store 8 (p + REGSZ * 6 + 8) v7 (mem_store 8 (p + REGSZ * 6) v6
    (mem_store 8 (p + REGSZ * 4 + 8) v5 (mem_store 8 (p + REGSZ * 4) v4
    (mem_store 8 (p + REGSZ * 2 + 8) v3 (mem_store 8 (p + REGSZ * 2) v2 m)))))) p 0 = [v0; v1; v2; v3; v4; v5; v6; v7].
Proof using Type.
  unfold REGSZ. intros Hv Hb. repeat (apply Forall_cons in Hv as [? Hv]). unfold buffer in Hb. cbn [fmap list_fmap seq Nat.sub] in Hb.
  simplify_eq. by buffer_words.
Qed.
(** A call that prints. *)
Lemma print_call l l' cs cs' f rest pc s1 s Q :
  code_at prog pc (Bl f :: rest) → prints l cs s1 s → 30%nat ∈ l → (∀ r, r ∈ l' → r ∈ l) →
  (∀ ra, ∃ s', (buf_calls image sym xpac device plat f (set_x 30 ra s) = Returned s' ∧ xr 30 s' = ra ∨
       buf_calls image sym xpac device plat f (set_x 30 ra s) = ReturnedTo ra s') ∧ prints l' cs' (set_x 30 ra s) s') →
  (∀ s', prints l (cs ++ cs') s1 s' → code_at prog (S pc) rest → wp renv prog (S pc) s' Q) →
  wp renv prog pc s Q.
Proof using Type.
  intros Hc Hp H30 Hl Hf Hk. apply code_cons in Hc as [Hi Hc].
  destruct (Hf (e_base renv + 4 * Z.of_nat (S pc))) as (s' & Hrun & Hp'). eapply wp_bl; [exact Hi|exact Hrun|].
  apply Hk; [|done]. eapply prints_trans; [|exact Hp'|done]. by apply prints_set_x.
Qed.
Lemma x30_value v rest pc s1 s cs Q :
  code_at prog pc ((if ENABLE_PAUTH then [Xpaci 4] else []) ++ [Bl "asm_print_hex"; Bl "asm_print_newline"] ++ rest) →
  prints x30_clobbers cs s1 s → xr 4 s = v →
  (∀ pc' s', prints x30_clobbers (cs ++ hex_digits 16 (stripped v) ++ [NEWLINE]) s1 s' → code_at prog pc' rest → wp renv prog pc' s' Q) →
  wp renv prog pc s Q.
Proof.
  intros Hc Hp H4 Hgo.
  assert (∃ pc' s', code_at prog pc' ([Bl "asm_print_hex"; Bl "asm_print_newline"] ++ rest) ∧ prints x30_clobbers cs s1 s' ∧
    xr 4 s' = stripped v ∧ (wp renv prog pc' s' Q → wp renv prog pc s Q)) as (pc1 & s2 & Hc2 & Hp2 & H42 & Hw).
  { unfold stripped. destruct ENABLE_PAUTH; [|by exists pc, s]. apply code_cons in Hc as [Hi Hc].
    exists (S pc), (set_x 4 (xpac (xr 4 s)) s). split; [done|]. split; [unfold x30_clobbers in *; prints|].
    split; [rewrite xr_set_x_eq by done; by rewrite H4|]. intros Hw. eapply wp_next; [exact Hi|reflexivity|]. exact Hw. }
  apply Hw. clear Hw Hc. cbn [app] in Hc2.
  eapply (print_call x30_clobbers hex_clobbers _ (hex_digits 16 (stripped v))); [exact Hc2|exact Hp2|reg_mem|reg_mem| |].
  { intros ra. destruct (print_hex_run (set_x 30 ra s2)) as (s' & Hrun & Hp'). rewrite xr_set_x_eq in Hrun by done.
    rewrite xr_set_x_ne, H42 in Hp' by done. exists s'. split; [right; exact Hrun|done]. }
  clear Hc2. intros s3 Hp3 Hc.
  eapply (print_call x30_clobbers [0; 1; 2]%nat _ [NEWLINE]); [exact Hc|exact Hp3|reg_mem|reg_mem| |].
  { intros ra. destruct (print_newline_run (set_x 30 ra s3)) as (s' & Hrun & E30 & Hp'). rewrite xr_set_x_eq in E30 by done.
    exists s'. split; [left; split; [exact Hrun|done]|done]. }
  clear Hc. intros s4 Hp4 Hc. rewrite <-app_assoc in Hp4. by eapply Hgo.
Qed.
Lemma x30_run target head v0 v1 l rest Q :
  code_at prog 0 (x30_code target ++ rest) → crashing p s0 → buffer (c_mem s0) p 0 = v0 :: v1 :: l →
  bytes_at (c_sysregs s0 "sp_el3") (head ++ ascii "x30" ++ [0]) → Forall char_ok head → (length head ≤ 200)%nat →
  0 ≤ c_sysregs s0 "sp_el3" → c_sysregs s0 "sp_el3" + Z.of_nat (length head) + 4 < 2 ^ 64 →
  (∀ pc' s', reporting report_clobbers (head ++ line (ascii "x30") (stripped (xr 30 s0))) s' → xr 7 s' = xr 7 s0 →
     buffer (c_mem s') p 0 = [v0; v1; xr 2 s0; xr 3 s0; xr 4 s0; xr 5 s0; xr 6 s0; xr 30 s0] →
     code_at prog pc' rest → wp renv prog pc' s' Q) →
  wp renv prog 0 s0 Q.
Proof.
  intros Hc Hcr Hbuf Hmsg Hch Hlen Ha Hlt Hgo. unfold x30_code in Hc. rewrite <-!app_assoc in Hc. cbn [app] in Hc.
  (* the registers are saved, and the console initialised *)
  code_step Hc. rewrite (cr_tpidr _ _ Hcr). do 3 stp_code Hc. regs_simpl.
  assert (Forall u64 [xr 2 s0; xr 3 s0; xr 4 s0; xr 5 s0; xr 6 s0; xr 30 s0]) as Hu
    by (repeat (apply Forall_cons; split; [apply Hregs|]); by apply Forall_nil).
  pose proof (buffer_x30 _ _ _ _ _ _ _ _ _ _ Hu Hbuf) as Hbuf1.
  match goal with |- wp _ _ _ (set_mem ?m _) _ => set (m1 := m) in * end. set (s1 := set_mem m1 (set_x 0 p s0)).
  assert (c_mem s1 = m1 ∧ c_sysregs s1 = c_sysregs s0 ∧ xr 7 s1 = xr 7 s0) as (Em & Eb & E7).
  { unfold s1. regs_simpl. split; [done|]. split; [|done]. cbn [c_sysregs set_mem]. by rewrite set_x_sysregs. }
  apply code_cons in Hc as [Hi Hc]. destruct (init_ok (set_x 30 (e_base renv + 4 * Z.of_nat 5) s1)) as (s2 & Hrun2 & H02 & Hp2).
  eapply wp_bl; [exact Hi|left; split; [exact Hrun2|rewrite (pr_x _ _ _ _ Hp2 30%nat) by reg_mem; by regs_simpl]|]. clear Hi.
  assert (prints x30_clobbers [] s1 s2) as Hq2.
  { change (@nil Z) with (@nil Z ++ []). eapply prints_trans; [|exact Hp2|reg_mem]. unfold x30_clobbers. prints. }
  code_step Hc. rewrite (proj2 (Z.eqb_neq _ _) H02).
  (* the message *)
  code_step Hc. replace (xsp SP s2) with (c_sysregs s0 "sp_el3").
  2: { unfold xsp, sp_reg. rewrite decide_True by done. by rewrite (pr_b _ _ _ _ Hq2), Eb, (cr_spsel _ _ Hcr). }
  eapply (print_call x30_clobbers str_clobbers [] (head ++ ascii "x30") _ _ _ s1); [exact Hc|unfold x30_clobbers in *; prints|reg_mem|reg_mem| |].
  { intros ra. set (s3 := set_x 30 ra _). assert (xr 4 s3 = c_sysregs s0 "sp_el3") as E4 by (unfold s3; by regs_simpl).
    destruct (print_str_run (head ++ ascii "x30") s3) as (s' & Hrun & _ & Hp'); rewrite ?E4, ?length_app; cbn [length ascii];
      [by rewrite <-app_assoc|apply Forall_app; split; [done|by repeat constructor]|lia|done|lia|].
    exists s'. split; [right|done]. replace (xr 30 s3) with ra in Hrun by (unfold s3; by regs_simpl). exact Hrun. }
  clear Hc. intros s3 Hp3 Hc. code_step Hc.
  eapply (print_call x30_clobbers str_clobbers (head ++ ascii "x30") (drop 1 spacer) _ _ _ s1); [exact Hc|unfold x30_clobbers in *; prints|reg_mem|reg_mem| |].
  { intros ra. destruct (print_alignment_run 1 (set_x 30 ra (set_x 0 4 s3))) as (s' & Hrun & Hp'); [by regs_simpl|lia|].
    rewrite xr_set_x_eq in Hrun by done. exists s'. split; [right; exact Hrun|done]. }
  (* the value *)
  clear Hc. intros s4 Hp4 Hc. do 2 code_step Hc. rewrite (pr_b _ _ _ _ Hp4), Eb, (cr_tpidr _ _ Hcr).
  change (xsp 0 ?x) with (xr 0 x). rewrite xr_set_x_eq by done. unfold load64. rewrite set_x_mem, (pr_m _ _ _ _ Hp4), Em.
  eapply (x30_value (xr 30 s0) _ _ s1); [exact Hc|unfold x30_clobbers in *; prints| |].
  { rewrite xr_set_x_eq by done. unfold buffer in Hbuf1. cbn [fmap list_fmap seq Nat.sub] in Hbuf1. injection Hbuf1. done. }
  clear Hc. intros pc' s' Hp Hc. pose proof (pr_x _ _ _ _ Hp) as Hx. apply (Hgo pc' s'); [|by rewrite (Hx 7%nat) by reg_mem|by rewrite (pr_m _ _ _ _ Hp), Em|done].
  assert (reports report_clobbers [] s0 s1) as Hr1.
  { unfold s1. split; [|intros; cbn [c_sysregs set_mem]; by rewrite set_x_sysregs|cbn [c_trace set_mem]; by rewrite set_x_trace, app_nil_r].
    apply clobbers_set_mem, clobbers_set_x; [reg_mem|apply clobbers_refl]. }
  assert (reporting report_clobbers [] s0) as Hr0.
  { split; [done|unfold group_values; rewrite Forall_fmap; apply Forall_forall; intros; apply Hregs|]. split; [apply clobbers_refl|done|by rewrite app_nil_r]. }
  change (head ++ line _ _) with ([] ++ (head ++ ascii "x30" ++ drop 1 spacer ++ hex_digits 16 (stripped (xr 30 s0)) ++ [NEWLINE])).
  eapply (reporting_trans _ report_clobbers); [exact Hr0| |done|reg_not_mem].
  rewrite <-(app_nil_l (head ++ _)). eapply reports_trans; [exact Hr1| |done].
  rewrite <-!app_assoc in Hp. cbn [app] in Hp. by apply (prints_reports x30_clobbers); [|reg_mem].
Qed.

(** *** The whole report *)
(** The code is in the address space. *)
Context (Hcode : 0 ≤ sym "do_crash_reporting" ∧ sym "do_crash_reporting" + 4 * Z.of_nat (length prog) < 2 ^ 64).
Definition report_end : list Instr :=
  [Bl "cpu_dump_registers"; Bl "str_in_crash_buf_print"; Bl "plat_crash_print_regs"; Bl "plat_crash_console_flush"; Bl "plat_panic_handler"].
Lemma el3_groups : report_el3_sys_regs = Adr 6 "el3_sys_regs" :: dump_groups 2 EL3_SYS_REGS.
Proof using Type. reflexivity. Qed.
Lemma non_el3_groups : report_non_el3_sys_regs = Adr 6 "non_el3_sys_regs" :: dump_groups 5 NON_EL3_SYS_REGS.
Proof using Type. reflexivity. Qed.

(** A list of system registers. *)
Lemma sys_regs_run f n regs rest pc s cs Q :
  code_at prog pc (Adr 6 f :: dump_groups n regs ++ rest) → (f, asciz (regs ++ [EmptyString])) ∈ crash_rodata →
  (length regs ≤ 8 * n)%nat → Forall (λ r, name_ok (ascii r)) regs → Forall (λ r, r ≠ "sp_el3") regs → reporting dump_clobbers cs s →
  (∀ pc' s', reporting dump_clobbers (cs ++ reg_lines regs) s' → naming [] s' → code_at prog pc' rest → wp renv prog pc' s' Q) →
  wp renv prog pc s Q.
Proof.
  intros Hc Hf Hlen Hok Hsp Hr Hgo. code_step Hc. destruct (Hrodata _ _ Hf) as (_ & Hlo & Hhi).
  eapply groups_run; [exact Hc|done|apply reporting_set_x; [reg_mem|change (u64 (sym f)); unfold u64; lia|exact Hr]|done| |done].
  eapply naming_rodata; [done|done|by regs_simpl].
Qed.
Lemma reporting_more l l' cs s : reporting l cs s → (∀ r, r ∈ l → r ∈ l') → reporting l' cs s.
Proof using Type.
  intros [Hcr Hu [Hx Hb Ho]] Hl. split; [done|done|]. split; [|done|done]. intros r Hr. apply Hx. intros ?. by apply Hr, Hl.
Qed.
Definition cpu_lines : list Z :=
  let regs := cpu_regs (c_sysregs s0 "midr_el1") in lines (ascii <$> regs.*1) (c_sysregs s0 <$> regs.*2).
(** The end of the report: the registers of the core's implementation, and of the platform. *)
Lemma end_run rest pc s cs Q :
  code_at prog pc (report_end ++ rest) → reporting dump_clobbers cs s → naming [] s →
  (∀ s' out, shown (c_trace s') = shown (c_trace s0) ++ encode (cs ++ cpu_lines ++ out) → Q (plat "plat_panic_handler" s')) →
  wp renv prog pc s Q.
Proof.
  intros Hc Hr Hn Hgo. unfold report_end in Hc. cbn [app] in Hc. apply code_cons in Hc as [Hi Hc].
  assert (∀ r, r ≠ "sp_el3" → c_sysregs s r = c_sysregs s0 r) as Hb by apply (rep_b _ _ _ _ (rp_reports _ _ _ Hr)).
  set (s1 := set_x 30 (e_base renv + 4 * Z.of_nat (S pc)) s).
  assert (xr 30 s1 = e_base renv + 4 * Z.of_nat (S pc) ∧ c_sysregs s1 = c_sysregs s ∧ group_values s1 = group_values s) as (E30 & Eb & Eg).
  { unfold s1. regs_simpl. done. }
  destruct (cpu_dump_ok s1) as (s2 & Hrun2 & H230 & Hp2 & Hn2 & (vs & Hvs) & Hu2).
  { by eapply naming_eq; [exact Hn|unfold s1; regs_simpl]. }
  { intros r Hrsp. rewrite Eb, Hb by done. apply Hbank. } { rewrite Eg. apply Hr. }
  assert (reports dump_clobbers (cs ++ []) s0 s2) as Hr2.
  { eapply (reports_trans _ dump_clobbers); [exact (rp_reports _ _ _ Hr)| |done]. change (@nil Z) with (@nil Z ++ []).
    apply (prints_reports dump_clobbers); [|done]. eapply prints_trans; [|exact Hp2|reg_mem]. unfold s1, dump_clobbers. prints. }
  rewrite app_nil_r in Hr2. eapply wp_bl; [exact Hi|left; split; [exact Hrun2|by rewrite H230]|].
  assert (crashing p s2) as Hcr2 by (eapply crashing_prints; [|exact Hp2]; apply crashing_set_x, Hr).
  eapply (buf_step dump_clobbers); [exact Hc|by split|exact Hn2|reg_mem|]. clear Hc Hi Hn2. intros s3 Hr3 _ Hc.
  assert (lines (ascii <$> (cpu_regs (c_sysregs s1 "midr_el1")).*1) (group_values s2) = cpu_lines) as El.
  { rewrite Hvs, lines_trim, Eb, Hb by (done || by rewrite !length_fmap). unfold cpu_lines. f_equal. apply list_fmap_ext.
    intros i r Hir. apply Hb. by apply (cpu_regs_ok _ _ (list_elem_of_lookup_2 _ _ _ Hir)). }
  rewrite El in Hr3. apply code_cons in Hc as [Hi Hc].
  destruct (plat_dump_ok (set_x 30 (e_base renv + 4 * Z.of_nat (S (S (S pc)))) s3) p) as (s4 & out & Hrun4 & H430 & Hr4).
  { apply crashing_set_x, Hr3. }
  { rewrite xr_set_x_eq by done. apply lookup_lt_Some in Hi. change (e_base renv) with (sym "do_crash_reporting"). unfold u64. lia. }
  { intros r Hrsp. rewrite set_x_sysregs, (rep_b _ _ _ _ (rp_reports _ _ _ Hr3)) by done. apply Hbank. }
  { regs_simpl. apply Hr3. }
  eapply wp_bl; [exact Hi|left; split; [exact Hrun4|by rewrite H430, xr_set_x_eq]|]. apply code_cons in Hc as [Hi5 Hc].
  destruct (flush_ok (set_x 30 (e_base renv + 4 * Z.of_nat (S (S (S (S pc))))) s4)) as (s5 & Hrun5 & Hp5).
  eapply wp_bl; [exact Hi5|left; split; [exact Hrun5|]|]. { rewrite (pr_x _ _ _ _ Hp5 30%nat) by reg_mem. by regs_simpl. }
  apply code_cons in Hc as [Hi6 _]. eapply wp_bl_out; [exact Hi6|reflexivity|apply panic_ok|]. apply (Hgo _ out).
  rewrite set_x_trace, (pr_out _ _ _ _ Hp5), set_x_trace, (rep_out _ _ _ _ Hr4), set_x_trace, (rep_out _ _ _ _ (rp_reports _ _ _ Hr3)).
  rewrite app_nil_r, <-app_assoc. unfold encode. by rewrite <-bind_app, <-app_assoc.
Qed.
Definition crash_text (head : list Z) (v0 v1 : Z) : list Z :=
  head ++ line (ascii "x30") (stripped (xr 30 s0)) ++ lines (ascii <$> GP_REGS) (v0 :: v1 :: ((λ r, xr r s0) <$> seq 2 28)) ++
  reg_lines EL3_SYS_REGS ++ reg_lines NON_EL3_SYS_REGS ++ cpu_lines.
Lemma report_run target head v0 v1 l rest Q :
  code_at prog 0 (x30_code target ++ report_gp_regs ++ report_el3_sys_regs ++ report_non_el3_sys_regs ++ report_end ++ rest) →
  crashing p s0 → buffer (c_mem s0) p 0 = v0 :: v1 :: l →
  bytes_at (c_sysregs s0 "sp_el3") (head ++ ascii "x30" ++ [0]) → Forall char_ok head → (length head ≤ 200)%nat →
  0 ≤ c_sysregs s0 "sp_el3" → c_sysregs s0 "sp_el3" + Z.of_nat (length head) + 4 < 2 ^ 64 →
  (∀ s' out, shown (c_trace s') = shown (c_trace s0) ++ encode (crash_text head v0 v1 ++ out) → Q (plat "plat_panic_handler" s')) →
  wp renv prog 0 s0 Q.
Proof.
  intros Hc Hcr Hbuf Hmsg Hch Hlen Ha Hlt Hgo. pose proof names_ok as [_ [Hok1 Hok2]%Forall_app]%Forall_app.
  eapply x30_run; [exact Hc|done..|]. clear Hc. intros pc1 s1 Hr1 H71 Hb1 Hc.
  eapply gp_run; [exact Hc|exact Hr1|done|done|]. clear Hc. intros pc2 s2 Hr2 Hc. apply (reporting_more _ dump_clobbers) in Hr2; [|reg_mem].
  rewrite el3_groups, <-app_comm_cons in Hc. eapply sys_regs_run; [exact Hc|do 2 right; left|cbn; lia|done|by repeat (apply Forall_cons; split; [done|])|exact Hr2|].
  clear Hc. intros pc3 s3 Hr3 _ Hc. rewrite non_el3_groups, <-app_comm_cons in Hc.
  eapply sys_regs_run; [exact Hc|do 3 right; left|cbn; lia|done|by repeat (apply Forall_cons; split; [done|])|exact Hr3|].
  clear Hc. intros pc4 s4 Hr4 Hn4 Hc. eapply end_run; [exact Hc|exact Hr4|done|]. intros s' out Ho. apply (Hgo s' out).
  rewrite Ho. unfold crash_text. do 2 f_equal. by rewrite <-!app_assoc.
Qed.
End Print.
