(* ===== verification/CrashReport.v ===== *)
(** * Crash reports from their entry points

    An unhandled exception, an unhandled interrupt and a panic all end in the panic handler,
    after the registers as they were have been shown. *)

From Stdlib Require Import ZArith Lia.
From stdpp Require Import base list numbers option functions strings sets.
From S2P Require Import Prelude Smccc Services Context Asm AsmProps AsmWords ContextAsm CrashAsm CrashProps.
Open Scope rust_scope.
Open Scope string_scope.
Open Scope list_scope.
Open Scope Z_scope.

Section CrashReport.
Context `{AsmConsts, Console}.
Context (image : Z → Z → Z) (sym : string → Z) (xpac : Z → Z) (device : list CpuEvent → Z → Z).
Context (plat : string → CpuState → Exit) (cpu_regs : Z → list (string * SysReg)).

(** The lines for system registers, in the state [s]. *)
Definition sysreg_lines (s : CpuState) (regs : list SysReg) : list Z := lines (ascii <$> regs) (c_sysregs s <$> regs).
(** What a report of the state [s] shows behind its headline. *)
Definition crash_report (s : CpuState) : list Z :=
  line (ascii "x30") (stripped xpac (xr 30 s)) ++ lines (ascii <$> GP_REGS) ((λ r, xr r s) <$> seq 0 30) ++
  sysreg_lines s EL3_SYS_REGS ++ sysreg_lines s NON_EL3_SYS_REGS ++
  (let regs := cpu_regs (c_sysregs s "midr_el1") in lines (ascii <$> regs.*1) (c_sysregs s <$> regs.*2)).
Definition headlines : list (string * list Z) :=
  [("report_unhandled_exception", ascii "Unhandled Exception in EL3." ++ [NEWLINE]);
   ("report_unhandled_interrupt", ascii "Unhandled Interrupt Exception in EL3." ++ [NEWLINE]);
   ("report_el3_panic", ascii "PANIC in EL3." ++ [NEWLINE])].

Context `{!ConsoleLaws plat} (Hrodata : rodata_at image sym) `{!CrashLaws image plat cpu_regs}.
(** The code is in the address space. *)
Definition code_in_range : Prop := 0 ≤ sym "do_crash_reporting" ∧ sym "do_crash_reporting" + 4 * Z.of_nat (length do_crash_reporting) < 2 ^ 64.
Context (Hcode : code_in_range).

Definition report_target : nat := length (x30_code 0 ++ report_gp_regs ++ report_el3_sys_regs ++ report_non_el3_sys_regs ++ report_end).
Lemma report_program :
  do_crash_reporting = x30_code report_target ++ report_gp_regs ++ report_el3_sys_regs ++ report_non_el3_sys_regs ++ report_end ++ [BSym "crash_panic"].
Proof using Type. unfold do_crash_reporting, report_x30, report_target, x30_code. by destruct ENABLE_PAUTH. Qed.
Lemma report_forward : forward do_crash_reporting = true.
Proof using Type. unfold do_crash_reporting, report_x30. by destruct ENABLE_PAUTH. Qed.

(** The registers that are shown are not those the report changes before. *)
Definition shown_regs : list SysReg := EL3_SYS_REGS ++ NON_EL3_SYS_REGS.
Record entered (p msg : Z) (s s0 : CpuState) : Prop := {
  en_x r : r ≠ 0%nat → r ≠ 1%nat → xr r s0 = xr r s;
  en_b r : r ∉ ["sp_el3"; "tpidr_el3"; "spsel"] → c_sysregs s0 r = c_sysregs s r;
  en_trace : c_trace s0 = c_trace s;
  en_sp : c_sysregs s0 "sp_el3" = msg;
  en_crashing : crashing p s0;
  en_mem : ∃ l, buffer (c_mem s0) p 0 = xr 0 s :: xr 1 s :: l;
  en_u r : u64 (xr r s0);
  en_ub r : u64 (c_sysregs s0 r);
}.
Lemma crash_text_report p msg s s0 head :
  entered p msg s s0 → crash_text xpac s0 cpu_regs head (xr 0 s) (xr 1 s) = head ++ crash_report s.
Proof.
  intros [Hx Hb _ _ _ _ _ _]. unfold crash_text, crash_report, cpu_lines, reg_lines, sysreg_lines.
  assert (∀ regs, Forall (λ r, r ∉ ["sp_el3"; "tpidr_el3"; "spsel"]) regs → c_sysregs s0 <$> regs = c_sysregs s <$> regs) as Hbs.
  { intros regs Hregs. apply list_fmap_ext. intros i r Hi. apply Hb. exact (proj1 (Forall_lookup _ _) Hregs i r Hi). }
  assert (c_sysregs s0 "midr_el1" = c_sysregs s "midr_el1") as -> by (apply Hb; reg_mem).
  rewrite (Hbs EL3_SYS_REGS), (Hbs NON_EL3_SYS_REGS), (Hx 30%nat) by (done || reg_mem).
  rewrite Hbs.
  2: { apply Forall_forall. intros r Hr. pose proof (cpu_regs_ok image plat cpu_regs _ _ Hr) as (? & ? & ?).
    rewrite !not_elem_of_cons. auto using not_elem_of_nil. }
  replace ((λ r, xr r s0) <$> seq 2 28) with ((λ r, xr r s) <$> seq 2 28); [done|].
  apply list_fmap_ext. intros i r Hi. apply list_elem_of_lookup_2, elem_of_seq in Hi. symmetry. apply Hx; lia.
Qed.

(** The entry points save [x0] and [x1], and the address of the message in the stack pointer. *)
Definition entry_code (msg : string) : list Instr := prepare_crash_buf_save_x0_x1 ++ [Adr 0 msg; SetSp 0; BSym "do_crash_reporting"].
Let eenv f := print_env image sym xpac device (report_calls image sym xpac device plat) f.
Context (s : CpuState) (Hx : ∀ r, u64 (xr r s)) (Hb : ∀ r, u64 (c_sysregs s r)).
Let p := c_sysregs s "tpidr_el3" + CPU_DATA_CRASH_BUFFER_OFFSET.
Context (Hp : p + 64 < 2 ^ 64).
Lemma p_range : 0 ≤ p.
Proof using Hb. specialize (Hb "tpidr_el3"). unfold u64 in Hb. unfold p, CPU_DATA_CRASH_BUFFER_OFFSET. destruct ENABLE_PAUTH; lia. Qed.
Lemma entered_intro msg s0 :
  u64 (sym msg) → c_sysregs s "spsel" = 1 →
  c_sysregs s0 = <["sp_el3" := sym msg]> (<["tpidr_el3" := p]> (<["sp_el3" := xr 0 s]> (c_sysregs s))) → c_trace s0 = c_trace s →
  c_mem s0 = mem_store 8 (p + 0) (xr 0 s) (mem_store 8 (p + REGSZ) (xr 1 s) (c_mem s)) →
  xr 0 s0 = sym msg ∧ xr 1 s0 = xr 0 s ∧ (∀ r, r ≠ 0%nat → r ≠ 1%nat → xr r s0 = xr r s) →
  entered p (sym msg) s s0.
Proof using Hb Hp Hx.
  intros Hmsg Hsel Eb0 Et0 Em0 (X0 & X1 & Hxr). pose proof p_range as Hp0. split.
  - exact Hxr.
  - intros r Hr. rewrite !not_elem_of_cons in Hr. destruct Hr as (Hr1 & Hr2 & Hr3 & _). by rewrite Eb0, !fn_lookup_insert_ne.
  - by rewrite Et0.
  - by rewrite Eb0, fn_lookup_insert.
  - split; [by rewrite Eb0, fn_lookup_insert_ne, fn_lookup_insert|by rewrite Eb0, !fn_lookup_insert_ne|lia].
  - eexists. rewrite Em0. unfold buffer, REGSZ. cbn [fmap list_fmap seq Nat.sub].
    rewrite (load_store_at _ (p + 8 * Z.of_nat 0)), (load_store_other _ (p + 8 * Z.of_nat 1)), (load_store_at _ (p + 8 * Z.of_nat 1))
      by (apply Hx || lia). reflexivity.
  - intros r. destruct (decide (r = 0%nat)) as [->|]; [by rewrite X0|]. destruct (decide (r = 1%nat)) as [->|]; [by rewrite X1|].
    rewrite Hxr by done. apply Hx.
  - intros r. rewrite Eb0. unfold insert, fn_insert. repeat case_decide; first [done|apply Hx|apply Hb|unfold u64; lia].
Qed.
Lemma entry_run f msg :
  c_sysregs s "spsel" = 1 → u64 (sym msg) →
  ∃ s0, run_asm (eenv f) (entry_code msg) s = report_calls image sym xpac device plat "do_crash_reporting" s0 ∧ entered p (sym msg) s s0.
Proof using Hb Hp Hx.
  intros Hsel Hmsg. pose proof p_range as Hp0. unfold run_asm, entry_code, prepare_crash_buf_save_x0_x1. cbn [length app].
  asm_step. unfold sp_reg at 1. rewrite Hsel. cbn [Z.eqb]. set (s1 := set_sysreg "sp_el3" (xr 0 s) s).
  do 2 asm_step. change (c_sysregs s1 "tpidr_el3") with (c_sysregs s "tpidr_el3"). rewrite Z.mod_small by (fold p; lia). fold p.
  asm_step. set (s2 := set_sysreg "tpidr_el3" p (set_x 0 p (set_x 0 (c_sysregs s "tpidr_el3") s1))).
  assert (xr 0 s2 = p ∧ (∀ r, r ≠ 0%nat → xr r s2 = xr r s) ∧ c_mem s2 = c_mem s ∧ c_trace s2 = c_trace s ∧
    c_sysregs s2 = <["tpidr_el3" := p]> (<["sp_el3" := xr 0 s]> (c_sysregs s))) as (E0 & Ex & Em & Et & Eb).
  { unfold s2, s1. regs_simpl. split; [done|]. split; [intros r Hr; by rewrite xr_set_sysreg, !xr_set_x_ne|]. cbn [c_sysregs set_sysreg c_mem c_trace].
    by rewrite !set_x_sysregs, !set_x_mem, !set_x_trace. }
  clearbody s2. clear s1. assert (sp_reg s2 = "sp_el3" ∧ c_sysregs s2 "sp_el3" = xr 0 s) as [Esr Esp].
  { unfold sp_reg. rewrite Eb. rewrite !fn_lookup_insert_ne, Hsel by done. split; [done|]. by rewrite fn_lookup_insert. }
  asm_step. unfold store64. change (xsp 0 s2) with (xr 0 s2). rewrite E0, (Ex 1%nat) by done.
  asm_step. change (xsp SP (set_mem ?m s2)) with (c_sysregs s2 (sp_reg s2)). rewrite Esr, Esp.
  asm_step. unfold store64. change (xsp 0 ?x) with (xr 0 x). regs_simpl. cbn [c_mem set_mem]. rewrite E0, Em.
  asm_step. asm_step.
  match goal with |- context [sp_reg ?x] => assert (sp_reg x = "sp_el3") as -> end.
  { unfold sp_reg in *. rewrite set_x_sysregs. cbn [c_sysregs set_mem]. by rewrite set_x_sysregs. }
  match goal with |- context [exec _ _ _ _ ?st] => set (s0 := st) end. exists s0. split; [rewrite exec_S; cbn [lookup list_lookup]; unfold eenv, print_env; cbn [e_sym]; reflexivity|].
  assert (c_sysregs s0 = <["sp_el3" := sym msg]> (c_sysregs s2) ∧ c_trace s0 = c_trace s2 ∧
    c_mem s0 = mem_store 8 (p + 0) (xr 0 s) (mem_store 8 (p + REGSZ) (xr 1 s) (c_mem s))) as (Eb0 & Et0 & Em0).
  { unfold s0. cbn [c_sysregs c_trace c_mem set_sysreg]. rewrite !set_x_sysregs, !set_x_trace, !set_x_mem.
    cbn [c_sysregs c_trace c_mem set_mem]. by rewrite set_x_sysregs, set_x_trace. }
  assert (xr 0 s0 = sym msg ∧ xr 1 s0 = xr 0 s) as [X0 X1] by (unfold s0; by regs_simpl).
  assert (∀ r, r ≠ 0%nat → r ≠ 1%nat → xr r s0 = xr r s) as Hxr.
  { intros r Hr0 Hr1. unfold s0. rewrite xr_set_sysreg, xr_set_x_ne, xr_set_mem, xr_set_x_ne, xr_set_mem by done. by apply Ex. }
  clearbody s0. rewrite Eb in Eb0. apply entered_intro; [done|done|done|by rewrite Et0|done|done].
Qed.

(** The report is made, and the panic handler called. *)
Definition reported (head : list Z) (e : Exit) : Prop :=
  ∃ s_end out, e = plat "plat_panic_handler" s_end ∧
    shown (c_trace s_end) = shown (c_trace s) ++ encode (head ++ crash_report s ++ out).
Lemma reporting_run head msg s0 :
  entered p (sym msg) s s0 → (msg, head ++ ascii "x30" ++ [0]) ∈ crash_rodata → Forall char_ok head → (length head ≤ 200)%nat →
  reported head (report_calls image sym xpac device plat "do_crash_reporting" s0).
Proof using All.
  intros Hen Hmsg Hch Hlen. destruct (Hrodata _ _ Hmsg) as (Hbytes & Hlo & Hhi). rewrite !length_app in Hhi.
  destruct (en_mem _ _ _ _ Hen) as (l & Hbuf).
  change (report_calls _ _ _ _ _ _ s0) with
    (run_asm (print_env image sym xpac device (buf_calls image sym xpac device plat) "do_crash_reporting") do_crash_reporting s0).
  unfold run_asm. apply (wp_forward _ _ 0 s0 (reported head)); [apply report_forward|].
  eapply (report_run image sym xpac device plat Hrodata p s0 do_crash_reporting (en_ub _ _ _ _ Hen) (en_u _ _ _ _ Hen) cpu_regs Hcode);
    rewrite ?(en_sp _ _ _ _ Hen).
  - assert (code_at do_crash_reporting 0 do_crash_reporting) as Hc by (by intros k i Hk). rewrite report_program in Hc at 2. exact Hc.
  - apply (en_crashing _ _ _ _ Hen).
  - exact Hbuf.
  - exact Hbytes.
  - done.
  - done.
  - lia.
  - cbn [length ascii] in Hhi. lia.
  - intros s' out Ho. exists s', out. split; [done|]. rewrite (crash_text_report _ _ _ _ _ Hen), (en_trace _ _ _ _ Hen) in Ho.
    by rewrite <-app_assoc in Ho.
Qed.

Lemma entered_spsel msg s0 : entered p msg (set_sysreg "spsel" 1 s) s0 → entered p msg s s0.
Proof using Type.
  intros [Ex Eb Et Es Ec Em Eu Eub]. split; [done| |done..]. intros r Hr. rewrite Eb by done.
  rewrite !not_elem_of_cons in Hr. destruct Hr as (_ & _ & ? & _). cbn [c_sysregs set_sysreg]. by rewrite fn_lookup_insert_ne.
Qed.
End CrashReport.

Section Claim.
Context `{AsmConsts, Console}.
Context (image : Z → Z → Z) (sym : string → Z) (xpac : Z → Z) (device : list CpuEvent → Z → Z).
Context (plat : string → CpuState → Exit) (cpu_regs : Z → list (string * SysReg)).

Lemma panic_entry env msg s : run_asm env (MsrI "spsel" CRASH_MODE_SP_ELX :: entry_code msg) s = run_asm env (entry_code msg) (set_sysreg "spsel" 1 s).
Proof using Type. reflexivity. Qed.
Context `{!ConsoleLaws plat} `{!CrashLaws image plat cpu_regs} (Hro : rodata_at image sym) (Hcode : code_in_range sym).
Context (s : CpuState) (Hx : ∀ r, u64 (xr r s)) (Hb : ∀ r, u64 (c_sysregs s r)).
Context (Hp : c_sysregs s "tpidr_el3" + CPU_DATA_CRASH_BUFFER_OFFSET + 64 < 2 ^ 64).
Lemma crash_entry g msg head s1 :
  (msg, head ++ ascii "x30" ++ [0]) ∈ crash_rodata → Forall char_ok head → (length head ≤ 200)%nat →
  c_sysregs s1 "spsel" = 1 → s1 = s ∨ s1 = set_sysreg "spsel" 1 s →
  reported xpac plat cpu_regs s head
    (run_asm (print_env image sym xpac device (report_calls image sym xpac device plat) g) (entry_code msg) s1).
Proof using All.
  intros Hmsg Hch Hlen Hsel Hs1. destruct (Hro _ _ Hmsg) as (_ & Hlo & Hhi). assert (u64 (sym msg)) as Hm by (unfold u64; lia).
  destruct Hs1 as [-> | ->].
  - destruct (entry_run image sym xpac device plat s Hx Hb Hp g msg Hsel Hm) as (s0 & -> & Hen). by eapply reporting_run.
  - destruct (entry_run image sym xpac device plat (set_sysreg "spsel" 1 s)) with (f := g) (msg := msg) as (s0 & -> & Hen); try done.
    + intros r. cbn [c_sysregs set_sysreg]. unfold insert, fn_insert. case_decide; [done|apply Hb].
    + eapply reporting_run; first [done | by apply entered_spsel].
Qed.
End Claim.


(** ** Panics without crash reporting *)
Section Panic.
Context `{AsmConsts, Console}.
Context (image : Z → Z → Z) (sym : string → Z) (xpac : Z → Z) (device : list CpuEvent → Z → Z).
Context (plat : string → CpuState → Exit) (cpu_regs : Z → list (string * SysReg)).
Context `{!ConsoleLaws plat} `{!CrashLaws image plat cpu_regs} (Hro : rodata_at image sym).
Let env := print_env image sym xpac device (print_calls image sym xpac device plat) "el3_panic".
Definition panic_text : list Z := ascii "PANIC at PC : 0x".

(** The address of the call is shown, and passed on to the panic handler. *)
Lemma el3_panic_reports s :
  ∃ s_end, run_asm env (el3_panic false) s = plat "plat_panic_handler" s_end ∧ xr 30 s_end = xr 30 s ∧
    shown (c_trace s_end) = shown (c_trace s) ++ encode (panic_text ++ hex_digits 16 ((xr 30 s - 4) mod 2 ^ 64) ++ [NEWLINE]).
Proof using All.
  apply (wp_forward env (el3_panic false) 0 s (λ e, ∃ s_end, e = plat "plat_panic_handler" s_end ∧ xr 30 s_end = xr 30 s ∧ _)); [reflexivity|].
  set (ra k := e_base env + 4 * Z.of_nat k). set (clob := [0; 1; 2; 3; 4; 5; 6; 30]%nat).
  set (s1 := set_x 30 (ra 2%nat) (set_x 6 (xr 30 s) s)).
  destruct (init_ok image plat cpu_regs s1) as (s2 & Hr2 & Hz & Hp2). pose proof (pr_x _ _ _ _ Hp2) as Hx2.
  assert (xr 30 s2 = ra 2%nat ∧ xr 6 s2 = xr 30 s) as [E30 E6] by (rewrite (Hx2 30%nat), (Hx2 6%nat) by reg_mem; unfold s1; by regs_simpl).
  set (s3 := set_x 30 (ra 5%nat) (set_x 4 (sym "panic_msg") s2)).
  destruct (Hro "panic_msg" panic_msg ltac:(do 8 right; left)) as (Hb & Hlo & Hhi). change (Z.of_nat (length panic_msg)) with 17 in Hhi.
  assert (xr 4 s3 = sym "panic_msg" ∧ xr 30 s3 = ra 5%nat) as [E4 E530] by (unfold s3; by regs_simpl).
  destruct (print_str_run image sym xpac device plat panic_text s3) as (s4 & Hr4 & _ & Hp4);
    rewrite ?E4; [exact Hb|by repeat constructor|cbn; lia|lia|cbn; lia|]. rewrite E530 in Hr4. pose proof (pr_x _ _ _ _ Hp4) as Hx4.
  assert (xr 6 s4 = xr 30 s) as E46 by (rewrite (Hx4 6%nat) by reg_mem; unfold s3; by regs_simpl).
  set (v := (xr 30 s - 4) mod 2 ^ 64). set (s5 := set_x 30 (ra 8%nat) (set_x 4 v (set_x 4 (xr 30 s) s4))).
  destruct (print_hex_run image sym xpac device plat s5) as (s6 & Hr6 & Hp6). pose proof (pr_x _ _ _ _ Hp6) as Hx6.
  replace (xr 30 s5) with (ra 8%nat) in Hr6 by (unfold s5; by regs_simpl). replace (xr 4 s5) with v in Hp6 by (unfold s5; by regs_simpl).
  set (s7 := set_x 30 (ra 9%nat) s6). destruct (print_newline_run image sym xpac device plat s7) as (s8 & Hr8 & E830 & Hp8).
  set (s9 := set_x 30 (ra 10%nat) s8). destruct (flush_ok image plat cpu_regs s9) as (s10 & Hr10 & Hp10).
  pose proof (pr_x _ _ _ _ Hp8) as Hx8. pose proof (pr_x _ _ _ _ Hp10) as Hx10.
  assert (xr 6 s10 = xr 30 s) as E106.
  { rewrite (Hx10 6%nat) by reg_mem. unfold s9. regs_simpl. rewrite (Hx8 6%nat) by reg_mem. unfold s7. regs_simpl.
    rewrite (Hx6 6%nat) by reg_mem. unfold s5. by regs_simpl. }
  assert (prints clob (panic_text ++ hex_digits 16 v ++ [NEWLINE]) s s10) as Hp.
  { rewrite <-(app_nil_r (panic_text ++ _)). eapply prints_trans; [|exact Hp10|reg_mem]. unfold s9. apply prints_set_x; [reg_mem|].
    rewrite app_assoc. eapply prints_trans; [|exact Hp8|reg_mem]. unfold s7. apply prints_set_x; [reg_mem|].
    eapply prints_trans; [|exact Hp6|reg_mem]. unfold s5. do 3 (apply prints_set_x; [reg_mem|]).
    rewrite <-(app_nil_l panic_text). eapply prints_trans; [|exact Hp4|reg_mem]. unfold s3. do 2 (apply prints_set_x; [reg_mem|]).
    change (@nil Z) with (@nil Z ++ []). eapply prints_trans; [|exact Hp2|reg_mem]. unfold s1, clob. prints. }
  eapply wp_next; [reflexivity|reflexivity|]. eapply wp_bl; [reflexivity|left; split; [exact Hr2|exact E30]|].
  eapply wp_next; [reflexivity|reflexivity|]. rewrite (proj2 (Z.eqb_neq _ _) Hz).
  eapply wp_next; [reflexivity|reflexivity|]. eapply wp_bl; [reflexivity|right; exact Hr4|].
  do 2 (eapply wp_next; [reflexivity|reflexivity|]). cbn [exec_instr]. rewrite E46, xr_set_x_eq by done. fold v.
  eapply wp_bl; [reflexivity|right; exact Hr6|].
  eapply wp_bl; [reflexivity|left; split; [exact Hr8|rewrite E830; unfold s7; by regs_simpl]|].
  eapply wp_bl; [reflexivity|left; split; [exact Hr10|rewrite (Hx10 30%nat) by reg_mem; unfold s9; by regs_simpl]|].
  eapply wp_next; [reflexivity|reflexivity|]. eapply wp_bsym; [reflexivity|]. cbn [exec_instr]. rewrite E106.
  eexists. split; [reflexivity|]. split; [by regs_simpl|]. by rewrite set_x_trace, (pr_out _ _ _ _ Hp).
Qed.
End Panic.
