(* ===== verification/CrashConsole.v ===== *)
(** * The crash console

    [src/crash_console/pl011_console.S] with the constants of [src/crash_console/pl011.rs],
    the crash consoles and [dump_registers] of the platforms QEMU and FVP, and
    [src/gic_debug_macros.S].  What a device answers to a read may depend on all that
    happened before. *)

From Stdlib Require Import ZArith Lia Ascii.
From stdpp Require Import base list numbers option functions strings.
From S2P Require Import Prelude Smccc Services Context Asm ContextAsm Cpu CrashAsm.
Open Scope rust_scope.
Open Scope string_scope.
Open Scope list_scope.
Open Scope Z_scope.

(** ** Constants in registers: [mov_imm] *)
Definition mov_imm16 (rd : nat) (v shift : Z) : list Instr :=
  let part := Z.land (Z.shiftr v shift) 0xffff in
  if part =? 0 then []
  else if Z.land v (Z.shiftl 1 shift - 1) =? 0 then [MovI rd (Z.land v (Z.shiftl 0xffff shift))]
  else [Movk rd part shift].
Definition mov_imm (rd : nat) (v : Z) : list Instr :=
  if v =? 0 then [MovI rd 0]
  else mov_imm16 rd v 0 ++ mov_imm16 rd v 16 ++ mov_imm16 rd v 32 ++ mov_imm16 rd v 48.

(** ** The UART *)
Definition UARTDR : Z := 0x000.
Definition UARTECR : Z := 0x004.
Definition UARTFR : Z := 0x018.
Definition UARTIBRD : Z := 0x024.
Definition UARTFBRD : Z := 0x028.
Definition UARTLCR_H : Z := 0x02C.
Definition UARTCR : Z := 0x030.
Definition PL011_UARTCR_UARTEN : Z := Z.shiftl 1 0.
Definition PL011_UARTCR_TXE : Z := Z.shiftl 1 8.
Definition PL011_UARTCR_RXE : Z := Z.shiftl 1 9.
Definition PL011_UARTFR_TXFF_BIT : Z := 5.
Definition PL011_UARTFR_BUSY_BIT : Z := 3.
Definition PL011_UARTLCR_H_FEN : Z := Z.shiftl 1 4.
Definition PL011_UARTLCR_H_WLEN_8 : Z := Z.shiftl 3 5.
Definition PL011_LINE_CONTROL : Z := Z.lor PL011_UARTLCR_H_FEN PL011_UARTLCR_H_WLEN_8.

Section Pl011.
Context `{AsmConsts}.
(** [PL011_GENERIC_UART] is not set. *)
Definition console_pl011_core_init : list Instr :=
  assemble [JZ 0 "core_init_fail"; JZW 1 "core_init_fail"; JZW 2 "core_init_fail";
    LdrDev 3 0 UARTCR : Line; MovI 4 PL011_UARTCR_UARTEN : Line; BicR 3 3 4 : Line; StrDev 3 0 UARTCR : Line;
    LslW 1 1 2 : Line; DivW 2 1 2 : Line;
    LsrW 1 2 6 : Line; StrDev 1 0 UARTIBRD : Line;
    AndI 1 2 0x3f : Line; StrDev 1 0 UARTFBRD : Line;
    MovI 1 PL011_LINE_CONTROL : Line; StrDev 1 0 UARTLCR_H : Line;
    StrDev 31 0 UARTECR : Line;
    MovI 1 (Z.lor (Z.lor PL011_UARTCR_RXE PL011_UARTCR_TXE) PL011_UARTCR_UARTEN) : Line; StrDev 1 0 UARTCR : Line;
    MovI 0 1 : Line; Return : Line;
    Lab "core_init_fail"; MovR 0 31 : Line; Return : Line].
Definition console_pl011_core_putc : list Instr :=
  assemble ((if ENABLE_ASSERTIONS then [CmpI 1 0 : Line] ++ ASM_ASSERT CNe "pl011_putc_nonnull" else []) ++
    [CmpWI 0 0xA : Line; JC CNe "2";
     Lab "1"; LdrDev 2 1 UARTFR : Line; JTbnz 2 PL011_UARTFR_TXFF_BIT "1"; MovI 2 0xD : Line; StrDev 2 1 UARTDR : Line;
     Lab "2"; LdrDev 2 1 UARTFR : Line; JTbnz 2 PL011_UARTFR_TXFF_BIT "2"; StrDev 0 1 UARTDR : Line; Return : Line]).
Definition console_pl011_core_flush : list Instr :=
  assemble ((if ENABLE_ASSERTIONS then [CmpI 0 0 : Line] ++ ASM_ASSERT CNe "pl011_flush_nonnull" else []) ++
    [Lab "1"; LdrDev 1 0 UARTFR : Line; JTbnz 1 PL011_UARTFR_BUSY_BIT "1"; Return : Line]).

(** ** The consoles of the platforms *)
Record Uart : Type := mkUart { uart_base : Z; uart_clk : Z; uart_baud : Z }.
(** The address of the UART of the FVP is that of the [arm-fvp-base] crate. *)
Definition QEMU_CRASH_UART : Uart := mkUart 0x09040000 1 115200.
Definition FVP_CRASH_UART (uart1_start : Z) : Uart := mkUart uart1_start 24000000 115200.
Definition crash_console_init (u : Uart) : list Instr :=
  mov_imm 0 (uart_base u) ++ mov_imm 1 (uart_clk u) ++ mov_imm 2 (uart_baud u) ++ [BSym "console_pl011_core_init"].
Definition crash_console_putc (u : Uart) : list Instr := mov_imm 1 (uart_base u) ++ [BSym "console_pl011_core_putc"].
Definition crash_console_flush (u : Uart) : list Instr := mov_imm 0 (uart_base u) ++ [BSym "console_pl011_core_flush"].

(** The functions of the UART, with a number of steps that bounds the polling; [calls] are
    the other functions. *)
Context (image : Z → Z → Z) (sym : string → Z) (xpac : Z → Z) (device : list CpuEvent → Z → Z).
Definition pl011_calls (fuel : nat) (calls : string → CpuState → Exit) (f : string) : CpuState → Exit :=
  let env := print_env image sym xpac device calls f in
  if String.eqb f "console_pl011_core_init" then exec fuel env console_pl011_core_init 0
  else if String.eqb f "console_pl011_core_putc" then exec fuel env console_pl011_core_putc 0
  else if String.eqb f "console_pl011_core_flush" then exec fuel env console_pl011_core_flush 0
  else calls f.
Definition console_calls (u : Uart) (fuel : nat) (calls : string → CpuState → Exit) (f : string) : CpuState → Exit :=
  let env := print_env image sym xpac device (pl011_calls fuel calls) f in
  if String.eqb f "plat_crash_console_init" then run_asm env (crash_console_init u)
  else if String.eqb f "plat_crash_console_putc" then run_asm env (crash_console_putc u)
  else if String.eqb f "plat_crash_console_flush" then run_asm env (crash_console_flush u)
  else calls f.

(** ** The registers of the GIC *)
Definition gic_rodata : list (string * list Z) :=
  [("icc_regs", asciz ["icc_hppir0_el1"; "icc_hppir1_el1"; "icc_ctlr_el3"; EmptyString]);
   ("gicd_pend_reg", ascii "gicd_ispendr regs (Offsets 0x200-0x278)" ++ [NEWLINE] ++ ascii "Offset" ++ [9; 9; 9] ++ ascii "Value" ++ [NEWLINE; 0]);
   ("newline", [NEWLINE; 0]); ("spacer", ascii ":" ++ [9; 9] ++ ascii " 0x" ++ [0]); ("prefix", asciz ["0x"])].
Definition arm_print_gic_regs (ICC_SRE_SRE_BIT GICD_ISPENDR : Z) : list Line :=
  [MovR 11 30 : Line; Mrs 8 "icc_sre_el3" : Line; TstI 8 ICC_SRE_SRE_BIT : Line; JC CEq "0";
   Adr 6 "icc_regs" : Line; Mrs 8 "icc_hppir0_el1" : Line; Mrs 9 "icc_hppir1_el1" : Line; Mrs 10 "icc_ctlr_el3" : Line;
   Bl "str_in_crash_buf_print" : Line;
   Lab "0"; AddI 7 16 GICD_ISPENDR : Line; Adr 4 "gicd_pend_reg" : Line; Bl "asm_print_str" : Line;
   Lab "1"; SubR 4 7 16 : Line; CmpI 4 0x280 : Line; JC CEq "2";
   Adr 4 "prefix" : Line; Bl "asm_print_str" : Line;
   SubR 4 7 16 : Line; MovI 5 12 : Line; Bl "asm_print_hex_bits" : Line;
   Adr 4 "spacer" : Line; Bl "asm_print_str" : Line;
   LdrDevPost 4 7 8 : Line; Bl "asm_print_hex" : Line;
   Adr 4 "newline" : Line; Bl "asm_print_str" : Line; J "1";
   Lab "2"; MovR 30 11 : Line].
Definition plat_dump_registers (GICD_BASE ICC_SRE_SRE_BIT GICD_ISPENDR : Z) : list Instr :=
  assemble ((I <$> mov_imm 16 GICD_BASE) ++ arm_print_gic_regs ICC_SRE_SRE_BIT GICD_ISPENDR ++ [Return : Line]).
Definition QEMU_GICD_BASE : Z := 0x08000000.

(** The default of [Platform::panic_handler] waits for ever. *)
Definition panic_handler : list Instr := assemble [Lab "1"; Wfi : Line; J "1"].

(** ** The functions of a platform
    [CPU_OPS] lie at [cpu_ops] in the image, and [code] are the functions at addresses. *)
Context (u : Uart) (fuel : nat) (code : Z → CpuState → Exit).
Context (CPU_OPS : list CpuOps) (cpu_ops cpu_ops_size midr_offset dump_registers_offset : Z).
Context (GICD_BASE ICC_SRE_SRE_BIT GICD_ISPENDR : Z).
Definition dump_env : Env :=
  mkEnv image code
    (λ f, if String.eqb f "get_cpu_ops"
       then exec (7 * length CPU_OPS + 10) (mkEnv image (λ _ _, Stuck) (λ _ _, Stuck) 0 (λ _, 0) (λ x, x) (λ _ _, 0))
              (get_cpu_ops cpu_ops cpu_ops_size (Z.of_nat (length CPU_OPS)) midr_offset) 0
       else λ _, Stuck) (sym "cpu_dump_registers") sym xpac device.
Definition base_calls (f : string) : CpuState → Exit :=
  if String.eqb f "cpu_dump_registers" then run_asm dump_env (cpu_dump_registers_asm dump_registers_offset)
  else if String.eqb f "plat_panic_handler" then exec fuel (print_env image sym xpac device (λ _ _, Stuck) f) panic_handler 0
  else λ _, Stuck.
(** The printing of the GIC's registers ends within 500 steps. *)
Definition GIC_FUEL : nat := 500.
Definition plat_calls (f : string) : CpuState → Exit :=
  let console := console_calls u fuel base_calls in
  if String.eqb f "plat_crash_print_regs"
  then exec GIC_FUEL (print_env image sym xpac device (buf_calls image sym xpac device console) f)
         (plat_dump_registers GICD_BASE ICC_SRE_SRE_BIT GICD_ISPENDR) 0
  else console f.
End Pl011.
