(* ===== verification/CrashConsoleProps.v ===== *)
(** * The crash consoles print

    The functions of the UART print characters whenever the UART takes them within a
    bounded number of polls, and the platforms meet what crash reports rely on. *)

From Stdlib Require Import ZArith Lia.
From stdpp Require Import base list numbers option functions strings sets.
From S2P Require Import Prelude Smccc Services Context Asm AsmProps AsmWords ContextAsm Cpu ErrataProps CpuProps CrashAsm CrashProps CrashConsole.
Open Scope rust_scope.
Open Scope string_scope.
Open Scope list_scope.
Open Scope Z_scope.

(** ** Programs without branches *)
Definition run_plain (env : Env) (l : list Instr) (s : CpuState) : CpuState := foldl (λ s i, exec_instr env i s) s l.
Definition is_move (i : Instr) : bool := match i with MovI _ _ | Movk _ _ _ => true | _ => false end.
Lemma exec_moves env pre l rest k s :
  forallb is_move l = true →
  exec (length l + k) env (pre ++ l ++ rest) (length pre) s = exec k env (pre ++ l ++ rest) (length pre + length l) (run_plain env l s).
Proof.
  revert pre s. induction l as [|i l IH]; intros pre s Hl; [by rewrite Nat.add_0_r|]. cbn [forallb] in Hl.
  apply andb_true_iff in Hl as [Hi Hl]. cbn [length Nat.add]. rewrite exec_S.
  assert ((pre ++ (i :: l) ++ rest) !! length pre = Some i) as -> by (by apply list_lookup_middle).
  specialize (IH (pre ++ [i]) (exec_instr env i s) Hl). rewrite <-!app_assoc, length_app, Nat.add_1_r in IH. cbn [app] in IH.
  rewrite Nat.add_succ_r. destruct i; try done; exact IH.
Qed.

(** ** [mov_imm] *)
(** Only one register has changed. *)
Record moved (rd : nat) (s s' : CpuState) : Prop := {
  mv_x : only_clobbers [rd] s s';
  mv_b : c_sysregs s' = c_sysregs s;
  mv_m : c_mem s' = c_mem s;
  mv_t : c_trace s' = c_trace s;
}.
Lemma imm_refl rd s : moved rd s s.
Proof. by split; [apply clobbers_refl|..]. Qed.
Lemma moved_set rd v s : moved rd s (set_x rd v s).
Proof.
  split; [apply clobbers_set_x; [by left|apply clobbers_refl]|by rewrite set_x_sysregs|by rewrite set_x_mem|by rewrite set_x_trace].
Qed.
Lemma imm_trans rd s s' s'' : moved rd s s' → moved rd s' s'' → moved rd s s''.
Proof. intros [X B M T] [X' B' M' T']. split; [by eapply clobbers_trans|congruence..]. Qed.
Lemma mov_imm16_moves rd v shift : forallb is_move (mov_imm16 rd v shift) = true.
Proof. unfold mov_imm16. by repeat case_match. Qed.
Lemma mov_imm_moves rd v : forallb is_move (mov_imm rd v) = true.
Proof. unfold mov_imm. case_match; [done|]. by rewrite !forallb_app, !mov_imm16_moves. Qed.
(** The bits below [n]. *)
Definition low (v n : Z) : Z := Z.land v (Z.ones n).
Lemma low_step v n : 0 ≤ n → low v (n + 16) = Z.lor (low v n) (Z.shiftl (Z.land (Z.shiftr v n) 0xffff) n).
Proof.
  intros Hn. unfold low. change 0xffff with (Z.ones 16). apply Z.bits_inj'. intros i Hi.
  rewrite Z.lor_spec, !Z.land_spec, Z.shiftl_spec, !Z.testbit_ones_nonneg by lia.
  destruct (Z.ltb_spec i n).
  - rewrite (Z.testbit_neg_r _ (i - n)) by lia. rewrite (proj2 (Z.ltb_lt i (n + 16))) by lia. by rewrite orb_false_r.
  - rewrite Z.land_spec, Z.shiftr_spec, Z.testbit_ones_nonneg by lia. replace (i - n + n) with i by lia.
    rewrite andb_false_r. cbn [orb]. f_equal. apply eq_true_iff_eq. rewrite !Z.ltb_lt. lia.
Qed.
Lemma mov_imm16_step env rd v n s :
  rd ≠ 31%nat → 0 ≤ n → (low v n ≠ 0 → xr rd s = low v n) →
  let s' := run_plain env (mov_imm16 rd v n) s in
  (low v (n + 16) ≠ 0 → xr rd s' = low v (n + 16)) ∧ moved rd s s'.
Proof.
  intros Hrd Hn Hx. rewrite low_step by done. unfold mov_imm16. set (part := Z.land (Z.shiftr v n) 0xffff).
  rewrite Z.shiftl_1_l, Z.sub_1_r, <-Z.ones_equiv. fold (low v n). destruct (Z.eqb_spec part 0) as [->|Hpart].
  - cbn. rewrite Z.shiftl_0_l, Z.lor_0_r. split; [done|apply imm_refl].
  - destruct (Z.eqb_spec (low v n) 0) as [E|E]; cbn [run_plain foldl exec_instr];
      rewrite ?xr_set_x_eq by done; (split; [|apply moved_set]); intros _.
    + rewrite E, Z.lor_0_l. unfold part. apply Z.bits_inj'. intros i Hi. rewrite Z.land_spec, !Z.shiftl_spec by lia.
      destruct (Z.ltb_spec i n); [rewrite !(Z.testbit_neg_r _ (i - n)) by lia; by rewrite andb_false_r|].
      rewrite Z.land_spec, Z.shiftr_spec by lia. by replace (i - n + n) with i by lia.
    + rewrite Hx by done. unfold insert_bits. f_equal.
      * apply Z.bits_inj'. intros i Hi. rewrite Z.ldiff_spec, Z.shiftl_spec by lia. unfold low. rewrite Z.land_spec, Z.testbit_ones_nonneg by lia.
        destruct (Z.ltb_spec i n); [|by rewrite andb_false_r]. rewrite (Z.testbit_neg_r _ (i - n)) by lia. by rewrite !andb_true_r.
      * f_equal. unfold part. change 0xffff with (Z.ones 16). by rewrite <-Z.land_assoc, Z.land_diag.
Qed.
(** [mov_imm] loads every constant. *)
Lemma mov_imm_run env rd v s :
  rd ≠ 31%nat → u64 v →
  let s' := run_plain env (mov_imm rd v) s in
  xr rd s' = v ∧ moved rd s s'.
Proof.
  intros Hrd Hv. unfold mov_imm. destruct (Z.eqb_spec v 0) as [->|Hnz].
  { cbn [run_plain foldl exec_instr]. rewrite xr_set_x_eq by done. split; [done|apply moved_set]. }
  cbv zeta. unfold run_plain. rewrite !foldl_app.
  destruct (mov_imm16_step env rd v 0 s Hrd ltac:(lia)) as (H1 & M1); [by unfold low; rewrite Z.land_0_r|].
  destruct (mov_imm16_step env rd v 16 _ Hrd ltac:(lia) H1) as (H2 & M2).
  destruct (mov_imm16_step env rd v 32 _ Hrd ltac:(lia) H2) as (H3 & M3).
  destruct (mov_imm16_step env rd v 48 _ Hrd ltac:(lia) H3) as (H4 & M4).
  assert (low v 64 = v) as E by (unfold low; rewrite Z.land_ones, Z.mod_small by (done || lia); done).
  change (48 + 16) with 64 in H4. rewrite E in H4. split; [by apply H4|].
  eapply imm_trans; [exact M1|]. eapply imm_trans; [exact M2|]. eapply imm_trans; [exact M3|exact M4].
Qed.

(** ** The UART *)
(** What was written to the data register. *)
Definition uart_out (base : Z) (t : list CpuEvent) : list Z :=
  omap (λ e, match e with EvWrite a v => if a =? base + UARTDR then Some v else None | _ => None end) t.
Definition uart_console (u : Uart) : Console := {| shown := uart_out (uart_base u) |}.

Section Uart.
Context `{AsmConsts} (u : Uart).
#[local] Instance this_console : Console := uart_console u.
Context (image : Z → Z → Z) (sym : string → Z) (xpac : Z → Z) (device : list CpuEvent → Z → Z).
Context (calls : string → CpuState → Exit).
Let base := uart_base u.

Lemma prints_read l cs s s0 a : prints l cs s s0 → prints l cs s (emit (EvRead a) s0).
Proof using Type.
  intros [Hx Hb Hm Ho]. split; [by apply clobbers_emit|done|done|]. cbn [c_trace emit shown this_console uart_console] in *.
  unfold uart_out in *. rewrite omap_app, Ho. by rewrite app_nil_r.
Qed.
Lemma prints_other l cs s s0 off v : off ≠ UARTDR → prints l cs s s0 → prints l cs s (emit (EvWrite (base + off) v) s0).
Proof using Type.
  intros Hoff [Hx Hb Hm Ho]. split; [by apply clobbers_emit|done|done|]. cbn [c_trace emit shown this_console uart_console] in *.
  unfold uart_out in *. rewrite omap_app, Ho. cbn [omap list_omap]. fold base. rewrite (proj2 (Z.eqb_neq _ _)) by lia. by rewrite app_nil_r.
Qed.
Lemma uart_write s v : uart_out base (c_trace (emit (EvWrite (base + UARTDR) v) s)) = uart_out base (c_trace s) ++ [v].
Proof using Type. cbn [c_trace emit]. unfold uart_out. rewrite omap_app. cbn [omap list_omap]. by rewrite Z.eqb_refl. Qed.

(** A UART that is ready within [N] polls. *)
Definition ready_within (N : nat) (bit : Z) : Prop :=
  ∀ t, ∃ n, (n ≤ N)%nat ∧ Z.testbit (device (t ++ replicate n (EvRead (base + UARTFR))) (base + UARTFR)) bit = false.

Lemma poll env prog rd rn bit pc n s :
  e_device env = device → prog !! pc = Some (LdrDev rd rn UARTFR) → prog !! S pc = Some (Tbnz rd bit pc) →
  rd ≠ rn → rd ≠ 31%nat → xr rn s = base →
  Z.testbit (device (c_trace s ++ replicate n (EvRead (base + UARTFR))) (base + UARTFR)) bit = false →
  ∃ s', (∀ m e, runs env prog m (S (S pc)) s' e → runs env prog (2 * S n + m) pc s e) ∧ prints [rd] [] s s'.
Proof using Type.
  intros Hd Hl Ht Hne H31. revert s. induction n as [|n IH]; intros s Hx Hbit;
    set (v := device (c_trace s) (base + UARTFR)); set (s1 := set_x rd v (emit (EvRead (base + UARTFR)) s));
    (assert (∀ m e, runs env prog m (if Z.testbit v bit then pc else S (S pc)) s1 e → runs env prog (2 + m) pc s e) as Hstep;
    [intros m e Hm; cbn [Nat.add]; eapply runs_next; [exact Hl|reflexivity|]; cbn [exec_instr]; rewrite Hd, Hx; fold v; fold s1;
     eapply runs_next; [exact Ht|reflexivity|]; by unfold s1 at 1; rewrite xr_set_x_eq by done|]);
    (assert (prints [rd] [] s s1) as Hp1 by (unfold s1; apply prints_set_x; [by left|]; apply prints_read, prints_refl)).
  - rewrite app_nil_r in Hbit. fold v in Hbit. rewrite Hbit in Hstep. by exists s1.
  - destruct (Z.testbit v bit).
    + destruct (IH s1) as (s' & Hrun & Hp').
      { unfold s1. by rewrite xr_set_x_ne. }
      { unfold s1. rewrite set_x_trace. cbn [c_trace emit]. by rewrite <-app_assoc. }
      exists s'. split; [|change (@nil Z) with (@nil Z ++ []); by eapply prints_trans].
      intros m e Hm. replace (2 * S (S n) + m)%nat with (2 + (2 * S n + m))%nat by lia. apply Hstep, Hrun, Hm.
    + exists s1. split; [|done]. intros m e Hm. apply (runs_le _ _ (2 + m)); [by apply Hstep|lia].
Qed.

Ltac uart_prints := repeat first
  [apply prints_refl | apply prints_set_x; [reg_mem|] | apply prints_set_cmp | apply prints_read | apply prints_other; [done|]].
Lemma init_run env s :
  xr 0 s = base → 0 < base → 0 < xr 1 s < 2 ^ 32 → 0 < xr 2 s < 2 ^ 32 →
  ∃ s', runs env console_pl011_core_init 20 0 s (Returned s') ∧ xr 0 s' = 1 ∧ prints (seq 0 5) [] s s'.
Proof using Type.
  intros H0 Hb H1 H2.
  eexists. split; [|split].
  - eapply runs_next; [reflexivity|reflexivity|]. rewrite (proj2 (Z.eqb_neq (xr 0 s) 0)) by lia.
    eapply runs_next; [reflexivity|reflexivity|]. unfold as_u32 at 1. rewrite Z.mod_small, (proj2 (Z.eqb_neq (xr 1 s) 0)) by lia.
    eapply runs_next; [reflexivity|reflexivity|]. unfold as_u32 at 1. rewrite Z.mod_small, (proj2 (Z.eqb_neq (xr 2 s) 0)) by lia.
    do 16 (run_step; rewrite ?H0). apply runs_return. reflexivity.
  - by regs_simpl.
  - uart_prints.
Qed.

(** The text of [console_pl011_core_putc] behind the assertion, which is at position [k]. *)
Definition putc_body (k : nat) : list Instr :=
  [CmpWI 0 0xA; Bc CNe (k + 6); LdrDev 2 1 UARTFR; Tbnz 2 PL011_UARTFR_TXFF_BIT (k + 2); MovI 2 0xD; StrDev 2 1 UARTDR;
   LdrDev 2 1 UARTFR; Tbnz 2 PL011_UARTFR_TXFF_BIT (k + 6); StrDev 0 1 UARTDR; Return].
Context (N : nat).
Lemma wait_ready env prog rd rn bit pc s :
  e_device env = device → ready_within N bit → prog !! pc = Some (LdrDev rd rn UARTFR) → prog !! S pc = Some (Tbnz rd bit pc) →
  rd ≠ rn → rd ≠ 31%nat → xr rn s = base →
  ∃ s', (∀ m e, runs env prog m (S (S pc)) s' e → runs env prog (2 * N + 2 + m) pc s e) ∧ prints [rd] [] s s'.
Proof using Type.
  intros Hd Hr Hl Ht Hne H31 Hx. destruct (Hr (c_trace s)) as (n & Hn & Hbit).
  destruct (poll env prog rd rn bit pc n s) as (s' & Hrun & Hp); [done..|]. exists s'. split; [|done].
  intros m e Hm. apply (runs_le _ _ (2 * S n + m)); [by apply Hrun|lia].
Qed.
(** The relation [prints] in terms of what was written. *)
Record writes (vs : list Z) (s s' : CpuState) : Prop := {
  wr_x : only_clobbers [2%nat] s s';
  wr_b : c_sysregs s' = c_sysregs s;
  wr_m : c_mem s' = c_mem s;
  wr_out : uart_out base (c_trace s') = uart_out base (c_trace s) ++ vs;
}.
Lemma writes_prints c vs s s' : encode [c] = vs → writes vs s s' → prints [0; 1; 2]%nat [c] s s'.
Proof using Type.
  intros Hc [Hx Hb Hm Ho]. split; [|done|done|by rewrite Hc]. intros r Hr. apply Hx. intros ->%list_elem_of_singleton. apply Hr. reg_mem.
Qed.
Lemma writes_trans vs vs' s s' s'' : writes vs s s' → writes vs' s' s'' → writes (vs ++ vs') s s''.
Proof using Type. intros [X B M O] [X' B' M' O']. split; [by eapply clobbers_trans|congruence|congruence|by rewrite O', O, app_assoc]. Qed.
Lemma prints_writes s s' : prints [2%nat] [] s s' → writes [] s s'.
Proof using Type. by intros [X B M O]. Qed.
Lemma writes_emit v s : writes [v] s (emit (EvWrite (base + UARTDR) v) s).
Proof using Type. split; [by apply clobbers_emit, clobbers_refl|done|done|apply uart_write]. Qed.

Context (env : Env) (Hd : e_device env = device) (Hready : ready_within N PL011_UARTFR_TXFF_BIT).
Section Putc.
Context (prog : list Instr) (k : nat) (Hc : code_at prog k (putc_body k)).
(** The character itself. *)
Lemma putc_char s :
  xr 1 s = base → 0 ≤ xr 0 s < 256 → ∃ s', runs env prog (2 * N + 4) (k + 6) s (Returned s') ∧ writes [xr 0 s] s s'.
Proof using Hc Hd Hready.
  intros H1 H0. pose proof (λ i ins H, Hc i ins H) as Hi. unfold putc_body in Hi.
  destruct (wait_ready env prog 2 1 PL011_UARTFR_TXFF_BIT (k + 6) s) as (s1 & Hrun & Hp); try done.
  { by apply (Hi 6%nat). } { rewrite <-Nat.add_succ_r. by apply (Hi 7%nat). }
  pose proof (pr_x _ _ _ _ Hp) as Hx. exists (emit (EvWrite (base + UARTDR) (xr 0 s)) s1). split.
  - replace (2 * N + 4)%nat with (2 * N + 2 + 2)%nat by lia. apply Hrun. rewrite <-!Nat.add_succ_r.
    eapply runs_next; [by apply (Hi 8%nat)|reflexivity|]. cbn [exec_instr]. rewrite (Hx 1%nat), (Hx 0%nat), H1 by reg_mem.
    unfold as_u32. rewrite Z.mod_small by lia. apply runs_return. rewrite <-Nat.add_succ_r. by apply (Hi 9%nat).
  - change [xr 0 s] with ([] ++ [xr 0 s]). eapply writes_trans; [by apply prints_writes|apply writes_emit].
Qed.
(** The carriage return before a newline. *)
Lemma putc_cr s :
  xr 1 s = base → ∃ s', (∀ m e, runs env prog m (k + 6) s' e → runs env prog (2 * N + 4 + m) (k + 2) s e) ∧ writes [13] s s'.
Proof using Hc Hd Hready.
  intros H1. pose proof (λ i ins H, Hc i ins H) as Hi. unfold putc_body in Hi.
  destruct (wait_ready env prog 2 1 PL011_UARTFR_TXFF_BIT (k + 2) s) as (s2 & Hrun & Hp); try done.
  { by apply (Hi 2%nat). } { rewrite <-Nat.add_succ_r. by apply (Hi 3%nat). }
  pose proof (pr_x _ _ _ _ Hp) as Hx. exists (emit (EvWrite (base + UARTDR) 13) (set_x 2 0xD s2)). split.
  - intros m e Hm. replace (2 * N + 4 + m)%nat with (2 * N + 2 + (2 + m))%nat by lia. apply Hrun. rewrite <-!Nat.add_succ_r. cbn [Nat.add].
    eapply runs_next; [by apply (Hi 4%nat)|reflexivity|]. cbn [exec_instr]. rewrite <-Nat.add_succ_r.
    eapply runs_next; [by apply (Hi 5%nat)|reflexivity|]. cbn [exec_instr]. rewrite xr_set_x_ne, (Hx 1%nat), H1, xr_set_x_eq by (done || reg_mem).
    rewrite <-Nat.add_succ_r. exact Hm.
  - change [13] with ([] ++ [] ++ [13]). eapply writes_trans; [by apply prints_writes|]. eapply writes_trans; [|apply writes_emit].
    apply prints_writes. apply prints_set_x; [reg_mem|apply prints_refl].
Qed.
Lemma putc_body_run s :
  xr 1 s = base → 0 ≤ xr 0 s < 256 → ∃ s', runs env prog (4 * N + 10) k s (Returned s') ∧ writes (encode [xr 0 s]) s s'.
Proof using Hc Hd Hready.
  intros H1 H0. pose proof (λ i ins H, Hc i ins H) as Hi. unfold putc_body in Hi. set (s1 := set_cmp (as_u32 (xr 0 s)) 0xA s).
  assert (writes [] s s1) as Hw1 by (unfold s1; split; [apply clobbers_set_cmp, clobbers_refl|done|done|by rewrite app_nil_r]).
  assert (∀ m e, runs env prog m (if negb (xr 0 s =? 0xA)%Z then k + 6 else k + 2)%nat s1 e → runs env prog (2 + m) k s e) as Hstart.
  { intros m e Hm. cbn [Nat.add]. eapply runs_next; [rewrite <-(Nat.add_0_r k); by apply (Hi 0%nat)|reflexivity|]. cbn [exec_instr].
    fold s1. replace (S k) with (k + 1)%nat by lia. eapply runs_next; [by apply (Hi 1%nat)|reflexivity|]. unfold s1 at 1. cbn [c_cmp set_cmp holds].
    unfold as_u32. rewrite Z.mod_small by lia. by replace (S (k + 1)) with (k + 2)%nat by lia. }
  unfold encode. cbn [mbind list_bind]. rewrite app_nil_r. unfold NEWLINE. destruct (Z.eqb_spec (xr 0 s) 10) as [E|E]; cbn [negb] in Hstart.
  - destruct (putc_cr s1 H1) as (s2 & Hrun & Hw2). pose proof (wr_x _ _ _ Hw2) as Hx.
    destruct (putc_char s2) as (s' & Hrun' & Hw'); [by rewrite (Hx 1%nat) by reg_mem|by rewrite (Hx 0%nat) by reg_mem|].
    rewrite (Hx 0%nat) in Hw' by reg_mem. change (xr 0 s1) with (xr 0 s) in Hw'. rewrite E in Hw'. exists s'. split.
    + apply (runs_le _ _ (2 + (2 * N + 4 + (2 * N + 4)))); [|lia]. apply Hstart, Hrun, Hrun'.
    + change [13; 10] with ([] ++ [13] ++ [10]). eapply writes_trans; [exact Hw1|]. by eapply writes_trans.
  - destruct (putc_char s1) as (s' & Hrun' & Hw'); [done..|]. exists s'. split.
    + apply (runs_le _ _ (2 + (2 * N + 4))); [|lia]. apply Hstart, Hrun'.
    + change [xr 0 s] with ([] ++ [xr 0 s]). by eapply writes_trans.
Qed.
End Putc.

(** Behind the assertion. *)
Lemma putc_run s :
  xr 1 s = base → 0 < base → 0 ≤ xr 0 s < 256 →
  ∃ s', runs env console_pl011_core_putc (4 * N + 12) 0 s (Returned s') ∧ prints [0; 1; 2]%nat [xr 0 s] s s'.
Proof using Hd Hready.
  intros H1 Hb H0. unfold console_pl011_core_putc. destruct ENABLE_ASSERTIONS; set (prog := assemble _).
  - set (s1 := set_cmp (xr 1 s) 0 s). destruct (putc_body_run prog 4 ltac:(by apply code_at_eval) s1) as (s' & Hrun & Hw); [done..|].
    exists s'. split.
    + replace (4 * N + 12)%nat with (S (S (4 * N + 10))) by lia. eapply runs_next; [reflexivity|reflexivity|]. cbn [exec_instr]. fold s1.
      eapply runs_next; [reflexivity|reflexivity|]. unfold s1 at 1. cbn [c_cmp set_cmp holds].
      rewrite (proj2 (Z.eqb_neq _ _)) by lia. exact Hrun.
    + eapply (writes_prints _ ([] ++ encode [xr 0 s])); [done|]. eapply writes_trans; [|exact Hw]. unfold s1.
      split; [apply clobbers_set_cmp, clobbers_refl|done|done|by rewrite app_nil_r].
  - destruct (putc_body_run prog 0 ltac:(by apply code_at_eval) s) as (s' & Hrun & Hw); [done..|].
    exists s'. split; [apply (runs_le _ _ (4 * N + 10)); [exact Hrun|lia]|by eapply writes_prints].
Qed.
Lemma flush_run s :
  ready_within N PL011_UARTFR_BUSY_BIT → xr 0 s = base → 0 < base →
  ∃ s', runs env console_pl011_core_flush (2 * N + 5) 0 s (Returned s') ∧ prints [0; 1]%nat [] s s'.
Proof using Hd.
  intros Hidle H0 Hb. unfold console_pl011_core_flush. destruct ENABLE_ASSERTIONS.
  - set (s1 := set_cmp (xr 0 s) 0 s).
    match goal with |- context [assemble ?t] => destruct (wait_ready env (assemble t) 1 0 PL011_UARTFR_BUSY_BIT 4 s1) as (s' & Hrun & Hp); try done end.
    exists s'. split.
    + replace (2 * N + 5)%nat with (S (S (2 * N + 2 + 1))) by lia. eapply runs_next; [reflexivity|reflexivity|]. cbn [exec_instr]. fold s1.
      eapply runs_next; [reflexivity|reflexivity|]. unfold s1 at 1. cbn [c_cmp set_cmp holds].
      rewrite (proj2 (Z.eqb_neq _ _)) by lia. apply Hrun, runs_return. reflexivity.
    + change (@nil Z) with (@nil Z ++ []). eapply prints_trans; [|exact Hp|reg_mem]. unfold s1. prints.
  - match goal with |- context [assemble ?t] => destruct (wait_ready env (assemble t) 1 0 PL011_UARTFR_BUSY_BIT 0 s) as (s' & Hrun & Hp); try done end.
    exists s'. split; [|change (@nil Z) with (@nil Z ++ []); eapply prints_trans; [apply prints_refl|exact Hp|reg_mem]].
    apply (runs_le _ _ (2 * N + 2 + 1)); [|lia]. apply Hrun, runs_return. reflexivity.
Qed.
End Uart.

(** ** The consoles of the platforms *)
Lemma run_tail env l f s : forallb is_move l = true → run_asm env (l ++ [BSym f]) s = e_sym env f (run_plain env l s).
Proof.
  intros Hl. unfold run_asm. rewrite length_app. pose proof (exec_moves env [] l [BSym f] 1 s Hl) as E. cbn [app length Nat.add] in E |- *.
  rewrite E, exec_S, list_lookup_middle by done. done.
Qed.
Section Console.
Context `{AsmConsts} (u : Uart) (fuel N : nat).
#[local] Instance here_console : Console := this_console u.
Context (image : Z → Z → Z) (sym : string → Z) (xpac : Z → Z) (device : list CpuEvent → Z → Z).
Context (calls : string → CpuState → Exit).
(** The UART is not at address zero, has a clock and a baud rate, and takes characters and
    becomes idle within [N] polls. *)
Record uart_ok : Prop := {
  uart_base_ok : 0 < uart_base u < 2 ^ 64;
  uart_clk_ok : 0 < uart_clk u < 2 ^ 32;
  uart_baud_ok : 0 < uart_baud u < 2 ^ 32;
  uart_takes : ready_within u device N PL011_UARTFR_TXFF_BIT;
  uart_idle : ready_within u device N PL011_UARTFR_BUSY_BIT;
  uart_fuel : (4 * N + 20 ≤ fuel)%nat;
}.
Context (Hu : uart_ok).
Let console := console_calls image sym xpac device u fuel calls.
Let penv f := print_env image sym xpac device calls f.

Lemma prints_moved l cs rd s s0 s1 : rd ∈ l → moved rd s0 s1 → prints l cs s s0 → prints l cs s s1.
Proof using Type.
  intros Hl [X B M T] Hp. rewrite <-(app_nil_r cs). eapply (prints_trans _ [rd]); [exact Hp| |].
  - split; [done|done|done|by rewrite T, app_nil_r].
  - by intros r ->%list_elem_of_singleton.
Qed.
#[export] Instance console_laws : ConsoleLaws console.
Proof using Hu.
  split. intros s Hs. destruct (uart_base_ok Hu) as [Hb Hb'].
  change (console "plat_crash_console_putc" s) with
    (run_asm (print_env image sym xpac device (pl011_calls image sym xpac device fuel calls) "plat_crash_console_putc") (crash_console_putc u) s).
  unfold crash_console_putc. rewrite run_tail by apply mov_imm_moves.
  match goal with |- context [run_plain ?e ?l s] => destruct (mov_imm_run e 1 (uart_base u) s) as [E1 Hm1]; [done|unfold u64; lia|]; set (s1 := run_plain e l s) in * end.
  assert (xr 0 s1 = xr 0 s) as E0 by (apply (mv_x _ _ _ Hm1); reg_mem).
  destruct (putc_run u device N (penv "console_pl011_core_putc") eq_refl (uart_takes Hu) s1) as (s' & Hrun & Hp); [done|done|by rewrite E0|].
  exists s'. split.
  - apply (runs_exec _ _ (4 * N + 12)); [exact Hrun|]. pose proof (uart_fuel Hu). lia.
  - rewrite <-E0. change [xr 0 s1] with ([] ++ [xr 0 s1]). eapply prints_trans; [|exact Hp|done].
    eapply prints_moved; [|exact Hm1|apply prints_refl]. reg_mem.
Qed.
Lemma console_init_ok s : ∃ s', console "plat_crash_console_init" s = Returned s' ∧ xr 0 s' ≠ 0 ∧ prints (seq 0 5) [] s s'.
Proof using Hu.
  destruct (uart_base_ok Hu) as [Hb Hb'], (uart_clk_ok Hu) as [Hk Hk'], (uart_baud_ok Hu) as [Hr Hr'].
  set (env := print_env image sym xpac device (pl011_calls image sym xpac device fuel calls) "plat_crash_console_init").
  change (console "plat_crash_console_init" s) with (run_asm env (crash_console_init u) s).
  unfold crash_console_init. rewrite !app_assoc, run_tail by (by rewrite !forallb_app, !mov_imm_moves).
  unfold run_plain. rewrite !foldl_app.
  destruct (mov_imm_run env 0 (uart_base u) s) as [E1 Hm1]; [done|unfold u64; lia|]. unfold run_plain in E1, Hm1. set (s1 := foldl _ s _) in *.
  destruct (mov_imm_run env 1 (uart_clk u) s1) as [E2 Hm2]; [done|unfold u64; lia|]. unfold run_plain in E2, Hm2. set (s2 := foldl _ s1 _) in *.
  destruct (mov_imm_run env 2 (uart_baud u) s2) as [E3 Hm3]; [done|unfold u64; lia|]. unfold run_plain in E3, Hm3. set (s3 := foldl _ s2 _) in *.
  assert (xr 0 s3 = uart_base u ∧ xr 1 s3 = uart_clk u) as [F0 F1].
  { split; [by rewrite (mv_x _ _ _ Hm3), (mv_x _ _ _ Hm2), E1 by reg_mem|by rewrite (mv_x _ _ _ Hm3), E2 by reg_mem]. }
  destruct (init_run u (penv "console_pl011_core_init") s3) as (s' & Hrun & Hx0 & Hp); [done|done|lia|lia|].
  exists s'. split; [|split; [lia|]].
  - apply (runs_exec _ _ 20); [exact Hrun|]. pose proof (uart_fuel Hu). lia.
  - change (@nil Z) with (@nil Z ++ []). eapply prints_trans; [|exact Hp|done].
    eapply prints_moved; [|exact Hm3|]; [reg_mem|]. eapply prints_moved; [|exact Hm2|]; [reg_mem|].
    eapply prints_moved; [|exact Hm1|apply prints_refl]. reg_mem.
Qed.
Lemma console_flush_ok s : ∃ s', console "plat_crash_console_flush" s = Returned s' ∧ prints [0; 1]%nat [] s s'.
Proof using Hu.
  destruct (uart_base_ok Hu) as [Hb Hb'].
  change (console "plat_crash_console_flush" s) with
    (run_asm (print_env image sym xpac device (pl011_calls image sym xpac device fuel calls) "plat_crash_console_flush") (crash_console_flush u) s).
  unfold crash_console_flush. rewrite run_tail by apply mov_imm_moves.
  match goal with |- context [run_plain ?e ?l s] => destruct (mov_imm_run e 0 (uart_base u) s) as [E1 Hm1]; [done|unfold u64; lia|]; set (s1 := run_plain e l s) in * end.
  destruct (flush_run u device N (penv "console_pl011_core_flush") eq_refl s1) as (s' & Hrun & Hp); [apply (uart_idle Hu)|done|done|].
  exists s'. split.
  - apply (runs_exec _ _ (2 * N + 5)); [exact Hrun|]. pose proof (uart_fuel Hu). lia.
  - change (@nil Z) with (@nil Z ++ []). eapply prints_trans; [|exact Hp|done].
    eapply prints_moved; [|exact Hm1|apply prints_refl]. reg_mem.
Qed.
End Console.
