(* ===== verification/CrashPlatform.v ===== *)
(** * The platforms in a crash

    The registers of the GIC and of the implementation of the core are printed, so that a
    platform with a working UART meets what crash reports rely on. *)

From Stdlib Require Import ZArith Lia.
From stdpp Require Import base list numbers option functions strings sets.
From S2P Require Import Prelude Smccc Services Context Asm AsmProps AsmWords ContextAsm Cpu ErrataProps CpuProps CrashAsm CrashProps CrashConsole CrashConsoleProps.
Open Scope rust_scope.
Open Scope string_scope.
Open Scope list_scope.
Open Scope Z_scope.

(** ** Code behind other code *)
Lemma label_app l text x : label ((I <$> l) ++ text) x = (length l + label text x)%nat.
Proof. induction l as [|i l IH]; [done|]. cbn. by rewrite <-IH. Qed.
Lemma assemble_behind l text : assemble ((I <$> l) ++ text) = l ++ omap (assemble_line (λ x, (length l + label text x)%nat)) text.
Proof.
  unfold assemble. rewrite omap_app. f_equal.
  - generalize (label ((I <$> l) ++ text)). intros at_. induction l as [|i l IH]; [done|]. cbn. f_equal. exact IH.
  - apply list_omap_ext. apply Forall2_same_length_lookup_2; [done|]. intros i x y Hx Hy. rewrite Hx in Hy. injection Hy as <-.
    destruct x; cbn; by rewrite ?label_app.
Qed.

Lemma mov_imm_length rd v : (length (mov_imm rd v) ≤ 4)%nat.
Proof.
  assert (∀ k, length (mov_imm16 rd v k) ≤ 1)%nat as Hk by (intros k; unfold mov_imm16; repeat case_match; cbn; lia).
  unfold mov_imm. case_match; [cbn; lia|]. rewrite !length_app. pose proof (Hk 0). pose proof (Hk 16). pose proof (Hk 32). pose proof (Hk 48). lia.
Qed.

Section Gic.
Context `{AsmConsts} (u : Uart) (fuel N : nat).
#[local] Instance gic_console : Console := this_console u.
Context (image : Z → Z → Z) (sym : string → Z) (xpac : Z → Z) (device : list CpuEvent → Z → Z).
Context (calls : string → CpuState → Exit).
Context (Hu : uart_ok u fuel N device).
Let console := console_calls image sym xpac device u fuel calls.
#[local] Instance gic_laws : ConsoleLaws console := console_laws u fuel N image sym xpac device calls Hu.
Context (GICD_BASE ICC_SRE_SRE_BIT GICD_ISPENDR : Z).
Context (Hrodata : rodata_at image sym).
(** The offset of the first register is that of the architecture. *)
Definition gic_rodata_at : Prop := ∀ f bytes, (f, bytes) ∈ gic_rodata →
  bytes_at image (sym f) bytes ∧ 3 ≤ sym f ∧ sym f + Z.of_nat (length bytes) < 2 ^ 64.
Context (Hgic : gic_rodata_at) (Hoff : GICD_ISPENDR = 0x200) (Hbase : 0 ≤ GICD_BASE ∧ GICD_BASE + 0x1000 < 2 ^ 64).

Let prog := plat_dump_registers GICD_BASE ICC_SRE_SRE_BIT GICD_ISPENDR.
Let genv := print_env image sym xpac device (buf_calls image sym xpac device console) "plat_crash_print_regs".
Let n := length (mov_imm 16 GICD_BASE).
Definition gic_code (k : nat) : list Instr :=
  [MovR 11 30; Mrs 8 "icc_sre_el3"; TstI 8 ICC_SRE_SRE_BIT; Bc CEq (k + 9);
   Adr 6 "icc_regs"; Mrs 8 "icc_hppir0_el1"; Mrs 9 "icc_hppir1_el1"; Mrs 10 "icc_ctlr_el3"; Bl "str_in_crash_buf_print";
   AddI 7 16 GICD_ISPENDR; Adr 4 "gicd_pend_reg"; Bl "asm_print_str";
   SubR 4 7 16; CmpI 4 0x280; Bc CEq (k + 27); Adr 4 "prefix"; Bl "asm_print_str";
   SubR 4 7 16; MovI 5 12; Bl "asm_print_hex_bits"; Adr 4 "spacer"; Bl "asm_print_str";
   LdrDevPost 4 7 8; Bl "asm_print_hex"; Adr 4 "newline"; Bl "asm_print_str"; B (k + 12)].
Lemma gic_program : prog = mov_imm 16 GICD_BASE ++ gic_code n ++ [MovR 30 11; Return].
Proof using Type. unfold prog, plat_dump_registers. by rewrite assemble_behind. Qed.
Lemma gic_at k i : gic_code n !! k = Some i → prog !! (n + k)%nat = Some i.
Proof using Type.
  intros Hk. rewrite gic_program, lookup_app_r, Nat.add_sub' by (fold n; lia). by apply lookup_app_l_Some.
Qed.

(** Calls that print. *)
Definition seg : list nat := [0; 1; 2; 3; 4; 5; 30]%nat.
Definition prints_next (k pc pc' : nat) (cs : list Z) (s : CpuState) : Prop :=
  ∃ s', (∀ m e, runs genv prog m pc' s' e → runs genv prog (k + m) pc s e) ∧ prints seg cs s s'.
Lemma call_next l f cs pc s :
  prog !! pc = Some (Bl f) → (∀ r, r ∈ l → r ∈ seg) →
  (∀ ra, ∃ s', buf_calls image sym xpac device console f (set_x 30 ra s) = ReturnedTo ra s' ∧ prints l cs (set_x 30 ra s) s') →
  prints_next 1 pc (S pc) cs s.
Proof using Type.
  intros Hi Hl Hf. destruct (Hf (e_base genv + 4 * Z.of_nat (S pc))) as (s' & Hrun & Hp). exists s'. split.
  - intros m e Hm. eapply runs_bl; [exact Hi|right; exact Hrun|exact Hm].
  - change cs with ([] ++ cs). eapply prints_trans; [|exact Hp|done]. apply prints_set_x; [reg_mem|apply prints_refl].
Qed.
Lemma next_trans k k' pc pc' pc'' cs cs' s :
  prints_next k pc pc' cs s → (∀ s', prints seg cs s s' → prints_next k' pc' pc'' cs' s') → prints_next (k + k') pc pc'' (cs ++ cs') s.
Proof using Type.
  intros (s1 & Hrun & Hp) Hn. destruct (Hn s1 Hp) as (s2 & Hrun2 & Hp2). exists s2. split; [|by eapply prints_trans].
  intros m e Hm. rewrite <-Nat.add_assoc. by apply Hrun, Hrun2.
Qed.
Lemma move_next i rd v pc s :
  prog !! pc = Some i → next genv i pc s = Some (S pc, set_x rd v s) → rd ∈ seg → prints_next 1 pc (S pc) [] s.
Proof using Type.
  intros Hi Hn Hrd. exists (set_x rd v s). split; [|apply prints_set_x; [done|apply prints_refl]].
  intros m e Hm. by eapply runs_next.
Qed.
(** A text of the image. *)
Lemma str_next f l pc s :
  prog !! pc = Some (Adr 4 f) → prog !! S pc = Some (Bl "asm_print_str") → (f, l ++ [0]) ∈ gic_rodata →
  Forall char_ok l → (length l ≤ 240)%nat → prints_next 2 pc (S (S pc)) l s.
Proof using Hgic Hu.
  intros Hi Hi' Hf Hc Hlen. destruct (Hgic _ _ Hf) as (Hb & Hlo & Hhi). rewrite length_app in Hhi. cbn [length] in Hhi.
  set (s1 := set_x 4 (sym f) s). destruct (call_next str_clobbers "asm_print_str" l (S pc) s1) as (s' & Hrun & Hp); [done|reg_mem| |].
  { intros ra. assert (xr 4 (set_x 30 ra s1) = sym f) as E by (unfold s1; by regs_simpl).
    destruct (print_str_run image sym xpac device console l (set_x 30 ra s1)) as (s2 & Hrun & _ & Hp); rewrite ?E; [done|done|done|lia|lia|].
    rewrite xr_set_x_eq in Hrun by done. by exists s2. }
  exists s'. split.
  - intros m e Hm. eapply (runs_next _ _ (1 + m)); [exact Hi|reflexivity|]. by apply Hrun.
  - change l with ([] ++ l). eapply prints_trans; [|exact Hp|done]. unfold s1. apply prints_set_x; [reg_mem|apply prints_refl].
Qed.
(** A line for eight bytes of the registers. *)
Definition gic_line (off v : Z) : list Z :=
  ascii "0x" ++ hex_digits 3 off ++ (ascii ":" ++ [9; 9] ++ ascii " 0x") ++ hex_digits 16 v ++ [NEWLINE].
Lemma offset_next off pc s :
  prog !! pc = Some (SubR 4 7 16) → prog !! S pc = Some (MovI 5 12) → prog !! S (S pc) = Some (Bl "asm_print_hex_bits") →
  xr 16 s = GICD_BASE → xr 7 s = GICD_BASE + off → 0 ≤ off < 0x1000 → prints_next 3 pc (S (S (S pc))) (hex_digits 3 off) s.
Proof using Hbase Hu.
  intros Hi1 Hi2 Hi3 H16 H7 Ho. set (s1 := set_x 5 12 (set_x 4 off s)).
  destruct (call_next hex_clobbers "asm_print_hex_bits" (hex_digits 3 off) (S (S pc)) s1) as (s' & Hrun & Hp); [done|reg_mem| |].
  { intros ra. destruct (print_hex_bits_run image sym xpac device console 2 (set_x 30 ra s1)) as (s2 & Hrun & Hp); [unfold s1; by regs_simpl|lia|].
    rewrite xr_set_x_eq in Hrun by done. replace (xr 4 (set_x 30 ra s1)) with off in Hp by (unfold s1; by regs_simpl). by exists s2. }
  exists s'. split.
  - intros m e Hm. eapply (runs_next _ _ (2 + m)); [exact Hi1|reflexivity|]. cbn [exec_instr]. rewrite H16, H7.
    replace (GICD_BASE + off - GICD_BASE) with off by lia. rewrite Z.mod_small by lia.
    eapply (runs_next _ _ (1 + m)); [exact Hi2|reflexivity|]. by apply Hrun.
  - change (hex_digits 3 off) with ([] ++ hex_digits 3 off). eapply prints_trans; [|exact Hp|done].
    unfold s1, seg. prints.
Qed.
Lemma value_next v pc s :
  prog !! pc = Some (Bl "asm_print_hex") → xr 4 s = v → prints_next 1 pc (S pc) (hex_digits 16 v) s.
Proof using Hu.
  intros Hi H4. apply (call_next hex_clobbers "asm_print_hex"); [done|reg_mem|]. intros ra.
  destruct (print_hex_run image sym xpac device console (set_x 30 ra s)) as (s2 & Hrun & Hp).
  rewrite xr_set_x_eq in Hrun by done. rewrite xr_set_x_ne, H4 in Hp by done. by exists s2.
Qed.
Ltac gic_pos k := rewrite <-?Nat.add_succ_r; by apply (gic_at k).
Lemma iter_run off s :
  xr 16 s = GICD_BASE → xr 7 s = GICD_BASE + off → 0 ≤ off < 0x280 →
  ∃ s' v, (∀ m e, runs genv prog m (n + 12) s' e → runs genv prog (15 + m) (n + 12) s e) ∧
    xr 7 s' = GICD_BASE + (off + 8) ∧ prints (7%nat :: seg) (gic_line off v) s s'.
Proof using Hbase Hgic Hu.
  intros H16 H7 Ho. set (s1 := set_cmp off 0x280 (set_x 4 off s)).
  assert (xr 16 s1 = GICD_BASE ∧ xr 7 s1 = GICD_BASE + off) as [E16 E7] by (unfold s1; by regs_simpl).
  assert (prints seg [] s s1) as Hp1 by (unfold s1, seg; prints).
  assert (prints_next 7 (n + 15) (n + 22) (ascii "0x" ++ hex_digits 3 off ++ (ascii ":" ++ [9; 9] ++ ascii " 0x")) s1) as (s2 & Hrun2 & Hp2).
  { apply (next_trans 2 5 _ (n + 17)).
    { replace (n + 17)%nat with (S (S (n + 15))) by lia. apply (str_next "prefix"); [gic_pos 15%nat|gic_pos 16%nat|do 4 right; left|by repeat constructor|cbn; lia]. }
    intros s2 Hp2. pose proof (pr_x _ _ _ _ Hp2) as Hx2. apply (next_trans 3 2 _ (n + 20)).
    { replace (n + 20)%nat with (S (S (S (n + 17)))) by lia.
      apply offset_next; [gic_pos 17%nat|gic_pos 18%nat|gic_pos 19%nat|by rewrite (Hx2 16%nat) by reg_mem|by rewrite (Hx2 7%nat) by reg_mem|lia]. }
    intros s3 _. replace (n + 22)%nat with (S (S (n + 20))) by lia.
    apply (str_next "spacer"); [gic_pos 20%nat|gic_pos 21%nat|do 3 right; left|by repeat constructor|cbn; lia]. }
  pose proof (pr_x _ _ _ _ Hp2) as Hx2. set (v := device (c_trace s2) (GICD_BASE + off)).
  set (s3 := set_x 7 (GICD_BASE + (off + 8)) (set_x 4 v (emit (EvRead (GICD_BASE + off)) s2))).
  assert (prints_next 3 (n + 23) (n + 26) (hex_digits 16 v ++ [NEWLINE]) s3) as (s4 & Hrun4 & Hp4).
  { apply (next_trans 1 2 _ (n + 24)).
    { replace (n + 24)%nat with (S (n + 23)) by lia. apply value_next; [gic_pos 23%nat|unfold s3; by regs_simpl]. }
    intros s4 _. replace (n + 26)%nat with (S (S (n + 24))) by lia.
    apply (str_next "newline"); [gic_pos 24%nat|gic_pos 25%nat|do 2 right; left|by repeat constructor|cbn; lia]. }
  exists s4, v. split; [|split].
  - intros m e Hm. cbn [Nat.add]. eapply runs_next; [gic_pos 12%nat|reflexivity|]. cbn [exec_instr]. rewrite H16, H7.
    replace (GICD_BASE + off - GICD_BASE) with off by lia. rewrite Z.mod_small by lia.
    eapply runs_next; [gic_pos 13%nat|reflexivity|]. cbn [exec_instr]. rewrite xr_set_x_eq by done. fold s1.
    eapply runs_next; [gic_pos 14%nat|reflexivity|]. unfold s1 at 1. cbn [c_cmp set_cmp holds]. rewrite (proj2 (Z.eqb_neq _ _)) by lia.
    replace (S (S (S (n + 12)))) with (n + 15)%nat by lia. apply (Hrun2 (5 + m)%nat).
    eapply (runs_next _ _ (4 + m)); [gic_pos 22%nat|reflexivity|]. cbn [exec_instr]. rewrite (Hx2 7%nat), E7 by reg_mem.
    change (e_device genv) with device. fold v. replace (GICD_BASE + off + 8) with (GICD_BASE + (off + 8)) by lia.
    rewrite Z.mod_small by lia. fold s3. replace (S (n + 22)) with (n + 23)%nat by lia. apply (Hrun4 (1 + m)%nat).
    eapply (runs_next _ _ m); [gic_pos 26%nat|reflexivity|]. exact Hm.
  - rewrite (pr_x _ _ _ _ Hp4 7%nat) by reg_mem. unfold s3. by regs_simpl.
  - unfold gic_line. rewrite !app_assoc. rewrite <-(app_assoc _ (hex_digits 16 v)). eapply prints_trans; [|exact Hp4|reg_mem].
    unfold s3. apply prints_set_x; [reg_mem|]. apply prints_set_x; [reg_mem|]. apply prints_read.
    rewrite <-!app_assoc. eapply (prints_trans _ _ []); [|exact Hp2|reg_mem]. change (@nil Z) with (@nil Z ++ []).
    eapply prints_trans; [apply prints_refl|exact Hp1|reg_mem].
Qed.
Fixpoint gic_lines (off : Z) (vs : list Z) : list Z :=
  match vs with [] => [] | v :: vs => gic_line off v ++ gic_lines (off + 8) vs end.
Lemma loop_run j off s :
  xr 16 s = GICD_BASE → xr 7 s = GICD_BASE + off → 0 ≤ off → off + 8 * Z.of_nat j = 0x280 →
  ∃ s' vs, runs genv prog (15 * j + 5) (n + 12) s (Returned s') ∧ xr 30 s' = xr 11 s ∧ length vs = j ∧
    prints (7%nat :: seg) (gic_lines off vs) s s'.
Proof using Hbase Hgic Hu.
  revert off s. induction j as [|j IH]; intros off s H16 H7 Ho Hj.
  - assert (off = 0x280) as -> by lia. set (s1 := set_cmp 0x280 0x280 (set_x 4 0x280 s)). exists (set_x 30 (xr 11 s1) s1), [].
    split; [|split; [by unfold s1; regs_simpl|split; [done|unfold s1, seg; prints]]].
    cbn [Nat.mul Nat.add]. eapply runs_next; [gic_pos 12%nat|reflexivity|]. cbn [exec_instr]. rewrite H16, H7.
    replace (GICD_BASE + 0x280 - GICD_BASE) with 0x280 by lia. rewrite Z.mod_small by lia.
    eapply runs_next; [gic_pos 13%nat|reflexivity|]. cbn [exec_instr]. rewrite xr_set_x_eq by done. fold s1.
    eapply runs_next; [gic_pos 14%nat|reflexivity|]. unfold s1 at 1. cbn [c_cmp set_cmp holds Z.eqb Pos.eqb].
    assert (∀ k i, [MovR 30 11; Return] !! k = Some i → prog !! (n + (27 + k))%nat = Some i) as Hend.
    { intros k i Hk. rewrite gic_program, app_assoc, lookup_app_r by (rewrite length_app; fold n; cbn [length gic_code]; lia).
      rewrite length_app. fold n. cbn [length gic_code]. by replace (n + (27 + k) - (n + 27))%nat with k by lia. }
    eapply runs_next; [by apply (Hend 0%nat)|reflexivity|]. apply runs_return. rewrite <-Nat.add_succ_r. by apply (Hend 1%nat).
  - destruct (iter_run off s) as (s1 & v & Hrun & H71 & Hp1); [done|done|lia|]. pose proof (pr_x _ _ _ _ Hp1) as Hx.
    destruct (IH (off + 8) s1) as (s' & vs & Hrun' & H30 & Hl & Hp'); [by rewrite (Hx 16%nat) by reg_mem|done|lia|lia|].
    exists s', (v :: vs). split; [|split; [|split]].
    + replace (15 * S j + 5)%nat with (15 + (15 * j + 5))%nat by lia. by apply Hrun.
    + by rewrite H30, (Hx 11%nat) by reg_mem.
    + cbn [length]. by rewrite Hl.
    + cbn [gic_lines]. by eapply prints_trans.
Qed.

(** *** The registers of the CPU interface *)
Definition ICC_REGS : list SysReg := ["icc_hppir0_el1"; "icc_hppir1_el1"; "icc_ctlr_el3"].
Lemma icc_names s : xr 6 s = sym "icc_regs" → naming image (ascii <$> ICC_REGS) s.
Proof using Hgic.
  intros H6. destruct (Hgic "icc_regs" _ ltac:(left)) as (Hb & Hlo & Hhi).
  apply (naming_at image ICC_REGS (sym "icc_regs")); [exact Hb|clear -Hlo; lia|exact Hhi| |done].
  unfold name_ok, char_ok. apply (bool_decide_eq_true_1 _). vm_compute. reflexivity.
Qed.
Definition icc_clobbers : list nat := seq 0 11 ++ [30%nat].
Lemma icc_run p s :
  crashing p s → (∀ r, r ≠ "sp_el3" → u64 (c_sysregs s r)) → Forall u64 (group_values s) →
  ∃ s', (∀ m e, runs genv prog m (n + 9) s' e → runs genv prog (5 + m) (n + 4) s e) ∧
    reports icc_clobbers (lines (ascii <$> ICC_REGS) (c_sysregs s <$> ICC_REGS)) s s'.
Proof using Hgic Hrodata Hu.
  intros Hcr Hb Hg.
  set (s1 := set_x 10 (c_sysregs s "icc_ctlr_el3") (set_x 9 (c_sysregs s "icc_hppir1_el1") (set_x 8 (c_sysregs s "icc_hppir0_el1") (set_x 6 (sym "icc_regs") s)))).
  set (s2 := set_x 30 (e_base genv + 4 * Z.of_nat (S (n + 8))) s1).
  assert (prints icc_clobbers [] s s2) as Hp2 by (unfold s2, s1, icc_clobbers; prints).
  assert (xr 6 s2 = sym "icc_regs") as E6 by (unfold s2, s1; by regs_simpl).
  assert (group_values s2 = (c_sysregs s <$> ICC_REGS) ++ drop 3 (group_values s)) as Eg.
  { unfold group_values, s2, s1, ICC_REGS. cbn [seq fmap list_fmap drop app]. by regs_simpl. }
  destruct (icc_names s2 E6) as [Hok Hby [Ha Hlt]].
  destruct (buf_run image sym xpac device console Hrodata p (ascii <$> ICC_REGS) s2) as (s3 & Hrun & E30 & _ & Hr); try done.
  { by eapply crashing_prints. }
  { rewrite Eg. apply Forall_app. split; [|by apply Forall_drop]. unfold ICC_REGS. cbn [fmap list_fmap].
    repeat (apply Forall_cons; split; [by apply Hb|]). by apply Forall_nil. }
  rewrite Eg, lines_trim in Hr by done. exists s3. split.
  - intros m e Hm. cbn [Nat.add]. do 4 (eapply runs_next; [first [gic_pos 4%nat|gic_pos 5%nat|gic_pos 6%nat|gic_pos 7%nat]|reflexivity|]).
    cbn [exec_instr]. rewrite !set_x_sysregs. change (e_addr genv "icc_regs") with (sym "icc_regs"). fold s1.
    replace (S (S (S (S (n + 4))))) with (n + 8)%nat by lia. eapply runs_bl; [gic_pos 8%nat| |].
    + left. split; [exact Hrun|]. rewrite E30. unfold s2. by regs_simpl.
    + by replace (S (n + 8)) with (n + 9)%nat by lia.
  - change (lines _ _) with ([] ++ lines (ascii <$> ICC_REGS) (c_sysregs s <$> ICC_REGS)).
    eapply reports_trans; [eapply prints_reports; [exact Hp2|done]|exact Hr|reg_mem].
Qed.
(** *** All of it *)
Definition gic_clobbers : list nat := seq 0 12 ++ [16; 17; 30]%nat.
Definition icc_lines (b : Bank) : list Z :=
  if Z.land (b "icc_sre_el3") ICC_SRE_SRE_BIT =? 0 then [] else lines (ascii <$> ICC_REGS) (b <$> ICC_REGS).
Lemma icc_part p s :
  crashing p s → u64 (xr 30 s) → (∀ r, r ≠ "sp_el3" → u64 (c_sysregs s r)) → Forall u64 (group_values s) →
  ∃ s', (∀ m e, runs genv prog m (n + 9) s' e → runs genv prog (9 + m) n s e) ∧ xr 11 s' = xr 30 s ∧ xr 16 s' = xr 16 s ∧
    reports gic_clobbers (icc_lines (c_sysregs s)) s s'.
Proof using Hgic Hrodata Hu.
  intros Hcr H30 Hb Hg. set (t := Z.land (c_sysregs s "icc_sre_el3") ICC_SRE_SRE_BIT).
  set (s1 := set_cmp t 0 (set_x 8 (c_sysregs s "icc_sre_el3") (set_x 11 (xr 30 s) s))).
  assert (prints [8; 11]%nat [] s s1) as Hp1 by (unfold s1; prints).
  assert (xr 11 s1 = xr 30 s ∧ xr 16 s1 = xr 16 s ∧ c_sysregs s1 = c_sysregs s) as (E11 & E16 & Eb) by (unfold s1; by regs_simpl).
  assert (Forall u64 (group_values s1)) as Hg1.
  { unfold group_values, s1 in *. cbn [seq fmap list_fmap] in *. regs_simpl. rewrite !Forall_cons in Hg |- *.
    destruct Hg as (_ & ? & ? & _ & ? & ? & ? & ? & ?). repeat (split; [done || by apply Hb|]). done. }
  assert (∀ m e, runs genv prog m (if (t =? 0)%Z then n + 9 else n + 4)%nat s1 e → runs genv prog (4 + m) n s e) as Hstart.
  { intros m e Hm. cbn [Nat.add]. eapply runs_next; [rewrite <-(Nat.add_0_r n); by apply (gic_at 0)|reflexivity|].
    replace (S n) with (n + 1)%nat by lia. eapply runs_next; [gic_pos 1%nat|reflexivity|]. eapply runs_next; [gic_pos 2%nat|reflexivity|].
    cbn [exec_instr]. rewrite set_x_sysregs, xr_set_x_eq by done. fold t. fold s1. eapply runs_next; [gic_pos 3%nat|reflexivity|].
    unfold s1 at 1. cbn [c_cmp set_cmp holds]. by replace (S (S (S (n + 1)))) with (n + 4)%nat by lia. }
  unfold icc_lines. fold t. destruct (t =? 0).
  - exists s1. split; [intros m e Hm; apply (runs_le _ _ (4 + m)); [by apply Hstart|lia]|]. do 2 (split; [done|]).
    by eapply prints_reports; [exact Hp1|reg_mem].
  - destruct (icc_run p s1) as (s' & Hrun & Hr); [by eapply crashing_prints|by rewrite Eb|done|]. rewrite Eb in Hr.
    exists s'. split; [intros m e Hm; apply (Hstart (5 + m)%nat), Hrun, Hm|].
    rewrite (rep_x _ _ _ _ Hr 11%nat), (rep_x _ _ _ _ Hr 16%nat) by reg_mem. do 2 (split; [done|]).
    change (lines _ _) with ([] ++ lines (ascii <$> ICC_REGS) (c_sysregs s <$> ICC_REGS)).
    eapply reports_trans; [by eapply prints_reports; [exact Hp1|reg_mem]|exact Hr|reg_mem].
Qed.
Definition pend_text : list Z :=
  ascii "gicd_ispendr regs (Offsets 0x200-0x278)" ++ [NEWLINE] ++ ascii "Offset" ++ [9; 9; 9] ++ ascii "Value" ++ [NEWLINE].
(** [dump_registers] prints the pending interrupts. *)
Lemma gic_run p s :
  crashing p s → u64 (xr 30 s) → (∀ r, r ≠ "sp_el3" → u64 (c_sysregs s r)) → Forall u64 (group_values s) →
  ∃ s' vs, exec GIC_FUEL genv prog 0 s = Returned s' ∧ xr 30 s' = xr 30 s ∧ length vs = 16%nat ∧
    reports gic_clobbers (icc_lines (c_sysregs s) ++ pend_text ++ gic_lines 0x200 vs) s s'.
Proof using Hbase Hgic Hoff Hrodata Hu.
  intros Hcr H30 Hb Hg. destruct (mov_imm_run genv 16 GICD_BASE s) as [E16 Hm]; [done|unfold u64; lia|].
  set (s1 := run_plain genv (mov_imm 16 GICD_BASE) s) in *.
  assert (∀ m e, runs genv prog m n s1 e → runs genv prog (n + m) 0 s e) as Hstart.
  { intros m e Hrun k. specialize (Hrun k). rewrite gic_program in Hrun |- *. rewrite <-Nat.add_assoc.
    pose proof (exec_moves genv [] (mov_imm 16 GICD_BASE) (gic_code n ++ [MovR 30 11; Return]) (m + k) s (mov_imm_moves _ _)) as E.
    cbn [app length Nat.add] in E. fold n in E. by rewrite E. }
  assert (prints [16%nat] [] s s1) as Hp1 by (by eapply prints_moved; [|exact Hm|apply prints_refl]; left).
  pose proof (pr_x _ _ _ _ Hp1) as Hx1. pose proof (pr_b _ _ _ _ Hp1) as Eb.
  assert (group_values s1 = group_values s) as Eg.
  { apply list_fmap_ext. intros i r Hi. apply Hx1. intros ->%list_elem_of_singleton. apply list_elem_of_lookup_2, elem_of_seq in Hi. lia. }
  destruct (icc_part p s1) as (s2 & Hrun2 & E11 & E16' & Hr2).
  { by eapply crashing_prints. } { by rewrite (Hx1 30%nat) by reg_mem. } { by rewrite Eb. } { by rewrite Eg. }
  rewrite E16 in E16'. rewrite Eb in Hr2. rewrite (Hx1 30%nat) in E11 by reg_mem.
  set (s3 := set_x 7 (GICD_BASE + 0x200) s2).
  destruct (str_next "gicd_pend_reg" pend_text (n + 10) s3) as (s4 & Hrun4 & Hp4);
    [gic_pos 10%nat|gic_pos 11%nat|right; left|by repeat constructor|cbn; lia|]. pose proof (pr_x _ _ _ _ Hp4) as Hx4.
  destruct (loop_run 16 0x200 s4) as (s' & vs & Hrun & E30 & Hl & Hp').
  { rewrite (Hx4 16%nat) by reg_mem. unfold s3. by regs_simpl. } { rewrite (Hx4 7%nat) by reg_mem. unfold s3. by regs_simpl. } { lia. } { lia. }
  exists s', vs. split; [|split; [|split; [done|]]].
  - apply (runs_exec _ _ (n + (9 + (1 + (2 + (15 * 16 + 5)))))); [|pose proof (mov_imm_length 16 GICD_BASE : (n ≤ 4)%nat); unfold GIC_FUEL; lia].
    apply Hstart, Hrun2. eapply (runs_next _ _ (2 + (15 * 16 + 5))); [gic_pos 9%nat|reflexivity|]. cbn [exec_instr].
    rewrite E16', Hoff, Z.mod_small by lia. fold s3. replace (S (n + 9)) with (n + 10)%nat by lia. apply Hrun4.
    by replace (S (S (n + 10))) with (n + 12)%nat by lia.
  - rewrite E30, (Hx4 11%nat) by reg_mem. unfold s3. regs_simpl. done.
  - assert (prints gic_clobbers pend_text s2 s4) as Hq4.
    { change pend_text with ([] ++ pend_text). eapply prints_trans; [|exact Hp4|reg_mem]. unfold s3, gic_clobbers. prints. }
    eapply (reports_trans _ gic_clobbers); [|eapply (prints_reports gic_clobbers); [|done]|done].
    + rewrite <-(app_nil_l (icc_lines _)). eapply (reports_trans _ gic_clobbers); [by eapply prints_reports; [exact Hp1|reg_mem]|exact Hr2|done].
    + eapply prints_trans; [exact Hq4|exact Hp'|reg_mem].
Qed.
End Gic.

(** ** A platform *)
Lemma panic_handler_waits fuel env pc s : (pc ≤ 1)%nat → exec fuel env panic_handler pc s = Stuck.
Proof.
  revert pc s. induction fuel as [|fuel IH]; intros pc s Hpc; [done|]. rewrite exec_S.
  destruct pc as [|[|pc]]; [cbn; apply IH; lia|cbn; apply IH; lia|lia].
Qed.

Section Platform.
Context `{AsmConsts} (u : Uart) (fuel N : nat).
#[local] Instance plat_console : Console := this_console u.
Context (image : Z → Z → Z) (sym : string → Z) (xpac : Z → Z) (device : list CpuEvent → Z → Z).
Context (code : Z → CpuState → Exit) (CPU_OPS : list CpuOps) (cpu_ops cpu_ops_size midr_offset dump_registers_offset : Z).
Context (GICD_BASE ICC_SRE_SRE_BIT GICD_ISPENDR : Z).
Context (dump_at : nat → Z) (names : CpuOps → list (string * SysReg)).
Let denv := dump_env image sym xpac device code CPU_OPS cpu_ops cpu_ops_size midr_offset.
Let base := base_calls image sym xpac device fuel code CPU_OPS cpu_ops cpu_ops_size midr_offset dump_registers_offset.
Let plat := plat_calls image sym xpac device u fuel code CPU_OPS cpu_ops cpu_ops_size midr_offset dump_registers_offset
  GICD_BASE ICC_SRE_SRE_BIT GICD_ISPENDR.

(** A function that dumps no register, or one with its name. *)
Inductive dumps : list Instr → list (string * SysReg) → Prop :=
| dumps_none : dumps [Return] []
| dumps_one f name :
    bytes_at image (sym f) (asciz [name; EmptyString]) → 0 ≤ sym f → sym f + 32 < 2 ^ 64 → name_ok (ascii name) →
    dumps (c1_dump_registers f) [(name, "s3_0_c15_c1_4")].
Definition cpu_regs_of (m : Z) : list (string * SysReg) :=
  match List.find (λ i, has_matching_midr i m) CPU_OPS with Some op => names op | None => [] end.

Record platform_ok : Prop := {
  po_uart : uart_ok u fuel N device;
  po_rodata : rodata_at image sym;
  po_gic : gic_rodata_at image sym;
  po_ispendr : GICD_ISPENDR = 0x200;
  po_gicd : 0 ≤ GICD_BASE ∧ GICD_BASE + 0x1000 < 2 ^ 64;
  po_ops : ops_table denv cpu_ops cpu_ops_size midr_offset CPU_OPS;
  po_dump i op : CPU_OPS !! i = Some op → image 8 (ops_addr cpu_ops cpu_ops_size i + dump_registers_offset) = dump_at i ∧
    code (dump_at i) = run_asm denv (dump_registers op);
  po_names : Forall (λ op, dumps (dump_registers op) (names op)) CPU_OPS;
}.
Context (Hplat : platform_ok).

Lemma cpu_dump_registers_ok s :
  naming image [] s → (∀ r, r ≠ "sp_el3" → u64 (c_sysregs s r)) → Forall u64 (group_values s) →
  let regs := cpu_regs_of (c_sysregs s "midr_el1") in
  ∃ s', plat "cpu_dump_registers" s = Returned s' ∧ xr 30 s' = xr 30 s ∧ prints (seq 0 16) [] s s' ∧
    naming image (ascii <$> regs.*1) s' ∧ (∃ vs, group_values s' = (c_sysregs s <$> regs.*2) ++ vs) ∧ Forall u64 (group_values s').
Proof using Hplat.
  intros Hn Hb Hg regs. change (plat "cpu_dump_registers" s) with (run_asm denv (cpu_dump_registers_asm dump_registers_offset) s).
  destruct (cpu_dump_run denv cpu_ops cpu_ops_size midr_offset CPU_OPS (po_ops Hplat) dump_registers_offset dump_at s (po_dump Hplat))
    as (s1 & Eb & Et & Em & Hc & ->).
  assert (group_values s1 = group_values s) as Eg.
  { apply list_fmap_ext. intros i r Hi. apply Hc. apply list_elem_of_lookup_2 in Hi. rewrite elem_of_seq in *. lia. }
  assert (xr 30 s1 = xr 30 s) as E30 by (apply Hc; reg_mem).
  assert (prints (seq 0 16) [] s s1) as Hp1.
  { split; [|done|done|by rewrite Et, app_nil_r]. intros r Hr. apply Hc. rewrite elem_of_seq in *. lia. }
  assert (naming image [] s1) as Hn1 by (eapply naming_eq; [exact Hn|]; apply Hc; reg_mem).
  unfold regs, cpu_regs_of. destruct (List.find _ CPU_OPS) as [op|] eqn:Hf.
  2: { exists s1. rewrite E30, Eg. do 4 (split; [done|]). split; [|done]. by exists (group_values s). }
  apply List.find_some in Hf as [Hin _]. apply list_elem_of_In in Hin.
  destruct (proj1 (Forall_forall _ _) (po_names Hplat) op Hin) as [|f name Hby Hlo Hhi Hok].
  { exists s1. rewrite E30, Eg. do 4 (split; [done|]). split; [|done]. by exists (group_values s). }
  set (s2 := set_x 8 (c_sysregs s "s3_0_c15_c1_4") (set_x 6 (sym f) s1)). exists s2.
  assert (group_values s2 = c_sysregs s "s3_0_c15_c1_4" :: drop 1 (group_values s)) as Eg2.
  { rewrite <-Eg. unfold group_values, s2. cbn [seq fmap list_fmap drop]. by regs_simpl. }
  split; [|split; [|split; [|split; [|split]]]].
  - unfold c1_dump_registers, run_asm. cbn [length]. do 2 asm_step. rewrite Eb. by asm_step.
  - unfold s2. regs_simpl. done.
  - unfold s2. do 2 (apply prints_set_x; [reg_mem|]). exact Hp1.
  - apply (naming_at image [name] (sym f)); [exact Hby|done| |by apply (Forall_singleton _ (ascii name))|unfold s2; by regs_simpl].
    change ([name] ++ [EmptyString]) with [name; EmptyString]. destruct Hok as [_ [_ Hlen]].
    unfold asciz. cbn [mbind list_bind]. rewrite !length_app. cbn [length ascii app]. lia.
  - rewrite Eg2. by exists (drop 1 (group_values s)).
  - rewrite Eg2. apply Forall_cons. split; [by apply Hb|by apply Forall_drop].
Qed.

#[export] Instance plat_console_laws : ConsoleLaws plat.
Proof using Hplat.
  split. intros s Hs.
  pose proof (console_laws u fuel N image sym xpac device base (po_uart Hplat)) as Hlaws. exact (@putc_ok _ _ Hlaws s Hs).
Qed.
#[export] Instance plat_crash_laws : CrashLaws image plat cpu_regs_of.
Proof using Hplat.
  split.
  - intros s. exact (console_init_ok u fuel N image sym xpac device base (po_uart Hplat) s).
  - intros s. exact (console_flush_ok u fuel N image sym xpac device base (po_uart Hplat) s).
  - intros m r Hr. unfold cpu_regs_of in Hr. destruct (List.find _ CPU_OPS) as [op|] eqn:Hf; [|by apply elem_of_nil in Hr].
    apply List.find_some in Hf as [Hin _]. apply list_elem_of_In in Hin.
    destruct (proj1 (Forall_forall _ _) (po_names Hplat) op Hin); [by apply elem_of_nil in Hr|].
    cbn in Hr. apply list_elem_of_singleton in Hr as ->. done.
  - exact cpu_dump_registers_ok.
  - intros s q Hcr H30 Hb Hg. destruct Hplat as [H1 H2 H3 H4 H5 _ _ _].
    destruct (gic_run u fuel N image sym xpac device base H1 GICD_BASE ICC_SRE_SRE_BIT GICD_ISPENDR H2 H3 H4 H5 q s Hcr H30 Hb Hg)
      as (s' & vs & Hrun & E30 & _ & Hr). by eexists s', _.
  - intros s. change (plat "plat_panic_handler" s) with (exec fuel (print_env image sym xpac device (λ _ _, Stuck) "plat_panic_handler") panic_handler 0 s).
    by rewrite panic_handler_waits by lia.
Qed.
End Platform.
