(* ===== verification/CrashSample.v ===== *)
(** * A crash on QEMU

    The constants of the image at pages of their own, a UART that is always ready, and the
    operations of the CPU of QEMU. *)

From Stdlib Require Import ZArith Lia.
From stdpp Require Import base list numbers option functions strings sets.
From S2P Require Import Prelude Smccc Services Context Asm AsmProps AsmWords ContextAsm Cpu ErrataProps CpuProps CrashAsm CrashProps CrashReport CrashConsole CrashConsoleProps CrashPlatform.
Open Scope rust_scope.
Open Scope string_scope.
Open Scope list_scope.
Open Scope Z_scope.

(** A build with pointer authentication and assertions. *)
#[local] Instance crash_consts : AsmConsts :=
  {| DIT_BIT := 2 ^ 24; SCR_EA_BIT := 2 ^ 3; PMCR_EL0_DP_BIT := 2 ^ 5; MODE_SP_EL0 := 0; MODE_SP_ELX := 1;
     ENABLE_PAUTH := true; ENABLE_ASSERTIONS := true |}.

Definition sample_rodata : list (string * list Z) := crash_rodata ++ gic_rodata.
Fixpoint index_of (f : string) (l : list (string * list Z)) : Z :=
  match l with [] => 0 | (g, _) :: l => if String.eqb f g then 0 else 1 + index_of f l end.
Definition sample_sym (f : string) : Z := 0x100000 + 0x1000 * index_of f sample_rodata.
Definition sample_image (size a : Z) : Z :=
  if size =? 1 then
    match sample_rodata !! Z.to_nat ((a - 0x100000) / 0x1000) with
    | Some (_, bytes) => default 0 (bytes !! Z.to_nat ((a - 0x100000) mod 0x1000))
    | None => 0
    end
  else if size =? 4 then as_u32 (midr QemuMax) else 0x40000.
Definition sample_device (t : list CpuEvent) (a : Z) : Z := 0.
Definition sample_code (a : Z) : CpuState → Exit := λ s, Returned s.

Lemma sample_layout : Forall (λ k, match sample_rodata !! k with
  | Some (f, bytes) => sample_sym f = 0x100000 + 0x1000 * Z.of_nat k ∧ Z.of_nat (length bytes) < 0x1000
  | None => True end) (seq 0 14).
Proof. repeat (apply List.Forall_cons; [vm_compute; done|]). exact (List.Forall_nil _). Qed.
Lemma sample_at f bytes : (f, bytes) ∈ sample_rodata →
  bytes_at sample_image (sample_sym f) bytes ∧ 3 ≤ sample_sym f ∧ sample_sym f + Z.of_nat (length bytes) < 2 ^ 64.
Proof.
  intros (k & Hk)%list_elem_of_lookup. pose proof (lookup_lt_Some _ _ _ Hk) as Hlt. change (length sample_rodata) with 14%nat in Hlt.
  assert (k ∈ seq 0 14) as Hin by (apply elem_of_seq; lia).
  pose proof (proj1 (Forall_forall _ _) sample_layout k Hin) as Hl. cbv beta in Hl. rewrite Hk in Hl. destruct Hl as [Hs Hlen].
  rewrite Hs. split; [|lia]. intros i b Hi. pose proof (lookup_lt_Some _ _ _ Hi) as Hilt. unfold sample_image.
  replace (0x100000 + 0x1000 * Z.of_nat k + Z.of_nat i - 0x100000) with (Z.of_nat i + Z.of_nat k * 0x1000) by lia.
  rewrite Z.div_add, Z.mod_add, Z.div_small, Z.mod_small by lia. cbn [Z.eqb Pos.eqb]. rewrite Z.add_0_l, !Nat2Z.id, Hk, Hi. done.
Qed.

#[local] Instance qemu_console : Console := this_console QEMU_CRASH_UART.
Definition qemu_plat : string → CpuState → Exit :=
  plat_calls sample_image sample_sym (λ x, x) sample_device QEMU_CRASH_UART 20 sample_code QEMU_CPU_OPS 0x3000 48 0 8 QEMU_GICD_BASE 1 0x200.
Lemma qemu_ok : platform_ok QEMU_CRASH_UART 20 0 sample_image sample_sym (λ x, x) sample_device sample_code QEMU_CPU_OPS 0x3000 48 0 8
  QEMU_GICD_BASE 0x200 (λ _, 0x40000) (λ _, []).
Proof.
  split.
  - split; [done|done|done|by intros t; exists 0%nat|by intros t; exists 0%nat|lia].
  - intros f bytes Hf. apply sample_at. apply elem_of_app. by left.
  - intros f bytes Hf. apply sample_at. apply elem_of_app. by right.
  - done.
  - done.
  - split; [by intros [|i] op Hi; [injection Hi as <-|]|done|by apply Forall_singleton|done].
  - by intros [|i] op Hi; [injection Hi as <-|].
  - apply Forall_singleton. apply dumps_none.
Qed.

(** A core whose registers hold their numbers. *)
Definition crashed : CpuState :=
  mkCpu (λ r, Z.of_nat (r mod 32)) (0, 0) (λ r, if String.eqb r "tpidr_el3" then 0x200000 else 1) [] (λ _, 0).

(** An exception of a lower exception level that is not expected, here a breakpoint, is
    reported with its class as [x30]: the vector has not restored the register. *)
Definition breakpoint : CpuState :=
  mkCpu (λ r, 1000 + Z.of_nat r) (0, 0)
    (λ r, if String.eqb r "esr_el3" then Z.shiftl 0x3c 26 else if String.eqb r "isr_el1" then 0 else 1) [] (λ _, 0).
Lemma unhandled_exception_shows_class :
  match run_asm (print_env sample_image sample_sym (λ x, x) sample_device
      (λ f s, if String.eqb f "report_unhandled_exception" then Returned s else Stuck) "vector") sync_exception_vector breakpoint with
  | Returned s => xr 30 breakpoint = 1030 ∧ xr 30 s = 0x3c
  | _ => False
  end.
Proof. vm_compute. by split. Qed.

(** The name of the register of the C1-Pro is longer than the space for names, so that its
    line has no [=]. *)
Lemma c1_pro_line_lacks_equals v :
  line (ascii "imp_cpuectlr_el1") v = ascii "imp_cpuectlr_el1 0x" ++ hex_digits 16 v ++ [NEWLINE].
Proof. reflexivity. Qed.
