(* ===== verification/BootAsm.v ===== *)
(** * Boot in assembly

    [src/bl31_entrypoint.S] and [src/bl31_warm_entrypoint.S] with the functions they call:
    [src/stacks.rs], [enable_mmu] of [src/pagetable.rs], [init_sctlr2_el3],
    [init_cpu_data_ptr] and [cpu_data_by_index] of [src/context.rs], [my_core_pos] of
    [src/platform.rs], [core_position] of the platforms, and the assembly of
    [define_early_mapping!].  The functions that other parts implement (the errata, the
    reset handlers of the CPUs, the handler of the platform and the main functions) are
    looked up by name.  A constant that is loaded from a literal is moved. *)

From Stdlib Require Import ZArith Lia.
From stdpp Require Import base list numbers option functions strings.
From S2P Require Import Prelude Smccc Services Context Asm ContextAsm MemAsm EarlyPagetable Cpu CrashAsm CrashConsole Platforms.
Open Scope rust_scope.
Open Scope string_scope.
Open Scope list_scope.
Open Scope Z_scope.

(** Bits of the system registers, memory attributes, and the size of [CpuData]. *)
Class BootConsts := {
  SCTLR_M_BIT : Z;
  SCTLR_C_BIT : Z;
  SCTLR_WXN_BIT : Z;
  SCTLR_IESB_BIT : Z;
  SCTLR_A_BIT : Z;
  SCTLR_SA_BIT : Z;
  SCTLR_I_BIT : Z;
  Dit_DIT : Z;
  SCTLRX_SHIFT : Z;
  SCTLRX_MASK : Z;
  TTBR0_EL3_CNP_BIT : Z;
  Mair_EMPTY : Z;
  with_attribute : Z → Z → Z → Z;
  MAIR_DEVICE : Z;
  MAIR_NON_CACHEABLE : Z;
  NORMAL_MEMORY_MAIR_ATTRIBUTE : Z;
  CPU_DATA_SIZE : Z;
}.

Definition TCR : Z := Z.lor (Z.shiftl 5 16) (64 - 39).
Definition MAIR_NORMAL_MEMORY_INDEX : Z := 0.
Definition MAIR_DEVICE_INDEX : Z := 1.
Definition MAIR_NON_CACHEABLE_INDEX : Z := 2.

(** ** The number of the core *)
Definition my_core_pos : list Instr := [Mrs 0 "mpidr_el1"; BSym "core_position"].

Section CorePosition.
Context `{MpidrOps}.
Definition qemu_core_position_asm : list Instr :=
  [AndI 1 0 (Z.shiftl AFF0_MASK AFF0_SHIFT);
   AndI 0 0 (Z.shiftl AFF1_MASK AFF1_SHIFT);
   AddLsr 0 1 0 (AFFINITY_BITS - PLATFORM_CPU_PER_CLUSTER_SHIFT);
   Return].
Definition fvp_core_position_asm : list Instr :=
  [TstI 0 MPIDR_MT;
   LslI 3 0 AFFINITY_BITS;
   Csel 3 3 0 CEq;
   Ubfx 0 3 AFF0_SHIFT AFFINITY_BITS;
   Ubfx 1 3 AFF1_SHIFT AFFINITY_BITS;
   Ubfx 2 3 AFF2_SHIFT AFFINITY_BITS;
   MovI 4 (Z.of_nat FVP_MAX_CPUS_PER_CLUSTER);
   MulAdd 1 2 4 1;
   MovI 5 (Z.of_nat FVP_MAX_PE_PER_CPU);
   MulAdd 0 1 5 0;
   Return].
End CorePosition.

(** [cold_boot_handler] of both platforms. *)
Definition cold_boot_handler : list Instr := [Return].

Section Boot.
Context `{BootConsts}.

(** ** Stacks *)
(** [stacks_asm!]: the tables start at a page behind the stack of the first core, and end
    where the stacks end. *)
Definition balign (a n : Z) : Z := (a + n - 1) / n * n.
Definition early_page_table_start (stacks : Z) : Z := balign (stacks + STACK_SIZE) GRANULE_SIZE.
Definition early_page_table_end (core_count stacks : Z) : Z :=
  let secondary_stacks_start := stacks + STACK_SIZE in
  early_page_table_start stacks +
    ((core_count - 1) * STACK_SIZE - (early_page_table_start stacks - secondary_stacks_start)).
Definition get_my_stack : list Instr :=
  [MovR 10 30;
   Bl "my_core_pos";
   AdrOff 2 "platform_normal_stacks" STACK_SIZE;
   MovI 1 STACK_SIZE;
   MulAdd 0 0 1 2;
   RetX 10].
Definition set_my_stack : list Instr :=
  [MovR 9 30;
   Bl "get_my_stack";
   SetSp 0;
   RetX 9].

(** ** Data of the core *)
(** [mul] is [madd] with [xzr]. *)
Definition cpu_data_by_index : list Instr :=
  mov_imm 1 CPU_DATA_SIZE ++
  [MulAdd 0 0 1 31;
   Adr 1 "PERCPU_DATA";
   AddR 0 0 1;
   Return].
Definition init_cpu_data_ptr : list Instr :=
  [MovR 10 30;
   Bl "my_core_pos";
   Bl "cpu_data_by_index";
   Msr "tpidr_el3" 0;
   RetX 10].

(** ** System registers *)
Definition SCTLRX_WIDTH : Z := count_ones SCTLRX_MASK.
Definition SCTLR2_IMPLEMENTED : Z := 1.
(** [Sctlr2El3::empty()] *)
Definition SCTLR2_EL3_RESET_VAL : Z := 0.
Definition init_sctlr2_el3 : list Instr :=
  assemble
  [Mrs 0 "id_aa64mmfr3_el1" : Line;
   Ubfx 0 0 SCTLRX_SHIFT SCTLRX_WIDTH : Line;
   CmpI 0 SCTLR2_IMPLEMENTED : Line;
   JC CNe "not_implemented";
   MovI 0 SCTLR2_EL3_RESET_VAL : Line;
   Msr "sctlr2_el3" 0 : Line;
   Lab "not_implemented";
   Return : Line].

Definition mair : Z :=
  with_attribute
    (with_attribute
      (with_attribute Mair_EMPTY MAIR_DEVICE_INDEX MAIR_DEVICE)
      MAIR_NORMAL_MEMORY_INDEX NORMAL_MEMORY_MAIR_ATTRIBUTE)
    MAIR_NON_CACHEABLE_INDEX MAIR_NON_CACHEABLE.
Definition enable_mmu : list Instr :=
  [Tlbi "alle3";
   MovI 3 mair;
   Msr "mair_el3" 3;
   MovI 3 TCR;
   Msr "tcr_el3" 3;
   OrrI 0 0 TTBR0_EL3_CNP_BIT;
   Msr "ttbr0_el3" 0;
   DsbSy;
   Isb;
   Mrs 3 "sctlr_el3";
   OrrR 3 3 1;
   BicR 3 3 2;
   Msr "sctlr_el3" 3;
   Isb;
   Return].

(** ** Early page tables *)
Definition RANGES_SIZE : Z := 24.
Definition INDEX_STEP_COUNT_OFFSET : Z := 0.
Definition VALUE_OFFSET : Z := 16.
Definition init_early_page_tables_asm (ranges_count : Z) : list Instr :=
  assemble
  [Adr 0 "EARLY_PAGE_TABLE_RANGES" : Line;
   AdrOff 1 "EARLY_PAGE_TABLE_RANGES" (RANGES_SIZE * ranges_count) : Line;
   Adr 2 "early_page_table_start" : Line;
   Lab "1";
   LdpX 3 4 0 INDEX_STEP_COUNT_OFFSET : Line;
   LdrX 5 0 VALUE_OFFSET : Line;
   JZ 4 "3";
   AndI 6 4 COUNT_MASK : Line;
   SubR 4 4 6 : Line;
   LslI 6 6 3 : Line;
   AddR 6 3 6 : Line;
   Lab "2";
   StrReg 5 2 3 : Line;
   AddI 3 3 8 : Line;
   CmpR 3 6 : Line;
   JC CEq "4";
   AddR 5 5 4 : Line;
   J "2";
   Lab "3";
   AddR 5 2 5 : Line;
   StrReg 5 2 3 : Line;
   Lab "4";
   AddI 0 0 RANGES_SIZE : Line;
   CmpR 0 1 : Line;
   JC CNe "1";
   Isb : Line;
   DsbSy : Line;
   Return : Line].

(** ** The entry points *)
(** How both start: the exception vectors, the CPU, and the system registers. *)
Definition SCTLR_RESET_BITS : Z := Z.lor (Z.lor (Z.lor SCTLR_IESB_BIT SCTLR_I_BIT) SCTLR_A_BIT) SCTLR_SA_BIT.
Definition reset_sequence : list Instr :=
  [Adr 0 "runtime_exceptions";
   Msr "vbar_el3" 0;
   Isb;
   Bl "apply_reset_errata";
   Bl "cpu_reset_handler"] ++
  mov_imm 1 SCTLR_RESET_BITS ++
  [Mrs 0 "sctlr_el3";
   OrrR 0 0 1;
   Msr "sctlr_el3" 0;
   Isb;
   Bl "init_sctlr2_el3";
   Bl "init_cpu_data_ptr";
   DaifClr DAIF_ABT_BIT;
   MovI 0 Dit_DIT;
   Msr "s3_3_c4_c2_5" 0].

(** A call on the range between two symbols. *)
Definition on_range (f from to : string) : list Instr :=
  [Adr 0 from; Adr 1 to; SubR 1 1 0; Bl f].

Definition bl31_entrypoint : list Instr :=
  [MovR 20 0; MovR 21 1; MovR 22 2; MovR 23 3] ++
  reset_sequence ++
  on_range "inv_dcache_range" "__TEXT_START__" "__BL31_END__" ++
  on_range "zeromem" "__BSS_START__" "__BSS_END__" ++
  on_range "inv_dcache_range" "__BSS2_START__" "__BSS2_END__" ++
  on_range "zeromem" "__BSS2_START__" "__BSS2_END__" ++
  [Bl "cold_boot_handler";
   MsrI "spsel" 0;
   Bl "set_my_stack"] ++
  on_range "zeromem" "early_page_table_start" "early_page_table_end" ++
  [Bl "init_early_page_tables";
   Adr 0 "early_page_table_start"] ++
  mov_imm 1 (Z.lor SCTLR_M_BIT SCTLR_C_BIT) ++
  [MovI 2 SCTLR_WXN_BIT;
   Bl "enable_mmu";
   MovR 0 20; MovR 1 21; MovR 2 22; MovR 3 23;
   BSym "bl31_main"].

Definition bl31_warm_entrypoint : list Instr :=
  reset_sequence ++
  [MsrI "spsel" 0;
   Bl "set_my_stack";
   Adr 0 "PAGE_TABLE_ADDR";
   Ldr 0 0 0] ++
  mov_imm 1 (Z.lor (Z.lor SCTLR_M_BIT SCTLR_C_BIT) SCTLR_WXN_BIT) ++
  [MovR 2 31;
   Bl "enable_mmu";
   BSym "psci_warmboot_entrypoint"].

(** ** What they call
    [fuel] bounds the steps of a loop, [core_position] is the function of the platform, and
    [hooks] are the functions of the other parts. *)
Context (assertions : bool).
Context (image : Z → Z → Z) (sym : string → Z) (xpac : Z → Z) (device : list CpuEvent → Z → Z).
Context (ranges_count : Z) (core_position : list Instr) (hooks : string → CpuState → Exit).
Let benv := print_env image sym xpac device.
Definition leaf_calls (fuel : nat) (f : string) : CpuState → Exit :=
  let env := benv hooks f in
  if String.eqb f "core_position" then run_asm env core_position
  else if String.eqb f "zeromem" then
    exec fuel env (zeromem_prog assertions SCTLR_M_BIT) (zeromem_at assertions SCTLR_M_BIT "zeromem")
  else if String.eqb f "inv_dcache_range" then exec fuel env inv_dcache_range 0
  else if String.eqb f "init_early_page_tables" then exec fuel env (init_early_page_tables_asm ranges_count) 0
  else if String.eqb f "init_sctlr2_el3" then run_asm env init_sctlr2_el3
  else if String.eqb f "cpu_data_by_index" then run_asm env cpu_data_by_index
  else if String.eqb f "enable_mmu" then run_asm env enable_mmu
  else if String.eqb f "cold_boot_handler" then run_asm env cold_boot_handler
  else hooks f.
Definition pos_calls (fuel : nat) (f : string) : CpuState → Exit :=
  if String.eqb f "my_core_pos" then run_asm (benv (leaf_calls fuel) f) my_core_pos else leaf_calls fuel f.
Definition stack_calls (fuel : nat) (f : string) : CpuState → Exit :=
  if String.eqb f "get_my_stack" then run_asm (benv (pos_calls fuel) f) get_my_stack
  else if String.eqb f "init_cpu_data_ptr" then run_asm (benv (pos_calls fuel) f) init_cpu_data_ptr
  else pos_calls fuel f.
Definition boot_calls (fuel : nat) (f : string) : CpuState → Exit :=
  if String.eqb f "set_my_stack" then run_asm (benv (stack_calls fuel) f) set_my_stack else stack_calls fuel f.

Definition cold_boot (fuel : nat) (s : CpuState) : Exit :=
  run_asm (benv (boot_calls fuel) "bl31_entrypoint") bl31_entrypoint s.
Definition warm_boot (fuel : nat) (s : CpuState) : Exit :=
  run_asm (benv (boot_calls fuel) "bl31_warm_entrypoint") bl31_warm_entrypoint s.
End Boot.

(** ** The CPU at reset
    The errata of the platform and the operations of its CPUs lie in the image, and [code]
    are the functions at addresses; [calls] are the other functions. *)
Section Reset.
Context (image : Z → Z → Z) (sym : string → Z) (xpac : Z → Z) (device : list CpuEvent → Z → Z).
Context (code : Z → CpuState → Exit) (calls : string → CpuState → Exit).
Context (errata : list ErratumEntry) (ops : list CpuOps).
Context (cpu_ops_size midr_offset reset_handler_offset : Z).
Definition get_ops_calls (f : string) : CpuState → Exit :=
  if String.eqb f "get_cpu_ops"
  then exec (7 * length ops + 10) (mkEnv image (λ _ _, Stuck) (λ _ _, Stuck) 0 (λ _, 0) (λ x, x) (λ _ _, 0))
         (get_cpu_ops (sym "CPU_OPS") cpu_ops_size (Z.of_nat (length ops)) midr_offset) 0
  else calls f.
Definition reset_env (f : string) : Env := mkEnv image code get_ops_calls (sym f) sym xpac device.
Definition reset_calls (f : string) : CpuState → Exit :=
  if String.eqb f "apply_reset_errata"
  then exec (12 * length errata + 7) (reset_env f) (apply_reset_errata (sym "ERRATA_LIST") (Z.of_nat (length errata))) 0
  else if String.eqb f "cpu_reset_handler" then run_asm (reset_env f) (cpu_reset_handler_asm reset_handler_offset)
  else calls f.
End Reset.
