(* ===== verification/EarlyTablesAsm.v ===== *)
(** * The early page tables in memory

    The assembly of [define_early_mapping!] ends, and writes into the bytes of the memory
    the tables whose walk is the identity mapping of the regions. *)

From Stdlib Require Import ZArith Lia.
From stdpp Require Import base list numbers option functions strings sets.
From S2P Require Import Prelude Smccc Services Context Asm AsmProps ContextAsm MemAsm MemAsmProps EarlyPagetable EarlyPagetableProofs EarlyPagetableProps BootAsm.
Open Scope rust_scope.
Open Scope string_scope.
Open Scope list_scope.
Open Scope Z_scope.

(** ** Words in bytes *)
Definition store_writes (ws : list (Z * Z)) (m : Z → Z) : Z → Z := foldl (λ m w, mem_store 8 w.1 w.2 m) m ws.
Lemma store_writes_app ws ws' m : store_writes (ws ++ ws') m = store_writes ws' (store_writes ws m).
Proof. apply foldl_app. Qed.
Lemma store_writes_out ws m lo hi b :
  (∀ w, w ∈ ws → lo ≤ w.1 ∧ w.1 + 8 ≤ hi) → ¬ lo ≤ b < hi → store_writes ws m b = m b.
Proof.
  revert m. induction ws as [|w ws IH]; intros m Hws Hb; [done|]. cbn [store_writes foldl].
  pose proof (Hws w ltac:(left)) as Hw. fold (store_writes ws (mem_store 8 w.1 w.2 m)).
  rewrite IH by (done || (intros ? ?; apply Hws; by right)). apply mem_store_out. lia.
Qed.
(** Writes to aligned words, read as words. *)
Lemma load_writes ws m a :
  (∀ w, w ∈ ws → (8 | w.1 - a) ∧ 0 ≤ w.2 < 2 ^ 64) →
  mem_load64 a (store_writes ws m) = apply_writes ws (λ a, mem_load64 a m) a.
Proof.
  revert m. induction ws as [|w ws IH]; intros m Hws; [done|]. cbn [store_writes foldl].
  fold (store_writes ws (mem_store 8 w.1 w.2 m)). rewrite apply_writes_cons.
  rewrite IH by (intros ? ?; apply Hws; by right). apply apply_writes_ext.
  destruct (Hws w ltac:(left)) as [[q Hq] Hv]. destruct (decide (w.1 = a)) as [<-|Hne].
  - rewrite load_store_same by done. symmetry. apply (fn_lookup_insert (λ a, mem_load64 a m)).
  - rewrite load_store_other by lia. symmetry. by apply (fn_lookup_insert_ne (λ a, mem_load64 a m)).
Qed.

(** ** The loops *)
Section Extract.
Context (env : Env) (ranges : list DescriptorRange) (used : Z).
Let n := Z.of_nat (length ranges).
Let base := e_addr env "EARLY_PAGE_TABLE_RANGES".
Let x2 := e_addr env "early_page_table_start".
(** The ranges are constants of the image. *)
Definition ranges_in_image : Prop :=
  0 ≤ base ∧ base + RANGES_SIZE * n < 2 ^ 64 ∧
  ∀ i r, ranges !! i = Some r → let a := base + RANGES_SIZE * Z.of_nat i in
    e_load env 8 (a + INDEX_STEP_COUNT_OFFSET) = index r ∧ e_load env 8 (a + INDEX_STEP_COUNT_OFFSET + 8) = step_count r ∧
    e_load env 8 (a + VALUE_OFFSET) = value r.
Context (Himage : ranges_in_image) (Hsane : Forall (sane (λ e, 0 ≤ e < used) used) ranges).
Context (Hx2 : 0 ≤ x2) (Htop : x2 + 8 * used ≤ 2 ^ 48).

Definition early_code : list Instr :=
  [Adr 0 "EARLY_PAGE_TABLE_RANGES"; AdrOff 1 "EARLY_PAGE_TABLE_RANGES" (RANGES_SIZE * n); Adr 2 "early_page_table_start";
   LdpX 3 4 0 INDEX_STEP_COUNT_OFFSET; LdrX 5 0 VALUE_OFFSET; Cbz 4 16;
   AndI 6 4 COUNT_MASK; SubR 4 4 6; LslI 6 6 3; AddR 6 3 6;
   StrReg 5 2 3; AddI 3 3 8; CmpR 3 6; Bc CEq 18; AddR 5 5 4; B 10;
   AddR 5 2 5; StrReg 5 2 3;
   AddI 0 0 RANGES_SIZE; CmpR 0 1; Bc CNe 3; Isb; DsbSy; Return].
Lemma early_code_eq : init_early_page_tables_asm n = early_code.
Proof using Type. reflexivity. Qed.

(** The descriptors of a range of blocks. *)
Lemma block_loop k x3 step v s Q :
  (1 ≤ k)%nat → 0 ≤ x3 → x2 + x3 + 8 * Z.of_nat k ≤ 2 ^ 48 → 0 ≤ v → 0 ≤ step → v + Z.of_nat k * step < 2 ^ 64 →
  xr 2 s = x2 → xr 3 s = x3 → xr 4 s = step → xr 5 s = v → xr 6 s = x3 + 8 * Z.of_nat k →
  (∀ s', c_mem s' = store_writes (block_writes k (x2 + x3) step v) (c_mem s) → frame [3; 5]%nat s s' → wp env early_code 18 s' Q) →
  wp env early_code 10 s Q.
Proof using Hx2.
  revert x3 v s. induction k as [|k IH]; intros x3 v s Hk H3 Hb Hv Hst Hvb E2 E3 E4 E5 E6 HQ; [clear - Hk; lia|].
  do 4 wp_step. cbn [c_cmp set_cmp Asm.holds]. unfold store64. regs_simpl. rewrite E2, E3, E5, E6.
  rewrite !Z.mod_small by lia. set (s1 := set_cmp _ _ _).
  assert (c_mem s1 = mem_store 8 (x2 + x3) v (c_mem s)) as Em by (unfold s1; cbn [set_cmp c_mem]; by rewrite set_x_mem).
  assert (frame [3; 5]%nat s s1) as Hf.
  { unfold s1. split; [clear; clobbers|cbn; by rewrite set_x_sysregs|cbn; by rewrite set_x_trace]. }
  assert (xr 2 s1 = x2 ∧ xr 3 s1 = x3 + 8 ∧ xr 4 s1 = step ∧ xr 5 s1 = v ∧ xr 6 s1 = x3 + 8 * Z.of_nat (S k)) as (F2 & F3 & F4 & F5 & F6).
  { unfold s1. regs_simpl. repeat split; (done || lia). }
  clearbody s1. destruct (Z.eqb_spec (x3 + 8) (x3 + 8 * Z.of_nat (S k))) as [Hend|Hend].
  - assert (k = 0%nat) as -> by (clear - Hend; lia). apply HQ; [|done]. by rewrite Em.
  - do 2 wp_step. rewrite F4, F5. rewrite Z.mod_small by nia. apply (IH (x3 + 8) (v + step)); try (clear IH HQ; (lia || nia)); try (by regs_simpl).
    + regs_simpl. rewrite F6. clear. lia.
    + intros s' Hm Hf'. apply HQ.
      * rewrite Hm, set_x_mem, Em, Z.add_assoc. done.
      * eapply frame_trans; [exact Hf|]. eapply frame_trans; [|exact Hf'].
        split; [clear; clobbers|by rewrite set_x_sysregs|by rewrite set_x_trace].
Qed.

(** The registers of the loop over the ranges. *)
Record at_range (i : nat) (s : CpuState) : Prop := {
  range_x0 : xr 0 s = base + RANGES_SIZE * Z.of_nat i;
  range_x1 : xr 1 s = base + RANGES_SIZE * n;
  range_x2 : xr 2 s = x2;
}.
Definition range_clobbers : list nat := [3; 4; 5; 6]%nat.
Lemma frame_weaken l l' s s' : (∀ r, r ∈ l → r ∈ l') → frame l s s' → frame l' s s'.
Proof using Type. intros Hl [Hx ? ?]. split; [|done..]. intros r Hr. apply Hx. intros Hin. by apply Hr, Hl. Qed.

(** One range. *)
Lemma one_range i r s Q :
  ranges !! i = Some r → at_range i s →
  (∀ s', c_mem s' = store_writes (writes x2 r) (c_mem s) → frame range_clobbers s s' → wp env early_code 18 s' Q) →
  wp env early_code 3 s Q.
Proof using Himage Hsane Hx2 Htop.
  intros Hi [E0 E1 E2] HQ. destruct Himage as (_ & _ & Hload). destruct (Hload i r Hi) as (Li & Ls & Lv).
  destruct (proj1 (Forall_lookup _ _) Hsane i r Hi) as (s0 & k & Hidx & Hs0 & Hk & Hin & Hr).
  pose proof (Hin (s0 + k - 1) ltac:(lia)) as Hlast.
  do 3 wp_step. rewrite E0, Li, Ls, Lv. unfold writes in HQ.
  destruct Hr as [(Hz & -> & Hval)|(Hnz & Hcount & Hstep & Hv & Hvb)].
  - rewrite Hz in *. cbn [Z.eqb] in *. do 2 wp_step. unfold store64. regs_simpl. rewrite E2, Hidx in *.
    rewrite !Z.mod_small by lia. apply HQ.
    + by regs_simpl.
    + split; [unfold range_clobbers; clear; clobbers|by regs_simpl|by regs_simpl].
  - rewrite (proj2 (Z.eqb_neq _ _) Hnz) in *. rewrite Hcount in HQ. do 4 wp_step. rewrite Hcount, Z.shiftl_mul_pow2, Hidx by lia.
    change (2 ^ 3) with 8. assert (0 ≤ step_count r - k < 2 ^ 64) as Hst64 by nia.
    rewrite (Z.mod_small (step_count r - k)), (Z.mod_small (k * 8)), (Z.mod_small (8 * s0 + k * 8)) by lia.
    set (s1 := set_x 6 _ _). apply (block_loop (Z.to_nat k) (8 * s0) (step_count r - k) (value r)); try lia.
    1-5: unfold s1; regs_simpl; (done || lia).
    intros s' Hm Hf. apply HQ.
    + rewrite Hm, Hidx. unfold s1. by regs_simpl.
    + eapply frame_trans; [|eapply frame_weaken; [|exact Hf]; unfold range_clobbers; clear; set_solver].
      unfold s1. split; [unfold range_clobbers; clear; clobbers|by regs_simpl|by regs_simpl].
Qed.

(** All ranges, to the end. *)
Definition tables_written (s : CpuState) (l : list DescriptorRange) (ex : Exit) : Prop :=
  ∃ s', ex = Returned s' ∧ c_mem s' = store_writes (all_writes x2 l) (c_mem s) ∧ c_sysregs s' = c_sysregs s ∧
    c_trace s' = c_trace s ++ [EvIsb; EvDsb] ∧ only_clobbers (seq 0 7) s s'.
Lemma range_loop rest don s :
  ranges = don ++ rest → rest ≠ [] → at_range (length don) s → wp env early_code 3 s (tables_written s rest).
Proof using Himage Hsane Hx2 Htop.
  revert don s. induction rest as [|r rest IH]; intros don s Hd Hne Hat; [done|].
  pose proof Himage as (Hb0 & Hb & _). assert (n = Z.of_nat (length don) + 1 + Z.of_nat (length rest)) as Hn.
  { unfold n. rewrite Hd, length_app. cbn [length]. clear. lia. }
  assert (ranges !! length don = Some r) as Hi by (by rewrite Hd, list_lookup_middle).
  apply (one_range _ _ _ _ Hi Hat). intros s1 Hm [Hx Hs Ht]. destruct Hat as [E0 E1 E2].
  do 3 wp_step. cbn [c_cmp set_cmp Asm.holds]. rewrite (Hx 0%nat), (Hx 1%nat), E0, E1 by (unfold range_clobbers; clear; set_solver).
  unfold RANGES_SIZE in *. rewrite Z.mod_small by lia. set (s2 := set_cmp _ _ _).
  assert (c_mem s2 = c_mem s1 ∧ c_sysregs s2 = c_sysregs s ∧ c_trace s2 = c_trace s ∧ only_clobbers (seq 0 7) s s2) as (Em & Eb & Et & Ec).
  { unfold s2. cbn [set_cmp c_mem c_sysregs c_trace]. regs_simpl. do 3 (split; [done|]). clear - Hx. apply clobbers_set_cmp.
    apply clobbers_set_x; [set_solver|]. intros q Hq. apply Hx. unfold range_clobbers. set_solver. }
  assert (at_range (S (length don)) s2) as Hat2.
  { unfold s2. split; regs_simpl; rewrite ?(Hx 1%nat), ?(Hx 2%nat) by (unfold range_clobbers; clear; set_solver); unfold RANGES_SIZE; (done || lia). }
  clearbody s2. destruct rest as [|r' rest].
  - cbn [length] in Hn. rewrite Hn. replace (base + 24 * Z.of_nat (length don) + 24 =? _) with true by (symmetry; apply Z.eqb_eq; clear; lia).
    cbn [negb]. do 2 wp_step. eapply wp_return; [reflexivity|]. eexists. split; [done|]. cbn [emit c_mem c_sysregs c_trace].
    split; [by rewrite Em, Hm, all_writes_cons, store_writes_app|]. split; [done|]. split; [by rewrite Et, <-app_assoc|].
    by do 2 apply clobbers_emit.
  - rewrite (proj2 (Z.eqb_neq _ _)) by (cbn [length] in Hn; clear - Hn; lia). cbn [negb].
    assert (wp env early_code 3 s2 (tables_written s2 (r' :: rest))) as (k & ex & (s' & -> & Hm' & Hb' & Ht' & Hc') & Hrun).
    { apply (IH (don ++ [r])); [by rewrite Hd, <-app_assoc|done|]. by rewrite length_app, Nat.add_1_r. }
    exists k, (Returned s'). split; [|done]. exists s'. split; [done|]. rewrite Hm', Em, Hm, Hb', Eb, Ht', Et.
    split; [by rewrite (all_writes_cons x2 r), store_writes_app|]. do 2 (split; [done|]). by eapply clobbers_trans.
Qed.
Lemma init_tables_run s : ranges ≠ [] → wp env (init_early_page_tables_asm n) 0 s (tables_written s ranges).
Proof using Himage Hsane Hx2 Htop.
  intros Hne. rewrite early_code_eq. pose proof Himage as (Hb0 & Hb & _). do 3 wp_step.
  rewrite Z.mod_small by (fold base; unfold RANGES_SIZE in *; lia). set (s1 := set_x 2 _ _).
  assert (wp env early_code 3 s1 (tables_written s1 ranges)) as (k & ex & (s' & -> & Hm' & Hb' & Ht' & Hc') & Hrun).
  { apply (range_loop ranges []); [done|done|]. unfold s1. split; regs_simpl; fold base; [cbn [length]; lia|done|done]. }
  exists k, (Returned s'). split; [|done]. exists s'. split; [done|]. rewrite Hm', Hb', Ht'. unfold s1 at 1 2 3. regs_simpl.
  do 3 (split; [done|]). eapply clobbers_trans; [|exact Hc'|done]. unfold s1. clear. clobbers.
Qed.
End Extract.

(** ** The walk of the memory *)
Lemma block_write_value k addr step v w :
  w ∈ block_writes k addr step v → 0 ≤ v → 0 ≤ step → 0 ≤ w.2 ≤ v + Z.of_nat k * step.
Proof.
  revert addr v. induction k as [|k IH]; intros addr v; cbn [block_writes]; [by intros ?%elem_of_nil|].
  intros [->|Hw]%elem_of_cons Hv Hs; [cbn [snd]; nia|]. specialize (IH _ _ Hw). nia.
Qed.
Lemma write_value (inside : Z → Prop) top x2 r w :
  sane inside top r → 0 ≤ x2 → x2 + 8 * top ≤ 2 ^ 48 → w ∈ writes x2 r → 0 ≤ w.2 < 2 ^ 64.
Proof.
  intros (s0 & k & _ & _ & Hk & _ & Hr) Hx2 Htop Hw. unfold writes in Hw.
  destruct Hr as [(Hz & _ & Hval)|(Hnz & Hcount & Hstep & Hv & Hvb)].
  - rewrite Hz in Hw. apply list_elem_of_singleton in Hw as ->. cbn [snd]. lia.
  - rewrite (proj2 (Z.eqb_neq _ _) Hnz), Hcount in Hw. apply block_write_value in Hw; [|done..]. lia.
Qed.
Section Walk.
Context (ranges : list DescriptorRange) (used x2 : Z).
Context (Hsane : Forall (sane (λ e, 0 ≤ e < used) used) ranges) (Hx2 : 0 ≤ x2) (Htop : x2 + 8 * used ≤ 2 ^ 48).
Lemma all_writes_words w : w ∈ all_writes x2 ranges → ∃ e, w.1 = x2 + 8 * e ∧ 0 ≤ e < used ∧ 0 ≤ w.2 < 2 ^ 64.
Proof using Hsane Hx2 Htop.
  intros Hw. destruct (elem_of_all_writes _ _ _ _ _ Hsane Hw) as (e & He & Hin). exists e. do 2 (split; [done|]).
  unfold all_writes in Hw. apply list_elem_of_bind in Hw as (r & Hw & Hr).
  eapply write_value; [|exact Hx2|exact Htop|exact Hw]. by eapply Forall_forall in Hsane.
Qed.
Lemma tables_hold m :
  (∀ b, x2 ≤ b < x2 + 8 * used → m b = 0) →
  holds x2 ranges (λ e, 0 ≤ e < used) (λ a, mem_load64 a (store_writes (all_writes x2 ranges) m)).
Proof using Hsane Hx2 Htop.
  intros Hz e He. rewrite load_writes.
  - apply apply_writes_ext. unfold mem_load64. rewrite !Hz by (clear - He; lia). done.
  - intros w Hw. destruct (all_writes_words w Hw) as (e' & -> & _ & Hv). split; [|done]. exists (e' - e). clear. lia.
Qed.
Lemma tables_frame m b : ¬ x2 ≤ b < x2 + 8 * used → store_writes (all_writes x2 ranges) m b = m b.
Proof using Hsane Hx2 Htop.
  intros Hb. eapply store_writes_out; [|exact Hb]. intros w Hw. destruct (all_writes_words w Hw) as (e & -> & He & _). lia.
Qed.
End Walk.
Lemma early_ranges_built regions ranges size :
  regions_ok regions = true → define_early_mapping regions = Done (ranges, size) →
  ∃ used, size = used * 8 ∧ ranges ≠ [] ∧ Forall (sane (λ e, 0 ≤ e < used) used) ranges ∧
    ∀ x2 mem, 0 ≤ x2 → x2 mod 4096 = 0 → x2 + used * 8 ≤ 2 ^ 48 → holds x2 ranges (λ e, 0 ≤ e < used) mem →
      ∀ va, 0 ≤ va < 2 ^ 39 → walk mem WALK_SIZES x2 va = mapping_of regions va.
Proof.
  intros (l & used & Hdef & Hne & Hu & Hsane & Hwalk)%early_tables_built Hdef'. rewrite Hdef in Hdef'. injection Hdef' as -> <-.
  assert (∀ e, own 0 512 0 used e → 0 ≤ e < used) as Hown by (unfold own; lia). exists used. do 2 (split; [done|]). split.
  - eapply Forall_impl; [exact Hsane|]. intros r Hr. by eapply sane_weaken; [exact Hown| |exact Hr].
  - intros x2 mem H0 Hal Hb Hh. apply Hwalk; try done. intros e He. by apply Hh, Hown.
Qed.
