(* ===== verification/BootProps.v ===== *)
(** * The functions of the boot

    Rules for programs without branches whose calls need enough fuel, and what the
    functions that both entry points call do to a core. *)

From Stdlib Require Import ZArith Lia.
From stdpp Require Import base list numbers option functions strings sets.
From S2P Require Import Prelude Smccc Services Context Asm AsmProps AsmWords ContextAsm MemAsm MemAsmProps CacheAsmProps EarlyPagetable Cpu ErrataProps CpuProps CrashAsm CrashProps CrashConsole CrashConsoleProps Platforms BootAsm.
Open Scope rust_scope.
Open Scope string_scope.
Open Scope list_scope.
Open Scope Z_scope.

(** ** Programs without branches
    The environment depends on the fuel of the calls; with enough of it, the rest of the
    program ends with an exit that satisfies [Q], in as many steps as it is long. *)
(** With enough fuel a function returns to its caller. *)
Definition returns (f : nat → CpuState → Exit) (s s' : CpuState) : Prop :=
  ∃ N, ∀ fuel, (N ≤ fuel)%nat → f fuel s = Returned s' ∧ xr 30 s' = xr 30 s ∨ f fuel s = ReturnedTo (xr 30 s) s'.

Section Linear.
Context (envs : nat → Env) (Hbase : ∀ fuel, e_base (envs fuel) = e_base (envs 0%nat)) (prog : list Instr).
Definition ends (rest : list Instr) (s : CpuState) (Q : Exit → Prop) : Prop :=
  ∀ pre, prog = pre ++ rest →
    ∃ N e, Q e ∧ ∀ fuel k, (N ≤ fuel)%nat → exec (length rest + k) (envs fuel) prog (length pre) s = e.

Lemma ends_run s Q : ends prog s Q → ∃ N e, Q e ∧ ∀ fuel, (N ≤ fuel)%nat → run_asm (envs fuel) prog s = e.
Proof using Type.
  intros Hp. destruct (Hp [] eq_refl) as (N & e & He & Hk). exists N, e. split; [done|]. intros fuel Hf.
  specialize (Hk fuel 0%nat Hf). by rewrite Nat.add_0_r in Hk.
Qed.
Lemma ends_weaken rest s (Q Q' : Exit → Prop) : (∀ e, Q e → Q' e) → ends rest s Q → ends rest s Q'.
Proof using Type. intros HQ Hr pre Hp. destruct (Hr pre Hp) as (N & e & He & Hk). exists N, e. eauto. Qed.
Lemma at_head pre i rest : prog = pre ++ i :: rest → prog !! length pre = Some i.
Proof using Type. intros ->. by apply list_lookup_middle. Qed.
Lemma ends_next i rest s s' Q :
  (∀ fuel pc, next (envs fuel) i pc s = Some (S pc, s')) → ends rest s' Q → ends (i :: rest) s Q.
Proof using Type.
  intros Hn Hr pre Hp. destruct (Hr (pre ++ [i])) as (N & e & He & Hk); [by rewrite <-app_assoc|].
  rewrite length_app, Nat.add_1_r in Hk. exists N, e. split; [done|]. intros fuel k Hf. cbn [length Nat.add].
  rewrite exec_S, (at_head _ _ _ Hp). specialize (Hn fuel (length pre)). specialize (Hk fuel k Hf).
  destruct i; cbn [next] in Hn; try discriminate Hn;
    first [injection Hn as Hpc Hs; rewrite <-Hs in Hk; rewrite Hpc; exact Hk | injection Hn as Hs; rewrite <-Hs in Hk; exact Hk].
Qed.
Lemma ends_bl f rest s Q :
  (∀ ra, ∃ s', returns (λ fuel, e_sym (envs fuel) f) (set_x 30 ra s) s' ∧ ends rest s' Q) → ends (Bl f :: rest) s Q.
Proof using Hbase.
  intros Hf pre Hp. destruct (Hf (e_base (envs 0%nat) + 4 * Z.of_nat (S (length pre)))) as (s' & (N & Hr) & Hrest).
  destruct (Hrest (pre ++ [Bl f])) as (N' & e & He & Hk); [by rewrite <-app_assoc|]. rewrite length_app, Nat.add_1_r in Hk.
  exists (N `max` N')%nat, e. split; [done|]. intros fuel k Hfuel. cbn [length Nat.add]. rewrite exec_S, (at_head _ _ _ Hp), Hbase.
  specialize (Hr fuel ltac:(lia)). specialize (Hk fuel k ltac:(lia)). rewrite xr_set_x_eq in Hr by done.
  destruct Hr as [[-> ->]| ->]; by rewrite Z.eqb_refl.
Qed.
Lemma ends_bl_panics f rest s (Q : Exit → Prop) :
  (∀ fuel ra, e_sym (envs fuel) f (set_x 30 ra s) = Panicked) → Q Panicked → ends (Bl f :: rest) s Q.
Proof using Type.
  intros Hf HQ pre Hp. exists 0%nat, Panicked. split; [done|]. intros fuel k _. cbn [length Nat.add].
  by rewrite exec_S, (at_head _ _ _ Hp), Hf.
Qed.
Lemma ends_bsym f rest s e Q :
  (∃ N, ∀ fuel, (N ≤ fuel)%nat → e_sym (envs fuel) f s = e) → Q e → ends (BSym f :: rest) s Q.
Proof using Type.
  intros (N & Hf) HQ pre Hp. exists N, e. split; [done|]. intros fuel k Hfuel. cbn [length Nat.add].
  by rewrite exec_S, (at_head _ _ _ Hp), Hf.
Qed.
Lemma ends_retx rn rest s Q : Q (ReturnedTo (xr rn s) s) → ends (RetX rn :: rest) s Q.
Proof using Type.
  intros HQ pre Hp. eexists 0%nat, _. split; [exact HQ|]. intros fuel k _. cbn [length Nat.add]. by rewrite exec_S, (at_head _ _ _ Hp).
Qed.
Lemma ends_return rest s Q : Q (Returned s) → ends (Return :: rest) s Q.
Proof using Type.
  intros HQ pre Hp. eexists 0%nat, _. split; [exact HQ|]. intros fuel k _. cbn [length Nat.add]. by rewrite exec_S, (at_head _ _ _ Hp).
Qed.
(** A constant. *)
Lemma ends_mov_imm rd v rest s Q :
  rd ≠ 31%nat → u64 v → (∀ s', xr rd s' = v → moved rd s s' → ends rest s' Q) → ends (mov_imm rd v ++ rest) s Q.
Proof using Type.
  intros Hrd Hv Hr pre Hp.
  assert (∀ env env', run_plain env (mov_imm rd v) s = run_plain env' (mov_imm rd v) s) as Henv.
  { intros env env'. pose proof (mov_imm_moves rd v) as Hm. clear Hr Hv. revert s. revert Hm. clear. induction (mov_imm rd v) as [|i l IH]; intros Hm s; [done|].
    cbn [forallb] in Hm. apply andb_true_iff in Hm as [Hi Hl]. cbn. destruct i; try done; apply (IH Hl). }
  destruct (mov_imm_run (envs 0%nat) rd v s Hrd Hv) as [Hx Hmv]. set (s' := run_plain (envs 0%nat) (mov_imm rd v) s) in *.
  destruct (Hr s' Hx Hmv (pre ++ mov_imm rd v)) as (N & e & He & Hk); [by rewrite <-app_assoc|]. rewrite length_app in Hk.
  exists N, e. split; [done|]. intros fuel k Hf. rewrite length_app, <-Nat.add_assoc, Hp, exec_moves by apply mov_imm_moves.
  rewrite (Henv (envs fuel) (envs 0%nat)). fold s'. rewrite <-Hp. by apply Hk.
Qed.
End Linear.
Ltac ends_step := eapply ends_next; [intros; cbn [next exec_instr print_env e_addr e_load]; reflexivity|]; regs_simpl.

(** ** What a function does
    It changes at most the registers [l]; system registers, memory and events are then
    those that are given. *)
Record to (l : list nat) (b : Bank) (m : Z → Z) (t : list CpuEvent) (s s' : CpuState) : Prop := {
  to_x : only_clobbers l s s';
  to_b : c_sysregs s' = b;
  to_m : c_mem s' = m;
  to_t : c_trace s' = t;
}.
Abbreviation stays l s s' := (to l (c_sysregs s) (c_mem s) (c_trace s) s s').
Lemma to_refl l s : stays l s s.
Proof. by split; [apply clobbers_refl|..]. Qed.
Lemma to_set_x l b m t s s' r v : r ∈ l → to l b m t s s' → to l b m t s (set_x r v s').
Proof.
  intros Hr [X B M T]. split; [by apply clobbers_set_x|by rewrite set_x_sysregs|by rewrite set_x_mem|by rewrite set_x_trace].
Qed.
Lemma to_set_cmp l b m t s s' x y : to l b m t s s' → to l b m t s (set_cmp x y s').
Proof. intros [X B M T]. by split. Qed.
Lemma to_set_sysreg l b m t s s' r v : to l b m t s s' → to l (<[r := v]> b) m t s (set_sysreg r v s').
Proof. intros [X B M T]. split; [exact X|cbn [set_sysreg c_sysregs]; by rewrite B|exact M|exact T]. Qed.
Lemma to_emit l b m t s s' e : to l b m t s s' → to l b m (t ++ [e]) s (emit e s').
Proof. intros [X B M T]. split; [exact X|exact B|exact M|cbn [emit c_trace]; by rewrite T]. Qed.
Lemma to_moved l b m t s s' s'' rd : rd ∈ l → to l b m t s s' → moved rd s' s'' → to l b m t s s''.
Proof.
  intros Hr [X B M T] [X' B' M' T']. split; [|congruence..]. eapply clobbers_trans; [exact X|exact X'|].
  by intros r ->%list_elem_of_singleton.
Qed.
Lemma to_trans l l' b m t b' m' t' s s' s'' :
  to l b m t s s' → to l' b' m' t' s' s'' → (∀ r, r ∈ l' → r ∈ l) → to l b' m' t' s s''.
Proof. intros [X B M T] [X' B' M' T'] Hl. split; [by eapply clobbers_trans|done..]. Qed.
(** After a call. *)
Lemma to_call l l' b m t b' m' t' ra s s' s'' :
  to l b m t s s' → to l' b' m' t' (set_x 30 ra s') s'' → 30%nat ∈ l → (∀ r, r ∈ l' → r ∈ l) → to l b' m' t' s s''.
Proof. intros Hs Hc H30 Hl. eapply to_trans; [|exact Hc|exact Hl]. by apply to_set_x. Qed.
(** The effect [Hc] of a call after the effect [Hs]. *)
Ltac called Hs Hc :=
  rewrite ?set_x_sysregs, ?set_x_mem, ?set_x_trace, ?(to_b _ _ _ _ _ _ Hs), ?(to_m _ _ _ _ _ _ Hs), ?(to_t _ _ _ _ _ _ Hs) in Hc;
  eapply (to_call _ _ _ _ _ _ _ _ _ _ _ _ Hs) in Hc; [|reg_mem|reg_mem].
Ltac to_steps := repeat first [apply to_refl | apply to_set_x; [reg_mem|] | apply to_set_cmp | apply to_set_sysreg | apply to_emit | eassumption].

(** How a function comes back. *)
Definition back (s s' : CpuState) (e : Exit) : Prop := e = Returned s' ∧ xr 30 s' = xr 30 s ∨ e = ReturnedTo (xr 30 s) s'.
Lemma ends_returns envs prog s P :
  ends envs prog prog s (λ e, ∃ s', back s s' e ∧ P s') → ∃ s', returns (λ fuel, run_asm (envs fuel) prog) s s' ∧ P s'.
Proof.
  intros (N & e & (s' & Hb & HP) & Hk)%ends_run. exists s'. split; [|done]. exists N. intros fuel Hf. rewrite (Hk fuel Hf).
  destruct Hb as [[-> H30]| ->]; [by left|by right].
Qed.
Lemma wp_returns env prog pc s P :
  wp env prog pc s (λ e, ∃ s', e = Returned s' ∧ xr 30 s' = xr 30 s ∧ P s') →
  ∃ s', returns (λ fuel, exec fuel env prog pc) s s' ∧ P s'.
Proof.
  intros (n & e & (s' & -> & H30 & HP) & Hk). exists s'. split; [|done]. exists n. intros fuel Hf. left.
  specialize (Hk (fuel - n)%nat). by replace (n + (fuel - n))%nat with fuel in Hk by lia.
Qed.

(** ** The number of a core
    [core_position] runs without a stack, and uses [x0] to [x5]. *)
Class CorePosition (prog : list Instr) (pos : Z → Z) : Prop :=
  core_position_ok env s : ∃ s', run_asm env prog s = Returned s' ∧ xr 0 s' = pos (xr 0 s) ∧ stays (seq 0 6) s s'.
Section Platforms.
Context `{MpidrOps}.
#[export] Instance qemu_position : CorePosition qemu_core_position_asm qemu_core_position.
Proof.
  intros env s. unfold run_asm, qemu_core_position_asm. cbn [length]. do 4 asm_step. eexists. split; [reflexivity|].
  split; [by regs_simpl|]. to_steps.
Qed.
#[export] Instance fvp_position : CorePosition fvp_core_position_asm fvp_core_position.
Proof.
  intros env s. unfold run_asm, fvp_core_position_asm. cbn [length]. do 11 asm_step. eexists. split; [reflexivity|].
  split; [|to_steps]. cbn [c_cmp set_cmp holds]. regs_simpl. unfold fvp_core_position, as_u64. cbv zeta. cbn [c_cmp set_cmp holds].
  destruct (Z.land (xr 0 s) MPIDR_MT =? 0); change (@bits) with ubfx; f_equal; rewrite Z.add_comm; do 2 f_equal; by rewrite Z.add_comm.
Qed.
End Platforms.

(** ** The image
    What the linker script and [stacks_asm!] lay out: text, data and BSS, the stacks with
    the early page tables, and the second BSS in DRAM apart from them. *)
Record image_layout `{BootConsts} (sym : string → Z) (core_count : Z) : Prop := {
  lay_text : 0 ≤ sym "__TEXT_START__" < sym "__BSS_START__";
  lay_bss : sym "__BSS_START__" ≤ sym "__BSS_END__" ≤ sym "platform_normal_stacks";
  lay_stacks : sym "platform_normal_stacks" mod GRANULE_SIZE = 0;
  lay_start : sym "early_page_table_start" = early_page_table_start (sym "platform_normal_stacks");
  lay_tables : sym "early_page_table_end" = early_page_table_end core_count (sym "platform_normal_stacks");
  lay_cores : 1 ≤ core_count;
  lay_end : sym "early_page_table_end" ≤ sym "__BL31_END__" ≤ 2 ^ 48;
  lay_bss2 : 0 ≤ sym "__BSS2_START__" ≤ sym "__BSS2_END__" ∧ sym "__BSS2_END__" ≤ 2 ^ 48;
  lay_apart : sym "__BL31_END__" ≤ sym "__BSS2_START__" ∨ sym "__BSS2_END__" ≤ sym "__TEXT_START__";
  lay_cpu_data : 0 ≤ sym "PERCPU_DATA" ∧ 0 ≤ CPU_DATA_SIZE ∧ sym "PERCPU_DATA" + core_count * CPU_DATA_SIZE ≤ 2 ^ 48;
}.
Class BootLaws `{BootConsts} : Prop := {
  boot_u64 : Forall u64 [SCTLR_M_BIT; SCTLR_C_BIT; SCTLR_WXN_BIT; SCTLR_IESB_BIT; SCTLR_A_BIT; SCTLR_SA_BIT; SCTLR_I_BIT];
}.
Lemma boot_bit_u64 `{BootLaws} v :
  v ∈ [SCTLR_M_BIT; SCTLR_C_BIT; SCTLR_WXN_BIT; SCTLR_IESB_BIT; SCTLR_A_BIT; SCTLR_SA_BIT; SCTLR_I_BIT] → u64 v.
Proof. intros Hv. by eapply (proj1 (Forall_forall _ _) boot_u64). Qed.
Lemma stacks_then_tables stacks core_count :
  stacks mod GRANULE_SIZE = 0 →
  early_page_table_start stacks = stacks + STACK_SIZE ∧ early_page_table_end core_count stacks = stacks + core_count * STACK_SIZE ∧
  early_page_table_start stacks mod 4096 = 0.
Proof.
  intros [q ->]%Z.mod_divide; [|done]. unfold early_page_table_end, early_page_table_start, balign, GRANULE_SIZE, STACK_SIZE.
  replace ((q * 4096 + 0x2000 + 4096 - 1) / 4096) with (q + 2) by (apply (Z.div_unique _ _ _ 4095); lia).
  split; [lia|]. split; [lia|]. by apply Z.mod_mul.
Qed.

(** ** The functions that both entry points call *)
Section Calls.
Context `{BootConsts} {Hboot : BootLaws}.
Context (assertions : bool).
Context (image : Z → Z → Z) (sym : string → Z) (xpac : Z → Z) (device : list CpuEvent → Z → Z).
Context (ranges_count : Z) (core_position : list Instr) (pos : Z → Z) `{!CorePosition core_position pos} (hooks : string → CpuState → Exit).
Context (core_count : Z) (Hlay : image_layout sym core_count).
Let leaf := leaf_calls assertions image sym xpac device ranges_count core_position hooks.
Let poss := pos_calls assertions image sym xpac device ranges_count core_position hooks.
Let stacks := stack_calls assertions image sym xpac device ranges_count core_position hooks.
Let boot := boot_calls assertions image sym xpac device ranges_count core_position hooks.
Abbreviation benv := (print_env image sym xpac device).

(** The number of this core. *)
Definition my_pos (b : Bank) : Z := pos (b "mpidr_el1").
Definition pos_ok (b : Bank) : Prop := 0 ≤ my_pos b < core_count.

Lemma my_core_pos_ok s : ∃ s', returns (λ fuel, poss fuel "my_core_pos") s s' ∧ xr 0 s' = my_pos (c_sysregs s) ∧ stays (seq 0 6) s s'.
Proof using CorePosition0.
  change (λ fuel, poss fuel "my_core_pos") with (λ fuel, run_asm (benv (leaf fuel) "my_core_pos") my_core_pos). apply ends_returns.
  unfold my_core_pos at 2. ends_step. set (s1 := set_x 0 _ _).
  destruct (core_position_ok (benv hooks "core_position") s1) as (s' & Hrun & Hx & Hs).
  eapply (ends_bsym _ _ _ _ _ (Returned s')); [by exists 0%nat|]. exists s'. split; [left; split; [done|]|split].
  - rewrite (to_x _ _ _ _ _ _ Hs) by (clear; set_solver). unfold s1. by regs_simpl.
  - rewrite Hx. unfold s1, my_pos. by regs_simpl.
  - eapply to_trans; [|unfold s1 in Hs; regs_simpl; exact Hs|done]. to_steps.
Qed.

(** *** Stacks *)
(** The end of the stack of a core; stacks grow down. *)
Definition stack_top (b : Bank) : Z := sym "platform_normal_stacks" + STACK_SIZE * (my_pos b + 1).
Definition stack_clobbers : list nat := seq 0 6 ++ [10; 30]%nat.
Lemma stack_bounds : 0 ≤ sym "platform_normal_stacks" ∧ sym "platform_normal_stacks" + STACK_SIZE * core_count ≤ 2 ^ 48.
Proof using Hlay.
  destruct Hlay. destruct (stacks_then_tables _ core_count lay_stacks0) as (_ & He & _). unfold STACK_SIZE in *. lia.
Qed.
Lemma get_my_stack_ok s : pos_ok (c_sysregs s) →
  ∃ s', returns (λ fuel, stacks fuel "get_my_stack") s s' ∧ xr 0 s' = stack_top (c_sysregs s) ∧ stays stack_clobbers s s'.
Proof using CorePosition0 Hlay.
  intros Hpos. destruct stack_bounds as [Hb0 Hb].
  change (λ fuel, stacks fuel "get_my_stack") with (λ fuel, run_asm (benv (poss fuel) "get_my_stack") get_my_stack).
  apply ends_returns. unfold get_my_stack at 2. ends_step. eapply ends_bl; [intros; reflexivity|]. intros ra.
  set (s1 := set_x 30 ra _). destruct (my_core_pos_ok s1) as (s2 & Hr & Hx & Hs). exists s2. split; [exact Hr|].
  assert (c_sysregs s1 = c_sysregs s) as Eb by (unfold s1; by regs_simpl). rewrite Eb in Hx.
  assert (xr 10 s2 = xr 30 s) as E10 by (rewrite (to_x _ _ _ _ _ _ Hs) by (clear; set_solver); unfold s1; by regs_simpl).
  unfold pos_ok in Hpos. do 3 ends_step. rewrite Hx, (Z.mod_small (_ + STACK_SIZE)) by (unfold STACK_SIZE in *; lia).
  rewrite Z.mod_small by (unfold STACK_SIZE in *; nia).
  apply ends_retx. eexists. split; [right; regs_simpl; by rewrite E10|]. split.
  - regs_simpl. unfold stack_top. clear. lia.
  - apply to_set_x; [reg_mem|]. apply to_set_x; [reg_mem|]. apply to_set_x; [reg_mem|].
    eapply to_trans; [|unfold s1 in Hs; regs_simpl; exact Hs|reg_mem]. to_steps.
Qed.
Lemma set_my_stack_ok s : pos_ok (c_sysregs s) → c_sysregs s "spsel" = 0 →
  ∃ s', returns (λ fuel, boot fuel "set_my_stack") s s' ∧
    to (9%nat :: stack_clobbers) (<["sp_el0" := stack_top (c_sysregs s)]> (c_sysregs s)) (c_mem s) (c_trace s) s s'.
Proof using CorePosition0 Hlay.
  intros Hpos Hsel.
  change (λ fuel, boot fuel "set_my_stack") with (λ fuel, run_asm (benv (stacks fuel) "set_my_stack") set_my_stack).
  apply ends_returns. unfold set_my_stack at 2. ends_step. eapply ends_bl; [intros; reflexivity|]. intros ra.
  set (s1 := set_x 30 ra _). assert (c_sysregs s1 = c_sysregs s) as Eb by (unfold s1; by regs_simpl).
  destruct (get_my_stack_ok s1) as (s2 & Hr & Hx & Hs); [by rewrite Eb|]. exists s2. split; [exact Hr|]. rewrite Eb in Hx.
  assert (xr 9 s2 = xr 30 s) as E9 by (rewrite (to_x _ _ _ _ _ _ Hs) by (unfold stack_clobbers; clear; set_solver); unfold s1; by regs_simpl).
  assert (sp_reg s2 = "sp_el0") as Esp by (unfold sp_reg; by rewrite (to_b _ _ _ _ _ _ Hs), Eb, Hsel).
  ends_step. rewrite Hx, Esp. apply ends_retx. eexists. split; [right; regs_simpl; by rewrite E9|].
  apply to_set_sysreg. eapply to_trans; [|unfold s1 in Hs; regs_simpl; exact Hs|reg_mem]. to_steps.
Qed.

(** *** Data of the core *)
Definition cpu_data_of (b : Bank) : Z := sym "PERCPU_DATA" + my_pos b * CPU_DATA_SIZE.
Lemma cpu_data_by_index_ok s i : xr 0 s = i → 0 ≤ i < core_count →
  ∃ s', returns (λ fuel, poss fuel "cpu_data_by_index") s s' ∧ xr 0 s' = sym "PERCPU_DATA" + i * CPU_DATA_SIZE ∧ stays [0; 1]%nat s s'.
Proof using Hlay.
  intros E0 Hi. destruct (lay_cpu_data _ _ Hlay) as (Hd0 & Hs0 & Hd). pose proof (lay_cores _ _ Hlay) as Hc.
  change (λ fuel, poss fuel "cpu_data_by_index") with (λ fuel : nat, run_asm (benv hooks "cpu_data_by_index") cpu_data_by_index).
  apply (ends_returns (λ _, benv hooks "cpu_data_by_index")). unfold cpu_data_by_index at 2.
  apply ends_mov_imm; [done|unfold u64; nia|]. intros s1 E1 Hm. assert (xr 0 s1 = i) as E0' by (rewrite (mv_x _ _ _ Hm) by (clear; set_solver); done).
  do 3 ends_step. rewrite E0', E1. change (xr 31 s1) with 0.
  rewrite Z.add_0_r, (Z.mod_small (i * _)), Z.mod_small by nia. apply ends_return. eexists. split; [left; split; [done|]|].
  { regs_simpl. apply (mv_x _ _ _ Hm). clear. set_solver. }
  split; [regs_simpl; clear; lia|]. do 3 (apply to_set_x; [reg_mem|]). eapply to_moved; [|apply to_refl|exact Hm]. reg_mem.
Qed.
Lemma init_cpu_data_ptr_ok s : pos_ok (c_sysregs s) →
  ∃ s', returns (λ fuel, boot fuel "init_cpu_data_ptr") s s' ∧
    to stack_clobbers (<["tpidr_el3" := cpu_data_of (c_sysregs s)]> (c_sysregs s)) (c_mem s) (c_trace s) s s'.
Proof using CorePosition0 Hlay.
  intros Hpos. change (λ fuel, boot fuel "init_cpu_data_ptr") with (λ fuel, run_asm (benv (poss fuel) "init_cpu_data_ptr") init_cpu_data_ptr).
  apply ends_returns. unfold init_cpu_data_ptr at 2. ends_step. eapply ends_bl; [intros; reflexivity|]. intros ra.
  set (s1 := set_x 30 ra _). assert (c_sysregs s1 = c_sysregs s) as Eb by (unfold s1; by regs_simpl).
  destruct (my_core_pos_ok s1) as (s2 & Hr & Hx & Hs). exists s2. split; [exact Hr|]. rewrite Eb in Hx.
  assert (xr 10 s2 = xr 30 s) as E10 by (rewrite (to_x _ _ _ _ _ _ Hs) by (clear; set_solver); unfold s1; by regs_simpl).
  assert (stays stack_clobbers s s2) as Hs2.
  { eapply to_trans; [|unfold s1 in Hs; regs_simpl; exact Hs|reg_mem]. to_steps. }
  eapply ends_bl; [intros; reflexivity|]. intros ra'. destruct (cpu_data_by_index_ok (set_x 30 ra' s2) (my_pos (c_sysregs s))) as (s3 & Hr3 & Hx3 & Hs3).
  { by regs_simpl. } { exact Hpos. } exists s3. split; [exact Hr3|]. ends_step. rewrite Hx3. apply ends_retx. eexists. split.
  - right. regs_simpl. by rewrite (to_x _ _ _ _ _ _ Hs3), xr_set_x_ne, E10 by (clear; set_solver).
  - apply to_set_sysreg. called Hs2 Hs3. exact Hs3.
Qed.

(** *** System registers *)
Definition sctlr2_regs (b : Bank) : Bank :=
  if bits (b "id_aa64mmfr3_el1") SCTLRX_SHIFT SCTLRX_WIDTH =? SCTLR2_IMPLEMENTED then <["sctlr2_el3" := SCTLR2_EL3_RESET_VAL]> b else b.
Lemma init_sctlr2_ok s :
  ∃ s', returns (λ fuel, boot fuel "init_sctlr2_el3") s s' ∧ to [0%nat] (sctlr2_regs (c_sysregs s)) (c_mem s) (c_trace s) s s'.
Proof using Type.
  change (λ fuel, boot fuel "init_sctlr2_el3") with (λ fuel : nat, run_asm (benv hooks "init_sctlr2_el3") init_sctlr2_el3).
  assert (∃ s', run_asm (benv hooks "init_sctlr2_el3") init_sctlr2_el3 s = Returned s' ∧
    to [0%nat] (sctlr2_regs (c_sysregs s)) (c_mem s) (c_trace s) s s') as (s' & Hr & Hs).
  { unfold run_asm, sctlr2_regs. change init_sctlr2_el3 with
      [Mrs 0 "id_aa64mmfr3_el1"; Ubfx 0 0 SCTLRX_SHIFT SCTLRX_WIDTH; CmpI 0 SCTLR2_IMPLEMENTED; Bc CNe 6;
       MovI 0 SCTLR2_EL3_RESET_VAL; Msr "sctlr2_el3" 0; Return]. cbn [length].
    do 4 asm_step. cbn [c_cmp set_cmp holds]. destruct (_ =? SCTLR2_IMPLEMENTED); cbn [negb]; repeat asm_step; eexists; (split; [reflexivity|]); to_steps. }
  exists s'. split; [|done]. exists 0%nat. intros fuel _. left. split; [exact Hr|]. apply (to_x _ _ _ _ _ _ Hs). clear. set_solver.
Qed.

(** The registers with the MMU enabled. *)
Definition mmu_regs (ttbr sctlr_set sctlr_clear : Z) (b : Bank) : Bank :=
  <["sctlr_el3" := Z.ldiff (Z.lor (b "sctlr_el3") sctlr_set) sctlr_clear]>
    (<["ttbr0_el3" := Z.lor ttbr TTBR0_EL3_CNP_BIT]> (<["tcr_el3" := TCR]> (<["mair_el3" := mair]> b))).
Definition mmu_events : list CpuEvent := [EvTlbi "alle3"; EvDsb; EvIsb; EvIsb].
Lemma enable_mmu_ok s :
  ∃ s', returns (λ fuel, boot fuel "enable_mmu") s s' ∧
    to [0; 3]%nat (mmu_regs (xr 0 s) (xr 1 s) (xr 2 s) (c_sysregs s)) (c_mem s) (c_trace s ++ mmu_events) s s'.
Proof using Type.
  change (λ fuel, boot fuel "enable_mmu") with (λ fuel : nat, run_asm (benv hooks "enable_mmu") enable_mmu).
  apply (ends_returns (λ _, benv hooks "enable_mmu")). unfold enable_mmu at 2. do 14 ends_step.
  apply ends_return. eexists. split; [left; split; [done|by regs_simpl]|].
  cbn [emit set_sysreg c_sysregs]. regs_simpl. cbn [set_sysreg c_sysregs]. regs_simpl.
  rewrite !fn_lookup_insert_ne by done. unfold mmu_events, mmu_regs. cbn [emit c_sysregs].
  change [EvTlbi "alle3"; EvDsb; EvIsb; EvIsb] with ([EvTlbi "alle3"] ++ [EvDsb] ++ [EvIsb] ++ [EvIsb]). rewrite !app_assoc.
  to_steps.
Qed.

(** *** Memory *)
(** The lines of a range were invalidated, and a barrier was issued. *)
Definition invalidated (b : Bank) (lo hi : Z) (evs : list CpuEvent) : Prop :=
  if lo =? hi then evs = []
  else ∃ lines, evs = lines ++ [EvDsb] ∧ maintained "ivac" (line_size (b "ctr_el0")) lo hi lines.
Lemma inv_dcache_range_ok s lo hi : 0 ≤ lo ≤ hi → hi ≤ 2 ^ 48 → xr 0 s = lo → xr 1 s = hi - lo →
  ∃ s', returns (λ fuel, boot fuel "inv_dcache_range") s s' ∧
    ∃ evs, invalidated (c_sysregs s) lo hi evs ∧ to [0; 1; 2; 3]%nat (c_sysregs s) (c_mem s) (c_trace s ++ evs) s s'.
Proof using Type.
  intros Hlo Hhi E0 E1. set (env := benv hooks "inv_dcache_range").
  change (λ fuel, boot fuel "inv_dcache_range") with (λ fuel, exec fuel env inv_dcache_range 0). apply wp_returns.
  unfold invalidated. destruct (Z.eqb_spec lo hi) as [->|Hne].
  - assert (wp env inv_dcache_range 0 s (λ ex, ex = Returned s)) as (k & ex & -> & Hk) by (by apply empty_range; [..|rewrite E1, Z.sub_diag]).
    exists k, (Returned s). split; [|exact Hk]. exists s. do 2 (split; [done|]). exists []. split; [done|]. rewrite app_nil_r. apply to_refl.
  - destruct (line_size_spec (c_sysregs s "ctr_el0")) as (HL & _).
    destruct (by_mva_run env "ivac" lo (hi - lo) s E0 E1) as (k & ex & (s' & lines & -> & Ht & Hl & Hm & Hb & Hc) & Hk); [lia..|].
    exists k, (Returned s'). split; [|exact Hk]. exists s'. split; [done|]. split; [apply Hc; clear; set_solver|].
    exists (lines ++ [EvDsb]). split; [exists lines; split; [done|]; by replace (lo + (hi - lo)) with hi in Hl by lia|]. by split.
Qed.
Lemma zeromem_ok s lo hi : 0 ≤ lo ≤ hi → hi ≤ 2 ^ 48 → xr 0 s = lo → xr 1 s = hi - lo →
  ∃ s', returns (λ fuel, boot fuel "zeromem") s s' ∧
    ∃ m, zeroed lo hi (c_mem s) m ∧ to (seq 0 6) (c_sysregs s) m (c_trace s) s s'.
Proof using Type.
  intros Hlo Hhi E0 E1. set (env := benv hooks "zeromem").
  change (λ fuel, boot fuel "zeromem") with
    (λ fuel, exec fuel env (zeromem_prog assertions SCTLR_M_BIT) (zeromem_at assertions SCTLR_M_BIT "zeromem")). apply wp_returns.
  destruct (zeromem_run env assertions SCTLR_M_BIT lo (hi - lo) s) as (k & ex & (s' & -> & Hz & [Hx Hb Ht]) & Hk); [lia|lia|lia|done|done|].
  exists k, (Returned s'). split; [|exact Hk]. exists s'. split; [done|]. split; [apply Hx; unfold zero_clobbers; clear; set_solver|].
  exists (c_mem s'). split; [by replace (lo + (hi - lo)) with hi in Hz by lia|]. by split.
Qed.
Lemma cold_boot_handler_ok s : ∃ s', returns (λ fuel, boot fuel "cold_boot_handler") s s' ∧ s' = s.
Proof using Type. exists s. split; [|done]. exists 0%nat. intros fuel _. by left. Qed.
End Calls.
