(* ===== verification/BootEntry.v ===== *)
(** * The entry points

    A core that enters a cold or a warm boot is set up by the assembly and enters the main
    function of the boot: exception vectors, errata, the registers of the MMU, its stack
    and its data; a cold boot also clears the BSS and builds the early page tables. *)

From Stdlib Require Import ZArith Lia.
From stdpp Require Import base list numbers option functions strings sets.
From S2P Require Import Prelude Smccc Services Context Asm AsmProps AsmWords ContextAsm MemAsm MemAsmProps CacheAsmProps EarlyPagetable EarlyPagetableProofs EarlyPagetableProps Cpu ErrataProps CpuProps CrashAsm CrashProps CrashConsole CrashConsoleProps Platforms BootAsm EarlyTablesAsm BootProps.
Open Scope rust_scope.
Open Scope string_scope.
Open Scope list_scope.
Open Scope Z_scope.

(** ** What the entry points rely on
    The errata and the reset handler of the CPU change system registers only, and neither
    the exception vectors nor the identity of the core; a CPU that is not known panics. *)
Definition resets (f : Bank * list CpuEvent → Bank * list CpuEvent) (s s' : CpuState) : Prop :=
  (c_sysregs s', c_trace s') = f (c_sysregs s, c_trace s) ∧ c_mem s' = c_mem s ∧ only_clobbers (seq 0 19) s s'.
Definition kept_regs : list SysReg := ["vbar_el3"; "mpidr_el1"].
Class ResetLaws (hooks : string → CpuState → Exit) (errata reset : Bank * list CpuEvent → Bank * list CpuEvent)
    (known : Bank → bool) : Prop := {
  errata_ok s : ∃ s', hooks "apply_reset_errata" s = Returned s' ∧ resets errata s s';
  reset_ok s : if known (c_sysregs s) then ∃ s', hooks "cpu_reset_handler" s = Returned s' ∧ resets reset s s'
               else hooks "cpu_reset_handler" s = Panicked;
  errata_keeps bt r : r ∈ kept_regs → (errata bt).1 r = bt.1 r;
  reset_keeps bt r : r ∈ kept_regs → (reset bt).1 r = bt.1 r;
}.

Section Entry.
Context `{BootConsts} {Hboot : BootLaws}.
Context (assertions : bool).
Context (image : Z → Z → Z) (sym : string → Z) (xpac : Z → Z) (device : list CpuEvent → Z → Z).
Context (ranges_count : Z) (core_position : list Instr) (pos : Z → Z) `{!CorePosition core_position pos}.
Context (hooks : string → CpuState → Exit) (errata reset : Bank * list CpuEvent → Bank * list CpuEvent) (known : Bank → bool).
Context `{!ResetLaws hooks errata reset known}.
Context (core_count : Z) (Hlay : image_layout sym core_count).
Let boot := boot_calls assertions image sym xpac device ranges_count core_position hooks.
Abbreviation benv := (print_env image sym xpac device).
Abbreviation my_pos := (my_pos pos).
Abbreviation stack_top := (stack_top sym pos).
Abbreviation cpu_data_of := (cpu_data_of sym pos).

(** ** The common start *)
(** System registers and events after the errata, and after the reset handler of the CPU. *)
Definition after_errata (s : CpuState) : Bank * list CpuEvent :=
  errata (<["vbar_el3" := sym "runtime_exceptions"]> (c_sysregs s), c_trace s ++ [EvIsb]).
Definition at_reset (s : CpuState) : Bank * list CpuEvent := reset (after_errata s).
Lemma at_reset_keeps s r : r ∈ kept_regs → (at_reset s).1 r = <["vbar_el3" := sym "runtime_exceptions"]> (c_sysregs s) r.
Proof using ResetLaws0. intros Hr. unfold at_reset, after_errata. by rewrite reset_keeps, errata_keeps by done. Qed.
Lemma my_pos_ext (b b' : Bank) : b "mpidr_el1" = b' "mpidr_el1" → my_pos b = my_pos b'.
Proof using Type. unfold BootProps.my_pos. by intros ->. Qed.

Definition start_regs (data : Z) (b : Bank) : Bank :=
  let b := sctlr2_regs (<["sctlr_el3" := Z.lor (b "sctlr_el3") SCTLR_RESET_BITS]> b) in
  <["s3_3_c4_c2_5" := Dit_DIT]> (<["daif" := Z.ldiff (b "daif") (Z.shiftl DAIF_ABT_BIT 6)]> (<["tpidr_el3" := data]> b)).
Definition boot_clobbers : list nat := seq 0 19 ++ [30]%nat.

Lemma reset_bits_u64 : u64 SCTLR_RESET_BITS.
Proof using Hboot. unfold SCTLR_RESET_BITS. repeat apply u64_lor; apply boot_bit_u64; clear; set_solver. Qed.
Lemma sctlr2_regs_other b r : r ≠ "sctlr2_el3" → sctlr2_regs b r = b r.
Proof using Type. intros Hr. unfold sctlr2_regs. case_match; [by rewrite fn_lookup_insert_ne|done]. Qed.

(** From the known CPU on. *)
Lemma start_regs_ok name prog rest b t s s3 (Q : Exit → Prop) :
  0 ≤ my_pos (c_sysregs s) < core_count → b "mpidr_el1" = c_sysregs s "mpidr_el1" → to boot_clobbers b (c_mem s) t s s3 →
  (∀ s', to boot_clobbers (start_regs (cpu_data_of (c_sysregs s)) b) (c_mem s) (t ++ [EvIsb]) s s' →
     ends (λ fuel, benv (boot fuel) name) prog rest s' Q) →
  ends (λ fuel, benv (boot fuel) name) prog (drop 5 reset_sequence ++ rest) s3 Q.
Proof using Hboot CorePosition0 Hlay.
  intros Hpos Hmpidr H3 HQ. unfold reset_sequence. cbn [app skipn]. rewrite drop_0, <-app_assoc. cbn [app].
  apply ends_mov_imm; [done|apply reset_bits_u64|]. intros s4 E1 Hm4.
  assert (to boot_clobbers b (c_mem s) t s s4) as H4 by (eapply (to_moved _ _ _ _ _ _ _ 1); [reg_mem|exact H3|exact Hm4]). clear H3 Hm4.
  do 4 ends_step. rewrite E1, (to_b _ _ _ _ _ _ H4). set (s5 := emit _ _).
  assert (to boot_clobbers (<["sctlr_el3" := Z.lor (b "sctlr_el3") SCTLR_RESET_BITS]> b) (c_mem s) (t ++ [EvIsb]) s s5) as H5 by (unfold s5; to_steps).
  clearbody s5. clear s4 E1 H4. set (b5 := <["sctlr_el3" := _]> b) in *.
  eapply ends_bl; [intros; reflexivity|]. intros ra.
  destruct (init_sctlr2_ok assertions image sym xpac device ranges_count core_position hooks (set_x 30 ra s5)) as (s6 & Hr6 & H6).
  exists s6. split; [exact Hr6|]. called H5 H6. clear H5 Hr6. eapply ends_bl; [intros; reflexivity|]. intros ra'.
  assert (my_pos (sctlr2_regs b5) = my_pos (c_sysregs s)) as Hp by (apply my_pos_ext; rewrite sctlr2_regs_other by done; unfold b5; by rewrite fn_lookup_insert_ne).
  destruct (init_cpu_data_ptr_ok assertions image sym xpac device ranges_count core_position pos hooks core_count Hlay (set_x 30 ra' s6)) as (s7 & Hr7 & H7).
  { unfold pos_ok. by rewrite set_x_sysregs, (to_b _ _ _ _ _ _ H6), Hp. }
  exists s7. split; [exact Hr7|]. called H6 H7. clear H6 Hr7. unfold BootProps.cpu_data_of in H7. rewrite Hp in H7. fold (cpu_data_of (c_sysregs s)) in H7.
  do 3 ends_step. apply HQ. rewrite (to_b _ _ _ _ _ _ H7), fn_lookup_insert_ne by done. unfold start_regs. fold b5.
  apply to_set_sysreg. apply to_set_x; [reg_mem|]. by apply to_set_sysreg.
Qed.
Lemma start_ok name prog rest s (Q : Exit → Prop) :
  0 ≤ my_pos (c_sysregs s) < core_count →
  (if known (after_errata s).1
   then ∀ s', to boot_clobbers (start_regs (cpu_data_of (c_sysregs s)) (at_reset s).1) (c_mem s) ((at_reset s).2 ++ [EvIsb]) s s' →
     ends (λ fuel, benv (boot fuel) name) prog rest s' Q
   else Q Panicked) →
  ends (λ fuel, benv (boot fuel) name) prog (reset_sequence ++ rest) s Q.
Proof using Hboot CorePosition0 ResetLaws0 Hlay.
  intros Hpos HQ. rewrite <-(take_drop 5 reset_sequence), <-app_assoc. set (tail := drop 5 reset_sequence). unfold reset_sequence. cbn [firstn app]. do 3 ends_step.
  eapply ends_bl; [intros; reflexivity|]. intros ra. set (s1 := set_x 30 ra _).
  destruct (errata_ok s1) as (s2 & Hr2 & Hb2 & Hm2 & Hx2). exists s2. split.
  { exists 0%nat. intros fuel _. left. split; [exact Hr2|]. apply Hx2. clear. set_solver. }
  assert ((c_sysregs s2, c_trace s2) = after_errata s ∧ c_mem s2 = c_mem s ∧ only_clobbers boot_clobbers s s2) as (E2 & M2 & X2).
  { rewrite Hb2, Hm2. unfold s1. regs_simpl. do 2 (split; [done|]). eapply clobbers_trans; [|exact Hx2|reg_mem]. unfold s1.
    apply clobbers_set_x; [reg_mem|]. apply clobbers_emit, clobbers_set_sysreg, clobbers_set_x; [reg_mem|]. apply clobbers_refl. }
  clear s1 Hr2 Hb2 Hm2 Hx2. rewrite <-E2 in HQ. cbn [fst] in HQ. 
  assert (∀ ra, if known (c_sysregs s2) then ∃ s', hooks "cpu_reset_handler" (set_x 30 ra s2) = Returned s' ∧ resets reset (set_x 30 ra s2) s'
    else hooks "cpu_reset_handler" (set_x 30 ra s2) = Panicked) as Hreset.
  { intros ra'. pose proof (reset_ok (set_x 30 ra' s2)) as Hr. by rewrite set_x_sysregs in Hr. }
  destruct (known (c_sysregs s2)); [|apply ends_bl_panics; [intros; apply Hreset|exact HQ]].
  eapply ends_bl; [intros; reflexivity|]. intros ra'. destruct (Hreset ra') as (s3 & Hr3 & Hb3 & Hm3 & Hx3). exists s3. split.
  { exists 0%nat. intros fuel _. left. split; [exact Hr3|]. apply Hx3. clear. set_solver. }
  rewrite set_x_sysregs, set_x_trace, E2 in Hb3. fold (at_reset s) in Hb3. destruct (at_reset s) as [b t] eqn:Eat. injection Hb3 as Eb Et.
  assert (to boot_clobbers b (c_mem s) t s s3) as H3.
  { split; [|done|by rewrite Hm3, set_x_mem|done]. eapply clobbers_trans; [|exact Hx3|reg_mem]. by apply clobbers_set_x; [reg_mem|]. }
  cbn [fst snd] in HQ. apply (start_regs_ok name prog rest b t s); [done| |done|exact HQ].
  pose proof (at_reset_keeps s "mpidr_el1") as Hk. rewrite Eat in Hk. apply Hk. unfold kept_regs. clear. set_solver.
Qed.

(** ** A core that is set up *)
Definition boot_regs : list SysReg :=
  ["sctlr_el3"; "sctlr2_el3"; "tpidr_el3"; "daif"; "s3_3_c4_c2_5"; "spsel"; "sp_el0"; "mair_el3"; "tcr_el3"; "ttbr0_el3"].
Definition has_sctlr2 (b : Bank) : bool := bits (b "id_aa64mmfr3_el1") SCTLRX_SHIFT SCTLRX_WIDTH =? SCTLR2_IMPLEMENTED.
(** The system registers [b'] of a core that entered with [s]. *)
Record core_ready (s : CpuState) (ttbr sctlr_set sctlr_clear : Z) (b' : Bank) : Prop := {
  rd_vectors : b' "vbar_el3" = sym "runtime_exceptions";
  rd_stack : b' "spsel" = 0 ∧ b' "sp_el0" = stack_top (c_sysregs s);
  rd_data : b' "tpidr_el3" = cpu_data_of (c_sysregs s);
  rd_mmu : b' "ttbr0_el3" = Z.lor ttbr TTBR0_EL3_CNP_BIT ∧ b' "mair_el3" = mair ∧ b' "tcr_el3" = TCR;
  rd_sctlr : b' "sctlr_el3" = Z.ldiff (Z.lor (Z.lor ((at_reset s).1 "sctlr_el3") SCTLR_RESET_BITS) sctlr_set) sctlr_clear;
  rd_sctlr2 : b' "sctlr2_el3" = if has_sctlr2 (at_reset s).1 then SCTLR2_EL3_RESET_VAL else (at_reset s).1 "sctlr2_el3";
  (** Aborts are unmasked, and timing is independent of data. *)
  rd_daif : b' "daif" = Z.ldiff ((at_reset s).1 "daif") (Z.shiftl DAIF_ABT_BIT 6);
  rd_dit : b' "s3_3_c4_c2_5" = Dit_DIT;
  rd_others r : r ∉ boot_regs → b' r = (at_reset s).1 r;
}.
Definition final_regs (s : CpuState) (ttbr sctlr_set sctlr_clear : Z) : Bank :=
  mmu_regs ttbr sctlr_set sctlr_clear
    (<["sp_el0" := stack_top (c_sysregs s)]> (<["spsel" := 0]> (start_regs (cpu_data_of (c_sysregs s)) (at_reset s).1))).
Lemma final_ready s ttbr sctlr_set sctlr_clear : core_ready s ttbr sctlr_set sctlr_clear (final_regs s ttbr sctlr_set sctlr_clear).
Proof using ResetLaws0.
  pose proof (at_reset_keeps s "vbar_el3" ltac:(unfold kept_regs; clear; set_solver)) as Hvbar. rewrite fn_lookup_insert in Hvbar.
  unfold final_regs, mmu_regs, start_regs. cbv zeta. set (b := (at_reset s).1) in *. split.
  all: intros; repeat first [rewrite fn_lookup_insert | rewrite fn_lookup_insert_ne by discriminate | rewrite sctlr2_regs_other by discriminate];
    try done.
  - fold b. unfold sctlr2_regs, has_sctlr2. rewrite fn_lookup_insert_ne by done. case_match; [by rewrite fn_lookup_insert|by rewrite fn_lookup_insert_ne].
  - match goal with Hr : r ∉ boot_regs |- _ => assert (∀ q, q ∈ boot_regs → q ≠ r) as Hne by (intros q Hq ->; exact (Hr Hq)) end.
    rewrite !fn_lookup_insert_ne by (apply Hne; reg_mem). rewrite sctlr2_regs_other by (apply not_eq_sym, Hne; reg_mem).
    by rewrite fn_lookup_insert_ne by (apply Hne; reg_mem).
Qed.

(** ** Steps of the entry points
    [s] is the state that an entry point started with, up to the registers that are
    clobbered. *)
Section Steps.
Context (name : string) (prog : list Instr) (s : CpuState) (Q : Exit → Prop).
Context (Hpos : 0 ≤ my_pos (c_sysregs s) < core_count).
Abbreviation ends_here := (ends (λ fuel, benv (boot fuel) name) prog).
Lemma start_mpidr data : start_regs data (at_reset s).1 "mpidr_el1" = c_sysregs s "mpidr_el1".
Proof using ResetLaws0.
  unfold start_regs. cbv zeta. rewrite !fn_lookup_insert_ne, sctlr2_regs_other, fn_lookup_insert_ne by done.
  apply at_reset_keeps. unfold kept_regs. clear. set_solver.
Qed.
Lemma stack_step rest b m t s1 :
  b "mpidr_el1" = c_sysregs s "mpidr_el1" → to boot_clobbers b m t s s1 →
  (∀ s', to boot_clobbers (<["sp_el0" := stack_top (c_sysregs s)]> (<["spsel" := 0]> b)) m t s s' → ends_here rest s' Q) →
  ends_here (MsrI "spsel" 0 :: Bl "set_my_stack" :: rest) s1 Q.
Proof using CorePosition0 Hlay Hpos.
  intros Hb H1 HQ. ends_step. assert (to boot_clobbers (<["spsel" := 0]> b) m t s (set_sysreg "spsel" 0 s1)) as H2 by to_steps.
  set (s2 := set_sysreg _ _ _) in *. clearbody s2. eapply ends_bl; [intros; reflexivity|]. intros ra.
  assert (my_pos (<["spsel" := 0]> b) = my_pos (c_sysregs s)) as Hp by (by apply my_pos_ext; rewrite fn_lookup_insert_ne).
  destruct (set_my_stack_ok assertions image sym xpac device ranges_count core_position pos hooks core_count Hlay (set_x 30 ra s2)) as (s3 & Hr & H3).
  { unfold pos_ok. by rewrite set_x_sysregs, (to_b _ _ _ _ _ _ H2), Hp. }
  { by rewrite set_x_sysregs, (to_b _ _ _ _ _ _ H2), fn_lookup_insert. }
  exists s3. split; [exact Hr|]. called H2 H3. unfold BootProps.stack_top in H3. rewrite Hp in H3. by apply HQ.
Qed.
Lemma mmu_step rest b m t s1 :
  to boot_clobbers b m t s s1 →
  (∀ s', to boot_clobbers (mmu_regs (xr 0 s1) (xr 1 s1) (xr 2 s1) b) m (t ++ mmu_events) s s' → ends_here rest s' Q) →
  ends_here (Bl "enable_mmu" :: rest) s1 Q.
Proof using Type.
  intros H1 HQ. eapply ends_bl; [intros; reflexivity|]. intros ra.
  destruct (enable_mmu_ok assertions image sym xpac device ranges_count core_position hooks (set_x 30 ra s1)) as (s2 & Hr & H2).
  exists s2. split; [exact Hr|]. rewrite !xr_set_x_ne in H2 by done. called H1 H2. by apply HQ.
Qed.
(** Calls on the range between two symbols. *)
Lemma range_args rest from upto f b m t s1 :
  0 ≤ sym from ≤ sym upto → sym upto ≤ 2 ^ 48 → to boot_clobbers b m t s s1 →
  (∀ s', xr 0 s' = sym from → xr 1 s' = sym upto - sym from → to boot_clobbers b m t s s' → ends_here (Bl f :: rest) s' Q) →
  ends_here (on_range f from upto ++ rest) s1 Q.
Proof using Type.
  intros Hr Hb H1 HQ. unfold on_range. cbn [app]. do 3 ends_step. rewrite Z.mod_small by lia.
  apply HQ; [by regs_simpl|by regs_simpl|]. to_steps.
Qed.
Lemma invalidate_step rest from upto b m t s1 :
  0 ≤ sym from ≤ sym upto → sym upto ≤ 2 ^ 48 → to boot_clobbers b m t s s1 →
  (∀ s' evs, invalidated b (sym from) (sym upto) evs → to boot_clobbers b m (t ++ evs) s s' → ends_here rest s' Q) →
  ends_here (on_range "inv_dcache_range" from upto ++ rest) s1 Q.
Proof using Type.
  intros Hr Hb H1 HQ. eapply range_args; [exact Hr|exact Hb|exact H1|]. intros s2 E0 E1 H2. eapply ends_bl; [intros; reflexivity|]. intros ra.
  destruct (inv_dcache_range_ok assertions image sym xpac device ranges_count core_position hooks (set_x 30 ra s2) (sym from) (sym upto))
    as (s3 & Hr3 & evs & Hev & H3); [done|done|by regs_simpl|by regs_simpl|].
  exists s3. split; [exact Hr3|]. rewrite set_x_sysregs, (to_b _ _ _ _ _ _ H2) in Hev. called H2 H3. by eapply HQ.
Qed.
Lemma zero_step rest from upto b m t s1 :
  0 ≤ sym from ≤ sym upto → sym upto ≤ 2 ^ 48 → to boot_clobbers b m t s s1 →
  (∀ s' m', zeroed (sym from) (sym upto) m m' → to boot_clobbers b m' t s s' → ends_here rest s' Q) →
  ends_here (on_range "zeromem" from upto ++ rest) s1 Q.
Proof using Type.
  intros Hr Hb H1 HQ. eapply range_args; [exact Hr|exact Hb|exact H1|]. intros s2 E0 E1 H2. eapply ends_bl; [intros; reflexivity|]. intros ra.
  destruct (zeromem_ok assertions image sym xpac device ranges_count core_position hooks (set_x 30 ra s2) (sym from) (sym upto))
    as (s3 & Hr3 & m' & Hz & H3); [done|done|by regs_simpl|by regs_simpl|].
  exists s3. split; [exact Hr3|]. rewrite set_x_mem, (to_m _ _ _ _ _ _ H2) in Hz. called H2 H3. by eapply HQ.
Qed.
End Steps.

(** ** Warm boot *)
(** C10: a core that is turned on or resumes, and whose CPU the platform knows, enters
    [psci_warmboot_entrypoint] after finitely many steps, with everything set up that the
    Rust code relies on: the exception vectors of EL3, aborts unmasked, the MMU enabled
    with the page tables of the runtime and write-execute exclusion, its own stack and its
    own [CpuData]; the errata and the reset handler of its CPU have run, other system
    registers are as these left them, and the memory is as it was.  A CPU that is not known
    panics. *)
Theorem warm_boot_ready s :
  0 ≤ my_pos (c_sysregs s) < core_count →
  let run fuel := warm_boot assertions image sym xpac device ranges_count core_position hooks fuel s in
  ∃ N e, (if known (after_errata s).1
    then ∃ s', e = hooks "psci_warmboot_entrypoint" s' ∧
      core_ready s (mem_load64 (sym "PAGE_TABLE_ADDR") (c_mem s)) (Z.lor (Z.lor SCTLR_M_BIT SCTLR_C_BIT) SCTLR_WXN_BIT) 0 (c_sysregs s') ∧
      c_mem s' = c_mem s ∧ c_trace s' = (at_reset s).2 ++ [EvIsb] ++ mmu_events
    else e = Panicked) ∧ ∀ fuel, (N ≤ fuel)%nat → run fuel = e.
Proof using Hboot CorePosition0 ResetLaws0 Hlay.
  intros Hpos run. apply (ends_run (λ fuel, benv (boot fuel) "bl31_warm_entrypoint") bl31_warm_entrypoint s (λ e, if known _ then _ else _)).
  unfold bl31_warm_entrypoint at 2. apply start_ok; [done|]. destruct (known _); [|done].
  intros s1 H1. cbn [app]. apply (stack_step _ _ s _ Hpos _ _ _ _ _ (start_mpidr s _) H1). clear s1 H1. intros s1 H1.
  do 2 ends_step. unfold xsp. rewrite decide_False by done. regs_simpl. unfold load64. rewrite Z.add_0_r, set_x_mem, (to_m _ _ _ _ _ _ H1).
  set (s2 := set_x 0 _ _). assert (xr 0 s2 = mem_load64 (sym "PAGE_TABLE_ADDR") (c_mem s)) as E0 by (unfold s2; by regs_simpl).
  match type of H1 with to _ ?b ?m ?t _ _ => assert (to boot_clobbers b m t s s2) as H2 by (unfold s2; to_steps) end. clearbody s2. clear s1 H1.
  apply ends_mov_imm; [done|repeat apply u64_lor; apply boot_bit_u64; clear; set_solver|]. intros s3 E1 Hm.
  eapply (to_moved _ _ _ _ _ _ _ 1) in H2; [|reg_mem|exact Hm]. rewrite <-(mv_x _ _ _ Hm 0%nat) in E0 by (clear; set_solver). clear s2 Hm.
  ends_step. change (xr 31 s3) with 0. eapply (mmu_step _ _ s); [apply to_set_x; [reg_mem|exact H2]|]. regs_simpl. rewrite E0, E1.
  intros s4 H4. apply (ends_bsym _ _ _ _ s4 (hooks "psci_warmboot_entrypoint" s4)); [by exists 0%nat|]. exists s4. split; [done|]. destruct H4 as [_ -> -> ->].
  split; [apply final_ready|]. split; [done|]. by rewrite <-app_assoc.
Qed.

(** ** Cold boot *)
Section Cold.
Context (regions : list EarlyRegion) (ranges : list DescriptorRange) (size : Z).
(** The constants of the early mapping are those that were computed, and fit. *)
Record early_tables_ok : Prop := {
  et_regions : regions_ok regions = true;
  et_ranges : define_early_mapping regions = Done (ranges, size);
  et_fit : early_page_tables_fit core_count size = true;
  et_count : ranges_count = Z.of_nat (length ranges);
  et_image : ranges_in_image (benv hooks "init_early_page_tables") ranges;
}.
Context (Het : early_tables_ok).
Abbreviation tables := (sym "early_page_table_start").

(** The memory [m'] of a core that entered with the memory [m]. *)
Definition in_range (from upto : string) (b : Z) : Prop := sym from ≤ b < sym upto.
Record memory_ready (m m' : Z → Z) : Prop := {
  mr_tables va : 0 ≤ va < 2 ^ 39 → walk (λ a, mem_load64 a m') WALK_SIZES tables va = mapping_of regions va;
  mr_bss b : in_range "__BSS_START__" "__BSS_END__" b ∨ in_range "__BSS2_START__" "__BSS2_END__" b → m' b = 0;
  mr_others b : ¬ in_range "__BSS_START__" "__BSS_END__" b → ¬ in_range "__BSS2_START__" "__BSS2_END__" b →
    ¬ in_range "early_page_table_start" "early_page_table_end" b → m' b = m b;
}.

(** Where the parts of the image are. *)
Lemma layout_facts :
  tables = sym "platform_normal_stacks" + STACK_SIZE ∧ sym "early_page_table_end" = sym "platform_normal_stacks" + core_count * STACK_SIZE ∧
  tables mod 4096 = 0 ∧ 0 ≤ sym "platform_normal_stacks" ∧ sym "early_page_table_end" ≤ 2 ^ 48 ∧ tables ≤ sym "early_page_table_end" ∧
  tables + size ≤ sym "early_page_table_end".
Proof using Hlay Het.
  destruct Hlay as [L1 L2 L3 L4 L5 L6 L7 L8 L9 L10]. destruct (stacks_then_tables _ core_count L3) as (E1 & E2 & E3).
  rewrite <-L4 in E1, E3. rewrite <-L5 in E2.
  pose proof (et_fit Het) as Hf. unfold early_page_tables_fit in Hf. apply Z.leb_le in Hf. unfold STACK_SIZE in *. lia.
Qed.
Lemma memory_of_cold_boot m m1 m2 m3 used :
  zeroed (sym "__BSS_START__") (sym "__BSS_END__") m m1 → zeroed (sym "__BSS2_START__") (sym "__BSS2_END__") m1 m2 →
  zeroed tables (sym "early_page_table_end") m2 m3 → size = used * 8 → Forall (sane (λ e, 0 ≤ e < used) used) ranges →
  (∀ x2 mem, 0 ≤ x2 → x2 mod 4096 = 0 → x2 + used * 8 ≤ 2 ^ 48 → holds x2 ranges (λ e, 0 ≤ e < used) mem →
      ∀ va, 0 ≤ va < 2 ^ 39 → walk mem WALK_SIZES x2 va = mapping_of regions va) →
  memory_ready m (store_writes (all_writes tables ranges) m3).
Proof using Hlay Het.
  intros Z1 Z2 Z3 Hsize Hsane Hwalk. destruct layout_facts as (Es & Ee & Hal & Hs0 & Hend & Hle & Hfit). destruct Hlay as [L1 L2 L3 L4 L5 L6 L7 L8 L9 L10].
  assert (0 ≤ tables ∧ tables + 8 * used ≤ 2 ^ 48) as [Ht0 Ht1] by (unfold STACK_SIZE in *; lia).
  assert (∀ b, ¬ in_range "early_page_table_start" "early_page_table_end" b → store_writes (all_writes tables ranges) m3 b = m2 b) as Hout.
  { intros b Hb. unfold in_range in Hb. rewrite (tables_frame ranges used) by (done || lia). rewrite (Z3 b). by rewrite bool_decide_false. }
  split.
  - apply Hwalk; [lia|done|lia|]. apply tables_hold; [done|done|done|]. intros b Hb. rewrite (Z3 b). by rewrite bool_decide_true by lia.
  - intros b Hb. rewrite Hout by (unfold in_range in *; unfold STACK_SIZE in *; lia). rewrite (Z2 b). case_bool_decide; [done|].
    rewrite (Z1 b), bool_decide_true; [done|]. unfold in_range in Hb. lia.
  - intros b H1 H2 H3. unfold in_range in H1, H2. rewrite Hout by done. rewrite (Z2 b), bool_decide_false, (Z1 b), bool_decide_false by done. done.
Qed.

(** The early page tables are built. *)
Lemma tables_step name prog rest used b m t s s1 Q :
  size = used * 8 → Forall (sane (λ e, 0 ≤ e < used) used) ranges → ranges ≠ [] → to boot_clobbers b m t s s1 →
  (∀ s', to boot_clobbers b (store_writes (all_writes tables ranges) m) (t ++ [EvIsb; EvDsb]) s s' →
     ends (λ fuel, benv (boot fuel) name) prog rest s' Q) →
  ends (λ fuel, benv (boot fuel) name) prog (Bl "init_early_page_tables" :: rest) s1 Q.
Proof using Hlay Het.
  intros Hsize Hsane Hne H1 HQ. destruct layout_facts as (Es & Ee & Hal & Hs0 & Hend & Hle & Hfit).
  eapply ends_bl; [intros; reflexivity|]. intros ra.
  destruct (init_tables_run (benv hooks "init_early_page_tables") ranges used (et_image Het) Hsane) with (s := set_x 30 ra s1)
    as (k & ex & (s2 & -> & Hm & Hb & Ht & Hx) & Hk); [cbn; unfold STACK_SIZE in *; lia|cbn; unfold STACK_SIZE in *; lia|done|].
  assert (to (seq 0 7) (c_sysregs (set_x 30 ra s1)) (store_writes (all_writes tables ranges) (c_mem (set_x 30 ra s1)))
    (c_trace (set_x 30 ra s1) ++ [EvIsb; EvDsb]) (set_x 30 ra s1) s2) as H2 by (by split).
  exists s2. split; [|called H1 H2; by apply HQ]. exists k. intros fuel Hf. left. split; [|apply Hx; clear; set_solver].
  specialize (Hk (fuel - k)%nat). replace (k + (fuel - k))%nat with fuel in Hk by lia. rewrite <-(et_count Het) in Hk. exact Hk.
Qed.
Lemma start_ctr data b : start_regs data b "ctr_el0" = b "ctr_el0".
Proof using Type. unfold start_regs. cbv zeta. by rewrite !fn_lookup_insert_ne, sctlr2_regs_other, fn_lookup_insert_ne by done. Qed.
Lemma invalidated_ext (b b' : Bank) lo hi evs : b "ctr_el0" = b' "ctr_el0" → invalidated b lo hi evs → invalidated b' lo hi evs.
Proof using Type. unfold invalidated. by intros ->. Qed.

(** The lines of the image are invalidated, and both BSS are cleared. *)
Lemma memory_phase name prog rest b m t s s1 Q :
  to boot_clobbers b m t s s1 →
  (∀ s' m1 m2 inv inv2, invalidated b (sym "__TEXT_START__") (sym "__BL31_END__") inv → invalidated b (sym "__BSS2_START__") (sym "__BSS2_END__") inv2 →
     zeroed (sym "__BSS_START__") (sym "__BSS_END__") m m1 → zeroed (sym "__BSS2_START__") (sym "__BSS2_END__") m1 m2 →
     to boot_clobbers b m2 ((t ++ inv) ++ inv2) s s' → ends (λ fuel, benv (boot fuel) name) prog rest s' Q) →
  ends (λ fuel, benv (boot fuel) name) prog (on_range "inv_dcache_range" "__TEXT_START__" "__BL31_END__" ++
    on_range "zeromem" "__BSS_START__" "__BSS_END__" ++ on_range "inv_dcache_range" "__BSS2_START__" "__BSS2_END__" ++
    on_range "zeromem" "__BSS2_START__" "__BSS2_END__" ++ rest) s1 Q.
Proof using Hlay Het.
  intros H1 HQ. destruct layout_facts as (Es & Ee & Hal & Hs0 & Hend & Hle & Hfit). pose proof Hlay as [L1 L2 L3 L4 L5 L6 L7 L8 L9 L10].
  eapply (invalidate_step _ _ s); [unfold STACK_SIZE in *; lia|lia|exact H1|]. intros s2 inv Hinv H2.
  eapply (zero_step _ _ s); [unfold STACK_SIZE in *; lia|unfold STACK_SIZE in *; lia|exact H2|]. intros s3 m1 Hz1 H3.
  eapply (invalidate_step _ _ s); [lia|lia|exact H3|]. intros s4 inv2 Hinv2 H4.
  eapply (zero_step _ _ s); [lia|lia|exact H4|]. intros s5 m2 Hz2 H5. by eapply HQ.
Qed.

(** C9: the primary core, if the platform knows its CPU, enters [bl31_main] after finitely
    many steps with the arguments of the boot loader before, and with everything set up
    that the Rust code relies on: besides what a warm boot sets up, the lines of the image
    and of the second BSS have been invalidated, both BSS are zero, and the MMU is enabled
    with early page tables whose walk in memory is the identity mapping of the platform's
    regions, executable and writable; the rest of the memory is as it was.  A CPU that is
    not known panics. *)
Theorem cold_boot_ready s :
  0 ≤ my_pos (c_sysregs s) < core_count →
  let run fuel := cold_boot assertions image sym xpac device ranges_count core_position hooks fuel s in
  ∃ N e, (if known (after_errata s).1
    then ∃ s', e = hooks "bl31_main" s' ∧ (∀ r, (r < 4)%nat → xr r s' = xr r s) ∧
      core_ready s tables (Z.lor SCTLR_M_BIT SCTLR_C_BIT) SCTLR_WXN_BIT (c_sysregs s') ∧ memory_ready (c_mem s) (c_mem s') ∧
      ∃ inv inv2, invalidated (at_reset s).1 (sym "__TEXT_START__") (sym "__BL31_END__") inv ∧
        invalidated (at_reset s).1 (sym "__BSS2_START__") (sym "__BSS2_END__") inv2 ∧
        c_trace s' = (at_reset s).2 ++ [EvIsb] ++ inv ++ inv2 ++ [EvIsb; EvDsb] ++ mmu_events
    else e = Panicked) ∧ ∀ fuel, (N ≤ fuel)%nat → run fuel = e.
Proof using Hboot CorePosition0 ResetLaws0 Hlay Het.
  intros Hpos run. destruct layout_facts as (Es & Ee & Hal & Hs0 & Hend & Hle & Hfit). pose proof Hlay as [L1 L2 L3 L4 L5 L6 L7 L8 L9 L10].
  destruct (early_ranges_built _ _ _ (et_regions Het) (et_ranges Het)) as (used & Hsize & Hne & Hsane & Hwalk).
  apply (ends_run (λ fuel, benv (boot fuel) "bl31_entrypoint") bl31_entrypoint s (λ e, if known _ then _ else _)).
  unfold bl31_entrypoint at 2. cbn [app]. do 4 ends_step. set (s0 := set_x 23 _ _).
  assert (after_errata s0 = after_errata s ∧ at_reset s0 = at_reset s ∧ c_sysregs s0 = c_sysregs s ∧ c_mem s0 = c_mem s) as (Ea & Er & Eb & Em).
  { unfold at_reset, after_errata, s0. by regs_simpl. }
  apply (start_ok _ _ _ s0); [by rewrite Eb|]. rewrite Ea, Er, Eb, Em. destruct (known _); [|done]. intros s1 H1.
  eapply (memory_phase _ _ _ _ _ _ s0); [exact H1|]. clear s1 H1. intros s1 m1 m2 inv inv2 Hinv Hinv2 Hz1 Hz2 H1. cbn [app].
  eapply ends_bl; [intros; reflexivity|]. intros ra.
  destruct (cold_boot_handler_ok assertions image sym xpac device ranges_count core_position hooks (set_x 30 ra s1)) as (s2 & Hr & ->).
  exists (set_x 30 ra s1). split; [exact Hr|]. clear Hr. apply (to_set_x _ _ _ _ _ _ 30 ra) in H1; [|reg_mem].
  eapply (stack_step _ _ s0); [by rewrite Eb| |exact H1|]; [rewrite Eb; apply start_mpidr|]. clear s1 ra H1. intros s1 H1. rewrite Eb in H1.
  eapply (zero_step _ _ s0); [unfold STACK_SIZE in *; lia|lia|exact H1|]. clear s1 H1. intros s1 m3 Hz3 H1.
  eapply (tables_step _ _ _ used _ _ _ s0); [done|done|done|exact H1|]. clear s1 H1. intros s1 H1. cbn [app]. ends_step.
  apply ends_mov_imm; [done|apply u64_lor; apply boot_bit_u64; clear; set_solver|]. intros s2 E1 Hm.
  assert (xr 0 s2 = tables) as E0 by (rewrite (mv_x _ _ _ Hm) by (clear; set_solver); by regs_simpl).
  apply (to_set_x _ _ _ _ _ _ 0 tables) in H1; [|reg_mem]. eapply (to_moved _ _ _ _ _ _ _ 1) in H1; [|reg_mem|exact Hm].
  ends_step. eapply (mmu_step _ _ s0); [apply to_set_x; [reg_mem|exact H1]|]. regs_simpl. rewrite E0, E1. clear s1 s2 H1 Hm E0 E1.
  intros s1 H1. do 4 ends_step. set (s2 := set_x 3 _ _). apply (ends_bsym _ _ _ _ s2 (hooks "bl31_main" s2)); [by exists 0%nat|].
  exists s2. split; [done|]. destruct H1 as [Hx Hb Hmem Ht]. split; [|split; [|split]].
  - intros r Hr. unfold s2. destruct r as [|[|[|[|r]]]]; [| | | |lia]; regs_simpl; rewrite Hx by reg_mem; unfold s0; by regs_simpl.
  - unfold s2. regs_simpl. rewrite Hb. apply final_ready.
  - unfold s2. regs_simpl. rewrite Hmem. by eapply memory_of_cold_boot.
  - exists inv, inv2. split; [|split]; [by eapply invalidated_ext; [apply start_ctr|]..|]. unfold s2. regs_simpl. rewrite Ht. by rewrite <-!app_assoc.
Qed.
End Cold.
End Entry.
