(* ===== verification/BootPlatform.v ===== *)
(** * The CPU at reset, and the stacks of a platform

    The errata framework and the reset handlers meet what the entry points rely on, and the
    stack of the core that boots is apart from the early page tables exactly if the core
    has position zero. *)

From Stdlib Require Import ZArith Lia.
From stdpp Require Import base list numbers option functions strings sets.
From S2P Require Import Prelude Smccc Services Context Asm AsmProps AsmWords ContextAsm MemAsm MemAsmProps CacheAsmProps EarlyPagetable Cpu ErrataProps CpuProps CrashAsm CrashProps CrashConsole CrashConsoleProps Platforms BootAsm BootProps BootEntry.
Open Scope rust_scope.
Open Scope string_scope.
Open Scope list_scope.
Open Scope Z_scope.

(** ** Registers that a program does not write *)
Definition leaves_reg (r : SysReg) (i : Instr) : bool :=
  match i with
  | Msr q _ | MsrI q _ => negb (String.eqb q r)
  | DaifClr _ => negb (String.eqb "daif" r)
  | SetSp _ => negb (String.eqb "sp_el0" r) && negb (String.eqb "sp_el3" r)
  | _ => true
  end.
Lemma exec_leaves env r i s : leaves_reg r i = true → c_sysregs (exec_instr env i s) r = c_sysregs s r.
Proof.
  assert (∀ q v, negb (String.eqb q r) = true → <[q := v]> (c_sysregs s) r = c_sysregs s r) as Hins.
  { intros q v Hq%negb_true_iff%String.eqb_neq. by apply fn_lookup_insert_ne. }
  destruct i; cbn [leaves_reg exec_instr]; intros Hr; rewrite ?set_x_sysregs; try done; try (by apply Hins).
  apply andb_true_iff in Hr as [H0 H3]. cbn [set_sysreg c_sysregs]. unfold sp_reg. case_match; by apply Hins.
Qed.
(** A program that calls nothing. *)
Lemma run_leaves r prog fuel pc s s' :
  forallb (leaves_reg r) prog = true → exec fuel no_env prog pc s = Returned s' → c_sysregs s' r = c_sysregs s r.
Proof.
  intros Hp. revert pc s. induction fuel as [|fuel IH]; intros pc s; [done|]. rewrite exec_S.
  destruct (prog !! pc) as [i|] eqn:Hi; [|done].
  assert (leaves_reg r i = true) as Hr.
  { rewrite List.forallb_forall in Hp. apply Hp, list_elem_of_In. by eapply list_elem_of_lookup_2. }
  destruct i; try discriminate; try (by apply IH); try (intros Hrun%IH; rewrite Hrun; by apply exec_leaves). by intros [= ->].
Qed.
Definition leaves_kept (prog : list Instr) : bool := forallb (λ r, forallb (leaves_reg r) prog) kept_regs.
Lemma effect_keeps prog bt r : leaves_kept prog = true → r ∈ kept_regs → (asm_effect prog bt).1 r = bt.1 r.
Proof.
  intros Hp Hr. unfold leaves_kept in Hp. rewrite List.forallb_forall in Hp. specialize (Hp r (proj1 (list_elem_of_In _ _) Hr)).
  unfold asm_effect. destruct (run_asm no_env prog (fresh_cpu bt.1 bt.2)) eqn:E; try done. by apply (run_leaves r) in E.
Qed.

(** ** The errata and the operations of the CPUs *)
Section Reset.
Context (image : Z → Z → Z) (sym : string → Z) (xpac : Z → Z) (device : list CpuEvent → Z → Z).
Context (code : Z → CpuState → Exit) (calls : string → CpuState → Exit).
Context (errata : list ErratumEntry) (ops : list CpuOps).
Context (cpu_ops_size midr_offset reset_handler_offset : Z) (check_at workaround_at reset_at : nat → Z).
Let renv := reset_env image sym xpac device code calls ops cpu_ops_size midr_offset.

(** What the image holds, and what the errata and the CPUs are checked for. *)
Record cpus_ok : Prop := {
  ck_errata : entries_in_memory (renv "apply_reset_errata") (sym "ERRATA_LIST") errata check_at workaround_at;
  ck_errata_ok : Forall erratum_ok errata;
  ck_errata_addr : 0 ≤ sym "ERRATA_LIST" ∧ sym "ERRATA_LIST" + ERRATUM_ENTRY_SIZE * Z.of_nat (length errata) < 2 ^ 64;
  ck_errata_keep : Forall (λ e, leaves_kept (workaround e) = true) errata;
  ck_ops : ops_table (renv "cpu_reset_handler") (sym "CPU_OPS") cpu_ops_size midr_offset ops;
  ck_resets : ops_in_memory (renv "cpu_reset_handler") (sym "CPU_OPS") cpu_ops_size ops reset_handler_offset reset_at;
  ck_resets_ok : Forall (λ op, asm_ok (seq 0 19) (reset_handler op)) ops;
  ck_resets_keep : Forall (λ op, leaves_kept (reset_handler op) = true) ops;
}.
Context (Hok : cpus_ok).
(** The CPU that runs. *)
Definition this_cpu (b : Bank) : option CpuOps := List.find (λ op, has_matching_midr op (b "midr_el1")) ops.
Definition reset_effect (bt : Bank * list CpuEvent) : Bank * list CpuEvent :=
  match this_cpu bt.1 with Some op => asm_effect (reset_handler op) bt | None => bt end.
Definition known_cpu (b : Bank) : bool := match this_cpu b with Some _ => true | None => false end.

Lemma this_cpu_in b op : this_cpu b = Some op → op ∈ ops.
Proof using Type. intros [E _]%List.find_some. by apply list_elem_of_In. Qed.
Lemma reset_errata_keeps l bt r :
  Forall (λ e, leaves_kept (workaround e) = true) l → r ∈ kept_regs → (reset_errata l bt).1 r = bt.1 r.
Proof using Type.
  intros Hl Hr. revert bt. induction Hl as [|e l He Hl IH]; intros bt; [done|]. cbn [reset_errata foldl].
  fold (reset_errata l). etrans; [apply IH|]. repeat case_match; try done. by apply effect_keeps.
Qed.
Lemma reset_calls_laws :
  ResetLaws (reset_calls image sym xpac device code calls errata ops cpu_ops_size midr_offset reset_handler_offset)
    (reset_errata errata) reset_effect known_cpu.
Proof using Hok.
  split.
  - intros s. destruct (apply_reset_errata_run _ _ _ _ _ (ck_errata Hok) (ck_errata_ok Hok) (ck_errata_addr Hok) s (12 * length errata + 7)) as (s' & Hr & Hbt & Hm & H30 & Hx); [done|].
    exists s'. split; [exact Hr|]. do 2 (split; [done|]). intros r Hr'. apply Hx. intros Hin. apply Hr'. rewrite elem_of_seq in *. lia.
  - intros s. pose proof (cpu_reset_handler_run _ _ _ _ _ (ck_ops Hok) _ _ (ck_resets Hok) s (ck_resets_ok Hok)) as Hrun.
    rewrite cpu_reset_handler_eq in Hrun. unfold known_cpu, resets, reset_effect. cbn [fst]. fold (this_cpu (c_sysregs s)) in Hrun.
    destruct (this_cpu (c_sysregs s)) as [op|] eqn:E; [|exact Hrun].
    pose proof (ck_resets_ok Hok) as Hr. rewrite Forall_forall in Hr. destruct (Hr op (this_cpu_in _ _ E) s) as (s' & Hs' & Hbt & _).
    rewrite Hs' in Hrun. destruct Hrun as (s1 & Hr1 & Eb & Et & Em & Hx). exists s1. split; [exact Hr1|]. by rewrite Eb, Et, Hbt.
  - intros bt r Hr. apply reset_errata_keeps; [apply (ck_errata_keep Hok)|done].
  - intros bt r Hr. unfold reset_effect. destruct (this_cpu bt.1) as [op|] eqn:E; [|done]. apply effect_keeps; [|done].
    pose proof (ck_resets_keep Hok) as Hk. rewrite Forall_forall in Hk. apply Hk. by eapply this_cpu_in.
Qed.
End Reset.

(** ** Stacks *)
(** The early page tables lie in the stacks of the cores with other positions than zero, so
    the core that boots has a stack of its own exactly if its position is zero. *)
Lemma boot_stack_apart `{BootConsts} sym pos core_count b :
  image_layout sym core_count → pos_ok pos core_count b →
  let stack a := stack_top sym pos b - STACK_SIZE ≤ a < stack_top sym pos b in
  (∀ a, stack a → ¬ sym "early_page_table_start" ≤ a < sym "early_page_table_end") ↔ my_pos pos b = 0.
Proof.
  intros [L1 L2 L3 L4 L5 L6 L7 L8 L9 L10] Hpos stack. destruct (stacks_then_tables _ core_count L3) as (E1 & E2 & _).
  rewrite <-L4 in E1. rewrite <-L5 in E2. unfold pos_ok, stack, stack_top, STACK_SIZE in *. rewrite E1, E2. split.
  - intros Ha. destruct (decide (my_pos pos b = 0)) as [|Hne]; [done|]. exfalso.
    apply (Ha (sym "platform_normal_stacks" + 0x2000 * my_pos pos b)); lia.
  - intros -> a Ha. lia.
Qed.
