(* ===== verification/BootSample.v ===== *)
(** * QEMU boots

    The image of QEMU at the addresses of its build script, with the CPU, the errata and
    the early mapping of the platform, and its cores at reset. *)

From Stdlib Require Import ZArith Lia.
From stdpp Require Import base list numbers option functions strings sets.
From S2P Require Import Prelude Smccc Psci Services Context Asm AsmProps AsmWords ContextAsm MemAsm MemAsmProps CacheAsmProps EarlyPagetable EarlyPagetableProofs EarlyPagetableProps Cpu ErrataProps CpuProps CrashAsm CrashProps CrashConsole CrashConsoleProps Platforms Sample BootAsm EarlyTablesAsm BootProps BootEntry BootPlatform.
Open Scope rust_scope.
Open Scope string_scope.
Open Scope list_scope.
Open Scope Z_scope.

(** The bits of the architecture. *)
#[local] Instance arm_boot : BootConsts := {|
  SCTLR_M_BIT := 2 ^ 0; SCTLR_C_BIT := 2 ^ 2; SCTLR_WXN_BIT := 2 ^ 19; SCTLR_IESB_BIT := 2 ^ 21; SCTLR_A_BIT := 2 ^ 1;
  SCTLR_SA_BIT := 2 ^ 3; SCTLR_I_BIT := 2 ^ 12; Dit_DIT := 2 ^ 24; SCTLRX_SHIFT := 4; SCTLRX_MASK := 0xf; TTBR0_EL3_CNP_BIT := 1;
  Mair_EMPTY := 0; with_attribute m i a := insert_bits m a (8 * i) 8; MAIR_DEVICE := 4; MAIR_NON_CACHEABLE := 0x44;
  NORMAL_MEMORY_MAIR_ATTRIBUTE := 0xff; CPU_DATA_SIZE := 0x400 |}.
#[local] Instance arm_boot_laws : BootLaws.
Proof. split. repeat (apply List.Forall_cons; [vm_compute; split; [discriminate|reflexivity]|]). exact (List.Forall_nil _). Qed.

Definition boot_regions : list EarlyRegion := qemu_early_regions 0x711 0x40000000000605.
Definition boot_ranges : list DescriptorRange :=
  Eval vm_compute in match define_early_mapping boot_regions with Done (ranges, _) => ranges | Panic => [] end.
Definition boot_tables_size : Z :=
  Eval vm_compute in match define_early_mapping boot_regions with Done (_, size) => size | Panic => 0 end.

Definition boot_symbols : list (string * Z) :=
  [("__TEXT_START__", 0x0e090000); ("runtime_exceptions", 0x0e091000); ("EARLY_PAGE_TABLE_RANGES", 0x0e0b0000); ("CPU_OPS", 0x0e0b1000);
   ("ERRATA_LIST", 0x0e0b2000); ("__BSS_START__", 0x0e0c0000); ("PAGE_TABLE_ADDR", 0x0e0c0100); ("PERCPU_DATA", 0x0e0c1000);
   ("__BSS_END__", 0x0e0d0000); ("platform_normal_stacks", 0x0e0e0000); ("early_page_table_start", 0x0e0e2000);
   ("early_page_table_end", 0x0e0e8000); ("__BL31_END__", 0x0e0e8000); ("__BSS2_START__", 0x0e0ff000); ("__BSS2_END__", 0x0e100000)].
Fixpoint symbol (l : list (string * Z)) (f : string) : Z :=
  match l with [] => 0x0e092000 | (g, a) :: l => if String.eqb f g then a else symbol l f end.
Definition boot_sym : string → Z := symbol boot_symbols.
(** The ranges of the early mapping, and the operations of the only CPU. *)
Definition boot_image (size a : Z) : Z :=
  if a <? 0x0e0b1000 then
    match boot_ranges !! Z.to_nat ((a - 0x0e0b0000) / 24) with
    | Some r => let o := (a - 0x0e0b0000) mod 24 in if o =? 0 then index r else if o =? 8 then step_count r else value r
    | None => 0
    end
  else if size =? 4 then as_u32 (midr QemuMax) else 0x0e093000.
Definition boot_device (t : list CpuEvent) (a : Z) : Z := 0.
(** The main functions leave EL3. *)
Definition boot_mains (f : string) (s : CpuState) : Exit := if String.eqb f "el3_panic" then Panicked else Left s.
Definition qemu_boot_hooks : string → CpuState → Exit :=
  reset_calls boot_image boot_sym (λ x, x) boot_device (λ _ s, Returned s) boot_mains [] QEMU_CPU_OPS 48 0 8.
Definition qemu_known : Bank → bool := known_cpu QEMU_CPU_OPS.

Lemma qemu_cpus : cpus_ok boot_image boot_sym (λ x, x) boot_device (λ _ s, Returned s) boot_mains [] QEMU_CPU_OPS 48 0 8
  (λ _, 0) (λ _, 0) (λ _, 0x0e093000).
Proof.
  split; [intros [|i] e; discriminate|exact (List.Forall_nil _)|done|exact (List.Forall_nil _)| | | |].
  - split; [by intros [|i] op Hi; [injection Hi as <-|]|done|by apply Forall_singleton|done].
  - split; [|done]. by intros [|i] op Hi; [injection Hi as <-|].
  - apply Forall_singleton. by apply straight_ok.
  - by apply Forall_singleton.
Qed.
#[local] Instance qemu_reset_laws : ResetLaws qemu_boot_hooks (reset_errata []) (reset_effect QEMU_CPU_OPS) qemu_known :=
  reset_calls_laws _ _ _ _ _ _ _ _ _ _ _ _ _ _ qemu_cpus.
Lemma qemu_layout : image_layout boot_sym 4.
Proof. by split; vm_compute; repeat split; try discriminate; left. Qed.
Lemma qemu_tables : early_tables_ok boot_image boot_sym (λ x, x) boot_device 4 qemu_boot_hooks 4 boot_regions boot_ranges boot_tables_size.
Proof.
  split; [by vm_compute|by vm_compute|by vm_compute|done|]. split; [done|]. split; [done|].
  intros [|[|[|[|i]]]] r Hi; try discriminate; injection Hi as <-; by vm_compute.
Qed.

(** Cores at reset: the first core, and the second with the page tables of the runtime at
    the start of BSS. *)
#[local] Existing Instance sample_mpidr.
Definition qemu_core (mpidr : Z) (m : Z → Z) : CpuState :=
  mkCpu (λ r, Z.of_nat r) (0, 0) (<["midr_el1" := 0x000f0510]> (<["mpidr_el1" := mpidr]> (<["sctlr_el3" := 0x30c50830]> (<["ctr_el0" := 0x8444c004]> (λ _, 0))))) [] m.
Definition qemu_cold (fuel : nat) : CpuState → Exit :=
  cold_boot true boot_image boot_sym (λ x, x) boot_device 4 qemu_core_position_asm qemu_boot_hooks fuel.
Definition qemu_warm (fuel : nat) : CpuState → Exit :=
  warm_boot true boot_image boot_sym (λ x, x) boot_device 4 qemu_core_position_asm qemu_boot_hooks fuel.

(** The first core of QEMU reaches [bl31_main] with its MMU on, and an address of its UART is
    mapped to itself. *)
Lemma cold_boot_ready_witness :
  ∃ N s', (∀ fuel, (N ≤ fuel)%nat → qemu_cold fuel (qemu_core 0x80000000 (λ _, 0xa5)) = Left s') ∧
    xr 3 s' = 3 ∧ c_sysregs s' "sctlr_el3" = 0x30e5183f ∧ c_sysregs s' "sp_el0" = 0x0e0e2000 ∧ c_mem s' 0x0e0c0100 = 0 ∧ c_mem s' 0x0e090000 = 0xa5 ∧
    walk (λ a, mem_load64 a (c_mem s')) WALK_SIZES 0x0e0e2000 0x09000018 = Some (0x09000018, 0x40000000000604).
Proof.
  destruct (cold_boot_ready true boot_image boot_sym (λ x, x) boot_device 4 qemu_core_position_asm qemu_core_position qemu_boot_hooks
    (reset_errata []) (reset_effect QEMU_CPU_OPS) qemu_known 4 qemu_layout boot_regions boot_ranges boot_tables_size qemu_tables
    (qemu_core 0x80000000 (λ _, 0xa5))) as (N & e & He & Hrun); [by vm_compute|].
  match type of He with if ?k then _ else _ => change k with true in He end. cbv beta iota in He.
  destruct He as (s' & -> & Hx & Hready & [Hw Hbss Hrest] & _). exists N, s'. split; [exact Hrun|]. split; [by rewrite Hx by lia|].
  split; [rewrite (rd_sctlr _ _ _ _ _ _ _ _ _ Hready); by vm_compute|]. split; [rewrite (proj2 (rd_stack _ _ _ _ _ _ _ _ _ Hready)); by vm_compute|].
  split; [apply Hbss; left; vm_compute; split; [discriminate|reflexivity]|].
  split; [rewrite Hrest; [done|vm_compute; intros [? ?]; (done || congruence)..]|].
  etrans; [exact (Hw 0x09000018 ltac:(lia))|]. by vm_compute.
Defined.

(** The second core of QEMU reaches [psci_warmboot_entrypoint] with the page tables of the
    runtime, and a stack of its own. *)
Lemma warm_boot_ready_witness :
  let m := mem_store 8 0x0e0c0100 0x0e0c8000 (λ _, 0) in
  ∃ N s', (∀ fuel, (N ≤ fuel)%nat → qemu_warm fuel (qemu_core 0x80000001 m) = Left s') ∧
    c_sysregs s' "ttbr0_el3" = 0x0e0c8001 ∧ c_sysregs s' "sctlr_el3" = 0x30ed183f ∧ c_sysregs s' "sp_el0" = 0x0e0e4000 ∧
    c_sysregs s' "tpidr_el3" = 0x0e0c1400 ∧ c_mem s' = m.
Proof.
  intros m.
  destruct (warm_boot_ready true boot_image boot_sym (λ x, x) boot_device 4 qemu_core_position_asm qemu_core_position qemu_boot_hooks
    (reset_errata []) (reset_effect QEMU_CPU_OPS) qemu_known 4 qemu_layout (qemu_core 0x80000001 m)) as (N & e & He & Hrun); [by vm_compute|].
  match type of He with if ?k then _ else _ => change k with true in He end. cbv beta iota in He.
  destruct He as (s' & -> & Hready & Hm & _). exists N, s'. split; [exact Hrun|].
  split; [rewrite (proj1 (rd_mmu _ _ _ _ _ _ _ _ _ Hready)); by vm_compute|]. split; [rewrite (rd_sctlr _ _ _ _ _ _ _ _ _ Hready); by vm_compute|].
  split; [rewrite (proj2 (rd_stack _ _ _ _ _ _ _ _ _ Hready)); by vm_compute|]. split; [rewrite (rd_data _ _ _ _ _ _ _ _ _ Hready); by vm_compute|exact Hm].
Defined.
