(* ===== verification/Logger.v ===== *)
(** * Logging

    [src/logger/inmemory.rs]: the circular buffer of the in-memory logger, one for
    each core, with the UTF-8 validation of the Rust library that [as_str] uses;
    and the sinks of [src/logger.rs]. *)

From Stdlib Require Import ZArith Lia.
From stdpp Require Import base list numbers option.
From S2P Require Import Prelude.
Open Scope rust_scope.
Open Scope nat_scope.

(** ** UTF-8 in the Rust library *)

(** [char]: a Unicode scalar value. *)
Definition is_char (c : Z) : bool :=
  ((0 <=? c) && (c <? 0xD800) || (0xE000 <=? c) && (c <? 0x110000))%Z.

(** [char::encode_utf8] *)
Definition encode_utf8 (c : Z) : list Z :=
  (if c <? 0x80 then [c]
   else if c <? 0x800 then [0xC0 + c / 64; 0x80 + c mod 64]
   else if c <? 0x10000 then [0xE0 + c / 4096; 0x80 + c / 64 mod 64; 0x80 + c mod 64]
   else [0xF0 + c / 262144; 0x80 + c / 4096 mod 64; 0x80 + c / 64 mod 64; 0x80 + c mod 64])%Z.

(** [str::as_bytes] of a string of characters. *)
Definition as_bytes (s : list Z) : list Z := s ≫= encode_utf8.

Definition between (lo hi b : Z) : bool := ((lo <=? b) && (b <=? hi))%Z.

(** A continuation byte, [b as i8 < -64]. *)
Definition is_continuation : Z → bool := between 0x80 0xBF.

(** [utf8_char_width] *)
Definition utf8_char_width (b : Z) : nat :=
  if between 0 0x7F b then 1
  else if between 0xC2 0xDF b then 2
  else if between 0xE0 0xEF b then 3
  else if between 0xF0 0xF4 b then 4
  else 0.

(** The second byte of a character of three or four bytes. *)
Definition second_of_3 (first next : Z) : bool :=
  if Z.eqb first 0xE0 then between 0xA0 0xBF next
  else if between 0xE1 0xEC first then is_continuation next
  else if Z.eqb first 0xED then between 0x80 0x9F next
  else is_continuation next.
Definition second_of_4 (first next : Z) : bool :=
  if Z.eqb first 0xF0 then between 0x90 0xBF next
  else if between 0xF1 0xF3 first then is_continuation next
  else between 0x80 0x8F next.

(** One round of [run_utf8_validation]: the rest of the bytes, or [error_len]. *)
Definition utf8_step (v : list Z) : result (list Z) (option nat) :=
  match v with
  | [] => Ok []
  | first :: v =>
      match utf8_char_width first, v with
      | 1, v => Ok v
      | 2, [] => Err None
      | 2, b :: v => if is_continuation b then Ok v else Err (Some 1)
      | 3, [] => Err None
      | 3, b :: v =>
          if second_of_3 first b then
            match v with
            | [] => Err None
            | b :: v => if is_continuation b then Ok v else Err (Some 2)
            end
          else Err (Some 1)
      | 4, [] => Err None
      | 4, b :: v =>
          if second_of_4 first b then
            match v with
            | [] => Err None
            | b :: v =>
                if is_continuation b then
                  match v with
                  | [] => Err None
                  | b :: v => if is_continuation b then Ok v else Err (Some 3)
                  end
                else Err (Some 2)
            end
          else Err (Some 1)
      | _, _ => Err (Some 1)
      end
  end.

(** [str::from_utf8], with [error_len] of its error.  Each round takes a byte at
    least, so that the length of the slice is enough fuel. *)
Fixpoint utf8_loop (fuel : nat) (v : list Z) : result unit (option nat) :=
  match v, fuel with
  | [], _ => Ok tt
  | _, 0 => Err None
  | _, S fuel =>
      match utf8_step v with
      | Ok v => utf8_loop fuel v
      | Err e => Err e
      end
  end.
Definition from_utf8 (v : list Z) : result unit (option nat) := utf8_loop (length v) v.

(** ** Slices *)

(** [self[a..b].copy_from_slice(src)] *)
Definition copy_range {A} (l : list A) (a b : nat) (src : list A) : outcome (list A) :=
  old ← slice l a b;
  _ ← assert_ (bool_decide (length src = length old));
  mret (take a l ++ src ++ drop b l).
(** [self.rotate_left(mid)] *)
Definition rotate_left {A} (mid : nat) (l : list A) : outcome (list A) :=
  _ ← assert_ (bool_decide (mid ≤ length l));
  mret (drop mid l ++ take mid l).

(** Checked addition of [usize]. *)
Definition checked_add (a b : nat) : outcome nat :=
  if (Z.of_nat (a + b) <? 2 ^ 64)%Z then Done (a + b) else Panic.
(** The remainder, which panics for a zero divisor. *)
Definition checked_rem (a b : nat) : outcome nat :=
  if decide (b = 0) then Panic else Done (a mod b).

(** ** The circular buffer *)
Record MemoryLogger : Type := mkLogger {
  next_offset : nat;
  logged_bytes_count : nat;
  buffer : list Z;
}.

Section MemoryLogger.
Context (BUFFER_SIZE : nat).

Definition logger_new : MemoryLogger := mkLogger 0 0 (replicate BUFFER_SIZE 0%Z).

Definition logger_reset (self : MemoryLogger) : MemoryLogger := mkLogger 0 0 (buffer self).

Definition add_bytes (bytes : list Z) (self : MemoryLogger) : outcome MemoryLogger :=
  logged_bytes_count ← checked_add (logged_bytes_count self) (length bytes);
  bytes ← (if decide (BUFFER_SIZE < length bytes)
           then slice bytes (length bytes - BUFFER_SIZE) (length bytes)
           else mret bytes);
  room ← checked_sub BUFFER_SIZE (next_offset self);
  let buffer_end_len := length bytes `min` room in
  first ← slice bytes 0 buffer_end_len;
  buffer ← copy_range (buffer self) (next_offset self) (next_offset self + buffer_end_len) first;
  rest_len ← checked_sub (length bytes) buffer_end_len;
  rest ← slice bytes buffer_end_len (length bytes);
  buffer ← copy_range buffer 0 rest_len rest;
  next_offset ← checked_rem (next_offset self + length bytes) BUFFER_SIZE;
  mret (mkLogger next_offset logged_bytes_count buffer).

Definition shift_to_start (self : MemoryLogger) : outcome MemoryLogger :=
  if decide (logged_bytes_count self < BUFFER_SIZE) then mret self
  else
    buffer ← rotate_left (next_offset self) (buffer self);
    mret (mkLogger 0 (logged_bytes_count self) buffer).

(** The loop of [as_str] drops at least one byte in each round. *)
Fixpoint as_str_loop (fuel : nat) (current : list Z) : outcome (list Z) :=
  match fuel with
  | 0 => Panic
  | S fuel =>
      match from_utf8 current with
      | Ok _ => mret current
      | Err (Some len) => current ← slice current len (length current); as_str_loop fuel current
      | Err None => mret []
      end
  end.

Definition as_str (self : MemoryLogger) : outcome (list Z * MemoryLogger) :=
  self ← shift_to_start self;
  current ← slice (buffer self) 0 (BUFFER_SIZE `min` logged_bytes_count self);
  str ← as_str_loop (S (length current)) current;
  mret (str, self).

(** [write_str], for a string of characters. *)
Definition write_str (s : list Z) : MemoryLogger → outcome MemoryLogger := add_bytes (as_bytes s).
End MemoryLogger.

(** ** Sinks *)

(** [LogSink] on a state.  The arguments of a message are formatted to a sequence
    of strings, which [core::fmt] writes one after the other. *)
Record LogSink (St : Type) : Type := mkLogSink {
  write_fmt : list (list Z) → M St unit;
  flush : M St unit;
}.
Arguments mkLogSink {St}.
Arguments write_fmt {St}.
Arguments flush {St}.

(** [PerCoreMemoryLogger]: the core [me] writes to its own logger.  Flushing the
    data cache does not change the contents. *)
Definition PerCoreMemoryLogger (BUFFER_SIZE me : nat) : LogSink (list MemoryLogger) :=
  mkLogSink
    (λ args, logs ← get;
      self ← lift (arr_get logs me);
      self ← lift (fold_outcome (λ self s, write_str BUFFER_SIZE s self) self args);
      modify (<[me := self]>))
    (logs ← get; _ ← lift (arr_get logs me); mret tt).

(** [HybridLogger] *)
Record HybridState (P S : Type) : Type := mkHybrid {
  primary : P;
  secondary : S;
  secondary_enabled : bool;
}.
Arguments mkHybrid {P S}.
Arguments primary {P S}.
Arguments secondary {P S}.
Arguments secondary_enabled {P S}.

Section Hybrid.
Context {P S : Type} (p : LogSink P) (s : LogSink S).

Definition on_primary {A} (m : M P A) : M (HybridState P S) A := λ h,
  match m (primary h) with
  | Ret a x => Ret a (mkHybrid x (secondary h) (secondary_enabled h))
  | Halt x => Halt (mkHybrid x (secondary h) (secondary_enabled h))
  | Crash => Crash
  end.
Definition on_secondary {A} (m : M S A) : M (HybridState P S) A := λ h,
  match m (secondary h) with
  | Ret a x => Ret a (mkHybrid (primary h) x (secondary_enabled h))
  | Halt x => Halt (mkHybrid (primary h) x (secondary_enabled h))
  | Crash => Crash
  end.

Definition hybrid_new (x : P) (y : S) : HybridState P S := mkHybrid x y true.
Definition enable_secondary (enable : bool) : M (HybridState P S) unit :=
  modify (λ h, mkHybrid (primary h) (secondary h) enable).
Definition HybridLogger : LogSink (HybridState P S) :=
  mkLogSink
    (λ args, _ ← on_primary (write_fmt p args);
      h ← get;
      if secondary_enabled h then on_secondary (write_fmt s args) else mret tt)
    (_ ← on_primary (flush p); on_secondary (flush s)).
End Hybrid.
