(* ===== verification/LoggerProps.v ===== *)
(** * The properties of the in-memory logger

    The circular buffer holds the last bytes of what was logged, and [as_str]
    gives the longest suffix of whole characters that is still there. *)

From Stdlib Require Import ZArith Lia.
From stdpp Require Import base list numbers option.
From S2P Require Import Prelude Logger.
Open Scope rust_scope.
Open Scope nat_scope.

(** ** Windows on a list *)

(** The last [n] elements. *)
Definition last_n {A} (n : nat) (l : list A) : list A := drop (length l - n) l.
(** A circular buffer read from position [n]. *)
Definition rot {A} (n : nat) (l : list A) : list A := drop n l ++ take n l.

Section Windows.
Context {A : Type}.
Implicit Types l k : list A.

Lemma length_last_n n l : length (last_n n l) = n `min` length l.
Proof. unfold last_n. rewrite length_drop. lia. Qed.
Lemma last_n_all n l : length l ≤ n → last_n n l = l.
Proof. intros. unfold last_n. by replace (length l - n) with 0 by lia. Qed.
Lemma last_n_app_r n l k : n ≤ length k → last_n n (l ++ k) = last_n n k.
Proof.
  intros. unfold last_n. rewrite length_app.
  replace (length l + length k - n) with (length l + (length k - n)) by lia.
  by rewrite drop_app_add.
Qed.
Lemma last_n_app_l n l k : length k ≤ n → last_n n (l ++ k) = last_n (n - length k) l ++ k.
Proof.
  intros. unfold last_n. rewrite length_app, drop_app.
  replace (length l + length k - n) with (length l - (n - length k)) by lia.
  f_equal. by replace (length l - (n - length k) - length l) with 0 by lia.
Qed.
Lemma drop_last_n n m l : m ≤ n → n ≤ length l → drop m (last_n n l) = last_n (n - m) l.
Proof. intros. unfold last_n. rewrite drop_drop. f_equal. lia. Qed.

(** Adding to a window that is full. *)
Lemma window_add n l k :
  n ≤ length l → drop (length (last_n n k)) (last_n n l) ++ last_n n k = last_n n (l ++ k).
Proof.
  intros Hn. rewrite length_last_n, drop_last_n by lia.
  destruct (decide (n ≤ length k)) as [Hk|Hk].
  - rewrite last_n_app_r by done. replace (n - n `min` length k) with 0 by lia.
    unfold last_n at 1. rewrite Nat.sub_0_r. by rewrite drop_all.
  - rewrite (last_n_app_l n l k), (last_n_all n k) by lia. do 2 f_equal. lia.
Qed.

Lemma length_rot n l : length (rot n l) = length l.
Proof. unfold rot. rewrite length_app, length_drop, length_take. lia. Qed.
Lemma rot_0 l : rot 0 l = l.
Proof. unfold rot. by rewrite app_nil_r. Qed.

(** The buffer after [k] was written at position [n] and wrapped around. *)
Lemma rot_write n l k :
  n < length l → length k ≤ length l →
  let e := length k `min` (length l - n) in
  let l1 := take n l ++ take e k ++ drop (n + e) l in
  let l2 := drop e k ++ drop (length k - e) l1 in
  rot ((n + length k) mod length l) l2 = drop (length k) (rot n l) ++ k.
Proof.
  intros Hn Hk e l1 l2. unfold rot.
  destruct (decide (n + length k < length l)) as [Hc|Hc].
  - assert (e = length k) as He by lia. unfold l2, l1. rewrite He, Nat.sub_diag, drop_0.
    rewrite drop_all, (take_ge k) by lia. simpl. rewrite Nat.mod_small by lia.
    rewrite drop_app_ge, take_app_ge by (rewrite length_take; lia). rewrite length_take.
    replace (n + length k - n `min` length l) with (length k) by lia.
    rewrite drop_app_length, take_app_length. rewrite drop_app_le by (rewrite length_drop; lia).
    by rewrite drop_drop, <-app_assoc.
  - assert (e = length l - n) as He by lia.
    assert ((n + length k) mod length l = length k - e) as ->.
    { rewrite He. symmetry. apply (Nat.mod_unique _ _ 1); lia. }
    assert (length (drop e k) = length k - e) as Hlen by (by rewrite length_drop).
    unfold l2. rewrite <-Hlen, drop_app_length, take_app_length, Hlen. unfold l1.
    rewrite (drop_ge l (n + e)), app_nil_r by lia.
    rewrite (drop_app_le (take n l)) by (rewrite length_take; lia).
    rewrite (drop_app_ge (drop n l)) by (rewrite length_drop; lia). rewrite length_drop.
    rewrite <-app_assoc, take_drop. do 2 f_equal. lia.
Qed.
End Windows.

(** ** The circular buffer *)
Section Buffer.
Context (size : nat).

(** [log] is what was logged since the logger was created or reset; [g] is what was
    in the buffer then. *)
Record holds (self : MemoryLogger) (log : list Z) : Prop := mkHolds {
  holds_size : 0 < size;
  holds_length : length (buffer self) = size;
  holds_count : logged_bytes_count self = length log;
  holds_offset : next_offset self < size;
  holds_window : ∃ g, length g = size ∧ rot (next_offset self) (buffer self) = last_n size (g ++ log);
  holds_short : length log < size → next_offset self = length log;
}.

Lemma new_holds : 0 < size → holds (logger_new size) [].
Proof.
  intros Hs. split; simpl; try done; [by rewrite length_replicate|].
  exists (replicate size 0%Z). rewrite length_replicate, app_nil_r, rot_0.
  split; [done|]. by rewrite last_n_all by (rewrite length_replicate; lia).
Qed.
Lemma reset_holds self log : holds self log → holds (logger_reset self) [].
Proof.
  intros [Hs Hl _ _ _ _]. split; simpl; try done. exists (buffer self).
  rewrite app_nil_r, rot_0. split; [done|]. by rewrite last_n_all by lia.
Qed.

Lemma copy_range_done {A} (l : list A) a b src :
  a ≤ b ≤ length l → length src = b - a → copy_range l a b src = Done (take a l ++ src ++ drop b l).
Proof.
  intros Hb Hsrc. unfold copy_range. rewrite (proj2 (slice_Done l a b _) (conj Hb eq_refl)).
  cbv [mbind outcome_bind]. rewrite length_take, length_drop.
  rewrite bool_decide_true by lia. done.
Qed.

Lemma add_bytes_holds bytes self log :
  holds self log → (Z.of_nat (length (log ++ bytes)) < 2 ^ 64)%Z →
  ∃ self', add_bytes size bytes self = Done self' ∧ holds self' (log ++ bytes).
Proof.
  intros [Hs Hl Hc Ho (g & Hg & Hw) Hsh] Hlt. set (k := last_n size bytes).
  assert (length k = size `min` length bytes) as Hk by apply length_last_n.
  set (n := next_offset self). set (b := buffer self). set (e := length k `min` (size - n)).
  assert (length b = size) as Hlb by done. assert (n < size) as Hn by done.
  unfold add_bytes, checked_add. rewrite Hc, <-length_app.
  rewrite (proj2 (Z.ltb_lt _ _)) by done. cbv [mbind outcome_bind].
  assert ((if decide (size < length bytes) then slice bytes (length bytes - size) (length bytes)
           else mret bytes) = Done k) as ->.
  { unfold k. case_decide; [|by rewrite last_n_all by lia].
    apply slice_Done. split; [lia|]. unfold last_n. rewrite take_ge; [done|]. rewrite length_drop. lia. }
  fold n b. rewrite (proj2 (checked_sub_Done size n (size - n))) by (split; [lia|done]). fold e.
  rewrite (proj2 (slice_Done k 0 e _)) by (split; [lia|done]). rewrite drop_0, Nat.sub_0_r.
  rewrite copy_range_done by (rewrite ?length_take; lia).
  rewrite (proj2 (checked_sub_Done (length k) e (length k - e))) by (split; [lia|done]).
  rewrite (proj2 (slice_Done k e (length k) _)) by (split; [lia|done]).
  rewrite (take_ge (drop e k)) by (rewrite length_drop; lia).
  rewrite copy_range_done; [|rewrite !length_app, !length_take, length_drop; lia|rewrite length_drop; lia].
  unfold checked_rem. rewrite decide_False by lia. cbv [mret outcome_ret].
  eexists. split; [reflexivity|]. simpl.
  assert (rot ((n + length k) mod size) (drop e k ++ drop (length k - e) (take n b ++ take e k ++ drop (n + e) b))
    = last_n size (g ++ log ++ bytes)) as Hrot.
  { pose proof (rot_write n b k) as Hr. cbv zeta in Hr. rewrite Hlb in Hr. fold e in Hr. rewrite Hr by lia.
    unfold n, b. rewrite Hw, app_assoc. apply window_add. rewrite length_app. lia. }
  split; simpl; try done.
  - rewrite <-(length_rot ((n + length k) mod size)), Hrot, length_last_n, !length_app. lia.
  - apply Nat.mod_upper_bound. lia.
  - by exists g.
  - rewrite length_app. intros Hlen. rewrite Nat.mod_small; unfold n; rewrite Hsh by lia; lia.
Qed.

(** What [as_str] takes as the contents. *)
Lemma shift_holds self log :
  holds self log →
  ∃ self', shift_to_start size self = Done self' ∧ holds self' log ∧
    slice (buffer self') 0 (size `min` logged_bytes_count self') = Done (last_n size log).
Proof.
  intros [Hs Hl Hc Ho (g & Hg & Hw) Hsh]. unfold shift_to_start. rewrite Hc. case_decide as Hlt.
  - exists self. split; [done|]. split; [by split; eauto|]. apply slice_Done. rewrite Hl, Hc. split; [lia|].
    rewrite drop_0, Nat.sub_0_r, Nat.min_r, last_n_all by lia.
    rewrite last_n_app_l in Hw by lia. unfold rot in Hw. apply app_inj_2 in Hw as [_ Hw];
      [by rewrite <-Hsh|]. rewrite length_take, Hl, Hsh; lia.
  - unfold rotate_left. rewrite bool_decide_true by lia. cbv [mbind outcome_bind assert_ mret outcome_ret].
    assert (drop (next_offset self) (buffer self) ++ take (next_offset self) (buffer self) = last_n size log) as Hb.
    { rewrite <-(last_n_app_r size g log) by lia. exact Hw. }
    rewrite Hb. eexists. split; [reflexivity|]. simpl.
    assert (length (last_n size log) = size) as Hlen by (rewrite length_last_n; lia).
    split.
    + split; simpl; try done. exists g. rewrite rot_0, last_n_app_r by lia. done.
    + apply slice_Done. rewrite Hlen. split; [lia|]. rewrite drop_0, take_ge by lia. done.
Qed.
End Buffer.

(** ** Characters *)
Lemma between_spec lo hi b : between lo hi b = true ↔ (lo ≤ b ≤ hi)%Z.
Proof. unfold between. rewrite andb_true_iff, !Z.leb_le. done. Qed.
Lemma between_true lo hi b : (lo ≤ b ≤ hi)%Z → between lo hi b = true.
Proof. apply between_spec. Qed.
Lemma between_false lo hi b : (b < lo ∨ hi < b)%Z → between lo hi b = false.
Proof. intros Hb. apply not_true_is_false. rewrite between_spec. lia. Qed.

(** Evaluates the tests of byte ranges by arithmetic. *)
Ltac byte_tests :=
  repeat match goal with
  | |- context [between ?lo ?hi ?b] =>
      first [rewrite (between_true lo hi b) by lia | rewrite (between_false lo hi b) by lia]
  | |- context [Z.eqb ?a ?b] =>
      first [rewrite (proj2 (Z.eqb_eq a b)) by lia | rewrite (proj2 (Z.eqb_neq a b)) by lia]
  end.

Lemma is_char_spec c : is_char c = true ↔ (0 ≤ c < 0xD800 ∨ 0xE000 ≤ c < 0x110000)%Z.
Proof.
  unfold is_char. rewrite orb_true_iff, !andb_true_iff, !Z.leb_le, !Z.ltb_lt. done.
Qed.

Lemma second_of_3_char c :
  (0x800 ≤ c < 0x10000)%Z → is_char c = true →
  second_of_3 (0xE0 + c / 4096) (0x80 + c / 64 mod 64) = true.
Proof.
  rewrite is_char_spec. intros Hc Hs. unfold second_of_3, is_continuation.
  assert (c / 4096 = c / 64 / 64)%Z as Hd by (by rewrite Z.div_div).
  pose proof (Z.div_mod c 64). pose proof (Z.mod_pos_bound c 64).
  pose proof (Z.div_mod (c / 64) 64). pose proof (Z.mod_pos_bound (c / 64) 64).
  rewrite Hd. repeat case_match; apply between_spec; rewrite ?Z.eqb_eq, ?Z.eqb_neq in *; lia.
Qed.
Lemma second_of_4_char c :
  (0x10000 ≤ c < 0x110000)%Z →
  second_of_4 (0xF0 + c / 262144) (0x80 + c / 4096 mod 64) = true.
Proof.
  intros Hc. unfold second_of_4, is_continuation.
  assert (c / 262144 = c / 4096 / 64)%Z as -> by (by rewrite Z.div_div).
  pose proof (Z.div_mod c 4096). pose proof (Z.mod_pos_bound c 4096).
  pose proof (Z.div_mod (c / 4096) 64). pose proof (Z.mod_pos_bound (c / 4096) 64).
  destruct (Z.eqb_spec (0xF0 + c / 4096 / 64) 0xF0); [apply between_spec; lia|].
  destruct (between 0xF1 0xF3 _) eqn:E; apply between_spec; [lia|].
  apply not_true_iff_false in E. rewrite between_spec in E. lia.
Qed.
Lemma low_bits_continuation c : is_continuation (0x80 + c mod 64) = true.
Proof. apply between_spec. pose proof (Z.mod_pos_bound c 64). lia. Qed.

Lemma utf8_step_char c l : is_char c = true → utf8_step (encode_utf8 c ++ l) = Ok l.
Proof.
  intros Hc. pose proof (proj1 (is_char_spec c) Hc) as Hr. unfold encode_utf8.
  destruct (Z.ltb_spec c 0x80); [|destruct (Z.ltb_spec c 0x800); [|destruct (Z.ltb_spec c 0x10000)]];
    cbn [app utf8_step].
  - assert (utf8_char_width c = 1) as -> by (unfold utf8_char_width; by byte_tests). done.
  - assert (utf8_char_width (0xC0 + c / 64) = 2) as ->.
    { pose proof (Z.div_le_lower_bound c 64 2). pose proof (Z.div_lt_upper_bound c 64 32).
      unfold utf8_char_width. by byte_tests. }
    by rewrite low_bits_continuation.
  - assert (utf8_char_width (0xE0 + c / 4096) = 3) as ->.
    { pose proof (Z.div_le_lower_bound c 4096 0). pose proof (Z.div_lt_upper_bound c 4096 16).
      unfold utf8_char_width. by byte_tests. }
    by rewrite second_of_3_char, low_bits_continuation by done.
  - assert (utf8_char_width (0xF0 + c / 262144) = 4) as ->.
    { pose proof (Z.div_le_lower_bound c 262144 0). pose proof (Z.div_lt_upper_bound c 262144 5).
      unfold utf8_char_width. by byte_tests. }
    by rewrite second_of_4_char, !low_bits_continuation by lia.
Qed.

Lemma encode_utf8_tail c :
  ∃ b t, encode_utf8 c = b :: t ∧ Forall (λ x, is_continuation x = true) t.
Proof.
  unfold encode_utf8. repeat case_match; eexists _, _; (split; [reflexivity|]);
    repeat (apply List.Forall_cons; [apply low_bits_continuation|]); exact (List.Forall_nil _).
Qed.

Lemma utf8_loop_chars fuel cs :
  Forall (λ c, is_char c = true) cs → length (as_bytes cs) ≤ fuel → utf8_loop fuel (as_bytes cs) = Ok tt.
Proof.
  intros Hcs. revert fuel. induction Hcs as [|c cs Hc _ IH]; intros fuel Hf; [by destruct fuel|].
  change (as_bytes (c :: cs)) with (encode_utf8 c ++ as_bytes cs) in Hf |- *.
  destruct (encode_utf8_tail c) as (b & t & Hb & _). pose proof (utf8_step_char c (as_bytes cs) Hc) as Hs.
  rewrite Hb in Hs, Hf |- *. rewrite length_app in Hf. simpl in Hf. destruct fuel as [|fuel]; [lia|].
  cbn [utf8_loop app] in *. rewrite Hs. apply IH. lia.
Qed.

Lemma from_utf8_continuation b l : is_continuation b = true → from_utf8 (b :: l) = Err (Some 1).
Proof.
  intros Hb%between_spec. unfold from_utf8. cbn [length utf8_loop utf8_step].
  assert (utf8_char_width b = 0) as -> by (unfold utf8_char_width; by byte_tests). done.
Qed.

(** Bytes of a character that was overwritten in part are skipped one by one. *)
Lemma as_str_loop_skip fuel p cs :
  Forall (λ x, is_continuation x = true) p → Forall (λ c, is_char c = true) cs → length p < fuel →
  as_str_loop fuel (p ++ as_bytes cs) = Done (as_bytes cs).
Proof.
  intros Hp Hcs. revert fuel. induction Hp as [|b p Hb _ IH]; intros fuel Hf;
    (destruct fuel as [|fuel]; [simpl in Hf; lia|]); cbn [as_str_loop app].
  - unfold from_utf8. by rewrite utf8_loop_chars.
  - rewrite from_utf8_continuation by done.
    rewrite (proj2 (slice_Done (b :: p ++ as_bytes cs) 1 _ (p ++ as_bytes cs))).
    + apply IH. simpl in Hf. lia.
    + split; [simpl; lia|]. simpl. rewrite Nat.sub_0_r. by rewrite take_ge.
Qed.

(** The longest suffix of whole characters of at most [size] bytes. *)
Fixpoint fitting (size : nat) (cs : list Z) : list Z :=
  match cs with
  | [] => []
  | _ :: cs' => if decide (length (as_bytes cs) ≤ size) then cs else fitting size cs'
  end.

Lemma fitting_all size cs : length (as_bytes cs) ≤ size → fitting size cs = cs.
Proof. destruct cs; simpl; [done|]. by case_decide. Qed.

Lemma last_bytes size cs :
  ∃ p, last_n size (as_bytes cs) = p ++ as_bytes (fitting size cs) ∧
    Forall (λ x, is_continuation x = true) p.
Proof.
  induction cs as [|c cs (p & Hp & Hc)].
  { exists []. split; [|exact (List.Forall_nil _)]. by rewrite last_n_all by (simpl; lia). }
  cbn [fitting]. case_decide as Hfit.
  { exists []. split; [|exact (List.Forall_nil _)]. by rewrite last_n_all. }
  change (as_bytes (c :: cs)) with (encode_utf8 c ++ as_bytes cs) in Hfit |- *.
  destruct (decide (size ≤ length (as_bytes cs))) as [Hle|Hlt].
  { exists p. by rewrite last_n_app_r. }
  rewrite last_n_app_l, fitting_all by lia. eexists. split; [reflexivity|].
  destruct (encode_utf8_tail c) as (b & t & Hb & Ht). rewrite length_app in Hfit.
  rewrite Hb in Hfit |- *. simpl in Hfit. unfold last_n. simpl.
  destruct (S (length t) - (size - length (as_bytes cs))) as [|m] eqn:Hm; [lia|].
  simpl. by apply Forall_drop.
Qed.

Lemma fitting_chars size cs : Forall (λ c, is_char c = true) cs → Forall (λ c, is_char c = true) (fitting size cs).
Proof.
  induction 1 as [|c cs Hc Hcs IH]; [exact (List.Forall_nil _)|]. cbn [fitting].
  case_decide; [by constructor|done].
Qed.

Lemma as_str_holds size self cs :
  holds size self (as_bytes cs) → Forall (λ c, is_char c = true) cs →
  ∃ self', as_str size self = Done (as_bytes (fitting size cs), self') ∧ holds size self' (as_bytes cs).
Proof.
  intros Hh Hcs. destruct (shift_holds size self _ Hh) as (self' & Hs & Hh' & Hsl).
  exists self'. split; [|done]. unfold as_str. rewrite Hs. cbv [mbind outcome_bind]. rewrite Hsl.
  destruct (last_bytes size cs) as (p & -> & Hp).
  rewrite as_str_loop_skip; [done|done|by apply fitting_chars|rewrite length_app; lia].
Qed.

(** ** Arbitrary contents

    A logger that takes over the memory of an earlier one holds arbitrary bytes. *)
Lemma utf8_step_progress v :
  v ≠ [] →
  match utf8_step v with
  | Ok v' => length v' < length v
  | Err (Some n) => 1 ≤ n ≤ length v
  | Err None => True
  end.
Proof.
  destruct v as [|b v]; [done|]. intros _. unfold utf8_step.
  repeat (case_match; simplify_eq/=; try done; try lia).
Qed.

Lemma from_utf8_error_len v n : from_utf8 v = Err (Some n) → 1 ≤ n ≤ length v.
Proof.
  unfold from_utf8. generalize (length v) at 1 as fuel. intros fuel. revert v.
  induction fuel as [|fuel IH]; intros [|b v]; try done. cbn [utf8_loop].
  pose proof (utf8_step_progress (b :: v) ltac:(done)) as Hp.
  destruct (utf8_step (b :: v)) as [v'|e]; [|by intros [= ->]].
  intros Hv%IH. lia.
Qed.

Lemma as_str_loop_total fuel v : length v < fuel → ∃ r, as_str_loop fuel v = Done r.
Proof.
  revert v. induction fuel as [|fuel IH]; intros v Hv; [lia|]. cbn [as_str_loop].
  destruct (from_utf8 v) as [[]|[n|]] eqn:E; [by eexists| |by eexists].
  apply from_utf8_error_len in E.
  rewrite (proj2 (slice_Done v n (length v) _) (conj (conj (proj2 E) (le_n _)) eq_refl)).
  apply IH. rewrite length_take, length_drop. lia.
Qed.

(** Reading always returns, whatever the buffer holds. *)
Lemma as_str_total size self :
  length (buffer self) = size → next_offset self ≤ size → ∃ r, as_str size self = Done r.
Proof.
  intros Hl Ho. unfold as_str.
  assert (∃ self', shift_to_start size self = Done self' ∧ length (buffer self') = size) as (self' & -> & Hl').
  { unfold shift_to_start. case_decide; [by exists self|]. unfold rotate_left.
    rewrite bool_decide_true by lia. eexists. split; [reflexivity|]. simpl.
    rewrite length_app, length_drop, length_take. lia. }
  cbv [mbind outcome_bind].
  rewrite (proj2 (slice_Done (buffer self') 0 _ _)) by (split; [lia|reflexivity]).
  match goal with |- context [as_str_loop (S (length ?c)) ?c] =>
    destruct (as_str_loop_total (S (length c)) c) as [r ->]; [lia|] end.
  by eexists.
Qed.

(** ** The logger as a log *)

(** What is done with a logger, and what [as_str] returns on the way. *)
Inductive LogOp : Type := LogWrite (s : list Z) | LogReset | LogRead.

Fixpoint log_run (size : nat) (ops : list LogOp) (self : MemoryLogger) : outcome (list (list Z)) :=
  match ops with
  | [] => mret []
  | LogWrite s :: ops => self ← write_str size s self; log_run size ops self
  | LogReset :: ops => log_run size ops (logger_reset self)
  | LogRead :: ops => '(str, self) ← as_str size self; strs ← log_run size ops self; mret (str :: strs)
  end.

(** The log as the sequence of all characters since the last reset. *)
Fixpoint log_spec (size : nat) (ops : list LogOp) (log : list Z) : list (list Z) :=
  match ops with
  | [] => []
  | LogWrite s :: ops => log_spec size ops (log ++ s)
  | LogReset :: ops => log_spec size ops []
  | LogRead :: ops => as_bytes (fitting size log) :: log_spec size ops log
  end.

Definition written (ops : list LogOp) : list Z := ops ≫= λ o, match o with LogWrite s => s | _ => [] end.

Lemma as_bytes_app s t : as_bytes (s ++ t) = as_bytes s ++ as_bytes t.
Proof. apply bind_app. Qed.

Lemma log_run_spec size ops self log :
  holds size self (as_bytes log) → Forall (λ c, is_char c = true) (log ++ written ops) →
  (Z.of_nat (length (as_bytes (log ++ written ops))) < 2 ^ 64)%Z →
  log_run size ops self = Done (log_spec size ops log).
Proof.
  revert self log. induction ops as [|o ops IH]; intros self log Hh Hc Hlt; [done|].
  destruct o as [s| |]; cbn [log_run log_spec].
  - change (written (LogWrite s :: ops)) with (s ++ written ops) in Hc, Hlt.
    rewrite app_assoc in Hc, Hlt. unfold write_str.
    destruct (add_bytes_holds size (as_bytes s) self (as_bytes log) Hh) as (self' & -> & Hh').
    { rewrite <-as_bytes_app. rewrite as_bytes_app, length_app in Hlt. lia. }
    rewrite <-as_bytes_app in Hh'. by apply IH.
  - change (written (LogReset :: ops)) with (written ops) in Hc, Hlt.
    apply IH; [by eapply reset_holds|by apply Forall_app in Hc as [_ ?]|].
    rewrite as_bytes_app, length_app in Hlt. simpl. lia.
  - change (written (LogRead :: ops)) with (written ops) in Hc, Hlt.
    destruct (as_str_holds size self log Hh) as (self' & -> & Hh'); [by apply Forall_app in Hc as [? _]|].
    cbv [mbind outcome_bind]. by rewrite (IH self' log).
Qed.

(** C17: the in-memory logger refines a log of characters that forgets nothing.
    Whatever is written and however often it is reset or read, reading returns the
    longest suffix of whole characters of what was written since the last reset
    that fits into the buffer: nothing is reordered or duplicated, and a character
    that was overwritten in part is not shown.  No operation panics. *)
Theorem logger_refines_log size ops :
  0 < size → Forall (λ c, is_char c = true) (written ops) →
  (Z.of_nat (length (as_bytes (written ops))) < 2 ^ 64)%Z →
  log_run size ops (logger_new size) = Done (log_spec size ops []).
Proof. intros Hs Hc Hlt. apply log_run_spec; [by apply new_holds|done|done]. Qed.

(** A buffer of six bytes: the euro sign takes three, so that two more letters
    overwrite a part of it. *)
Lemma logger_refines_log_witness :
  log_run 6 [LogWrite [0x20AC; 0x78; 0x79]; LogRead; LogWrite [0xE4; 0x7A]; LogRead; LogReset; LogRead]%Z
    (logger_new 6) =
  Done [[0xE2; 0x82; 0xAC; 0x78; 0x79]; [0x78; 0x79; 0xC3; 0xA4; 0x7A]; []]%Z.
Proof.
  apply (logger_refines_log 6
    [LogWrite [0x20AC; 0x78; 0x79]; LogRead; LogWrite [0xE4; 0x7A]; LogRead; LogReset; LogRead]%Z);
    [lia| |vm_compute; reflexivity].
  repeat (apply List.Forall_cons; [reflexivity|]). exact (List.Forall_nil _).
Defined.

(** ** Sinks *)

(** A core logs to its own buffer and leaves those of the other cores alone. *)
Lemma per_core_write size me args logs self log :
  logs !! me = Some self → holds size self (as_bytes log) →
  (Z.of_nat (length (as_bytes (log ++ concat args))) < 2 ^ 64)%Z →
  ∃ self', write_fmt (PerCoreMemoryLogger size me) args logs = Ret tt (<[me := self']> logs) ∧
    holds size self' (as_bytes (log ++ concat args)).
Proof.
  intros Hme Hh Hlt.
  assert (∃ self', fold_outcome (λ self s, write_str size s self) self args = Done self' ∧
    holds size self' (as_bytes (log ++ concat args))) as (self' & Hf & Hh').
  { clear Hme. revert self log Hh Hlt.
    induction args as [|s args IH]; intros self log Hh Hlt.
    { exists self. by rewrite app_nil_r. }
    cbn [concat] in Hlt |- *. rewrite app_assoc in Hlt |- *.
    destruct (add_bytes_holds size (as_bytes s) self _ Hh) as (self1 & H1 & Hh1).
    { rewrite <-as_bytes_app. rewrite as_bytes_app, length_app in Hlt. lia. }
    rewrite <-as_bytes_app in Hh1. destruct (IH self1 _ Hh1 Hlt) as (self2 & H2 & Hh2).
    exists self2. split; [|done]. cbn [fold_outcome].
    change (write_str size s self) with (add_bytes size (as_bytes s) self). by rewrite H1. }
  exists self'. split; [|done]. simpl. cbv [mbind M_bind get lift modify]. unfold arr_get. rewrite Hme.
  simpl. by rewrite Hf.
Qed.

(** The secondary sink gets a message exactly when it is enabled, after the
    primary one. *)
Lemma hybrid_write {P S} (p : LogSink P) (s : LogSink S) args h x y :
  write_fmt p args (primary h) = Ret tt x → write_fmt s args (secondary h) = Ret tt y →
  write_fmt (HybridLogger p s) args h =
    Ret tt (mkHybrid x (if secondary_enabled h then y else secondary h) (secondary_enabled h)).
Proof.
  intros Hx Hy. simpl. cbv [mbind M_bind get on_primary on_secondary]. rewrite Hx. simpl.
  destruct (secondary_enabled h); [cbn [secondary]; by rewrite Hy|done].
Qed.
