(* ===== verification/Manifest.v ===== *)
(** * The boot manifest of the RMM

    [src/services/rmmd/manifest.rs]: what [RmmBootManifest::pack] writes into the
    buffer that EL3 shares with the RMM.  A buffer is a list of bytes; a part of it
    that is viewed as a structure is read and written through [from_bytes] and
    [as_bytes], which follow the layout of [repr(C)]. *)

From Stdlib Require Import ZArith Lia.
From stdpp Require Import base list numbers option.
From S2P Require Import Prelude Smccc Rmm.
Open Scope rust_scope.
Open Scope Z_scope.

(** [to_le_bytes] of an integer of [n] bytes. *)
Fixpoint to_le_bytes (n : nat) (v : Z) : list Z :=
  match n with
  | O => []
  | S n => v mod 256 :: to_le_bytes n (v / 256)
  end.

(** The field of [n] bytes at an offset. *)
Definition bytes_at (off n : nat) (bs : list Z) : list Z := take n (drop off bs).
Definition int_at (off n : nat) (bs : list Z) : Z := from_le_bytes (bytes_at off n bs).

(** ** The structures that are passed to the RMM *)
Record RmmBootManifestVersion : Type := mkVersion { minor : Z; major : Z }.

Definition version_try_from (value : Z) : result RmmBootManifestVersion unit :=
  let major := Z.land (Z.shiftr value 16) 0xFFFF in
  if negb (Z.land major 0x7fff =? major) then Err tt
  else Ok (mkVersion (Z.land value 0xFFFF) major).
Definition version_into (v : RmmBootManifestVersion) : Z := Z.lor (Z.shiftl (major v) 16) (minor v).

Definition RMM_BOOT_MANIFEST_VERSION : RmmBootManifestVersion := mkVersion 5 0.
Definition RMM_BOOT_MANIFEST_ROOT_COMPLEX_VERSION : RmmBootManifestVersion := mkVersion 1 0.

Record RmmMemoryBank : Type := mkBank { bank_base : Z; bank_size : Z }.
Definition bank_bytes (b : RmmMemoryBank) : list Z :=
  to_le_bytes 8 (bank_base b) ++ to_le_bytes 8 (bank_size b).

Record RmmConsoleInfo : Type := mkConsole {
  console_base : Z;
  map_pages : Z;
  name : list Z;
  clk_in_hz : Z;
  baud_rate : Z;
  flags : Z;
}.
Definition console_bytes (c : RmmConsoleInfo) : list Z :=
  to_le_bytes 8 (console_base c) ++ to_le_bytes 8 (map_pages c) ++ name c ++
  to_le_bytes 8 (clk_in_hz c) ++ to_le_bytes 8 (baud_rate c) ++ to_le_bytes 8 (flags c).

Record RmmSmmuInfo : Type := mkSmmu { smmu_base : Z; smmu_r_base : Z }.
Definition smmu_bytes (s : RmmSmmuInfo) : list Z :=
  to_le_bytes 8 (smmu_base s) ++ to_le_bytes 8 (smmu_r_base s).

Record BdfMappingInfo : Type := mkBdf {
  mapping_base : Z;
  mapping_top : Z;
  mapping_off : Z;
  smmu_idx : Z;
}.
Definition bdf_bytes (b : BdfMappingInfo) : list Z :=
  to_le_bytes 2 (mapping_base b) ++ to_le_bytes 2 (mapping_top b) ++
  to_le_bytes 2 (mapping_off b) ++ to_le_bytes 2 (smmu_idx b).

Record RmmRootPortInfo : Type := mkPort { root_port_id : Z; port_entries : list BdfMappingInfo }.
Record RmmRootComplexInfo : Type := mkRoot {
  ecam_base : Z;
  segment : Z;
  root_entries : list RmmRootPortInfo;
}.
Record RmmRootComplexInfoList : Type := mkRootList {
  rc_info_version : RmmBootManifestVersion;
  rc_entries : list RmmRootComplexInfo;
}.

Record RmmBootManifest : Type := mkManifest {
  version : RmmBootManifestVersion;
  plat_data : list Z;
  plat_dram : list RmmMemoryBank;
  plat_console : list RmmConsoleInfo;
  plat_ncoh_region : list RmmMemoryBank;
  plat_coh_region : list RmmMemoryBank;
  plat_smmu : list RmmSmmuInfo;
  plat_root_complex : RmmRootComplexInfoList;
}.

(** ** The structures in the buffer *)
Record ChecksummedList : Type := mkList { num_entries : Z; entries_ptr : Z; checksum : Z }.
Definition list_bytes (l : ChecksummedList) : list Z :=
  to_le_bytes 8 (num_entries l) ++ to_le_bytes 8 (entries_ptr l) ++ to_le_bytes 8 (checksum l).

Record RmmRootComplexListInternal : Type := mkRcList {
  rc_num_entries : Z;
  rc_version : Z;
  rc_padding : Z;
  rc_entries_ptr : Z;
  rc_checksum : Z;
}.
Definition rc_list_bytes (l : RmmRootComplexListInternal) : list Z :=
  to_le_bytes 8 (rc_num_entries l) ++ to_le_bytes 4 (rc_version l) ++ to_le_bytes 4 (rc_padding l) ++
  to_le_bytes 8 (rc_entries_ptr l) ++ to_le_bytes 8 (rc_checksum l).

Record RmmRootComplexInfoInternal : Type := mkRcInfo {
  ri_ecam_base : Z;
  ri_segment : Z;
  ri_padding : list Z;
  ri_num_entries : Z;
  ri_entries_ptr : Z;
}.
Definition rc_info_bytes (r : RmmRootComplexInfoInternal) : list Z :=
  to_le_bytes 8 (ri_ecam_base r) ++ to_le_bytes 1 (ri_segment r) ++ ri_padding r ++
  to_le_bytes 4 (ri_num_entries r) ++ to_le_bytes 8 (ri_entries_ptr r).

(** The padding keeps what the buffer held. *)
Record RmmRootPortInfoInternal : Type := mkPortInfo {
  pi_root_port_id : Z;
  pi_padding : list Z;
  pi_num_entries : Z;
  pi_entries_ptr : Z;
}.
Definition port_info_bytes (p : RmmRootPortInfoInternal) : list Z :=
  to_le_bytes 2 (pi_root_port_id p) ++ pi_padding p ++
  to_le_bytes 4 (pi_num_entries p) ++ to_le_bytes 8 (pi_entries_ptr p).

Record RmmBootManifestHeader : Type := mkHeader {
  h_version : Z;
  h_padding : list Z;
  h_plat_data : Z;
  h_plat_dram : ChecksummedList;
  h_plat_console : ChecksummedList;
  h_plat_ncoh_region : ChecksummedList;
  h_plat_coh_region : ChecksummedList;
  h_plat_smmu : ChecksummedList;
  h_plat_root_complex : RmmRootComplexListInternal;
}.
Definition header_bytes (h : RmmBootManifestHeader) : list Z :=
  to_le_bytes 4 (h_version h) ++ h_padding h ++ to_le_bytes 8 (h_plat_data h) ++
  list_bytes (h_plat_dram h) ++ list_bytes (h_plat_console h) ++ list_bytes (h_plat_ncoh_region h) ++
  list_bytes (h_plat_coh_region h) ++ list_bytes (h_plat_smmu h) ++ rc_list_bytes (h_plat_root_complex h).

Definition HEADER_SIZE : nat := 168.
Definition RC_INFO_SIZE : nat := 24.
Definition PORT_INFO_SIZE : nat := 16.
Definition BDF_SIZE : nat := 8.
Definition PAGE_SIZE : Z := 4096.

(** What is relied on of the [zerocopy] crate: bytes can be viewed as a slice of
    structures exactly if they are aligned and their number fits. *)
Class Zerocopy := { from_bytes_valid : Z → Z → Z → Z → bool }.
Class ZerocopyLaws `{Zerocopy} : Prop := {
  from_bytes_spec align size addr len :
    from_bytes_valid align size addr len = (addr mod align =? 0) && (len mod size =? 0);
}.

(** ** Packing *)
Section Pack.
Context `{Zerocopy}.
(** The address of the buffer, its physical address, and the address of a slice of
    structures of the manifest, aligned as its type is. *)
Context (buf_ptr buf_pa slice_addr : Z).

(** [split_at_mut] *)
Definition split_at_mut (n : nat) (buf : list Z) : outcome (list Z * list Z) :=
  if decide (n ≤ length buf)%nat then Done (take n buf, drop n buf) else Panic.

(** The offset of what is left of the buffer when [rem] is left. *)
Definition offset_of (rem : list Z) : Z := RMM_SHARED_BUFFER_SIZE - Z.of_nat (length rem).

(** [addr_of], of the part of the buffer in front of which [rem] was left. *)
Definition addr_of (rem : list Z) : outcome Z :=
  _ ← assert_ (offset_of rem <? RMM_SHARED_BUFFER_SIZE);
  let a := buf_pa + offset_of rem in
  if a <? 2 ^ 64 then mret a else Panic.

(** The words of a buffer of bytes. *)
Fixpoint u64s (fuel : nat) (buf : list Z) : list Z :=
  match fuel, buf with
  | O, _ | _, [] => []
  | S fuel, _ => from_le_bytes (take 8 buf) :: u64s fuel (drop 8 buf)
  end.

(** [Iterator::sum], which panics on overflow. *)
Definition sum_u64 (l : list Z) : outcome Z :=
  fold_outcome (λ a v, if a + v <? 2 ^ 64 then Done (a + v) else Panic) 0 l.

Definition compute_checksum (addr : Z) (buf other : list Z) : outcome Z :=
  _ ← assert_ (Z.of_nat (length buf) mod 8 =? 0);
  _ ← assert_ (from_bytes_valid 8 8 addr (Z.of_nat (length buf)));
  sum ← sum_u64 (u64s (length buf) buf ++ other);
  mret ((- sum) mod 2 ^ 64).

(** [make_list!]: the entry of the header, the bytes of the list, and what is left
    of the buffer. *)
Definition make_list {A} (bytes : A → list Z) (l : list A) (rem : list Z)
    : outcome (ChecksummedList * list Z * list Z) :=
  let self_list := l ≫= bytes in
  '(_, rest) ← split_at_mut (length self_list) rem;
  let num := Z.of_nat (length l) in
  ptr ← (match l with [] => mret 0 | _ => addr_of rem end);
  sum ← compute_checksum slice_addr self_list [num; ptr];
  mret (mkList num ptr sum, self_list, rest).

(** The ports of a root complex: their descriptions, the BDF mappings, and what is
    left of the buffer. *)
Fixpoint pack_ports (ports : list RmmRootPortInfo) (hdr_ports_buf rem : list Z)
    : outcome (list Z * list Z * list Z) :=
  match ports with
  | [] => mret ([], [], rem)
  | p :: ports =>
      let bdfs := port_entries p ≫= bdf_bytes in
      '(_, rest) ← split_at_mut (length (port_entries p) * BDF_SIZE) rem;
      ptr ← addr_of rem;
      let info := mkPortInfo (root_port_id p) (bytes_at 2 2 hdr_ports_buf)
                    (as_u32 (Z.of_nat (length (port_entries p)))) ptr in
      _ ← assert_ (from_bytes_valid 2 8 (buf_ptr + offset_of rem)
                     (Z.of_nat (length (port_entries p) * BDF_SIZE)));
      '(infos, mappings, rest) ← pack_ports ports (drop PORT_INFO_SIZE hdr_ports_buf) rest;
      mret (port_info_bytes info ++ infos, bdfs ++ mappings, rest)
  end.

(** The root complexes: their descriptions, their ports, and what is left of the
    buffer. *)
Fixpoint pack_roots (roots : list RmmRootComplexInfo) (rem : list Z)
    : outcome (list Z * list Z * list Z) :=
  match roots with
  | [] => mret ([], [], rem)
  | r :: roots =>
      '(hdr_ports_buf, rest) ← split_at_mut (length (root_entries r) * PORT_INFO_SIZE) rem;
      ptr ← addr_of rem;
      let info := mkRcInfo (ecam_base r) (segment r) [0; 0; 0]
                    (as_u32 (Z.of_nat (length (root_entries r)))) ptr in
      _ ← assert_ (from_bytes_valid 8 16 (buf_ptr + offset_of rem) (Z.of_nat (length hdr_ports_buf)));
      '(ports, mappings, rest) ← pack_ports (root_entries r) hdr_ports_buf rest;
      '(infos, below, rest) ← pack_roots roots rest;
      mret (rc_info_bytes info ++ infos, ports ++ mappings ++ below, rest)
  end.

(** [RmmBootManifest::pack] *)
Definition manifest_pack (self : RmmBootManifest) (buf : list Z) : outcome (list Z) :=
  _ ← assert_ (buf_ptr mod PAGE_SIZE =? 0);
  '(hdr_buf, rem) ← split_at_mut HEADER_SIZE buf;
  '(_, rest) ← split_at_mut (length (plat_data self)) rem;
  data ← addr_of rem;
  '(dram, dram_buf, rest) ← make_list bank_bytes (plat_dram self) rest;
  '(console, console_buf, rest) ← make_list console_bytes (plat_console self) rest;
  '(ncoh, ncoh_buf, rest) ← make_list bank_bytes (plat_ncoh_region self) rest;
  '(coh, coh_buf, rest) ← make_list bank_bytes (plat_coh_region self) rest;
  '(smmu, smmu_buf, buf) ← make_list smmu_bytes (plat_smmu self) rest;
  let roots := rc_entries (plat_root_complex self) in
  '(hdr_root_buf, rest) ← split_at_mut (length roots * RC_INFO_SIZE) buf;
  ptr ← addr_of buf;
  let num := Z.of_nat (length roots) in
  let ver := version_into (rc_info_version (plat_root_complex self)) in
  _ ← assert_ (from_bytes_valid 8 24 (buf_ptr + offset_of buf) (Z.of_nat (length hdr_root_buf)));
  '(infos, below, rest) ← pack_roots roots rest;
  sum ← compute_checksum (buf_ptr + offset_of buf) (infos ++ below) [num; ver; ptr];
  let hdr := mkHeader (version_into (version self)) (bytes_at 4 4 hdr_buf) data dram console ncoh coh smmu
               (mkRcList num ver 0 ptr sum) in
  mret (header_bytes hdr ++ plat_data self ++ dram_buf ++ console_buf ++ ncoh_buf ++ coh_buf ++ smmu_buf ++
        infos ++ below ++ rest).
End Pack.

(** ** FVP
    The start of its second bank of memory and of its console are of the crate that
    describes the machine. *)
Definition NT_FW_CONFIG_ADDRESS : Z := 0x80000000.
Definition fvp_manifest (DRAM1 UART0 : Z) : RmmBootManifest :=
  mkManifest RMM_BOOT_MANIFEST_VERSION []
    [mkBank NT_FW_CONFIG_ADDRESS 0x7c000000; mkBank DRAM1 0x80000000]
    [mkConsole UART0 0x1 [112; 108; 48; 49; 49; 0; 0; 0] 0x00e10000 115200 0]
    [] [] [] (mkRootList RMM_BOOT_MANIFEST_ROOT_COMPLEX_VERSION []).
(** The buffer is mapped at its physical address. *)
Definition rme_prepare_manifest `{Zerocopy} (DRAM1 UART0 buf_ptr slice_addr : Z) (buf : list Z) : outcome (list Z) :=
  manifest_pack buf_ptr buf_ptr slice_addr (fvp_manifest DRAM1 UART0) buf.
