(* ===== verification/ManifestProps.v ===== *)
(** * The properties of the boot manifest

    A reader that follows the pointers of the packed manifest, as the RMM does,
    finds the manifest that was packed, and the checksums add up to zero. *)

From Stdlib Require Import ZArith Lia.
From stdpp Require Import base list numbers option.
From S2P Require Import Prelude Smccc Rmm Manifest.
Open Scope rust_scope.
Open Scope Z_scope.

(** ** Integers as bytes *)
Lemma length_to_le_bytes n v : length (to_le_bytes n v) = n.
Proof. revert v. induction n as [|n IH]; intros; cbn [to_le_bytes length]; [done|]. by rewrite IH. Qed.

Lemma from_to_le_bytes n v : 0 ≤ v < 256 ^ Z.of_nat n → from_le_bytes (to_le_bytes n v) = v.
Proof.
  revert v. induction n as [|n IH]; intros v Hv.
  { change (256 ^ Z.of_nat 0) with 1 in Hv. simpl. lia. }
  rewrite Nat2Z.inj_succ, Z.pow_succ_r in Hv by lia. cbn [to_le_bytes from_le_bytes].
  rewrite IH; [pose proof (Z.div_mod v 256); lia|].
  split; [apply Z.div_pos; lia|apply Z.div_lt_upper_bound; lia].
Qed.

Lemma bytes_at_app off n a bs b :
  off = length a → n = length bs → bytes_at off n (a ++ bs ++ b) = bs.
Proof. intros -> ->. unfold bytes_at. by rewrite drop_app_length, take_app_length. Qed.

Definition byte (b : Z) : Prop := 0 ≤ b < 256.
Definition unsigned (n : nat) (v : Z) : Prop := 0 ≤ v < 256 ^ Z.of_nat n.

Lemma length_bytes_at off n bs : (off + n ≤ length bs)%nat → length (bytes_at off n bs) = n.
Proof. intros. unfold bytes_at. rewrite length_take, length_drop. lia. Qed.

(** A field is found by skipping the fields in front of it. *)
Lemma bytes_at_skip off n a bs :
  (length a ≤ off)%nat → bytes_at off n (a ++ bs) = bytes_at (off - length a) n bs.
Proof. intros. unfold bytes_at. by rewrite drop_app_ge. Qed.
Lemma int_at_skip off n a bs :
  (length a ≤ off)%nat → int_at off n (a ++ bs) = int_at (off - length a) n bs.
Proof. intros. unfold int_at. by rewrite bytes_at_skip. Qed.
Lemma int_at_here n v b : unsigned n v → int_at 0 n (to_le_bytes n v ++ b) = v.
Proof.
  intros Hv. unfold int_at, bytes_at. rewrite drop_0, take_app_length'; [by apply from_to_le_bytes|].
  by rewrite length_to_le_bytes.
Qed.
Lemma int_at_last n v : unsigned n v → int_at 0 n (to_le_bytes n v) = v.
Proof. intros. rewrite <-(app_nil_r (to_le_bytes n v)). by apply int_at_here. Qed.

Ltac lengths :=
  rewrite ?length_app, ?length_to_le_bytes;
  repeat match goal with H : length ?l = _ |- context [length ?l] => rewrite H end.
Ltac field :=
  repeat (rewrite int_at_skip by (lengths; lia); lengths; cbn [Nat.sub Nat.add]);
  first [apply int_at_here | apply int_at_last]; done.

(** ** Reading *)
Section Read.
Context (pa : Z) (buf : list Z).

(** The bytes at a physical address. *)
Definition read_at (addr : Z) (n : nat) : list Z := bytes_at (Z.to_nat (addr - pa)) n buf.
Fixpoint read_list {A} (size : nat) (parse : list Z → A) (n : nat) (addr : Z) : list A :=
  match n with
  | O => []
  | S n => parse (read_at addr size) :: read_list size parse n (addr + Z.of_nat size)
  end.

Definition bank_from (bs : list Z) : RmmMemoryBank := mkBank (int_at 0 8 bs) (int_at 8 8 bs).
Definition console_from (bs : list Z) : RmmConsoleInfo :=
  mkConsole (int_at 0 8 bs) (int_at 8 8 bs) (bytes_at 16 8 bs) (int_at 24 8 bs) (int_at 32 8 bs)
    (int_at 40 8 bs).
Definition smmu_from (bs : list Z) : RmmSmmuInfo := mkSmmu (int_at 0 8 bs) (int_at 8 8 bs).
Definition bdf_from (bs : list Z) : BdfMappingInfo :=
  mkBdf (int_at 0 2 bs) (int_at 2 2 bs) (int_at 4 2 bs) (int_at 6 2 bs).
Definition port_from (bs : list Z) : RmmRootPortInfo :=
  mkPort (int_at 0 2 bs) (read_list BDF_SIZE bdf_from (Z.to_nat (int_at 4 4 bs)) (int_at 8 8 bs)).
Definition root_from (bs : list Z) : RmmRootComplexInfo :=
  mkRoot (int_at 0 8 bs) (int_at 8 1 bs)
    (read_list PORT_INFO_SIZE port_from (Z.to_nat (int_at 12 4 bs)) (int_at 16 8 bs)).
Definition list_from {A} (size : nat) (parse : list Z → A) (off : nat) : list A :=
  read_list size parse (Z.to_nat (int_at off 8 buf)) (int_at (off + 8) 8 buf).
Definition version_at (off : nat) : option RmmBootManifestVersion :=
  match version_try_from (int_at off 4 buf) with Ok v => Some v | Err _ => None end.

(** The manifest, with a platform data section of [n] bytes. *)
Definition read_manifest (n : nat) : option RmmBootManifest :=
  v ← version_at 0;
  rv ← version_at 144;
  mret (mkManifest v (read_at (int_at 8 8 buf) n)
    (list_from 16 bank_from 16) (list_from 48 console_from 40) (list_from 16 bank_from 64)
    (list_from 16 bank_from 88) (list_from 16 smmu_from 112)
    (mkRootList rv (read_list RC_INFO_SIZE root_from (Z.to_nat (int_at 136 8 buf)) (int_at 152 8 buf)))).

(** [chunks] are the bytes of [l], one for each element. *)
Definition parsed {A} (size : nat) (parse : list Z → A) (l : list A) (chunks : list (list Z)) : Prop :=
  Forall2 (λ x c, length c = size ∧ parse c = x) l chunks.

Lemma read_list_parsed {A} size (parse : list Z → A) l chunks pre post :
  parsed size parse l chunks → buf = pre ++ concat chunks ++ post →
  read_list size parse (length l) (pa + Z.of_nat (length pre)) = l.
Proof.
  intros Hp. revert pre. induction Hp as [|x c l chunks [Hc Hx] _ IH]; intros pre Hbuf; [done|].
  cbn [length read_list]. f_equal.
  - rewrite <-Hx. f_equal. unfold read_at. rewrite Hbuf. cbn [concat].
    rewrite <-app_assoc. apply bytes_at_app; lia.
  - rewrite <-(IH (pre ++ c)) at 2; [|rewrite Hbuf; cbn [concat]; by rewrite <-!app_assoc].
    f_equal. rewrite length_app. lia.
Qed.

Lemma read_at_app pre bs post n :
  buf = pre ++ bs ++ post → length bs = n → read_at (pa + Z.of_nat (length pre)) n = bs.
Proof. intros HB Hn. unfold read_at. rewrite HB. apply bytes_at_app; lia. Qed.

(** Structures without pointers. *)
Lemma parsed_bytes {A} size (parse : list Z → A) (bytes : A → list Z) l :
  Forall (λ x, length (bytes x) = size ∧ parse (bytes x) = x) l → parsed size parse l (bytes <$> l).
Proof. induction 1; constructor; auto. Qed.
End Read.

Lemma concat_fmap {A} (bytes : A → list Z) l : concat (bytes <$> l) = l ≫= bytes.
Proof. induction l as [|x l IH]; [done|]. cbn. by rewrite <-IH. Qed.

Lemma length_bytes {A} size (bytes : A → list Z) l :
  Forall (λ x, length (bytes x) = size) l → length (l ≫= bytes) = (length l * size)%nat.
Proof. induction 1 as [|x l Hx _ IH]; [done|]. rewrite bind_cons, length_app, Hx, IH. done. Qed.

(** ** The structures are read back *)
Definition bank_ok (b : RmmMemoryBank) : Prop := unsigned 8 (bank_base b) ∧ unsigned 8 (bank_size b).
Definition console_ok (c : RmmConsoleInfo) : Prop :=
  unsigned 8 (console_base c) ∧ unsigned 8 (map_pages c) ∧ length (name c) = 8%nat ∧
  unsigned 8 (clk_in_hz c) ∧ unsigned 8 (baud_rate c) ∧ unsigned 8 (flags c) ∧
  Forall byte (name c).
Definition smmu_ok (s : RmmSmmuInfo) : Prop := unsigned 8 (smmu_base s) ∧ unsigned 8 (smmu_r_base s).
Definition bdf_ok (b : BdfMappingInfo) : Prop :=
  unsigned 2 (mapping_base b) ∧ unsigned 2 (mapping_top b) ∧ unsigned 2 (mapping_off b) ∧
  unsigned 2 (smmu_idx b).
Definition port_ok (p : RmmRootPortInfo) : Prop := unsigned 2 (root_port_id p) ∧ Forall bdf_ok (port_entries p).
Definition root_ok (r : RmmRootComplexInfo) : Prop :=
  unsigned 8 (ecam_base r) ∧ unsigned 1 (segment r) ∧ Forall port_ok (root_entries r).
(** The major version has fifteen bits. *)
Definition version_ok (v : RmmBootManifestVersion) : Prop := 0 ≤ minor v < 2 ^ 16 ∧ 0 ≤ major v < 2 ^ 15.

Lemma bank_round_trip b : bank_ok b → length (bank_bytes b) = 16%nat ∧ bank_from (bank_bytes b) = b.
Proof.
  destruct b as [x y]. intros [Hx Hy]. split; [unfold bank_bytes; by lengths|].
  unfold bank_from, bank_bytes. cbn [bank_base bank_size] in *. f_equal; field.
Qed.
Lemma smmu_round_trip s : smmu_ok s → length (smmu_bytes s) = 16%nat ∧ smmu_from (smmu_bytes s) = s.
Proof.
  destruct s as [x y]. intros [Hx Hy]. split; [unfold smmu_bytes; by lengths|].
  unfold smmu_from, smmu_bytes. cbn [smmu_base smmu_r_base] in *. f_equal; field.
Qed.
Lemma console_round_trip c :
  console_ok c → length (console_bytes c) = 48%nat ∧ console_from (console_bytes c) = c.
Proof.
  destruct c as [x1 x2 nm x3 x4 x5]. intros (H1 & H2 & Hn & H3 & H4 & H5 & _).
  cbn [console_base map_pages name clk_in_hz baud_rate flags] in *.
  split; [unfold console_bytes; cbn [name]; lengths; lia|].
  unfold console_from, console_bytes. cbn [console_base map_pages name clk_in_hz baud_rate flags].
  f_equal; try field. rewrite app_assoc. apply bytes_at_app; [by lengths|done].
Qed.
Lemma bdf_round_trip b : bdf_ok b → length (bdf_bytes b) = BDF_SIZE ∧ bdf_from (bdf_bytes b) = b.
Proof.
  destruct b as [x1 x2 x3 x4]. intros (H1 & H2 & H3 & H4). split; [unfold bdf_bytes; by lengths|].
  unfold bdf_from, bdf_bytes. cbn [mapping_base mapping_top mapping_off smmu_idx] in *. f_equal; field.
Qed.

Lemma version_round_trip v :
  version_ok v → version_try_from (version_into v) = Ok v ∧ unsigned 4 (version_into v).
Proof.
  destruct v as [mi ma]. intros [Hmi Hma]. cbn [minor major] in *.
  unfold version_into, version_try_from. cbn [minor major].
  assert (Z.shiftr (Z.lor (Z.shiftl ma 16) mi) 16 = ma) as ->.
  { rewrite Z.shiftr_lor, Z.shiftr_shiftl_l, Z.shiftl_0_r by lia.
    rewrite (Z.shiftr_div_pow2 mi), Z.div_small, Z.lor_0_r by lia. done. }
  assert (Z.land (Z.lor (Z.shiftl ma 16) mi) 0xFFFF = mi) as ->.
  { change 0xFFFF with (Z.ones 16). rewrite Z.land_ones, Z.shiftl_mul_pow2 by lia.
    rewrite lor_disjoint; [rewrite Z.add_comm, Z.mod_add, Z.mod_small; lia|].
    rewrite <-Z.shiftl_mul_pow2 by lia. apply Z.bits_inj'. intros i Hi.
    rewrite Z.land_spec, Z.bits_0. destruct (decide (i < 16)); [by rewrite Z.shiftl_spec_low by lia|].
    rewrite (Z.bits_above_log2 mi i); [by rewrite andb_false_r|lia|].
    destruct (decide (mi = 0)) as [->|]; [simpl; lia|].
    apply Z.log2_lt_pow2; [lia|]. eapply Z.lt_le_trans; [apply Hmi|]. apply Z.pow_le_mono_r; lia. }
  change 0xFFFF with (Z.ones 16). rewrite (Z.land_ones ma), (Z.mod_small ma) by lia.
  change 0x7fff with (Z.ones 15). rewrite (Z.land_ones ma), (Z.mod_small ma), Z.eqb_refl by lia.
  split; [done|]. unfold unsigned. change (256 ^ Z.of_nat 4) with (2 ^ 32).
  apply lor_lt; [lia| |lia]. rewrite Z.shiftl_mul_pow2 by lia. lia.
Qed.

(** ** Packing returns *)
Lemma to_le_bytes_byte n v : Forall byte (to_le_bytes n v).
Proof.
  revert v. induction n as [|n IH]; intros v; cbn [to_le_bytes]; [exact (List.Forall_nil _)|].
  constructor; [apply Z.mod_pos_bound; lia|apply IH].
Qed.
Lemma from_le_bytes_nonneg bs : Forall byte bs → 0 ≤ from_le_bytes bs.
Proof. induction 1 as [|b bs Hb _ IH]; simpl; [done|]. unfold byte in Hb. lia. Qed.

Definition Zsum (l : list Z) : Z := foldr Z.add 0 l.

Lemma u64s_nonneg fuel bs : Forall byte bs → Forall (λ v, 0 ≤ v) (u64s fuel bs).
Proof.
  revert bs. induction fuel as [|fuel IH]; intros bs Hbs; [exact (List.Forall_nil _)|].
  destruct bs as [|b bs]; [exact (List.Forall_nil _)|]. cbn [u64s]. constructor.
  - by apply from_le_bytes_nonneg, Forall_take.
  - by apply IH, Forall_drop.
Qed.

Lemma Zsum_app l k : Zsum (l ++ k) = Zsum l + Zsum k.
Proof. induction l as [|x l IH]; simpl; [done|]. unfold Zsum in *. lia. Qed.
Lemma Zsum_nonneg l : Forall (λ v, 0 ≤ v) l → 0 ≤ Zsum l.
Proof. induction 1 as [|x l Hx _ IH]; simpl; [done|]. unfold Zsum in *. lia. Qed.

Lemma sum_u64_from a l :
  Forall (λ v, 0 ≤ v) l → a + Zsum l < 2 ^ 64 →
  fold_outcome (λ a v, if a + v <? 2 ^ 64 then Done (a + v) else Panic) a l = Done (a + Zsum l).
Proof.
  intros Hl. revert a. induction Hl as [|x l Hx Hl IH]; intros a Hs; [cbn; by rewrite Z.add_0_r|].
  pose proof (Zsum_nonneg l Hl) as Hn. change (Zsum (x :: l)) with (x + Zsum l) in *.
  cbn [fold_outcome]. rewrite (proj2 (Z.ltb_lt (a + x) _)) by lia. cbv [mbind outcome_bind].
  rewrite IH by lia. f_equal. lia.
Qed.
Lemma sum_u64_done l : Forall (λ v, 0 ≤ v) l → Zsum l < 2 ^ 64 → sum_u64 l = Done (Zsum l).
Proof. intros. by apply (sum_u64_from 0). Qed.

Section Total.
Context `{Hz : Zerocopy} `{!ZerocopyLaws}.
Context (buf_ptr buf_pa slice_addr : Z).
Context (Hptr : buf_ptr mod PAGE_SIZE = 0) (Hslice : slice_addr mod 8 = 0).
Context (Hpa : 0 ≤ buf_pa ∧ buf_pa + RMM_SHARED_BUFFER_SIZE ≤ 2 ^ 64).

Lemma checksum_done addr bs other :
  addr mod 8 = 0 → Z.of_nat (length bs) mod 8 = 0 → Forall byte bs → Forall (λ v, 0 ≤ v) other →
  Zsum (u64s (length bs) bs) + Zsum other < 2 ^ 64 →
  ∃ c, compute_checksum addr bs other = Done c ∧ unsigned 8 c ∧
    (Zsum (u64s (length bs) bs) + Zsum other + c) mod 2 ^ 64 = 0.
Proof.
  intros Ha Hl Hb Ho Hs. unfold compute_checksum. rewrite from_bytes_spec, Ha, Hl.
  cbv [mbind outcome_bind]. cbn [Z.eqb assert_ andb].
  rewrite sum_u64_done; [|by apply Forall_app; split; [apply u64s_nonneg|]|by rewrite Zsum_app].
  eexists. split; [reflexivity|]. split; [apply Z.mod_pos_bound; done|]. rewrite Zsum_app.
  rewrite Z.add_mod_idemp_r, Z.add_opp_diag_r by done. done.
Qed.

(** The first [n] bytes of what is left. *)
Lemma split_done n rem : (n ≤ length rem)%nat → split_at_mut n rem = Done (take n rem, drop n rem).
Proof. intros. unfold split_at_mut. by rewrite decide_True. Qed.
Lemma addr_of_done rem :
  (0 < length rem ≤ 4096)%nat →
  addr_of buf_pa rem = Done (buf_pa + offset_of rem) ∧ unsigned 8 (buf_pa + offset_of rem).
Proof.
  intros Hr. unfold addr_of, offset_of, RMM_SHARED_BUFFER_SIZE, unsigned in *.
  change (256 ^ Z.of_nat 8) with (2 ^ 64).
  rewrite (proj2 (Z.ltb_lt _ _)) by lia. cbv [mbind outcome_bind assert_].
  rewrite (proj2 (Z.ltb_lt _ _)) by lia. split; [done|lia].
Qed.
Lemma offset_of_drop n rem :
  (n ≤ length rem)%nat → offset_of (drop n rem) = offset_of rem + Z.of_nat n.
Proof. intros. unfold offset_of. rewrite length_drop. lia. Qed.
Lemma ptr_aligned off : off mod 8 = 0 → (buf_ptr + off) mod 8 = 0.
Proof.
  intros Ho%Z.mod_divide; [|done]. apply Z.mod_divide; [done|]. apply Z.divide_add_r; [|done].
  apply (Z.divide_trans _ PAGE_SIZE); [by exists 512|]. by apply Z.mod_divide.
Qed.

Lemma entries_mod z k n : 0 < z → n = (k * Z.to_nat z)%nat → Z.of_nat n mod z = 0.
Proof. intros Hz0 ->. rewrite Nat2Z.inj_mul, Z2Nat.id by lia. apply Z_mod_mult. Qed.
Lemma mod8_divides a x : 8 mod a = 0 → x mod 8 = 0 → x mod a = 0.
Proof.
  destruct (decide (a = 0)) as [->|Ha]; [by rewrite Z.mod_0_r|].
  intros [k Hk]%Z.mod_divide Hx%Z.mod_divide; [|done..]. apply Z.mod_divide; [done|].
  etrans; [|exact Hx]. by exists k.
Qed.
Lemma offset_mod8 n rem :
  (n ≤ length rem)%nat → offset_of rem mod 8 = 0 → Z.of_nat n mod 8 = 0 → offset_of (drop n rem) mod 8 = 0.
Proof. intros Hn Ho Hm. rewrite offset_of_drop by done. by rewrite Z.add_mod, Ho, Hm. Qed.

(** *** The ports of a root complex *)
Definition ports_size (ports : list RmmRootPortInfo) : nat :=
  sum_list_with (λ p, length (port_entries p) * BDF_SIZE)%nat ports.

Lemma bdfs_parsed p :
  port_ok p →
  parsed BDF_SIZE bdf_from (port_entries p) (bdf_bytes <$> port_entries p) ∧
  length (port_entries p ≫= bdf_bytes) = (length (port_entries p) * BDF_SIZE)%nat.
Proof.
  intros [_ Hb]. split.
  - apply parsed_bytes. exact (List.Forall_impl _ bdf_round_trip Hb).
  - apply length_bytes. exact (List.Forall_impl _ (λ b H, proj1 (bdf_round_trip b H)) Hb).
Qed.

Lemma as_u32_small n : (n ≤ 4096)%nat → as_u32 (Z.of_nat n) = Z.of_nat n ∧ unsigned 4 (Z.of_nat n).
Proof.
  intros Hn. split; [apply Z.mod_small; lia|]. unfold unsigned. change (256 ^ Z.of_nat 4) with (2 ^ 32). lia.
Qed.

Lemma port_info_read B pre post p pad :
  port_ok p → (length (port_entries p) ≤ 4096)%nat → length pad = 2%nat →
  B = pre ++ (port_entries p ≫= bdf_bytes) ++ post →
  unsigned 8 (buf_pa + Z.of_nat (length pre)) →
  let c := port_info_bytes (mkPortInfo (root_port_id p) pad (as_u32 (Z.of_nat (length (port_entries p))))
             (buf_pa + Z.of_nat (length pre))) in
  length c = PORT_INFO_SIZE ∧ port_from buf_pa B c = p.
Proof.
  intros Hp Hn Hpad HB Hu. destruct (as_u32_small _ Hn) as [-> Hn4]. cbv zeta.
  destruct (bdfs_parsed p Hp) as [Hpar _]. destruct p as [id es]. destruct Hp as [Hid _].
  cbn [root_port_id port_entries] in *.
  unfold port_info_bytes. cbn [pi_root_port_id pi_padding pi_num_entries pi_entries_ptr].
  split; [lengths; done|]. unfold port_from. f_equal; [field|].
  etrans; [|apply (read_list_parsed buf_pa B _ _ _ _ pre post Hpar); by rewrite concat_fmap].
  f_equal; [|field]. etrans; [|apply Nat2Z.id]. f_equal. field.
Qed.

(** What [pack_ports] returns: the descriptions, the mappings and what is left of
    the buffer, with each description leading to the mappings of its port
    wherever the mappings are put at the offset of the buffer. *)
Lemma pack_ports_done ports hbuf rem :
  Forall port_ok ports → length hbuf = (length ports * PORT_INFO_SIZE)%nat →
  (ports_size ports < length rem ≤ 4096)%nat → offset_of rem mod 8 = 0 →
  ∃ chunks maps,
    pack_ports buf_ptr buf_pa ports hbuf rem = Done (concat chunks, maps, drop (ports_size ports) rem) ∧
    length (concat chunks) = (length ports * PORT_INFO_SIZE)%nat ∧ length maps = ports_size ports ∧
    ∀ B pre post, Z.of_nat (length pre) = offset_of rem → B = pre ++ maps ++ post →
      parsed PORT_INFO_SIZE (port_from buf_pa B) ports chunks.
Proof.
  intros Hok. revert hbuf rem. induction Hok as [|p ports Hp _ IH]; intros hbuf rem Hh Hr Ho.
  { exists [], []. rewrite drop_0. repeat split. constructor. }
  change (ports_size (p :: ports)) with (length (port_entries p) * BDF_SIZE + ports_size ports)%nat in *.
  destruct (bdfs_parsed p Hp) as [_ Hlen].
  set (n := (length (port_entries p) * BDF_SIZE)%nat) in *.
  cbn [pack_ports]. fold n. pose (bdfs := port_entries p ≫= bdf_bytes). fold bdfs in Hlen |- *.
  rewrite split_done by lia. cbv [mbind outcome_bind].
  destruct (addr_of_done rem) as [-> Hu]; [lia|].
  rewrite from_bytes_spec, (mod8_divides 2), (entries_mod 8 _ n eq_refl eq_refl) by (done || by apply ptr_aligned).
  cbn [Z.eqb andb assert_].
  destruct (IH (drop PORT_INFO_SIZE hbuf) (drop n rem)) as (chunks & maps & -> & Hc & Hm & Hpar).
  { rewrite length_drop, Hh. cbn [length]. lia. }
  { rewrite length_drop. lia. }
  { apply offset_mod8; [lia|done|by apply (entries_mod 8 (length (port_entries p)) n)]. }
  eexists (_ :: chunks), (bdfs ++ maps). split; [cbn [concat]; by rewrite drop_drop|].
  assert (length (bytes_at 2 2 hbuf) = 2%nat) as Hpad.
  { apply length_bytes_at. rewrite Hh. cbn [length]. unfold PORT_INFO_SIZE. lia. }
  split; [cbn [concat]; rewrite length_app, Hc; unfold port_info_bytes; cbn [pi_padding]; lengths; done|].
  split; [rewrite length_app; lia|]. intros B pre post Hpre HB. constructor.
  - rewrite <-Hpre in Hu |- *. eapply port_info_read; [done| |done|by rewrite HB, <-app_assoc|done].
    unfold n, BDF_SIZE in *. lia.
  - apply (Hpar B (pre ++ bdfs) post).
    + rewrite length_app, offset_of_drop by lia. lia.
    + by rewrite HB, <-!app_assoc.
Qed.

Lemma bytes_bind {A} (bytes : A → list Z) l : (∀ x, Forall byte (bytes x)) → Forall byte (l ≫= bytes).
Proof.
  intros Hb. induction l as [|x l IH]; [exact (List.Forall_nil _)|].
  rewrite bind_cons. by apply Forall_app.
Qed.
Lemma mret_triple {A B C} (a a' : A) (b b' : B) (c c' : C) :
  (mret (a, b, c) : outcome _) = Done (a', b', c') → a = a' ∧ b = b' ∧ c = c'.
Proof. by intros [= -> -> ->]. Qed.
Lemma pack_ports_bytes ports hbuf rem infos maps rest :
  pack_ports buf_ptr buf_pa ports hbuf rem = Done (infos, maps, rest) →
  Forall byte hbuf → Forall byte (infos ++ maps).
Proof.
  revert hbuf rem infos maps rest.
  induction ports as [|p ports IH]; intros hbuf rem infos maps rest; cbn [pack_ports].
  { intros [= <- <- <-] _. exact (List.Forall_nil _). }
  intros ([_ rest1] & _ & H1)%outcome_bind_Done Hh. apply outcome_bind_Done in H1 as (ptr & _ & H1).
  apply outcome_bind_Done in H1 as (? & _ & H1). apply outcome_bind_Done in H1 as ([[infos' maps'] rest'] & H1 & H2).
  apply IH in H1 as [Hi Hm]%Forall_app; [|by apply Forall_drop]. apply mret_triple in H2 as (<- & <- & <-).
  unfold port_info_bytes. rewrite !Forall_app. repeat split; try done; try apply to_le_bytes_byte.
  - by apply Forall_take, Forall_drop.
  - apply bytes_bind. intros []. unfold bdf_bytes. rewrite !Forall_app.
    repeat split; apply to_le_bytes_byte.
Qed.

(** *** The root complexes *)
Definition root_size (r : RmmRootComplexInfo) : nat :=
  (length (root_entries r) * PORT_INFO_SIZE + ports_size (root_entries r))%nat.
Definition roots_size (roots : list RmmRootComplexInfo) : nat := sum_list_with root_size roots.

Lemma root_info_read B pre post r chunks :
  root_ok r → (length (root_entries r) ≤ 4096)%nat →
  parsed PORT_INFO_SIZE (port_from buf_pa B) (root_entries r) chunks →
  B = pre ++ concat chunks ++ post →
  unsigned 8 (buf_pa + Z.of_nat (length pre)) →
  let c := rc_info_bytes (mkRcInfo (ecam_base r) (segment r) [0; 0; 0]
             (as_u32 (Z.of_nat (length (root_entries r)))) (buf_pa + Z.of_nat (length pre))) in
  length c = RC_INFO_SIZE ∧ root_from buf_pa B c = r.
Proof.
  intros Hr Hn Hpar HB Hu. destruct (as_u32_small _ Hn) as [-> Hn4]. cbv zeta.
  destruct r as [base seg es]. destruct Hr as (Hbase & Hseg & _).
  cbn [ecam_base segment root_entries] in *.
  unfold rc_info_bytes. cbn [ri_ecam_base ri_segment ri_padding ri_num_entries ri_entries_ptr].
  set (pad := [0; 0; 0]). assert (length pad = 3%nat) as Hpad by done. clearbody pad.
  split; [lengths; done|]. unfold root_from. f_equal; [field|field|].
  etrans; [|exact (read_list_parsed buf_pa B _ _ _ _ pre post Hpar HB)].
  f_equal; [|field]. etrans; [|apply Nat2Z.id]. f_equal. field.
Qed.

Lemma ports_size_mod8 ports : Z.of_nat (ports_size ports) mod 8 = 0.
Proof.
  apply (entries_mod 8 (sum_list_with (λ p, length (port_entries p)) ports)); [done|].
  unfold ports_size. induction ports as [|p ports IH]; [done|]. cbn [sum_list_with]. rewrite IH.
  change (Z.to_nat 8) with BDF_SIZE. lia.
Qed.
Lemma root_size_mod8 r : Z.of_nat (root_size r) mod 8 = 0.
Proof.
  unfold root_size. rewrite Nat2Z.inj_add, Z.add_mod, ports_size_mod8 by done.
  rewrite (entries_mod 8 (length (root_entries r) * 2)); [done..|]. unfold PORT_INFO_SIZE.
  change (Z.to_nat 8) with 8%nat. lia.
Qed.

Lemma pack_roots_done roots rem :
  Forall root_ok roots → (roots_size roots < length rem ≤ 4096)%nat → offset_of rem mod 8 = 0 →
  Forall byte rem →
  ∃ chunks below,
    pack_roots buf_ptr buf_pa roots rem = Done (concat chunks, below, drop (roots_size roots) rem) ∧
    length (concat chunks) = (length roots * RC_INFO_SIZE)%nat ∧ length below = roots_size roots ∧
    Forall byte (concat chunks ++ below) ∧
    ∀ B pre post, Z.of_nat (length pre) = offset_of rem → B = pre ++ below ++ post →
      parsed RC_INFO_SIZE (root_from buf_pa B) roots chunks.
Proof.
  intros Hok. revert rem. induction Hok as [|r roots Hr _ IH]; intros rem Hl Ho Hb.
  { exists [], []. rewrite drop_0. repeat split; [exact (List.Forall_nil _)|]. constructor. }
  change (roots_size (r :: roots)) with (root_size r + roots_size roots)%nat in *.
  pose proof (root_size_mod8 r) as Hmod. unfold root_size in *.
  set (n := (length (root_entries r) * PORT_INFO_SIZE)%nat) in *.
  assert (Z.of_nat n mod 16 = 0 ∧ Z.of_nat n mod 8 = 0) as [Hn16 Hn8].
  { split; [by apply (entries_mod 16 (length (root_entries r)))|].
    apply (entries_mod 8 (length (root_entries r) * 2)); [done|]. unfold n, PORT_INFO_SIZE.
    change (Z.to_nat 8) with 8%nat. lia. }
  cbn [pack_roots]. fold n. rewrite split_done by lia. cbv [mbind outcome_bind].
  destruct (addr_of_done rem) as [-> Hu]; [lia|].
  rewrite from_bytes_spec, ptr_aligned, length_take, Nat.min_l, Hn16 by (done || lia).
  cbn [Z.eqb andb assert_].
  destruct (pack_ports_done (root_entries r) (take n rem) (drop n rem))
    as (pchunks & maps & Hports & Hpc & Hm & Hppar).
  { apply Hr. } { rewrite length_take. lia. } { rewrite length_drop. lia. }
  { apply offset_mod8; [lia|done..]. }
  pose proof (pack_ports_bytes _ _ _ _ _ _ Hports (Forall_take _ _ _ Hb)) as [Hb1 Hb2]%Forall_app.
  rewrite Hports, drop_drop.
  destruct (IH (drop (n + ports_size (root_entries r)) rem)) as (chunks & below & -> & Hc & Hbl & [Hb3 Hb4]%Forall_app & Hpar).
  { rewrite length_drop. lia. } { apply offset_mod8; [lia|done..]. } { by apply Forall_drop. }
  eexists (_ :: chunks), (concat pchunks ++ maps ++ below).
  split; [cbn [concat]; by rewrite drop_drop|].
  split; [cbn [concat]; rewrite length_app, Hc; unfold rc_info_bytes; cbn [ri_padding]; lengths; done|].
  split; [rewrite !length_app; lia|]. split.
  { cbn [concat]. unfold rc_info_bytes. rewrite !Forall_app. repeat split; try done; try apply to_le_bytes_byte.
    cbn [ri_padding]. repeat constructor; done. }
  intros B pre post Hpre HB. constructor.
  - rewrite <-Hpre in Hu |- *. eapply root_info_read; [done| | |by rewrite HB, <-app_assoc|done].
    + unfold n, PORT_INFO_SIZE in *. lia.
    + eapply (Hppar B (pre ++ concat pchunks) (below ++ post)); [|by rewrite HB, <-!app_assoc].
      rewrite length_app, offset_of_drop by lia. lia.
  - apply (Hpar B (pre ++ concat pchunks ++ maps) post); [|by rewrite HB, <-!app_assoc].
    rewrite !length_app, offset_of_drop by lia. lia.
Qed.

(** *** The lists *)
Definition list_ok (l : ChecksummedList) : Prop :=
  unsigned 8 (num_entries l) ∧ unsigned 8 (entries_ptr l) ∧ unsigned 8 (checksum l).

(** The words of a list, what the header says of it and its checksum add up to zero. *)
Definition list_sums (bs : list Z) (l : ChecksummedList) : Prop :=
  (Zsum (u64s (length bs) bs) + num_entries l + entries_ptr l + checksum l) mod 2 ^ 64 = 0.
(** The sum does not overflow wherever the list is put. *)
Definition sum_fits (bs : list Z) (extra : Z) : Prop :=
  Zsum (u64s (length bs) bs) + extra + buf_pa + RMM_SHARED_BUFFER_SIZE ≤ 2 ^ 64.

Lemma Zsum_two x y : Zsum [x; y] = x + y.
Proof. cbn. lia. Qed.

Lemma Zsum_three x y z : Zsum [x; y; z] = x + y + z.
Proof. cbn. lia. Qed.

Lemma make_list_done {A} size k (bytes : A → list Z) (parse : list Z → A) l rem :
  Forall (λ x, length (bytes x) = size ∧ parse (bytes x) = x) l → Forall (λ x, Forall byte (bytes x)) l →
  size = (k * 8)%nat → (length l * size < length rem ≤ 4096)%nat →
  sum_fits (l ≫= bytes) (Z.of_nat (length l)) →
  ∃ e, make_list buf_pa slice_addr bytes l rem = Done (e, l ≫= bytes, drop (length l * size) rem) ∧
    length (l ≫= bytes) = (length l * size)%nat ∧ list_ok e ∧ list_sums (l ≫= bytes) e ∧
    num_entries e = Z.of_nat (length l) ∧
    ∀ B pre post, Z.of_nat (length pre) = offset_of rem → B = pre ++ (l ≫= bytes) ++ post →
      read_list buf_pa B size parse (length l) (entries_ptr e) = l ∧
      read_at buf_pa B (entries_ptr e) (length l * size) = l ≫= bytes.
Proof.
  intros Hrt Hby Hsize Hlen Hsum.
  assert (length (l ≫= bytes) = (length l * size)%nat) as Hlb.
  { apply length_bytes. exact (List.Forall_impl _ (λ x H, proj1 H) Hrt). }
  assert (Forall byte (l ≫= bytes)) as Hbl.
  { clear -Hby. induction Hby; [exact (List.Forall_nil _)|]. rewrite bind_cons. by apply Forall_app. }
  assert (∃ ptr, (match l with [] => mret 0 | _ => addr_of buf_pa rem end) = Done ptr ∧
            0 ≤ ptr < buf_pa + RMM_SHARED_BUFFER_SIZE ∧ (l ≠ [] → ptr = buf_pa + offset_of rem))
    as (ptr & Hptr' & Hb & Hp).
  { destruct l; [exists 0; split; [done|]; unfold RMM_SHARED_BUFFER_SIZE; split; [lia|done]|].
    destruct (addr_of_done rem) as [-> _]; [lia|]. eexists. split; [done|]. split; [|done].
    unfold offset_of, RMM_SHARED_BUFFER_SIZE. lia. }
  pose proof (Zsum_nonneg _ (u64s_nonneg (length (l ≫= bytes)) _ Hbl)) as Hnn.
  unfold sum_fits, RMM_SHARED_BUFFER_SIZE in *.
  destruct (checksum_done slice_addr (l ≫= bytes) [Z.of_nat (length l); ptr]) as (c & Hc & Hcu & Hcs); try done.
  { apply (entries_mod 8 (length l * k)); [done|]. change (Z.to_nat 8) with 8%nat. lia. }
  { repeat constructor; lia. } { rewrite Zsum_two. lia. }
  exists (mkList (Z.of_nat (length l)) ptr c). unfold make_list.
  rewrite split_done by lia. cbn [mbind outcome_bind]. rewrite Hptr'. cbn [mbind outcome_bind]. rewrite Hc, Hlb.
  split; [done|]. split; [done|]. split; [repeat split; cbn [num_entries entries_ptr checksum]; try lia; apply Hcu|].
  split; [unfold list_sums; cbn [num_entries entries_ptr checksum]; rewrite <-Hcs; f_equal; rewrite Zsum_two; lia|].
  split; [done|]. intros B pre post Hpre HB. cbn [entries_ptr].
  destruct l as [|x l]; [done|]. rewrite Hp, <-Hpre by done. split.
  - eapply read_list_parsed; [by apply parsed_bytes|]. by rewrite concat_fmap.
  - by apply (read_at_app buf_pa B pre _ post).
Qed.

(** *** The header *)
Definition header_ok (h : RmmBootManifestHeader) : Prop :=
  unsigned 4 (h_version h) ∧ length (h_padding h) = 4%nat ∧ unsigned 8 (h_plat_data h) ∧
  list_ok (h_plat_dram h) ∧ list_ok (h_plat_console h) ∧ list_ok (h_plat_ncoh_region h) ∧
  list_ok (h_plat_coh_region h) ∧ list_ok (h_plat_smmu h) ∧
  unsigned 8 (rc_num_entries (h_plat_root_complex h)) ∧ unsigned 4 (rc_version (h_plat_root_complex h)) ∧
  unsigned 8 (rc_entries_ptr (h_plat_root_complex h)) ∧ unsigned 8 (rc_checksum (h_plat_root_complex h)).

(** The list whose entry is at an offset of the header. *)
Definition list_at (off : nat) (B : list Z) : ChecksummedList :=
  mkList (int_at off 8 B) (int_at (off + 8) 8 B) (int_at (off + 16) 8 B).

Lemma list_at_app pre l post off :
  list_ok l → length pre = off → list_at off (pre ++ list_bytes l ++ post) = l.
Proof.
  destruct l as [n p c]. intros (Hn & Hp & Hc) Hpre. cbn [num_entries entries_ptr checksum] in *.
  unfold list_at, list_bytes. cbn [num_entries entries_ptr checksum]. rewrite <-!app_assoc.
  f_equal; (rewrite int_at_skip by lia; rewrite Hpre, ?Nat.sub_diag, ?Nat.add_sub'; field).
Qed.
Lemma length_list_bytes l : length (list_bytes l) = 24%nat.
Proof. unfold list_bytes. by lengths. Qed.

Lemma header_read h post :
  header_ok h → let B := header_bytes h ++ post in
  length (header_bytes h) = HEADER_SIZE ∧
  (int_at 0 4 B = h_version h ∧ int_at 8 8 B = h_plat_data h) ∧
  (list_at 16 B = h_plat_dram h ∧ list_at 40 B = h_plat_console h ∧ list_at 64 B = h_plat_ncoh_region h ∧
   list_at 88 B = h_plat_coh_region h ∧ list_at 112 B = h_plat_smmu h) ∧
  (int_at 136 8 B = rc_num_entries (h_plat_root_complex h) ∧
   int_at 144 4 B = rc_version (h_plat_root_complex h) ∧
   int_at 152 8 B = rc_entries_ptr (h_plat_root_complex h) ∧
   int_at 160 8 B = rc_checksum (h_plat_root_complex h)).
Proof.
  intros (Hv & Hpad & Hd & H1 & H2 & H3 & H4 & H5 & Hn & Hrv & Hp & Hc) B.
  split; [unfold header_bytes, rc_list_bytes; rewrite !length_app, !length_list_bytes; lengths; done|].
  unfold B, header_bytes, rc_list_bytes. rewrite <-!app_assoc.
  set (b1 := list_bytes (h_plat_dram h)). set (b2 := list_bytes (h_plat_console h)).
  set (b3 := list_bytes (h_plat_ncoh_region h)). set (b4 := list_bytes (h_plat_coh_region h)).
  set (b5 := list_bytes (h_plat_smmu h)).
  assert (length b1 = 24 ∧ length b2 = 24 ∧ length b3 = 24 ∧ length b4 = 24 ∧ length b5 = 24)%nat
    as (L1 & L2 & L3 & L4 & L5) by (repeat split; apply length_list_bytes).
  repeat match goal with |- _ ∧ _ => split end; try field.
  all: rewrite (app_assoc (to_le_bytes 4 _) (h_padding h)), (app_assoc _ (to_le_bytes 8 (h_plat_data h))).
  - apply list_at_app; [done|lengths; done].
  - rewrite (app_assoc _ b1). apply list_at_app; [done|lengths; done].
  - rewrite (app_assoc _ b1), (app_assoc _ b2). apply list_at_app; [done|lengths; done].
  - rewrite (app_assoc _ b1), (app_assoc _ b2), (app_assoc _ b3). apply list_at_app; [done|lengths; done].
  - rewrite (app_assoc _ b1), (app_assoc _ b2), (app_assoc _ b3), (app_assoc _ b4).
    apply list_at_app; [done|lengths; done].
Qed.

(** *** The manifest *)
Definition manifest_ok (m : RmmBootManifest) : Prop :=
  version_ok (version m) ∧ Forall bank_ok (plat_dram m) ∧ Forall console_ok (plat_console m) ∧
  Forall bank_ok (plat_ncoh_region m) ∧ Forall bank_ok (plat_coh_region m) ∧ Forall smmu_ok (plat_smmu m) ∧
  version_ok (rc_info_version (plat_root_complex m)) ∧ Forall root_ok (rc_entries (plat_root_complex m)).

(** Where the root complexes start, and the size of the manifest. *)
Definition roots_off (m : RmmBootManifest) : nat :=
  HEADER_SIZE + length (plat_data m) + length (plat_dram m) * 16 + length (plat_console m) * 48 +
  length (plat_ncoh_region m) * 16 + length (plat_coh_region m) * 16 + length (plat_smmu m) * 16.
Definition manifest_size (m : RmmBootManifest) : nat :=
  let roots := rc_entries (plat_root_complex m) in
  roots_off m + length roots * RC_INFO_SIZE + roots_size roots.

(** The sums of the checksums do not overflow. *)
Definition sums_fit (m : RmmBootManifest) (buf : list Z) : Prop :=
  let roots := rc_entries (plat_root_complex m) in
  sum_fits (plat_dram m ≫= bank_bytes) (Z.of_nat (length (plat_dram m))) ∧
  sum_fits (plat_console m ≫= console_bytes) (Z.of_nat (length (plat_console m))) ∧
  sum_fits (plat_ncoh_region m ≫= bank_bytes) (Z.of_nat (length (plat_ncoh_region m))) ∧
  sum_fits (plat_coh_region m ≫= bank_bytes) (Z.of_nat (length (plat_coh_region m))) ∧
  sum_fits (plat_smmu m ≫= smmu_bytes) (Z.of_nat (length (plat_smmu m))) ∧
  ∀ infos below rest,
    pack_roots buf_ptr buf_pa roots (drop (roots_off m + length roots * RC_INFO_SIZE) buf) =
      Done (infos, below, rest) →
    sum_fits (infos ++ below)
      (Z.of_nat (length roots) + version_into (rc_info_version (plat_root_complex m))).

(** The list at an offset of the header adds up to zero with its checksum. *)
Definition list_sums_at (B : list Z) (off size : nat) : Prop :=
  let l := list_at off B in
  list_sums (read_at buf_pa B (entries_ptr l) (Z.to_nat (num_entries l) * size)) l.
(** And so do the root complexes, which take [size] bytes. *)
Definition roots_sum_at (B : list Z) (size : nat) : Prop :=
  let ptr := int_at 152 8 B in
  (Zsum (u64s size (read_at buf_pa B ptr size)) + int_at 136 8 B + int_at 144 4 B + ptr + int_at 160 8 B)
    mod 2 ^ 64 = 0.

Lemma bank_bytes_byte b : Forall byte (bank_bytes b).
Proof. unfold bank_bytes. rewrite Forall_app. split; apply to_le_bytes_byte. Qed.
Lemma smmu_bytes_byte b : Forall byte (smmu_bytes b).
Proof. unfold smmu_bytes. rewrite Forall_app. split; apply to_le_bytes_byte. Qed.
Lemma console_bytes_byte c : console_ok c → Forall byte (console_bytes c).
Proof.
  intros (_ & _ & _ & _ & _ & _ & Hn). unfold console_bytes. rewrite !Forall_app.
  repeat split; try done; apply to_le_bytes_byte.
Qed.

Lemma offset_at k buf : length buf = 4096%nat → (k ≤ 4096)%nat → offset_of (drop k buf) = Z.of_nat k.
Proof. intros Hl Hk. unfold offset_of, RMM_SHARED_BUFFER_SIZE. rewrite length_drop. lia. Qed.

Lemma bank_entries l :
  Forall bank_ok l →
  Forall (λ x, (length (bank_bytes x) = 16%nat ∧ bank_from (bank_bytes x) = x) ∧ Forall byte (bank_bytes x)) l.
Proof. apply List.Forall_impl. intros x Hx. split; [by apply bank_round_trip|apply bank_bytes_byte]. Qed.
Lemma smmu_entries l :
  Forall smmu_ok l →
  Forall (λ x, (length (smmu_bytes x) = 16%nat ∧ smmu_from (smmu_bytes x) = x) ∧ Forall byte (smmu_bytes x)) l.
Proof. apply List.Forall_impl. intros x Hx. split; [by apply smmu_round_trip|apply smmu_bytes_byte]. Qed.
Lemma console_entries l :
  Forall console_ok l →
  Forall (λ x, (length (console_bytes x) = 48%nat ∧ console_from (console_bytes x) = x) ∧
               Forall byte (console_bytes x)) l.
Proof. apply List.Forall_impl. intros x Hx. split; [by apply console_round_trip|by apply console_bytes_byte]. Qed.

Lemma roots_off_mod8 m : Z.of_nat (length (plat_data m)) mod 8 = 0 → Z.of_nat (roots_off m) mod 8 = 0.
Proof.
  intros [j Hj]%Z.mod_divide; [|done]. apply Z.mod_divide; [done|]. unfold roots_off, HEADER_SIZE.
  exists (21 + j + Z.of_nat (length (plat_dram m)) * 2 + Z.of_nat (length (plat_console m)) * 6 +
    Z.of_nat (length (plat_ncoh_region m)) * 2 + Z.of_nat (length (plat_coh_region m)) * 2 +
    Z.of_nat (length (plat_smmu m)) * 2). lia.
Qed.

(** The entry [e] describes the list put at an offset of the buffer. *)
Definition describes {A} (size : nat) (bytes : A → list Z) (parse : list Z → A) (l : list A) (k : nat)
    (e : ChecksummedList) : Prop :=
  length (l ≫= bytes) = (length l * size)%nat ∧ list_ok e ∧ list_sums (l ≫= bytes) e ∧
  num_entries e = Z.of_nat (length l) ∧
  ∀ B pre post, length pre = k → B = pre ++ (l ≫= bytes) ++ post →
    read_list buf_pa B size parse (length l) (entries_ptr e) = l ∧
    read_at buf_pa B (entries_ptr e) (length l * size) = l ≫= bytes.

Lemma make_list_at {A} size j (bytes : A → list Z) parse l k buf :
  Forall (λ x, (length (bytes x) = size ∧ parse (bytes x) = x) ∧ Forall byte (bytes x)) l →
  size = (j * 8)%nat → length buf = 4096%nat → (k + length l * size < 4096)%nat →
  sum_fits (l ≫= bytes) (Z.of_nat (length l)) →
  ∃ e, make_list buf_pa slice_addr bytes l (drop k buf) =
         Done (e, l ≫= bytes, drop (k + length l * size) buf) ∧
    describes size bytes parse l k e.
Proof.
  intros [Hl Hby]%List.Forall_and_inv Hj Hb Hk Hs.
  destruct (make_list_done size j bytes parse l (drop k buf)) as (e & He & H1 & H2 & H3 & H4 & H5); try done.
  { rewrite length_drop. lia. }
  exists e. rewrite drop_drop in He. split; [done|]. do 4 (split; [done|]).
  intros B pre post Hpre HB. apply (H5 B pre post); [|done]. rewrite offset_at; lia.
Qed.

Lemma describes_ok {A} size (bytes : A → list Z) parse l k e : describes size bytes parse l k e → list_ok e.
Proof. by intros (_ & ? & _). Qed.
Lemma describes_sum {A} size (bytes : A → list Z) parse l k e B pre post off :
  describes size bytes parse l k e → length pre = k → B = pre ++ (l ≫= bytes) ++ post →
  list_at off B = e → list_sums_at B off size ∧ list_from buf_pa B size parse off = l.
Proof.
  intros (_ & _ & Hs & Hn & Hr) Hpre HB He. destruct (Hr B pre post Hpre HB) as [Hl Ha].
  unfold list_sums_at. rewrite He, Hn, Nat2Z.id, Ha. split; [done|].
  unfold list_from. change (int_at off 8 B) with (num_entries (list_at off B)).
  change (int_at (off + 8) 8 B) with (entries_ptr (list_at off B)). by rewrite He, Hn, Nat2Z.id.
Qed.

Lemma roots_packed m buf :
  Forall root_ok (rc_entries (plat_root_complex m)) → version_ok (rc_info_version (plat_root_complex m)) →
  length buf = 4096%nat → Forall byte buf → (manifest_size m < 4096)%nat → Z.of_nat (roots_off m) mod 8 = 0 →
  sums_fit m buf →
  let roots := rc_entries (plat_root_complex m) in
  let n := (length roots * RC_INFO_SIZE)%nat in
  let ver := version_into (rc_info_version (plat_root_complex m)) in
  let ptr := buf_pa + Z.of_nat (roots_off m) in
  ∃ chunks below c,
    pack_roots buf_ptr buf_pa roots (drop (roots_off m + n) buf) =
      Done (concat chunks, below, drop (manifest_size m) buf) ∧
    length (concat chunks ++ below) = (n + roots_size roots)%nat ∧
    compute_checksum (buf_ptr + Z.of_nat (roots_off m)) (concat chunks ++ below)
      [Z.of_nat (length roots); ver; ptr] = Done c ∧ unsigned 8 c ∧
    (Zsum (u64s (n + roots_size roots) (concat chunks ++ below)) + Z.of_nat (length roots) + ver + ptr + c)
      mod 2 ^ 64 = 0 ∧
    ∀ B pre post, length pre = roots_off m → B = pre ++ (concat chunks ++ below) ++ post →
      read_list buf_pa B RC_INFO_SIZE (root_from buf_pa B) (length roots) ptr = roots.
Proof.
  intros Hr Hv Hl Hb Hs Ho (_ & _ & _ & _ & _ & Hfit) roots n ver ptr.
  destruct (version_round_trip _ Hv) as [_ Hver]. fold ver in Hver.
  unfold manifest_size in *. fold roots n in Hs, Hfit, Hr |- *.
  assert (Z.of_nat n mod 8 = 0) as Hn.
  { apply (entries_mod 8 (length roots * 3)); [done|]. unfold n, RC_INFO_SIZE. change (Z.to_nat 8) with 8%nat. lia. }
  assert (Z.of_nat (roots_size roots) mod 8 = 0) as Hsz.
  { unfold roots_size. clear. induction roots as [|r l IH]; [done|]. cbn [sum_list_with].
    rewrite Nat2Z.inj_add, Z.add_mod, root_size_mod8, IH by done. done. }
  destruct (pack_roots_done roots (drop (roots_off m + n) buf)) as (chunks & below & Hp & Hc & Hbl & Hby & Hpar).
  { done. } { rewrite length_drop. lia. }
  { rewrite offset_at by lia. by rewrite Nat2Z.inj_add, Z.add_mod, Ho, Hn. } { by apply Forall_drop. }
  specialize (Hfit _ _ _ Hp). fold ver in Hfit. unfold sum_fits, RMM_SHARED_BUFFER_SIZE in *.
  assert (length (concat chunks ++ below) = (n + roots_size roots)%nat) as Hlen by (rewrite length_app; lia).
  rewrite drop_drop in Hp. unfold unsigned in Hver.
  destruct (checksum_done (buf_ptr + Z.of_nat (roots_off m)) (concat chunks ++ below)
              [Z.of_nat (length roots); ver; ptr]) as (c & Hcc & Hcu & Hcs).
  { by apply ptr_aligned. } { by rewrite Hlen, Nat2Z.inj_add, Z.add_mod, Hn, Hsz. } { done. }
  { repeat constructor; lia. } { rewrite Zsum_three. lia. }
  exists chunks, below, c. do 4 (split; [done|]). split.
  { rewrite <-Hlen, <-Hcs. f_equal. rewrite Zsum_three. lia. }
  intros B pre post Hpre HB. unfold ptr. rewrite <-Hpre.
  eapply (read_list_parsed _ _ _ _ _ chunks pre (below ++ post)); [|by rewrite HB, <-app_assoc].
  apply (Hpar B (pre ++ concat chunks) post); [|by rewrite HB, <-!app_assoc].
  rewrite offset_at, length_app by lia. lia.
Qed.

(** What the buffer holds when it has been packed. *)
Definition holds_manifest (m : RmmBootManifest) (B : list Z) : Prop :=
  let roots := rc_entries (plat_root_complex m) in
  read_manifest buf_pa B (length (plat_data m)) = Some m ∧
  list_sums_at B 16 16 ∧ list_sums_at B 40 48 ∧ list_sums_at B 64 16 ∧ list_sums_at B 88 16 ∧
  list_sums_at B 112 16 ∧ roots_sum_at B (length roots * RC_INFO_SIZE + roots_size roots).

(** The offsets of the lists. *)
Definition off_dram (m : RmmBootManifest) : nat := HEADER_SIZE + length (plat_data m).
Definition off_console (m : RmmBootManifest) : nat := off_dram m + length (plat_dram m) * 16.
Definition off_ncoh (m : RmmBootManifest) : nat := off_console m + length (plat_console m) * 48.
Definition off_coh (m : RmmBootManifest) : nat := off_ncoh m + length (plat_ncoh_region m) * 16.
Definition off_smmu (m : RmmBootManifest) : nat := off_coh m + length (plat_coh_region m) * 16.

(** The bytes of the manifest under a header, with those of the root complexes. *)
Definition image (m : RmmBootManifest) (h : RmmBootManifestHeader) (roots rest : list Z) : list Z :=
  header_bytes h ++ plat_data m ++ (plat_dram m ≫= bank_bytes) ++ (plat_console m ≫= console_bytes) ++
  (plat_ncoh_region m ≫= bank_bytes) ++ (plat_coh_region m ≫= bank_bytes) ++ (plat_smmu m ≫= smmu_bytes) ++
  roots ++ rest.

(** The header describes the manifest. *)
Record packed (m : RmmBootManifest) (h : RmmBootManifestHeader) (roots : list Z) : Prop := {
  p_header : header_ok h;
  p_version : h_version h = version_into (version m);
  p_data : h_plat_data h = buf_pa + Z.of_nat HEADER_SIZE;
  p_dram : describes 16 bank_bytes bank_from (plat_dram m) (off_dram m) (h_plat_dram h);
  p_console : describes 48 console_bytes console_from (plat_console m) (off_console m) (h_plat_console h);
  p_ncoh : describes 16 bank_bytes bank_from (plat_ncoh_region m) (off_ncoh m) (h_plat_ncoh_region h);
  p_coh : describes 16 bank_bytes bank_from (plat_coh_region m) (off_coh m) (h_plat_coh_region h);
  p_smmu : describes 16 smmu_bytes smmu_from (plat_smmu m) (off_smmu m) (h_plat_smmu h);
  p_roots : let l := rc_entries (plat_root_complex m) in
    let n := (length l * RC_INFO_SIZE + roots_size l)%nat in
    let rc := h_plat_root_complex h in
    length roots = n ∧ rc_num_entries rc = Z.of_nat (length l) ∧
    rc_version rc = version_into (rc_info_version (plat_root_complex m)) ∧
    rc_entries_ptr rc = buf_pa + Z.of_nat (roots_off m) ∧
    (Zsum (u64s n roots) + rc_num_entries rc + rc_version rc + rc_entries_ptr rc + rc_checksum rc)
      mod 2 ^ 64 = 0 ∧
    ∀ B pre post, length pre = roots_off m → B = pre ++ roots ++ post →
      read_list buf_pa B RC_INFO_SIZE (root_from buf_pa B) (length l) (rc_entries_ptr rc) = l;
}.

Ltac place :=
  first [by rewrite <-!app_assoc
        |unfold off_smmu, off_coh, off_ncoh, off_console, off_dram; rewrite !length_app; lia].

Lemma image_holds m h roots rest :
  version_ok (version m) → version_ok (rc_info_version (plat_root_complex m)) →
  packed m h roots → holds_manifest m (image m h roots rest).
Proof.
  intros Hv Hrv [Hh Pv Pd P1 P2 P3 P4 P5 (R1 & R2 & R3 & R4 & R5 & R6)].
  pose (B := image m h roots rest).
  destruct (header_read h (drop HEADER_SIZE B)) as (Lh & [Iv Id] & (I1 & I2 & I3 & I4 & I5) & (J1 & J2 & J3 & J4)); [done|].
  assert (header_bytes h ++ drop HEADER_SIZE B = B) as HB.
  { unfold B, image. by rewrite drop_app_length'. }
  rewrite HB in *.
  pose proof (proj1 P1) as L1. pose proof (proj1 P2) as L2. pose proof (proj1 P3) as L3.
  pose proof (proj1 P4) as L4. pose proof (proj1 P5) as L5.
  set (hb := header_bytes h) in *.
  set (l1 := plat_dram m ≫= bank_bytes) in *. set (l2 := plat_console m ≫= console_bytes) in *.
  set (l3 := plat_ncoh_region m ≫= bank_bytes) in *. set (l4 := plat_coh_region m ≫= bank_bytes) in *.
  set (l5 := plat_smmu m ≫= smmu_bytes) in *.
  destruct (describes_sum _ _ _ _ _ _ B (hb ++ plat_data m) (l2 ++ l3 ++ l4 ++ l5 ++ roots ++ rest) 16 P1) as [S1 T1]; [place|place|done|].
  destruct (describes_sum _ _ _ _ _ _ B (hb ++ plat_data m ++ l1) (l3 ++ l4 ++ l5 ++ roots ++ rest) 40 P2) as [S2 T2]; [place|place|done|].
  destruct (describes_sum _ _ _ _ _ _ B (hb ++ plat_data m ++ l1 ++ l2) (l4 ++ l5 ++ roots ++ rest) 64 P3) as [S3 T3]; [place|place|done|].
  destruct (describes_sum _ _ _ _ _ _ B (hb ++ plat_data m ++ l1 ++ l2 ++ l3) (l5 ++ roots ++ rest) 88 P4) as [S4 T4]; [place|place|done|].
  destruct (describes_sum _ _ _ _ _ _ B (hb ++ plat_data m ++ l1 ++ l2 ++ l3 ++ l4) (roots ++ rest) 112 P5) as [S5 T5]; [place|place|done|].
  assert (length (hb ++ plat_data m ++ l1 ++ l2 ++ l3 ++ l4 ++ l5) = roots_off m) as Hoff.
  { rewrite !length_app. unfold roots_off. lia. }
  assert (B = (hb ++ plat_data m ++ l1 ++ l2 ++ l3 ++ l4 ++ l5) ++ roots ++ rest) as HBr by place.
  specialize (R6 B _ rest Hoff HBr).
  change (holds_manifest m B). split; [|do 5 (split; [done|])].
  - unfold read_manifest, version_at. rewrite Iv, J2, Pv, R3.
    rewrite (proj1 (version_round_trip _ Hv)), (proj1 (version_round_trip _ Hrv)).
    cbn [mbind option_bind]. rewrite T1, T2, T3, T4, T5, Id, Pd, J1, J3, R2, Nat2Z.id, R6.
    rewrite <-Lh, (read_at_app buf_pa B hb (plat_data m) (l1 ++ l2 ++ l3 ++ l4 ++ l5 ++ roots ++ rest)) by done.
    by destruct m as [v ? ? ? ? ? ? []].
  - unfold roots_sum_at. rewrite J1, J2, J3, J4.
    assert (read_at buf_pa B (rc_entries_ptr (h_plat_root_complex h))
              (length (rc_entries (plat_root_complex m)) * RC_INFO_SIZE + roots_size (rc_entries (plat_root_complex m)))
            = roots) as -> by (rewrite R4, <-Hoff; by eapply read_at_app).
    exact R5.
Qed.

Lemma length_image m h roots buf :
  packed m h roots → (manifest_size m < 4096)%nat → length buf = 4096%nat →
  length (image m h roots (drop (manifest_size m) buf)) = 4096%nat.
Proof.
  intros [Hh _ _ [L1 _] [L2 _] [L3 _] [L4 _] [L5 _] [L6 _]] Hs Hl.
  destruct (header_read h [] Hh) as [Lh _]. unfold image.
  rewrite !length_app, length_drop, Lh, L1, L2, L3, L4, L5, L6, Hl. unfold manifest_size, roots_off in *. lia.
Qed.

Ltac done_bind :=
  match goal with |- context [mbind ?f (Done ?a)] => change (mbind f (Done a)) with (f a) end; cbv beta iota.

Lemma pack_image m buf :
  manifest_ok m → length buf = 4096%nat → Forall byte buf →
  Z.of_nat (length (plat_data m)) mod 8 = 0 → (manifest_size m < 4096)%nat → sums_fit m buf →
  ∃ h roots, manifest_pack buf_ptr buf_pa slice_addr m buf = Done (image m h roots (drop (manifest_size m) buf)) ∧
    packed m h roots.
Proof.
  intros (Hv & H1 & H2 & H3 & H4 & H5 & Hrv & Hr) Hl Hb Hd Hs Hfit.
  pose proof Hfit as (F1 & F2 & F3 & F4 & F5 & _).
  assert (Z.of_nat (roots_off m) mod 8 = 0) as Ho by by apply roots_off_mod8.
  destruct (roots_packed m buf) as (chunks & below & c & Hpr & Hrl & Hc & Hcu & Hcs & Hroots); try done.
  assert (off_smmu m + length (plat_smmu m) * 16 = roots_off m)%nat as Hoff by done.
  assert (off_dram m ≤ off_console m ≤ off_ncoh m ∧ off_ncoh m ≤ off_coh m ≤ off_smmu m ∧
    off_smmu m ≤ roots_off m ∧ roots_off m < 4096)%nat as Hoffs.
  { rewrite <-Hoff. unfold manifest_size in Hs. rewrite <-Hoff in Hs.
    unfold off_smmu, off_coh, off_ncoh, off_console in *. lia. }
  destruct (make_list_at 16 2 _ _ _ (off_dram m) buf (bank_entries _ H1)) as (e1 & M1 & D1); [done|done|unfold off_console in *; lia|done|].
  destruct (make_list_at 48 6 _ _ _ (off_console m) buf (console_entries _ H2)) as (e2 & M2 & D2); [done|done|unfold off_ncoh in *; lia|done|].
  destruct (make_list_at 16 2 _ _ _ (off_ncoh m) buf (bank_entries _ H3)) as (e3 & M3 & D3); [done|done|unfold off_coh in *; lia|done|].
  destruct (make_list_at 16 2 _ _ _ (off_coh m) buf (bank_entries _ H4)) as (e4 & M4 & D4); [done|done|unfold off_smmu in *; lia|done|].
  destruct (make_list_at 16 2 _ _ _ (off_smmu m) buf (smmu_entries _ H5)) as (e5 & M5 & D5); [done|done|lia|done|].
  destruct (addr_of_done (drop HEADER_SIZE buf)) as [Ha Hau]; [rewrite length_drop; unfold HEADER_SIZE; lia|].
  destruct (addr_of_done (drop (roots_off m) buf)) as [Hra Hrau]; [rewrite length_drop; lia|].
  rewrite offset_at in Ha, Hau, Hra, Hrau by (unfold HEADER_SIZE; lia).
  destruct (version_round_trip _ Hv) as [_ Hvu]. destruct (version_round_trip _ Hrv) as [_ Hrvu].
  unfold manifest_pack. rewrite Hptr. change (assert_ (0 =? 0)) with (Done tt). done_bind. rewrite split_done by (rewrite Hl; unfold HEADER_SIZE; lia). done_bind.
  rewrite split_done by (rewrite length_drop; unfold off_dram, HEADER_SIZE in *; lia). done_bind.
  rewrite Ha, drop_drop. done_bind. fold (off_dram m).
  rewrite M1. done_bind. fold (off_console m). rewrite M2. done_bind. fold (off_ncoh m).
  rewrite M3. done_bind. fold (off_coh m). rewrite M4. done_bind. fold (off_smmu m).
  rewrite M5. done_bind. rewrite Hoff.
  rewrite split_done by (rewrite length_drop; unfold manifest_size in Hs; lia). done_bind.
  rewrite Hra, drop_drop. done_bind.
  rewrite from_bytes_spec, offset_at, ptr_aligned, length_take by (done || lia).
  rewrite Nat.min_l by (rewrite length_drop; unfold manifest_size in Hs; lia).
  rewrite (entries_mod 24 (length (rc_entries (plat_root_complex m)))) by done.
  change (assert_ ((0 =? 0) && (0 =? 0))) with (Done tt). done_bind. rewrite Hpr. done_bind.
  rewrite Hc. done_bind.
  eexists (mkHeader _ _ _ e1 e2 e3 e4 e5 (mkRcList _ _ _ _ _)), (concat chunks ++ below).
  split; [unfold image; rewrite <-app_assoc; reflexivity|].
  constructor; cbn [h_version h_plat_data h_plat_dram h_plat_console h_plat_ncoh_region h_plat_coh_region
    h_plat_smmu h_plat_root_complex rc_num_entries rc_version rc_entries_ptr rc_checksum]; try done.
  unfold header_ok. cbn [h_version h_padding h_plat_data h_plat_dram h_plat_console h_plat_ncoh_region
    h_plat_coh_region h_plat_smmu h_plat_root_complex rc_num_entries rc_version rc_entries_ptr rc_checksum].
  split; [done|]. split; [apply length_bytes_at; rewrite length_take; unfold HEADER_SIZE; lia|]. split; [done|].
  do 5 (split; [by eapply describes_ok|]). split; [|done].
  unfold manifest_size, RC_INFO_SIZE in Hs. unfold unsigned. change (256 ^ Z.of_nat 8) with (2 ^ 64). lia.
Qed.

(** C18: Packing a boot manifest that is smaller than the shared buffer returns, if its
    platform data is a multiple of eight bytes long, as the lists behind it are read in
    words, and the words of no list and its description add up to more than a [u64]
    holds ([sums_fit]): a reader that follows the pointers of the header finds the
    manifest that was packed, and every list adds up to zero with its checksum, whatever
    the buffer held before. *)
Theorem manifest_round_trip m buf :
  manifest_ok m → length buf = 4096%nat → Forall byte buf →
  Z.of_nat (length (plat_data m)) mod 8 = 0 → (manifest_size m < 4096)%nat → sums_fit m buf →
  ∃ B, manifest_pack buf_ptr buf_pa slice_addr m buf = Done B ∧ length B = 4096%nat ∧ holds_manifest m B.
Proof.
  intros Hm Hl Hb Hd Hs Hf. destruct (pack_image m buf) as (h & roots & Hp & Hpk); try done.
  exists (image m h roots (drop (manifest_size m) buf)). split; [done|]. split.
  - by apply length_image.
  - destruct Hm as (Hv & _ & _ & _ & _ & _ & Hrv & _). by apply image_holds.
Qed.
End Total.
