(* ===== verification/ManifestSample.v ===== *)
(** * A boot manifest

    The manifest of FVP with a root complex, packed into a buffer of ones. *)

From Stdlib Require Import ZArith Lia.
From stdpp Require Import base list numbers option.
From S2P Require Import Prelude Smccc Rmm Manifest ManifestProps.
Open Scope rust_scope.
Open Scope Z_scope.

#[export] Instance sample_zerocopy : Zerocopy := {|
  from_bytes_valid align size addr len := (addr mod align =? 0) && (len mod size =? 0) |}.
#[export] Instance sample_zerocopy_laws : ZerocopyLaws.
Proof. by split. Qed.

Definition sample_root : RmmRootComplexInfo :=
  mkRoot 0x40000000 0 [mkPort 7 [mkBdf 0 0x100 0 0; mkBdf 0x100 0x200 0x80 0]; mkPort 9 []].
Definition sample_manifest : RmmBootManifest :=
  let m := fvp_manifest 0x880000000 0x1c090000 in
  mkManifest (version m) (repeat 3 8) (plat_dram m) (plat_console m) [] [mkBank 0x4000000000 0x1000]
    [mkSmmu 0x2b400000 0] (mkRootList RMM_BOOT_MANIFEST_ROOT_COMPLEX_VERSION [sample_root; mkRoot 0 1 []]).
Definition sample_buf : list Z := repeat 0xff 4096.
Definition sample_addr : Z := 0x4000.

Lemma manifest_round_trip_witness :
  (∃ B, manifest_pack sample_addr sample_addr 0 sample_manifest sample_buf = Done B ∧ length B = 4096%nat ∧
    holds_manifest sample_addr sample_manifest B) ∧
  ∃ B, rme_prepare_manifest 0x880000000 0x1c090000 sample_addr 0 sample_buf = Done B ∧ length B = 4096%nat ∧
    holds_manifest sample_addr (fvp_manifest 0x880000000 0x1c090000) B.
Proof.
  split; apply (manifest_round_trip sample_addr sample_addr 0).
  all: try (apply (bool_decide_unpack _); vm_compute; exact I).
  all: try (split; apply (bool_decide_unpack _); vm_compute; exact I).
  all: try (apply (List.Forall_forall byte sample_buf); intros x Hx; apply List.repeat_spec in Hx; subst x; done).
  all: do 5 (split; [by vm_compute|]); intros infos below rest E; vm_compute in E.
  all: injection E as <- <- <-; by vm_compute.
Defined.

(** A platform data section whose size is not a multiple of eight leaves the lists
    unaligned, and packing panics; so does it when the words of a list overflow,
    although only the low bits of their sum count. *)
Lemma unaligned_data_panics :
  let m := fvp_manifest 0x880000000 0x1c090000 in
  manifest_pack sample_addr sample_addr 0
    (mkManifest (version m) [1] (plat_dram m) (plat_console m) [] [] [] (plat_root_complex m)) sample_buf = Panic.
Proof. by vm_compute. Qed.
Lemma checksum_overflow_panics :
  let m := fvp_manifest 0x880000000 0x1c090000 in
  manifest_pack sample_addr sample_addr 0
    (mkManifest (version m) [] [mkBank (2 ^ 63) (2 ^ 63)] (plat_console m) [] [] [] (plat_root_complex m)) sample_buf
  = Panic.
Proof. by vm_compute. Qed.
