(* ===== verification/Gic.v ===== *)
(** * Interrupts

    The parts of [src/gicv3.rs] the main loop uses: the type of the pending
    interrupt and the handling of Group 0 interrupts, over the operations of the
    [arm_gic] crate. *)

From Stdlib Require Import ZArith Lia.
From stdpp Require Import base list numbers option.
From S2P Require Import Prelude Smccc Services.
Open Scope rust_scope.
Open Scope Z_scope.

(** [GicCpuInterface] and the constants of [IntId], and the platform's handler. *)
Record GicOps (St : Type) : Type := mkGicOps {
  SPECIAL_SECURE : Z;
  SPECIAL_NONSECURE : Z;
  get_pending_group0 : M St (option Z);
  acknowledge_group0 : M St (option Z);
  platform_handle_group0 : Z → M St unit;
  end_interrupt : Z → M St unit;
}.
Arguments mkGicOps {St}.
Arguments SPECIAL_SECURE {St}.
Arguments SPECIAL_NONSECURE {St}.
Arguments get_pending_group0 {St}.
Arguments acknowledge_group0 {St}.
Arguments platform_handle_group0 {St}.
Arguments end_interrupt {St}.

Section Gic.
Context {St : Type} (gic : GicOps St).

Definition get_pending_interrupt_type : M St InterruptType :=
  int_id ← get_pending_group0 gic;
  mret (match int_id with
        | None => IntInvalid
        | Some i =>
            if i =? SPECIAL_SECURE gic then IntSecure
            else if i =? SPECIAL_NONSECURE gic then IntNonSecure
            else IntEl3
        end).

Definition handle_group0_interrupt : M St unit :=
  int_id ← acknowledge_group0 gic;
  i ← lift (unwrap int_id);
  _ ← platform_handle_group0 gic i;
  end_interrupt gic i.
End Gic.
