(* ===== verification/System.v ===== *)
(** * The services of the firmware on one state

    The dispatcher as the SPM of PSCI, and the services of the repository put together as [Services::new] of
    [src/services.rs] does, on a state with a part for each of them: the law the
    main loop relies on is proved for every service, so that the loop runs
    without a panic for as long as the lower exception levels make calls that are
    meant to be made. *)

From Stdlib Require Import ZArith Lia.
From stdpp Require Import base list numbers option.
From S2P Require Import Prelude PowerState Smccc PowerTree Composite TreeInv Coordination Psci PsciInv PsciSystem PsciCalls PsciProps Trng TrngProofs TrngProps Gpt GptProofs Rmm RmmProofs Services ServicesProps Spmd SpmdProps.
Open Scope rust_scope.
Open Scope Z_scope.

(** ** Parts of a state *)
Record Lens (A B : Type) : Type := mkLens { lget : A → B; lput : B → A → A }.
Arguments mkLens {A B}.
Arguments lget {A B}.
Arguments lput {A B}.

Section Zoom.
Context {A B : Type} (l : Lens A B).

(** A computation on a part of the state. *)
Definition zoom {X} (m : M B X) : M A X := λ a,
  match m (lget l a) with
  | Ret x b => Ret x (lput l b a)
  | Halt b => Halt (lput l b a)
  | Crash => Crash
  end.

Definition zoom_service (s : Service B) : Service A :=
  mkService (owns s) (λ regs, zoom (handle_non_secure_smc s regs))
    (λ regs, zoom (handle_secure_smc s regs)) (λ regs, zoom (handle_realm_smc s regs)).

Lemma runs_zoom {X} (m : M B X) (Q : X → A → Prop) a :
  runs m (λ x b, Q x (lput l b a)) (lget l a) → runs (zoom m) Q a.
Proof. unfold runs, zoom. by destruct (m (lget l a)). Qed.

Lemma handle_by_zoom s w regs : handle_by (zoom_service s) w regs = zoom (handle_by s w regs).
Proof. by destruct w. Qed.

(** A service that keeps the invariant [J] of its part keeps the invariant [I] of
    the whole, if what it does to its part does. *)
Lemma zoom_service_ok R (J : World → B → Prop) Lg (I : World → A → Prop) legal s :
  service_moves J Lg R s →
  (∀ w a, I w a → J w (lget l a)) → (∀ w regs a, legal w regs a → Lg w regs (lget l a)) →
  (∀ w w' a b, I w a → R w w' → J w' b → I w' (lput l b a)) → (∀ w w', R w w' → world_ok w w') →
  service_ok I legal (zoom_service s).
Proof.
  intros Hs HI Hl Hput HR w regs a x HIa Hwf Hu Hleg Hx Ho. rewrite handle_by_zoom. apply runs_zoom.
  eapply runs_weaken; [by eapply Hs; [apply HI|..|apply Hl| |]|].
  intros [w' regs'] b' (HJ & Hw & Hwf'). split; [by eapply Hput|]. split; [by apply HR|done].
Qed.
End Zoom.

(** ** The dispatcher as the SPM of PSCI

    [impl PsciSpmInterface for Spmd], and what PSCI relies on: for as long as the SPMC
    answers what the dispatcher asks it, the dispatcher keeps the contract of an SPM. *)
Section SpmdPsci.
Context `{Hpsci : ArmPsciTypes} `{Hffa : ArmFfaTypes} `{Hops : !ArmFfaOps}.
Context {St : Type} (env : SpmdEnv St) (me : nat).
Implicit Types s : St.

Definition spmd_interface : PsciSpmInterface St :=
  mkPsciSpmInterface (spmd_forward_psci_request env) (spmd_notify_cpu_off env me)
    (spmd_notify_cpu_suspend_powerdown_abandoned env me).

(** The messages of the dispatcher that PSCI makes it send. *)
Definition power_message (args : DirectMsgArgs) : Prop :=
  match args with PowerPsciReq64 _ | PowerWarmBootReq _ => True | _ => False end.

(** The SPMC, started on this core and entered with [regs], comes back with its
    response; [good] holds of the state then, and the core's SPMC is in the state it
    was in. *)
Definition answered (good : St → Prop) (regs : SmcReturn) s : Prop :=
  ∃ regs' s' msg, spm_enter_world env regs Secure s = Ret (RunSmc, regs') s' ∧ good s' ∧
    local env me s' = local env me s ∧
    Spmd.from_regs (spmc_version (get_spmd env s')) (values regs') = Ok msg ∧
    is_Some (psci_response (get_spmd env s') msg).

(** What the dispatcher relies on: its memory holds what it stores, the contexts can
    be switched, and the SPMC answers while it is up. *)
Record spmc_contract (good : St → Prop) : Prop := mkSpmcContract {
  contract_put x s : get_spmd env (put_spmd env x s) = x;
  contract_good x s : good s → good (put_spmd env x s);
  contract_switch w w' s : w ≠ w' → good s →
    ∃ s', spm_switch_world env w w' s = Ret tt s' ∧ good s' ∧ get_spmd env s' = get_spmd env s;
  contract_answer args s : power_message args → good s →
    local env me s = Some SpmcRuntime ∨ local env me s = Some SpmcPsciEventHandling →
    answered good (power_request (get_spmd env s) args) s;
}.

(** The SPM is up: its SPMC is idle on this core; or it is off. *)
Definition spmd_up (good : St → Prop) (up : bool) s : Prop :=
  good s ∧ local env me s = Some (if up then SpmcRuntime else SpmcOff).

Context (good : St → Prop) (Hc : spmc_contract good).

Lemma switch_to e n s :
  good s → local env me s = Some e →
  ∃ s', switch_spmc_local_state env me e n s = Ret tt s' ∧ good s' ∧ local env me s' = Some n ∧
    spmc_id (get_spmd env s') = spmc_id (get_spmd env s) ∧
    spmc_version (get_spmd env s') = spmc_version (get_spmd env s).
Proof.
  intros Hg Hl. destruct (switch_state_put env (contract_put good Hc) me s e n Hl) as (x & Hs & Hm).
  exists (put_spmd env x s). split; [exact Hs|]. split; [by apply (contract_good good Hc)|].
  split; [exact (moved_lookup env _ _ _ _ _ Hl Hm)|]. by destruct Hm.
Qed.

(** The Secure world between two switches of contexts. *)
Lemma ask_returns {A} args (k : Z → M St A) s :
  power_message args → good s →
  local env me s = Some SpmcRuntime ∨ local env me s = Some SpmcPsciEventHandling →
  ∃ z s', good s' ∧ local env me s' = local env me s ∧
    (_ ← spm_switch_world env NonSecure Secure; z ← run_spmc env (power_request (get_spmd env s) args); k z) s =
    k z s'.
Proof.
  intros Ha Hg Hl. destruct (contract_switch good Hc NonSecure Secure s ltac:(done) Hg) as (s1 & Hs1 & Hg1 & He1).
  assert (Hl1 : local env me s1 = local env me s) by (unfold local; by rewrite He1).
  destruct (contract_answer good Hc args s1 Ha Hg1) as (regs' & s2 & msg & Hen & Hg2 & Hl2 & Hm & z & Hz);
    [by rewrite Hl1|].
  exists z, s2. split; [done|]. split; [congruence|]. rewrite He1 in Hen.
  unfold run_spmc, spmd_self. cbv [mbind M_bind get mret M_ret]. by rewrite Hs1, Hen, Hm, Hz.
Qed.

#[export] Instance spmd_spm_laws : SpmLaws spmd_interface (spmd_up good).
Proof.
  split.
  - intros f s [Hg Hl]. unfold spmd_interface, spmd_forward_psci_request. simpl.
    destruct (ask_returns (PowerPsciReq64 (copy_to_array f)) (λ ret,
      _ ← spm_switch_world env Secure NonSecure;
      mret (match return_code_try_from ret with Some code => code | None => Err InternalFailure end)) s
      I Hg ltac:(by left)) as (z & s1 & Hg1 & Hl1 & Hrun).
    destruct (contract_switch good Hc Secure NonSecure s1 ltac:(done) Hg1) as (s2 & Hs2 & Hg2 & He2).
    eexists _, s2. split.
    + etransitivity; [exact Hrun|]. cbv [mbind M_bind mret M_ret]. by rewrite Hs2.
    + split; [done|]. unfold local. rewrite He2. by rewrite <-Hl, <-Hl1.
  - intros s [Hg Hl]. destruct (switch_to _ SpmcOff s Hg Hl) as (s' & Hs & Hg' & Hl' & _). by exists s'.
  - intros s [Hg Hl]. simpl. unfold spmd_notify_cpu_suspend_powerdown_abandoned, Spmd.handle_wake_from_cpu_suspend.
    destruct (switch_to _ SpmcPsciEventHandling s Hg Hl) as (s1 & Hs1 & Hg1 & Hl1 & Hid & Hv).
    destruct (ask_returns (PowerWarmBootReq ExitFromLowPower) (λ _,
      _ ← switch_spmc_local_state env me SpmcPsciEventHandling SpmcRuntime; spm_switch_world env Secure NonSecure) s1
      I Hg1 ltac:(by right)) as (z & s2 & Hg2 & Hl2 & Hrun).
    destruct (switch_to SpmcPsciEventHandling SpmcRuntime s2 Hg2 ltac:(congruence)) as (s3 & Hs3 & Hg3 & Hl3 & _).
    destruct (contract_switch good Hc Secure NonSecure s3 ltac:(done) Hg3) as (s4 & Hs4 & Hg4 & He4).
    exists s4. split; [|split; [done|]; unfold local; by rewrite He4].
    cbv [mbind M_bind spmd_self get mret M_ret] in Hrun |- *. rewrite Hs1. unfold power_request in *.
    rewrite <-Hid, <-Hv. etransitivity; [exact Hrun|]. by rewrite Hs3.
Qed.
End SpmdPsci.

(** ** Each service by itself

    A call of world [w] on the state of the service: it does not panic, keeps the
    invariant [I] of that state and the registers well formed. *)
Section Parts.
Lemma default_smc_runs {St} (I : World → St → Prop) w regs (s : St) :
  I w s → smc_return_wf regs →
  runs (default_smc w regs) (λ '(w', regs') s', I w' s' ∧ w = w' ∧ smc_return_wf regs') s.
Proof. intros Hs Hwf. split; [done|]. split; [done|by apply set_from_u64_wf]. Qed.

Lemma values_full regs i :
  smc_return_wf regs → used regs = MAX_VALUES → (i < MAX_VALUES)%nat →
  ∃ x, values regs !! i = Some x.
Proof.
  intros [Hl _] Hu Hi. apply lookup_lt_is_Some_2. unfold values.
  rewrite length_take, Hl, Hu. lia.
Qed.

Lemma runs_lift {St A} (o : outcome A) a (Q : A → St → Prop) s :
  o = Done a → Q a s → runs (lift o) Q s.
Proof. by intros ->. Qed.

(** Architecture calls, with workarounds that return. *)
Section Arch.
Context {St : Type} (plat : ArchPlatform St) (I : St → Prop).
Context (Hw1 : ∀ s, I s → runs (arch_workaround_1 plat) (λ _, I) s).
Context (Hw2 : ∀ s, I s → runs (arch_workaround_2 plat) (λ _, I) s).
Context (Hw3 : ∀ s, I s → runs (arch_workaround_3 plat) (λ _, I) s).

Lemma run_workaround_runs sup m s :
  (∀ s, I s → runs m (λ _, I) s) → I s → runs (run_workaround sup m) (λ _, I) s.
Proof. intros Hm Hs. unfold run_workaround. case_decide; [by apply Hm|done]. Qed.

Lemma handle_common_smc_runs regs s :
  I s → smc_return_wf regs → used regs = MAX_VALUES →
  runs (handle_common_smc plat regs) (λ regs' s', I s' ∧ smc_return_wf regs') s.
Proof.
  intros Hs Hwf Hu. unfold handle_common_smc.
  destruct (values_full regs 0 Hwf Hu) as [x0 Hx0]; [unfold MAX_VALUES; lia|].
  destruct (values_full regs 1 Hwf Hu) as [x1 Hx1]; [unfold MAX_VALUES; lia|].
  eapply (runs_bind _ _ (λ x s', x = x0 ∧ s' = s));
    [by eapply runs_lift; [apply arr_get_Done|]|].
  intros x s' [-> ->]. cbv zeta.
  assert (He : ∀ s, I s → I s ∧ smc_return_wf (mark_empty regs))
    by (intros; split; [done|by apply mark_empty_wf]).
  repeat case_match; try (apply runs_ret; split; [done|by apply set_from_u64_wf]).
  - unfold arch_features, arr_get. rewrite Hx1.
    split; [done|]. by apply set_from_u64_wf.
  - unfold arch_soc_id, arr_get. rewrite Hx1. split; [done|].
    repeat case_match; try by apply set_from_u64_wf.
    apply set_args_wf; [done|]. unfold MAX_VALUES. simpl. lia.
  - eapply runs_bind; [by apply run_workaround_runs|]. intros ? s' Hs'. by apply runs_ret, He.
  - eapply (runs_bind _ _ (λ _ s', I s')); [by eapply runs_lift; [apply arr_get_Done|]|].
    intros ? s' Hs'. eapply runs_bind; [by apply run_workaround_runs|].
    intros ? s'' Hs''. by apply runs_ret, He.
  - eapply runs_bind; [by apply run_workaround_runs|]. intros ? s' Hs'. by apply runs_ret, He.
Qed.

End Arch.

Lemma arch_service_ok {St} (plat : ArchPlatform St) (I : World → St → Prop) legal :
  (∀ w s, I w s → runs (arch_workaround_1 plat) (λ _, I w) s ∧
     runs (arch_workaround_2 plat) (λ _, I w) s ∧ runs (arch_workaround_3 plat) (λ _, I w) s) →
  service_ok I legal (arch_service plat).
Proof.
  intros Hw w regs s x0 Hs Hwf Hu _ _ _.
  assert (Hc : runs (handle_common_smc plat regs) (λ regs' s', I w s' ∧ smc_return_wf regs') s)
    by (apply handle_common_smc_runs; try done; intros; by apply Hw).
  destruct w; (eapply runs_bind; [exact Hc|]); intros regs' s' [??]; by apply runs_ret.
Qed.

(** Errata management, with checks that return. *)
Section Errata.
Context {St : Type} (errata : list (Z * M St bool)) (el2 : St → bool) (I : St → Prop).
Context (Hcheck : ∀ e, e ∈ errata → ∀ s, I s → runs e.2 (λ _, I) s).

Lemma find_erratum_runs id l s :
  (∀ e, e ∈ l → e ∈ errata) → I s → runs (find_erratum id l) (λ _, I) s.
Proof.
  induction l as [|[eid check] l IH]; intros Hl Hs; [done|]. simpl. case_match.
  - eapply runs_bind; [apply (Hcheck (eid, check)); [|done]|by intros b s' ?].
    apply Hl, elem_of_cons. by left.
  - apply IH; [|done]. intros e He. apply Hl, elem_of_cons. by right.
Qed.

Lemma any_nonzero_done regs idx :
  smc_return_wf regs → used regs = MAX_VALUES → Forall (λ i, (i < MAX_VALUES)%nat) idx →
  ∃ b, any_nonzero (values regs) idx = Done b.
Proof.
  intros Hwf Hu. induction idx as [|i idx IH]; intros Hi; [by exists false|].
  apply Forall_cons_iff in Hi as [Hi Hidx]. simpl. unfold arr_get.
  destruct (values_full regs i Hwf Hu Hi) as [x ->]. simpl.
  case_match; [by exists true|by apply IH].
Qed.

Lemma em_smc_runs regs s x :
  I s → smc_return_wf regs → used regs = MAX_VALUES → values regs !! 0%nat = Some x →
  runs (em_handle_non_secure_smc errata el2 regs)
    (λ '(w', regs') s', I s' ∧ w' = NonSecure ∧ smc_return_wf regs') s.
Proof.
  intros Hs Hwf Hu Hx0. unfold em_handle_non_secure_smc.
  destruct (values_full regs 1 Hwf Hu) as [x1 Hx1]; [unfold MAX_VALUES; lia|].
  destruct (values_full regs 2 Hwf Hu) as [x2 Hx2]; [unfold MAX_VALUES; lia|].
  eapply (runs_bind _ _ (λ y s', y = x ∧ s' = s));
    [by eapply runs_lift; [apply arr_get_Done|]|].
  intros y s' [-> ->]. cbv zeta.
  eapply (runs_bind _ _ (λ regs' s', I s' ∧ smc_return_wf regs'));
    [|intros regs' s' [??]; by apply runs_ret].
  repeat case_match; try (apply runs_ret; split; [done|by apply set_from_u64_wf]).
  - eapply (runs_bind _ _ (λ _ s', I s')); [by eapply runs_lift; [apply arr_get_Done|]|].
    intros ? s' ?. apply runs_ret. split; [done|by apply set_from_u64_wf].
  - eapply (runs_bind _ _ (λ _ s', I s')).
    + unfold cpu_erratum_features.
      eapply (runs_bind _ _ (λ _ s', I s')); [by eapply runs_lift; [apply arr_get_Done|]|].
      intros y1 s1 Hs1.
      eapply (runs_bind _ _ (λ _ s', I s')); [by eapply runs_lift; [apply arr_get_Done|]|].
      intros y2 s2 Hs2. destruct (any_nonzero_done regs [3; 4; 5; 6; 7]%nat Hwf Hu) as [b Hb].
      { repeat (constructor; [unfold MAX_VALUES; lia|]). constructor. }
      eapply (runs_bind _ _ (λ _ s', I s')); [by eapply runs_lift|].
      intros b' s3 Hs3. destruct b'; [done|].
      eapply (runs_bind _ _ (λ _ s', I s')); [exact Hs3|]. intros s4 s5 Hs5.
      case_match; [done|]. by apply find_erratum_runs.
    + intros ? s' ?. apply runs_ret. split; [done|by apply set_from_u64_wf].
Qed.
End Errata.

Lemma errata_service_ok {St} (errata : list (Z * M St bool)) el2 (I : World → St → Prop) legal :
  (∀ e, e ∈ errata → ∀ w s, I w s → runs e.2 (λ _, I w) s) →
  service_ok I legal (errata_service errata el2).
Proof.
  intros Hc w regs s x Hs Hwf Hu _ Hx _.
  destruct w; try by (eapply runs_weaken; [by apply default_smc_runs|];
    intros [w' regs'] s' (? & <- & ?)).
  eapply runs_weaken; [eapply (em_smc_runs errata el2 (I NonSecure)); try done; intros; by apply Hc|].
  by intros [w' regs'] s' (? & -> & ?).
Qed.

Lemma dummy_service_ok {St} (I : World → St → Prop) legal : service_ok I legal dummy_service.
Proof. by intros w regs s x _ _ _ _ _ ?. Qed.

(** Random numbers. *)
Lemma trng_service_ok {Src} (get_entropy : M Src (result (list Z) TrngError)) n uuid legal :
  source_ok get_entropy n → (0 < n)%nat →
  service_moves (λ _ (s : EntropyPool * Src), pool_ok (words_in_pool n) s.1) legal eq
    (trng_service get_entropy (words_in_pool n) uuid).
Proof.
  intros Hsrc Hn w regs [p src] x Hok Hwf Hu _ _ _.
  destruct (trng_smc_returns get_entropy n Hsrc Hn uuid regs p src Hok Hwf)
    as (regs' & p' & src' & Hrun & Hok' & Hwf'); [rewrite Hu; unfold MAX_VALUES; lia|].
  destruct w; unfold runs; simpl; cbv [mbind M_bind]; rewrite Hrun; done.
Qed.

(** Power control, with an SPM that is up while the Normal World runs. *)
Lemma psci_service_ok `{ArmPsciTypes} `{!ArmPsciOps} {S W V : Type}
    `{!PlatformPowerStateInterface S} `{!PlatformPowerStateLaws S} `{!PsciDims}
    (platform : PsciPlatform S W V) `{!PsciPlatformLaws platform} `{!PsciOptionalLaws platform}
    spm_ok `{!SpmLaws (psci_spm platform) spm_ok} cores me (J : World → V → Prop) legal :
  wait_ok platform spm_ok cores me → off_ok platform spm_ok cores me → mode_stable cores →
  (me < CPU_DOMAIN_COUNT)%nat → (∀ v, J NonSecure v ↔ spm_ok true v) →
  service_moves (λ w st, idle me st ∧ J w (spm_state st)) legal eq (psci_service platform cores me).
Proof.
  intros Hwait Hoff Hst Hme HJ w regs st x [Hi Hv] Hwf Hu _ _ _.
  destruct w; try by apply (default_smc_runs (λ w st, idle me st ∧ J w (spm_state st))). simpl.
  assert (Hlen : (4 ≤ length (values regs))%nat).
  { destruct Hwf as [Hl _]. unfold values. rewrite length_take, Hl, Hu. unfold MAX_VALUES. lia. }
  assert (Hs : serving spm_ok me st) by (split; [done|by apply HJ]).
  pose proof (psci_smc_wp platform spm_ok cores me regs st Hwait Hoff Hst Hme Hlen Hs) as Hwp.
  unfold wp in Hwp. unfold runs.
  destruct (psci_handle_non_secure_smc platform cores me regs st) as [[w' regs'] st'| |]; [|done..].
  destruct Hwp as (-> & _ & [Hi' Hv'] & Hwf'). apply HJ in Hv'. auto.
Qed.

(** The RMM: what it calls is implemented. *)
Definition rmm_legal (w : World) (regs : SmcReturn) : Prop :=
  w = Realm → regs_u64 regs ∧
    ∀ c, Rmm.from_regs (values regs) = Done (Ok c) → implemented c = true.

Lemma from_regs_req_complete regs l :
  Rmm.from_regs regs = Done (Ok (RmiReqComplete l)) → length l = 6%nat.
Proof.
  unfold Rmm.from_regs. intros (x0 & _ & Hr)%outcome_bind_Done.
  unfold try_outcome in Hr. destruct (rmm_fid_try_from _) as [fid|]; [|done].
  destruct fid; repeat outcome_step; try done;
    repeat (case_match; repeat outcome_step; try done).
  simplify_eq. rewrite length_take, length_drop. lia.
Qed.

Lemma req_complete_wf l regs regs' :
  length l = 6%nat → smc_return_wf regs → req_complete l regs = Done regs' →
  smc_return_wf regs'.
Proof.
  intros Hl [Hw Hu]. unfold req_complete. intros ([] & Hle & Hr)%outcome_bind_Done.
  apply assert_Done, bool_decide_eq_true in Hle. injection Hr as <-. split; [|done]. simpl.
  rewrite !length_app, length_replicate, length_drop, Hl, Hw. lia.
Qed.

Lemma realm_smc_wf {P} (plat : RmmPlatform P) gpt sctlr_c mte2 core regs s :
  smc_return_wf regs →
  match rmmd_handle_realm_smc plat gpt sctlr_c mte2 core regs s with
  | Ret (_, regs') _ => smc_return_wf regs' | _ => True
  end.
Proof.
  intros Hwf.
  assert (Hc : ∀ c, smc_return_wf (set_from_rmm_code c regs))
    by (intros; by apply set_from_u64_wf).
  assert (Hi : ∀ v, smc_return_wf (set_from_i32 v regs)) by (intros; by apply set_from_u64_wf).
  assert (Hr : ∀ l, (length l ≤ 2)%nat → smc_return_wf (set_from_response l regs)).
  { intros l Hl. apply set_args_wf; [done|]. simpl. unfold MAX_VALUES. lia. }
  assert (He : smc_return_wf (mark_empty regs)) by (by apply mark_empty_wf).
  unfold rmmd_handle_realm_smc, try_handle_realm_smc, handle_boot_complete, gtsi_delegate,
    gtsi_undelegate, attest_get_realm_key, attest_get_plat_token, gpt_request,
    flush_or_bad_address, or_err.
  cbv [mbind M_bind get lift mret M_ret crash].
  repeat (case_match; simplify_eq); auto. by eapply req_complete_wf, H1; [eapply from_regs_req_complete|].
Qed.

Lemma rmmd_service_ok {P} (plat : RmmPlatform P) g mte2 core :
  rmm_platform_ok plat → gpt_ok g → (core < CORE_COUNT plat)%nat →
  service_moves (λ _, rmm_ok plat g) (λ w regs _, rmm_legal w regs)
    (λ w w', w = w' ∨ (w ≠ Secure ∧ w' ≠ Secure)) (rmmd_service plat (Some g) true mte2 core).
Proof.
  intros Hplat Hg Hcore w regs s x Hs Hwf Hu Hleg Hx _. destruct w.
  - split; [done|]. split; [by left|by apply set_from_u64_wf].
  - simpl. unfold rmmd_handle_non_secure_smc.
    eapply (runs_bind _ _ (λ _ s', s' = s)); [by eapply runs_lift; [apply arr_get_Done|]|].
    intros y s' ->. eapply (runs_bind _ _ (λ _ s', s' = s)); [done|]. intros s1 s2 ->.
    case_match; apply runs_ret; (split; [done|]); (split; [by right|]); [done|by apply set_from_u64_wf].
  - destruct (Hleg eq_refl) as [Hu64 Himpl].
    destruct (realm_smc_returns plat g mte2 core regs s Hplat Hg Hcore Hs Hwf Hu Hu64 Himpl)
      as (w' & regs' & s' & Hrun & Hs' & Hw).
    pose proof (realm_smc_wf plat (Some g) true mte2 core regs s Hwf) as Hwf'.
    unfold runs. simpl. rewrite Hrun in Hwf' |- *. split; [done|]. split; [by right|done].
Qed.

(** The SPM dispatcher, on its own state. *)
Section Dispatcher.
Context `{Hpsci : ArmPsciTypes} `{Hffa : ArmFfaTypes} `{Hops : !ArmFfaOps} `{!ArmFfaLaws}.
Context (me : nat).
Let env : SpmdEnv Spmd := spmd_alone.

Lemma spmd_alone_laws : spmd_env_laws env.
Proof. by split. Qed.
Let Henv := spmd_alone_laws.

Definition spmd_phase (w : World) (sp : Spmd) : Prop :=
  ∃ st, core_local sp !! me = Some st ∧ phase_ok (Running w) st.

Definition spmd_legal (w : World) (regs : SmcReturn) (sp : Spmd) : Prop :=
  w = Secure → ¬ spmc_boot_failure env me sp regs.

Lemma write_regs_wf v msg regs n :
  (n ≤ MAX_VALUES)%nat → smc_return_wf regs → smc_return_wf (write_regs v msg (mark_used n regs)).
Proof.
  intros Hn [Hl Hu]. split; [|done]. simpl. unfold values. simpl.
  rewrite length_app, to_regs_length, length_take, length_drop, Hl. lia.
Qed.

Lemma get_smc_regs_used regs regs' :
  get_smc_regs regs = Done regs' → ∃ n, (n ≤ MAX_VALUES)%nat ∧ regs' = mark_used n regs.
Proof.
  unfold get_smc_regs. intros (x & _ & Hr)%outcome_bind_Done.
  destruct (call_type _); [..|done]; injection Hr as <-; eexists; (split; [|done]);
    unfold MAX_VALUES; lia.
Qed.

(** The registers after a call that returns. *)
Lemma lift_inv {St A} (o : outcome A) (s : St) a s' : lift o s = Ret a s' → o = Done a ∧ s' = s.
Proof. unfold lift. destruct o; [by intros [= -> ->]|done]. Qed.

Lemma secure_smc_wf regs s w' regs' s' :
  smc_return_wf regs → spmd_handle_secure_smc env me regs s = Ret (w', regs') s' →
  smc_return_wf regs'.
Proof.
  intros Hwf (sp & s1 & _ & H1)%M_bind_Ret. apply M_bind_Ret in H1 as (r & s2 & Hr & H2).
  apply lift_inv in Hr as [(n & Hn & ->)%get_smc_regs_used ->].
  destruct (Spmd.from_regs _ _) as [msg|[e v]]; [|injection H2 as _ <- _; by apply write_regs_wf].
  apply M_bind_Ret in H2 as (st & s3 & _ & H3).
  apply M_bind_Ret in H3 as ([[[] w] m] & s4 & _ & H4); injection H4 as _ <- _;
    [by apply write_regs_wf|]. split; [apply Hwf|simpl; lia].
Qed.

Lemma non_secure_smc_wf regs s w' regs' s' :
  smc_return_wf regs → spmd_handle_non_secure_smc env me regs s = Ret (w', regs') s' →
  smc_return_wf regs'.
Proof.
  intros Hwf (sp & s1 & _ & H1)%M_bind_Ret. apply M_bind_Ret in H1 as (r & s2 & Hr & H2).
  apply lift_inv in Hr as [(n & Hn & ->)%get_smc_regs_used ->].
  destruct (Spmd.from_regs _ _) as [msg|[e v]]; [|injection H2 as _ <- _; by apply write_regs_wf].
  apply M_bind_Ret in H2 as (st & s3 & _ & H3). apply M_bind_Ret in H3 as (? & s4 & _ & H4).
  apply M_bind_Ret in H4 as ([w m] & s5 & _ & H5). injection H5 as _ <- _.
  by apply write_regs_wf.
Qed.

Lemma runs_and {St A} (m : M St A) (Q R : A → St → Prop) s :
  runs m Q s → (∀ a s', m s = Ret a s' → R a s') → runs m (λ a s', Q a s' ∧ R a s') s.
Proof. unfold runs. destruct (m s); naive_solver. Qed.

Lemma spmd_service_ok : service_ok spmd_phase spmd_legal (spmd_service env me).
Proof.
  intros w regs sp x (st & Hl & Hp) Hwf Hu Hleg Hx Ho.
  assert (Hc : ffa_call regs).
  { exists x. split; [done|]. simpl in Ho. unfold owns_range in Ho.
    by apply andb_true_iff in Ho as [_ ?]. }
  destruct w; simpl in Hp.
  - eapply runs_weaken; [eapply runs_and with (R := λ r _, smc_return_wf r.2);
      [by eapply (secure_smc_runs env Henv me sp st); [..|apply Hleg]|]|].
    + intros [w' regs'] s' Hr. exact (secure_smc_wf _ _ _ _ _ Hwf Hr).
    + intros [w' regs'] s' [(st' & Hm & Hp' & Hw & _) Hwf']. split; [|by destruct w'].
      exists st'. split; [exact (moved_lookup env _ _ _ _ _ Hl Hm)|done].
  - subst st. eapply runs_weaken; [eapply runs_and with (R := λ r _, smc_return_wf r.2);
      [by apply (non_secure_smc_runs env me sp)|]|].
    + intros [w' regs'] s' Hr. exact (non_secure_smc_wf _ _ _ _ _ Hwf Hr).
    + intros [w' regs'] s' [[-> Hw] Hwf']. split; [|done]. exists SpmcRuntime.
      split; [done|]. by destruct w'.
  - split; [by exists st|]. split; [done|by apply set_from_u64_wf].
Qed.

Lemma spmd_forward_ok regs sp :
  spmd_phase NonSecure sp → smc_return_wf regs →
  runs (spmd_forward_secure_interrupt env me regs)
    (λ '(w', regs') sp', spmd_phase w' sp' ∧ smc_return_wf regs') sp.
Proof.
  intros (st & Hl & Hp) Hwf. simpl in Hp. subst st.
  eapply runs_weaken; [eapply runs_and with (R := λ r _, smc_return_wf r.2);
    [by apply (forward_interrupt_runs env Henv me sp)|]|].
  - intros r s' (? & s1 & _ & H1)%M_bind_Ret. apply M_bind_Ret in H1 as (? & s2 & _ & H2).
    injection H2 as <- _. by apply write_regs_wf.
  - intros [w' regs'] s' [[-> Hm] Hwf']. split; [|done]. exists SpmcSecureInterrupt.
    split; [exact (moved_lookup env _ _ _ _ _ Hl Hm)|done].
Qed.
End Dispatcher.
End Parts.
