(* ===== verification/Firmware.v ===== *)
(** * The firmware of a core

    The services put together as [Services::new] of [src/services.rs] does, on a
    state with a part for each of them and for the contexts of the core; the
    operations of the main loop as [src/context.rs], [src/exceptions.rs] and
    [src/gicv3.rs] implement them; and the warm boot of a core.  The lower
    exception levels are a parameter: they run until an exception and make the
    calls they are meant to make. *)

From Stdlib Require Import ZArith Lia.
From stdpp Require Import base list numbers option functions strings.
From S2P Require Import Prelude PowerState Smccc PowerTree Composite TreeInv Coordination Psci PsciInv PsciSystem PsciCalls PsciProps Trng TrngProofs TrngProps Gpt GptProofs Rmm RmmProofs Services ServicesProps Spmd SpmdProps Context Extensions Simd ContextProofs ContextProps ContextBoot Gic System.
Open Scope rust_scope.
Open Scope string_scope.
Open Scope list_scope.
Open Scope Z_scope.

(** ** The state

    [fw_psci] is what PSCI itself works on.  Its SPM works on the dispatcher and on
    the contexts of the core. *)
Record Firmware (P T R : Type) : Type := mkFirmware {
  fw_psci : P;
  fw_spmd : Spmd;
  fw_trng : T;
  fw_rmmd : R;
  fw_core : Core;
}.
Arguments mkFirmware {P T R}.
Arguments fw_psci {P T R}.
Arguments fw_spmd {P T R}.
Arguments fw_trng {P T R}.
Arguments fw_rmmd {P T R}.
Arguments fw_core {P T R}.

(** The dispatcher and the contexts of the core. *)
Definition Spm : Type := Spmd * Core.
Definition spm_core : Lens Spm Core := mkLens snd (λ c v, (v.1, c)).

Section Lenses.
Context {P T R : Type}.
Local Abbreviation Fw := (Firmware P T R).

Definition spmd_lens : Lens Fw Spmd :=
  mkLens fw_spmd (λ x s, mkFirmware (fw_psci s) x (fw_trng s) (fw_rmmd s) (fw_core s)).
Definition trng_lens : Lens Fw T :=
  mkLens fw_trng (λ x s, mkFirmware (fw_psci s) (fw_spmd s) x (fw_rmmd s) (fw_core s)).
Definition rmmd_lens : Lens Fw R :=
  mkLens fw_rmmd (λ x s, mkFirmware (fw_psci s) (fw_spmd s) (fw_trng s) x (fw_core s)).
Definition core_lens : Lens Fw Core :=
  mkLens fw_core (λ x s, mkFirmware (fw_psci s) (fw_spmd s) (fw_trng s) (fw_rmmd s) x).
End Lenses.

(** PSCI with its SPM. *)
Definition psci_lens {S EP W T R : Type} : Lens (Firmware (PsciState S EP W unit) T R) (PsciState S EP W Spm) :=
  mkLens
    (λ s, mkPsci (power_domain_tree (fw_psci s)) (suspend_mode (fw_psci s)) (world (fw_psci s))
       (fw_spmd s, fw_core s))
    (λ x s, mkFirmware (mkPsci (power_domain_tree x) (suspend_mode x) (world x) tt)
       (spm_state x).1 (fw_trng s) (fw_rmmd s) (spm_state x).2).

Section Firmware.
(** The crates, the platform's parameters of the services, and the core [me]. *)
Context `{ArmPsciTypes} `{!ArmPsciOps} {S W : Type} `{!PlatformPowerStateInterface S} `{!PsciDims}.
Context (psci_platform : PsciPlatform S W unit) (cores : OtherCores (PsciState S EntryPoint W Spm)).
Context `{ArmFfaTypes} `{!ArmFfaOps} (spm_exit : World → M Spm (Z * Z * list Z)).
Context {Src : Type} (get_entropy : M Src (result (list Z) TrngError)) (req_words : nat) (uuid : list Z).
Context {RP : Type} (rmm_platform : RmmPlatform RP) (gpt : GranuleProtection) (mte2 : bool).
Context `{ArmSysregs} `{Features} (exts : list CpuExtension) (errata : list (Z * (Bank → bool))).
Context (me : nat).

Local Abbreviation Fw := (Firmware (PsciState S EntryPoint W unit) (EntropyPool * Src) (RmmdState RP)).
Context (arch_platform : ArchPlatform Fw) (gic : GicOps Fw) (el3_exit : World → M Fw (Z * Z * list Z)).

(** The checks of errata read registers of the core, and a call of errata
    management tells its exception level by the saved program status. *)
Definition fw_errata : list (Z * M Fw bool) :=
  (λ e, (e.1, λ s, Ret (e.2 (sysregs (fw_core s))) s)) <$> errata.
Definition fw_originator_is_el2 (s : Fw) : bool :=
  bool_decide (exception_level (spsr_el3 (el3_state (cpu_state (fw_core s) NonSecure))) = El2).

(** A PSCI call runs the Secure world through the dispatcher: [spm_exit] is that world
    until the next exception.  The other operations of the dispatcher enter no world. *)
Definition fw_spm_env : SpmdEnv Spm :=
  mkSpmdEnv fst (λ x v, (x, v.2)) (Context.enter_world (zoom spm_core) spm_exit)
    (λ w w', zoom spm_core (Context.switch_world exts errata w w')).
Definition fw_psci_platform : PsciPlatform S W Spm := with_spm psci_platform (spmd_interface fw_spm_env me).

(** [Services::new], with the [DummyService] of QEMU and FVP. *)
Definition fw_services : Services Fw :=
  mkServices
    (arch_service arch_platform)
    (zoom_service psci_lens (psci_service fw_psci_platform cores me))
    dummy_service
    (zoom_service spmd_lens (spmd_service spmd_alone me))
    (errata_service fw_errata fw_originator_is_el2)
    (zoom_service trng_lens (trng_service get_entropy (words_in_pool req_words) uuid))
    (zoom_service rmmd_lens (rmmd_service rmm_platform (Some gpt) true mte2 me)).

Definition fw_ops : WorldOps Fw :=
  mkWorldOps
    (Context.enter_world (zoom core_lens) el3_exit)
    (Gic.get_pending_interrupt_type gic)
    (Gic.handle_group0_interrupt gic)
    (λ regs, zoom spmd_lens (spmd_forward_secure_interrupt spmd_alone me regs))
    (λ w, zoom core_lens (Context.inject_undef64 w))
    (λ w, zoom core_lens (Context.set_initial_world exts errata w))
    (λ w w', zoom core_lens (Context.switch_world exts errata w w'))
    (λ s, Rmm.boot_failure (fw_rmmd s)).

Definition fw_run_loop (fuel : nat) : M Fw unit := run_loop fw_services fw_ops fuel.

(** ** Booting *)

(** [Services::new]: the state of the services, with the platform, the entropy
    source, the memory and the contexts of the core as they are. *)
Definition services_new (w : W) (src : Src) (m : Machine) (buffer : list Z) (rp : RP) (c : Core) : outcome Fw :=
  psci ← psci_new psci_platform me w tt;
  spmd ← spmd_new me CPU_DOMAIN_COUNT;
  mret (mkFirmware psci spmd (pool_new (words_in_pool req_words), src) (rmmd_new rmm_platform m buffer rp) c).

(** The entry points of the platform, and the fields of an [EntryPoint] of
    [arm_psci]. *)
Context (non_secure_entry_point secure_entry_point realm_entry_point : EntryPointInfo).
Context (entry_point_address context_id : EntryPoint → Z).

(** [coldboot], after the set-up of the platform, the page table and the GIC. *)
Definition coldboot (setup : M Fw unit) (fuel : nat) : M Fw unit :=
  _ ← setup;
  _ ← zoom core_lens
        (initialise_contexts exts non_secure_entry_point secure_entry_point realm_entry_point);
  fw_run_loop fuel.

(** [Services::warmboot] *)
Definition warmboot (fuel : nat) : M Fw unit :=
  reason ← zoom psci_lens (handle_cpu_boot fw_psci_platform me);
  _ ← match reason with
      | CpuOn ep =>
          let ns := mkEntryPointInfo (entry_point_address ep)
            (<[0%nat := context_id ep]> ((λ _, 0) <$> args non_secure_entry_point)) in
          secondary ← zoom spmd_lens (secondary_ep spmd_alone);
          let secure := mkEntryPointInfo secondary ((λ _, 0) <$> args secure_entry_point) in
          _ ← zoom spmd_lens (handle_wake_from_cpu_off spmd_alone me);
          zoom core_lens (initialise_contexts exts ns secure realm_entry_point)
      | SuspendFinished ep =>
          secure_args ← zoom spmd_lens (Spmd.handle_wake_from_cpu_suspend spmd_alone me);
          realm_args ← zoom rmmd_lens (Rmm.handle_wake_from_cpu_suspend me);
          zoom core_lens
            (update_contexts_suspend exts (entry_point_address ep) (context_id ep) secure_args realm_args)
      end;
  fw_run_loop fuel.
End Firmware.
