(* ===== verification/FirmwareProps.v ===== *)
(** * The firmware of a core runs without a panic

    The laws the main loop relies on, discharged by the services, the contexts of
    the core and the interrupt controller; what is left to assume is said of the
    lower exception levels and of the platform. *)

From Stdlib Require Import ZArith Lia.
From stdpp Require Import base list numbers option functions strings.
From S2P Require Import Prelude PowerState Smccc PowerTree Composite TreeInv Coordination Psci PsciInv PsciSystem PsciCalls PsciProps Trng TrngProofs TrngProps Gpt GptProofs Rmm RmmProofs Services ServicesProps Spmd SpmdProps Context Extensions Simd ContextProofs ContextProps ContextBoot Gic System Firmware.
Open Scope rust_scope.
Open Scope string_scope.
Open Scope list_scope.
Open Scope Z_scope.

(** ** The contexts of the core *)
Section CoreOk.
Context `{ArmSysregs} `{Features}.

(** The contexts are initialised, those of each world for its security state, and
    hold the registers of each world. *)
Record core_ok (c : Core) : Prop := mkCoreOk {
  core_init : ∃ pw, initialised c pw;
  core_gpregs w : length (gpregs (cpu_state c w)) = GPREGS_COUNT;
}.

(** The exception a world took can be injected into it: it comes from AArch64
    below EL3, and the vector it goes to is an address. *)
Definition injectable (w : World) (c : Core) : Prop :=
  ∀ pw, PER_WORLD_CONTEXT c = Some pw →
  let old := spsr_el3 (el3_state (cpu_state c w)) in
  let to_el := target_el (sysregs c) (exception_level old) (scr_el3 (pw w)) in
  exception_level old ≠ El3 ∧ contains old (spsr SPSR_M_4) = false ∧
  sysregs c (el_regs to_el).1.1.1 + LOWER_EL_AARCH64 < 2 ^ 64.

Lemma fold_set_eq (vs : list Z) k (rs : list Z) :
  (k + length vs ≤ length rs)%nat →
  fold_outcome (λ rs '(i, v), arr_set rs i v) rs (imap (λ i v, ((k + i)%nat, v)) vs) =
  Done (take k rs ++ vs ++ drop (k + length vs) rs).
Proof.
  revert k rs. induction vs as [|v vs IH]; intros k rs Hle; simpl in Hle |- *.
  - by rewrite Nat.add_0_r, take_drop.
  - rewrite (proj2 (arr_set_Done rs (k + 0) v _) (conj (ltac:(lia) : (k + 0 < length rs)%nat) eq_refl)). cbv [mbind outcome_bind].
    rewrite (imap_ext _ (λ i v, ((Datatypes.S k + i)%nat, v))) by (intros; unfold compose; f_equal; lia).
    rewrite IH by (rewrite length_insert; lia). f_equal.
    rewrite drop_insert_lt, Nat.add_0_r by lia.
    rewrite (take_S_r _ k v), take_insert_ge by (lia || (apply list_lookup_insert_eq; lia)).
    rewrite <-app_assoc. by replace (Datatypes.S k + length vs)%nat with (k + Datatypes.S (length vs))%nat by lia.
Qed.

Lemma write_return_value_eq regs rs :
  (length (values regs) ≤ length rs)%nat →
  write_return_value regs rs = Done (values regs ++ drop (length (values regs)) rs).
Proof. intros Hle. exact (fold_set_eq (values regs) 0 rs Hle). Qed.

(** Entering a world writes the registers for it, if there are any, and nothing else. *)
Lemma prepare_entry_eq regs w c :
  core_ok c → smc_return_wf regs →
  ∃ c', prepare_entry regs w c = Ret tt c' ∧ core_ok c' ∧
    (is_empty regs = false →
     gpregs (cpu_state c' w) = values regs ++ drop (length (values regs)) (gpregs (cpu_state c w))).
Proof.
  intros [[pw [Hpw Hsec]] Hl] [Hlr Hu]. unfold prepare_entry, world_context.
  assert (Hle : (length (values regs) ≤ length (gpregs (cpu_state c w)))%nat).
  { rewrite Hl. unfold values. rewrite length_take, Hlr. unfold MAX_VALUES, GPREGS_COUNT in *. lia. }
  cbv [mbind M_bind get lift modify mret M_ret].
  destruct (is_empty regs); simpl; [rewrite Hpw; exists c; by repeat split; [exists pw|..]|].
  rewrite (write_return_value_eq _ _ Hle). simpl. rewrite Hpw. eexists. split; [done|]. split.
  - split; [by exists pw|]. intros w'. unfold update_context. simpl.
    destruct (decide (w' = w)) as [->|Hne]; [rewrite fn_lookup_insert|by rewrite fn_lookup_insert_ne].
    simpl. rewrite length_app, length_drop, Hl in *. lia.
  - intros _. unfold update_context. simpl. by rewrite fn_lookup_insert.
Qed.

Lemma prepare_entry_runs regs w c :
  core_ok c → smc_return_wf regs → runs (prepare_entry regs w) (λ _, core_ok) c.
Proof.
  intros Hc Hwf. destruct (prepare_entry_eq regs w c Hc Hwf) as (c' & Hrun & Hc' & _).
  unfold runs. by rewrite Hrun.
Qed.

Lemma inject_runs `{!ArmSysregsLaws} w c :
  core_ok c → injectable w c → runs (Context.inject_undef64 w) (λ _, core_ok) c.
Proof.
  intros [[pw [Hpw Hsec]] Hl] Hin. destruct (Hin pw Hpw) as (Hel & H4 & Hv).
  pose proof (target_el_cases (sysregs c) _ (scr_el3 (pw w)) Hel) as Hto.
  destruct (inject_spec w c pw _ _ Hpw H4 eq_refl Hto eq_refl Hv) as (c' & Hrun & Hi).
  unfold runs. rewrite Hrun. split; [exists pw; split; [by rewrite (inj_per_world _ _ _ _ Hi)|done]|].
  intros w'. destruct (decide (w' = w)) as [->|Hne]; [by rewrite (inj_gpregs _ _ _ _ Hi)|].
  by rewrite (inj_worlds _ _ _ _ Hi).
Qed.

(** Cold boot, and resuming. *)
Context `{!ArmSysregsLaws}.
Lemma initialise_runs exts ns secure realm c :
  Forall boots exts → (∀ pw, PER_WORLD_CONTEXT c = Some pw → ∀ w, secure_state w (pw w)) →
  (∀ w, length (args (entry_points ns secure realm w)) = 8%nat) →
  runs (initialise_contexts exts ns secure realm) (λ _, core_ok) c.
Proof.
  intros Hexts Hpw Hlen.
  destruct (initialise_contexts_starts exts Hexts ns secure realm c Hpw) as (c' & pw & Hrun & Hi & Hst).
  { intros w. rewrite Hlen. unfold GPREGS_COUNT. lia. }
  unfold runs. rewrite Hrun. split; [by exists pw|]. intros w. destruct (Hst w) as [Hs _].
  rewrite (starts_args _ _ _ _ Hs), length_app, length_replicate, Hlen. unfold GPREGS_COUNT. lia.
Qed.

Lemma resume_runs exts addr ctx sargs rargs c :
  Forall boots exts → core_ok c → length (values sargs) = 18%nat → (length rargs ≤ GPREGS_COUNT)%nat →
  runs (update_contexts_suspend exts addr ctx sargs rargs) (λ _, core_ok) c.
Proof.
  intros Hexts [[pw [Hpw Hsec]] Hl] H18 Hr. unfold runs.
  destruct (update_contexts_suspend_eq exts addr ctx sargs rargs c Hexts)
    as (cn & c1 & Hst & [Hc1 Hp1] & _ & _ & ->).
  rewrite copy_from_slice_done by (rewrite ?Hl; unfold GPREGS_COUNT; (done || lia)).
  rewrite copy_from_slice_done by (rewrite ?Hl; (done || lia)).
  destruct (resume_loop exts (resumed cn (values sargs ++ drop 18 (gpregs (cpu_state c Secure)))
    (rargs ++ drop (length rargs) (gpregs (cpu_state c Realm))) c1) Hexts) as (c2 & -> & [Hc2 Hp2]).
  split; [exists pw; split; [by rewrite Hp2; simpl; rewrite Hp1|done]|]. intros w. rewrite Hc2.
  unfold resumed, update_context. simpl. destruct w.
  - rewrite fn_lookup_insert_ne, fn_lookup_insert by done. simpl. rewrite length_app, length_drop, Hl, H18.
    unfold GPREGS_COUNT. lia.
  - rewrite !fn_lookup_insert_ne, fn_lookup_insert by done. rewrite (starts_args _ _ _ _ Hst).
    by rewrite length_app, length_replicate.
  - rewrite fn_lookup_insert. simpl. rewrite length_app, length_drop, Hl. lia.
Qed.

Context (l : list ExtInfo) (errata : list (Z * (Bank → bool))) (Hok : infos_ok l).

Lemma switch_returns cur new c :
  cur ≠ new → core_ok c →
  ∃ c', Context.switch_world (x_ext <$> l) errata cur new c = Ret tt c' ∧ core_ok c'.
Proof.
  intros Hne [[pw [Hpw Hsec]] Hl].
  destruct (switch_world_keeps l errata Hok cur new c Hne) as (c' & Hrun & Hp & Hc); [by exists pw|].
  exists c'. split; [done|]. split; [exists pw; split; [by rewrite Hp|done]|]. intros w. destruct (Hc w) as [-> _]. apply Hl.
Qed.
Lemma switch_runs cur new c :
  cur ≠ new → core_ok c → runs (Context.switch_world (x_ext <$> l) errata cur new) (λ _, core_ok) c.
Proof. intros Hne (c' & Hrun & Hc)%(switch_returns _ _ _ Hne). unfold runs. by rewrite Hrun. Qed.
Lemma set_initial_runs w c :
  core_ok c → runs (Context.set_initial_world (x_ext <$> l) errata w) (λ _, core_ok) c.
Proof.
  intros [[pw [Hpw Hsec]] Hl].
  destruct (set_initial_world_keeps l errata Hok w c) as (c' & Hrun & Hp & Hc); [by exists pw|].
  unfold runs. rewrite Hrun. split; [exists pw; split; [by rewrite Hp|done]|]. intros w'. rewrite Hc. apply Hl.
Qed.
End CoreOk.

(** ** The main loop *)
Section Firmware.
Context `{Htypes : ArmPsciTypes} `{Hpops : !ArmPsciOps} {S W : Type}
  `{Hstate : !PlatformPowerStateInterface S} `{!PlatformPowerStateLaws S} `{Hdims : !PsciDims}.
Context (psci_platform : PsciPlatform S W unit) `{!PsciPlatformLaws psci_platform} `{!PsciOptionalLaws psci_platform}.
Context (cores : OtherCores (PsciState S EntryPoint W Spm)).
Context `{Hffa : ArmFfaTypes} `{Hfops : !ArmFfaOps} `{!ArmFfaLaws} (spm_exit : World → M Spm (Z * Z * list Z)).
Context {Src : Type} (get_entropy : M Src (result (list Z) TrngError)) (req_words : nat) (uuid : list Z).
Context {RP : Type} (rmm_platform : RmmPlatform RP) (gpt : GranuleProtection) (mte2 : bool).
Context `{Hregs : ArmSysregs} `{!ArmSysregsLaws} `{Hfeat : Features}.
Context (infos : list ExtInfo) (errata : list (Z * (Bank → bool))) (me : nat).
Local Abbreviation Fw := (Firmware (PsciState S EntryPoint W unit) (EntropyPool * Src) (RmmdState RP)).
Context (arch_platform : ArchPlatform Fw) (gic : GicOps Fw) (el3_exit : World → M Fw (Z * Z * list Z)).

Let services := fw_services psci_platform cores spm_exit get_entropy req_words uuid
  rmm_platform gpt mte2 (x_ext <$> infos) errata me arch_platform.
Let ops := fw_ops (S := S) (W := W) (Src := Src) (RP := RP) (x_ext <$> infos) errata me gic el3_exit.
Let env := fw_spm_env spm_exit (x_ext <$> infos) errata.
Let spm_platform := fw_psci_platform psci_platform spm_exit (x_ext <$> infos) errata me.
#[local] Instance fw_platform_laws : PsciPlatformLaws spm_platform := with_spm_laws psci_platform _ _.
#[local] Instance fw_platform_optional : PsciOptionalLaws spm_platform := with_spm_optional psci_platform _ _.

(** The SPM of PSCI is up: the SPMC is idle on this core; or it is off. *)
Definition fw_spm_ok : bool → Spm → Prop := spmd_up env me (λ v, core_ok v.2).

(** What holds of the state of EL3 while the core runs world [w]. *)
Record fw_ok (w : World) (s : Fw) : Prop := mkFwOk {
  ok_psci : idle me (fw_psci s);
  ok_spmd : spmd_phase me w (fw_spmd s);
  ok_trng : pool_ok (words_in_pool req_words) (fw_trng s).1;
  ok_rmmd : rmm_ok rmm_platform gpt (fw_rmmd s);
  ok_core : core_ok (fw_core s);
}.

(** The calls the worlds are meant to make. *)
Definition fw_legal (w : World) (regs : SmcReturn) (s : Fw) : Prop :=
  rmm_legal w regs ∧ spmd_legal me w regs (fw_spmd s).

(** The lower exception levels, and the other cores meanwhile, leave the state of
    EL3 consistent; a world comes back with a call it is meant to make, with an
    interrupt that is routed to EL3, or with a trap of an exception level of its
    own. *)
Definition exit_ok (w : World) (r : Z * Z * list Z) (s : Fw) : Prop :=
  let '(reason, esr, vs) := r in
  fw_ok w s ∧ length vs = MAX_VALUES ∧
  (reason = RUN_RESULT_SMC ∧ fw_legal w (mkSmcReturn MAX_VALUES vs) s ∨
   reason = RUN_RESULT_INTERRUPT ∧ interrupt_ok ops fw_ok w s ∨
   reason = RUN_RESULT_SYSREG_TRAP ∧ injectable w (fw_core s)).

(** The SPMC, up on this core and entered with a message of the dispatcher in its
    registers, comes back with its response.  It leaves the contexts in order and the
    dispatcher's record of this core as it is. *)
Definition spmc_answers : Prop :=
  ∀ args v rest, power_message args → core_ok v.2 →
    core_local v.1 !! me = Some SpmcRuntime ∨ core_local v.1 !! me = Some SpmcPsciEventHandling →
    gpregs (cpu_state v.2 Secure) = values (power_request v.1 args) ++ rest →
    ∃ esr vs v' msg, spm_exit Secure v = Ret (RUN_RESULT_SMC, esr, vs) v' ∧ core_ok v'.2 ∧
      core_local v'.1 !! me = core_local v.1 !! me ∧ length vs = MAX_VALUES ∧
      Spmd.from_regs (spmc_version v'.1) vs = Ok msg ∧ is_Some (psci_response v'.1 msg).

(** What is assumed of the platform and of the parts that are not modelled. *)
Record fw_laws : Prop := mkFwLaws {
  fw_me : (me < CPU_DOMAIN_COUNT)%nat;
  fw_me_rmm : (me < CORE_COUNT rmm_platform)%nat;
  fw_wait : wait_ok spm_platform fw_spm_ok cores me;
  fw_off : off_ok spm_platform fw_spm_ok cores me;
  fw_stable : mode_stable cores;
  fw_spmc : spmc_answers;
  fw_source : source_ok get_entropy req_words;
  fw_words : (0 < req_words)%nat;
  fw_rmm : rmm_platform_ok rmm_platform;
  fw_gpt : gpt_ok gpt;
  fw_infos : infos_ok infos;
  fw_workarounds w s : fw_ok w s →
    runs (arch_workaround_1 arch_platform) (λ _, fw_ok w) s ∧
    runs (arch_workaround_2 arch_platform) (λ _, fw_ok w) s ∧
    runs (arch_workaround_3 arch_platform) (λ _, fw_ok w) s;
  fw_exit w s : fw_ok w s → runs (el3_exit w) (exit_ok w) s;
}.
Context (Hlaws : fw_laws).

(** The contract of the SPMC with the dispatcher, and so that of the SPM with PSCI. *)
Lemma power_request_wf self args : smc_return_wf (power_request self args) ∧ used (power_request self args) = MAX_VALUES.
Proof.
  split; [|done]. apply (write_regs_wf _ _ EMPTY MAX_VALUES); [done|split; [done|simpl; lia]].
Qed.

Lemma fw_spmc_contract : spmc_contract env me (λ v, core_ok v.2).
Proof.
  split; [done|done|..].
  - intros w w' [sp c] Hne Hc. destruct (switch_returns infos errata (fw_infos Hlaws) w w' c Hne Hc) as (c' & Hrun & Hc').
    exists (sp, c'). simpl. unfold zoom. simpl. by rewrite Hrun.
  - intros args [sp c] Ha Hc Hl. simpl in *. destruct (power_request_wf sp args) as [Hwf Hu].
    destruct (prepare_entry_eq (power_request sp args) Secure c Hc Hwf) as (c1 & Hrun & Hc1 & Hg).
    destruct (fw_spmc Hlaws args (sp, c1) _ Ha Hc1 Hl (Hg eq_refl))
      as (esr & vs & v' & msg & Hx & Hc' & Hl' & Hlen & Hm & Hr).
    exists (mkSmcReturn MAX_VALUES vs), v', msg. simpl. unfold Context.enter_world. cbv [mbind M_bind].
    unfold zoom at 1. simpl. rewrite Hrun. simpl. rewrite Hx. split; [done|]. split; [done|]. split; [done|].
    split; [|done]. unfold values. simpl. by rewrite take_ge by lia.
Qed.

#[local] Instance fw_spm_laws : SpmLaws (psci_spm spm_platform) fw_spm_ok.
Proof. apply spmd_spm_laws, fw_spmc_contract. Qed.

(** Steps on one part of the state. *)
Lemma core_step_ok (m : M Core unit) w s :
  fw_ok w s → runs m (λ _, core_ok) (fw_core s) → runs (zoom core_lens m) (λ _, fw_ok w) s.
Proof.
  intros Hs Hm. apply runs_zoom. eapply runs_weaken; [exact Hm|]. intros ? c Hc. by destruct Hs; split.
Qed.

(** The SPM while world [w] runs. *)
Definition fw_spm_phase (w : World) (v : Spm) : Prop := spmd_phase me w v.1 ∧ core_ok v.2.
Lemma fw_spm_phase_up v : fw_spm_phase NonSecure v ↔ fw_spm_ok true v.
Proof.
  split; [intros ((st & Hl & Hp) & Hc)|intros (Hc & Hl)].
  - simpl in Hp. by subst.
  - split; [by exists SpmcRuntime|done].
Qed.

Lemma fw_service_ok sv :
  sv ∈ [arch services; psci services; platform services; spmd services; errata_management services;
        trng services; rmmd services] → service_ok fw_ok fw_legal sv.
Proof.
  rewrite !elem_of_cons, elem_of_nil. intros [->|[->|[->|[->|[->|[->|[->|[]]]]]]]].
  - by apply arch_service_ok, Hlaws.
  - eapply (zoom_service_ok psci_lens eq);
      [by apply (psci_service_ok spm_platform fw_spm_ok cores me fw_spm_phase (λ _ _ _, True));
         [apply Hlaws..|apply fw_spm_phase_up]|..|by intros [] ? <-].
    + by intros w a [].
    + done.
    + by intros w w' a b [] <- (? & ? & ?); split.
  - apply dummy_service_ok.
  - eapply (zoom_service_ok spmd_lens world_ok); [by apply (spmd_service_ok me)|..|done].
    + by intros w a [].
    + by intros w regs a [].
    + by intros w w' a b [] _ Hb; split.
  - apply errata_service_ok. intros e (e0 & -> & _)%list_elem_of_fmap w s Hs. done.
  - eapply (zoom_service_ok trng_lens eq);
      [by apply (trng_service_ok get_entropy req_words uuid (λ _ _ _, True)); apply Hlaws|..|by intros [] ? <-].
    + by intros w a [].
    + done.
    + by intros w w' a b [] <- Hb; split.
  - eapply (zoom_service_ok rmmd_lens (λ w w', w = w' ∨ (w ≠ Secure ∧ w' ≠ Secure)));
      [by apply rmmd_service_ok; apply Hlaws|..].
    + by intros w a [].
    + by intros w regs a [].
    + intros w w' a b [? (st & Hl & Hp) ???] Hw Hb. split; try done. exists st. split; [done|].
      destruct Hw as [<-|[? ?]]; [done|]. by destruct w, w'.
    + intros w w' [<-|[? ?]]; [by destruct w|by destruct w, w'].
Qed.

Lemma enter_ok regs w s :
  fw_ok w s → smc_return_wf regs →
  runs (Services.enter_world ops regs w) (λ '(r, regs') s', fw_ok w s' ∧ smc_return_wf regs' ∧
    used regs' = MAX_VALUES ∧ (r = RunSmc → fw_legal w regs' s') ∧
    (r = RunInterrupt → interrupt_ok ops fw_ok w s') ∧
    (∀ esr, r = RunSysregTrap esr → runs (Services.inject_undef64 ops w) (λ _ s'', fw_ok w s'') s')) s.
Proof.
  intros Hs Hwf. eapply runs_bind; [by apply core_step_ok, prepare_entry_runs; [|destruct Hs|]|].
  intros ? s1 Hs1. eapply runs_bind; [by apply (fw_exit Hlaws)|].
  intros [[reason esr] vs] s2 (Hs2 & Hlen & Hr).
  assert (Hwf2 : smc_return_wf (mkSmcReturn MAX_VALUES vs)) by (split; [done|simpl; lia]).
  unfold decode_exit.
  destruct Hr as [[-> Hr]|[[-> Hr]|[-> Hr]]];
    (apply runs_ret; split; [done|]; split; [done|]; split; [done|]; split; [done|]; split; [done|]); [done..|].
  intros esr' _. apply core_step_ok; [done|]. apply inject_runs; [by destruct Hs2|done].
Qed.

Lemma fw_loop_laws : loop_laws services ops fw_ok fw_legal.
Proof.
  split.
  - apply enter_ok.
  - apply fw_service_ok.
  - intros regs s Hs Hwf. apply runs_zoom.
    eapply runs_weaken; [by apply spmd_forward_ok; [destruct Hs|]|].
    intros [w' regs'] sp [Hsp ?]. split; [by destruct Hs; split|done].
  - intros w s Hs. apply core_step_ok, set_initial_runs; [done|apply Hlaws|by destruct Hs].
  - intros w w' s Hne Hs. apply core_step_ok, switch_runs; [done|apply Hlaws|done|by destruct Hs].
  - by intros s []; split.
Qed.

(** C11: A call that a world is meant to make ([fw_legal]) is handled without a panic, and
    what EL3 goes on with is well formed: the state of every service, that of the power
    domain tree, of the SPMC, of the entropy pool, of the granules and of the contexts
    of the core, the world that runs next and the registers it is given.  The SPM that
    PSCI calls is the dispatcher.  [fw_laws] are assumed: of the platform, of the SPMC,
    which answers what a PSCI call makes the dispatcher ask it, and of the other cores,
    which do not switch to OS-initiated mode while this core waits with a suspend call
    for the locks of its ancestors. *)
Theorem smc_keeps_types regs w s :
  fw_ok w s → smc_return_wf regs → used regs = MAX_VALUES → fw_legal w regs s →
  runs (handle_smc services regs w)
    (λ '(w', regs') s', fw_ok w' s' ∧ world_ok w w' ∧ smc_return_wf regs') s.
Proof.
  intros Hs Hwf Hu Hl.
  eapply runs_weaken; [by apply (handle_smc_runs services ops fw_ok fw_legal fw_loop_laws)|].
  by intros [w' regs'] s' Hpost.
Qed.

Local Abbreviation loop := (fw_run_loop psci_platform cores spm_exit get_entropy req_words uuid
  rmm_platform gpt mte2 (x_ext <$> infos) errata me arch_platform gic el3_exit).

Lemma loop_halts fuel s : fw_ok Secure s → runs (loop fuel) (λ _ _, False) s.
Proof.
  intros Hs. destruct (run_loop_runs services ops fw_ok fw_legal fw_loop_laws fuel s Hs) as [s' Hr].
  unfold runs. change (loop fuel s) with (run_loop services ops fuel s). by rewrite Hr.
Qed.

(** ** Booting *)
Context (Hboots : Forall boots (x_ext <$> infos)).
Context (ns_ep secure_ep realm_ep : EntryPointInfo).
Context (Hargs : ∀ w, length (args (entry_points ns_ep secure_ep realm_ep w)) = 8%nat).

(** All but the contexts of the core. *)
Record parts_ok (s : Fw) : Prop := mkPartsOk {
  parts_trng : pool_ok (words_in_pool req_words) (fw_trng s).1;
  parts_rmmd : rmm_ok rmm_platform gpt (fw_rmmd s);
  parts_per_world pw : PER_WORLD_CONTEXT (fw_core s) = Some pw → ∀ w, secure_state w (pw w);
}.

(** A core that has just been given power: it is being turned on, its SPMC is off;
    or it resumes, with the contexts it was suspended with. *)
Definition powered_up (s : Fw) : Prop :=
  parts_ok s ∧ ∃ ph, tree_ok (power_domain_tree (fw_psci s)) ph ∧
    (ph me = PhOnPending ∧ core_local (fw_spmd s) !! me = Some SpmcOff ∨
     ph me = PhSuspended true ∧ core_local (fw_spmd s) !! me = Some SpmcRuntime ∧ core_ok (fw_core s)).

Lemma init_step_ok ns secure realm s :
  idle me (fw_psci s) → spmd_phase me Secure (fw_spmd s) → parts_ok s →
  (∀ w, length (args (entry_points ns secure realm w)) = 8%nat) →
  runs (zoom core_lens (initialise_contexts (x_ext <$> infos) ns secure realm)) (λ _, fw_ok Secure) s.
Proof.
  intros Hp Hsp [Ht Hr Hpw] Hlen. apply runs_zoom.
  eapply runs_weaken; [by apply initialise_runs|]. intros ? c Hc. by split.
Qed.

Lemma services_new_ok w src m buffer rp c s :
  services_new psci_platform req_words rmm_platform me w src m buffer rp c = Done s →
  gpt_valid gpt (memory m) → length buffer = Z.to_nat RMM_SHARED_BUFFER_SIZE → PER_WORLD_CONTEXT c = None →
  idle me (fw_psci s) ∧ spmd_phase me Secure (fw_spmd s) ∧ parts_ok s.
Proof.
  intros (psci & Hp & Hs)%outcome_bind_Done Hg Hb Hc.
  apply outcome_bind_Done in Hs as (sp & Hsp & Hs). injection Hs as <-. simpl. split; [|split].
  - exists (initial_phases me). split; [|by apply fn_lookup_insert].
    by eapply psci_new_tree_ok; [|apply Hlaws].
  - apply outcome_bind_Done in Hsp as ([] & _ & Hsp).
    apply outcome_bind_Done in Hsp as (l & [Hlt ->]%arr_set_Done & Hsp). injection Hsp as <-.
    exists SpmcBoot. split; [|done]. by apply list_lookup_insert_eq.
  - split; simpl.
    + apply pool_new_ok. pose proof (fw_words Hlaws). unfold words_in_pool. lia.
    + split; simpl; [done|apply length_replicate|lia|done].
    + by rewrite Hc.
Qed.

Context (entry_point_address context_id : EntryPoint → Z).
Local Abbreviation warm := (warmboot psci_platform cores spm_exit get_entropy req_words uuid
  rmm_platform gpt mte2 (x_ext <$> infos) errata me arch_platform gic el3_exit ns_ep secure_ep realm_ep
  entry_point_address context_id).
Local Abbreviation cold := (coldboot psci_platform cores spm_exit get_entropy req_words uuid
  rmm_platform gpt mte2 (x_ext <$> infos) errata me arch_platform gic el3_exit ns_ep secure_ep realm_ep).

(** A wake-up moves the SPMC of this core and nothing else. *)
Lemma spmd_wake_off sp :
  core_local sp !! me = Some SpmcOff →
  runs (handle_wake_from_cpu_off spmd_alone me) (λ _ sp', spmd_phase me Secure sp') sp.
Proof.
  intros Hl. eapply runs_weaken; [by apply (runs_switch spmd_alone spmd_alone_laws me sp)|].
  intros ? sp' Hm. exists SpmcBoot. split; [exact (moved_lookup spmd_alone _ _ _ _ _ Hl Hm)|done].
Qed.
Lemma spmd_wake_suspend sp :
  core_local sp !! me = Some SpmcRuntime →
  runs (Spmd.handle_wake_from_cpu_suspend spmd_alone me)
    (λ regs sp', length (values regs) = 18%nat ∧ spmd_phase me Secure sp') sp.
Proof.
  intros Hl. eapply (runs_bind _ _ (λ _ sp', sp' = sp)); [done|]. intros self ? ->.
  eapply runs_bind; [by apply (runs_switch spmd_alone spmd_alone_laws me sp)|].
  intros ? sp' Hm. split.
  - unfold write_regs, values. simpl. by rewrite length_take, length_app, to_regs_length.
  - exists SpmcPsciEventHandling. split; [exact (moved_lookup spmd_alone _ _ _ _ _ Hl Hm)|done].
Qed.

Lemma cpu_boot_runs s :
  powered_up s →
  runs (zoom psci_lens (handle_cpu_boot spm_platform me)) (λ r s',
    idle me (fw_psci s') ∧ parts_ok s' ∧
    match r with
    | CpuOn _ => core_local (fw_spmd s') !! me = Some SpmcOff
    | SuspendFinished _ => core_local (fw_spmd s') !! me = Some SpmcRuntime ∧ core_ok (fw_core s')
    end) s.
Proof.
  intros ([Ht Hr Hpw] & ph & Hok & Hph). apply runs_zoom.
  destruct (tree_ok_lookup _ _ me Hok (fw_me Hlaws)) as [cpu Hcpu].
  pose proof (handle_cpu_boot_wp spm_platform me cpu (lget psci_lens s) ph Hok (fw_me Hlaws)) as Hwp.
  specialize (Hwp ltac:(tauto) Hcpu). unfold wp in Hwp. unfold runs.
  destruct (handle_cpu_boot spm_platform me (lget psci_lens s)) as [r st'| |]; [|done..].
  destruct Hwp as ([= _ Hspm] & Hok' & entry & _ & ->). destruct st' as [t m wd [sp c]]. simpl in *. injection Hspm as -> ->.
  split; [exists (<[me:=PhRunning]> ph); split; [done|apply fn_lookup_insert]|].
  split; [by split|]. by destruct Hph as [[-> ?]|[-> ?]].
Qed.

Lemma warm_start_runs fuel s : powered_up s → runs (warm fuel) (λ _ _, False) s.
Proof.
  intros Hs. eapply runs_bind; [by apply cpu_boot_runs|]. intros r s1 (Hi & [Ht Hr Hpw] & Hcase).
  eapply (runs_bind _ _ (λ _, fw_ok Secure)); [|intros ?; apply loop_halts].
  destruct r as [ep|ep].
  - eapply (runs_bind _ _ (λ _ s', s' = s1)); [by destruct s1|]. intros secondary ? ->.
    eapply (runs_bind _ _ (λ _ s', idle me (fw_psci s') ∧ spmd_phase me Secure (fw_spmd s') ∧ parts_ok s')).
    + apply runs_zoom. eapply runs_weaken; [by apply spmd_wake_off|]. by intros ? sp Hsp; split.
    + intros ? s2 (? & ? & ?). apply init_step_ok; [done..|]. intros w. specialize (Hargs w).
      destruct w; simpl in *; rewrite ?length_insert, ?length_fmap; done.
  - destruct Hcase as [Hl Hc].
    eapply (runs_bind _ _ (λ regs s', length (values regs) = 18%nat ∧ fw_ok Secure s')).
    + apply runs_zoom. eapply runs_weaken; [by apply spmd_wake_suspend|]. by intros regs sp [? ?]; split.
    + intros sargs s2 [H18 Hs2].
      eapply (runs_bind _ _ (λ rargs s', length rargs = 4%nat ∧ fw_ok Secure s')).
      * apply runs_zoom. destruct (lookup_lt_is_Some_2 (activation_token (fw_rmmd s2)) me) as [t Htok].
        { rewrite (rmm_tokens _ _ _ (ok_rmmd _ _ Hs2)). apply Hlaws. }
        unfold Rmm.handle_wake_from_cpu_suspend, runs. cbv [mbind M_bind get lift]. simpl.
        unfold arr_get. rewrite Htok. simpl. split; [done|]. by destruct Hs2; split.
      * intros rargs s3 [H4 Hs3]. apply core_step_ok; [done|].
        apply resume_runs; [done|by destruct Hs3|done|rewrite H4; unfold GPREGS_COUNT; lia].
Qed.

End Firmware.
