(* ===== verification/FirmwareSample.v ===== *)
(** * The firmware on a concrete machine

    The QEMU platform of [Sample.v] with the contexts of [ContextSample.v]: each
    world makes one call over and over, and the firmware runs forever. *)

From Stdlib Require Import ZArith Lia.
From stdpp Require Import base list numbers option functions strings.
From S2P Require Import Prelude PowerState Smccc PowerTree Composite TreeInv Coordination Psci PsciInv PsciSystem PsciCalls Platforms PlatformLaws Sample PsciProps Trng TrngProofs TrngProps Gpt GptProofs Rmm RmmProofs RmmProps Services ServicesProps Spmd SpmdProps Context Extensions Simd ContextProofs ContextProps ContextBoot ContextSample Gic System Firmware FirmwareProps.
Open Scope rust_scope.
Open Scope Z_scope.

#[local] Existing Instance ffa_types.
#[local] Existing Instance ffa_ops.
#[local] Existing Instance sample_sysregs.
#[local] Existing Instance sample_features.
#[local] Existing Instance sample_sysregs_laws.
#[local] Existing Instance sample_laws_0.
#[local] Instance sample_laws_1 : PsciPlatformLaws (sample_qemu 1) := sample_qemu_laws 1 one_lt_cores.
#[local] Instance ffa_laws : ArmFfaLaws.
Proof. by split. Qed.

Abbreviation SampleFw :=
  (Firmware (PsciState QemuPowerState EntryPoint (QemuWorld unit) unit) (EntropyPool * nat) (RmmdState unit)).

(** The platform without an SPM of its own, and its state. *)
Definition fw_qemu (me : nat) : PsciPlatform QemuPowerState (QemuWorld unit) unit :=
  with_spm (sample_qemu me) (mkPsciSpmInterface (λ _, mret (Ok tt)) (mret tt) (mret tt)).
Definition without_spm (st : QSt) : PsciState QemuPowerState EntryPoint (QemuWorld unit) unit :=
  mkPsci (power_domain_tree st) (suspend_mode st) (world st) tt.
Definition fw_cores : OtherCores (PsciState QemuPowerState EntryPoint (QemuWorld unit) Spm) :=
  mkOtherCores halt (mret tt).
#[local] Instance fw_qemu_optional me : PsciOptionalLaws (fw_qemu me).
Proof. apply with_spm_optional, sample_qemu_optional. Qed.
#[local] Instance fw_qemu_0 : PsciPlatformLaws (fw_qemu 0) := with_spm_laws (sample_qemu 0) _ _.
#[local] Instance fw_qemu_1 : PsciPlatformLaws (fw_qemu 1) := with_spm_laws (sample_qemu 1) _ _.

(** [FFA_MSG_WAIT], [PSCI_VERSION] and [RMM_BOOT_COMPLETE]. *)
Definition sample_call (w : World) : Z :=
  match w with Secure => 0x8400006b | NonSecure => 0x84000000 | Realm => 0xC40001CF end.
Definition sample_exit (w : World) : M SampleFw (Z * Z * list Z) :=
  mret (RUN_RESULT_SMC, 0, sample_call w :: replicate 17 0).
Definition sample_gic : GicOps SampleFw :=
  mkGicOps 1020 1021 (mret None) (mret None) (λ _, mret tt) (λ _, mret tt).
Definition sample_arch : ArchPlatform SampleFw :=
  mkArchPlatform SafeButNotRequired SafeButNotRequired SafeButNotRequired SafeButNotRequired
    (mret tt) (mret tt) (mret tt).
(** The SPMC answers what PSCI makes the dispatcher ask it. *)
Definition sample_spm_exit (w : World) : M Spm (Z * Z * list Z) := λ v,
  Ret (RUN_RESULT_SMC, 0, 0x84000070 :: spmc_id v.1 :: replicate 16 0) v.

Definition sample_ep (n : Z) : EntryPointInfo := ContextSample.sample_entry n.
Definition sample_boot_fw : outcome SampleFw :=
  services_new (fw_qemu 0) 1 sample_plat 0 sample_qemu_world 0%nat sample_machine
    (replicate (Z.to_nat RMM_SHARED_BUFFER_SIZE) 0) tt reset_core.

Lemma sample_rmm_ok : rmm_platform_ok sample_plat.
Proof.
  split; [done|..]; intros; eexists _, _, _; (split; [done|]); [done|]. split; [done|].
  intros size rem [= <- <-]. done.
Qed.

Lemma sample_fw_laws me :
  (me < QEMU_CORE_COUNT)%nat →
  fw_laws (fw_qemu me) fw_cores sample_spm_exit sample_source 1 sample_plat
    sample_gpt fvp_infos [] me sample_arch sample_gic sample_exit.
Proof.
  intros Hme. split; [exact Hme|exact Hme|apply idle_wait_ok; by right|by apply idle_off_ok|apply idle_stable|..].
  - intros args v rest Ha Hc Hl Hg. eexists _, _, v, _. split; [done|]. split; [done|]. split; [done|].
    split; [done|]. split; [done|]. simpl. rewrite Z.eqb_refl. by eexists.
  - apply sample_source_ok.
  - lia.
  - apply sample_rmm_ok.
  - apply sample_gpt_ok.
  - apply fvp_infos_ok.
  - by intros w s Hs.
  - intros w s Hs. split; [done|]. split; [done|]. left. split; [done|]. split.
    + intros ->. split; [by apply (bool_decide_unpack _); vm_compute|]. intros c Hc. vm_compute in Hc. done.
    + intros -> (_ & msg & Hm & He). vm_compute in Hm. injection Hm as <-. done.
Qed.

(** The cold boot of core 0, which then turns on core 1. *)
Definition fw_sample : SampleFw :=
  from_done (mkFirmware (without_spm sample_boot) (booted []) (pool_new 4, 0%nat) sample_state reset_core) sample_boot_fw.
Definition fw_sample_on : SampleFw :=
  mkFirmware (without_spm sample_on) (booted [SpmcRuntime; SpmcOff; SpmcOff; SpmcOff]) (pool_new 4, 0%nat) sample_state
    reset_core.

Lemma fw_sample_on_powered : powered_up 1 sample_plat sample_gpt 1 fw_sample_on.
Proof.
  split; [split; [apply sample_pool_ok|split; [exact sample_gpt_valid|done|done|done]|done]|].
  exists (<[1%nat := PhOnPending]> (initial_phases 0)). split; [|by left].
  exact (reachable_ok (sample_qemu 0) 0 _ _ zero_lt_cores sample_on_reachable).
Qed.

(** Core 0 in the Normal World, turning itself off. *)
Definition fw_sample_running : SampleFw :=
  mkFirmware (without_spm sample_boot) (booted [SpmcRuntime; SpmcOff; SpmcOff; SpmcOff]) (pool_new 4, 0%nat) sample_state
    sample_core.
Lemma fw_sample_running_ok : fw_ok 1 sample_plat sample_gpt 0 NonSecure fw_sample_running.
Proof.
  split; [exact sample_idle|by exists SpmcRuntime|apply sample_pool_ok|split; [exact sample_gpt_valid|done|done|done]|].
  split; [|by intros []]. exists per_world_base. split; [done|apply per_world_base_secure].
Qed.
Lemma smc_keeps_types_witness :
  let regs := mkSmcReturn MAX_VALUES (0x84000002 :: replicate 17 0) in
  runs (handle_smc (fw_services (fw_qemu 0) fw_cores sample_spm_exit sample_source 1
      [0] sample_plat sample_gpt true (x_ext <$> fvp_infos) [] 0 sample_arch) regs NonSecure)
    (λ '(w', regs') s', fw_ok 1 sample_plat sample_gpt 0 w' s' ∧ world_ok NonSecure w' ∧ smc_return_wf regs')
    fw_sample_running.
Proof.
  intros regs. apply (smc_keeps_types (fw_qemu 0) (PsciOptionalLaws0 := fw_qemu_optional 0)
      fw_cores sample_spm_exit sample_source 1 [0] sample_plat sample_gpt true
      fvp_infos [] 0 sample_arch sample_gic sample_exit (sample_fw_laws 0 zero_lt_cores)).
  - exact fw_sample_running_ok.
  - by split.
  - done.
  - split; [by intros|done].
Defined.

